(* ===== verification/_CoqProject ===== *)
-Q . S2P
Prelude.v
PyValue.v
PyFloat.v
OfflineTypes.v
OfflineStore.v
OfflineProjection.v
OfflineJournal.v
JournalSpec.v
JournalCancel.v
JournalProps.v
UploadQueue.v
UploadProps.v
ApiClient.v
ApiClientProps.v
OfflineReconciler.v
OfflineEntities.v
ReconcilerSpec.v
ReconcilerProps.v
EntityProps.v
CanonicalJson.v
CanonicalProps.v
ReplayPolicy.v
Idempotency.v
IdempotencyProps.v
RebuildState.v
RebuildProps.v
WorkLease.v
WorkLeaseProps.v
RebuildLease.v
ImportQueue.v
ImportQueueProps.v
ImportLoad.v
ImportLoadProps.v
ImportPhases.v
ImportDispatch.v
ImportDispatchProps.v
ImportPhaseProps.v
Environ.v
Sessions.v
SessionProps.v
Elevation.v
ElevationProps.v
TaskAttempts.v
ReviewSubmit.v
ReviewSubmitProps.v
Invites.v
InviteProps.v
InvitePages.v
Storage.v
StorageProps.v
OfferPhotos.v
OfferPhotoProps.v
Keyset.v
Matching.v
MatchArtifacts.v
MatchingProps.v
MatchArtifactProps.v
MatchPipelineProps.v
MatchCounts.v
MatchCountProps.v
MatchTasks.v
MatchTaskProps.v
PyText.v
PyRegex.v
ImportText.v
ImportTextProps.v
ImportNumbers.v
ImportNormalizers.v
ImportPrice.v
ImportValidate.v
ImportPipeline.v
ImportPhoneProps.v
ImportPriceProps.v
ImportValidateProps.v
ImportPipelineProps.v
ImportRecovery.v
ImportPrepare.v
ImportPrepareProps.v
AuthLockout.v
OfflineOverlay.v
