(* ===== verification/Prelude.v ===== *)
(** * ImmoApp: verification library (root)

    ImmoApp is a real-estate CRM: a desktop client (src/app, PySide6) that works offline, a server
    (src/server, Django over PostgreSQL) shared by many agencies, and a core (src/core) common to
    both.  This library models the parts of the three whose correctness rests on state that
    survives a crash, on calls that interleave, or on requests that may be sent twice, and leaves
    aside the code that only draws, serialises or configures.

    ** How the parts interact

    The client turns each action into an HTTP request through one [ApiClient] (retries, token
    refresh, circuit breaker).  When the server cannot be reached, the action is written to the
    journal of the account, with the idempotency key of the attempt, and shown through a
    projection; the reconciler later replays the journal in order, rewrites temporary ids, and
    turns refusals into conflicts for the user.  On the server, the idempotency engine gives each
    key at most one executor and replays its stored response, so that a request that is sent
    again, by a retry or by a replay, has one effect.  Requests are admitted by the session of
    the user and by the permissions of the role and of the elevations in force.  Long work is not
    done by the request: a changed listing is marked in the rebuild state, workers take leases,
    and a fair scheduler bounds what each agency runs; an import is a queue entry, then a workflow
    of phases held by leased attempts, whose load phase isolates the rows the database refuses,
    and whose review is submitted by one fenced attempt.

    ** The shared files

    - Prelude: exceptions, the state-and-exception monad [M], loops with early returns, Ltac
      and hint databases, list and map lemmas.
    - PyValue, PyFloat: the values of [json.loads] and the builtins [str], [int], [bool], [float],
      [round] on them; floats are IEEE binary64 ([spec_float]).
    - Environ: src/core/env_flags.py and the integer reader of src/server/services/auth_lockout.py.

    ** The client

    - OfflineTypes: src/app/services/offline_types.py.  Dataclasses and their JSON encodings.
    - OfflineStore: offline_store_utils.py, offline_ids.py, offline_conflicts.py, and the list of
      failed mutations of api_write_queue.py.  The state [account] is the directory of an account:
      each JSON file is missing, unreadable or holds a value.
    - OfflineProjection, OfflineOverlay: offline_projection.py.  What the screens show of the pages of
      the server and of the projections: each entity once.
    - OfflineJournal: offline_op_log.py.  JournalSpec holds its invariant (the pending snapshot and
      the replay of the event log agree), JournalCancel and JournalProps what each operation does
      to the list of pending operations: queueing, merging, cancelling with the dependants of a
      creation, readiness, recovery after the loss of the snapshot.
    - UploadQueue, UploadProps: upload_queue.py.  A photo is queued once; parents are rewritten.
    - ApiClient, ApiClientProps: api_client.py, api_client_circuit.py, api_client_utils.py.  The
      number of exchanges of a request, its unchanged key, and the circuit breaker.
    - OfflineReconciler: offline_reconciler.py, offline_runtime.py.  ReconcilerSpec shows that
      every handler keeps the account readable, ReconcilerProps that no operation is lost.
    - OfflineEntities, EntityProps: offline_entity_mutations.py, offline_capabilities.py.
    The interface between journal and network is the class [Sender]; the reconciler is proved
    against it and [ApiClient] is an instance.

    ** Requests on the server

    - CanonicalJson, CanonicalProps: src/core/contracts/idempotency_canonical_json.py and
      semantic_header_registry.py.  Fingerprints ignore the order of keys.
    - ReplayPolicy: http_policy.py, idempotency_replay_policy.py.  What a stored response keeps.
    - Idempotency, IdempotencyProps: src/server/api/idempotency_engine.py.  One executor per key,
      exact replay, signatures, retry after a failure.
    - Sessions, SessionProps: src/server/services/session_lifecycle.py, session_revocation.py,
      src/server/api/auth_session_jwt.py.  The validation cache is transparent; an ended session is
      final in every process.
    - AuthLockout: src/server/services/auth_lockout.py and the sign-in of
      src/server/api/auth_views.py.  The passwords an identity may try are bounded.
    - Elevation, ElevationProps: permission_elevation.py, permission_grant_workflow.py,
      permission_grant_queries.py, users_helpers.py.
    - Invites, InviteProps, InvitePages: registration_invites.py, registration_tokens.py and the
      keyset pages of the list.

    ** Background work on the server

    - RebuildState, RebuildProps: src/core/data/match_rebuild_state.py.  No request is lost, claims
      are exclusive and fair.
    - WorkLease, WorkLeaseProps: src/core/data/tenant_work_lease.py and
      src/server/services/match_all_scheduler.py.  Clients use the class [StreamLeases], whose laws
      [StreamLeaseLaws] the table discharges.
    - RebuildLease: rebuild_leases.py.
    - ImportQueue, ImportQueueProps: import_job_queue.py, proved from [StreamLeaseLaws] alone.
    - ImportLoad, ImportLoadProps: import_load_policy.py, import_load_conflict_isolation.py,
      import_load_accounting.py, import_root_key_index.py.  The bisection refines row-by-row
      insertion.
    - ImportPhases, ImportPhaseProps: import_workflow_leases.py, import_phase_attempts.py.
    - ImportDispatch, ImportDispatchProps: import_workflow_dispatch.py and its neighbours.
    - TaskAttempts, ReviewSubmit, ReviewSubmitProps: task_attempt_lifecycle.py,
      import_review_submit_attempts.py, import_review_submit_dispatch.py.

    ** Stored objects and photos

    - Storage, StorageProps: src/core/data/storage_objects.py, storage_events.py and the storage_*
      services.  The usage counter of an agency is the size of its ready objects, and parallel
      uploads stay within the quota.
    - OfferPhotos, OfferPhotoProps: offer_photo_lifecycle.py, offer_photos_repository.py and the
      deletion, restoration and purge of offers.py and listings.py.  A shown photo has a live offer
      and a ready object, an object no photo shows is not kept, and a restoration undoes a deletion.

    ** Matching

    - Keyset: loops over pages of ids, and lists in pieces.
    - Matching, MatchingProps: src/core/matcher.  The tables, the conditions, the query of the pairs
      that match, and the counters.
    - MatchArtifacts, MatchArtifactProps, MatchPipelineProps: match_candidates.py, match_pairs.py,
      match_artifact_pipeline.py, match_scoring_sql.py, match_pairs_compute.py.  The two pipelines
      that store candidates and ranked pairs are one function, whose result is what matches.
    - MatchCounts, MatchCountProps: match_cache_write.py, match_cache_read.py, and the rebuilds of
      tasks_match_cache.py.  A refresh leaves every active client with the number of offers that
      match its demandes; one that fails is resumed by the next.
    - MatchTasks, MatchTaskProps: match_jobs.py, tasks_match_pairs.py.  The queue of requests and the
      tasks.  The task of an edited offer leaves what a rebuild of everything would leave, the tasks
      of a client and of a wilaya go through all its demandes, a flush loses no request, and a request that
      arrives during a rebuild is answered by another.  They use the rows of RebuildState.

    ** Import normalisation and preparation

    A cell of an import is a text; its column names a type.  [normalize_row] of the pipeline calls
    the normalizer of the type for each cell and collects values, doubts and extracted values;
    [validate_row] is the last check before a row is loaded.
    - PyText: strings as lists of code points, and the class [Unicode] of the tables of the standard
      library (spaces, digits, lower case) with the laws used and an instance.
    - PyRegex: the regular expressions the code uses, a backtracking matcher with groups, and its
      soundness for the relation [mat].
    - ImportText, ImportTextProps: normalizers/text_utils.py, location_text.py.
    - ImportNumbers: type_parser.py.
    - ImportNormalizers: base.py, phone.py, boolean.py, action.py, property_type.py,
      location_normalizer.py.  ImportPhoneProps: a phone is recognised in every writing.
    - ImportPrice, ImportPriceProps: price.py.  A price is the only reading of its cell, or the one
      whose scale the agency or the column names, and never negative.
    - ImportValidate, ImportValidateProps: src/core/importer/validation and import_rows.py.  The
      fields of an accepted row are within their bounds.
    - ImportPipeline, ImportPipelineProps: normalize_pipeline.py.  A row is read cell by cell, each
      column holds its type, the two columns of a range agree, a doubt or a conflict is reviewed.

    - ImportRecovery: import_recovery.py, import_recoverability.py,
      import_agency_memory.py.  What recovery changes of a row is recorded.
    - ImportPrepare, ImportPrepareProps: import_prepare_single_flow.py and what it calls.  The loop
      over a file refines a decision for each row; what is prepared is valid and its contacts differ.

    ** State, atomicity and time

    A file of the client is written whole under a lock, and a function of the server runs in one
    transaction holding the row it changes: each is one step, and histories are sequences of steps
    of any callers ([Inductive] relations or lists of calls).  Where a function reads before it
    locks, the read is an argument, so that steps may come in between.  A failed Python call keeps
    the writes it made before it raised; a failed transaction keeps none.  A clock reading is an
    argument of each call, in the unit the code uses; [uuid4] and temporary ids are streams, injective
    where a property needs it.

    ** Parameters

    SHA-256, HMAC and password hashing, the token library, the network, the clocks, uuids and random
    tokens, the secret store, the routing table, the batch INSERT, the broker, the mail queue, the
    store of root indexes, the task run by a phase, [lower] of PostgreSQL, the batch sizes of the runtime
    profile, a failure of a batch of counts ([fault]) and what others commit between the steps of a task
    ([meanwhile]), the Unicode tables, rapidfuzz, the master data of the importer, the aliases of an
    agency, the rows of the parser and the spelling of containers in messages are arguments of the definitions.  Properties
    that need something of one name it as a hypothesis and have a witness with a concrete function.

    ** Loops and fuel

    Recursion follows the data, or takes fuel that is shown to suffice: the closure of a cancelled
    creation takes one turn per pending operation ([JournalCancel]); the bisection of n rows makes
    at most 2n inserts ([ImportLoadProps]); a request makes its configured attempts, each
    authenticated again once ([ApiClientProps]); the list of pending invitations takes one turn
    per page of 200 ([InvitePages]); a loop over pages of ids takes one turn per id and one more
    ([keyset_chunks] of Keyset); a repetition in a regular expression, [re.sub] and [str.replace] take
    one turn per character left; a binary64 value has at most 309 digits before its point and is
    determined by 17 digits ([PyValue]).

    ** What is not modelled

    - PySide6 views, widgets, delegates and themes: rendering and signals.
    - Django views, serializers, URL tables and settings: calls of a framework that is not here.
    - SQL text, row-level security and the migrations, whose meaning is PostgreSQL's; statements of
      a modelled function are written as what they do to the rows.
    - Encryption at rest, file locks and paths, artifact storage, log lines and metrics.
    - Scripts, deployment, tools and tests.
    - Reading of CSV, Excel and ODS files, the detection of headers, columns and entities, the checks
      of uploads: heuristics and libraries before the mapping that the pipeline takes as given.  The
      preparation of bundles of contacts and their children.
    - The unused date and decimal parsers of type_parser.py.
    - The chunk tasks around a phase attempt, the cancellation and the status of an import, which combine modelled calls with the
      broker; the approval of registrations. *)

From stdpp Require Export base tactics list gmap strings pretty sorting.
From Stdlib Require Export ZArith Lia.
From Stdlib Require Import Ascii String.
Open Scope Z_scope.
Open Scope string_scope.
Open Scope list_scope.

(** ** Exceptions, results and the state-and-exception monad

    A Python call either returns or raises, and in both cases the writes it made before
    that point stay: [M S A] is a function from a state to an outcome and a state. *)

Inductive exn : Type :=
  | ValueError (msg : string)
  | TypeError (msg : string)
  | OverflowError (msg : string)
  | RuntimeError (msg : string)
  | ApiError (status_code : Z) (message : string)
  | OtherError (msg : string).

#[export] Instance exn_eq_dec : EqDecision exn.
Proof. solve_decision. Defined.

Inductive res (A : Type) : Type :=
  | Ok (a : A)
  | Err (e : exn).
Arguments Ok {A} a.
Arguments Err {A} e.

#[export] Instance res_eq_dec `{EqDecision A} : EqDecision (res A).
Proof. solve_decision. Defined.

Definition res_bind {A B} (r : res A) (k : A → res B) : res B :=
  match r with Ok a => k a | Err e => Err e end.

Definition M (S A : Type) : Type := S → res A * S.

Definition ret {S A} (a : A) : M S A := λ s, (Ok a, s).
Definition raise {S A} (e : exn) : M S A := λ s, (Err e, s).
Definition bind {S A B} (m : M S A) (k : A → M S B) : M S B :=
  λ s, match m s with
       | (Ok a, s') => k a s'
       | (Err e, s') => (Err e, s')
       end.
Definition gets {S A} (f : S → A) : M S A := λ s, (Ok (f s), s).
Definition modify {S} (f : S → S) : M S unit := λ s, (Ok tt, f s).
Definition lift {S A} (r : res A) : M S A := λ s, (r, s).

(** [try: m except E: h], where [h e = None] lets [e] propagate. *)
Definition catch {S A} (m : M S A) (h : exn → option (M S A)) : M S A :=
  λ s, match m s with
       | (Ok a, s') => (Ok a, s')
       | (Err e, s') => match h e with Some k => k s' | None => (Err e, s') end
       end.

Declare Scope py_scope.
Delimit Scope py_scope with py.
Notation "'let!' x ':=' m 'in' k" := (bind m (λ x, k))
  (at level 10, x pattern, m at level 100, k at level 200) : py_scope.
Notation "'do!' m 'in' k" := (bind m (λ _ : unit, k))
  (at level 10, m at level 100, k at level 200) : py_scope.
Notation "'let?' x ':=' r 'in' k" := (res_bind r (λ x, k))
  (at level 10, x pattern, r at level 100, k at level 200) : py_scope.
Open Scope py_scope.

(** [for x in l: body x], stopping at the first exception. *)
Fixpoint for_each {S A} (body : A → M S unit) (l : list A) : M S unit :=
  match l with
  | [] => ret tt
  | x :: l' => do! body x in for_each body l'
  end.

Lemma for_each_map {S A B} (f : A → B) (body : B → M S unit) (l : list A) :
  for_each body (map f l) = for_each (λ x, body (f x)) l.
Proof. induction l as [|x l IH]; simpl; [done|]. by rewrite IH. Qed.

Lemma bind_ok {S A B} (m : M S A) (k : A → M S B) s a s' :
  m s = (Ok a, s') → bind m k s = k a s'.
Proof. unfold bind. by intros ->. Qed.

Lemma bind_err {S A B} (m : M S A) (k : A → M S B) s e s' :
  m s = (Err e, s') → bind m k s = (Err e, s').
Proof. unfold bind. by intros ->. Qed.

Lemma bind_gets {S A B} (f : S → A) (k : A → M S B) s : bind (gets f) k s = k (f s) s.
Proof. done. Qed.
Lemma bind_modify {S B} (f : S → S) (k : unit → M S B) s : bind (modify f) k s = k tt (f s).
Proof. done. Qed.
Lemma bind_lift_ok {S A B} (r : res A) (a : A) (k : A → M S B) s : r = Ok a → bind (lift r) k s = k a s.
Proof. by intros ->. Qed.
Lemma bind_ret {S A B} (a : A) (k : A → M S B) s : bind (ret a) k s = k a s.
Proof. done. Qed.

(** ** Total-correctness triples

    [hoare P m Q]: from a state in [P], [m] returns (it does not raise) a value and a state
    in [Q]. *)

Definition hoare {S A} (P : S → Prop) (m : M S A) (Q : A → S → Prop) : Prop :=
  ∀ s, P s → ∃ a s', m s = (Ok a, s') ∧ Q a s'.

Section Hoare.
Context {S : Type}.
Implicit Types (P : S → Prop).

Lemma hoare_ret {A} (a : A) P Q : (∀ s, P s → Q a s) → hoare P (ret a) Q.
Proof. intros H s Hs. exists a, s. auto. Qed.
Lemma hoare_gets {A} (f : S → A) P Q : (∀ s, P s → Q (f s) s) → hoare P (gets f) Q.
Proof. intros H s Hs. exists (f s), s. auto. Qed.
Lemma hoare_modify (f : S → S) P (Q : unit → S → Prop) :
  (∀ s, P s → Q tt (f s)) → hoare P (modify f) Q.
Proof. intros H s Hs. exists tt, (f s). auto. Qed.
Lemma hoare_bind {A B} (m : M S A) (k : A → M S B) P R Q :
  hoare P m R → (∀ a, hoare (R a) (k a) Q) → hoare P (bind m k) Q.
Proof.
  intros Hm Hk s Hs. destruct (Hm s Hs) as (a & s' & E & HR).
  rewrite (bind_ok _ _ _ _ _ E). by apply Hk.
Qed.
Lemma hoare_conseq {A} (m : M S A) P P' (Q Q' : A → S → Prop) :
  hoare P' m Q' → (∀ s, P s → P' s) → (∀ a s, Q' a s → Q a s) → hoare P m Q.
Proof. intros Hm HP HQ s Hs. destruct (Hm s (HP s Hs)) as (a & s' & E & ?). eauto. Qed.
Lemma hoare_pure {A} (m : M S A) P (Q : A → S → Prop) (φ : Prop) :
  (∀ s, P s → φ) → (φ → hoare P m Q) → hoare P m Q.
Proof. intros Hφ Hm s Hs. eapply Hm; eauto. Qed.
Lemma hoare_fact {A} (m : M S A) P (Q : A → S → Prop) (φ : Prop) :
  (φ → hoare P m Q) → hoare (λ s, φ ∧ P s) m Q.
Proof. intros Hm s [Hφ Hs]. by apply Hm. Qed.
Lemma hoare_exists {A X} (m : M S A) (P : X → S → Prop) (Q : A → S → Prop) :
  (∀ x, hoare (P x) m Q) → hoare (λ s, ∃ x, P x s) m Q.
Proof. intros Hm s [x Hs]. by apply (Hm x). Qed.
Lemma hoare_for_each {A} (body : A → M S unit) (I : list A → S → Prop) (l : list A) :
  (∀ done_ x todo, l = done_ ++ x :: todo →
     hoare (I done_) (body x) (λ _, I (done_ ++ [x]))) →
  hoare (I []) (for_each body l) (λ _, I l).
Proof.
  intros Hbody.
  assert (∀ done_ todo, l = done_ ++ todo →
            hoare (I done_) (for_each body todo) (λ _, I l)) as Hgen; [|by apply Hgen].
  intros done_ todo. revert done_. induction todo as [|x todo IH]; intros done_ El; simpl.
  - rewrite app_nil_r in El. subst. by apply hoare_ret.
  - eapply hoare_bind; [by eapply Hbody|]. intros []. apply IH.
    by rewrite <- (assoc_L (++)).
Qed.
End Hoare.

(** [keeps P m]: whether it returns or raises, [m] leaves a state in [P]. *)
Definition keeps {S A} (P : S → Prop) (m : M S A) : Prop := ∀ s, P s → P (m s).2.

Section Keeps.
Context {S : Type}.
Implicit Types (P : S → Prop).

Lemma keeps_ret {A} P (a : A) : keeps P (ret a).
Proof. by intros s Hs. Qed.
Lemma keeps_lift {A} P (r : res A) : keeps P (lift r).
Proof. by intros s Hs. Qed.
Lemma keeps_gets {A} P (f : S → A) : keeps P (gets f).
Proof. by intros s Hs. Qed.
Lemma keeps_raise {A} P e : keeps P (raise (A:=A) e).
Proof. by intros s Hs. Qed.
Lemma keeps_bind {A B} P (m : M S A) (k : A → M S B) :
  keeps P m → (∀ a, keeps P (k a)) → keeps P (bind m k).
Proof.
  intros Hm Hk s Hs. unfold bind. specialize (Hm s Hs).
  destruct (m s) as [[a|e] s']; [by apply Hk|done].
Qed.
Lemma keeps_hoare {A} P (m : M S A) : hoare P m (λ _, P) → keeps P m.
Proof. intros Hm s Hs. by destruct (Hm s Hs) as (a & s' & -> & ?). Qed.

(** [safe P m Q E]: from [P], [m] returns in [Q] or raises in [E]. *)
Definition safe {A} (P : S → Prop) (m : M S A) (Q : A → S → Prop) (E : S → Prop) : Prop :=
  ∀ s, P s → match m s with (Ok a, s') => Q a s' | (Err _, s') => E s' end.

Lemma safe_bind {A B} P (m : M S A) (k : A → M S B) R Q E :
  safe P m R E → (∀ a, safe (R a) (k a) Q E) → safe P (bind m k) Q E.
Proof.
  intros Hm Hk s Hs. unfold bind. specialize (Hm s Hs).
  destruct (m s) as [[a|e] s']; [by apply Hk|done].
Qed.
Lemma safe_keeps {A} P (m : M S A) : keeps P m → safe P m (λ _, P) P.
Proof. intros Hm s Hs. specialize (Hm s Hs). by destruct (m s) as [[a|e] s']. Qed.
Lemma safe_hoare {A} P (m : M S A) Q E : hoare P m Q → safe P m Q E.
Proof. intros Hm s Hs. by destruct (Hm s Hs) as (a & s' & -> & ?). Qed.
Lemma safe_raise {A} P e (Q : A → S → Prop) E : (∀ s, P s → E s) → safe P (raise e) Q E.
Proof. intros HE s Hs. by apply HE. Qed.
(** A handler for every exception makes the call total. *)
Lemma hoare_catch {A} P (m : M S A) (h : exn → M S A) Q E :
  safe P m Q E → (∀ e, hoare E (h e) Q) → hoare P (catch m (λ e, Some (h e))) Q.
Proof.
  intros Hm Hh s Hs. unfold catch. specialize (Hm s Hs).
  destruct (m s) as [[a|e] s']; [by exists a, s'|by apply Hh].
Qed.
End Keeps.

(** ** Python dictionaries with string keys

    A [dict] keeps insertion order, so it is an association list; assignment to a key
    that exists replaces the value in place, to a new key appends. *)

Section Dict.
Context {V : Type}.
Implicit Types (d : list (string * V)) (k : string).

Fixpoint dget k d : option V :=
  match d with
  | [] => None
  | (k', v) :: d' => if decide (k = k') then Some v else dget k d'
  end.

Fixpoint dset k (v : V) d : list (string * V) :=
  match d with
  | [] => [(k, v)]
  | (k', v') :: d' => if decide (k = k') then (k, v) :: d' else (k', v') :: dset k v d'
  end.

Fixpoint dpop k d : list (string * V) :=
  match d with
  | [] => []
  | (k', v') :: d' => if decide (k = k') then d' else (k', v') :: dpop k d'
  end.

Definition dhas k d : bool := match dget k d with Some _ => true | None => false end.
Definition dupdate d d2 : list (string * V) := foldl (λ acc kv, dset kv.1 kv.2 acc) d d2.
Definition dsetdefault k (v : V) d := if dhas k d then d else dset k v d.
Definition dkeys d : list string := map fst d.
Definition dvalues d : list V := map snd d.

Lemma dget_dset_eq k v d : dget k (dset k v d) = Some v.
Proof.
  induction d as [|[k' v'] d IH]; simpl; [by rewrite decide_True|].
  case_decide; simpl; [by rewrite decide_True|]. by rewrite decide_False.
Qed.
Lemma dget_dset_ne k k' v d : k ≠ k' → dget k (dset k' v d) = dget k d.
Proof.
  intros Hne. induction d as [|[k2 v2] d IH]; simpl;
    repeat (case_decide; simpl; simplify_eq); done.
Qed.
Lemma dget_None_keys k d : dget k d = None ↔ k ∉ dkeys d.
Proof.
  unfold dkeys. induction d as [|[k' v'] d IH]; simpl; [split; [intros _ H; inversion H|done]|].
  case_decide; simplify_eq.
  - split; [done|]. intros H. exfalso. apply H. left.
  - rewrite IH, not_elem_of_cons. tauto.
Qed.
Lemma dget_Some_elem k v d : dget k d = Some v → (k, v) ∈ d.
Proof.
  induction d as [|[k' v'] d IH]; simpl; [done|].
  case_decide; intros; simplify_eq; [left|right; auto].
Qed.
Lemma dget_elem_NoDup k v d : NoDup (dkeys d) → (k, v) ∈ d → dget k d = Some v.
Proof.
  unfold dkeys. induction d as [|[k' v'] d IH]; simpl; [by inversion 2|].
  intros [Hn Hd]%NoDup_cons [Heq|Hin]%elem_of_cons; simplify_eq.
  - by rewrite decide_True.
  - case_decide; [subst|by apply IH].
    exfalso. apply Hn. apply list_elem_of_In, (in_map fst _ (k', v)). by apply list_elem_of_In.
Qed.
Lemma dkeys_dset k v d :
  dkeys (dset k v d) = if dhas k d then dkeys d else dkeys d ++ [k].
Proof.
  unfold dhas, dkeys. induction d as [|[k' v'] d IH]; simpl; [done|].
  case_decide; simplify_eq; simpl; [done|]. rewrite IH. by destruct (dget k d).
Qed.
Lemma NoDup_dset k v d : NoDup (dkeys d) → NoDup (dkeys (dset k v d)).
Proof.
  intros Hd. rewrite dkeys_dset. unfold dhas. destruct (dget k d) eqn:E; [done|].
  apply NoDup_app. split_and!; [done| |apply NoDup_singleton].
  intros x Hx ->%list_elem_of_singleton. by apply dget_None_keys in E.
Qed.
Lemma dkeys_dpop_sub k d x : x ∈ dkeys (dpop k d) → x ∈ dkeys d.
Proof.
  unfold dkeys. induction d as [|[k' v'] d IH]; simpl; [done|].
  case_decide; simpl; [by right|].
  intros [->|Hin]%elem_of_cons; [left|right; auto].
Qed.
Lemma NoDup_dpop k d : NoDup (dkeys d) → NoDup (dkeys (dpop k d)).
Proof.
  unfold dkeys. induction d as [|[k' v'] d IH]; simpl; [done|].
  intros [Hn Hd]%NoDup_cons. case_decide; simpl; [done|].
  apply NoDup_cons. split; [|auto]. intros Hin. apply Hn. by apply (dkeys_dpop_sub k).
Qed.
Lemma dget_dpop_ne k k' d : k ≠ k' → dget k (dpop k' d) = dget k d.
Proof.
  intros Hne. induction d as [|[k2 v2] d IH]; simpl;
    repeat (case_decide; simpl; simplify_eq); done.
Qed.
Lemma dget_dpop_eq k d : NoDup (dkeys d) → dget k (dpop k d) = None.
Proof.
  unfold dkeys. induction d as [|[k' v'] d IH]; simpl; [done|].
  intros [Hn Hd]%NoDup_cons. case_decide; simplify_eq; simpl.
  - by apply dget_None_keys.
  - by rewrite decide_False, IH.
Qed.
Lemma dhas_true k d : dhas k d = true ↔ is_Some (dget k d).
Proof. unfold dhas. destruct (dget k d); naive_solver. Qed.
Lemma dget_dupdate k d d2 :
  NoDup (dkeys d2) →
  dget k (dupdate d d2) = match dget k d2 with Some v => Some v | None => dget k d end.
Proof.
  unfold dupdate, dkeys. revert d. induction d2 as [|[k' v'] d2 IH]; intros d; simpl; [done|].
  intros [Hn Hd]%NoDup_cons. rewrite IH by done. case_decide; simplify_eq.
  - rewrite (proj2 (dget_None_keys k' d2) Hn). apply dget_dset_eq.
  - destruct (dget k d2); [done|]. by apply dget_dset_ne.
Qed.
End Dict.

(** ** Stable sorting, as [sorted(xs, key=...)] and [list.sort(key=...)] do *)

Section StableSort.
Context {A : Type} (leb : A → A → bool).

Fixpoint sinsert (x : A) (l : list A) : list A :=
  match l with
  | [] => [x]
  | y :: l' => if leb x y then x :: y :: l' else y :: sinsert x l'
  end.
Definition ssort (l : list A) : list A := foldr sinsert [] l.

Lemma sinsert_perm x l : sinsert x l ≡ₚ x :: l.
Proof.
  induction l as [|y l IH]; simpl; [done|]. destruct (leb x y); [done|].
  rewrite IH. apply Permutation_swap.
Qed.
Lemma ssort_perm l : ssort l ≡ₚ l.
Proof. induction l as [|x l IH]; simpl; [done|]. by rewrite sinsert_perm, IH. Qed.

Hypothesis leb_total : ∀ x y, leb x y = false → leb y x = true.
Hypothesis leb_trans : ∀ x y z, leb x y = true → leb y z = true → leb x z = true.

Lemma sinsert_sorted x l :
  StronglySorted (λ a b, leb a b = true) l →
  StronglySorted (λ a b, leb a b = true) (sinsert x l).
Proof.
  induction 1 as [|y l Hl IH Hy]; simpl; [by repeat constructor|].
  destruct (leb x y) eqn:E; repeat constructor; eauto.
  - eapply List.Forall_impl; [|apply Hy]. simpl. intros z Hz. by eapply leb_trans.
  - rewrite sinsert_perm. constructor; auto.
Qed.
Lemma ssort_sorted l : StronglySorted (λ a b, leb a b = true) (ssort l).
Proof. induction l; simpl; [constructor|by apply sinsert_sorted]. Qed.

Lemma sinsert_le_all x l :
  Forall (λ y, leb x y = true) l → sinsert x l = x :: l.
Proof. destruct 1 as [|y l E]; simpl; [done|]. by rewrite E. Qed.
Lemma ssort_id l : StronglySorted (λ a b, leb a b = true) l → ssort l = l.
Proof. induction 1 as [|x l Hl IH Hx]; simpl; [done|]. rewrite IH. by apply sinsert_le_all. Qed.

(** A sorted list is determined by its elements when the order is antisymmetric on them. *)
Lemma sorted_unique l1 l2 :
  (∀ x y, x ∈ l1 → y ∈ l1 → leb x y = true → leb y x = true → x = y) →
  StronglySorted (λ a b, leb a b = true) l1 →
  StronglySorted (λ a b, leb a b = true) l2 →
  l1 ≡ₚ l2 → l1 = l2.
Proof.
  revert l2. induction l1 as [|x l1 IH]; intros l2 Hanti H1 H2 Hp.
  { by apply Permutation_nil_l in Hp. }
  destruct l2 as [|y l2]; [by apply Permutation_nil_r in Hp|].
  inversion_clear H1 as [|?? Hs1 Hx]; inversion_clear H2 as [|?? Hs2 Hy].
  rewrite Forall_forall in Hx, Hy.
  assert (x = y) as <-.
  { assert (y ∈ x :: l1) as Hyin by (rewrite Hp; left).
    assert (x ∈ y :: l2) as Hxin by (rewrite <- Hp; left).
    apply elem_of_cons in Hyin as [->|Hyin]; [done|].
    apply elem_of_cons in Hxin as [->|Hxin]; [done|].
    apply Hanti; [left|by right|by apply Hx|by apply Hy]. }
  f_equal. apply IH; try done.
  - intros a b Ha Hb. apply Hanti; by right.
  - by apply (inj (cons x)) in Hp || apply Permutation_cons_inv in Hp.
Qed.
End StableSort.

(** ** Lists filtered by a boolean test *)

Section ListFacts.
Context {A : Type}.
Implicit Types (l : list A) (f : A → bool).

Lemma elem_of_filter_b f l x : x ∈ List.filter f l ↔ f x = true ∧ x ∈ l.
Proof. rewrite !list_elem_of_In, filter_In. tauto. Qed.
Lemma filter_sublist f l : List.filter f l `sublist_of` l.
Proof. induction l as [|x l IH]; simpl; [done|]. destruct (f x); by constructor. Qed.
Lemma filter_all f l : Forall (λ x, f x = true) l → List.filter f l = l.
Proof. induction 1 as [|x l Hx Hl IH]; simpl; [done|]. by rewrite Hx, IH. Qed.
Lemma filter_none f l : Forall (λ x, f x = false) l → List.filter f l = [].
Proof. induction 1 as [|x l Hx Hl IH]; simpl; [done|]. by rewrite Hx. Qed.
Lemma length_filter_le f l : (List.length (List.filter f l) ≤ List.length l)%nat.
Proof. apply sublist_length, filter_sublist. Qed.
Lemma length_filter_lt f l x :
  x ∈ l → f x = false → (List.length (List.filter f l) < List.length l)%nat.
Proof.
  induction l as [|y l IH]; simpl; [by intros ?%elem_of_nil|].
  pose proof (length_filter_le f l).
  intros [<-|Hx]%elem_of_cons Hf; [rewrite Hf; lia|]. specialize (IH Hx Hf).
  destruct (f y); simpl; lia.
Qed.
Lemma filter_filter_b f g l : List.filter f (List.filter g l) = List.filter (λ x, g x && f x) l.
Proof.
  induction l as [|x l IH]; simpl; [done|]. destruct (g x); simpl; [|done].
  destruct (f x); by rewrite IH.
Qed.
Lemma length_filter_map f l :
  List.length (List.filter f l) = List.length (List.filter (λ b : bool, b) (map f l)).
Proof. induction l as [|x l IH]; simpl; [done|]. destruct (f x); simpl; by rewrite IH. Qed.
#[export] Instance filter_b_perm f : Proper ((≡ₚ) ==> (≡ₚ)) (List.filter f).
Proof.
  induction 1 as [|x l l' _ IH|x y l|l1 l2 l3 _ IH1 _ IH2]; cbn; [done| | |by rewrite IH1].
  - destruct (f x); by rewrite IH.
  - destruct (f x), (f y); try done. apply Permutation_swap.
Qed.
Lemma filter_elem_dec f l x : x ∈ l → x ∈ List.filter f l ∨ x ∉ List.filter f l.
Proof.
  intros Hx. rewrite elem_of_filter_b. destruct (f x); [by left|right]. by intros [? _].
Qed.
Lemma Forall_filter_b (P : A → Prop) f l : Forall P l → Forall P (List.filter f l).
Proof. rewrite !Forall_forall. intros H x [_ Hx]%elem_of_filter_b. auto. Qed.
Lemma StronglySorted_filter (R : relation A) f l :
  StronglySorted R l → StronglySorted R (List.filter f l).
Proof.
  induction 1 as [|x l Hl IH Hx]; simpl; [constructor|]. destruct (f x); [|done].
  constructor; [done|]. by apply Forall_filter_b.
Qed.
Lemma StronglySorted_map_mono (R : relation A) (g : A → A) l :
  (∀ x y, R x y → R (g x) (g y)) → StronglySorted R l → StronglySorted R (map g l).
Proof.
  intros Hg. induction 1 as [|x l Hl IH Hx]; simpl; constructor; [done|].
  rewrite Forall_forall in Hx |- *. intros y Hy.
  apply list_elem_of_In, in_map_iff in Hy as (z & <- & Hz%list_elem_of_In). auto.
Qed.
Lemma elem_of_map {B} (g : A → B) l y : y ∈ map g l ↔ ∃ x, y = g x ∧ x ∈ l.
Proof.
  rewrite list_elem_of_In, in_map_iff. setoid_rewrite list_elem_of_In.
  split; intros (x & Hx & ?); eauto.
Qed.
Lemma NoDup_map_filter {B} (g : A → B) f l : NoDup (map g l) → NoDup (map g (List.filter f l)).
Proof.
  induction l as [|x l IH]; simpl; [done|]. intros [Hx Hl]%NoDup_cons.
  destruct (f x); simpl; [|auto]. apply NoDup_cons. split; [|auto].
  intros (y & Heq & [_ Hy]%elem_of_filter_b)%elem_of_map. apply Hx, elem_of_map. eauto.
Qed.
Lemma NoDup_map_inj_on {B} (g : A → B) l x y :
  NoDup (map g l) → x ∈ l → y ∈ l → g x = g y → x = y.
Proof.
  induction l as [|z l IH]; simpl; [by intros _ ?%elem_of_nil|].
  intros [Hz Hl]%NoDup_cons [->|Hx]%elem_of_cons [->|Hy]%elem_of_cons Heq; auto.
  - exfalso. apply Hz. rewrite Heq. apply elem_of_map. eauto.
  - exfalso. apply Hz. rewrite <- Heq. apply elem_of_map. eauto.
Qed.
Lemma NoDup_of_map {B} (g : A → B) l : NoDup (map g l) → NoDup l.
Proof.
  induction l as [|x l IH]; simpl; [constructor|]. intros [Hx Hl]%NoDup_cons.
  constructor; [|auto]. intros Hin. apply Hx, elem_of_map. eauto.
Qed.
Lemma NoDup_ext_perm l1 l2 : NoDup l1 → NoDup l2 → (∀ x, x ∈ l1 ↔ x ∈ l2) → l1 ≡ₚ l2.
Proof. apply NoDup_Permutation. Qed.
End ListFacts.

(** ** Strings

    A Python [str] is modelled by Stdlib's [string], one [ascii] per code point: exact
    for text whose code points are below 256.  Case mapping covers the ASCII letters
    (and the Latin-1 capitals for [lower]). *)

Definition code (c : ascii) : N := N_of_ascii c.

Definition is_space (c : ascii) : bool :=
  let n := code c in
  ((9 <=? n) && (n <=? 13) || (28 <=? n) && (n <=? 32) || (n =? 133) || (n =? 160))%N.
Definition is_digit (c : ascii) : bool := ((48 <=? code c) && (code c <=? 57))%N.
Definition lower_char (c : ascii) : ascii :=
  let n := code c in
  if ((65 <=? n) && (n <=? 90) || (192 <=? n) && (n <=? 222) && negb (n =? 215))%N
  then ascii_of_N (n + 32) else c.
Definition upper_char (c : ascii) : ascii :=
  let n := code c in
  if ((97 <=? n) && (n <=? 122))%N then ascii_of_N (n - 32) else c.

Fixpoint str_map (f : ascii → ascii) (s : string) : string :=
  match s with EmptyString => EmptyString | String c s' => String (f c) (str_map f s') end.
Definition lower : string → string := str_map lower_char.
Definition upper : string → string := str_map upper_char.

Fixpoint lstrip (s : string) : string :=
  match s with
  | String c s' => if is_space c then lstrip s' else s
  | EmptyString => EmptyString
  end.
(** [rstrip], by keeping a suffix only when it is not all space. *)
Fixpoint rstrip (s : string) : string :=
  match s with
  | EmptyString => EmptyString
  | String c s' =>
      match rstrip s' with
      | EmptyString => if is_space c then EmptyString else String c EmptyString
      | r => String c r
      end
  end.
Definition strip (s : string) : string := rstrip (lstrip s).

Definition str_empty (s : string) : bool :=
  match s with EmptyString => true | _ => false end.
(** [s or d] *)
Definition str_or (s d : string) : string := if str_empty s then d else s.

(** Code-point order on strings, as Python's [<=]. *)
Definition str_leb (a b : string) : bool :=
  match String.compare a b with Gt => false | _ => true end.

Lemma ascii_compare_N (a b : ascii) : Ascii.compare a b = N.compare (N_of_ascii a) (N_of_ascii b).
Proof. done. Qed.

Lemma str_compare_eq a b : String.compare a b = Eq ↔ a = b.
Proof.
  split; [apply String.compare_eq_iff|intros ->].
  induction b as [|c b IH]; simpl; [done|].
  by rewrite ascii_compare_N, N.compare_refl.
Qed.

Lemma str_compare_trans c a b d :
  String.compare a b = c → String.compare b d = c → c ≠ Eq → String.compare a d = c.
Proof.
  intros H1 H2 Hc. revert b d H1 H2.
  induction a as [|x a IH]; intros [|y b] [|z d]; simpl; try (intros; congruence).
  rewrite !ascii_compare_N.
  destruct (N.compare_spec (N_of_ascii x) (N_of_ascii y)) as [E1|E1|E1];
  destruct (N.compare_spec (N_of_ascii y) (N_of_ascii z)) as [E2|E2|E2];
  destruct (N.compare_spec (N_of_ascii x) (N_of_ascii z)) as [E3|E3|E3];
    intros; subst; try lia; try congruence; eauto.
Qed.

Lemma str_leb_iff a b : str_leb a b = true ↔ String.compare a b ≠ Gt.
Proof. unfold str_leb. destruct (String.compare a b); split; congruence. Qed.
Lemma str_compare_gt a b : String.compare a b = Gt ↔ String.compare b a = Lt.
Proof.
  rewrite (String.compare_antisym b a). destruct (String.compare a b); simpl; split; congruence.
Qed.
Lemma str_leb_total a b : str_leb a b = false → str_leb b a = true.
Proof.
  intros H. apply str_leb_iff. intros E%str_compare_gt.
  apply not_true_iff_false in H. apply H, str_leb_iff. congruence.
Qed.
Lemma str_leb_trans a b c : str_leb a b = true → str_leb b c = true → str_leb a c = true.
Proof.
  rewrite !str_leb_iff. intros H1 H2.
  destruct (String.compare a b) eqn:E1; [apply str_compare_eq in E1 as ->; done| |done].
  destruct (String.compare b c) eqn:E2; [apply str_compare_eq in E2 as <-; congruence| |done].
  by rewrite (str_compare_trans Lt a b c).
Qed.
Lemma str_leb_antisym a b : str_leb a b = true → str_leb b a = true → a = b.
Proof.
  rewrite !str_leb_iff. intros H1 H2. apply str_compare_eq.
  destruct (String.compare a b) eqn:E; [done| |done].
  apply str_compare_gt in E. done.
Qed.

(** ** Trimmed, non-empty strings *)

Lemma rstrip_idem s : rstrip (rstrip s) = rstrip s.
Proof.
  induction s as [|c s IH]; [done|]. cbn [rstrip]. destruct (rstrip s) as [|d t] eqn:E.
  - destruct (is_space c) eqn:Ec; cbn; by rewrite ?Ec.
  - cbn [rstrip]. cbn [rstrip] in IH. by rewrite IH.
Qed.
Lemma lstrip_head s c t : lstrip s = String c t → is_space c = false.
Proof.
  induction s as [|d s IH]; [done|]. cbn [lstrip]. destruct (is_space d) eqn:E; [done|].
  by intros [= <- _].
Qed.
Lemma strip_idem s : strip (strip s) = strip s.
Proof.
  unfold strip. destruct (lstrip s) as [|c t] eqn:E; [done|].
  pose proof (lstrip_head _ _ _ E) as Hc.
  assert (lstrip (rstrip (String c t)) = rstrip (String c t)) as ->; [|apply rstrip_idem].
  cbn [rstrip]. destruct (rstrip t); [rewrite Hc|]; cbn [lstrip]; by rewrite Hc.
Qed.

Definition clean (s : string) : Prop := s ≠ EmptyString ∧ strip s = s.
Lemma clean_strip s : str_empty (strip s) = false → clean (strip s).
Proof. intros Hs. split; [by intros E; rewrite E in Hs|apply strip_idem]. Qed.
Lemma clean_not_empty s : clean s → str_empty s = false.
Proof. intros [Hne _]. by destruct s. Qed.

(** ** Automation *)

Create Rewrite HintDb py.
#[export] Hint Rewrite @dget_dset_eq @bind_gets @bind_modify @bind_ret : py.

Ltac destruct_match :=
  match goal with
  | |- context [match ?x with _ => _ end] => destruct x eqn:?
  end.
