(* ===== verification/PyValue.v ===== *)
(** * Python values as the JSON files and payloads carry them

    [pyval] is the type of the values [json.loads] returns; [py_str], [py_int] and
    [truthy] are the builtins [str], [int] and [bool] on them.  Floats are IEEE
    binary64 values in Stdlib's [spec_float]; [repr] of a float is the shortest decimal
    that reads back as the same float. *)

From S2P Require Import Prelude.
From Stdlib Require Import Ascii String SpecFloat.
Local Open Scope Z_scope.

#[warnings="-register-all"]
Inductive pyval : Type :=
  | PNone
  | PBool (b : bool)
  | PInt (z : Z)
  | PFloat (x : spec_float)
  | PStr (s : string)
  | PList (l : list pyval)
  | PDict (d : list (string * pyval)).

Abbreviation pydict := (list (string * pyval)).

(** [bool(v)] *)
Definition truthy (v : pyval) : bool :=
  match v with
  | PNone => false
  | PBool b => b
  | PInt z => negb (z =? 0)
  | PFloat (S754_zero _) => false
  | PFloat _ => true
  | PStr s => negb (str_empty s)
  | PList l => match l with [] => false | _ => true end
  | PDict d => match d with [] => false | _ => true end
  end.

(** [v or d] *)
Definition py_or (v d : pyval) : pyval := if truthy v then v else d.
(** [d.get(k)] *)
Definition get (k : string) (d : pydict) : pyval := default PNone (dget k d).

(** ** Floats *)

Definition pow10 (n : Z) : Z := 10 ^ n.

(** Truncation toward zero of a finite float. *)
Definition float_trunc (s : bool) (m : positive) (e : Z) : Z :=
  let a := if 0 <=? e then Z.pos m * 2 ^ e else Z.pos m / 2 ^ (- e) in
  if s then - a else a.

(** The number of decimal digits before the point of [n/d > 0], negative when the value
    is below 1/10: the [k] with [10^(k-1) <= n/d < 10^k]. *)
Fixpoint dec_point_up (fuel : nat) (n d k : Z) : Z :=
  match fuel with
  | O => k
  | S f => if d * pow10 k <=? n then dec_point_up f n d (k + 1) else k
  end.
Fixpoint dec_point_down (fuel : nat) (n d k : Z) : Z :=
  match fuel with
  | O => k
  | S f => if n * pow10 (1 - k) <? d then dec_point_down f n d (k - 1) else k
  end.
Definition dec_point (n d : Z) : Z :=
  if d <=? n then dec_point_up 400 n d 1 else dec_point_down 400 n d 0.

(** [c * 10^(k-p)] compared with [n/d], as a cross product. *)
Definition scaled (c k p d : Z) : Z :=
  if p <=? k then c * pow10 (k - p) * d else c * d.
Definition unscaled (n k p : Z) : Z :=
  if p <=? k then n else n * pow10 (p - k).

(** The shortest digit string, from [p] digits up, that lies in the rounding interval. *)
Fixpoint shortest (fuel : nat) (v lo hi d k p : Z) (incl : bool) : Z * Z :=
  match fuel with
  | O => (0, k)
  | S f =>
      let base := scaled 1 k p d in
      let q := unscaled v k p / base in
      let inside c :=
        let x := scaled c k p d in
        if incl then (unscaled lo k p <=? x) && (x <=? unscaled hi k p)
        else (unscaled lo k p <? x) && (x <? unscaled hi k p) in
      let below := unscaled v k p - scaled q k p d in
      let above := scaled (q + 1) k p d - unscaled v k p in
      match inside q, inside (q + 1) with
      | true, true =>
          if (below <? above) || (below =? above) && Z.even q then (q, p) else (q + 1, p)
      | true, false => (q, p)
      | false, true => (q + 1, p)
      | false, false => shortest f v lo hi d k (p + 1) incl
      end
  end.

Fixpoint str_rep (n : nat) (s : string) : string :=
  match n with O => EmptyString | S n' => s +:+ str_rep n' s end.
Fixpoint rstrip_zeros (fuel : nat) (c : Z) : Z :=
  match fuel with
  | O => c
  | S f => if (c mod 10 =? 0) && negb (c =? 0) then rstrip_zeros f (c / 10) else c
  end.

Definition format_repr (digits : string) (decpt : Z) : string :=
  let len := Z.of_nat (String.length digits) in
  if (-4 <? decpt) && (decpt <=? 16) then
    if decpt <=? 0 then "0." +:+ str_rep (Z.to_nat (- decpt)) "0" +:+ digits
    else if len <=? decpt then digits +:+ str_rep (Z.to_nat (decpt - len)) "0" +:+ ".0"
    else substring 0 (Z.to_nat decpt) digits +:+ "." +:+
         substring (Z.to_nat decpt) (Z.to_nat (len - decpt)) digits
  else
    let ex := decpt - 1 in
    let mant := if len =? 1 then digits
                else substring 0 1 digits +:+ "." +:+ substring 1 (Z.to_nat (len - 1)) digits in
    let exs := pretty (Z.abs ex) in
    mant +:+ "e" +:+ (if ex <? 0 then "-" else "+") +:+
    (if Z.abs ex <? 10 then "0" +:+ exs else exs).

(** [repr] of a float. *)
Definition float_repr (x : spec_float) : string :=
  match x with
  | S754_zero s => if s then "-0.0" else "0.0"
  | S754_infinity s => if s then "-inf" else "inf"
  | S754_nan => "nan"
  | S754_finite s m e =>
      let u := e - 2 in
      let un := if 0 <=? u then 2 ^ u else 1 in
      let d := if 0 <=? u then 1 else 2 ^ (- u) in
      let v := 4 * Z.pos m * un in
      let hi := (4 * Z.pos m + 2) * un in
      let narrow := (Z.pos m =? 2 ^ 52) && (-1074 <? e) in
      let lo := (4 * Z.pos m - (if narrow then 1 else 2)) * un in
      let k := dec_point v d in
      let '(c, p) := shortest 18 v lo hi d k 1 (Z.even (Z.pos m)) in
      let c' := rstrip_zeros 20 c in
      let k' := if c =? pow10 p then k + 1 else k in
      (if s then "-" else EmptyString) +:+ format_repr (pretty c') k'
  end.

(** ** [repr] and [str] *)

Definition quote1 : ascii := "039".
Definition quote2 : ascii := "034".

Fixpoint str_has (c : ascii) (s : string) : bool :=
  match s with EmptyString => false | String c' s' => (code c =? code c')%N || str_has c s' end.

Definition hex_digit (n : N) : ascii := ascii_of_N (if n <? 10 then 48 + n else 87 + n)%N.

Definition repr_char (q c : ascii) : string :=
  let n := code c in
  if (n =? 92)%N then String c (String c EmptyString)
  else if (n =? code q)%N then String "\" (String c EmptyString)
  else if (n =? 9)%N then "\t"
  else if (n =? 10)%N then "\n"
  else if (n =? 13)%N then "\r"
  else if ((n <? 32) || (127 <=? n) && (n <=? 160) || (n =? 173))%N
  then "\x" +:+ String (hex_digit (n / 16)) (String (hex_digit (n mod 16)) EmptyString)
  else String c EmptyString.

Fixpoint repr_chars (q : ascii) (s : string) : string :=
  match s with EmptyString => EmptyString | String c s' => repr_char q c +:+ repr_chars q s' end.

Definition repr_str (s : string) : string :=
  let q := if str_has quote1 s && negb (str_has quote2 s) then quote2 else quote1 in
  String q (repr_chars q s +:+ String q EmptyString).

Fixpoint join (sep : string) (l : list string) : string :=
  match l with
  | [] => EmptyString
  | [s] => s
  | s :: l' => s +:+ sep +:+ join sep l'
  end.

Fixpoint py_repr (v : pyval) : string :=
  match v with
  | PNone => "None"
  | PBool b => if b then "True" else "False"
  | PInt z => pretty z
  | PFloat x => float_repr x
  | PStr s => repr_str s
  | PList l => "[" +:+ join ", " (map py_repr l) +:+ "]"
  | PDict d =>
      "{" +:+ join ", " (map (λ kv, match kv with (k, w) => repr_str k +:+ ": " +:+ py_repr w end) d)
        +:+ "}"
  end.

Definition py_str (v : pyval) : string :=
  match v with PStr s => s | _ => py_repr v end.

(** ** [int] *)

(** The digits of an integer literal, single underscores allowed between digits. *)
Fixpoint digits_val (acc : Z) (after_digit : bool) (s : string) : option Z :=
  match s with
  | EmptyString => if after_digit then Some acc else None
  | String c s' =>
      if is_digit c then digits_val (10 * acc + Z.of_N (code c - 48)) true s'
      else if (code c =? 95)%N && after_digit then
        match s' with EmptyString => None | _ => digits_val acc false s' end
      else None
  end.

Definition parse_int (s : string) : option Z :=
  match strip s with
  | EmptyString => None
  | String c s' =>
      if (code c =? 45)%N then Z.opp <$> digits_val 0 false s'
      else if (code c =? 43)%N then digits_val 0 false s'
      else digits_val 0 false (String c s')
  end.

Definition py_int (v : pyval) : res Z :=
  match v with
  | PInt z => Ok z
  | PBool b => Ok (if b then 1 else 0)
  | PFloat (S754_zero _) => Ok 0
  | PFloat (S754_finite s m e) => Ok (float_trunc s m e)
  | PFloat (S754_infinity _) => Err (OverflowError "cannot convert float infinity to integer")
  | PFloat S754_nan => Err (ValueError "cannot convert float NaN to integer")
  | PStr s => match parse_int s with
              | Some z => Ok z
              | None => Err (ValueError ("invalid literal for int() with base 10: " +:+ repr_str s))
              end
  | _ => Err (TypeError "int() argument must be a string, a bytes-like object or a real number")
  end.

(** [str(v or d)] for a string default, and [int(v or 0)]. *)
Definition str_field (k d : string) (p : pydict) : string := py_str (py_or (get k p) (PStr d)).
Definition int_field (k : string) (p : pydict) : res Z := py_int (py_or (get k p) (PInt 0)).

(** [str(e)] of an exception. *)
Definition exn_str (e : exn) : string :=
  match e with
  | ValueError m | TypeError m | OverflowError m | RuntimeError m | OtherError m => m
  | ApiError code m => "API error " +:+ pretty code +:+ ": " +:+ m
  end.

(** ** Facts *)

Lemma str_or_nonempty s d : str_empty s = false → str_or s d = s.
Proof. unfold str_or. by intros ->. Qed.

Lemma py_or_str s d :
  py_str (py_or (PStr s) (PStr d)) = str_or s d.
Proof. unfold py_or, str_or. simpl. by destruct (str_empty s). Qed.

Lemma py_or_str_self s : py_str (py_or (PStr s) (PStr EmptyString)) = s.
Proof. rewrite py_or_str. unfold str_or. by destruct s. Qed.

Lemma int_of_or_int z : py_int (py_or (PInt z) (PInt 0)) = Ok z.
Proof. unfold py_or. simpl. destruct (Z.eqb_spec z 0); by subst. Qed.

#[export] Hint Rewrite py_or_str_self int_of_or_int : py.

Example repr_tenth : float_repr (S754_finite false 7205759403792794 (-56)) = "0.1".
Proof. vm_compute. reflexivity. Qed.
Example repr_1e22 : float_repr (S754_finite false 4768371582031250 21) = "1e+22".
Proof. vm_compute. reflexivity. Qed.
Example repr_third : float_repr (S754_finite false 6004799503160661 (-54)) = "0.3333333333333333".
Proof. vm_compute. reflexivity. Qed.
Example repr_12500000 : float_repr (S754_finite false 6710886400000000 (-29)) = "12500000.0".
Proof. vm_compute. reflexivity. Qed.
Example str_nested : py_str (PDict [("a", PList [PInt 1; PStr "x'y"; PNone])])
  = String.concat EmptyString ["{'a': [1, "; String quote2 "x'y"; String quote2 ", None]}"].
Proof. vm_compute. reflexivity. Qed.
Example int_of_text : py_int (PStr " -1_200 ") = Ok (-1200).
Proof. vm_compute. reflexivity. Qed.
