(* ===== verification/PyFloat.v ===== *)
(** * Python floats

    The operations of Python's [float] (IEEE binary64, round to nearest even) on [spec_float],
    [float] of an integer and of a text, and [round].  Texts are ASCII. *)

From S2P Require Import Prelude PyValue.
From Stdlib Require Import Ascii String SpecFloat.
Local Open Scope Z_scope.

Abbreviation fadd := (SFadd 53 1024).
Abbreviation fsub := (SFsub 53 1024).
Abbreviation fmul := (SFmul 53 1024).
Abbreviation flt := SFltb.
Abbreviation fle := SFleb.

(** The float nearest to an integer; infinite beyond the range. *)
Definition of_Z (z : Z) : spec_float := binary_normalize 53 1024 z 0 false.
(** [float(z)] *)
Definition float_of_int (z : Z) : res spec_float :=
  match of_Z z with
  | S754_infinity _ => Err (OverflowError "int too large to convert to float")
  | x => Ok x
  end.

(** The float nearest to [n/d]. *)
Definition of_ratio (s : bool) (n d : positive) : spec_float :=
  let '(q, e, l) := SFdiv_core_binary 53 1024 (Z.pos n) 0 (Z.pos d) 0 in
  binary_round_aux 53 1024 s q e l.
(** The float nearest to [c * 10^k]. *)
Definition of_decimal (s : bool) (c k : Z) : spec_float :=
  match c with
  | Z.pos p => if 0 <=? k then of_ratio s (Z.to_pos (c * pow10 k)) 1 else of_ratio s p (Z.to_pos (pow10 (- k)))
  | _ => S754_zero s
  end.

(** The nearest integer to [n/d], ties to even. *)
Definition half_even (n d : Z) : Z :=
  let q := n / d in
  let r := n mod d in
  if 2 * r <? d then q else if d <? 2 * r then q + 1 else if Z.even q then q else q + 1.

(** [round(x, k)] of a finite float, for [k >= 0] digits. *)
Definition round_digits (x : spec_float) (k : Z) : spec_float :=
  match x with
  | S754_finite s m e =>
      let n := Z.pos m * pow10 k * (if 0 <=? e then 2 ^ e else 1) in
      let d := if 0 <=? e then 1 else 2 ^ (- e) in
      of_decimal s (half_even n d) (- k)
  | _ => x
  end.

(** Python's [min] and [max] of two floats: the first argument unless the second is better. *)
Definition py_fmin (x y : spec_float) : spec_float := if flt y x then y else x.
Definition py_fmax (x y : spec_float) : spec_float := if flt x y then y else x.

(** ** [float] of a text *)

Definition head_digit (s : string) : bool :=
  match s with String c _ => is_digit c | EmptyString => false end.
(** A run of digits, single underscores allowed between two digits: its value, its length and
    the rest of the text. *)
Fixpoint digit_run (acc n : Z) (s : string) : Z * Z * string :=
  match s with
  | String c s' =>
      if is_digit c then digit_run (10 * acc + Z.of_N (code c - 48)) (n + 1) s'
      else if (code c =? 95)%N && (0 <? n) then
        match s' with
        | String c' s'' => if is_digit c' then digit_run (10 * acc + Z.of_N (code c' - 48)) (n + 1) s'' else (acc, n, s)
        | EmptyString => (acc, n, s)
        end
      else (acc, n, s)
  | EmptyString => (acc, n, s)
  end.

(** [\[eE\]\[+-\]?digits] up to the end of the text; an absent exponent is 0. *)
Definition exponent (s : string) : option Z :=
  match s with
  | EmptyString => Some 0
  | String c s' =>
      if (code (lower_char c) =? 101)%N then
        let '(neg, t) := match s' with
                         | String d t => if (code d =? 45)%N then (true, t)
                                         else if (code d =? 43)%N then (false, t) else (false, s')
                         | EmptyString => (false, s')
                         end in
        let '(v, n, rest) := digit_run 0 0 t in
        if (0 <? n) && str_empty rest then Some (if neg : bool then - v else v) else None
      else None
  end.

Definition parse_unsigned (neg : bool) (s : string) : option spec_float :=
  let l := lower s in
  if bool_decide (l = "inf") || bool_decide (l = "infinity") then Some (S754_infinity neg)
  else if bool_decide (l = "nan") then Some S754_nan
  else
    let '(a, n, rest) := digit_run 0 0 s in
    let '(c, f, d, tail) :=
      match rest with
      | String p t =>
          if (code p =? 46)%N then
            if head_digit t then
              let '(b, m, u) := digit_run a 0 t in (b, m, n + m, u)
            else (a, 0, n, t)
          else (a, 0, n, rest)
      | EmptyString => (a, 0, n, rest)
      end in
    if 0 <? d then (λ x, of_decimal neg c (x - f)) <$> exponent tail else None.

(** [float(s)]: [None] is the [ValueError] of an invalid literal. *)
Definition py_float (s : string) : option spec_float :=
  match strip s with
  | String c t =>
      if (code c =? 45)%N then parse_unsigned true t
      else if (code c =? 43)%N then parse_unsigned false t
      else parse_unsigned false (String c t)
  | EmptyString => None
  end.

Example float_tenth : py_float " 0.1 " = Some (S754_finite false 7205759403792794 (-56)).
Proof. vm_compute. reflexivity. Qed.
Example float_texts :
  map (λ s, float_repr <$> py_float s) ["15"; "1_000.5"; "-.5e1"; "1e400"; "1__0"; "."; "5."; "nan"; "12e-3"; "_1"]
  = [Some "15.0"; Some "1000.5"; Some "-5.0"; Some "inf"; None; None; Some "5.0"; Some "nan"; Some "0.012"; None].
Proof. vm_compute. reflexivity. Qed.
Example round_half_even :
  map (λ s, (λ x, float_repr (round_digits x 2)) <$> py_float s) ["0.125"; "2.675"; "1.005"; "9.999"; "7"]
  = [Some "0.12"; Some "2.67"; Some "1.0"; Some "10.0"; Some "7.0"].
Proof. vm_compute. reflexivity. Qed.
