(* ===== verification/OfflineTypes.v ===== *)
(** * Offline operations, conflicts and projection records

    Models src/app/services/offline_types.py: the dataclasses the desktop client journals
    while it is offline, and their [to_dict]/[from_dict] encodings.  The encodings are the
    on-disk format, so the round-trip theorems are what makes the journal durable. *)

From S2P Require Import Prelude PyValue.
Local Open Scope Z_scope.

(** ** Data *)

(* src/app/services/offline_types.py :: OfflineEntityRef *)
Record OfflineEntityRef := mkRef { ref_entity_type : string; ref_local_id : Z }.

(* src/app/services/offline_types.py :: OfflineOperation *)
Record OfflineOperation := mkOp {
  op_id : string;
  op_account_key : string;
  op_entity_type : string;
  op_type : string;
  op_local_id : Z;
  op_payload : pydict;
  op_parent_refs : list OfflineEntityRef;
  op_dedupe_key : string;
  op_status : string;
  op_attempts : Z;
  op_last_error : string;
  op_created_at : string;
  op_updated_at : string
}.

(* src/app/services/offline_types.py :: OfflineConflict *)
Record OfflineConflict := mkConflict {
  cf_op_id : string;
  cf_entity_type : string;
  cf_local_id : Z;
  cf_reason_code : string;
  cf_message : string;
  cf_server_payload : option pydict;
  cf_created_at : string
}.

(* src/app/services/offline_types.py :: OfflineProjectionRecord *)
Record OfflineProjectionRecord := mkProj {
  pr_entity_type : string;
  pr_local_id : Z;
  pr_server_id : option Z;
  pr_data : pydict;
  pr_sync_status : string;
  pr_sync_error : string;
  pr_is_local_only : bool
}.

#[export] Instance ref_eq_dec : EqDecision OfflineEntityRef.
Proof. solve_decision. Defined.

(** The assignments the journal makes to an operation's fields. *)
Definition with_payload (p : pydict) (at_ : string) (o : OfflineOperation) : OfflineOperation :=
  mkOp (op_id o) (op_account_key o) (op_entity_type o) (op_type o) (op_local_id o) p
    (op_parent_refs o) (op_dedupe_key o) (op_status o) (op_attempts o) (op_last_error o)
    (op_created_at o) at_.
Definition with_status (st err at_ : string) (o : OfflineOperation) : OfflineOperation :=
  mkOp (op_id o) (op_account_key o) (op_entity_type o) (op_type o) (op_local_id o) (op_payload o)
    (op_parent_refs o) (op_dedupe_key o) st (op_attempts o) err (op_created_at o) at_.
Definition with_attempt (err at_ : string) (o : OfflineOperation) : OfflineOperation :=
  mkOp (op_id o) (op_account_key o) (op_entity_type o) (op_type o) (op_local_id o) (op_payload o)
    (op_parent_refs o) (op_dedupe_key o) (op_status o) (op_attempts o + 1) err
    (op_created_at o) at_.

(** ** Encodings *)

(* src/app/services/offline_types.py :: OfflineEntityRef.to_dict *)
Definition ref_to_dict (r : OfflineEntityRef) : pyval :=
  PDict [("entity_type", PStr (ref_entity_type r)); ("local_id", PInt (ref_local_id r))].

(* src/app/services/offline_types.py :: OfflineEntityRef.from_dict *)
Definition ref_from_dict (v : pyval) : res OfflineEntityRef :=
  match v with
  | PDict p =>
      let? lid := int_field "local_id" p in
      Ok (mkRef (str_field "entity_type" "generic" p) lid)
  | _ => Err (ValueError "invalid offline entity ref")
  end.

Fixpoint res_map {A B} (f : A → res B) (l : list A) : res (list B) :=
  match l with
  | [] => Ok []
  | x :: l' => let? y := f x in let? ys := res_map f l' in Ok (y :: ys)
  end.

Definition dict_or_empty (v : pyval) : pydict := match v with PDict d => d | _ => [] end.

(* src/app/services/offline_types.py :: OfflineOperation.to_dict *)
Definition op_to_dict (o : OfflineOperation) : pyval :=
  PDict [("op_id", PStr (op_id o)); ("account_key", PStr (op_account_key o));
         ("entity_type", PStr (op_entity_type o)); ("op_type", PStr (op_type o));
         ("local_id", PInt (op_local_id o)); ("payload", PDict (op_payload o));
         ("parent_refs", PList (map ref_to_dict (op_parent_refs o)));
         ("dedupe_key", PStr (op_dedupe_key o)); ("status", PStr (op_status o));
         ("attempts", PInt (op_attempts o)); ("last_error", PStr (op_last_error o));
         ("created_at", PStr (op_created_at o)); ("updated_at", PStr (op_updated_at o))].

(* src/app/services/offline_types.py :: OfflineOperation.from_dict *)
Definition op_from_dict (v : pyval) : res OfflineOperation :=
  match v with
  | PDict p =>
      let? refs := match get "parent_refs" p with
                   | PList raw => res_map ref_from_dict raw
                   | _ => Ok []
                   end in
      let? lid := int_field "local_id" p in
      let? att := int_field "attempts" p in
      Ok (mkOp (str_field "op_id" EmptyString p) (str_field "account_key" EmptyString p)
            (str_field "entity_type" "generic" p) (str_field "op_type" "action" p) lid
            (dict_or_empty (get "payload" p)) refs
            (str_field "dedupe_key" EmptyString p) (str_field "status" "pending" p) att
            (str_field "last_error" EmptyString p) (str_field "created_at" EmptyString p)
            (str_field "updated_at" EmptyString p))
  | _ => Err (ValueError "invalid offline operation")
  end.

(* src/app/services/offline_types.py :: OfflineConflict.to_dict *)
Definition conflict_to_dict (c : OfflineConflict) : pyval :=
  PDict [("op_id", PStr (cf_op_id c)); ("entity_type", PStr (cf_entity_type c));
         ("local_id", PInt (cf_local_id c)); ("reason_code", PStr (cf_reason_code c));
         ("message", PStr (cf_message c));
         ("server_payload", PDict (default [] (cf_server_payload c)));
         ("created_at", PStr (cf_created_at c))].

(* src/app/services/offline_types.py :: OfflineConflict.from_dict *)
Definition conflict_from_dict (v : pyval) : res OfflineConflict :=
  match v with
  | PDict p =>
      let? lid := int_field "local_id" p in
      Ok (mkConflict (str_field "op_id" EmptyString p) (str_field "entity_type" "generic" p) lid
            (str_field "reason_code" EmptyString p) (str_field "message" EmptyString p)
            (match get "server_payload" p with PDict d => Some d | _ => None end)
            (str_field "created_at" EmptyString p))
  | _ => Err (ValueError "invalid offline conflict")
  end.

(* src/app/services/offline_types.py :: OfflineProjectionRecord.to_dict *)
Definition proj_to_dict (r : OfflineProjectionRecord) : pyval :=
  PDict [("entity_type", PStr (pr_entity_type r)); ("local_id", PInt (pr_local_id r));
         ("server_id", match pr_server_id r with Some z => PInt z | None => PNone end);
         ("data", PDict (pr_data r)); ("sync_status", PStr (pr_sync_status r));
         ("sync_error", PStr (pr_sync_error r)); ("is_local_only", PBool (pr_is_local_only r))].

(* src/app/services/offline_types.py :: OfflineProjectionRecord.from_dict *)
Definition proj_from_dict (v : pyval) : res OfflineProjectionRecord :=
  match v with
  | PDict p =>
      let server_id := match get "server_id" p with
                       | PInt z => Some z
                       | PBool b => Some (if b then 1 else 0)
                       | _ => None
                       end in
      let? lid := int_field "local_id" p in
      Ok (mkProj (str_field "entity_type" "generic" p) lid server_id
            (dict_or_empty (get "data" p)) (str_field "sync_status" EmptyString p)
            (str_field "sync_error" EmptyString p) (truthy (get "is_local_only" p)))
  | _ => Err (ValueError "invalid offline projection record")
  end.

(** ** Well-formed values: the ones the application writes *)

Definition wf_ref (r : OfflineEntityRef) : bool := negb (str_empty (ref_entity_type r)).
Definition wf_op (o : OfflineOperation) : bool :=
  negb (str_empty (op_entity_type o)) && negb (str_empty (op_type o))
  && negb (str_empty (op_status o)) && forallb wf_ref (op_parent_refs o).
Definition wf_proj (r : OfflineProjectionRecord) : bool := negb (str_empty (pr_entity_type r)).
Definition wf_conflict (c : OfflineConflict) : bool := negb (str_empty (cf_entity_type c)).

(** ** Round trips *)

Lemma ref_roundtrip r : wf_ref r = true → ref_from_dict (ref_to_dict r) = Ok r.
Proof.
  destruct r as [ty lid]. unfold wf_ref, ref_from_dict, ref_to_dict, int_field, str_field, get. simpl.
  intros Hty. rewrite int_of_or_int, py_or_str. simpl. unfold str_or. by destruct (str_empty ty).
Qed.

Lemma refs_roundtrip rs :
  forallb wf_ref rs = true → res_map ref_from_dict (map ref_to_dict rs) = Ok rs.
Proof.
  induction rs as [|r rs IH]; [done|]. cbn [forallb map res_map].
  intros [Hr Hrs]%andb_true_iff. by rewrite ref_roundtrip, IH.
Qed.

Lemma op_roundtrip o : wf_op o = true → op_from_dict (op_to_dict o) = Ok o.
Proof.
  destruct o as [i ak et ot lid pl refs dk st att le ca ua]. unfold wf_op; simpl.
  intros [[[He Ho]%andb_true_iff Hs]%andb_true_iff Hr]%andb_true_iff.
  unfold op_from_dict, op_to_dict, int_field, str_field, get. simpl.
  rewrite refs_roundtrip, !int_of_or_int by done. simpl.
  rewrite !py_or_str. unfold str_or.
  destruct (str_empty et), (str_empty ot), (str_empty st); try done.
  by destruct i, ak, dk, le, ca, ua.
Qed.

Lemma proj_roundtrip r : wf_proj r = true → proj_from_dict (proj_to_dict r) = Ok r.
Proof.
  destruct r as [et lid sid d ss se lo]. unfold wf_proj; simpl. intros He.
  unfold proj_from_dict, proj_to_dict, int_field, str_field, get. simpl.
  rewrite !int_of_or_int. simpl. rewrite !py_or_str. unfold str_or.
  destruct (str_empty et); [done|]. by destruct sid, ss, se.
Qed.

(** A conflict without a server payload is read back with an empty one. *)
Lemma conflict_roundtrip c :
  wf_conflict c = true →
  conflict_from_dict (conflict_to_dict c) =
    Ok (mkConflict (cf_op_id c) (cf_entity_type c) (cf_local_id c) (cf_reason_code c)
          (cf_message c) (Some (default [] (cf_server_payload c))) (cf_created_at c)).
Proof.
  destruct c as [i et lid rc m sp ca]. unfold wf_conflict; simpl. intros He.
  unfold conflict_from_dict, conflict_to_dict, int_field, str_field, get. simpl.
  rewrite !int_of_or_int. simpl. rewrite !py_or_str. unfold str_or.
  destruct (str_empty et); [done|]. by destruct i, rc, m, ca.
Qed.
