(* ===== verification/OfflineStore.v ===== *)
(** * The files of one offline account

    Models src/app/services/offline_store_utils.py (file helpers), offline_ids.py
    (temporary ids), offline_conflicts.py (review conflicts) and the failed-mutation list
    of api_write_queue.py.  The state is the account's directory: one [pyfile] per JSON
    file, the lines of the journal, the queued media files, and the positions of the two
    oracles (the clock and [uuid4]) that the code reads. *)

From S2P Require Import Prelude PyValue OfflineTypes.
Local Open Scope Z_scope.

(** The values the program takes from outside: the successive readings of the clock, the
    successive [uuid4().hex] and the SHA-256 of a content. *)
Class Oracle := {
  clock : nat → string;
  uuid4 : nat → string;
  sha256 : string → string
}.

(** A timestamp is never the empty text. *)
Class ClockOk `{Oracle} : Prop := clock_nonempty : ∀ n, str_empty (clock n) = false.

(** A digest is never the empty text. *)
Class ShaOk `{Oracle} : Prop := sha_nonempty : ∀ s, str_empty (sha256 s) = false.

(** The oracle of the examples: numbered instants and numbered ids. *)
Definition demo_oracle : Oracle := {|
  clock n := "T" +:+ pretty (Z.of_nat n);
  uuid4 n := "op" +:+ pretty (Z.of_nat n);
  sha256 s := "h" +:+ s
|}.
Lemma demo_clock_ok : @ClockOk demo_oracle.
Proof. by intros n. Qed.

Lemma demo_sha_ok : @ShaOk demo_oracle.
Proof. by intros s. Qed.

(** A JSON file: absent, unreadable, or holding a value. *)
Inductive pyfile : Type := FMissing | FCorrupt | FJson (v : pyval).

(** A line of a JSON-lines file. *)
Inductive logline : Type := LBlank | LBad | LJson (v : pyval).

(* src/app/services/offline_account_scope.py :: OfflineAccountScope *)
Record OfflineAccountScope := mkScope {
  account_key : string;
  api_base : string;
  agency_id : Z;
  user_id : Z;
  account_dir : string;
  role : string;
  is_owner : bool
}.

Record account := mkAccount {
  a_meta : pyfile;
  a_pending : pyfile;
  a_log : option (list logline);
  a_conflicts : pyfile;
  a_projection : pyfile;
  a_allocator : pyfile;
  a_temp_map : pyfile;
  a_failed : pyfile;
  a_upload_index : pyfile;
  a_media : gmap string string;
  a_legacy : list string;
  a_legacy_quarantine : list string;
  a_clock : nat;
  a_uuid : nat
}.

Definition empty_account : account :=
  mkAccount FMissing FMissing None FMissing FMissing FMissing FMissing FMissing FMissing
    ∅ [] [] 0 0.

Definition set_meta f a := mkAccount f (a_pending a) (a_log a) (a_conflicts a) (a_projection a)
  (a_allocator a) (a_temp_map a) (a_failed a) (a_upload_index a) (a_media a) (a_legacy a)
  (a_legacy_quarantine a) (a_clock a) (a_uuid a).
Definition set_pending f a := mkAccount (a_meta a) f (a_log a) (a_conflicts a) (a_projection a)
  (a_allocator a) (a_temp_map a) (a_failed a) (a_upload_index a) (a_media a) (a_legacy a)
  (a_legacy_quarantine a) (a_clock a) (a_uuid a).
Definition set_log l a := mkAccount (a_meta a) (a_pending a) l (a_conflicts a) (a_projection a)
  (a_allocator a) (a_temp_map a) (a_failed a) (a_upload_index a) (a_media a) (a_legacy a)
  (a_legacy_quarantine a) (a_clock a) (a_uuid a).
Definition set_conflicts f a := mkAccount (a_meta a) (a_pending a) (a_log a) f (a_projection a)
  (a_allocator a) (a_temp_map a) (a_failed a) (a_upload_index a) (a_media a) (a_legacy a)
  (a_legacy_quarantine a) (a_clock a) (a_uuid a).
Definition set_projection f a := mkAccount (a_meta a) (a_pending a) (a_log a) (a_conflicts a) f
  (a_allocator a) (a_temp_map a) (a_failed a) (a_upload_index a) (a_media a) (a_legacy a)
  (a_legacy_quarantine a) (a_clock a) (a_uuid a).
Definition set_allocator f a := mkAccount (a_meta a) (a_pending a) (a_log a) (a_conflicts a)
  (a_projection a) f (a_temp_map a) (a_failed a) (a_upload_index a) (a_media a) (a_legacy a)
  (a_legacy_quarantine a) (a_clock a) (a_uuid a).
Definition set_temp_map f a := mkAccount (a_meta a) (a_pending a) (a_log a) (a_conflicts a)
  (a_projection a) (a_allocator a) f (a_failed a) (a_upload_index a) (a_media a) (a_legacy a)
  (a_legacy_quarantine a) (a_clock a) (a_uuid a).
Definition set_failed f a := mkAccount (a_meta a) (a_pending a) (a_log a) (a_conflicts a)
  (a_projection a) (a_allocator a) (a_temp_map a) f (a_upload_index a) (a_media a) (a_legacy a)
  (a_legacy_quarantine a) (a_clock a) (a_uuid a).
Definition set_upload_index f a := mkAccount (a_meta a) (a_pending a) (a_log a) (a_conflicts a)
  (a_projection a) (a_allocator a) (a_temp_map a) (a_failed a) f (a_media a) (a_legacy a)
  (a_legacy_quarantine a) (a_clock a) (a_uuid a).
Definition set_media m a := mkAccount (a_meta a) (a_pending a) (a_log a) (a_conflicts a)
  (a_projection a) (a_allocator a) (a_temp_map a) (a_failed a) (a_upload_index a) m (a_legacy a)
  (a_legacy_quarantine a) (a_clock a) (a_uuid a).
Definition set_legacy l q a := mkAccount (a_meta a) (a_pending a) (a_log a) (a_conflicts a)
  (a_projection a) (a_allocator a) (a_temp_map a) (a_failed a) (a_upload_index a) (a_media a) l
  q (a_clock a) (a_uuid a).
Definition set_ticks c u a := mkAccount (a_meta a) (a_pending a) (a_log a) (a_conflicts a)
  (a_projection a) (a_allocator a) (a_temp_map a) (a_failed a) (a_upload_index a) (a_media a)
  (a_legacy a) (a_legacy_quarantine a) c u.

Abbreviation AM := (M account).

(** ** File helpers *)

(* src/app/services/offline_store_utils.py :: read_json *)
Definition read_json (file : account → pyfile) (dflt : pyval) : AM pyval :=
  gets (λ a, match file a with FJson v => v | _ => dflt end).

(** An unreadable file is moved to the quarantine bucket, so it is absent afterwards. *)
(* src/app/services/offline_store_utils.py :: load_json_with_quarantine *)
Definition load_json_with_quarantine (file : account → pyfile) (set : pyfile → account → account)
    (dflt : pyval) : AM pyval :=
  λ a, match file a with
       | FMissing => (Ok dflt, a)
       | FJson v => (Ok v, a)
       | FCorrupt => (Ok dflt, set FMissing a)
       end.

(** The write and its atomic [replace]; the retries on transient file locks are I/O. *)
(* src/app/services/offline_store_utils.py :: write_json_atomic *)
Definition write_json_atomic (set : pyfile → account → account) (v : pyval) : AM unit :=
  modify (set (FJson v)).

(* src/app/services/offline_store_utils.py :: append_jsonl *)
Definition append_jsonl (v : pyval) : AM unit :=
  modify (λ a, set_log (Some (default [] (a_log a) ++ [LJson v])) a).

(** The dict entries of the lines, or [None] when a line does not parse. *)
Fixpoint parse_jsonl (ls : list logline) : option (list pydict) :=
  match ls with
  | [] => Some []
  | LBlank :: ls' => parse_jsonl ls'
  | LBad :: _ => None
  | LJson (PDict d) :: ls' => (cons d) <$> parse_jsonl ls'
  | LJson _ :: ls' => parse_jsonl ls'
  end.

(* src/app/services/offline_store_utils.py :: load_jsonl_with_quarantine *)
Definition load_jsonl_with_quarantine : AM (list pydict) :=
  λ a, match a_log a with
       | None => (Ok [], a)
       | Some ls => match parse_jsonl ls with
                    | Some ds => (Ok ds, a)
                    | None => (Ok [], set_log None a)
                    end
       end.

Section Store.
Context `{Oracle}.

(* src/app/services/offline_store_utils.py :: utc_now_iso *)
Definition utc_now_iso : AM string :=
  λ a, (Ok (clock (a_clock a)), set_ticks (S (a_clock a)) (a_uuid a) a).
Definition uuid_hex : AM string :=
  λ a, (Ok (uuid4 (a_uuid a)), set_ticks (a_clock a) (S (a_uuid a)) a).

(** [str(x or uuid.uuid4().hex)] *)
Definition id_or_uuid (i : option string) : AM string :=
  match i with
  | Some s => if str_empty s then uuid_hex else ret s
  | None => uuid_hex
  end.

(** ** Temporary ids *)

(* src/app/services/offline_ids.py :: allocate_temp_id *)
Definition allocate_temp_id (entity_type : string) : AM Z :=
  let! data := read_json a_allocator (PDict []) in
  let d := dict_or_empty data in
  let! current := lift (int_field entity_type d) in
  let next_value := if current <=? -1 then current - 1 else -1 in
  do! write_json_atomic set_allocator (PDict (dset entity_type (PInt next_value) d)) in
  ret next_value.

(** The inner loop keeps the positive integers ([bool] is an [int] in Python). *)
Fixpoint positive_ints (m : pydict) : list (string * Z) :=
  match m with
  | [] => []
  | (k, PInt z) :: m' => if 0 <? z then (k, z) :: positive_ints m' else positive_ints m'
  | (k, PBool true) :: m' => (k, 1) :: positive_ints m'
  | _ :: m' => positive_ints m'
  end.
Fixpoint parse_id_map (d : pydict) : list (string * list (string * Z)) :=
  match d with
  | [] => []
  | (ty, PDict m) :: d' =>
      match positive_ints m with
      | [] => parse_id_map d'
      | p => (ty, p) :: parse_id_map d'
      end
  | _ :: d' => parse_id_map d'
  end.

(* src/app/services/offline_ids.py :: get_reconciliation_map *)
Definition get_reconciliation_map : AM (list (string * list (string * Z))) :=
  let! data := read_json a_temp_map (PDict []) in
  ret (parse_id_map (dict_or_empty data)).

(* src/app/services/offline_ids.py :: resolve_reconciled_id *)
Definition resolve_reconciled_id (entity_type : string) (local_id : Z) : AM (option Z) :=
  if 0 <? local_id then ret (Some local_id)
  else let! m := get_reconciliation_map in
       ret (dget (pretty local_id) (default [] (dget entity_type m))).

Definition encode_id_map (m : list (string * list (string * Z))) : pyval :=
  PDict (map (λ '(ty, p), (ty, PDict (map (λ '(k, z), (k, PInt z)) p))) m).

(* src/app/services/offline_ids.py :: record_reconciled_id *)
Definition record_reconciled_id (entity_type : string) (local_id server_id : Z) : AM unit :=
  let! data := get_reconciliation_map in
  let entity_map := dset (pretty local_id) server_id (default [] (dget entity_type data)) in
  write_json_atomic set_temp_map (encode_id_map (dset entity_type entity_map data)).

(** ** Conflicts *)

(** Entries that raise [ValueError] are skipped; other exceptions propagate. *)
Fixpoint parse_entries {A} (f : pyval → res A) (l : list pyval) : res (list A) :=
  match l with
  | [] => Ok []
  | v :: l' =>
      match f v with
      | Ok x => let? xs := parse_entries f l' in Ok (x :: xs)
      | Err (ValueError _) => parse_entries f l'
      | Err e => Err e
      end
  end.

(* src/app/services/offline_conflicts.py :: list_conflicts *)
Definition list_conflicts : AM (list OfflineConflict) :=
  let! raw := read_json a_conflicts (PList []) in
  match raw with
  | PList l => lift (parse_entries conflict_from_dict l)
  | _ => ret []
  end.

(* src/app/services/offline_conflicts.py :: write_conflicts *)
Definition write_conflicts (items : list OfflineConflict) : AM unit :=
  write_json_atomic set_conflicts (PList (map conflict_to_dict items)).

Definition other_conflicts (i : string) : list OfflineConflict → list OfflineConflict :=
  List.filter (λ c, negb (bool_decide (cf_op_id c = i))).

(* src/app/services/offline_conflicts.py :: add_conflict *)
Definition add_conflict (c : OfflineConflict) : AM unit :=
  let! items := list_conflicts in
  let kept := other_conflicts (cf_op_id c) items in
  let! created := if str_empty (cf_created_at c) then utc_now_iso else ret (cf_created_at c) in
  write_conflicts
    (kept ++ [mkConflict (cf_op_id c) (cf_entity_type c) (cf_local_id c) (cf_reason_code c)
                (cf_message c) (cf_server_payload c) created]).

(* src/app/services/offline_conflicts.py :: remove_conflict *)
Definition remove_conflict (i : string) : AM unit :=
  let! items := list_conflicts in write_conflicts (other_conflicts i items).

(* src/app/services/offline_conflicts.py :: needs_review_count *)
Definition needs_review_count : AM Z :=
  let! items := list_conflicts in ret (Z.of_nat (length items)).

(** ** Permanently failed mutations *)

(* src/app/services/api_write_queue.py :: _MAX_FAILED_ITEMS *)
Definition _MAX_FAILED_ITEMS : nat := 50.

(* src/app/services/api_write_queue.py :: _load_failed *)
Definition _load_failed : AM (list pyval) :=
  let! payload := read_json a_failed (PList []) in
  ret (match payload with PList l => l | _ => [] end).

(* src/app/services/api_write_queue.py :: _write_failed *)
Definition _write_failed (items : list pyval) : AM unit :=
  write_json_atomic set_failed (PList items).

(* src/app/services/api_write_queue.py :: record_failed_api_mutation *)
Definition record_failed_api_mutation (item : pydict) (error_message : string) : AM unit :=
  let! now := utc_now_iso in
  let failed_item := dset "last_error" (PStr error_message) (dset "failed_at" (PStr now) item) in
  let! items := _load_failed in
  let items := items ++ [PDict failed_item] in
  _write_failed (drop (length items - _MAX_FAILED_ITEMS) items).

(* src/app/services/api_write_queue.py :: failed_api_mutation_count *)
Definition failed_api_mutation_count : AM Z :=
  let! items := _load_failed in ret (Z.of_nat (length items)).
End Store.
