(* ===== verification/OfflineProjection.v ===== *)
(** * The projection overlay of an offline account

    Models src/app/services/offline_projection.py: the snapshot of locally created or
    changed entities the screens show until the server has them, keyed by entity type and
    by the decimal text of the local id. *)

From S2P Require Import Prelude PyValue OfflineTypes OfflineStore.
Local Open Scope Z_scope.

Abbreviation projmap := (list (string * list (string * pydict))).

(** The rows of an entity type that are JSON objects. *)
Fixpoint dict_rows (d : pydict) : list (string * pydict) :=
  match d with
  | [] => []
  | (k, PDict p) :: d' => (k, p) :: dict_rows d'
  | _ :: d' => dict_rows d'
  end.
Fixpoint parse_projection (d : pydict) : projmap :=
  match d with
  | [] => []
  | (ty, PDict rows) :: d' => (ty, dict_rows rows) :: parse_projection d'
  | _ :: d' => parse_projection d'
  end.

(* src/app/services/offline_projection.py :: _load_projection_map *)
Definition _load_projection_map : AM projmap :=
  let! data := read_json a_projection (PDict []) in
  ret (parse_projection (dict_or_empty data)).

Definition encode_rows (rows : list (string * pydict)) : pyval :=
  PDict (map (λ '(k, p), (k, PDict p)) rows).

(* src/app/services/offline_projection.py :: _write_projection_map *)
Definition _write_projection_map (m : projmap) : AM unit :=
  write_json_atomic set_projection (PDict (map (λ '(ty, rows), (ty, encode_rows rows)) m)).

(* src/app/services/offline_projection.py :: list_projection_records *)
Definition list_projection_records (entity_type : string) : AM (list OfflineProjectionRecord) :=
  let! m := _load_projection_map in
  lift (parse_entries proj_from_dict (map PDict (dvalues (default [] (dget entity_type m))))).

Definition proj_row (entity_type : string) (local_id : Z) (m : projmap) : option pydict :=
  dget (pretty local_id) (default [] (dget entity_type m)).

(* src/app/services/offline_projection.py :: get_projection_record *)
Definition get_projection_record (entity_type : string) (local_id : Z)
  : AM (option OfflineProjectionRecord) :=
  let! m := _load_projection_map in
  match proj_row entity_type local_id m with
  | None => ret None
  | Some p =>
      match proj_from_dict (PDict p) with
      | Ok r => ret (Some r)
      | Err (ValueError _) => ret None
      | Err e => raise e
      end
  end.

(* src/app/services/offline_projection.py :: upsert_projection_record *)
Definition upsert_projection_record (r : OfflineProjectionRecord) : AM unit :=
  let! m := _load_projection_map in
  let rows := default [] (dget (pr_entity_type r) m) in
  let rows := dset (pretty (pr_local_id r)) (dict_or_empty (proj_to_dict r)) rows in
  _write_projection_map (dset (pr_entity_type r) rows m).

(* src/app/services/offline_projection.py :: remove_projection_record *)
Definition remove_projection_record (entity_type : string) (local_id : Z) : AM unit :=
  let! m := _load_projection_map in
  let rows := dpop (pretty local_id) (default [] (dget entity_type m)) in
  _write_projection_map
    (match rows with [] => dpop entity_type m | _ => dset entity_type rows m end).

(* src/app/services/offline_projection.py :: mark_projection_status *)
Definition mark_projection_status (entity_type : string) (local_id : Z)
    (sync_status sync_error : string) (local_only : option bool) (server_id : option Z) : AM unit :=
  let! record := get_projection_record entity_type local_id in
  match record with
  | None => ret tt
  | Some r =>
      upsert_projection_record
        (mkProj (pr_entity_type r) (pr_local_id r)
           (match server_id with Some i => Some i | None => pr_server_id r end)
           (pr_data r) sync_status sync_error
           (match local_only with Some b => b | None => pr_is_local_only r end))
  end.

(* src/app/services/offline_projection.py :: reconcile_projection_record *)
Definition reconcile_projection_record (entity_type : string) (temp_id server_id : Z)
    (server_payload : pydict) : AM unit :=
  do! remove_projection_record entity_type temp_id in
  upsert_projection_record
    (mkProj entity_type server_id (Some server_id) server_payload "synced" EmptyString false).

(* src/app/services/offline_projection.py :: _DEPENDENT_REFERENCE_FIELDS *)
Definition _DEPENDENT_REFERENCE_FIELDS (parent : string) : list (string * string) :=
  if decide (parent = "client") then
    [("demande", "client_id"); ("visit", "client_id"); ("contract", "client_id")]
  else if decide (parent = "listing") then
    [("offer", "listing_id"); ("visit", "listing_id"); ("contract", "listing_id")]
  else if decide (parent = "contract") then [("contract_article", "contract_id")]
  else [].

(** [int(raw)] of a value that is a number or a text; [None] where the loop continues. *)
Definition ref_value (raw : pyval) : res (option Z) :=
  match raw with
  | PInt _ | PBool _ | PFloat _ | PStr _ =>
      match py_int raw with
      | Ok z => Ok (Some z)
      | Err (ValueError _) => Ok None
      | Err e => Err e
      end
  | _ => Ok None
  end.

Fixpoint rewrite_records (field : string) (old_local_id new_server_id : Z) (changed : Z)
    (rs : list OfflineProjectionRecord) : AM Z :=
  match rs with
  | [] => ret changed
  | r :: rs' =>
      let! current := lift (ref_value (get field (pr_data r))) in
      if bool_decide (current = Some old_local_id) then
        do! upsert_projection_record
              (mkProj (pr_entity_type r) (pr_local_id r) (pr_server_id r)
                 (dset field (PInt new_server_id) (pr_data r))
                 (pr_sync_status r) (pr_sync_error r) (pr_is_local_only r)) in
        rewrite_records field old_local_id new_server_id (changed + 1) rs'
      else rewrite_records field old_local_id new_server_id changed rs'
  end.

Fixpoint rewrite_fields (old_local_id new_server_id changed : Z) (fs : list (string * string))
  : AM Z :=
  match fs with
  | [] => ret changed
  | (ty, field) :: fs' =>
      let! rs := list_projection_records ty in
      let! changed := rewrite_records field old_local_id new_server_id changed rs in
      rewrite_fields old_local_id new_server_id changed fs'
  end.

(* src/app/services/offline_projection.py :: rewrite_projection_parent_refs *)
Definition rewrite_projection_parent_refs (parent : string) (old_local_id new_server_id : Z)
  : AM Z :=
  rewrite_fields old_local_id new_server_id 0 (_DEPENDENT_REFERENCE_FIELDS parent).

(* src/app/services/offline_projection.py :: projection_record_count *)
Definition projection_record_count : AM Z :=
  let! m := _load_projection_map in
  ret (foldr (λ '(_, rows) n, Z.of_nat (length rows) + n) 0 m).
