(* ===== verification/OfflineJournal.v ===== *)
(** * The offline operation journal

    Models src/app/services/offline_op_log.py: the account's pending snapshot
    ([pending_snapshot.json]) and its append-only event log ([op_log.jsonl]). *)

From S2P Require Import Prelude PyValue OfflineTypes OfflineStore OfflineProjection.
From Stdlib Require Import Ascii.
Local Open Scope Z_scope.

Section Journal.
Context `{Oracle}.
Variable scope : OfflineAccountScope.

(* src/app/services/offline_op_log.py :: _QUEUE_COMPAT_READY_STATES *)
Definition _QUEUE_COMPAT_READY_STATES : list string :=
  ["pending"; "syncing"; "blocked"; "needs_review"].
Definition in_ready_states (s : string) : bool := bool_decide (s ∈ _QUEUE_COMPAT_READY_STATES).

(* src/app/services/offline_op_log.py :: _READY_PRIORITY *)
Definition _READY_PRIORITY (t : string) : Z :=
  if decide (t = "create") then 0 else if decide (t = "update") then 1
  else if decide (t = "delete") then 2 else if decide (t = "action") then 3 else 99.

(** [key=lambda item: (item.created_at, item.op_id)] *)
Definition key_leb (a b : OfflineOperation) : bool :=
  if decide (op_created_at a = op_created_at b) then str_leb (op_id a) (op_id b)
  else str_leb (op_created_at a) (op_created_at b).

(** ** Files *)

(* src/app/services/offline_op_log.py :: _ensure_meta *)
Definition _ensure_meta : AM unit :=
  let! path_exists := gets (λ a, match a_meta a with FMissing => false | _ => true end) in
  let! payload := load_json_with_quarantine a_meta set_meta (PDict []) in
  let p := dict_or_empty payload in
  let changed := negb path_exists || negb (dhas "schema_version" p)
                 || negb (dhas "last_sync_at" p) || negb (dhas "compacted_at" p) in
  let p := dsetdefault "compacted_at" (PStr EmptyString)
             (dsetdefault "last_sync_at" (PStr EmptyString)
                (dsetdefault "schema_version" (PInt 1) p)) in
  if changed then write_json_atomic set_meta (PDict p) else ret tt.

(* src/app/services/offline_op_log.py :: _append_event *)
Definition _append_event (event : pydict) : AM unit := append_jsonl (PDict event).

(* src/app/services/offline_op_log.py :: _write_pending_operations *)
Definition _write_pending_operations (items : list OfflineOperation) : AM unit :=
  write_json_atomic set_pending (PList (map op_to_dict items)).

(** One journal entry applied to the [active] dictionary. *)
Definition apply_entry (active : list (string * OfflineOperation)) (entry : pydict)
  : res (list (string * OfflineOperation)) :=
  if decide (str_field "event" EmptyString entry = "remove") then
    Ok (dpop (str_field "op_id" EmptyString entry) active)
  else
    match op_from_dict (get "op" entry) with
    | Ok op => Ok (if in_ready_states (op_status op) then dset (op_id op) op active
                   else dpop (op_id op) active)
    | Err (ValueError _) => Ok active
    | Err e => Err e
    end.
Fixpoint replay_entries (active : list (string * OfflineOperation)) (entries : list pydict)
  : res (list (string * OfflineOperation)) :=
  match entries with
  | [] => Ok active
  | e :: es => let? active' := apply_entry active e in replay_entries active' es
  end.

(* src/app/services/offline_op_log.py :: _rebuild_pending_from_log *)
Definition _rebuild_pending_from_log : AM (list OfflineOperation) :=
  let! entries := load_jsonl_with_quarantine in
  let! active := lift (replay_entries [] entries) in
  let items := ssort key_leb (dvalues active) in
  do! _write_pending_operations items in
  ret items.

(* src/app/services/offline_op_log.py :: _read_pending_operations *)
Definition _read_pending_operations : AM (list OfflineOperation) :=
  let! missing := gets (λ a, match a_pending a with FMissing => true | _ => false end) in
  if (missing : bool) then _rebuild_pending_from_log
  else
    let! snapshot := load_json_with_quarantine a_pending set_pending (PList []) in
    match snapshot with
    | PList entries =>
        let! ops := lift (parse_entries op_from_dict entries) in
        ret (List.filter (λ o, in_ready_states (op_status o)) ops)
    | _ => _rebuild_pending_from_log
    end.

(* src/app/services/offline_op_log.py :: _load_ops *)
Definition _load_ops : AM (list OfflineOperation) :=
  do! _ensure_meta in _read_pending_operations.

(* src/app/services/offline_op_log.py :: _store_ops *)
Definition _store_ops (items : list OfflineOperation) : AM unit := _write_pending_operations items.

Definition upsert_event (at_ : string) (op : OfflineOperation) : pydict :=
  [("event", PStr "upsert"); ("at", PStr at_); ("op", op_to_dict op)].
Definition remove_event (at_ : string) (i : string) : pydict :=
  [("event", PStr "remove"); ("at", PStr at_); ("op_id", PStr i)].

Definition has_id (i : string) (o : OfflineOperation) : bool := bool_decide (op_id o = i).

(* src/app/services/offline_op_log.py :: _upsert_op *)
Definition _upsert_op (op : OfflineOperation) : AM OfflineOperation :=
  let! loaded := _load_ops in
  let items := List.filter (λ o, negb (has_id (op_id op) o)) loaded in
  do! _store_ops (ssort key_leb (items ++ [op])) in
  let! now := utc_now_iso in
  do! _append_event (upsert_event now op) in
  ret op.

(* src/app/services/offline_op_log.py :: _remove_op *)
Definition _remove_op (i : string) : AM unit :=
  let! loaded := _load_ops in
  do! _store_ops (List.filter (λ o, negb (has_id i o)) loaded) in
  let! now := utc_now_iso in
  _append_event (remove_event now i).

(** [item.entity_type == entity_type and item.local_id == local_id and item.op_type == t] *)
Definition is_op_for (t entity_type : string) (local_id : Z) (o : OfflineOperation) : bool :=
  bool_decide (op_entity_type o = entity_type) && (op_local_id o =? local_id)
  && bool_decide (op_type o = t).

(* src/app/services/offline_op_log.py :: _find_create_for_entity *)
Definition _find_create_for_entity (entity_type : string) (local_id : Z)
  : AM (option OfflineOperation) :=
  let! items := _load_ops in ret (List.find (is_op_for "create" entity_type local_id) items).

(** ** Parents *)

(* src/app/services/offline_op_log.py :: _parent_is_resolved *)
Definition _parent_is_resolved (r : OfflineEntityRef) : AM bool :=
  if 0 <? ref_local_id r then ret true
  else let! i := resolve_reconciled_id (ref_entity_type r) (ref_local_id r) in
       ret (match i with Some _ => true | None => false end).

(** [all(_parent_is_resolved(ref) for ref in refs)], short-circuiting. *)
Fixpoint all_resolved (rs : list OfflineEntityRef) : AM bool :=
  match rs with
  | [] => ret true
  | r :: rs' => let! b := _parent_is_resolved r in
                if (b : bool) then all_resolved rs' else ret false
  end.

(* src/app/services/offline_op_log.py :: _compute_initial_status *)
Definition _compute_initial_status (parent_refs : list OfflineEntityRef) : AM string :=
  let! ok := all_resolved parent_refs in ret (if (ok : bool) then "pending" else "blocked").

(* src/app/services/offline_op_log.py :: _normalize_operation *)
Definition _normalize_operation (op : OfflineOperation) : AM OfflineOperation :=
  let! unblock :=
    if decide (op_status op = "blocked") then
      if str_empty (op_last_error op) then
        match op_parent_refs op with
        | [] => ret false
        | refs => all_resolved refs
        end
      else ret false
    else ret false in
  ret (mkOp (op_id op) (op_account_key op) (op_entity_type op) (op_type op) (op_local_id op)
         (op_payload op) (op_parent_refs op) (op_dedupe_key op)
         (if (unblock : bool) then "pending" else op_status op) (op_attempts op)
         (op_last_error op) (op_created_at op) (str_or (op_updated_at op) (op_created_at op))).

Fixpoint mapM_ {A B} (f : A → AM B) (l : list A) : AM (list B) :=
  match l with
  | [] => ret []
  | x :: l' => let! y := f x in let! ys := mapM_ f l' in ret (y :: ys)
  end.

(** ** Queries *)

(* src/app/services/offline_op_log.py :: list_operations *)
Definition list_operations : AM (list OfflineOperation) :=
  let! ops := _load_ops in mapM_ _normalize_operation ops.

Definition ready_leb (a b : OfflineOperation) : bool :=
  let pa := _READY_PRIORITY (op_type a) in
  let pb := _READY_PRIORITY (op_type b) in
  if pa =? pb then key_leb a b else pa <? pb.

(* src/app/services/offline_op_log.py :: list_ready_operations *)
Definition list_ready_operations : AM (list OfflineOperation) :=
  let! ops := list_operations in
  ret (ssort ready_leb (List.filter (λ o, bool_decide (op_status o = "pending")) ops)).

(* src/app/services/offline_op_log.py :: pending_operation_count *)
Definition pending_operation_count : AM Z :=
  let! ops := list_operations in ret (Z.of_nat (length ops)).

(* src/app/services/offline_op_log.py :: get_operation *)
Definition get_operation (i : string) : AM (option OfflineOperation) :=
  let! ops := _load_ops in ret (List.find (has_id i) ops).

(** ** Queueing *)

Definition mapping_dict (v : pyval) : pydict := dict_or_empty v.

(** The body of an update: [_mapping_dict(payload.get("body")) or dict(payload)]. *)
Definition body_of (payload : pydict) : pydict :=
  match mapping_dict (get "body" payload) with [] => payload | b => b end.
Definition merge_body (old : pydict) (body : pydict) : pydict :=
  dset "body" (PDict (dupdate (mapping_dict (get "body" old)) body)) old.

(* src/app/services/offline_op_log.py :: queue_create_operation *)
Definition queue_create_operation (entity_type : string) (local_id : Z) (payload : pydict)
    (parent_refs : list OfflineEntityRef) (dedupe_key : option string) (op_id_ : option string)
  : AM OfflineOperation :=
  let! now := utc_now_iso in
  let! i := id_or_uuid op_id_ in
  let! st := _compute_initial_status parent_refs in
  _upsert_op (mkOp i (account_key scope) entity_type "create" local_id payload parent_refs
                (default EmptyString dedupe_key) st 0 EmptyString now now).

(** The scan of [queue_update_operation]: the first update of the entity, or the first
    delete when it comes before. *)
Fixpoint scan_update (entity_type : string) (local_id : Z) (ops : list OfflineOperation)
  : option (bool * OfflineOperation) :=
  match ops with
  | [] => None
  | o :: ops' =>
      if is_op_for "update" entity_type local_id o then Some (true, o)
      else if is_op_for "delete" entity_type local_id o then Some (false, o)
      else scan_update entity_type local_id ops'
  end.

(* src/app/services/offline_op_log.py :: queue_update_operation *)
Definition queue_update_operation (entity_type : string) (local_id : Z) (payload : pydict)
    (dedupe_key : option string) (op_id_ : option string) : AM (option OfflineOperation) :=
  let! create_op := _find_create_for_entity entity_type local_id in
  match create_op with
  | Some c =>
      let! now := utc_now_iso in
      let c' := with_payload (merge_body (op_payload c) (body_of payload)) now c in
      let! _ := _upsert_op c' in
      ret (Some c')
  | None =>
      let! ops := _load_ops in
      match scan_update entity_type local_id ops with
      | Some (false, o) =>
          let! now := utc_now_iso in
          do! add_conflict (mkConflict (op_id o) entity_type local_id "delete_then_update"
                              "Cannot queue an update after a pending delete." (Some payload) now) in
          ret None
      | Some (true, u) =>
          let! now := utc_now_iso in
          let! r := _upsert_op
                      (with_payload (merge_body (op_payload u) (body_of payload)) now u) in
          ret (Some r)
      | None =>
          let! now := utc_now_iso in
          let! i := id_or_uuid op_id_ in
          let! r := _upsert_op (mkOp i (account_key scope) entity_type "update" local_id payload []
                                  (default EmptyString dedupe_key) "pending" 0 EmptyString now now) in
          ret (Some r)
      end
  end.

Definition refers_to (target : OfflineEntityRef) (o : OfflineOperation) : bool :=
  existsb (λ r, bool_decide (r = target)) (op_parent_refs o).

(** The recursion of the source has no explicit bound; [fuel] bounds its depth, and a run
    that reaches zero raises, which [cancel_enough_fuel] rules out. *)
(* src/app/services/offline_op_log.py :: _cancel_dependent_temp_creates *)
Fixpoint _cancel_dependent_temp_creates (fuel : nat) (entity_type : string) (local_id : Z)
  : AM unit :=
  match fuel with
  | O => raise (RuntimeError "maximum recursion depth exceeded")
  | S fuel' =>
      let! items := _load_ops in
      for_each (λ item,
        if bool_decide (op_type item = "create")
           && refers_to (mkRef entity_type local_id) item then
          do! _remove_op (op_id item) in
          do! remove_projection_record (op_entity_type item) (op_local_id item) in
          _cancel_dependent_temp_creates fuel' (op_entity_type item) (op_local_id item)
        else ret tt) items
  end.

Definition log_removals (now : string) (ids : list string) : AM unit :=
  for_each (λ i, _append_event (remove_event now i)) ids.

(* src/app/services/offline_op_log.py :: queue_delete_operation *)
Definition queue_delete_operation (fuel : nat) (entity_type : string) (local_id : Z)
    (payload : pydict) (dedupe_key : option string) (op_id_ : option string)
  : AM (option OfflineOperation) :=
  let! create_op := _find_create_for_entity entity_type local_id in
  match create_op with
  | Some c =>
      do! _remove_op (op_id c) in
      do! remove_projection_record entity_type local_id in
      do! _cancel_dependent_temp_creates fuel entity_type local_id in
      ret None
  | None =>
      let! ops := _load_ops in
      let removed_ids := map op_id (List.filter (is_op_for "update" entity_type local_id) ops) in
      do! _store_ops (List.filter (λ o, negb (is_op_for "update" entity_type local_id o)) ops) in
      let! now := utc_now_iso in
      do! log_removals now removed_ids in
      let! i := id_or_uuid op_id_ in
      let! r := _upsert_op (mkOp i (account_key scope) entity_type "delete" local_id payload []
                              (default EmptyString dedupe_key) "pending" 0 EmptyString now now) in
      ret (Some r)
  end.

(* src/app/services/offline_op_log.py :: queue_action_operation *)
Definition queue_action_operation (entity_type : string) (local_id : Z) (payload : pydict)
    (dedupe_key : option string) (op_id_ : option string) : AM OfflineOperation :=
  let! now := utc_now_iso in
  let! i := id_or_uuid op_id_ in
  _upsert_op (mkOp i (account_key scope) entity_type "action" local_id payload []
                (default EmptyString dedupe_key) "pending" 0 EmptyString now now).

(** The name given to a quarantined file: [stem.ext], then [stem.1.ext], [stem.2.ext], ... *)
Fixpoint free_name (fuel : nat) (stem : string) (index : Z) (taken : list string) : string :=
  let candidate := if index =? 0 then stem +:+ ".json"
                   else stem +:+ "." +:+ pretty index +:+ ".json" in
  match fuel with
  | O => candidate
  | S f => if bool_decide (candidate ∈ taken) then free_name f stem (index + 1) taken
           else candidate
  end.

(* src/app/services/offline_account_scope.py :: quarantine_legacy_api_queue_files *)
Definition quarantine_legacy_api_queue_files : AM unit :=
  for_each (λ stem, modify (λ a,
    if bool_decide (stem +:+ ".json" ∈ a_legacy a) then
      set_legacy (List.filter (λ n, negb (bool_decide (n = stem +:+ ".json"))) (a_legacy a))
        (free_name (S (length (a_legacy_quarantine a))) stem 0 (a_legacy_quarantine a)
           :: a_legacy_quarantine a) a
    else a)) ["pending_mutations"; "failed_mutations"].

(* src/app/services/offline_op_log.py :: queue_generic_api_mutation *)
Definition queue_generic_api_mutation (method path : string) (json_body params : pydict)
    (headers : list (string * string)) (dedupe_key : option string) (label : option string)
    (op_id_ : option string) : AM OfflineOperation :=
  do! quarantine_legacy_api_queue_files in
  let dk := default EmptyString dedupe_key in
  do! (if str_empty dk then ret tt
       else
         let! ops := _load_ops in
         let same o := bool_decide (op_dedupe_key o = dk) in
         do! _store_ops (List.filter (λ o, negb (same o)) ops) in
         let! now := utc_now_iso in
         log_removals now (map op_id (List.filter same ops))) in
  let m := upper (str_or method "POST") in
  let ty := if decide (m = "PUT") then "update" else if decide (m = "DELETE") then "delete"
            else "action" in
  let! now := utc_now_iso in
  let! i := id_or_uuid op_id_ in
  _upsert_op (mkOp i (account_key scope) "generic" ty 0
                [("method", PStr m); ("path", PStr path); ("body", PDict json_body);
                 ("params", PDict params);
                 ("headers", PDict (map (λ '(k, v), (k, PStr v)) headers));
                 ("label", PStr (default EmptyString label))]
                [] dk "pending" 0 EmptyString now now).

(** ** State changes *)

(* src/app/services/offline_op_log.py :: refresh_blocked_operations *)
Definition refresh_blocked_operations : AM Z :=
  let! items := _load_ops in
  let! updated_items := mapM_ _normalize_operation items in
  let changed_ops := map snd (List.filter (λ p : OfflineOperation * OfflineOperation,
                                 negb (bool_decide (op_status p.2 = op_status p.1)))
                                (combine items updated_items)) in
  match changed_ops with
  | [] => ret 0
  | _ =>
      do! _store_ops updated_items in
      let! now := utc_now_iso in
      do! for_each (λ o, _append_event (upsert_event now o)) changed_ops in
      ret (Z.of_nat (length changed_ops))
  end.

(** The last item with the id, after the update. *)
Definition last_with_id (i : string) (ops : list OfflineOperation) : option OfflineOperation :=
  last (List.filter (has_id i) ops).

(* src/app/services/offline_op_log.py :: note_operation_attempt *)
Definition note_operation_attempt (i error_message : string) : AM unit :=
  let! items := _load_ops in
  let! now := utc_now_iso in
  let updated_items := map (λ o, if has_id i o then with_attempt error_message now o else o) items in
  do! _store_ops updated_items in
  match last_with_id i updated_items with
  | Some changed_op => _append_event (upsert_event now changed_op)
  | None => ret tt
  end.

Definition is_terminal (status : string) : bool :=
  bool_decide (status ∈ ["applied"; "cancelled"]).

(* src/app/services/offline_op_log.py :: update_operation_status *)
Definition update_operation_status (i status last_error : string)
  : AM (option OfflineOperation) :=
  let! items := _load_ops in
  let! now := utc_now_iso in
  let all := map (λ o, if has_id i o then with_status status last_error now o else o) items in
  do! _store_ops (if is_terminal status then List.filter (λ o, negb (has_id i o)) all else all) in
  match last_with_id i all with
  | Some updated =>
      do! _append_event (upsert_event now updated) in
      do! (if is_terminal status then _append_event (remove_event now i) else ret tt) in
      ret (Some updated)
  | None => ret None
  end.

(* src/app/services/offline_op_log.py :: remove_operation *)
Definition remove_operation (i : string) : AM unit := _remove_op i.

(* src/app/services/offline_op_log.py :: discard_operation *)
Definition discard_operation (fuel : nat) (i : string) : AM unit :=
  let! found := get_operation i in
  match found with
  | None => ret tt
  | Some op =>
      do! _remove_op i in
      do! (if decide (op_entity_type op = "generic") then ret tt
           else remove_projection_record (op_entity_type op) (op_local_id op)) in
      do! (if bool_decide (op_type op = "create") && (op_local_id op <? 0)
              && negb (bool_decide (op_entity_type op = "generic"))
           then _cancel_dependent_temp_creates fuel (op_entity_type op) (op_local_id op)
           else ret tt) in
      let! _ := refresh_blocked_operations in
      ret tt
  end.

(* src/app/services/offline_op_log.py :: clear_operation_store *)
Definition clear_operation_store : AM unit :=
  do! _store_ops [] in modify (set_log (Some [])).
End Journal.
