(* ===== verification/JournalSpec.v ===== *)
(** * The journal is durable

    The invariant of OfflineJournal: the pending snapshot and the replay of the event log
    hold the same operations.  Every operation of the journal preserves it without raising,
    so a lost snapshot is rebuilt exactly from the log. *)

From S2P Require Import Prelude PyValue OfflineTypes OfflineStore OfflineProjection OfflineJournal.
Local Open Scope Z_scope.

(** ** The sort key is a total order, antisymmetric on operations with distinct ids *)

Lemma key_leb_total a b : key_leb a b = false → key_leb b a = true.
Proof.
  unfold key_leb. destruct (decide (op_created_at a = op_created_at b)) as [E|E].
  - rewrite decide_True by done. apply str_leb_total.
  - rewrite decide_False by congruence. apply str_leb_total.
Qed.
Lemma key_leb_trans a b c : key_leb a b = true → key_leb b c = true → key_leb a c = true.
Proof.
  unfold key_leb.
  destruct (decide (op_created_at a = op_created_at b)) as [E1|E1],
    (decide (op_created_at b = op_created_at c)) as [E2|E2]; intros L1 L2.
  - rewrite decide_True by congruence. by eapply str_leb_trans.
  - rewrite decide_False by congruence. by rewrite E1.
  - rewrite decide_False by congruence. by rewrite <- E2.
  - rewrite decide_False; [by eapply str_leb_trans|].
    intros E3. apply E1, str_leb_antisym; congruence.
Qed.
Lemma key_leb_antisym a b : key_leb a b = true → key_leb b a = true → op_id a = op_id b.
Proof.
  unfold key_leb. destruct (decide (op_created_at a = op_created_at b)) as [E|E].
  - rewrite decide_True by done. apply str_leb_antisym.
  - rewrite decide_False by congruence. intros L1 L2. exfalso. by apply E, str_leb_antisym.
Qed.
Lemma key_leb_same a b a' b' :
  op_id a' = op_id a → op_created_at a' = op_created_at a →
  op_id b' = op_id b → op_created_at b' = op_created_at b → key_leb a' b' = key_leb a b.
Proof. unfold key_leb. by intros -> -> -> ->. Qed.

Section JournalSpec.
Context `{Oracle}.

(** ** The invariant *)

(** [updated_at] is set, so normalising the operation changes only its status. *)
Definition settled (o : OfflineOperation) : bool :=
  bool_decide (str_or (op_updated_at o) (op_created_at o) = op_updated_at o).
Definition ready_op (o : OfflineOperation) : bool :=
  wf_op o && in_ready_states (op_status o) && settled o.

(** The replayed dictionary holds exactly [ops], keyed by id. *)
Definition tracks (active : list (string * OfflineOperation)) (ops : list OfflineOperation) :=
  NoDup (dkeys active) ∧ ∀ i o, dget i active = Some o ↔ o ∈ ops ∧ op_id o = i.
Definition log_tracks (ops : list OfflineOperation) (a : account) : Prop :=
  ∃ entries active,
    parse_jsonl (default [] (a_log a)) = Some entries ∧
    replay_entries [] entries = Ok active ∧ tracks active ops.

Record ops_ok (ops : list OfflineOperation) : Prop := {
  ok_ready : Forall (λ o, ready_op o = true) ops;
  ok_sorted : StronglySorted (λ x y, key_leb x y = true) ops;
  ok_ids : NoDup (map op_id ops)
}.

Definition snapshot_is (ops : list OfflineOperation) (a : account) : Prop :=
  a_pending a = FJson (PList (map op_to_dict ops)).

Definition journal (ops : list OfflineOperation) (a : account) : Prop :=
  ops_ok ops ∧ log_tracks ops a ∧ (a_pending a = FMissing ∨ snapshot_is ops a).

(** The files the journal does not own. *)
Definition frame (a : account) :=
  (a_conflicts a, a_projection a, a_allocator a, a_temp_map a, a_failed a, a_upload_index a,
   a_media a).
Definition journal_in ops fr a : Prop := journal ops a ∧ frame a = fr.

(** ** Reading back *)

Lemma ready_wf o : ready_op o = true → wf_op o = true ∧ in_ready_states (op_status o) = true.
Proof. unfold ready_op. intros [[? ?]%andb_true_iff ?]%andb_true_iff. done. Qed.

Lemma parse_ops ops :
  Forall (λ o, ready_op o = true) ops → parse_entries op_from_dict (map op_to_dict ops) = Ok ops.
Proof.
  induction 1 as [|o ops Ho Hops IH]; [done|]. cbn [map parse_entries].
  rewrite op_roundtrip by (by apply ready_wf). by rewrite IH.
Qed.
Lemma filter_ready ops :
  Forall (λ o, ready_op o = true) ops →
  List.filter (λ o, in_ready_states (op_status o)) ops = ops.
Proof.
  intros Hr. apply filter_all. rewrite Forall_forall in Hr |- *.
  intros o Ho. by apply ready_wf, Hr.
Qed.

Lemma tracks_of_list ops : NoDup (map op_id ops) → tracks (map (λ o, (op_id o, o)) ops) ops.
Proof.
  intros Hnd. assert (NoDup (dkeys (map (λ o, (op_id o, o)) ops))) as Hk.
  { unfold dkeys. by rewrite map_map. }
  split; [done|]. intros i o. split.
  - intros (x & [= -> ->] & Hx)%dget_Some_elem%elem_of_map. done.
  - intros [Ho <-]. apply dget_elem_NoDup; [done|]. apply elem_of_map. by exists o.
Qed.

Lemma tracks_values active ops : ops_ok ops → tracks active ops → dvalues active ≡ₚ ops.
Proof.
  intros [_ _ Hids] [Hnd Htr].
  assert (map op_id (dvalues active) = dkeys active) as Hkeys.
  { unfold dvalues, dkeys. rewrite map_map. apply map_ext_in. intros [k v] Hin.
    apply list_elem_of_In in Hin. simpl.
    apply (dget_elem_NoDup _ _ _ Hnd) in Hin. by apply Htr in Hin as [_ <-]. }
  apply NoDup_ext_perm.
  - apply (NoDup_of_map op_id). by rewrite Hkeys.
  - by apply (NoDup_of_map op_id).
  - intros o. unfold dvalues. rewrite elem_of_map. split.
    + intros ([k v] & -> & Hin). apply (dget_elem_NoDup _ _ _ Hnd) in Hin. by apply Htr in Hin as [? _].
    + intros Ho. destruct (Htr (op_id o) o) as [_ H2].
      exists (op_id o, o). split; [done|]. apply dget_Some_elem. by apply H2.
Qed.

Lemma tracks_sorted active ops :
  ops_ok ops → tracks active ops → ssort key_leb (dvalues active) = ops.
Proof.
  intros Hok Htr. pose proof Hok as [Hr Hs Hi].
  apply (sorted_unique key_leb).
  - pose proof (tracks_values active ops Hok Htr) as Hp. intros x y Hx Hy H1 H2.
    rewrite ssort_perm, Hp in Hx, Hy.
    eapply (NoDup_map_inj_on op_id); eauto. by apply key_leb_antisym.
  - apply ssort_sorted; [apply key_leb_total|apply key_leb_trans].
  - done.
  - rewrite ssort_perm. by apply tracks_values.
Qed.

Lemma ensure_meta_spec a : ∃ f, _ensure_meta a = (Ok tt, set_meta f a).
Proof.
  unfold _ensure_meta, load_json_with_quarantine, bind, gets, write_json_atomic, modify, ret.
  destruct a as [m]; simpl. destruct m; simpl; repeat case_match; simplify_eq; simpl; eauto.
Qed.

Lemma load_ops_spec ops a :
  journal ops a →
  ∃ a', _load_ops a = (Ok ops, a') ∧ journal ops a' ∧ snapshot_is ops a' ∧ frame a' = frame a
        ∧ a_log a' = a_log a.
Proof.
  intros (Hok & Hlog & Hp). unfold _load_ops.
  destruct (ensure_meta_spec a) as [f Ef]. rewrite (bind_ok _ _ _ _ _ Ef).
  unfold _read_pending_operations. rewrite bind_gets. simpl.
  destruct Hp as [Hp|Hp].
  - rewrite Hp. unfold _rebuild_pending_from_log, load_jsonl_with_quarantine.
    pose proof Hlog as (entries & active & Hparse & Hrep & Htr).
    assert ((λ a0 : account, match a_log a0 with
             | Some ls => match parse_jsonl ls with
                          | Some ds => (Ok ds, a0) | None => (Ok [], set_log None a0) end
             | None => (Ok [], a0) end) (set_meta f a) = (Ok entries, set_meta f a)) as El.
    { simpl. destruct (a_log a); simpl in Hparse; [by rewrite Hparse|]. by simplify_eq. }
    rewrite (bind_ok _ _ _ _ _ El). unfold lift. erewrite bind_ok by (by rewrite Hrep).
    rewrite (tracks_sorted active ops) by done.
    eexists. split; [done|]. split_and!; [|done..]. split_and!; [done| |by right].
    by exists entries, active.
  - unfold snapshot_is in Hp. rewrite Hp.
    unfold load_json_with_quarantine. erewrite bind_ok by (simpl; by rewrite Hp).
    unfold lift. erewrite bind_ok by (rewrite parse_ops; [done|apply Hok]).
    unfold ret. rewrite filter_ready by apply Hok.
    eexists. split; [done|]. split_and!; [|done..]. split_and!; [done|done|by right].
Qed.

Lemma load_ops_hoare ops fr :
  hoare (journal_in ops fr) _load_ops (λ r a, r = ops ∧ journal_in ops fr a).
Proof.
  intros a [Hj Hf]. destruct (load_ops_spec ops a Hj) as (a' & E & Hj' & _ & Hf' & _).
  exists ops, a'. split_and!; [done|done|]. split; [done|congruence].
Qed.

(** ** Writing: one event per change *)

(** An event that takes a dictionary tracking [ops] to one tracking [ops']. *)
Definition log_step (ev : pydict) (ops ops' : list OfflineOperation) : Prop :=
  ∀ active, tracks active ops →
    ∃ active', apply_entry active ev = Ok active' ∧ tracks active' ops'.

Lemma parse_jsonl_snoc ls d entries :
  parse_jsonl ls = Some entries → parse_jsonl (ls ++ [LJson (PDict d)]) = Some (entries ++ [d]).
Proof.
  revert entries. induction ls as [|[| |v] ls IH]; intros entries; simpl; try done.
  - by intros [= <-].
  - apply IH.
  - destruct v; try apply IH. destruct (parse_jsonl ls) as [es|] eqn:E; [|done].
    simpl. intros [= <-]. by rewrite (IH es).
Qed.
Lemma replay_snoc active0 entries active d :
  replay_entries active0 entries = Ok active →
  replay_entries active0 (entries ++ [d]) = apply_entry active d.
Proof.
  revert active0. induction entries as [|e es IH]; intros active0; simpl.
  - intros [= ->]. by destruct (apply_entry active d).
  - destruct (apply_entry active0 e); simpl; [apply IH|done].
Qed.

Lemma log_tracks_append ev ops ops' a a' :
  log_tracks ops a → log_step ev ops ops' →
  a_log a' = Some (default [] (a_log a) ++ [LJson (PDict ev)]) → log_tracks ops' a'.
Proof.
  intros (entries & active & Hp & Hr & Ht) Hstep Ea.
  destruct (Hstep active Ht) as (active' & Hap & Ht').
  exists (entries ++ [ev]), active'. split_and!; [|by rewrite (replay_snoc _ _ active)|done].
  rewrite Ea. simpl. by apply parse_jsonl_snoc.
Qed.

Lemma apply_upsert now op active :
  wf_op op = true →
  apply_entry active (upsert_event now op) =
    Ok (if in_ready_states (op_status op) then dset (op_id op) op active
        else dpop (op_id op) active).
Proof.
  intros Hwf. unfold apply_entry.
  change (str_field "event" EmptyString (upsert_event now op)) with "upsert".
  change (get "op" (upsert_event now op)) with (op_to_dict op).
  rewrite decide_False by done. by rewrite op_roundtrip.
Qed.
Lemma apply_remove now i active :
  apply_entry active (remove_event now i) = Ok (dpop i active).
Proof.
  unfold apply_entry, str_field, get, remove_event. simpl. by rewrite py_or_str_self.
Qed.

Lemma log_step_upsert now op ops ops' :
  wf_op op = true → in_ready_states (op_status op) = true →
  (∀ o, o ∈ ops' ↔ o = op ∨ (o ∈ ops ∧ op_id o ≠ op_id op)) →
  log_step (upsert_event now op) ops ops'.
Proof.
  intros Hwf Hst Hmem active [Hnd Htr]. exists (dset (op_id op) op active).
  split; [by rewrite apply_upsert, Hst|].
  split; [by apply NoDup_dset|]. intros i o. rewrite Hmem.
  destruct (decide (i = op_id op)) as [->|Hne].
  - rewrite dget_dset_eq. split; [intros [= ->]; by auto|].
    intros [[->|[_ Hn]] Hi]; [done|congruence].
  - rewrite dget_dset_ne by done. rewrite Htr. split; [intros [? <-]; auto|].
    intros [[->|[? _]] Hi]; [congruence|done].
Qed.

Lemma tracks_pop i active ops ops' :
  tracks active ops → (∀ o, o ∈ ops' ↔ o ∈ ops ∧ op_id o ≠ i) → tracks (dpop i active) ops'.
Proof.
  intros [Hnd Htr] Hmem. split; [by apply NoDup_dpop|]. intros j o. rewrite Hmem.
  destruct (decide (j = i)) as [->|Hne].
  - rewrite dget_dpop_eq by done. split; [done|]. intros [[_ Hn] Hi]. congruence.
  - rewrite dget_dpop_ne, Htr by done. split; [intros [? <-]; auto|intros [[? _] ?]; auto].
Qed.

Lemma log_step_remove now i ops ops' :
  (∀ o, o ∈ ops' ↔ o ∈ ops ∧ op_id o ≠ i) → log_step (remove_event now i) ops ops'.
Proof.
  intros Hmem active Htr. exists (dpop i active).
  split; [by apply apply_remove|by eapply tracks_pop].
Qed.

Lemma log_step_dead now op ops ops' :
  wf_op op = true → in_ready_states (op_status op) = false →
  (∀ o, o ∈ ops' ↔ o ∈ ops ∧ op_id o ≠ op_id op) → log_step (upsert_event now op) ops ops'.
Proof.
  intros Hwf Hst Hmem active Htr. exists (dpop (op_id op) active).
  split; [by rewrite apply_upsert, Hst|by eapply tracks_pop].
Qed.

(** ** Lists the journal stores *)

Definition without (i : string) (ops : list OfflineOperation) : list OfflineOperation :=
  List.filter (λ o, negb (has_id i o)) ops.
Definition upserted (op : OfflineOperation) (ops : list OfflineOperation) :=
  ssort key_leb (without (op_id op) ops ++ [op]).
Definition update_id (i : string) (f : OfflineOperation → OfflineOperation) ops :=
  map (λ o, if has_id i o then f o else o) ops.

Lemma has_id_true i o : has_id i o = true ↔ op_id o = i.
Proof. unfold has_id. apply bool_decide_eq_true. Qed.
Lemma has_id_false i o : has_id i o = false ↔ op_id o ≠ i.
Proof. unfold has_id. apply bool_decide_eq_false. Qed.
Lemma elem_of_without i ops o : o ∈ without i ops ↔ o ∈ ops ∧ op_id o ≠ i.
Proof.
  unfold without. rewrite elem_of_filter_b, negb_true_iff, has_id_false. tauto.
Qed.
Lemma elem_of_upserted op ops o :
  o ∈ upserted op ops ↔ o = op ∨ (o ∈ ops ∧ op_id o ≠ op_id op).
Proof.
  unfold upserted. rewrite ssort_perm, elem_of_app, elem_of_without, list_elem_of_singleton.
  tauto.
Qed.

Lemma ops_ok_nil : ops_ok [].
Proof. split; constructor. Qed.
Lemma ops_ok_filter f ops : ops_ok ops → ops_ok (List.filter f ops).
Proof.
  intros [Hr Hs Hi]. split.
  - by apply Forall_filter_b.
  - by apply StronglySorted_filter.
  - by apply NoDup_map_filter.
Qed.
Lemma ops_ok_upserted op ops : ready_op op = true → ops_ok ops → ops_ok (upserted op ops).
Proof.
  intros Hop Hok. destruct (ops_ok_filter (λ o, negb (has_id (op_id op) o)) ops Hok) as [Hr _ Hi].
  fold (without (op_id op) ops) in *. split.
  - unfold upserted. rewrite ssort_perm. apply Forall_app. auto.
  - apply ssort_sorted; [apply key_leb_total|apply key_leb_trans].
  - unfold upserted. rewrite ssort_perm, map_app. apply NoDup_app. split_and!; [done| |].
    + simpl. intros i (o & Hio & Ho)%elem_of_map Hi2%list_elem_of_singleton.
      apply elem_of_without in Ho as [_ ?]. congruence.
    + apply NoDup_singleton.
Qed.
Lemma ops_ok_update i f ops :
  (∀ o, op_id (f o) = op_id o) → (∀ o, op_created_at (f o) = op_created_at o) →
  (∀ o, o ∈ ops → op_id o = i → ready_op (f o) = true) →
  ops_ok ops → ops_ok (update_id i f ops).
Proof.
  intros Hid Hca Hready [Hr Hs Hi]. split.
  - rewrite Forall_forall in Hr |- *. intros o (x & -> & Hx)%elem_of_map.
    destruct (has_id i x) eqn:E; [apply Hready; [done|by apply has_id_true]|auto].
  - apply StronglySorted_map_mono; [|done]. intros x y Hxy.
    rewrite <- Hxy. apply key_leb_same; case_match; auto.
  - unfold update_id. rewrite map_map. erewrite map_ext; [done|].
    intros o. simpl. case_match; auto.
Qed.
Lemma length_upserted op ops : (length (upserted op ops) ≤ S (length ops))%nat.
Proof.
  unfold upserted. rewrite ssort_perm, length_app. simpl.
  pose proof (length_filter_le (λ o, negb (has_id (op_id op) o)) ops). unfold without. lia.
Qed.

(** ** Triples for the file steps *)

Context `{!ClockOk}.

(** Between the snapshot write and the last event: the snapshot holds [ops'], the log [ops]. *)
Definition stored ops ops' fr a : Prop :=
  ops_ok ops' ∧ snapshot_is ops' a ∧ log_tracks ops a ∧ frame a = fr.

Lemma store_hoare ops ops' fr :
  ops_ok ops' → hoare (journal_in ops fr) (_store_ops ops') (λ _, stored ops ops' fr).
Proof. intros Hok. apply hoare_modify. intros a [(? & ? & ?) ?]. split_and!; done. Qed.
Lemma append_hoare ev ops1 ops2 ops' fr :
  log_step ev ops1 ops2 → hoare (stored ops1 ops' fr) (_append_event ev) (λ _, stored ops2 ops' fr).
Proof.
  intros Hstep. apply hoare_modify. intros a (? & ? & ? & ?). split_and!; try done.
  by eapply log_tracks_append.
Qed.
Lemma stored_journal ops fr a : stored ops ops fr a → journal_in ops fr a.
Proof. intros (? & ? & ? & ?). split; [split_and!; auto|done]. Qed.
Lemma now_stored ops ops' fr :
  hoare (stored ops ops' fr) utc_now_iso (λ now a, str_empty now = false ∧ stored ops ops' fr a).
Proof. intros a Ha. eexists _, _. split; [done|]. by split; [apply clock_nonempty|]. Qed.
Lemma now_journal ops fr :
  hoare (journal_in ops fr) utc_now_iso (λ now a, str_empty now = false ∧ journal_in ops fr a).
Proof. intros a Ha. eexists _, _. split; [done|]. by split; [apply clock_nonempty|]. Qed.
Lemma id_journal ops fr i :
  hoare (journal_in ops fr) (id_or_uuid i) (λ _, journal_in ops fr).
Proof.
  unfold id_or_uuid. destruct i as [s|]; [destruct (str_empty s)|]; try (by apply hoare_ret);
    (intros a Ha; by eexists _, _).
Qed.

Lemma upsert_hoare op ops fr :
  ready_op op = true →
  hoare (journal_in ops fr) (_upsert_op op)
    (λ r a, r = op ∧ journal_in (upserted op ops) fr a).
Proof.
  intros Hop. unfold _upsert_op.
  eapply hoare_bind; [apply load_ops_hoare|]. intros loaded.
  apply (hoare_pure _ _ _ (loaded = ops)); [by intros s [? _]|]. intros ->.
  eapply hoare_conseq with (Q' := λ r a, r = op ∧ journal_in (upserted op ops) fr a);
    [|intros a [_ Ha]; exact Ha|done].
  fold (without (op_id op) ops). fold (upserted op ops).
  destruct (ready_wf op Hop) as [Hwf Hst].
  eapply hoare_bind; [|intros ?].
  { intros a [Hj Hf]. apply (store_hoare ops (upserted op ops) fr); [|done].
    apply ops_ok_upserted; [done|]. apply Hj. }
  eapply hoare_bind; [apply now_stored|]. intros now.
  eapply hoare_bind; [|intros ?].
  { eapply hoare_conseq; [eapply append_hoare|intros s [_ Hs]; exact Hs|done].
    apply log_step_upsert; [done..|]. intros o. apply elem_of_upserted. }
  apply hoare_ret. intros s Hs. split; [done|]. by apply stored_journal.
Qed.

Lemma remove_hoare i ops fr :
  hoare (journal_in ops fr) (_remove_op i) (λ _, journal_in (without i ops) fr).
Proof.
  unfold _remove_op. eapply hoare_bind; [apply load_ops_hoare|]. intros loaded.
  apply (hoare_pure _ _ _ (loaded = ops)); [by intros s [? _]|]. intros ->.
  eapply hoare_bind; [|intros ?].
  { intros a [_ [Hj Hf]]. apply (store_hoare ops (without i ops) fr); [|done].
    apply ops_ok_filter, Hj. }
  eapply hoare_bind; [apply now_stored|]. intros now.
  eapply hoare_conseq; [eapply append_hoare|intros s [_ Hs]; exact Hs|].
  - apply log_step_remove. intros o. apply elem_of_without.
  - intros ? s Hs. by apply stored_journal.
Qed.

(** ** Reading the reconciliation map *)

Definition id_map (f : pyfile) : list (string * list (string * Z)) :=
  match f with FJson (PDict d) => parse_id_map d | _ => [] end.
Definition resolved_in (f : pyfile) (r : OfflineEntityRef) : bool :=
  (0 <? ref_local_id r)
  || bool_decide (is_Some (dget (pretty (ref_local_id r))
                            (default [] (dget (ref_entity_type r) (id_map f))))).
(** [_normalize_operation] as a function of the map. *)
Definition unblocks (f : pyfile) (o : OfflineOperation) : bool :=
  bool_decide (op_status o = "blocked") && str_empty (op_last_error o)
  && match op_parent_refs o with [] => false | refs => forallb (resolved_in f) refs end.
Definition normalize (f : pyfile) (o : OfflineOperation) : OfflineOperation :=
  with_status (if unblocks f o then "pending" else op_status o) (op_last_error o)
    (str_or (op_updated_at o) (op_created_at o)) o.

Lemma reconciliation_map_run a : get_reconciliation_map a = (Ok (id_map (a_temp_map a)), a).
Proof.
  unfold get_reconciliation_map, read_json, bind, gets, ret, id_map.
  by destruct (a_temp_map a) as [| |[]].
Qed.
Lemma parent_is_resolved_run r a :
  _parent_is_resolved r a = (Ok (resolved_in (a_temp_map a) r), a).
Proof.
  unfold _parent_is_resolved, resolved_in. destruct (0 <? ref_local_id r) eqn:E; [done|].
  unfold resolve_reconciled_id. rewrite E.
  erewrite bind_ok by (erewrite bind_ok by apply reconciliation_map_run; done).
  unfold ret. by destruct (dget _ _).
Qed.
Lemma all_resolved_run rs a :
  all_resolved rs a = (Ok (forallb (resolved_in (a_temp_map a)) rs), a).
Proof.
  induction rs as [|r rs IH]; [done|]. cbn [all_resolved forallb].
  rewrite (bind_ok _ _ _ _ _ (parent_is_resolved_run r a)).
  by destruct (resolved_in (a_temp_map a) r).
Qed.
Lemma normalize_run o a : _normalize_operation o a = (Ok (normalize (a_temp_map a) o), a).
Proof.
  unfold _normalize_operation, normalize, unblocks, with_status.
  case_decide as Ed; [|by rewrite bool_decide_eq_false_2].
  rewrite bool_decide_eq_true_2 by done. simpl.
  destruct (str_empty (op_last_error o)); [|done].
  destruct (op_parent_refs o) as [|r rs]; [done|].
  by rewrite (bind_ok _ _ _ _ _ (all_resolved_run (r :: rs) a)).
Qed.
Lemma normalize_all_run ops a :
  mapM_ _normalize_operation ops a = (Ok (map (normalize (a_temp_map a)) ops), a).
Proof.
  induction ops as [|o ops IH]; [done|]. cbn [mapM_ map].
  rewrite (bind_ok _ _ _ _ _ (normalize_run o a)). by rewrite (bind_ok _ _ _ _ _ IH).
Qed.

Definition temp_map_of (fr : pyfile * pyfile * pyfile * pyfile * pyfile * pyfile * gmap string string)
  : pyfile := let '(_, _, _, t, _, _, _) := fr in t.
Lemma frame_temp_map a fr : frame a = fr → a_temp_map a = temp_map_of fr.
Proof. by intros <-. Qed.

(** Normalising a ready operation can only move it from [blocked] to [pending]. *)
Lemma normalize_ready f o :
  ready_op o = true →
  normalize f o = if unblocks f o then with_status "pending" (op_last_error o) (op_updated_at o) o
                  else o.
Proof.
  unfold ready_op. intros [_ Hs%bool_decide_eq_true]%andb_true_iff.
  unfold normalize. rewrite Hs. destruct o; simpl in *. by destruct (unblocks _ _).
Qed.
Lemma ready_with_status st err now o :
  ready_op o = true → in_ready_states st = true → str_empty now = false →
  ready_op (with_status st err now o) = true.
Proof.
  unfold ready_op, wf_op, settled, with_status; simpl.
  intros [[[[[? ?]%andb_true_iff ?]%andb_true_iff ?]%andb_true_iff ?]%andb_true_iff ?]%andb_true_iff
    Hst Hnow.
  rewrite Hst. unfold str_or. rewrite Hnow, !bool_decide_eq_true_2 by done.
  repeat (apply andb_true_iff; split); try done.
  by destruct st.
Qed.
Lemma settled_updated o : ready_op o = true → str_or (op_updated_at o) (op_created_at o) = op_updated_at o.
Proof. unfold ready_op. by intros [_ ?%bool_decide_eq_true]%andb_true_iff. Qed.
Lemma ready_normalize f o : ready_op o = true → ready_op (normalize f o) = true.
Proof.
  intros Ho. rewrite normalize_ready by done. destruct (unblocks f o); [|done].
  pose proof (settled_updated o Ho) as Hs.
  unfold ready_op, wf_op, settled, with_status in *; simpl in *.
  rewrite Hs, bool_decide_eq_true_2 by done.
  by repeat match goal with H : _ && _ = true |- _ => apply andb_true_iff in H as [? ?] end;
    repeat (apply andb_true_iff; split).
Qed.
Lemma ops_ok_normalize f ops : ops_ok ops → ops_ok (map (normalize f) ops).
Proof.
  intros [Hr Hs Hi]. split.
  - rewrite Forall_forall in Hr |- *. intros o (x & -> & Hx)%elem_of_map.
    by apply ready_normalize, Hr.
  - apply StronglySorted_map_mono; [|done]. intros x y Hxy. by rewrite <- Hxy.
  - rewrite map_map. by erewrite map_ext.
Qed.

(** ** Batches: removing a selection, rewriting a selection *)

Lemma log_removals_hoare now f ops fr ops' :
  NoDup (map op_id ops) →
  hoare (stored ops ops' fr) (log_removals now (map op_id (List.filter f ops)))
    (λ _, stored (List.filter (λ o, negb (f o)) ops) ops' fr).
Proof.
  intros Hnd.
  set (left_ (ids : list string) := List.filter (λ o, negb (bool_decide (op_id o ∈ ids))) ops).
  eapply hoare_conseq with (P' := stored (left_ []) ops' fr).
  - apply (hoare_for_each _ (λ ids, stored (left_ ids) ops' fr)).
    intros ids i todo _. apply append_hoare, log_step_remove.
    intros o. unfold left_. rewrite !elem_of_filter_b, !negb_true_iff, !bool_decide_eq_false.
    rewrite elem_of_app, list_elem_of_singleton. tauto.
  - intros a Ha. replace (left_ []) with ops; [done|].
    symmetry. apply filter_all, Forall_forall. intros o _.
    by rewrite bool_decide_eq_false_2 by (by intros ?%elem_of_nil).
  - intros _u a. replace (left_ (map op_id (List.filter f ops)))
      with (List.filter (λ o, negb (f o)) ops); [done|].
    apply filter_ext_in. intros o Ho%list_elem_of_In. f_equal.
    destruct (f o) eqn:E.
    + rewrite bool_decide_eq_true_2; [done|]. apply elem_of_map. exists o.
      by rewrite elem_of_filter_b.
    + rewrite bool_decide_eq_false_2; [done|]. intros (x & Hid & [Hfx Hx]%elem_of_filter_b)%elem_of_map.
      rewrite (NoDup_map_inj_on op_id ops o x) in E by done. congruence.
Qed.

(** Storing what [f] rejects, then logging one removal per operation it selects. *)
Lemma drop_batch_hoare f ops fr :
  hoare (journal_in ops fr)
    (do! _store_ops (List.filter (λ o, negb (f o)) ops) in
     let! now := utc_now_iso in log_removals now (map op_id (List.filter f ops)))
    (λ _, journal_in (List.filter (λ o, negb (f o)) ops) fr).
Proof.
  intros a Ha. revert a Ha. eapply hoare_pure; [intros a Ha; exact (proj1 (proj1 Ha))|].
  intros Hok. eapply hoare_bind; [by apply store_hoare, ops_ok_filter|]. intros [].
  eapply hoare_bind; [apply now_stored|]. intros now.
  eapply hoare_conseq; [apply log_removals_hoare, Hok|by intros a [_ ?]|].
  intros ? a Ha. by apply stored_journal.
Qed.

(** [ops] with the operations named in [ids] rewritten by [g]. *)
Definition rewritten (ids : list string) (g : OfflineOperation → OfflineOperation) ops :=
  map (λ o, if bool_decide (op_id o ∈ ids) then g o else o) ops.

Lemma rewritten_nil g ops : rewritten [] g ops = ops.
Proof.
  unfold rewritten. rewrite <- (map_id ops) at 2. apply map_ext. intros o.
  by rewrite bool_decide_eq_false_2 by (by intros ?%elem_of_nil).
Qed.
Lemma log_step_rewritten now g ids y ops :
  (∀ o, op_id (g o) = op_id o) → NoDup (map op_id ops) → y ∈ ops →
  wf_op (g y) = true → in_ready_states (op_status (g y)) = true →
  log_step (upsert_event now (g y)) (rewritten ids g ops) (rewritten (ids ++ [op_id y]) g ops).
Proof.
  intros Hg Hnd Hy Hwf Hst. apply log_step_upsert; [done..|]. intros o.
  unfold rewritten. rewrite !elem_of_map, Hg.
  assert (∀ i, i ∈ ids ++ [op_id y] ↔ i ∈ ids ∨ i = op_id y) as Hids.
  { intros i. by rewrite elem_of_app, list_elem_of_singleton. }
  split.
  - intros (x & -> & Hx). rewrite (bool_decide_ext _ _ (Hids _)).
    destruct (decide (op_id x = op_id y)) as [E|E].
    + left. rewrite bool_decide_eq_true_2 by auto.
      by rewrite (NoDup_map_inj_on op_id ops x y).
    + rewrite (bool_decide_ext _ (op_id x ∈ ids)) by tauto.
      right. split; [by exists x|by case_bool_decide; rewrite ?Hg].
  - intros [->|[(x & -> & Hx) Hne]].
    + exists y. split; [|done]. rewrite bool_decide_eq_true_2; [done|]. apply Hids. auto.
    + exists x. split; [|done].
      assert (op_id x ≠ op_id y) by (revert Hne; case_bool_decide; by rewrite ?Hg).
      rewrite (bool_decide_ext (op_id x ∈ ids ++ _) (op_id x ∈ ids)); [done|].
      rewrite Hids. tauto.
Qed.

(** ** Attempts and statuses *)

Lemma update_id_rewritten i g ops : update_id i g ops = rewritten [i] g ops.
Proof.
  apply map_ext. intros o. unfold has_id.
  by rewrite (bool_decide_ext _ (op_id o ∈ [i])) by (by rewrite list_elem_of_singleton).
Qed.
Lemma last_elem {A} (l : list A) x : last l = Some x → x ∈ l.
Proof. intros Hl. apply last_Some in Hl as [l' ->]. apply elem_of_app. right. left. Qed.
Lemma last_with_id_update i g ops :
  (∀ o, op_id (g o) = op_id o) →
  match last_with_id i (update_id i g ops) with
  | Some x => ∃ y, y ∈ ops ∧ op_id y = i ∧ x = g y
  | None => ∀ y, y ∈ ops → op_id y ≠ i
  end.
Proof.
  intros Hg. unfold last_with_id. destruct (last _) as [x|] eqn:E.
  - apply last_elem, elem_of_filter_b in E as [Hi%has_id_true (y & -> & Hy)%elem_of_map].
    revert Hi. destruct (has_id i y) eqn:Ei.
    + intros _. exists y. by apply has_id_true in Ei.
    + intros ?. apply has_id_false in Ei. done.
  - intros y Hy Hi. apply last_None in E.
    assert (g y ∈ List.filter (has_id i) (update_id i g ops)) as Hin;
      [|rewrite E in Hin; by apply elem_of_nil in Hin].
    apply elem_of_filter_b. split; [apply has_id_true; by rewrite Hg|].
    apply elem_of_map. exists y. split; [|done]. by rewrite (proj2 (has_id_true i y)).
Qed.
Lemma update_id_absent i g ops : (∀ y, y ∈ ops → op_id y ≠ i) → update_id i g ops = ops.
Proof.
  intros Hn. unfold update_id. rewrite <- (map_id ops) at 2. apply map_ext_in.
  intros o Ho%list_elem_of_In. by rewrite (proj2 (has_id_false i o)) by auto.
Qed.

Lemma wf_op_with_status st err now o :
  wf_op o = true → str_empty st = false → wf_op (with_status st err now o) = true.
Proof. unfold wf_op; simpl. intros [[-> _]%andb_true_iff ->]%andb_true_iff ->. done. Qed.
Lemma ready_with_attempt err now o :
  ready_op o = true → str_empty now = false → ready_op (with_attempt err now o) = true.
Proof.
  unfold ready_op, wf_op, settled; simpl. intros [Ho _]%andb_true_iff Hnow.
  apply andb_true_iff. split; [done|]. apply bool_decide_eq_true. unfold str_or. by rewrite Hnow.
Qed.
Lemma ready_with_payload p now o :
  ready_op o = true → str_empty now = false → ready_op (with_payload p now o) = true.
Proof.
  unfold ready_op, wf_op, settled; simpl. intros [Ho _]%andb_true_iff Hnow.
  apply andb_true_iff. split; [done|]. apply bool_decide_eq_true. unfold str_or. by rewrite Hnow.
Qed.

(** After the snapshot holds [update_id i g ops], logging the rewritten operation brings
    the log to the same list; when no operation has the id there is nothing to log. *)
Lemma append_update_hoare i g ops ops' fr x now :
  (∀ o, op_id (g o) = op_id o) → NoDup (map op_id ops) →
  (∀ o, o ∈ ops → op_id o = i → ready_op (g o) = true) →
  last_with_id i (update_id i g ops) = Some x →
  hoare (stored ops ops' fr) (_append_event (upsert_event now x))
    (λ _, stored (update_id i g ops) ops' fr).
Proof.
  intros Hid Hnd Hg Hx. pose proof (last_with_id_update i g ops Hid) as Hl. rewrite Hx in Hl.
  destruct Hl as (y & Hy & Hi & ->).
  rewrite update_id_rewritten, <- Hi, <- (app_nil_l [op_id y]).
  rewrite <- (rewritten_nil g ops) at 1.
  eapply append_hoare, log_step_rewritten; [done..| |]; apply ready_wf; auto.
Qed.
Lemma update_none i g ops fr a :
  (∀ o, op_id (g o) = op_id o) → last_with_id i (update_id i g ops) = None →
  stored ops (update_id i g ops) fr a → journal_in (update_id i g ops) fr a.
Proof.
  intros Hid Hx Ha. pose proof (last_with_id_update i g ops Hid) as Hl. rewrite Hx in Hl.
  apply stored_journal. by rewrite update_id_absent in Ha |- *.
Qed.

(** Every journal function starts by loading the operations. *)
Lemma loading {A} ops fr (k : list OfflineOperation → AM A) (Q : A → account → Prop) :
  (ops_ok ops → hoare (journal_in ops fr) (k ops) Q) →
  hoare (journal_in ops fr) (bind _load_ops k) Q.
Proof.
  intros Hk. eapply hoare_pure; [intros s Hs; exact (proj1 (proj1 Hs))|]. intros Hok.
  eapply hoare_bind; [apply load_ops_hoare|]. intros loaded.
  apply (hoare_pure _ _ _ (loaded = ops)); [by intros s [? _]|]. intros ->.
  eapply hoare_conseq; [by apply Hk|by intros s [_ ?]|done].
Qed.
Lemma at_now {A} ops fr (k : string → AM A) (Q : A → account → Prop) :
  (∀ now, str_empty now = false → hoare (journal_in ops fr) (k now) Q) →
  hoare (journal_in ops fr) (bind utc_now_iso k) Q.
Proof.
  intros Hk. eapply hoare_bind; [apply now_journal|]. intros now.
  eapply hoare_pure; [by intros s [? _]|]. intros Hnow.
  eapply hoare_conseq; [by apply Hk|by intros s [_ ?]|done].
Qed.

Lemma note_attempt_hoare i err ops fr :
  hoare (journal_in ops fr) (note_operation_attempt i err)
    (λ _ a, ∃ now, journal_in (update_id i (with_attempt err now) ops) fr a).
Proof.
  apply loading. intros Hok. apply at_now. intros now Hnow.
  fold (update_id i (with_attempt err now) ops).
  assert (∀ o, o ∈ ops → op_id o = i → ready_op (with_attempt err now o) = true) as Hg.
  { intros o Ho _. apply ready_with_attempt; [|done].
    by apply (proj1 (Forall_forall _ _) (ok_ready _ Hok)). }
  eapply hoare_bind; [by apply store_hoare, ops_ok_update|]. intros [].
  destruct (last_with_id _ _) as [x|] eqn:Ex.
  - eapply hoare_conseq; [eapply (append_update_hoare i (with_attempt err now) ops); [done|apply Hok|exact Hg|done]|done|].
    intros ? s Hs. exists now. by apply stored_journal.
  - apply hoare_ret. intros s Hs. exists now. by apply update_none.
Qed.

(** The operations after [update_operation_status i st err] at time [now]. *)
Definition after_status i st err now ops :=
  if is_terminal st then without i ops else update_id i (with_status st err now) ops.

Lemma terminal_not_ready st : is_terminal st = true → in_ready_states st = false.
Proof.
  unfold is_terminal. intros Hst%bool_decide_eq_true.
  apply elem_of_cons in Hst as [->|[->|Hn%elem_of_nil]%elem_of_cons]; done.
Qed.
Lemma without_update i g ops :
  (∀ o, op_id (g o) = op_id o) → without i (update_id i g ops) = without i ops.
Proof.
  intros Hid. unfold without, update_id. induction ops as [|o ops IH]; simpl; [done|].
  destruct (has_id i o) eqn:E; simpl; rewrite ?E; unfold has_id in *; rewrite ?Hid, ?E; simpl;
    by rewrite IH.
Qed.

Lemma update_status_hoare i st err ops fr :
  in_ready_states st || is_terminal st = true →
  hoare (journal_in ops fr) (update_operation_status i st err)
    (λ r a, ∃ now, r = last_with_id i (update_id i (with_status st err now) ops)
                   ∧ journal_in (after_status i st err now ops) fr a).
Proof.
  intros Hst. apply loading. intros Hok. apply at_now. intros now Hnow. cbv zeta.
  fold (update_id i (with_status st err now) ops).
  fold (without i (update_id i (with_status st err now) ops)).
  rewrite without_update by done. fold (after_status i st err now ops).
  unfold after_status. destruct (is_terminal st) eqn:Et.
  - pose proof (last_with_id_update i (with_status st err now) ops (λ _, eq_refl)) as Hl.
    eapply hoare_bind; [by apply store_hoare, ops_ok_filter|]. intros [].
    destruct (last_with_id _ _) as [x|] eqn:Ex.
    + destruct Hl as (y & Hy & Hi & ->).
      assert (wf_op (with_status st err now y) = true) as Hwf.
      { apply wf_op_with_status; [|by destruct st].
        apply ready_wf. by apply (proj1 (Forall_forall _ _) (ok_ready _ Hok)). }
      eapply hoare_bind; [eapply append_hoare, (log_step_dead _ _ ops (without i ops))|].
      { done. } { by apply terminal_not_ready. }
      { simpl. rewrite Hi. intros o. apply elem_of_without. }
      intros ?. eapply hoare_bind; [eapply append_hoare, (log_step_remove _ i _ (without i ops))|].
      { intros o. rewrite elem_of_without. tauto. }
      intros ?. apply hoare_ret. intros s Hs. exists now. split; [by rewrite Ex|]. by apply stored_journal.
    + apply hoare_ret. intros s Hs. exists now. split; [by rewrite Ex|].
      apply stored_journal. destruct Hs as (? & ? & ? & ?). split_and!; try done.
      replace (without i ops) with ops; [done|]. symmetry. apply filter_all, Forall_forall.
      intros o Ho. apply negb_true_iff, has_id_false. auto.
  - rewrite orb_false_r in Hst.
    assert (∀ o, o ∈ ops → op_id o = i → ready_op (with_status st err now o) = true) as Hg.
    { intros o Ho _. apply ready_with_status; [|done..].
      by apply (proj1 (Forall_forall _ _) (ok_ready _ Hok)). }
    eapply hoare_bind; [by apply store_hoare, ops_ok_update|]. intros [].
    destruct (last_with_id _ _) as [x|] eqn:Ex.
    + eapply hoare_bind; [eapply (append_update_hoare i (with_status st err now) ops); [done|apply Hok|exact Hg|done]|].
      intros ?. apply (hoare_ret (Some x)). intros s Hs. exists now. split; [by rewrite Ex|]. by apply stored_journal.
    + apply hoare_ret. intros s Hs. exists now. split; [by rewrite Ex|]. by apply update_none.
Qed.

(** ** Unblocking *)

Lemma normalize_same_status f o :
  ready_op o = true → op_status (normalize f o) = op_status o → normalize f o = o.
Proof.
  intros Ho. rewrite normalize_ready by done. destruct (unblocks f o) eqn:E; [|done].
  unfold unblocks in E. simpl. intros Hs.
  apply andb_true_iff in E as [[E%bool_decide_eq_true _]%andb_true_iff _]. congruence.
Qed.
Lemma changed_eq f ops :
  map snd (List.filter (λ p : OfflineOperation * OfflineOperation,
              negb (bool_decide (op_status p.2 = op_status p.1)))
             (combine ops (map (normalize f) ops)))
  = map (normalize f) (List.filter (λ o, negb (bool_decide (op_status (normalize f o) = op_status o))) ops).
Proof.
  induction ops as [|o ops IH]; [done|]. cbn [map combine List.filter fst snd].
  destruct (bool_decide _); simpl; by rewrite IH.
Qed.

Lemma refresh_hoare ops fr :
  hoare (journal_in ops fr) refresh_blocked_operations
    (λ n a, n = Z.of_nat (length (List.filter (unblocks (temp_map_of fr)) ops))
            ∧ journal_in (map (normalize (temp_map_of fr)) ops) fr a).
Proof.
  set (f := temp_map_of fr). apply loading. intros Hok.
  intros a Ha. assert (a_temp_map a = f) as Hf by (apply frame_temp_map, Ha).
  pose proof (normalize_all_run ops a) as Hrun. rewrite Hf in Hrun.
  rewrite (bind_ok _ _ _ _ _ Hrun). cbv zeta. rewrite changed_eq.
  set (ch := List.filter _ ops).
  assert (ch = List.filter (unblocks f) ops) as Ech.
  { apply filter_ext_in. intros o Ho%list_elem_of_In.
    pose proof (proj1 (Forall_forall _ _) (ok_ready _ Hok) o Ho) as Hr.
    rewrite normalize_ready by done. destruct (unblocks f o) eqn:E; simpl.
    - rewrite bool_decide_eq_false_2; [done|]. unfold unblocks in E.
      apply andb_true_iff in E as [[E%bool_decide_eq_true _]%andb_true_iff _]. by rewrite E.
    - by rewrite bool_decide_eq_true_2. }
  rewrite <- Ech, <- (length_map (normalize f) ch).
  assert (map (normalize f) ops = rewritten (map op_id ch) (normalize f) ops) as Eall.
  { apply map_ext_in. intros o Ho%list_elem_of_In. case_bool_decide as Hin; [done|].
    apply normalize_same_status; [by apply (proj1 (Forall_forall _ _) (ok_ready _ Hok))|].
    apply dec_stable. intros Hne. apply Hin, elem_of_map. exists o. split; [done|].
    apply elem_of_filter_b. by rewrite bool_decide_eq_false_2. }
  revert a Ha Hf Hrun. cut (hoare (journal_in ops fr)
    match map (normalize f) ch with
    | [] => ret 0
    | _ => do! _store_ops (map (normalize f) ops) in
           let! now := utc_now_iso in
           do! for_each (λ o, _append_event (upsert_event now o)) (map (normalize f) ch) in
           ret (Z.of_nat (length (map (normalize f) ch)))
    end (λ n b, n = Z.of_nat (length (map (normalize f) ch))
                ∧ journal_in (map (normalize f) ops) fr b)); [by intros Hc a Ha _ _; apply Hc|].
  destruct (map (normalize f) ch) as [|x l] eqn:Ech'.
  { apply map_eq_nil in Ech'. rewrite Ech' in Eall. rewrite Eall, rewritten_nil.
    apply hoare_ret. done. }
  rewrite <- Ech'. eapply hoare_bind; [by apply store_hoare, ops_ok_normalize|]. intros [].
  eapply hoare_bind; [apply now_stored|]. intros now.
  eapply hoare_bind; [|intros ?; apply hoare_ret; intros s Hs; split; [done|];
                       apply stored_journal; exact Hs].
  rewrite for_each_map.
  eapply hoare_conseq with
    (P' := stored (rewritten (map op_id []) (normalize f) ops) (map (normalize f) ops) fr)
    (Q' := λ _, stored (rewritten (map op_id ch) (normalize f) ops) (map (normalize f) ops) fr);
    [|intros s [_ Hs]; cbn [map]; by rewrite rewritten_nil|intros ? s; by rewrite <- Eall].
  apply (hoare_for_each _ (λ l, stored (rewritten (map op_id l) (normalize f) ops)
                                      (map (normalize f) ops) fr)).
  intros done_ y todo Hch. rewrite map_app.
  assert (y ∈ ops) as Hy.
  { assert (y ∈ ch) as [_ ?]%elem_of_filter_b; [|done].
    rewrite Hch, elem_of_app. right. left. }
  assert (ready_op (normalize f y) = true) as Hry.
  { apply ready_normalize. by apply (proj1 (Forall_forall _ _) (ok_ready _ Hok)). }
  apply append_hoare, log_step_rewritten; [done|apply Hok|done|..]; by apply ready_wf.
Qed.

(** ** The rest of the account

    Queueing may add a conflict and cancelling removes projection records; [others] are the
    files no journal function writes. *)
Definition others (a : account) :=
  (a_allocator a, a_temp_map a, a_failed a, a_upload_index a, a_media a).

(** The conflict file, when there is one, can be listed. *)
Definition conflicts_fine (f : pyfile) : Prop :=
  match f with
  | FJson (PList l) => ∃ cs, parse_entries conflict_from_dict l = Ok cs
  | _ => True
  end.
Definition account_ok ops ot a : Prop :=
  journal ops a ∧ conflicts_fine (a_conflicts a) ∧ others a = ot.

Lemma account_frame {A} ops ot (m : AM A) (Φ : A → list OfflineOperation → Prop) :
  (∀ fr, temp_map_of fr = ot.1.1.1.2 →
     hoare (journal_in ops fr) m (λ r a, ∃ ops', Φ r ops' ∧ journal_in ops' fr a)) →
  hoare (account_ok ops ot) m (λ r a, ∃ ops', Φ r ops' ∧ account_ok ops' ot a).
Proof.
  intros Hm a (Hj & Hc & <-).
  destruct (Hm (frame a) eq_refl a) as (r & a' & E & ops' & HQ & Hj' & Hf); [done|].
  exists r, a'. split; [done|]. exists ops'. split; [done|]. split_and!; [done|..];
    unfold frame in Hf; simplify_eq; unfold others in *; congruence.
Qed.
Lemma lift_in {A} ops ops' ot (m : AM A) (φ : A → Prop) :
  (∀ fr, temp_map_of fr = ot.1.1.1.2 →
     hoare (journal_in ops fr) m (λ r a, φ r ∧ journal_in ops' fr a)) →
  hoare (account_ok ops ot) m (λ r a, φ r ∧ account_ok ops' ot a).
Proof.
  intros Hm. eapply hoare_conseq;
    [apply (account_frame ops ot m (λ r l, φ r ∧ l = ops'))|done|].
  - intros fr Hfr. eapply hoare_conseq; [by apply Hm|done|]. intros r a [? ?]. by exists ops'.
  - by intros r a (l & [? ->] & ?).
Qed.

Lemma lift_unit ops ops' ot (m : AM unit) :
  (∀ fr, hoare (journal_in ops fr) m (λ _, journal_in ops' fr)) →
  hoare (account_ok ops ot) m (λ _, account_ok ops' ot).
Proof.
  intros Hm. eapply hoare_conseq; [apply (lift_in ops ops' ot m (λ _, True))|done|by intros ? a [_ ?]].
  intros fr _. eapply hoare_conseq; [apply Hm|done|done].
Qed.

Lemma conflict_reads c : ∃ c', conflict_from_dict (conflict_to_dict c) = Ok c'.
Proof.
  unfold conflict_from_dict, conflict_to_dict, int_field, get. simpl. rewrite int_of_or_int.
  simpl. eauto.
Qed.
Lemma written_conflicts_fine cs : conflicts_fine (FJson (PList (map conflict_to_dict cs))).
Proof.
  induction cs as [|c cs [cs' IH]]; [by exists []|]. unfold conflicts_fine in *.
  destruct (conflict_reads c) as [c' Ec]. exists (c' :: cs'). cbn [map parse_entries].
  by rewrite Ec, IH.
Qed.
Lemma list_conflicts_run a :
  conflicts_fine (a_conflicts a) → ∃ cs, list_conflicts a = (Ok cs, a).
Proof.
  unfold list_conflicts, read_json, bind, gets, lift, ret. intros Hc.
  destruct (a_conflicts a) as [| |[]]; eauto.
  destruct Hc as [cs Hcs]. rewrite Hcs. eauto.
Qed.
Lemma add_conflict_hoare c ops ot :
  hoare (account_ok ops ot) (add_conflict c) (λ _, account_ok ops ot).
Proof.
  intros a (Hj & Hc & Ho). destruct (list_conflicts_run a Hc) as [cs E].
  unfold add_conflict. rewrite (bind_ok _ _ _ _ _ E). destruct (str_empty (cf_created_at c));
    unfold bind, utc_now_iso, ret, write_conflicts, write_json_atomic, modify;
    (eexists _, _; split; [done|]; split_and!; [exact Hj|apply written_conflicts_fine|exact Ho]).
Qed.
Lemma remove_projection_hoare ty lid ops ot :
  hoare (account_ok ops ot) (remove_projection_record ty lid) (λ _, account_ok ops ot).
Proof.
  intros a Ha. unfold remove_projection_record, _load_projection_map, read_json,
    _write_projection_map, write_json_atomic, bind, gets, ret, modify.
  eexists _, _. split; [done|]. exact Ha.
Qed.

(** ** Queueing *)

Definition valid_target (ty : string) (refs : list OfflineEntityRef) : bool :=
  negb (str_empty ty) && forallb wf_ref refs.

Lemma ready_new i ak ty t lid p refs dk st now :
  valid_target ty refs = true → str_empty t = false → in_ready_states st = true →
  ready_op (mkOp i ak ty t lid p refs dk st 0 EmptyString now now) = true.
Proof.
  unfold valid_target, ready_op, wf_op, settled; simpl.
  intros [-> ->]%andb_true_iff -> Hst. rewrite Hst. unfold str_or.
  destruct (str_empty now); rewrite bool_decide_eq_true_2 by done; by destruct st.
Qed.

Lemma initial_status_run refs a :
  _compute_initial_status refs a =
    (Ok (if forallb (resolved_in (a_temp_map a)) refs then "pending" else "blocked"), a).
Proof. unfold _compute_initial_status. by rewrite (bind_ok _ _ _ _ _ (all_resolved_run refs a)). Qed.

Lemma upsert_hoare' op ops ot :
  ready_op op = true →
  hoare (account_ok ops ot) (_upsert_op op) (λ r a, r = op ∧ account_ok (upserted op ops) ot a).
Proof. intros Hop. apply (lift_in _ _ _ _ (λ r, r = op)). intros fr _. by apply upsert_hoare. Qed.
End JournalSpec.
