(* ===== verification/JournalCancel.v ===== *)
(** * Queueing and cancelling, over the whole account

    The functional behaviour of the journal's operations in terms of the list of pending
    operations: what a cancellation removes, and that every sequence of calls succeeds and
    stays recoverable from the event log. *)

From S2P Require Import Prelude PyValue OfflineTypes OfflineStore OfflineProjection.
From S2P Require Import OfflineJournal JournalSpec.
Local Open Scope Z_scope.

Section Cancel.
Context `{Oracle, !ClockOk}.

Definition own_ref (o : OfflineOperation) : OfflineEntityRef :=
  mkRef (op_entity_type o) (op_local_id o).
Definition is_create (o : OfflineOperation) : bool := bool_decide (op_type o = "create").

(** The creates that depend on [root], directly or through another such create. *)
Inductive descends (ops : list OfflineOperation) (root : OfflineEntityRef) : OfflineOperation → Prop :=
  | descends_direct o :
      o ∈ ops → is_create o = true → refers_to root o = true → descends ops root o
  | descends_step p o :
      descends ops root p → o ∈ ops → is_create o = true → refers_to (own_ref p) o = true →
      descends ops root o.

(** No pending create of [ops] refers to [r]. *)
Definition no_dependents (r : OfflineEntityRef) (ops : list OfflineOperation) : Prop :=
  ∀ o, o ∈ ops → is_create o = true → refers_to r o = false.

(** What a cancellation leaves: a selection of [ops] without descendants of [root]. *)
Record cancelled_to (root : OfflineEntityRef) (ops ops' : list OfflineOperation) : Prop := {
  ct_sub : ∃ keep, ops' = List.filter keep ops;
  ct_lost : ∀ o, o ∈ ops → o ∉ ops' → descends ops root o;
  ct_root : no_dependents root ops';
  ct_closed : ∀ x, x ∈ ops → x ∉ ops' → no_dependents (own_ref x) ops'
}.

Lemma descends_mono ops1 ops2 root o :
  (∀ x, x ∈ ops1 → x ∈ ops2) → descends ops1 root o → descends ops2 root o.
Proof.
  intros Hsub. induction 1; [by apply descends_direct; auto|eapply descends_step; eauto].
Qed.
Lemma descends_trans ops root p o :
  descends ops root p → descends ops (own_ref p) o → descends ops root o.
Proof. intros Hp. induction 1; eapply descends_step; eauto. Qed.

(** A cancellation removes the descendants and nothing else. *)
Lemma cancelled_exact root ops ops' :
  cancelled_to root ops ops' → ∀ o, o ∈ ops' ↔ o ∈ ops ∧ ¬ descends ops root o.
Proof.
  intros [[keep Ek] Hlost Hroot Hclosed] o.
  assert (∀ x, descends ops root x → x ∉ ops') as Hgone.
  { induction 1 as [x Hx Hc Hr|p x Hp IH Hx Hc Hr]; intros Hin.
    - by rewrite (Hroot x Hin Hc) in Hr.
    - assert (p ∈ ops) as Hpo by (by inversion Hp).
      by rewrite (Hclosed p Hpo IH x Hin Hc) in Hr. }
  split.
  - intros Ho. split; [|by intros ?%Hgone]. rewrite Ek in Ho. by apply elem_of_filter_b in Ho as [_ ?].
  - intros [Ho Hd]. rewrite Ek in *.
    destruct (filter_elem_dec keep ops o Ho) as [?|Hn]; [done|]. by destruct Hd; apply Hlost.
Qed.

Lemma no_dependents_sub r ops1 ops2 :
  (∀ x, x ∈ ops1 → x ∈ ops2) → no_dependents r ops2 → no_dependents r ops1.
Proof. unfold no_dependents. eauto. Qed.

(** ** The cancellation loop *)

(** After the loop has seen [done_], with [cur] pending. *)
Record cancelling (root : OfflineEntityRef) (ops done_ cur : list OfflineOperation) : Prop := {
  cg_sub : ∃ keep, cur = List.filter keep ops;
  cg_lost : ∀ o, o ∈ ops → o ∉ cur → descends ops root o;
  cg_done : ∀ o, o ∈ done_ → is_create o = true → refers_to root o = true → o ∉ cur;
  cg_closed : ∀ x, x ∈ ops → x ∉ cur → no_dependents (own_ref x) cur
}.

Lemma cancelling_start root ops : cancelling root ops [] ops.
Proof.
  split; [|done|by intros ? ?%elem_of_nil|done].
  exists (λ _, true). symmetry. by apply filter_all, Forall_true.
Qed.
Lemma cancelling_skip root ops done_ x cur :
  is_create x && refers_to root x = false →
  cancelling root ops done_ cur → cancelling root ops (done_ ++ [x]) cur.
Proof.
  intros Hx [Hs Hl Hd Hc]. split; [done..| |done]. intros o.
  rewrite elem_of_app, list_elem_of_singleton. intros [?| ->] Hcr Hr; [by apply Hd|].
  by rewrite Hcr, Hr in Hx.
Qed.
Lemma cancelling_step root ops done_ x cur cur' :
  NoDup (map op_id ops) → x ∈ ops → is_create x = true → refers_to root x = true →
  cancelling root ops done_ cur → cancelled_to (own_ref x) (without (op_id x) cur) cur' →
  cancelling root ops (done_ ++ [x]) cur'.
Proof.
  intros Hnd Hx Hcr Hr [[k1 E1] Hl Hd Hc] [[k2 E2] Hl' Hr' Hc'].
  assert (∀ o, o ∈ cur → o ∈ ops) as Hsub1 by (subst cur; by intros o [_ ?]%elem_of_filter_b).
  assert (∀ o, o ∈ cur' → o ∈ without (op_id x) cur) as Hsub2
    by (subst cur'; by intros o [_ ?]%elem_of_filter_b).
  assert (∀ o, o ∈ ops → o ∉ cur' →
            o ∉ cur ∨ o = x ∨ (o ∈ without (op_id x) cur ∧ o ∉ cur')) as Hcases.
  { intros o Ho Ho'. destruct (filter_elem_dec k1 ops o Ho) as [Hin|Hn]; rewrite <- E1 in *;
      [|by left].
    destruct (decide (op_id o = op_id x)) as [Ei|Ei].
    - right. left. by apply (NoDup_map_inj_on op_id ops).
    - right. right. split; [|done]. by apply elem_of_without. }
  split.
  - exists (λ o, k1 o && (negb (has_id (op_id x) o) && k2 o)).
    rewrite E2, E1. unfold without. by rewrite !filter_filter_b.
  - intros o Ho Ho'. destruct (Hcases o Ho Ho') as [?|[->|[Hw Hn]]];
      [by apply Hl|by apply descends_direct|].
    eapply (descends_trans _ _ x); [by apply descends_direct|].
    eapply descends_mono; [|by apply Hl']. intros y [Hy _]%elem_of_without. auto.
  - intros o. rewrite elem_of_app, list_elem_of_singleton. intros [Ho| ->] Hco Hro Hin.
    + apply (Hd o Ho Hco Hro). by apply Hsub2, elem_of_without in Hin as [? _].
    + by apply Hsub2, elem_of_without in Hin as [_ ?].
  - intros y Hy Hy'. destruct (Hcases y Hy Hy') as [?|[->|[Hw Hn]]]; [|done|by apply Hc'].
    eapply no_dependents_sub; [|by apply Hc]. intros o [? _]%Hsub2%elem_of_without. done.
Qed.
Lemma cancelling_end root ops cur : cancelling root ops ops cur → cancelled_to root ops cur.
Proof.
  intros [Hs Hl Hd Hc]. split; [done..| |done]. intros o Ho Hco.
  apply not_true_iff_false. intros Hr. destruct Hs as [k ->].
  apply (Hd o); [by apply elem_of_filter_b in Ho as [_ ?]|done..].
Qed.

(** More fuel than operations is enough: every recursive call follows a removal. *)
Lemma cancel_hoare fuel ty lid ops ot :
  (length ops < fuel)%nat →
  hoare (account_ok ops ot) (_cancel_dependent_temp_creates fuel ty lid)
    (λ _ a, ∃ ops', cancelled_to (mkRef ty lid) ops ops' ∧ account_ok ops' ot a).
Proof.
  revert ty lid ops. induction fuel as [|fuel IH]; intros ty lid ops Hf; [lia|].
  cbn [_cancel_dependent_temp_creates].
  eapply hoare_pure; [intros a Ha; exact (proj1 (proj1 Ha))|]. intros Hok.
  eapply hoare_bind; [apply (lift_in ops ops ot _ (λ r, r = ops));
                      intros fr _; apply load_ops_hoare|].
  intros loaded. apply hoare_fact. intros ->.
  eapply hoare_conseq;
    [eapply (hoare_for_each _ (λ done_ a, ∃ cur, cancelling (mkRef ty lid) ops done_ cur
                                                 ∧ account_ok cur ot a))|..].
  - intros done_ x todo Eops. apply hoare_exists. intros cur.
    apply hoare_fact. intros Hcg.
    fold (is_create x). destruct (is_create x && refers_to (mkRef ty lid) x) eqn:Ex.
    + apply andb_true_iff in Ex as [Hcr Hr].
      assert (x ∈ ops) as Hx by (rewrite Eops, elem_of_app; right; left).
      eapply hoare_bind; [apply (lift_unit cur (without (op_id x) cur)); intros fr;
                          apply remove_hoare|]. intros _u1.
      eapply hoare_bind; [apply remove_projection_hoare|]. intros _u2.
      assert (length (without (op_id x) cur) < length ops)%nat as Hlen.
      { destruct (cg_sub _ _ _ _ Hcg) as [k ->]. unfold without. rewrite filter_filter_b.
        apply (length_filter_lt _ _ x); [done|].
        by rewrite (proj2 (has_id_true _ x) eq_refl), andb_false_r. }
      eapply hoare_conseq; [apply (IH _ _ (without (op_id x) cur)); lia|done|].
      intros _u3 a (cur' & Hct & Ha). exists cur'. split; [|done].
      eapply cancelling_step; [apply Hok|done..].
    + apply hoare_ret. intros a Ha. exists cur. split; [|done]. by apply cancelling_skip.
  - intros a Ha. exists ops. split; [apply cancelling_start|done].
  - intros _u a (cur & Hcg & Ha). exists cur. split; [by apply cancelling_end|done].
Qed.

(** ** Composition over the account *)

Lemma loading_account {A} ops ot (k : list OfflineOperation → AM A) Q :
  (ops_ok ops → hoare (account_ok ops ot) (k ops) Q) →
  hoare (account_ok ops ot) (bind _load_ops k) Q.
Proof.
  intros Hk. eapply hoare_pure; [intros a Ha; exact (proj1 (proj1 Ha))|]. intros Hok.
  eapply hoare_bind; [apply (lift_in ops ops ot _ (λ r, r = ops));
                      intros fr _; apply load_ops_hoare|].
  intros loaded. apply hoare_fact. intros ->. by apply Hk.
Qed.
Lemma now_account {A} ops ot (k : string → AM A) Q :
  (∀ now, str_empty now = false → hoare (account_ok ops ot) (k now) Q) →
  hoare (account_ok ops ot) (bind utc_now_iso k) Q.
Proof.
  intros Hk. eapply hoare_bind; [apply (lift_in ops ops ot _ (λ r, str_empty r = false));
                      intros fr _; apply now_journal|].
  intros now. apply hoare_fact. apply Hk.
Qed.
Lemma id_account {A} ops ot i (k : string → AM A) Q :
  (∀ i', hoare (account_ok ops ot) (k i') Q) →
  hoare (account_ok ops ot) (bind (id_or_uuid i) k) Q.
Proof.
  intros Hk. eapply hoare_bind; [apply (lift_in ops ops ot _ (λ _, True))|].
  - intros fr _. eapply hoare_conseq; [apply id_journal|done|done].
  - intros i'. apply hoare_fact. intros _. apply Hk.
Qed.
Lemma remove_account i ops ot :
  hoare (account_ok ops ot) (_remove_op i) (λ _, account_ok (without i ops) ot).
Proof. apply lift_unit. intros fr. apply remove_hoare. Qed.

(** Dropping the operations [f] selects, one logged removal each. *)
Lemma drop_account {A} f ops ot (k : string → AM A) Q :
  (∀ now, str_empty now = false →
     hoare (account_ok (List.filter (λ o, negb (f o)) ops) ot) (k now) Q) →
  hoare (account_ok ops ot)
    (do! _store_ops (List.filter (λ o, negb (f o)) ops) in
     let! now := utc_now_iso in
     do! log_removals now (map op_id (List.filter f ops)) in k now) Q.
Proof.
  intros Hk a (Hj & Hc & Ho). pose proof (proj1 Hj) as Hok.
  cut (hoare (journal_in ops (frame a))
    (do! _store_ops (List.filter (λ o, negb (f o)) ops) in
     let! now := utc_now_iso in
     do! log_removals now (map op_id (List.filter f ops)) in k now) Q); [intros Hh; by apply Hh|].
  eapply hoare_bind; [by apply store_hoare, ops_ok_filter|]. intros [].
  eapply hoare_bind; [apply now_stored|]. intros now. apply hoare_fact. intros Hnow.
  eapply hoare_bind; [apply log_removals_hoare, Hok|]. intros [].
  eapply hoare_conseq; [by apply Hk| |done]. intros s [Hj' Hf]%stored_journal.
  unfold frame in Hf. simplify_eq. split_and!; [done|congruence|]. unfold others in *. congruence.
Qed.

(** ** Queueing *)

Variable scope : OfflineAccountScope.

(** Each call adds at most one operation. *)
Definition grows_by_one (ops ops' : list OfflineOperation) : Prop :=
  (length ops' ≤ S (length ops))%nat.

Lemma upsert_grows op ops ops0 ot :
  ready_op op = true → (length ops ≤ length ops0)%nat →
  hoare (account_ok ops ot) (_upsert_op op)
    (λ _ a, ∃ ops', grows_by_one ops0 ops' ∧ account_ok ops' ot a).
Proof.
  intros Hop Hlen. eapply hoare_conseq; [by apply upsert_hoare'|done|]. intros r a [_ Ha].
  exists (upserted op ops). split; [|done].
  pose proof (length_upserted op ops). unfold grows_by_one. lia.
Qed.
Lemma queue_upsert_ret {A} op ops ops0 ot (f : OfflineOperation → A) :
  ready_op op = true → (length ops ≤ length ops0)%nat →
  hoare (account_ok ops ot) (let! r := _upsert_op op in ret (f r))
    (λ _ a, ∃ ops', grows_by_one ops0 ops' ∧ account_ok ops' ot a).
Proof.
  intros Hop Hlen. eapply hoare_bind; [by apply upsert_grows|]. intros r. by apply hoare_ret.
Qed.

Lemma queue_create_account ty lid p refs dk oid ops ot :
  valid_target ty refs = true →
  hoare (account_ok ops ot) (queue_create_operation scope ty lid p refs dk oid)
    (λ r a, ∃ ops', (grows_by_one ops ops' ∧ r ∈ ops' ∧ op_payload r = p ∧ is_create r = true
                     ∧ op_status r = if forallb (resolved_in ot.1.1.1.2) refs then "pending"
                                     else "blocked")
                    ∧ account_ok ops' ot a).
Proof.
  intros Hv. apply now_account. intros now Hnow. apply id_account. intros i.
  intros a Ha. assert (a_temp_map a = ot.1.1.1.2) as Ht by (destruct Ha as (_ & _ & <-); done).
  rewrite (bind_ok _ _ _ _ _ (initial_status_run refs a)). rewrite Ht.
  set (st := if forallb _ refs then _ else _).
  destruct (upsert_hoare' (mkOp i (account_key scope) ty "create" lid p refs
              (default EmptyString dk) st 0 EmptyString now now) ops ot) with (s := a)
    as (r & a' & E & -> & Ha'); [|done|].
  { apply ready_new; [done..|]. unfold st. by destruct (forallb _ refs). }
  eexists _, a'. split; [exact E|]. eexists. split; [|exact Ha'].
  split_and!; try done; [apply length_upserted|apply elem_of_upserted; auto].
Qed.

Lemma ready_in ops o : ops_ok ops → o ∈ ops → ready_op o = true.
Proof. intros Hok. by apply (proj1 (Forall_forall _ _) (ok_ready _ Hok)). Qed.
Lemma find_elem {A} (f : A → bool) (l : list A) x : List.find f l = Some x → x ∈ l ∧ f x = true.
Proof. intros [Hin Hf]%find_some. by rewrite list_elem_of_In. Qed.
Lemma scan_update_elem ty lid ops b o : scan_update ty lid ops = Some (b, o) → o ∈ ops.
Proof.
  induction ops as [|x ops IH]; simpl; [done|].
  repeat case_match; intros; simplify_eq; [left|left|right; auto].
Qed.
Lemma find_create_account {A} ty lid ops ot (k : option OfflineOperation → AM A) Q :
  (ops_ok ops → hoare (account_ok ops ot) (k (List.find (is_op_for "create" ty lid) ops)) Q) →
  hoare (account_ok ops ot) (bind (_find_create_for_entity ty lid) k) Q.
Proof.
  intros Hk. eapply (hoare_bind _ _ _
    (λ r a, (ops_ok ops ∧ r = List.find (is_op_for "create" ty lid) ops) ∧ account_ok ops ot a)).
  - apply loading_account. intros Hok. by apply hoare_ret.
  - intros r. apply hoare_fact. intros [Hok ->]. by apply Hk.
Qed.

Lemma queue_update_account ty lid p dk oid ops ot :
  valid_target ty [] = true →
  hoare (account_ok ops ot) (queue_update_operation scope ty lid p dk oid)
    (λ _ a, ∃ ops', grows_by_one ops ops' ∧ account_ok ops' ot a).
Proof.
  intros Hv. apply find_create_account. intros Hok. destruct (List.find _ ops) as [c|] eqn:Ec.
  - apply find_elem in Ec as [Hc _]. apply now_account. intros now Hnow.
    apply queue_upsert_ret; [|lia]. apply ready_with_payload; [by apply (ready_in ops)|done].
  - apply loading_account. intros _.
    destruct (scan_update ty lid ops) as [[[] u]|] eqn:Eu; apply now_account; intros now Hnow.
    + apply queue_upsert_ret; [|lia].
      apply ready_with_payload; [by eapply ready_in, scan_update_elem|done].
    + eapply hoare_bind; [apply add_conflict_hoare|]. intros _u. apply hoare_ret.
      intros a Ha. exists ops. split; [unfold grows_by_one; lia|done].
    + apply id_account. intros i. apply queue_upsert_ret; [|lia]. by apply ready_new.
Qed.

Lemma queue_action_account ty lid p dk oid ops ot :
  valid_target ty [] = true →
  hoare (account_ok ops ot) (queue_action_operation scope ty lid p dk oid)
    (λ _ a, ∃ ops', grows_by_one ops ops' ∧ account_ok ops' ot a).
Proof.
  intros Hv. apply now_account. intros now Hnow. apply id_account. intros i.
  apply upsert_grows; [by apply ready_new|lia].
Qed.

Lemma legacy_account ops ot :
  hoare (account_ok ops ot) quarantine_legacy_api_queue_files (λ _, account_ok ops ot).
Proof.
  apply (hoare_for_each _ (λ _, account_ok ops ot)). intros done_ stem todo _.
  apply hoare_modify. intros a Ha. by case_bool_decide.
Qed.

Lemma queue_generic_account me path body ps hs dk lb oid ops ot :
  hoare (account_ok ops ot) (queue_generic_api_mutation scope me path body ps hs dk lb oid)
    (λ _ a, ∃ ops', grows_by_one ops ops' ∧ account_ok ops' ot a).
Proof.
  eapply hoare_bind; [apply legacy_account|]. intros _u. cbv zeta.
  eapply (hoare_bind _ _ _ (λ _ a, ∃ ops', (length ops' ≤ length ops)%nat ∧ account_ok ops' ot a)).
  - destruct (str_empty _); [apply hoare_ret; eauto|]. apply loading_account. intros _.
    eapply hoare_conseq; [apply lift_unit; intros fr;
      apply (drop_batch_hoare (λ o, bool_decide (op_dedupe_key o = default EmptyString dk)))|done|].
    intros _v a Ha. eexists. split; [|exact Ha]. apply length_filter_le.
  - intros _v. apply hoare_exists. intros ops1. apply hoare_fact. intros Hlen.
    apply now_account. intros now Hnow. apply id_account. intros i.
    apply upsert_grows; [|done]. apply ready_new; [done| |done]. by repeat case_decide.
Qed.

(** ** Deleting and discarding *)

Lemma length_cancelled root ops ops' : cancelled_to root ops ops' → (length ops' ≤ length ops)%nat.
Proof. intros [[k ->] _ _ _]. apply length_filter_le. Qed.
Lemma length_without i ops : (length (without i ops) ≤ length ops)%nat.
Proof. apply length_filter_le. Qed.

(** After a delete: an unsynced creation goes away with its dependents; otherwise the
    delete replaces the pending updates of the entity. *)
Definition after_delete ty lid ops ops' : Prop :=
  match List.find (is_op_for "create" ty lid) ops with
  | Some c => cancelled_to (mkRef ty lid) (without (op_id c) ops) ops'
  | None => ∃ d, is_op_for "delete" ty lid d = true
                 ∧ ops' = upserted d (List.filter (λ o, negb (is_op_for "update" ty lid o)) ops)
  end.

Lemma queue_delete_account fuel ty lid p dk oid ops ot :
  valid_target ty [] = true → (length ops < fuel)%nat →
  hoare (account_ok ops ot) (queue_delete_operation scope fuel ty lid p dk oid)
    (λ _ a, ∃ ops', after_delete ty lid ops ops' ∧ account_ok ops' ot a).
Proof.
  intros Hv Hfuel. apply find_create_account. intros Hok. unfold after_delete.
  destruct (List.find _ ops) as [c|] eqn:Ec.
  - eapply hoare_bind; [apply remove_account|]. intros _u.
    eapply hoare_bind; [apply remove_projection_hoare|]. intros _v.
    eapply hoare_bind; [apply (cancel_hoare _ _ _ (without (op_id c) ops))|].
    { pose proof (length_without (op_id c) ops). lia. }
    intros _w. by apply hoare_ret.
  - apply loading_account. intros _.
    apply (drop_account (is_op_for "update" ty lid)). intros now Hnow. apply id_account. intros i.
    eapply hoare_bind; [by apply upsert_hoare', ready_new|]. intros r. apply hoare_fact. intros ->.
    apply hoare_ret. intros a Ha. eexists. split; [|exact Ha]. eexists. split; [|done].
    unfold is_op_for. simpl. by rewrite !bool_decide_eq_true_2, Z.eqb_refl.
Qed.

Lemma refresh_account ops ot :
  hoare (account_ok ops ot) refresh_blocked_operations
    (λ n a, n = Z.of_nat (length (List.filter (unblocks ot.1.1.1.2) ops))
            ∧ account_ok (map (normalize ot.1.1.1.2) ops) ot a).
Proof.
  apply (lift_in _ _ _ _ (λ n, n = Z.of_nat (length (List.filter (unblocks ot.1.1.1.2) ops)))).
  intros fr <-. apply refresh_hoare.
Qed.

Lemma get_operation_account {A} i ops ot (k : option OfflineOperation → AM A) Q :
  hoare (account_ok ops ot) (k (List.find (has_id i) ops)) Q →
  hoare (account_ok ops ot) (bind (get_operation i) k) Q.
Proof.
  intros Hk. eapply (hoare_bind _ _ _
    (λ r a, r = List.find (has_id i) ops ∧ account_ok ops ot a)).
  - apply loading_account. intros _. by apply hoare_ret.
  - intros r. apply hoare_fact. by intros ->.
Qed.

Definition has_dependents (o : OfflineOperation) : bool :=
  is_create o && (op_local_id o <? 0) && negb (bool_decide (op_entity_type o = "generic")).
(** After discarding [i]: it is gone, with the dependents of a local creation, and the
    blocked operations are normalised. *)
Definition after_discard f i ops ops' : Prop :=
  match List.find (has_id i) ops with
  | None => ops' = ops
  | Some o =>
      if has_dependents o then
        ∃ kept, cancelled_to (own_ref o) (without i ops) kept ∧ ops' = map (normalize f) kept
      else ops' = map (normalize f) (without i ops)
  end.

Lemma discard_account fuel i ops ot :
  (length ops < fuel)%nat →
  hoare (account_ok ops ot) (discard_operation fuel i)
    (λ _ a, ∃ ops', after_discard ot.1.1.1.2 i ops ops' ∧ account_ok ops' ot a).
Proof.
  intros Hfuel. apply get_operation_account. unfold after_discard.
  destruct (List.find (has_id i) ops) as [o|] eqn:Eo; [|apply hoare_ret; eauto].
  eapply hoare_bind; [apply remove_account|]. intros _u.
  eapply (hoare_bind _ _ _ (λ _, account_ok (without i ops) ot)).
  { case_decide; [by apply hoare_ret|apply remove_projection_hoare]. }
  intros _v. change (bool_decide (op_type o = "create") && (op_local_id o <? 0)
                     && negb (bool_decide (op_entity_type o = "generic"))) with (has_dependents o).
  destruct (has_dependents o).
  - eapply hoare_bind; [apply (cancel_hoare _ _ _ (without i ops))|].
    { pose proof (length_without i ops). lia. }
    intros _w. apply hoare_exists. intros kept. apply hoare_fact. intros Hct.
    eapply hoare_bind; [apply refresh_account|]. intros n. apply hoare_ret.
    intros a [_ Ha]. eexists. split; [|exact Ha]. by exists kept.
  - eapply (hoare_bind _ _ _ (λ _, account_ok (without i ops) ot)); [by apply hoare_ret|]. intros _w.
    eapply hoare_bind; [apply refresh_account|]. intros n. apply hoare_ret.
    intros a [_ Ha]. by eexists.
Qed.

(** ** Any sequence of calls *)

Inductive call : Type :=
  | QueueCreate (ty : string) (lid : Z) (p : pydict) (refs : list OfflineEntityRef) (dk i : option string)
  | QueueUpdate (ty : string) (lid : Z) (p : pydict) (dk i : option string)
  | QueueDelete (ty : string) (lid : Z) (p : pydict) (dk i : option string)
  | QueueAction (ty : string) (lid : Z) (p : pydict) (dk i : option string)
  | QueueGeneric (m path : string) (body params : pydict) (hs : list (string * string))
      (dk label i : option string)
  | RefreshBlocked
  | NoteAttempt (i err : string)
  | UpdateStatus (i st err : string)
  | Remove (i : string)
  | Discard (i : string)
  | Clear
  | RecordReconciled (ty : string) (lid sid : Z).

Definition void {A} (m : AM A) : AM unit := let! _ := m in ret tt.
Definition run_call (fuel : nat) (c : call) : AM unit :=
  match c with
  | QueueCreate ty lid p refs dk i => void (queue_create_operation scope ty lid p refs dk i)
  | QueueUpdate ty lid p dk i => void (queue_update_operation scope ty lid p dk i)
  | QueueDelete ty lid p dk i => void (queue_delete_operation scope fuel ty lid p dk i)
  | QueueAction ty lid p dk i => void (queue_action_operation scope ty lid p dk i)
  | QueueGeneric m path body ps hs dk lb i =>
      void (queue_generic_api_mutation scope m path body ps hs dk lb i)
  | RefreshBlocked => void refresh_blocked_operations
  | NoteAttempt i err => note_operation_attempt i err
  | UpdateStatus i st err => void (update_operation_status i st err)
  | Remove i => remove_operation i
  | Discard i => discard_operation fuel i
  | Clear => clear_operation_store
  | RecordReconciled ty lid sid => record_reconciled_id ty lid sid
  end.
Definition run_calls (fuel : nat) : list call → AM unit := for_each (run_call fuel).

(** Entity types are not empty, and statuses are the ones the application uses. *)
Definition valid_call (c : call) : bool :=
  match c with
  | QueueCreate ty _ _ refs _ _ => valid_target ty refs
  | QueueUpdate ty _ _ _ _ | QueueDelete ty _ _ _ _ | QueueAction ty _ _ _ _ => valid_target ty []
  | UpdateStatus _ st _ => in_ready_states st || is_terminal st
  | _ => true
  end.

Definition some_ops (n : nat) (a : account) : Prop :=
  ∃ ops ot, (length ops ≤ n)%nat ∧ account_ok ops ot a.

Lemma void_hoare {A} (m : AM A) P (Q : A → account → Prop) R :
  hoare P m Q → (∀ r a, Q r a → R a) → hoare P (void m) (λ _, R).
Proof. intros Hm HQ. eapply hoare_bind; [exact Hm|]. intros r. apply hoare_ret. apply HQ. Qed.
Lemma grown n ops ot a :
  (length ops ≤ n)%nat → (∃ ops', grows_by_one ops ops' ∧ account_ok ops' ot a) → some_ops (S n) a.
Proof. intros Hn (ops' & Hg & Ha). exists ops', ot. split; [unfold grows_by_one in *; lia|done]. Qed.
Lemma kept n ops ot a : (length ops ≤ n)%nat → account_ok ops ot a → some_ops (S n) a.
Proof. intros Hn Ha. exists ops, ot. split; [lia|done]. Qed.

Lemma length_after_status i st err now ops : (length (after_status i st err now ops) ≤ length ops)%nat.
Proof.
  unfold after_status. destruct (is_terminal st); [apply length_without|].
  unfold update_id. by rewrite length_map.
Qed.
Lemma grows_after_delete ty lid ops ops' : after_delete ty lid ops ops' → grows_by_one ops ops'.
Proof.
  unfold after_delete, grows_by_one. destruct (List.find _ ops) as [c|].
  - intros Hl%length_cancelled. pose proof (length_without (op_id c) ops). lia.
  - intros (d & _ & ->). etrans; [apply length_upserted|].
    pose proof (length_filter_le (λ o, negb (is_op_for "update" ty lid o)) ops). lia.
Qed.
Lemma grows_after_discard f i ops ops' : after_discard f i ops ops' → grows_by_one ops ops'.
Proof.
  unfold after_discard, grows_by_one. pose proof (length_without i ops).
  destruct (List.find _ ops) as [o|]; [|intros ->; lia].
  destruct (has_dependents o); [intros (kept_ & Hl%length_cancelled & ->)|intros ->];
    rewrite length_map; lia.
Qed.
Lemma clear_hoare ops ot : hoare (account_ok ops ot) clear_operation_store (λ _, account_ok [] ot).
Proof.
  intros a (Hj & Hc & Ho). eexists _, _. split; [done|]. split_and!; [|done..].
  split_and!; [apply ops_ok_nil| |by right].
  exists [], []. split_and!; [done..|]. split; [constructor|].
  intros i o. simpl. split; [done|]. by intros [?%elem_of_nil _].
Qed.
Lemma record_hoare ty lid sid ops ot :
  hoare (account_ok ops ot) (record_reconciled_id ty lid sid) (λ _ a, ∃ ot', account_ok ops ot' a).
Proof.
  intros a (Hj & Hc & Ho). unfold record_reconciled_id.
  rewrite (bind_ok _ _ _ _ _ (reconciliation_map_run a)).
  eexists _, _. split; [done|]. eexists. split_and!; [exact Hj|exact Hc|done].
Qed.

Lemma call_hoare fuel n c :
  valid_call c = true → (n < fuel)%nat → hoare (some_ops n) (run_call fuel c) (λ _, some_ops (S n)).
Proof.
  intros Hv Hf. apply hoare_exists. intros ops. apply hoare_exists. intros ot.
  apply hoare_fact. intros Hn.
  destruct c as [ty lid p refs dk i|ty lid p dk i|ty lid p dk i|ty lid p dk i
    |m path body ps hs dk lb i| |i err|i st err|i|i| |ty lid sid]; cbn [run_call valid_call] in *.
  - eapply void_hoare; [by apply queue_create_account|]. intros r a (ops' & (Hg & _) & Ha).
    eapply grown; eauto.
  - eapply void_hoare; [by apply queue_update_account|]. intros r a Ha. eapply (grown n ops ot); [done|exact Ha].
  - eapply void_hoare; [apply queue_delete_account; [done|]; lia|].
    intros r a (ops' & Hg%grows_after_delete & Ha). eapply grown; eauto.
  - eapply void_hoare; [by apply queue_action_account|]. intros r a Ha. eapply (grown n ops ot); [done|exact Ha].
  - eapply void_hoare; [by apply queue_generic_account|]. intros r a Ha. eapply (grown n ops ot); [done|exact Ha].
  - eapply void_hoare; [apply refresh_account|]. intros r a [_ Ha].
    eapply kept; [|exact Ha]. by rewrite length_map.
  - eapply hoare_conseq; [apply (account_frame ops ot _ (λ _ l, length l = length ops))|done|].
    + intros fr _. eapply hoare_conseq; [apply note_attempt_hoare|done|]. intros _u a (now & Ha).
      eexists. split; [|exact Ha]. unfold update_id. by rewrite length_map.
    + intros _u a (ops' & Hl & Ha). eapply kept; [|exact Ha]. lia.
  - eapply void_hoare; [apply (account_frame ops ot _ (λ _ l, length l ≤ length ops)%nat)|].
    + intros fr _. eapply hoare_conseq; [by apply update_status_hoare|done|].
      intros r a (now & _ & Ha). eexists. split; [|exact Ha]. apply length_after_status.
    + intros _u a (ops' & Hl & Ha). eapply kept; [|exact Ha]. lia.
  - eapply hoare_conseq; [apply remove_account|done|]. intros _u a Ha.
    eapply kept; [|exact Ha]. pose proof (length_without i ops). lia.
  - eapply hoare_conseq; [apply discard_account|done|]; [lia|].
    intros _u a (ops' & Hg%grows_after_discard & Ha). eapply grown; eauto.
  - eapply hoare_conseq; [apply clear_hoare|done|]. intros _u a Ha. eapply kept; [|exact Ha]. simpl. lia.
  - eapply hoare_conseq; [apply record_hoare|done|]. intros _u a (ot' & Ha). eapply kept; eauto.
Qed.

Lemma calls_hoare fuel cs n :
  Forall (λ c, valid_call c = true) cs → (n + length cs < fuel)%nat →
  hoare (some_ops n) (run_calls fuel cs) (λ _, some_ops (n + length cs)).
Proof.
  unfold run_calls. intros Hv. revert n.
  induction Hv as [|c cs Hc Hcs IH]; intros n Hf; cbn [for_each length] in *.
  - apply hoare_ret. intros a. by rewrite Nat.add_0_r.
  - eapply hoare_bind; [apply call_hoare; [done|lia]|]. intros _u.
    rewrite Nat.add_succ_r. apply (IH (S n)). lia.
Qed.

Lemma empty_some_ops : some_ops 0 empty_account.
Proof.
  exists [], (others empty_account). split; [done|]. split_and!; [|done..].
  split_and!; [apply ops_ok_nil| |by left].
  exists [], []. split_and!; [done..|]. split; [constructor|].
  intros i o. simpl. split; [done|]. by intros [?%elem_of_nil _].
Qed.
End Cancel.

(** ** Properties *)

Section Properties.
Context `{Oracle, !ClockOk}.

(** C1. Durability of the offline journal.  From an empty account directory, every sequence
    of queueing, status, discard, clear and reconciliation calls succeeds (nothing raises,
    and the recursive cancellation stays within as many levels as there were calls), and
    the pending operations it leaves can be recovered from the event log alone: loading
    after the snapshot file is lost gives the very same list as loading it. *)
Theorem journal_recovers scope fuel (cs : list call) :
  Forall (λ c, valid_call c = true) cs → (length cs < fuel)%nat →
  ∃ a ops a1 a2,
    run_calls scope fuel cs empty_account = (Ok tt, a)
    ∧ _load_ops a = (Ok ops, a1) ∧ _load_ops (set_pending FMissing a) = (Ok ops, a2)
    ∧ (length ops ≤ length cs)%nat ∧ NoDup (map op_id ops).
Proof.
  intros Hv Hf.
  destruct (calls_hoare scope fuel cs 0 Hv Hf _ empty_some_ops)
    as ([] & a & E & ops & ot & Hlen & Hj & _).
  destruct (load_ops_spec ops a Hj) as (a1 & E1 & _).
  destruct (load_ops_spec ops (set_pending FMissing a)) as (a2 & E2 & _).
  { destruct Hj as (Hok & Hlog & _). split_and!; [exact Hok|exact Hlog|by left]. }
  exists a, ops, a1, a2. split_and!; try done. apply Hj.
Qed.

(** C2. Cancellation is exact and terminates.  With more levels than pending operations,
    cancelling the dependents of an entity succeeds and leaves exactly the operations that
    are not creations descending from it (directly or through other creations), so no
    creation stays queued behind a parent that no longer exists, and no unrelated
    operation is lost. *)
Theorem cancellation_exact fuel ty lid ops ot a :
  account_ok ops ot a → (length ops < fuel)%nat →
  ∃ a' ops',
    _cancel_dependent_temp_creates fuel ty lid a = (Ok tt, a')
    ∧ account_ok ops' ot a'
    ∧ ∀ o, o ∈ ops' ↔ o ∈ ops ∧ ¬ descends ops (mkRef ty lid) o.
Proof.
  intros Ha Hf. destruct (cancel_hoare fuel ty lid ops ot Hf a Ha) as ([] & a' & E & ops' & Hct & Ha').
  exists a', ops'. split_and!; [done..|]. by apply cancelled_exact.
Qed.
End Properties.

(** ** Witnesses *)

Definition demo_scope : OfflineAccountScope := mkScope "acc" "https://api" 1 7 "dir" "agent" false.

(** A client, a request of the client, an update merged into the request, and the deletion of
    the client, which cancels the request. *)
Definition demo_calls : list call :=
  [QueueCreate "client" (-1) [] [] None None;
   QueueCreate "demande" (-1) [] [mkRef "client" (-1)] None None;
   QueueUpdate "demande" (-1) [("body", PDict [("budget", PInt 3)])] None None;
   QueueDelete "client" (-1) [] None None;
   QueueAction "visit" 12 [] None None].

Lemma journal_recovers_witness :
  ∃ a ops a1 a2,
    @run_calls demo_oracle demo_scope 6 demo_calls empty_account = (Ok tt, a)
    ∧ _load_ops a = (Ok ops, a1) ∧ _load_ops (set_pending FMissing a) = (Ok ops, a2)
    ∧ (length ops ≤ length demo_calls)%nat ∧ NoDup (map op_id ops).
Proof.
  apply (@journal_recovers demo_oracle demo_clock_ok demo_scope 6 demo_calls).
  - repeat constructor.
  - simpl. lia.
Defined.

Example demo_calls_leave_the_action :
  match @run_calls demo_oracle demo_scope 6 demo_calls empty_account with
  | (Ok _, a) => match _load_ops a with (Ok ops, _) => map op_type ops | _ => [] end
  | _ => []
  end = ["action"].
Proof. vm_compute. reflexivity. Qed.

(** A client and its request, both created offline. *)
Definition demo_client : OfflineOperation :=
  mkOp "a" "acc" "client" "create" (-1) [] [] EmptyString "pending" 0 EmptyString "T0" "T0".
Definition demo_request : OfflineOperation :=
  mkOp "b" "acc" "demande" "create" (-1) [] [mkRef "client" (-1)] EmptyString "blocked" 0
    EmptyString "T1" "T1".
Definition demo_journal : account :=
  set_pending (FJson (PList (map op_to_dict [demo_client; demo_request])))
    (set_log (Some [LJson (PDict (upsert_event "T0" demo_client));
                    LJson (PDict (upsert_event "T1" demo_request))]) empty_account).

Lemma demo_journal_ok :
  @account_ok [demo_client; demo_request] (others empty_account) demo_journal.
Proof.
  split_and!; [|done..]. split_and!; [| |by right].
  - split; [by repeat constructor|by repeat constructor|]. apply (bool_decide_unpack _). by vm_compute.
  - exists [upsert_event "T0" demo_client; upsert_event "T1" demo_request],
      [("a", demo_client); ("b", demo_request)]. split_and!; [done|by vm_compute|].
    apply (tracks_of_list [demo_client; demo_request]). apply (bool_decide_unpack _). by vm_compute.
Qed.

Lemma cancellation_exact_witness :
  ∃ a' ops',
    @_cancel_dependent_temp_creates demo_oracle 3 "client" (-1) demo_journal = (Ok tt, a')
    ∧ @account_ok ops' (others empty_account) a'
    ∧ ∀ o, o ∈ ops' ↔ o ∈ [demo_client; demo_request]
                      ∧ ¬ descends [demo_client; demo_request] (mkRef "client" (-1)) o.
Proof.
  apply (@cancellation_exact demo_oracle demo_clock_ok 3); [exact demo_journal_ok|simpl; lia].
Defined.
