(* ===== verification/JournalProps.v ===== *)
(** * What the journal's operations do

    The functional behaviour of each public function of offline_op_log.py over the list of
    pending operations, stated on accounts that satisfy the journal's invariant. *)

From S2P Require Import Prelude PyValue OfflineTypes OfflineStore OfflineProjection.
From S2P Require Import OfflineJournal JournalSpec JournalCancel.
Local Open Scope Z_scope.

(** ** The order in which operations are sent *)

Lemma ready_leb_total a b : ready_leb a b = false → ready_leb b a = true.
Proof.
  unfold ready_leb. destruct (Z.eqb_spec (_READY_PRIORITY (op_type a)) (_READY_PRIORITY (op_type b)))
    as [E|E].
  - rewrite E, Z.eqb_refl. apply key_leb_total.
  - rewrite (proj2 (Z.eqb_neq _ _)) by congruence. intros ?%Z.ltb_ge. apply Z.ltb_lt. lia.
Qed.
Lemma ready_leb_trans a b c : ready_leb a b = true → ready_leb b c = true → ready_leb a c = true.
Proof.
  unfold ready_leb.
  destruct (Z.eqb_spec (_READY_PRIORITY (op_type a)) (_READY_PRIORITY (op_type b))) as [E1|E1],
    (Z.eqb_spec (_READY_PRIORITY (op_type b)) (_READY_PRIORITY (op_type c))) as [E2|E2];
    rewrite ?Z.ltb_lt; intros L1 L2.
  - rewrite (proj2 (Z.eqb_eq _ _)) by congruence. by eapply key_leb_trans.
  - rewrite (proj2 (Z.eqb_neq _ _)) by lia. apply Z.ltb_lt. lia.
  - rewrite (proj2 (Z.eqb_neq _ _)) by lia. apply Z.ltb_lt. lia.
  - rewrite (proj2 (Z.eqb_neq _ _)) by lia. apply Z.ltb_lt. lia.
Qed.
Lemma ready_leb_priority a b :
  ready_leb a b = true → _READY_PRIORITY (op_type a) <= _READY_PRIORITY (op_type b).
Proof.
  unfold ready_leb. destruct (Z.eqb_spec (_READY_PRIORITY (op_type a)) (_READY_PRIORITY (op_type b))).
  - lia.
  - rewrite Z.ltb_lt. lia.
Qed.
Lemma StronglySorted_impl {A} (R1 R2 : A → A → Prop) l :
  (∀ x y, R1 x y → R2 x y) → StronglySorted R1 l → StronglySorted R2 l.
Proof.
  intros HR. induction 1 as [|x l Hl IH Hx]; constructor; [done|].
  eapply List.Forall_impl; [|exact Hx]. auto.
Qed.

Section Props.
Context `{Oracle, !ClockOk}.

Definition is_pending (o : OfflineOperation) : bool := bool_decide (op_status o = "pending").
(** What [list_ready_operations] returns over [ops], with reconciliation map [f]. *)
Definition ready_list (f : pyfile) (ops : list OfflineOperation) : list OfflineOperation :=
  ssort ready_leb (List.filter is_pending (map (normalize f) ops)).

Lemma list_ready_hoare ops ot :
  hoare (account_ok ops ot) list_ready_operations
    (λ r a, r = ready_list ot.1.1.1.2 ops ∧ account_ok ops ot a).
Proof.
  eapply (hoare_bind _ _ _ (λ r a, r = map (normalize ot.1.1.1.2) ops ∧ account_ok ops ot a)).
  - apply loading_account. intros _ a Ha. eexists _, a. split; [apply normalize_all_run|].
    split; [|done]. destruct Ha as (_ & _ & <-). done.
  - intros r. apply hoare_fact. intros ->. by apply hoare_ret.
Qed.

Lemma ready_list_elem f ops o :
  o ∈ ready_list f ops ↔ op_status o = "pending" ∧ ∃ o0, o0 ∈ ops ∧ o = normalize f o0.
Proof.
  unfold ready_list, is_pending. rewrite ssort_perm, elem_of_filter_b, bool_decide_eq_true, elem_of_map.
  firstorder.
Qed.

(** The operations that may be sent: pending, or blocked by parents that are all known now. *)
Definition sendable (f : pyfile) (o : OfflineOperation) : bool :=
  is_pending o || unblocks f o.
Lemma sendable_normalize f o :
  ready_op o = true → is_pending (normalize f o) = sendable f o.
Proof.
  intros Ho. rewrite normalize_ready by done. unfold sendable.
  destruct (unblocks f o); [|by rewrite orb_false_r]. by rewrite orb_true_r.
Qed.

(** ** What a merge leaves in a body *)

Lemma body_of_nodup p : NoDup (dkeys p) → NoDup (dkeys (dict_or_empty (get "body" p))) →
  NoDup (dkeys (body_of p)).
Proof. unfold body_of, mapping_dict. by destruct (dict_or_empty (get "body" p)). Qed.
Lemma merged_body old b k :
  NoDup (dkeys b) →
  dget k (dict_or_empty (get "body" (merge_body old b))) =
    match dget k b with Some v => Some v | None => dget k (dict_or_empty (get "body" old)) end.
Proof.
  intros Hb. unfold merge_body, get. rewrite dget_dset_eq. simpl. by apply dget_dupdate.
Qed.
Lemma merged_other old b k : k ≠ "body" → dget k (merge_body old b) = dget k old.
Proof. intros Hk. unfold merge_body. by apply dget_dset_ne. Qed.

(** ** Updating a pending creation *)

Variable scope : OfflineAccountScope.

Lemma update_of_create ty lid p dk oid ops ot c :
  List.find (is_op_for "create" ty lid) ops = Some c →
  hoare (account_ok ops ot) (queue_update_operation scope ty lid p dk oid)
    (λ r a, ∃ now, r = Some (with_payload (merge_body (op_payload c) (body_of p)) now c)
      ∧ account_ok (upserted (with_payload (merge_body (op_payload c) (body_of p)) now c) ops) ot a).
Proof.
  intros Hc. apply find_create_account. intros Hok. rewrite Hc.
  apply now_account. intros now Hnow. cbv zeta.
  eapply hoare_bind; [apply upsert_hoare'|].
  { apply ready_with_payload; [|done]. apply (ready_in ops); [done|].
    by apply find_elem in Hc as [? _]. }
  intros r. apply hoare_fact. intros ->. apply hoare_ret. eauto.
Qed.
Lemma upserted_ids op ops :
  op_id op ∈ map op_id ops → ∀ i, i ∈ map op_id (upserted op ops) ↔ i ∈ map op_id ops.
Proof.
  intros Hin i. rewrite !elem_of_map. setoid_rewrite elem_of_upserted. split.
  - intros (x & -> & [->|[Hx _]]); [by apply elem_of_map|eauto].
  - intros (x & -> & Hx). destruct (decide (op_id x = op_id op)) as [E|E]; eauto 6.
Qed.
End Props.

Section Theorems.
Context `{Oracle, !ClockOk}.

(** ** Properties *)

(** What the reconciler is given to send.  [list_ready_operations] succeeds and returns, for
    an account holding the operations [ops], exactly the ones that are pending or whose parents
    have all been reconciled (each once, unblocked ones marked pending), creations first, then
    updates, deletions and actions, and by creation time inside a kind.  In particular an
    operation blocked behind a parent without a server id is never returned. *)
Theorem ready_operations_spec ops ot a :
  account_ok ops ot a →
  ∃ r a', list_ready_operations a = (Ok r, a') ∧ account_ok ops ot a'
    ∧ r ≡ₚ map (normalize ot.1.1.1.2) (List.filter (sendable ot.1.1.1.2) ops)
    ∧ StronglySorted (λ x y, ready_leb x y = true) r
    ∧ StronglySorted (λ x y, _READY_PRIORITY (op_type x) <= _READY_PRIORITY (op_type y)) r.
Proof.
  intros Ha. destruct (list_ready_hoare ops ot a Ha) as (r & a' & E & -> & Ha').
  assert (StronglySorted (λ x y, ready_leb x y = true) (ready_list ot.1.1.1.2 ops)) as Hs.
  { apply ssort_sorted; [apply ready_leb_total|apply ready_leb_trans]. }
  eexists _, a'. split_and!; [exact E|exact Ha'| |exact Hs|].
  - unfold ready_list. rewrite ssort_perm.
    pose proof (ok_ready _ (proj1 (proj1 Ha))) as Hr. clear -Hr.
    induction Hr as [|o l Ho Hl IH]; [done|]. cbn [map List.filter].
    rewrite sendable_normalize by done. destruct (sendable _ o); cbn [map]; by rewrite IH.
  - eapply StronglySorted_impl; [|exact Hs]. intros x y. apply ready_leb_priority.
Qed.

(** An edit of an entity that exists only locally goes into its pending creation: no second
    operation is queued (the ids stay the same), and in the creation's body every field of the
    edit has its new value, every other field its old one. *)
Theorem update_merges_into_create scope ty lid p dk oid ops ot a c :
  account_ok ops ot a → List.find (is_op_for "create" ty lid) ops = Some c →
  NoDup (dkeys (body_of p)) →
  ∃ a' c' ops',
    queue_update_operation scope ty lid p dk oid a = (Ok (Some c'), a')
    ∧ account_ok ops' ot a' ∧ c' ∈ ops'
    ∧ (∀ i, i ∈ map op_id ops' ↔ i ∈ map op_id ops)
    ∧ op_id c' = op_id c ∧ op_status c' = op_status c ∧ op_attempts c' = op_attempts c
    ∧ (∀ k, dget k (dict_or_empty (get "body" (op_payload c'))) =
              match dget k (body_of p) with
              | Some v => Some v
              | None => dget k (dict_or_empty (get "body" (op_payload c)))
              end)
    ∧ (∀ k, k ≠ "body" → dget k (op_payload c') = dget k (op_payload c)).
Proof.
  intros Ha Hc Hnd. destruct (update_of_create scope ty lid p dk oid ops ot c Hc a Ha)
    as (r & a' & E & now & -> & Ha').
  eexists a', _, _. split_and!; [exact E|exact Ha'|apply elem_of_upserted; auto| |done..| |].
  - apply upserted_ids, elem_of_map. exists c. split; [done|]. by apply find_elem in Hc as [? _].
  - intros k. by apply merged_body.
  - intros k. by apply merged_other.
Qed.

(** Deleting an entity.  When its creation is still pending, the creation and exactly the
    creations that descend from the entity leave the journal and nothing is queued; otherwise
    the pending updates of the entity are replaced by one delete, and every operation on other
    entities or of another kind stays. *)
Theorem delete_spec scope fuel ty lid p dk oid ops ot a :
  account_ok ops ot a → valid_target ty [] = true → (length ops < fuel)%nat →
  ∃ r a' ops',
    queue_delete_operation scope fuel ty lid p dk oid a = (Ok r, a') ∧ account_ok ops' ot a'
    ∧ match List.find (is_op_for "create" ty lid) ops with
      | Some c => ∀ o, o ∈ ops' ↔ o ∈ without (op_id c) ops
                                  ∧ ¬ descends (without (op_id c) ops) (mkRef ty lid) o
      | None => ∃ d, is_op_for "delete" ty lid d = true ∧
          ∀ o, o ∈ ops' ↔ o = d ∨ (o ∈ ops ∧ is_op_for "update" ty lid o = false ∧ op_id o ≠ op_id d)
      end.
Proof.
  intros Ha Hv Hf. destruct (queue_delete_account scope fuel ty lid p dk oid ops ot Hv Hf a Ha)
    as (r & a' & E & ops' & Hd & Ha').
  exists r, a', ops'. split_and!; [done..|]. unfold after_delete in Hd.
  destruct (List.find _ ops) as [c|].
  - by apply cancelled_exact.
  - destruct Hd as (d & Hdel & ->). exists d. split; [done|]. intros o.
    rewrite elem_of_upserted, elem_of_filter_b, negb_true_iff. tauto.
Qed.

(** A status change.  [update_operation_status] with a status the application uses changes
    the status and the error of that operation only; with a terminal status (applied or
    cancelled) the operation leaves the journal for good: neither the snapshot nor a replay of
    the log returns it. *)
Theorem status_change_spec i st err ops ot a :
  account_ok ops ot a → in_ready_states st || is_terminal st = true →
  ∃ r a' now ops',
    update_operation_status i st err a = (Ok r, a')
    ∧ r = last_with_id i (update_id i (with_status st err now) ops)
    ∧ account_ok ops' ot a'
    ∧ ops' = (if is_terminal st then without i ops else update_id i (with_status st err now) ops).
Proof.
  intros Ha Hst.
  destruct (account_frame ops ot (update_operation_status i st err)
    (λ r ops', ∃ now, r = last_with_id i (update_id i (with_status st err now) ops)
                      ∧ ops' = after_status i st err now ops))
    with (s := a) as (r & a' & E & ops' & (now & -> & ->) & Ha'); [|done|].
  { intros fr _. eapply hoare_conseq; [by apply update_status_hoare|done|].
    intros r s (now & -> & Hs). eexists. split; [|exact Hs]. by exists now. }
  by eexists _, a', now, _.
Qed.

(** The journal's encodings are lossless on the values the application writes: an
    operation with its parent references, and a projection record, read back unchanged from
    their JSON form. *)
Theorem encodings_roundtrip (o : OfflineOperation) (r : OfflineProjectionRecord) :
  wf_op o = true → wf_proj r = true →
  op_from_dict (op_to_dict o) = Ok o ∧ proj_from_dict (proj_to_dict r) = Ok r.
Proof. intros Ho Hr. split; [by apply op_roundtrip|by apply proj_roundtrip]. Qed.

(** ** Two weaknesses of the recovery *)

(** A snapshot that does not parse is read as an empty journal, although the log still holds
    every operation; a queueing call that follows writes a snapshot with its operation only, so
    the earlier ones are not sent and are not shown any more. *)
Lemma corrupt_snapshot_forgets a op :
  ∃ a', _upsert_op op (set_pending FCorrupt a) = (Ok op, a') ∧ snapshot_is [op] a'.
Proof.
  unfold _upsert_op, _load_ops.
  destruct (ensure_meta_spec (set_pending FCorrupt a)) as [f Ef].
  assert (_read_pending_operations (set_meta f (set_pending FCorrupt a))
          = (Ok [], set_pending FMissing (set_meta f a))) as Er by done.
  erewrite bind_ok; [|rewrite (bind_ok _ _ _ _ _ Ef); exact Er].
  eexists. split; [done|]. done.
Qed.

(** An operation left in status [syncing] (the process stopped while it was being sent) is not
    sent again: neither a refresh nor a listing changes its status, and it is not ready. *)
Lemma syncing_is_never_sent f o ops :
  op_status o = "syncing" →
  op_status (normalize f o) = "syncing" ∧ normalize f o ∉ ready_list f ops.
Proof.
  intros Hs.
  assert (op_status (normalize f o) = "syncing") as Hn.
  { unfold normalize, unblocks. rewrite Hs. done. }
  split; [done|]. intros [Hp _]%ready_list_elem. congruence.
Qed.
End Theorems.

(** ** Witnesses *)

Lemma ready_operations_spec_witness :
  ∃ r a', @list_ready_operations demo_journal = (Ok r, a')
    ∧ account_ok [demo_client; demo_request] (others empty_account) a'
    ∧ r ≡ₚ map (normalize (others empty_account).1.1.1.2)
             (List.filter (sendable (others empty_account).1.1.1.2) [demo_client; demo_request])
    ∧ StronglySorted (λ x y, ready_leb x y = true) r
    ∧ StronglySorted (λ x y, _READY_PRIORITY (op_type x) <= _READY_PRIORITY (op_type y)) r.
Proof. exact (ready_operations_spec _ _ _ demo_journal_ok). Defined.

Lemma update_merges_into_create_witness :
  ∃ a' c' ops',
    @queue_update_operation demo_oracle demo_scope "client" (-1)
      [("body", PDict [("name", PStr "Ann")])] None None demo_journal = (Ok (Some c'), a')
    ∧ account_ok ops' (others empty_account) a' ∧ c' ∈ ops'
    ∧ (∀ i, i ∈ map op_id ops' ↔ i ∈ map op_id [demo_client; demo_request])
    ∧ op_id c' = "a" ∧ op_status c' = "pending" ∧ op_attempts c' = 0
    ∧ (∀ k, dget k (dict_or_empty (get "body" (op_payload c'))) =
              match dget k (body_of [("body", PDict [("name", PStr "Ann")])]) with
              | Some v => Some v
              | None => dget k (dict_or_empty (get "body" (op_payload demo_client)))
              end)
    ∧ (∀ k, k ≠ "body" → dget k (op_payload c') = dget k (op_payload demo_client)).
Proof.
  apply (@update_merges_into_create demo_oracle demo_clock_ok demo_scope "client" (-1)
    [("body", PDict [("name", PStr "Ann")])] None None [demo_client; demo_request]
    (others empty_account) demo_journal demo_client).
  - exact demo_journal_ok.
  - by vm_compute.
  - apply (bool_decide_unpack _). by vm_compute.
Defined.

Lemma delete_spec_witness :
  ∃ r a' ops',
    @queue_delete_operation demo_oracle demo_scope 3 "client" (-1) [] None None demo_journal = (Ok r, a')
    ∧ account_ok ops' (others empty_account) a'
    ∧ ∀ o, o ∈ ops' ↔ o ∈ [demo_request] ∧ ¬ descends [demo_request] (mkRef "client" (-1)) o.
Proof.
  exact (@delete_spec demo_oracle demo_clock_ok demo_scope 3 "client" (-1) [] None None
    [demo_client; demo_request] _ _ demo_journal_ok eq_refl ltac:(simpl; lia)).
Defined.

Lemma status_change_spec_witness :
  ∃ r a' now ops',
    @update_operation_status demo_oracle "a" "applied" EmptyString demo_journal = (Ok r, a')
    ∧ r = last_with_id "a" (update_id "a" (with_status "applied" EmptyString now)
                              [demo_client; demo_request])
    ∧ account_ok ops' (others empty_account) a' ∧ ops' = [demo_request].
Proof.
  exact (@status_change_spec demo_oracle demo_clock_ok "a" "applied" EmptyString _ _ _
    demo_journal_ok eq_refl).
Defined.

Lemma encodings_roundtrip_witness :
  op_from_dict (op_to_dict demo_request) = Ok demo_request
  ∧ proj_from_dict (proj_to_dict (mkProj "client" (-1) None [] "pending" EmptyString true))
    = Ok (mkProj "client" (-1) None [] "pending" EmptyString true).
Proof. apply encodings_roundtrip; reflexivity. Defined.
