(* ===== verification/UploadQueue.v ===== *)
(** * The offline media upload queue

    Models src/app/services/upload_queue.py: the account's index of queued files
    ([upload_queue.json]) and the copies of the files themselves.  An index entry is a JSON
    object, as in the source; every read and every write normalises it. *)

From S2P Require Import Prelude PyValue OfflineTypes OfflineStore.
From Stdlib Require Import Ascii.
Local Open Scope Z_scope.

(** [os.path.basename] of a POSIX path. *)
Fixpoint basename_from (acc : string) (s : string) : string :=
  match s with
  | EmptyString => acc
  | String c s' => if (code c =? 47)%N then basename_from EmptyString s'
                   else basename_from (acc +:+ String c EmptyString) s'
  end.
Definition basename (s : string) : string := basename_from EmptyString s.

(* src/app/services/upload_queue.py :: _TERMINAL_STATUSES *)
Definition _TERMINAL_STATUSES : list string := ["applied"; "cancelled"].
Definition terminal_status (s : string) : bool := bool_decide (s ∈ _TERMINAL_STATUSES).

(* src/app/services/upload_queue.py :: _dedupe_key *)
Definition _dedupe_key (kind file_sha256 parent_entity_type : string) (parent_local_id position : Z)
  : string :=
  if decide (kind = "offer_photo") then
    "offer_photo:" +:+ parent_entity_type +:+ ":" +:+ pretty parent_local_id +:+ ":" +:+
    pretty position +:+ ":" +:+ file_sha256
  else kind +:+ ":" +:+ file_sha256.

(** [int(v) if isinstance(v, (int, float, str)) and str(v or "").strip() else None] *)
Definition parent_id_value (v : pyval) : res pyval :=
  match v with
  | PInt _ | PBool _ | PFloat _ | PStr _ =>
      if str_empty (strip (py_str (py_or v (PStr EmptyString)))) then Ok PNone
      else let? z := py_int v in Ok (PInt z)
  | _ => Ok PNone
  end.

Section Queue.
Context `{Oracle}.
(** The directory of the queue, below the account's directory. *)
Variable queue_root : string.

Definition file_content (path : string) : AM (option string) := gets (λ a, a_media a !! path).
Definition setdefault_m (k : string) (m : AM pyval) (d : pydict) : AM pydict :=
  let! v := m in ret (dsetdefault k v d).

(** The argument of [setdefault] is evaluated whether the key is present or not. *)
(* src/app/services/upload_queue.py :: _normalize_item *)
Definition _normalize_item (payload : pydict) : AM pydict :=
  let path := str_field "path" EmptyString payload in
  let sha0 := str_field "file_sha256" EmptyString payload in
  let! content := file_content path in
  let file_sha := if str_empty sha0 && negb (str_empty path)
                  then match content with Some c => sha256 c | None => sha0 end
                  else sha0 in
  let! item := setdefault_m "id" (let! u := uuid_hex in ret (PStr u)) payload in
  let item := dsetdefault "kind" (PStr "generic") item in
  let item := dsetdefault "filename"
                (PStr (if str_empty path then EmptyString else basename path)) item in
  let! item := setdefault_m "created_at" (let! t := utc_now_iso in ret (PStr t)) item in
  let! item := setdefault_m "updated_at"
                 (if truthy (get "created_at" item) then ret (PStr (py_str (get "created_at" item)))
                  else let! t := utc_now_iso in ret (PStr t)) item in
  let item := dsetdefault "status" (PStr "pending") item in
  let! attempts := lift (int_field "attempts" item) in
  let item := dsetdefault "attempts" (PInt attempts) item in
  let item := dsetdefault "last_error" (PStr (str_field "last_error" EmptyString item)) item in
  let item := dsetdefault "entity_type" (PStr "agency_media") item in
  let item := dsetdefault "parent_entity_type"
                (PStr (str_field "parent_entity_type" EmptyString item)) item in
  let! parent := lift (parent_id_value (get "parent_local_id" payload)) in
  let item := dset "parent_local_id" parent item in
  let! position := lift (int_field "position" item) in
  let item := dset "position" (PInt position) item in
  let item := dsetdefault "purpose"
                (PStr (py_str (py_or (py_or (get "purpose" item) (get "kind" item))
                                 (PStr EmptyString)))) item in
  let storage := get "storage_id" payload in
  let item := dset "storage_id" (PStr (if truthy storage then py_str storage else EmptyString)) item in
  let item := dset "file_sha256" (PStr file_sha) item in
  if truthy (get "dedupe_key" item) then ret item
  else
    let! pid := lift (py_int (py_or parent (PInt 0))) in
    ret (dset "dedupe_key"
           (PStr (_dedupe_key (str_field "kind" EmptyString item) file_sha
                    (str_field "parent_entity_type" EmptyString item) pid position)) item).

Fixpoint normalize_each (l : list pyval) : AM (list pydict) :=
  match l with
  | [] => ret []
  | PDict d :: l' => let! x := _normalize_item d in let! xs := normalize_each l' in ret (x :: xs)
  | _ :: l' => normalize_each l'
  end.

(* src/app/services/upload_queue.py :: _load_index *)
Definition _load_index : AM (list pydict) :=
  let! data := read_json a_upload_index (PList []) in
  match data with PList l => normalize_each l | _ => ret [] end.

Definition live (item : pydict) : bool := negb (terminal_status (str_field "status" EmptyString item)).

(* src/app/services/upload_queue.py :: _write_index *)
Definition _write_index (items : list pydict) : AM unit :=
  let! normalized := normalize_each (map PDict items) in
  write_json_atomic set_upload_index (PList (map PDict (List.filter live normalized))).

(* src/app/services/upload_queue.py :: _copy_source_to_queue *)
Definition _copy_source_to_queue (source_path content queue_id : string) : AM string :=
  let dest := queue_root +:+ "/" +:+ queue_id +:+ "_" +:+ basename source_path in
  do! modify (λ a, set_media (<[dest := content]> (a_media a)) a) in
  ret dest.

Definition has_queue_id (queue_id : string) (item : pydict) : bool :=
  bool_decide (str_field "id" EmptyString item = queue_id).

(* src/app/services/upload_queue.py :: enqueue_media *)
Definition enqueue_media (kind source_path parent_entity_type : string)
    (parent_local_id : option Z) (position : Z) (purpose : option string) : AM string :=
  let! source := file_content source_path in
  match source with
  | None => raise (OtherError source_path)
  | Some content =>
      let! queue_id := uuid_hex in
      let! dest := _copy_source_to_queue source_path content queue_id in
      let file_sha := sha256 content in
      let pid := default 0 parent_local_id in
      let key := _dedupe_key kind file_sha parent_entity_type pid position in
      let! created := utc_now_iso in
      let! updated := utc_now_iso in
      let item :=
        [("id", PStr queue_id); ("kind", PStr kind); ("filename", PStr (basename source_path));
         ("path", PStr dest); ("created_at", PStr created); ("updated_at", PStr updated);
         ("status", PStr (if negb (str_empty parent_entity_type) && (pid <? 0) then "blocked"
                          else "pending"));
         ("attempts", PInt 0); ("last_error", PStr EmptyString);
         ("entity_type", PStr (if decide (kind = "offer_photo") then "offer_photo"
                               else "agency_media"));
         ("parent_entity_type", PStr parent_entity_type);
         ("parent_local_id", match parent_local_id with Some z => PInt z | None => PNone end);
         ("position", PInt position); ("purpose", PStr (str_or (default EmptyString purpose) kind));
         ("storage_id", PStr EmptyString); ("file_sha256", PStr file_sha);
         ("dedupe_key", PStr key)] in
      let! items := _load_index in
      let same c := bool_decide (str_field "dedupe_key" EmptyString c = key)
                    && negb (terminal_status (str_field "status" "pending" c)) in
      match (if decide (kind = "offer_photo") then List.find same items else None) with
      | Some existing =>
          do! modify (λ a, set_media (delete dest (a_media a)) a) in
          ret (str_field "id" EmptyString existing)
      | None => do! _write_index (items ++ [item]) in ret queue_id
      end
  end.

(* src/app/services/upload_queue.py :: enqueue_offer_photo_upload *)
Definition enqueue_offer_photo_upload (offer_id : Z) (source_path : string) (position : Z) : AM string :=
  enqueue_media "offer_photo" source_path "offer" (Some offer_id) position (Some "offer_photo").

(* src/app/services/upload_queue.py :: list_media_uploads *)
Definition list_media_uploads : AM (list pydict) := _load_index.

(* src/app/services/upload_queue.py :: get_media_upload *)
Definition get_media_upload (queue_id : string) : AM (option pydict) :=
  let! items := _load_index in ret (List.find (has_queue_id queue_id) items).

(* src/app/services/upload_queue.py :: pending_media_upload_count *)
Definition pending_media_upload_count : AM Z :=
  let! items := _load_index in ret (Z.of_nat (length items)).

(* src/app/services/upload_queue.py :: media_review_count *)
Definition media_review_count : AM Z :=
  let! items := _load_index in
  ret (Z.of_nat (length (List.filter
         (λ i, bool_decide (str_field "status" EmptyString i = "needs_review")) items))).

Fixpoint update_each (f : pydict → AM pydict) (l : list pydict) : AM (list pydict) :=
  match l with
  | [] => ret []
  | x :: l' => let! y := f x in let! ys := update_each f l' in ret (y :: ys)
  end.
Definition dset_opt (k : string) (v : option pyval) (d : pydict) : pydict :=
  match v with Some x => dset k x d | None => d end.

(* src/app/services/upload_queue.py :: mark_media_upload *)
Definition mark_media_upload (queue_id : string) (status error storage_id : option string)
    (parent_local_id : option Z) : AM unit :=
  let! items := _load_index in
  let! updated := update_each (λ item,
    if has_queue_id queue_id item then
      let item := dset_opt "status" (PStr <$> status) item in
      let item := dset_opt "last_error" (PStr <$> error) item in
      let item := dset_opt "storage_id" (PStr <$> storage_id) item in
      let item := dset_opt "parent_local_id" (PInt <$> parent_local_id) item in
      let! now := utc_now_iso in
      ret (dset "updated_at" (PStr now) item)
    else ret item) items in
  _write_index updated.

(* src/app/services/upload_queue.py :: note_media_upload_attempt *)
Definition note_media_upload_attempt (queue_id error : string) : AM unit :=
  let! items := _load_index in
  let! updated := update_each (λ item,
    if has_queue_id queue_id item then
      let! n := lift (int_field "attempts" item) in
      let item := dset "last_error" (PStr error) (dset "attempts" (PInt (n + 1)) item) in
      let! now := utc_now_iso in
      ret (dset "updated_at" (PStr now) item)
    else ret item) items in
  _write_index updated.

(* src/app/services/upload_queue.py :: retry_media_upload *)
Definition retry_media_upload (queue_id : string) : AM unit :=
  let! found := get_media_upload queue_id in
  match found with
  | None => ret tt
  | Some item =>
      let! pid := (if truthy (get "parent_entity_type" item)
                   then lift (int_field "parent_local_id" item) else ret 0) in
      mark_media_upload queue_id (Some (if pid <? 0 then "blocked" else "pending"))
        (Some EmptyString) None None
  end.

Definition rewrite_parent (parent_entity_type : string) (old_local_id new_server_id : Z)
    (item : pydict) : AM (pydict * bool) :=
  if decide (str_field "parent_entity_type" EmptyString item = parent_entity_type) then
    let! current := lift (int_field "parent_local_id" item) in
    if current =? old_local_id then
      let item := dset "parent_local_id" (PInt new_server_id) item in
      let item := if decide (str_field "status" EmptyString item = "blocked")
                  then dset "last_error" (PStr EmptyString) (dset "status" (PStr "pending") item)
                  else item in
      let! now := utc_now_iso in
      ret (dset "updated_at" (PStr now) item, true)
    else ret (item, false)
  else ret (item, false).
Fixpoint rewrite_each (parent_entity_type : string) (old new : Z) (l : list pydict)
  : AM (list (pydict * bool)) :=
  match l with
  | [] => ret []
  | x :: l' => let! y := rewrite_parent parent_entity_type old new x in
               let! ys := rewrite_each parent_entity_type old new l' in ret (y :: ys)
  end.

(* src/app/services/upload_queue.py :: rewrite_media_parent_refs *)
Definition rewrite_media_parent_refs (parent_entity_type : string) (old_local_id new_server_id : Z)
  : AM Z :=
  let! items := _load_index in
  let! updated := rewrite_each parent_entity_type old_local_id new_server_id items in
  do! _write_index (map fst updated) in
  ret (Z.of_nat (length (List.filter snd updated))).

(* src/app/services/upload_queue.py :: remove_media_upload *)
Definition remove_media_upload (queue_id : string) : AM unit :=
  let! items := _load_index in
  let is_it item := match dget "id" item with
                    | Some (PStr s) => bool_decide (s = queue_id)
                    | _ => false
                    end in
  do! for_each (λ item,
        modify (λ a, set_media (delete (str_field "path" EmptyString item) (a_media a)) a))
      (List.filter is_it items) in
  _write_index (List.filter (λ i, negb (is_it i)) items).

(* src/app/services/upload_queue.py :: discard_media_upload *)
Definition discard_media_upload (queue_id : string) : AM unit := remove_media_upload queue_id.
End Queue.
