(* ===== verification/UploadProps.v ===== *)
(** * The upload queue holds each offer photo once

    What _normalize_item keeps, and the invariant of the index under enqueueing. *)

From S2P Require Import Prelude PyValue OfflineTypes OfflineStore UploadQueue.
Local Open Scope Z_scope.

Lemma dset_same {V} k (v : V) d : dget k d = Some v → dset k v d = d.
Proof.
  induction d as [|[k' v'] d IH]; simpl; [done|]. case_decide; intros; simplify_eq; [done|].
  by rewrite IH.
Qed.
Lemma dsetdefault_has {V} k (v : V) d : dhas k d = true → dsetdefault k v d = d.
Proof. unfold dsetdefault. by intros ->. Qed.
Lemma dget_has {V} k (v : V) d : dget k d = Some v → dhas k d = true.
Proof. unfold dhas. by intros ->. Qed.

Section Upload.
Context `{Oracle}.

Ltac by_key := apply (bool_decide_unpack _); reflexivity.

(** An index entry that normalisation leaves as it is. *)
Record normal (item : pydict) : Prop := {
  nm_keys : ∀ k, k ∈ ["id"; "kind"; "filename"; "created_at"; "updated_at"; "status"; "last_error";
                      "entity_type"; "parent_entity_type"; "purpose"] → dhas k item = true;
  nm_attempts : ∃ n, dget "attempts" item = Some (PInt n);
  nm_parent : dget "parent_local_id" item = Some PNone
              ∨ ∃ z, z ≠ 0 ∧ dget "parent_local_id" item = Some (PInt z);
  nm_position : ∃ p, dget "position" item = Some (PInt p);
  nm_storage : ∃ s, dget "storage_id" item = Some (PStr s);
  nm_sha : ∃ h, str_empty h = false ∧ dget "file_sha256" item = Some (PStr h);
  nm_key : truthy (get "dedupe_key" item) = true
}.

(** The decimal text of a number starts with a character that is not a space. *)
Definition solid (s : string) : Prop :=
  match s with String c _ => is_space c = false | EmptyString => False end.
Lemma digit_solid x : is_space (pretty_N_char x) = false.
Proof. unfold pretty_N_char. by repeat case_match. Qed.
Lemma pretty_go_solid x s : (0 < x)%N ∨ solid s → solid (pretty_N_go x s).
Proof.
  revert s. induction (N.lt_wf_0 x) as [x _ IH]; intros s Hs.
  destruct (decide (x = 0)%N) as [->|Hx].
  - rewrite pretty_N_go_0. destruct Hs; [lia|done].
  - rewrite pretty_N_go_step by lia. apply IH; [apply N.div_lt; lia|].
    right. apply digit_solid.
Qed.
Lemma pretty_solid (z : Z) : solid (pretty z).
Proof.
  destruct z as [|p|p]; [done| |done].
  change (solid (pretty_N_go (N.pos p) EmptyString)). apply pretty_go_solid. lia.
Qed.
Lemma strip_solid s : solid s → str_empty (strip s) = false.
Proof.
  destruct s as [|c s]; [done|]. unfold strip, solid. intros Hc. cbn [lstrip]. rewrite Hc.
  cbn [rstrip]. rewrite Hc. by destruct (rstrip s).
Qed.
Lemma parent_id_int z : z ≠ 0 → parent_id_value (PInt z) = Ok (PInt z).
Proof.
  intros Hz. unfold parent_id_value, py_or. cbn [truthy].
  rewrite (proj2 (Z.eqb_neq z 0) Hz). cbn [negb py_str py_repr].
  by rewrite strip_solid by apply pretty_solid.
Qed.

(** Readings of the clock and of [uuid4] are the only change. *)
Definition ticked (a a' : account) : Prop := ∃ c u, a' = set_ticks c u a.
Lemma ticked_refl a : ticked a a.
Proof. exists (a_clock a), (a_uuid a). by destruct a. Qed.
Lemma ticked_trans a1 a2 a3 : ticked a1 a2 → ticked a2 a3 → ticked a1 a3.
Proof. intros (c & u & ->) (c' & u' & ->). by exists c', u'. Qed.

Lemma setdefault_present k (m : AM pyval) d a :
  dhas k d = true → (∃ v a', m a = (Ok v, a') ∧ ticked a a') →
  ∃ a', setdefault_m k m d a = (Ok d, a') ∧ ticked a a'.
Proof.
  intros Hk (v & a' & E & Ht). exists a'. split; [|done].
  unfold setdefault_m. rewrite (bind_ok _ _ _ _ _ E). unfold ret. by rewrite dsetdefault_has.
Qed.

Lemma normalize_normal item a :
  normal item → ∃ a', _normalize_item item a = (Ok item, a') ∧ ticked a a'.
Proof.
  intros [Hk [n Hn] Hp [p Hpos] [st Hst] (h & Hh & Hsha) Hkey].
  assert (∀ k v, k ∈ ["id"; "kind"; "filename"; "created_at"; "updated_at"; "status"; "last_error";
                      "entity_type"; "parent_entity_type"; "purpose"] →
            dsetdefault k v item = item) as Hd by (intros k v Hin; by apply dsetdefault_has, Hk).
  unfold _normalize_item, file_content. rewrite bind_gets.
  assert (str_field "file_sha256" EmptyString item = h) as ->.
  { unfold str_field, get. rewrite Hsha. apply py_or_str_self. }
  rewrite Hh. cbn [andb].
  edestruct (setdefault_present "id" (let! u := uuid_hex in ret (PStr u)) item a) as (a1 & E1 & T1); [apply Hk; by_key| |].
  { eexists _, _. split; [reflexivity|]. eexists _, _. reflexivity. }
  rewrite (bind_ok _ _ _ _ _ E1). rewrite !Hd by by_key.
  edestruct (setdefault_present "created_at" (let! t := utc_now_iso in ret (PStr t)) item a1) as (a2 & E2 & T2); [apply Hk; by_key| |].
  { eexists _, _. split; [reflexivity|]. eexists _, _. reflexivity. }
  rewrite (bind_ok _ _ _ _ _ E2).
  edestruct (setdefault_present "updated_at"
    (if truthy (get "created_at" item) then ret (PStr (py_str (get "created_at" item)))
     else let! t := utc_now_iso in ret (PStr t)) item a2) as (a3 & E3 & T3); [apply Hk; by_key| |].
  { destruct (truthy (get "created_at" item)).
    - eexists _, _. split; [reflexivity|]. apply ticked_refl.
    - eexists _, _. split; [reflexivity|]. eexists _, _. reflexivity. }
  rewrite (bind_ok _ _ _ _ _ E3). rewrite !Hd by by_key.
  assert (int_field "attempts" item = Ok n) as ->.
  { unfold int_field, get. rewrite Hn. apply int_of_or_int. }
  unfold lift. erewrite bind_ok by reflexivity. cbv zeta.
  rewrite (dsetdefault_has "attempts") by (by eapply dget_has). rewrite !Hd by by_key.
  assert (∃ v, dget "parent_local_id" item = Some v ∧ parent_id_value v = Ok v) as (v & Hv & Ev).
  { destruct Hp as [Hp|(z & Hz & Hp)]; [by exists PNone|]. exists (PInt z). split; [done|].
    by apply parent_id_int. }
  assert (get "parent_local_id" item = v) as -> by (unfold get; by rewrite Hv).
  rewrite Ev. erewrite bind_ok by reflexivity. rewrite (dset_same _ _ _ Hv).
  assert (int_field "position" item = Ok p) as ->.
  { unfold int_field, get. rewrite Hpos. apply int_of_or_int. }
  erewrite bind_ok by reflexivity. rewrite (dset_same _ _ _ Hpos). rewrite !Hd by by_key.
  assert ((if truthy (get "storage_id" item) then py_str (get "storage_id" item) else EmptyString)
          = st) as ->.
  { unfold get. rewrite Hst. simpl. by destruct st. }
  rewrite (dset_same _ _ _ Hst), (dset_same _ _ _ Hsha), Hkey.
  eexists. split; [reflexivity|]. eapply ticked_trans; [|exact T3]. by eapply ticked_trans.
Qed.

Lemma normalize_each_normal items a :
  Forall normal items →
  ∃ a', normalize_each (map PDict items) a = (Ok items, a') ∧ ticked a a'.
Proof.
  intros Hn. revert a. induction Hn as [|x l Hx Hl IH]; intros a.
  - exists a. split; [done|apply ticked_refl].
  - cbn [map normalize_each]. destruct (normalize_normal x a Hx) as (a1 & E1 & T1).
    destruct (IH a1) as (a2 & E2 & T2). exists a2.
    rewrite (bind_ok _ _ _ _ _ E1), (bind_ok _ _ _ _ _ E2). split; [done|]. by eapply ticked_trans.
Qed.

(** ** The index *)

Definition item_key (item : pydict) : string := str_field "dedupe_key" EmptyString item.
Record index_ok (items : list pydict) (a : account) : Prop := {
  ix_file : a_upload_index a = FJson (PList (map PDict items))
            ∨ (items = [] ∧ a_upload_index a = FMissing);
  ix_normal : Forall normal items;
  ix_live : Forall (λ i, live i = true) items;
  ix_keys : NoDup (map item_key items)
}.

Lemma load_index_run items a :
  index_ok items a → ∃ a', _load_index a = (Ok items, a') ∧ ticked a a'.
Proof.
  intros [Hf Hn _ _]. unfold _load_index, read_json. rewrite bind_gets.
  destruct Hf as [Hf|[-> Hf]]; rewrite Hf.
  - by apply normalize_each_normal.
  - exists a. split; [done|apply ticked_refl].
Qed.
Lemma write_index_run items a :
  Forall normal items → Forall (λ i, live i = true) items →
  ∃ a', _write_index items a = (Ok tt, a') ∧ ∃ c u,
    a' = set_upload_index (FJson (PList (map PDict items))) (set_ticks c u a).
Proof.
  intros Hn Hl. unfold _write_index.
  destruct (normalize_each_normal items a Hn) as (a1 & E & c & u & ->).
  rewrite (bind_ok _ _ _ _ _ E). rewrite filter_all by done.
  eexists. split; [done|]. by exists c, u.
Qed.

Lemma live_same_status c :
  live c = true → terminal_status (str_field "status" "pending" c) = false.
Proof.
  unfold live. rewrite negb_true_iff. unfold str_field, py_or.
  by destruct (truthy (get "status" c)).
Qed.
Lemma live_ticked items c u a :
  index_ok items a → index_ok items (set_ticks c u a).
Proof. intros [Hf Hn Hl Hk]. by split. Qed.
Lemma index_media items m a : index_ok items a → index_ok items (set_media m a).
Proof. intros [Hf Hn Hl Hk]. by split. Qed.

Definition fresh_photo (qid src dest created updated sha : string) (offer pos : Z) : pydict :=
  [("id", PStr qid); ("kind", PStr "offer_photo"); ("filename", PStr (basename src));
   ("path", PStr dest); ("created_at", PStr created); ("updated_at", PStr updated);
   ("status", PStr (if offer <? 0 then "blocked" else "pending"));
   ("attempts", PInt 0); ("last_error", PStr EmptyString); ("entity_type", PStr "offer_photo");
   ("parent_entity_type", PStr "offer"); ("parent_local_id", PInt offer);
   ("position", PInt pos); ("purpose", PStr "offer_photo");
   ("storage_id", PStr EmptyString); ("file_sha256", PStr sha);
   ("dedupe_key", PStr (_dedupe_key "offer_photo" sha "offer" offer pos))].

Lemma fresh_photo_normal qid src dest created updated sha offer pos :
  offer ≠ 0 → str_empty sha = false →
  normal (fresh_photo qid src dest created updated sha offer pos)
  ∧ live (fresh_photo qid src dest created updated sha offer pos) = true
  ∧ item_key (fresh_photo qid src dest created updated sha offer pos)
    = _dedupe_key "offer_photo" sha "offer" offer pos
  ∧ has_queue_id qid (fresh_photo qid src dest created updated sha offer pos) = true.
Proof.
  intros Ho Hs. split_and!.
  - split.
    + intros k Hk. unfold fresh_photo. repeat (apply elem_of_cons in Hk as [->|Hk]; [done|]).
      by apply elem_of_nil in Hk.
    + by exists 0.
    + right. by exists offer.
    + by exists pos.
    + by exists EmptyString.
    + by exists sha.
    + done.
  - unfold live, str_field, get. simpl. by destruct (offer <? 0).
  - done.
  - unfold has_queue_id, str_field, get. simpl. rewrite py_or_str_self. by apply bool_decide_eq_true_2.
Qed.
(** The part of [enqueue_media] after the index is loaded, for an offer photo. *)
Definition enqueue_tail (items : list pydict) (dest qid : string) (key : string) (item : pydict)
  : AM string :=
  match List.find (λ c, bool_decide (item_key c = key)
                        && negb (terminal_status (str_field "status" "pending" c))) items with
  | Some existing =>
      do! modify (λ a, set_media (delete dest (a_media a)) a) in
      ret (str_field "id" EmptyString existing)
  | None => do! _write_index (items ++ [item]) in ret qid
  end.
Lemma enqueue_tail_spec items a dest qid key item :
  index_ok items a → normal item → live item = true → item_key item = key →
  has_queue_id qid item = true →
  ∃ qid' a' items' it,
    enqueue_tail items dest qid key item a = (Ok qid', a') ∧ index_ok items' a'
    ∧ it ∈ items' ∧ has_queue_id qid' it = true ∧ item_key it = key
    ∧ (items' = items ∨ (items' = items ++ [it] ∧ key ∉ map item_key items)).
Proof.
  intros Hix Hn Hl Hk Hq. unfold enqueue_tail. destruct (List.find _ items) as [e|] eqn:Ef.
  - apply find_some in Ef as [Hin%list_elem_of_In [Hke%bool_decide_eq_true _]%andb_true_iff].
    eexists _, _, items, e. split; [reflexivity|]. split; [by apply index_media|].
    split_and!; [done| |done|by left]. by apply bool_decide_eq_true_2.
  - assert (key ∉ map item_key items) as Hnew.
    { intros (c & -> & Hc)%elem_of_map.
      eapply find_none in Ef; [|by apply list_elem_of_In]. simpl in Ef.
      rewrite bool_decide_eq_true_2, live_same_status in Ef; [done| |done].
      by apply (proj1 (Forall_forall _ _) (ix_live _ _ Hix)). }
    destruct (write_index_run (items ++ [item]) a) as (a' & E & c & u & ->).
    { apply Forall_app. split; [apply Hix|by constructor]. }
    { apply Forall_app. split; [apply Hix|by constructor]. }
    rewrite (bind_ok _ _ _ _ _ E).
    eexists _, _, (items ++ [item]), item. split; [reflexivity|].
    split_and!; [|rewrite elem_of_app; right; left|done|done|by right].
    split; [by left|apply Forall_app; split; [apply Hix|by constructor]..|].
    rewrite map_app. apply NoDup_app. split_and!; [apply Hix| |apply NoDup_singleton].
    intros k Hin ->%list_elem_of_singleton. by rewrite Hk in Hin.
Qed.

(** ** Rewriting the parent of queued files *)

Lemma dhas_dset {V} k k' (v : V) d : dhas k d = true → dhas k (dset k' v d) = true.
Proof.
  unfold dhas. destruct (decide (k = k')) as [->|Hne]; [by rewrite dget_dset_eq|].
  by rewrite dget_dset_ne.
Qed.
Lemma normal_dset k v item :
  k ∈ ["status"; "last_error"; "updated_at"] → normal item → normal (dset k v item).
Proof.
  intros Hk [Hr Ha Hp Hpos Hst Hsha Hkey].
  assert (∀ k', k' ∉ ["status"; "last_error"; "updated_at"] → dget k' (dset k v item) = dget k' item)
    as Hne by (intros k' Hk'; apply dget_dset_ne; by intros ->).
  split; unfold get; rewrite ?Hne by by_key; try done. intros k' Hk'. by apply dhas_dset, Hr.
Qed.
Lemma normal_reparent z item :
  z ≠ 0 → normal item → normal (dset "parent_local_id" (PInt z) item).
Proof.
  intros Hz [Hr Ha Hp Hpos Hst Hsha Hkey].
  split; unfold get; rewrite ?dget_dset_eq, ?(dget_dset_ne _ "parent_local_id") by done; try done.
  - intros k' Hk'. by apply dhas_dset, Hr.
  - right. by exists z.
Qed.

(** The parent a normalised entry waits for. *)
Definition waits_for (ty : string) (old : Z) (item : pydict) : bool :=
  bool_decide (str_field "parent_entity_type" EmptyString item = ty)
  && bool_decide (int_field "parent_local_id" item = Ok old).
Lemma normal_parent_int item : normal item → ∃ z, int_field "parent_local_id" item = Ok z.
Proof.
  intros Hn. destruct (nm_parent _ Hn) as [Hp|(z & _ & Hp)]; unfold int_field, get; rewrite Hp.
  - by exists 0.
  - exists z. apply int_of_or_int.
Qed.

(** What the rewriting does to one entry. *)
Definition reparented (ty : string) (old new : Z) (i i' : pydict) : Prop :=
  item_key i' = item_key i ∧ str_field "id" EmptyString i' = str_field "id" EmptyString i ∧
  if waits_for ty old i then
    int_field "parent_local_id" i' = Ok new
    ∧ str_field "status" EmptyString i' =
        (if decide (str_field "status" EmptyString i = "blocked") then "pending"
         else str_field "status" EmptyString i)
  else i' = i.

Lemma rewrite_parent_run ty old new item a :
  normal item → live item = true → new ≠ 0 →
  ∃ i' a', rewrite_parent ty old new item a = (Ok (i', waits_for ty old item), a') ∧ ticked a a'
    ∧ normal i' ∧ live i' = true ∧ reparented ty old new item i'.
Proof.
  intros Hn Hl Hnew. unfold rewrite_parent, reparented, waits_for.
  destruct (normal_parent_int item Hn) as [z Hz]. rewrite Hz. unfold lift.
  case_decide as Ety; [|rewrite bool_decide_eq_false_2 by done; eexists _, _; split; [done|];
                        split; [apply ticked_refl|done]].
  rewrite (bool_decide_eq_true_2 (_ = ty)) by done. erewrite bind_ok by reflexivity. cbn [andb].
  destruct (Z.eqb_spec z old) as [->|Hne].
  2: { rewrite bool_decide_eq_false_2 by congruence. eexists _, _. split; [done|].
       split; [apply ticked_refl|done]. }
  rewrite bool_decide_eq_true_2 by done. cbv zeta.
  erewrite bind_ok by reflexivity. unfold ret.
  assert (str_field "status" EmptyString (dset "parent_local_id" (PInt new) item)
          = str_field "status" EmptyString item) as Hs by (unfold str_field, get; by rewrite dget_dset_ne).
  rewrite Hs. set (it0 := dset "parent_local_id" (PInt new) item) in *.
  assert (normal it0) as Hn0 by (by apply normal_reparent).
  eexists _, _. split; [done|]. split; [eexists _, _; reflexivity|].
  assert (normal (if decide (str_field "status" EmptyString item = "blocked")
                  then dset "last_error" (PStr EmptyString) (dset "status" (PStr "pending") it0)
                  else it0)) as Hn1.
  { case_decide; [|done]. apply normal_dset; [by_key|]. by apply normal_dset; [by_key|]. }
  assert (∀ k, k ∉ ["status"; "last_error"; "parent_local_id"; "updated_at"] → ∀ u,
            dget k (dset "updated_at" u (if decide (str_field "status" EmptyString item = "blocked")
                  then dset "last_error" (PStr EmptyString) (dset "status" (PStr "pending") it0)
                  else it0)) = dget k item) as Hk.
  { intros k Hk u. rewrite !not_elem_of_cons in Hk. destruct Hk as (? & ? & ? & ? & _).
    rewrite dget_dset_ne by done. case_decide; unfold it0; by rewrite !dget_dset_ne. }
  assert (∀ u, str_field "status" EmptyString (dset "updated_at" u
            (if decide (str_field "status" EmptyString item = "blocked")
             then dset "last_error" (PStr EmptyString) (dset "status" (PStr "pending") it0)
             else it0)) = if decide (str_field "status" EmptyString item = "blocked") then "pending"
                          else str_field "status" EmptyString item) as Hst.
  { intros u. unfold str_field at 1, get. rewrite dget_dset_ne by done.
    case_decide; [by rewrite dget_dset_ne, dget_dset_eq by done|]. exact Hs. }
  split_and!.
  - apply normal_dset; [by_key|done].
  - unfold live in *. rewrite Hst. by case_decide.
  - unfold item_key, str_field, get. by rewrite Hk by by_key.
  - unfold str_field, get. by rewrite Hk by by_key.
  - unfold int_field, get. rewrite dget_dset_ne by done.
    unfold it0. case_decide; [rewrite 2!dget_dset_ne by done|]; rewrite dget_dset_eq;
      apply int_of_or_int.
  - apply Hst.
Qed.

Lemma rewrite_each_run ty old new items a :
  Forall normal items → Forall (λ i, live i = true) items → new ≠ 0 →
  ∃ r a', rewrite_each ty old new items a = (Ok r, a') ∧ ticked a a'
    ∧ map snd r = map (waits_for ty old) items
    ∧ Forall normal (map fst r) ∧ Forall (λ i, live i = true) (map fst r)
    ∧ Forall2 (reparented ty old new) items (map fst r).
Proof.
  intros Hn Hl Hnew. revert a. induction Hn as [|x l Hx Hn IH]; intros a.
  - exists [], a. split; [done|]. split; [apply ticked_refl|]. by repeat constructor.
  - inversion_clear Hl as [|? ? Hlx Hll]. cbn [rewrite_each].
    destruct (rewrite_parent_run ty old new x a) as (i' & a1 & E1 & T1 & ? & ? & ?); [done..|].
    rewrite (bind_ok _ _ _ _ _ E1). destruct (IH Hll a1) as (r & a2 & E2 & T2 & Hs & ? & ? & ?).
    rewrite (bind_ok _ _ _ _ _ E2). eexists _, a2. split; [done|].
    split; [by eapply ticked_trans|]. cbn [map fst snd]. rewrite Hs.
    split_and!; [done|by constructor..].
Qed.
Lemma reparented_keys ty old new l l' :
  Forall2 (reparented ty old new) l l' → map item_key l' = map item_key l.
Proof. induction 1 as [|x y l l' (Hk & _) _ IH]; [done|]. cbn [map]. by rewrite Hk, IH. Qed.
End Upload.


(** ** Properties *)

(** A photo is queued once.  Queueing an offer photo fails only when the file is missing, and
      then changes nothing; otherwise it returns the id of the one live entry of the index for
      that offer, position and content: the entry already there, the index staying as it was, or
      a new entry at its end.  Keys stay unique, and every entry keeps its normalised form. *)
Theorem photo_queued_once `{Oracle, !ShaOk} root offer src pos items a :
  index_ok items a → offer ≠ 0 →
  ∃ items', index_ok items' (enqueue_offer_photo_upload root offer src pos a).2
    ∧ match (enqueue_offer_photo_upload root offer src pos a).1, a_media a !! src with
      | Ok qid, Some content =>
          let key := _dedupe_key "offer_photo" (sha256 content) "offer" offer pos in
          ∃ it, it ∈ items' ∧ has_queue_id qid it = true ∧ item_key it = key
            ∧ (items' = items ∨ (items' = items ++ [it] ∧ key ∉ map item_key items))
      | Err _, None => items' = items
      | _, _ => False
      end.
Proof.
  intros Hix Ho. unfold enqueue_offer_photo_upload, enqueue_media, file_content.
  rewrite bind_gets. destruct (a_media a !! src) as [content|] eqn:Esrc; [|by exists items].
  set (key := _dedupe_key "offer_photo" (sha256 content) "offer" offer pos).
  do 4 (erewrite bind_ok by reflexivity). cbv zeta. cbn [default].
  match goal with |- context [bind _load_index _ ?st] => set (a1 := st) end.
  assert (index_ok items a1) as Hix1 by (destruct Hix; by split).
  destruct (load_index_run items a1 Hix1) as (a2 & E2 & c & u & ->).
  rewrite (bind_ok _ _ _ _ _ E2).
  edestruct (fresh_photo_normal (uuid4 (a_uuid a)) src
    (root +:+ "/" +:+ uuid4 (a_uuid a) +:+ "_" +:+ basename src)) as (Hn & Hl & Hk & Hq);
    [exact Ho|apply sha_nonempty|].
  edestruct (enqueue_tail_spec items (set_ticks c u a1)
    (root +:+ "/" +:+ uuid4 (a_uuid a) +:+ "_" +:+ basename src))
    as (qid' & a' & items' & it & E & Hix' & Hit); [by apply live_ticked|exact Hn|exact Hl|exact Hk|exact Hq|].
  exists items'.
  match goal with |- index_ok _ (?x).2 ∧ _ =>
    replace x with (Ok (A:=string) qid', a') by (symmetry; exact E) end.
  split; [exact Hix'|]. by exists it.
Qed.

(** When an entity receives its server id, [rewrite_media_parent_refs] retargets exactly the
    queued files that wait for its local id, keeping their ids and keys, moves the blocked ones
    to pending so that they can be sent, leaves the other entries as they are, and returns how
    many it changed. *)
Theorem media_parents_rewritten `{Oracle} ty old new items a :
  index_ok items a → new ≠ 0 →
  ∃ items' a',
    rewrite_media_parent_refs ty old new a
      = (Ok (Z.of_nat (length (List.filter (waits_for ty old) items))), a')
    ∧ index_ok items' a' ∧ Forall2 (reparented ty old new) items items'.
Proof.
  intros Hix Hnew. unfold rewrite_media_parent_refs.
  destruct (load_index_run items a Hix) as (a1 & E1 & T1). rewrite (bind_ok _ _ _ _ _ E1).
  destruct (rewrite_each_run ty old new items a1) as (r & a2 & E2 & T2 & Hs & Hn & Hl & H2);
    [apply Hix..|done|].
  rewrite (bind_ok _ _ _ _ _ E2).
  destruct (write_index_run (map fst r) a2 Hn Hl) as (a3 & E3 & c & u & ->).
  rewrite (bind_ok _ _ _ _ _ E3). unfold ret. exists (map fst r). eexists. split; [|split].
  - do 3 f_equal. by rewrite (length_filter_map snd), Hs, (length_filter_map (waits_for ty old)).
  - split; [by left|done..|]. rewrite (reparented_keys ty old new items); [apply Hix|done].
  - done.
Qed.

(** ** Witnesses *)

Definition demo_photo_account : account :=
  set_media {["/tmp/p.jpg" := "bytes"]} empty_account.
Lemma demo_index_ok : index_ok [] demo_photo_account.
Proof. split; [by right|constructor..]. Qed.
Lemma photo_queued_once_witness :
  ∃ items', index_ok items' (@enqueue_offer_photo_upload demo_oracle "q" (-2) "/tmp/p.jpg" 0
                               demo_photo_account).2
    ∧ ∃ qid, (@enqueue_offer_photo_upload demo_oracle "q" (-2) "/tmp/p.jpg" 0
                demo_photo_account).1 = Ok qid
    ∧ ∃ it, it ∈ items' ∧ has_queue_id qid it = true
      ∧ item_key it = _dedupe_key "offer_photo" "hbytes" "offer" (-2) 0.
Proof.
  destruct (@photo_queued_once demo_oracle demo_sha_ok "q" (-2) "/tmp/p.jpg" 0 []
              demo_photo_account demo_index_ok ltac:(done)) as (items' & Hix & Hm).
  exists items'. split; [exact Hix|].
  change (a_media demo_photo_account !! "/tmp/p.jpg") with (Some "bytes") in Hm.
  destruct (_.1) as [qid|e]; [|done]. exists qid. split; [reflexivity|].
  destruct Hm as (it & H1 & H2 & H3 & _). by exists it.
Defined.

Definition demo_photo : pydict :=
  fresh_photo "i1" "/tmp/p.jpg" "q/i1_p.jpg" "T1" "T2" "hbytes" (-2) 0.
Lemma media_parents_rewritten_witness :
  ∃ items' a',
    @rewrite_media_parent_refs demo_oracle "offer" (-2) 40
      (set_upload_index (FJson (PList [PDict demo_photo])) empty_account)
      = (Ok 1, a')
    ∧ index_ok items' a' ∧ Forall2 (reparented "offer" (-2) 40) [demo_photo] items'.
Proof.
  apply (@media_parents_rewritten demo_oracle "offer" (-2) 40 [demo_photo]).
  - edestruct (fresh_photo_normal "i1" "/tmp/p.jpg" "q/i1_p.jpg" "T1" "T2" "hbytes" (-2) 0)
      as (Hn & Hl & _); [done..|].
    split; [by left|by constructor|by constructor|apply NoDup_singleton].
  - done.
Defined.
