(* ===== verification/ApiClient.v ===== *)
(** * The HTTP client and its circuit breaker

    Models src/app/services/api_client_circuit.py, the error texts of api_client_utils.py and
    the request path of api_client.py ([_send_request]).  The network, the monotonic clock
    and the token provider are parameters: each exchange has an arbitrary outcome. *)

From S2P Require Import Prelude PyValue OfflineTypes OfflineStore.
From Stdlib Require Import Ascii.
Local Open Scope Z_scope.

Record request := mkReq {
  rq_method : string;
  rq_path : string;
  rq_params : pydict;
  rq_body : pydict;
  rq_headers : list (string * string);
  rq_guard : bool
}.

(** What other components need of the client: a request is answered or an exception raised,
    and the client's own state [C] advances. *)
Class Sender (C : Type) := send_request : request → M C pyval.

(** A reply: its status, its text, and its JSON value when the text parses. *)
Record response := mkResp { rs_status : Z; rs_text : string; rs_json : option pyval }.
Inductive outcome : Type := Failed (msg : string) | Reply (r : response).

Class Net := {
  (** The outcome of the last request of a non-empty list of requests sent so far. *)
  exchange_outcome : list request → outcome;
  monotonic : nat → Z;
  access_token : nat → option string;
  api_base_url : option string;
  api_schema : string;
  api_username : bool;
  offline_mode : bool;
  reset_period : Z
}.

Inductive cb_phase : Type := Closed | Open | HalfOpen.
#[export] Instance cb_phase_eq_dec : EqDecision cb_phase.
Proof. solve_decision. Defined.

Definition is_open (st : cb_phase) : bool := match st with Open => true | _ => false end.
Definition is_half_open (st : cb_phase) : bool := match st with HalfOpen => true | _ => false end.

Record client := mkClient {
  cl_failures : Z;
  cl_open_until : Z;
  cl_state : cb_phase;
  cl_probe_inflight : bool;
  cl_sent : list request;
  cl_time : nat;
  cl_tokens : nat
}.
Definition set_circuit f u st p c := mkClient f u st p (cl_sent c) (cl_time c) (cl_tokens c).
Definition tick c := mkClient (cl_failures c) (cl_open_until c) (cl_state c) (cl_probe_inflight c)
  (cl_sent c) (S (cl_time c)) (cl_tokens c).

Abbreviation CM := (M client).

(** ** Error texts *)

Definition str_lower_has (needle s : string) : bool :=
  bool_decide (is_Some (String.index 0 needle (lower s))).

(** [re.sub(r"<[^>]+>", " ", s)] *)
Fixpoint until_gt (fuel : nat) (s : string) : option (string * string) :=
  match fuel, s with
  | S f, String c s' =>
      if (code c =? 62)%N then Some (EmptyString, s')
      else (λ '(b, r), (String c b, r)) <$> until_gt f s'
  | _, _ => None
  end.
Fixpoint strip_tags (fuel : nat) (s : string) : string :=
  match fuel, s with
  | S f, String c s' =>
      if (code c =? 60)%N then
        match until_gt (S (String.length s')) s' with
        | Some (String _ _, rest) => String " " (strip_tags f rest)
        | _ => String c (strip_tags f s')
        end
      else String c (strip_tags f s')
  | _, _ => EmptyString
  end.
(** The group of [re.search(r"<title>(.*?)</title>", s, IGNORECASE | DOTALL)]. *)
Definition title_text (s : string) : option string :=
  match String.index 0 "<title>" (lower s) with
  | Some i =>
      let rest := String.substring (i + 7) (String.length s) s in
      match String.index 0 "</title>" (lower rest) with
      | Some j => Some (String.substring 0 j rest)
      | None => None
      end
  | None => None
  end.
(** [re.sub(r"\s+", " ", s)] *)
Fixpoint squeeze (in_space : bool) (s : string) : string :=
  match s with
  | EmptyString => EmptyString
  | String c s' =>
      if is_space c then (if in_space then squeeze true s' else String " " (squeeze true s'))
      else String c (squeeze false s')
  end.

(* src/app/services/api_client_utils.py :: compact_error_text *)
Definition compact_error_text (max_len : nat) (text : string) : string :=
  let raw := strip text in
  if str_empty raw then EmptyString
  else
    let raw := if str_lower_has "<html" raw || str_lower_has "<!doctype html" raw
               then match title_text raw with
                    | Some t => t
                    | None => strip_tags (S (String.length raw)) raw
                    end
               else raw in
    let raw := strip (squeeze false raw) in
    if (String.length raw <=? max_len)%nat then raw
    else rstrip (String.substring 0 max_len raw) +:+ "...".

Fixpoint first_text (keys : list string) (d : pydict) : option string :=
  match keys with
  | [] => None
  | k :: ks => match get k d with
               | PStr s => if str_empty (strip s) then first_text ks d else Some s
               | _ => first_text ks d
               end
  end.
Definition not_none (v : pyval) : bool := match v with PNone => false | _ => true end.
Fixpoint error_parts (d : pydict) : list string :=
  match d with
  | [] => []
  | (_, PNone) :: d' => error_parts d'
  | (k, v) :: d' =>
      let msg := match v with
                 | PList l => join ", " (map py_str (List.filter not_none l))
                 | PDict n => join ", " (map (λ '(nk, nv), nk +:+ ": " +:+ py_str nv) n)
                 | _ => py_str v
                 end in
      if str_empty msg then error_parts d' else (k +:+ ": " +:+ msg) :: error_parts d'
  end.

(* src/app/services/api_client_utils.py :: format_error_payload *)
Definition format_error_payload (payload : pyval) (fallback : string) : string :=
  match payload with
  | PDict d =>
      match first_text ["detail"; "error"; "message"; "error_message"] d with
      | Some s => s
      | None => match error_parts d with [] => fallback | parts => join "; " parts end
      end
  | PList l => join "; " (map py_str (List.filter not_none l))
  | PStr s => if str_empty (strip s) then fallback else s
  | _ => fallback
  end.

(* src/app/services/api_client.py :: _parse_error_response *)
Definition _parse_error_response (r : response) : string * pyval :=
  match rs_json r with
  | None => (compact_error_text 280 (rs_text r), PNone)
  | Some payload => (format_error_payload payload (rs_text r), payload)
  end.
Definition api_error (r : response) : exn := ApiError (rs_status r) (_parse_error_response r).1.

(** ** The circuit breaker *)

(* src/app/services/api_client_circuit.py :: _CB_FAILURE_THRESHOLD *)
Definition _CB_FAILURE_THRESHOLD : Z := 3.
(* src/app/services/api_client_circuit.py :: _RETRY_ATTEMPTS *)
Definition _RETRY_ATTEMPTS : nat := 3.

(* src/app/services/api_client_circuit.py :: should_retry_status *)
Definition should_retry_status (status_code : Z) : bool :=
  bool_decide (status_code ∈ [429; 502; 503; 504]).

(* src/app/services/api_client_circuit.py :: should_trip_circuit *)
Definition should_trip_circuit (status_code : Z) (payload : pyval) : bool :=
  if negb (should_retry_status status_code) then false
  else match payload with
       | PDict d =>
           if status_code =? 503 then
             let c := upper (strip (str_field "code" EmptyString d)) in
             negb (bool_decide (c ∈ ["REGISTRATION_UNAVAILABLE"; "EMAIL_QUEUE_UNAVAILABLE"]))
           else true
       | _ => true
       end.

Section Client.
Context `{Net}.

Definition now_m : CM Z := λ c, (Ok (monotonic (cl_time c)), tick c).

(* src/app/services/api_client_circuit.py :: circuit_check *)
Definition circuit_check : CM unit :=
  let! now := now_m in
  let! c := gets id in
  do! (if is_open (cl_state c) then
         if now <? cl_open_until c then
           raise (RuntimeError "API temporarily unavailable (circuit open)")
         else modify (set_circuit (cl_failures c) (cl_open_until c) HalfOpen (cl_probe_inflight c))
       else ret tt) in
  let! c := gets id in
  if is_half_open (cl_state c) then
    if cl_probe_inflight c then raise (RuntimeError "API temporarily unavailable (circuit half-open)")
    else modify (set_circuit (cl_failures c) (cl_open_until c) HalfOpen true)
  else ret tt.

(* src/app/services/api_client_circuit.py :: record_api_success *)
Definition record_api_success : CM unit := modify (set_circuit 0 0 Closed false).

(* src/app/services/api_client_circuit.py :: reset_api_circuit *)
Definition reset_api_circuit : CM unit := record_api_success.

(* src/app/services/api_client_circuit.py :: record_api_failure *)
Definition record_api_failure : CM unit :=
  let! now := now_m in
  modify (λ c,
    if is_half_open (cl_state c) then
      set_circuit _CB_FAILURE_THRESHOLD (now + reset_period) Open false c
    else
      let failures := cl_failures c + 1 in
      if _CB_FAILURE_THRESHOLD <=? failures then
        set_circuit failures (now + reset_period) Open (cl_probe_inflight c) c
      else set_circuit failures (cl_open_until c) (cl_state c) (cl_probe_inflight c) c).

(** ** Requests *)

Definition exchange (rq : request) : CM outcome :=
  λ c, let sent := cl_sent c ++ [rq] in
       (Ok (exchange_outcome sent),
        mkClient (cl_failures c) (cl_open_until c) (cl_state c) (cl_probe_inflight c) sent
          (cl_time c) (cl_tokens c)).
Definition get_token : CM (option string) :=
  λ c, (Ok (access_token (cl_tokens c)),
        mkClient (cl_failures c) (cl_open_until c) (cl_state c) (cl_probe_inflight c) (cl_sent c)
          (cl_time c) (S (cl_tokens c))).
Definition token_ok (t : option string) : option string :=
  match t with Some s => if str_empty s then None else Some s | None => None end.

(* src/app/services/api_client_utils.py :: build_url *)
Definition build_url (path : string) : res string :=
  match api_base_url with
  | Some base =>
      if str_empty base then Err (RuntimeError "API base URL is not configured")
      else
        let route := if String.prefix "/" path then path else "/" +:+ path in
        let route := "/api/v1" +:+ route in
        let n := String.length route in
        Ok (base +:+ (if bool_decide (String.substring (n - 1) 1 route = "/") then route
                      else route +:+ "/"))
  | None => Err (RuntimeError "API base URL is not configured")
  end.

(* src/app/services/api_client.py :: _build_request_headers *)
Definition _build_request_headers (headers : list (string * string)) : CM (list (string * string)) :=
  let! token := get_token in
  let h := [("Accept", "application/json")] in
  let h := match token_ok token with
           | Some t => dset "Authorization" ("Bearer " +:+ t) h
           | None => h
           end in
  let h := if str_empty api_schema then h else dset "X-Immoapp-Schema" api_schema h in
  ret (dupdate h headers).

Definition with_headers (url : string) (h : list (string * string)) (rq : request) : request :=
  mkReq (rq_method rq) url (rq_params rq) (rq_body rq) h (rq_guard rq).

(** The reply after the one re-authentication of an attempt; the headers stay changed. *)
Definition reauthenticate (rq : request) (r : response) : CM (request * response) :=
  if (rs_status r =? 401) && api_username then
    let! token := get_token in
    match token_ok token with
    | None => raise (api_error r)
    | Some t =>
        let rq' := with_headers (rq_path rq)
                     (dset "Authorization" ("Bearer " +:+ t) (rq_headers rq)) rq in
        let! out := exchange rq' in
        match out with
        | Failed msg => raise (OtherError msg)
        | Reply r' => ret (rq', r')
        end
    end
  else ret (rq, r).

(** The attempts of [_send_request], [n] of them left. *)
(* src/app/services/api_client.py :: _send_request [134-187] *)
Fixpoint send_attempts (n : nat) (rq : request) : CM response :=
  match n with
  | O => raise (RuntimeError "API request failed: no response")
  | S n' =>
      let! out := exchange rq in
      match out with
      | Failed msg =>
          do! record_api_failure in
          match n' with
          | O => raise (RuntimeError ("API request failed: " +:+ msg))
          | S _ => send_attempts n' rq
          end
      | Reply r0 =>
          let! (rq', r) := reauthenticate rq r0 in
          if (400 <=? rs_status r) && should_retry_status (rs_status r) then
            do! (if should_trip_circuit (rs_status r) (_parse_error_response r).2
                 then record_api_failure else ret tt) in
            match n' with
            | O => raise (api_error r)
            | S _ => send_attempts n' rq'
            end
          else if 400 <=? rs_status r then raise (api_error r)
          else do! record_api_success in ret r
      end
  end.

Definition reply_value (r : response) : pyval :=
  if str_empty (rs_text r) then PNone
  else match rs_json r with Some v => v | None => PStr (rs_text r) end.

(* src/app/services/api_client.py :: _send_request *)
Definition _send_request (rq : request) : CM pyval :=
  if rq_guard rq && offline_mode then
    raise (RuntimeError "Offline mode enabled: API requests are disabled.")
  else
    let! url := lift (build_url (rq_path rq)) in
    let! h := _build_request_headers (rq_headers rq) in
    do! circuit_check in
    let! r := send_attempts _RETRY_ATTEMPTS (with_headers url h rq) in
    ret (reply_value r).

#[export] Instance client_sender : Sender client := _send_request.

(* src/app/services/api_client.py :: _should_queue_mutation_error *)
Definition _should_queue_mutation_error (e : exn) : bool :=
  match e with
  | ApiError code _ => should_retry_status code
  | RuntimeError _ => true
  | _ => false
  end.

(* src/app/services/api_client_circuit.py :: get_api_circuit_snapshot *)
Definition get_api_circuit_snapshot : CM (cb_phase * Z * Z * bool) :=
  let! now := now_m in
  let! c := gets id in
  ret (cl_state c, cl_failures c,
       (if is_open (cl_state c) && (now <? cl_open_until c) then cl_open_until c - now
        else 0),
       cl_probe_inflight c).
End Client.
