(* ===== verification/ApiClientProps.v ===== *)
(** * The circuit breaker protects the server, and retries repeat the same request *)

From S2P Require Import Prelude PyValue OfflineTypes OfflineStore ApiClient.
Local Open Scope Z_scope.

Section Circuit.
Context `{Net}.

(** The phases and their counters agree. *)
Record cb_inv (c : client) : Prop := {
  cb_probe : cl_probe_inflight c = true ↔ cl_state c = HalfOpen;
  cb_nonneg : 0 <= cl_failures c;
  cb_closed : cl_state c = Closed → cl_failures c < _CB_FAILURE_THRESHOLD;
  cb_open : cl_state c = Open → _CB_FAILURE_THRESHOLD <= cl_failures c
}.
Definition initial_client : client := mkClient 0 0 Closed false [] 0 0.

Lemma initial_inv : cb_inv initial_client.
Proof. by split. Qed.

(** [step c c']: the breaker moved, nothing was sent. *)
Definition quiet (c c' : client) : Prop := cl_sent c' = cl_sent c.

Lemma circuit_check_cases c r c' :
  cb_inv c → circuit_check c = (r, c') →
  cb_inv c' ∧ quiet c c' ∧
  match r with
  | Ok _ => (cl_state c = Closed ∧ cl_state c' = Closed ∧ cl_failures c' = cl_failures c)
            ∨ (cl_state c = Open ∧ cl_open_until c <= monotonic (cl_time c) ∧ cl_state c' = HalfOpen)
  | Err e => (∃ m, e = RuntimeError m) ∧ cl_state c' = cl_state c ∧ cl_state c ≠ Closed
             ∧ cl_open_until c' = cl_open_until c
  end.
Proof.
  intros [Hp Hn Hc Ho]. unfold circuit_check, now_m, bind, gets, modify, ret, raise, id, tick, set_circuit.
  destruct c as [f u st p sent t k]; cbn in *. unfold quiet.
  destruct st; cbn.
  - intros [= <- <-]. split_and!; [by split|done|]. by left.
  - destruct (Z.ltb_spec (monotonic t) u) as [L|L]; cbn.
    + intros [= <- <-]. split_and!; [by split|done|eauto|done..].
    + destruct p; cbn.
      * exfalso. by destruct Hp as [Hp _]; specialize (Hp eq_refl).
      * intros [= <- <-]. split_and!; [|done|by right]. by split.
  - destruct p; cbn.
    + intros [= <- <-]. split_and!; [by split|done|eauto|done..].
    + exfalso. destruct Hp as [_ Hp]. by specialize (Hp eq_refl).
Qed.
Lemma record_failure_inv c :
  cb_inv c → ∃ c', record_api_failure c = (Ok tt, c') ∧ cb_inv c' ∧ quiet c c'
    ∧ cl_failures c' = (if is_half_open (cl_state c) then _CB_FAILURE_THRESHOLD
                        else cl_failures c + 1)
    ∧ (cl_state c ≠ Closed ∨ _CB_FAILURE_THRESHOLD <= cl_failures c + 1 →
         cl_state c' = Open ∧ cl_open_until c' = monotonic (cl_time c) + reset_period)
    ∧ (cl_state c = Closed → cl_failures c + 1 < _CB_FAILURE_THRESHOLD → cl_state c' = Closed)
    ∧ cl_time c' = S (cl_time c).
Proof.
  intros [Hp Hn Hc Ho]. unfold record_api_failure, now_m, bind, modify, tick, set_circuit, quiet.
  eexists. split; [done|]. destruct c as [f u st p sent t k]; cbn in *.
  unfold _CB_FAILURE_THRESHOLD in *.
  destruct st; cbn;
    [destruct (Z.leb_spec 3 (f + 1))
    |pose proof (Ho eq_refl); destruct (Z.leb_spec 3 (f + 1)); [|lia]|]; cbn;
    (split; [split; cbn; try done; try lia; try tauto; try (intros; lia);
             try (split; [by intros ?%Hp|done])|]).
  all: split_and!; try done; try (intros; lia).
  all: intros [Hs|Hs]; (done || (by destruct Hs) || lia).
Qed.
Lemma record_success_inv c :
  ∃ c', record_api_success c = (Ok tt, c') ∧ cb_inv c' ∧ quiet c c' ∧ cl_state c' = Closed
        ∧ cl_failures c' = 0.
Proof. eexists. split; [done|]. unfold quiet. split_and!; [|done..]. by split. Qed.

(** ** What [_send_request] sends *)

(** [q] repeats [rq]: same method, parameters and body, and the same headers except possibly
    a renewed authorization. *)
Record repeats (rq q : request) : Prop := {
  rp_method : rq_method q = rq_method rq;
  rp_path : rq_path q = rq_path rq;
  rp_params : rq_params q = rq_params rq;
  rp_body : rq_body q = rq_body rq;
  rp_headers : ∀ k, k ≠ "Authorization" → dget k (rq_headers q) = dget k (rq_headers rq)
}.
Lemma repeats_refl rq : repeats rq rq.
Proof. by split. Qed.
Lemma repeats_trans a b c : repeats a b → repeats b c → repeats a c.
Proof. intros [] []. split; try congruence. intros k Hk. rewrite rp_headers1 by done. auto. Qed.
Lemma repeats_auth rq t :
  repeats rq (with_headers (rq_path rq) (dset "Authorization" t (rq_headers rq)) rq).
Proof. split; try done. intros k Hk. simpl. by apply dget_dset_ne. Qed.

(** The new requests of a run: at most [n] of them, each repeating [rq]. *)
Definition sends (n : nat) (rq : request) (c c' : client) : Prop :=
  ∃ new, cl_sent c' = cl_sent c ++ new ∧ (length new ≤ n)%nat ∧ Forall (repeats rq) new.
Lemma sends_quiet rq c c' : quiet c c' → sends 0 rq c c'.
Proof. intros E. exists []. by rewrite app_nil_r. Qed.
Lemma sends_trans n1 n2 n rq c1 c2 c3 :
  sends n1 rq c1 c2 → sends n2 rq c2 c3 → (n1 + n2 ≤ n)%nat → sends n rq c1 c3.
Proof.
  intros (l1 & E1 & H1 & F1) (l2 & E2 & H2 & F2) Hn. exists (l1 ++ l2).
  rewrite E2, E1, (assoc_L (++)), length_app. split_and!; [done|lia|by apply Forall_app].
Qed.
Lemma sends_repeats n rq rq' c c' : repeats rq rq' → sends n rq' c c' → sends n rq c c'.
Proof.
  intros Hr (l & E & Hl & F). exists l. split_and!; [done..|].
  eapply List.Forall_impl; [|exact F]. intros q. by apply repeats_trans.
Qed.

(** The breaker's fields of two clients agree. *)
Definition same_circuit (c c' : client) : Prop :=
  cl_failures c' = cl_failures c ∧ cl_open_until c' = cl_open_until c ∧ cl_state c' = cl_state c
  ∧ cl_probe_inflight c' = cl_probe_inflight c.
Lemma same_circuit_inv c c' : same_circuit c c' → cb_inv c → cb_inv c'.
Proof. intros (Ef & _ & Es & Ep) [? ? ? ?]. split; rewrite ?Ef, ?Es, ?Ep; done. Qed.

Lemma exchange_run rq c :
  ∃ o c', exchange rq c = (Ok o, c') ∧ sends 1 rq c c' ∧ same_circuit c c'
          ∧ o = exchange_outcome (cl_sent c ++ [rq]) ∧ cl_time c' = cl_time c.
Proof.
  eexists _, _. split; [done|]. split; [|done]. exists [rq]. split_and!; [done|simpl; lia|].
  constructor; [apply repeats_refl|done].
Qed.

Lemma reauthenticate_run rq r c r1 c1 :
  reauthenticate rq r c = (r1, c1) → sends 1 rq c c1 ∧ same_circuit c c1 ∧
  match r1 with Ok (rq', _) => repeats rq rq' | Err _ => True end.
Proof.
  unfold reauthenticate. destruct ((rs_status r =? 401) && api_username).
  - unfold get_token, bind. cbn. destruct (token_ok _) as [t|]; cbn.
    + pose proof (repeats_auth rq ("Bearer " +:+ t)) as Hr.
      assert (∀ k, sends 1 rq c (mkClient (cl_failures c) (cl_open_until c) (cl_state c)
                (cl_probe_inflight c) (cl_sent c ++ [with_headers (rq_path rq)
                  (dset "Authorization" ("Bearer " +:+ t) (rq_headers rq)) rq]) (cl_time c) k)).
      { intros k. eexists. split_and!; [done|simpl; lia|by constructor]. }
      destruct (exchange_outcome _); intros [= <- <-]; by split_and!.
    + intros [= <- <-]. split_and!; [|done..]. exists []. rewrite app_nil_r. split_and!; [done|simpl; lia|done].
  - intros [= <- <-]. split_and!; [|done..|apply repeats_refl].
    exists []. rewrite app_nil_r. split_and!; [done|simpl; lia|done].
Qed.

(** One recorded failure, or none. *)
Lemma maybe_failure (b : bool) c :
  cb_inv c →
  ∃ c', (if b then record_api_failure else ret tt) c = (Ok tt, c') ∧ cb_inv c' ∧ quiet c c'.
Proof.
  intros Hi. destruct b.
  - destruct (record_failure_inv c Hi) as (c' & E & Hi' & Hq & _). eauto.
  - exists c. by unfold quiet.
Qed.

Lemma send_attempts_run n rq c r c' :
  send_attempts n rq c = (r, c') → cb_inv c →
  cb_inv c' ∧ sends (2 * n) rq c c' ∧
  match r with
  | Ok resp => cl_state c' = Closed ∧ cl_failures c' = 0 ∧ rs_status resp < 400
  | Err _ => True
  end.
Proof.
  revert rq c. induction n as [|n IH]; intros rq c.
  { intros [= <- <-] Hi. split_and!; [done| |done]. by apply sends_quiet. }
  cbn [send_attempts]. intros E Hi.
  destruct (exchange_run rq c) as (o & c1 & E1 & S1 & C1 & _).
  rewrite (bind_ok _ _ _ _ _ E1) in E. pose proof (same_circuit_inv _ _ C1 Hi) as Hi1.
  destruct o as [msg|r0].
  - destruct (record_failure_inv c1 Hi1) as (c2 & E2 & Hi2 & Q2 & _).
    rewrite (bind_ok _ _ _ _ _ E2) in E.
    assert (sends 1 rq c c2) as S2.
    { eapply sends_trans; [exact S1|by apply sends_quiet|lia]. }
    destruct n as [|n].
    + injection E as <- <-. split_and!; [done| |done]. eapply sends_trans; [exact S2| |].
      { apply (sends_quiet rq c2 c2). done. } lia.
    + destruct (IH rq c2 E Hi2) as (Hi' & S' & Hr). split_and!; [done| |done].
      eapply sends_trans; [exact S2|exact S'|lia].
  - destruct (reauthenticate rq r0 c1) as [[[rq' r1]|e] c2] eqn:E2;
      destruct (reauthenticate_run _ _ _ _ _ E2) as (S2 & C2 & Hr2);
      pose proof (same_circuit_inv _ _ C2 Hi1) as Hi2;
      (assert (sends 2 rq c c2) as S12 by (eapply sends_trans; [exact S1|exact S2|lia])).
    2: { rewrite (bind_err _ _ _ _ _ E2) in E. injection E as <- <-. split_and!; [done| |done].
         eapply sends_trans; [exact S12|apply (sends_quiet rq c2 c2); done|lia]. }
    rewrite (bind_ok _ _ _ _ _ E2) in E. cbn beta iota in E.
    destruct ((400 <=? rs_status r1) && should_retry_status (rs_status r1)).
    + destruct (maybe_failure (should_trip_circuit (rs_status r1) (_parse_error_response r1).2) c2 Hi2)
        as (c3 & E3 & Hi3 & Q3).
      rewrite (bind_ok _ _ _ _ _ E3) in E.
      assert (sends 2 rq c c3) as S3 by (eapply sends_trans; [exact S12|by apply sends_quiet|lia]).
      destruct n as [|n].
      * injection E as <- <-. split_and!; [done| |done].
        eapply sends_trans; [exact S3|apply (sends_quiet rq c3 c3); done|lia].
      * destruct (IH rq' c3 E Hi3) as (Hi' & S' & Hr). split_and!; [done| |done].
        eapply sends_trans; [exact S3|by eapply sends_repeats|lia].
    + destruct (Z.leb_spec 400 (rs_status r1)) as [L|L].
      * injection E as <- <-. split_and!; [done| |done].
        eapply sends_trans; [exact S12|apply (sends_quiet rq c2 c2); done|lia].
      * destruct (record_success_inv c2) as (c3 & E3 & Hi3 & Q3 & Hs & Hf).
        rewrite (bind_ok _ _ _ _ _ E3) in E. injection E as <- <-. split_and!; [done| |done..].
        eapply sends_trans; [exact S12|by apply sends_quiet|lia].
Qed.

(** What the server receives of a caller's request: its method, parameters, body and headers. *)
Definition carries (rq q : request) : Prop :=
  rq_method q = rq_method rq ∧ rq_params q = rq_params rq ∧ rq_body q = rq_body rq
  ∧ ∀ k v, k ≠ "Authorization" → dget k (rq_headers rq) = Some v → dget k (rq_headers q) = Some v.

Lemma build_headers_run hs c :
  NoDup (dkeys hs) →
  ∃ h c', _build_request_headers hs c = (Ok h, c') ∧ same_circuit c c' ∧ quiet c c'
    ∧ (∀ k v, dget k hs = Some v → dget k h = Some v) ∧ cl_time c' = cl_time c.
Proof.
  intros Hnd. eexists _, _. split; [done|]. split_and!; [done..| |done].
  intros k v Hk. rewrite dget_dupdate by done. by rewrite Hk.
Qed.
Lemma send_request_run rq c r c' :
  cb_inv c → NoDup (dkeys (rq_headers rq)) → _send_request rq c = (r, c') →
  cb_inv c' ∧ ∃ new, cl_sent c' = cl_sent c ++ new ∧ (length new ≤ 6)%nat ∧ Forall (carries rq) new
  ∧ (rq_guard rq && offline_mode = true → new = [])
  ∧ match r with Ok _ => cl_state c' = Closed ∧ cl_failures c' = 0 | Err _ => True end.
Proof.
  intros Hi Hnd. unfold _send_request. destruct (rq_guard rq && offline_mode).
  { intros [= <- <-]. split; [done|]. exists []. rewrite app_nil_r. split_and!; try done. simpl. lia. }
  unfold lift. destruct (build_url (rq_path rq)) as [url|e].
  2: { intros [= <- <-]. split; [done|]. exists []. rewrite app_nil_r. split_and!; try done. simpl. lia. }
  erewrite bind_ok by reflexivity.
  destruct (build_headers_run (rq_headers rq) c Hnd) as (h & c1 & E1 & C1 & Q1 & Hh & _).
  rewrite (bind_ok _ _ _ _ _ E1). pose proof (same_circuit_inv _ _ C1 Hi) as Hi1.
  destruct (circuit_check c1) as [[[]|e] c2] eqn:E2;
    destruct (circuit_check_cases _ _ _ Hi1 E2) as (Hi2 & Q2 & _).
  2: { rewrite (bind_err _ _ _ _ _ E2). intros [= <- <-]. split; [done|]. exists [].
       rewrite app_nil_r, Q2, Q1. split_and!; try done. simpl. lia. }
  rewrite (bind_ok _ _ _ _ _ E2).
  destruct (send_attempts _RETRY_ATTEMPTS (with_headers url h rq) c2) as [r3 c3] eqn:E3.
  destruct (send_attempts_run _ _ _ _ _ E3 Hi2) as (Hi3 & (new & En & Hl & HF) & Hr3).
  assert (Forall (carries rq) new) as Hc.
  { eapply List.Forall_impl; [|exact HF]. intros q [Hm _ Hp Hb Hk]. split_and!; [done..|].
    intros k v Hne Hv. rewrite Hk by done. simpl. auto. }
  assert (length new ≤ 6)%nat as Hl6 by exact Hl.
  destruct r3 as [resp|e].
  - rewrite (bind_ok _ _ _ _ _ E3). intros [= <- <-]. split; [done|]. exists new.
    rewrite En, Q2, Q1. split_and!; try done; by destruct Hr3 as (? & ? & _).
  - rewrite (bind_err _ _ _ _ _ E3). intros [= <- <-]. split; [done|]. exists new.
    rewrite En, Q2, Q1. by split_and!.
Qed.

(** ** The open breaker *)

Definition usable (rq : request) : Prop :=
  rq_guard rq && offline_mode = false ∧ ∃ url, build_url (rq_path rq) = Ok url.

Lemma blocked_request rq c e c2 :
  usable rq →
  (∀ c1, same_circuit c c1 → cl_time c1 = cl_time c → cl_sent c1 = cl_sent c →
         ∃ c2', circuit_check c1 = (Err e, c2') ∧ same_circuit c c2' ∧ cl_sent c2' = cl_sent c) →
  (_send_request rq c).2 = c2 →
  (_send_request rq c).1 = Err e ∧ same_circuit c c2 ∧ cl_sent c2 = cl_sent c.
Proof.
  intros [Hg [url Hu]] Hchk. unfold _send_request. rewrite Hg. unfold lift. rewrite Hu.
  erewrite bind_ok by reflexivity.
  unfold _build_request_headers, get_token. 
  erewrite bind_ok by (erewrite bind_ok by reflexivity; reflexivity).
  match goal with |- context [bind circuit_check _ ?st] => destruct (Hchk st) as (c2' & E & Hs & Hq) end;
    [done..|].
  rewrite (bind_err _ _ _ _ _ E). intros <-. done.
Qed.

(** The number of checks of a sequence that pass. *)
Fixpoint passes (n : nat) : CM nat :=
  match n with
  | O => ret 0%nat
  | S n' => λ c, match circuit_check c with
                 | (Ok _, c') => let '(r, c'') := passes n' c' in
                                 (match r with Ok k => Ok (S k) | Err e => Err e end, c'')
                 | (Err _, c') => passes n' c'
                 end
  end.
Lemma half_open_rejects c :
  cb_inv c → cl_state c = HalfOpen →
  ∃ c', circuit_check c = (Err (RuntimeError "API temporarily unavailable (circuit half-open)"), c')
        ∧ same_circuit c c' ∧ cl_sent c' = cl_sent c.
Proof.
  intros [Hp _ _ _] Hs. destruct Hp as [_ Hp]. specialize (Hp Hs).
  destruct c as [f u st p sent t k]; cbn in *. subst.
  unfold circuit_check, now_m, bind, gets, modify, ret, raise, id, tick. cbn.
  eexists. split; [reflexivity|]. done.
Qed.
Lemma half_open_passes n c :
  cb_inv c → cl_state c = HalfOpen → (passes n c).1 = Ok 0%nat.
Proof.
  revert c. induction n as [|n IH]; intros c Hi Hs; [done|]. cbn [passes].
  destruct (half_open_rejects c Hi Hs) as (c' & E & Hc & _). rewrite E. apply IH.
  - by eapply same_circuit_inv.
  - by destruct Hc as (_ & _ & -> & _).
Qed.
End Circuit.

(** ** Properties *)

Section Theorems.
Context `{Net}.

(** What one call of [_send_request] may do, whatever the network answers.  It keeps the
    breaker consistent (a probe is in flight exactly in the half-open phase, the failure count
    agrees with the phase), sends at most six requests (three attempts, each with at most one
    re-authentication), and every one of them carries the caller's method, parameters, body and
    headers, in particular its idempotency key; in offline mode a guarded call sends nothing;
    and a call that returns leaves the breaker closed. *)
Theorem request_is_bounded_and_repeatable rq c r c' :
  cb_inv c → NoDup (dkeys (rq_headers rq)) → _send_request rq c = (r, c') →
  cb_inv c' ∧ ∃ new, cl_sent c' = cl_sent c ++ new ∧ (length new ≤ 6)%nat ∧ Forall (carries rq) new
    ∧ (rq_guard rq && offline_mode = true → new = [])
    ∧ match r with Ok _ => cl_state c' = Closed ∧ cl_failures c' = 0 | Err _ => True end.
Proof. apply send_request_run. Qed.

(** While the breaker is open a call raises and sends nothing: if the reading of the clock
    is before the end of the open period, a usable request fails with the circuit-open error,
    no request reaches the network, and the breaker is as before. *)
Theorem open_circuit_sends_nothing rq c :
  usable rq → cl_state c = Open → monotonic (cl_time c) < cl_open_until c →
  (_send_request rq c).1 = Err (RuntimeError "API temporarily unavailable (circuit open)")
  ∧ same_circuit c (_send_request rq c).2 ∧ cl_sent (_send_request rq c).2 = cl_sent c.
Proof.
  intros Hu Ho Ht. apply (blocked_request rq c _ _ Hu); [|done].
  intros c1 (Ef & Eu & Es & Ep) Et Eq.
  unfold circuit_check, now_m, bind, gets, modify, ret, raise, id, tick, set_circuit.
  destruct c1 as [f u st p sent t k]; cbn in *. subst. rewrite Ho. cbn.
  destruct (Z.ltb_spec (monotonic (cl_time c)) (cl_open_until c)); [|lia]. by eexists.
Qed.

(** The half-open breaker lets one probe through.  However many threads check the breaker
    after it opened, and whatever the clock reads at each check, at most one check passes until
    an outcome is recorded. *)
Theorem at_most_one_probe n c :
  cb_inv c → cl_state c = Open → ∃ k, (passes n c).1 = Ok k ∧ (k ≤ 1)%nat.
Proof.
  revert c. induction n as [|n IH]; intros c Hi Ho; [exists 0%nat; split; [done|lia]|].
  cbn [passes]. destruct (circuit_check c) as [[[]|e] c'] eqn:E;
    destruct (circuit_check_cases _ _ _ Hi E) as (Hi' & _ & Hc).
  - destruct Hc as [(Hs & _)|(_ & _ & Hs)]; [congruence|].
    pose proof (half_open_passes n c' Hi' Hs) as Hz. exists 1%nat. split; [|lia].
    destruct (passes n c') as [k c'']. simpl in *. by subst.
  - destruct Hc as (_ & Hs & _). apply IH; congruence.
Qed.

(** An outage opens the breaker: three transport failures in a row, on a breaker that was
    closed, make the call raise after exactly three exchanges and leave the breaker open for the
    whole reset period from the last failure. *)
Theorem outage_opens_circuit rq c :
  usable rq → cb_inv c → cl_state c = Closed → cl_failures c = 0 →
  (∀ sent, ∃ msg, exchange_outcome sent = Failed msg) →
  ∃ msg c', _send_request rq c = (Err (RuntimeError ("API request failed: " +:+ msg)), c')
    ∧ cl_state c' = Open ∧ cl_open_until c' = monotonic (3 + cl_time c) + reset_period
    ∧ length (cl_sent c') = (3 + length (cl_sent c))%nat.
Proof.
  intros [Hg [url Hu]] Hi Hs Hf Hout. unfold _send_request. rewrite Hg. unfold lift. rewrite Hu.
  erewrite bind_ok by reflexivity.
  unfold _build_request_headers, get_token.
  erewrite bind_ok by (erewrite bind_ok by reflexivity; reflexivity).
  destruct c as [f u st p sent t k]; cbn in *. subst st f.
  destruct p; [destruct Hi as [[Hp _] _ _ _]; by specialize (Hp eq_refl)|].
  unfold circuit_check, now_m. erewrite bind_ok by reflexivity. cbn.
  unfold _RETRY_ATTEMPTS. set (q := with_headers _ _ _).
  destruct (Hout (sent ++ [q])) as [m1 E1], (Hout ((sent ++ [q]) ++ [q])) as [m2 E2],
    (Hout (((sent ++ [q]) ++ [q]) ++ [q])) as [m3 E3].
  unfold bind, exchange, record_api_failure, now_m, modify, tick, set_circuit, raise. cbn.
  rewrite E1. cbn. change (_CB_FAILURE_THRESHOLD <=? 0 + 1) with false. cbn.
  rewrite E2. cbn. change (_CB_FAILURE_THRESHOLD <=? 0 + 1 + 1) with false. cbn.
  rewrite E3. cbn. change (_CB_FAILURE_THRESHOLD <=? 0 + 1 + 1 + 1) with true. cbn.
  exists m3. eexists. split; [reflexivity|]. cbn. split_and!; [done..|].
  rewrite !length_app. simpl. lia.
Qed.

(** ** The half-open breaker can stay blocked

    A half-open breaker rejects every call, at any time, and no call changes it: nothing but an
    outcome recorded by the probe, or a reset, ends the phase. *)
Lemma half_open_stays c rq :
  usable rq → cb_inv c → cl_state c = HalfOpen →
  (_send_request rq c).1 = Err (RuntimeError "API temporarily unavailable (circuit half-open)")
  ∧ cl_state (_send_request rq c).2 = HalfOpen ∧ cl_sent (_send_request rq c).2 = cl_sent c.
Proof.
  intros Hu Hi Hs.
  destruct (blocked_request rq c (RuntimeError "API temporarily unavailable (circuit half-open)")
    (_send_request rq c).2 Hu) as (E & (_ & _ & Es & _) & Eq); [|done|].
  - intros c1 Hc _ Eq1.
    destruct (half_open_rejects c1) as (c2 & E & C2 & Q2); [by eapply same_circuit_inv| |].
    { by destruct Hc as (_ & _ & -> & _). }
    exists c2. split; [done|]. split; [|congruence].
    destruct Hc as (? & ? & ? & ?), C2 as (? & ? & ? & ?). by repeat split; etrans.
  - split; [done|]. split; congruence.
Qed.
End Theorems.

(** A network that times out three times and then answers 404. *)
Definition demo_net : Net := {|
  exchange_outcome sent :=
    if (length sent <=? 3)%nat then Failed "timeout" else Reply (mkResp 404 "gone" None);
  monotonic n := 20 * Z.of_nat n;
  access_token _ := None;
  api_base_url := Some "https://api";
  api_schema := EmptyString;
  api_username := false;
  offline_mode := false;
  reset_period := 30
|}.
Definition demo_get : request := mkReq "GET" "/listings" [] [] [("Idempotency-Key", "k")] true.
Definition after_calls (n : nat) : client :=
  Nat.iter n (λ c, (@_send_request demo_net demo_get c).2) initial_client.

(** The probe is answered 404: the server is up, the call raises [ApiError], and nothing is
    recorded, so the breaker stays half-open with its probe in flight. *)
Example probe_answered_404_blocks :
  cl_state (after_calls 2) = Open
  ∧ (@_send_request demo_net demo_get (after_calls 2)).1 = Err (ApiError 404 "gone")
  ∧ cl_state (after_calls 3) = HalfOpen ∧ cl_probe_inflight (after_calls 3) = true
  ∧ (@_send_request demo_net demo_get (after_calls 3)).1
    = Err (RuntimeError "API temporarily unavailable (circuit half-open)").
Proof. by vm_compute. Qed.

(** ** Witnesses *)

Lemma demo_usable : @usable demo_net demo_get.
Proof. split; [done|]. by eexists. Qed.

Lemma request_is_bounded_and_repeatable_witness :
  cb_inv (after_calls 1) ∧ ∃ new, cl_sent (after_calls 1) = [] ++ new ∧ (length new ≤ 6)%nat
    ∧ Forall (carries demo_get) new ∧ (false = true → new = []) ∧ True.
Proof.
  exact (@request_is_bounded_and_repeatable demo_net demo_get initial_client
    (Err (RuntimeError "API request failed: timeout")) (after_calls 1) initial_inv
    ltac:(apply NoDup_singleton) ltac:(vm_compute; reflexivity)).
Defined.

Lemma open_circuit_sends_nothing_witness :
  (@_send_request demo_net demo_get (after_calls 1)).1
    = Err (RuntimeError "API temporarily unavailable (circuit open)")
  ∧ same_circuit (after_calls 1) (after_calls 2) ∧ cl_sent (after_calls 2) = cl_sent (after_calls 1).
Proof.
  exact (@open_circuit_sends_nothing demo_net demo_get (after_calls 1) demo_usable
    ltac:(vm_compute; reflexivity) ltac:(vm_compute; reflexivity)).
Defined.

Lemma at_most_one_probe_witness :
  ∃ k, (@passes demo_net 5 (mkClient 3 0 Open false [] 0 0)).1 = Ok k ∧ (k ≤ 1)%nat.
Proof.
  apply (@at_most_one_probe demo_net 5); [|reflexivity]. split; simpl; (done || lia).
Defined.

Definition down_net : Net := {|
  exchange_outcome _ := Failed "refused";
  monotonic n := Z.of_nat n;
  access_token _ := Some "t";
  api_base_url := Some "https://api";
  api_schema := EmptyString;
  api_username := true;
  offline_mode := false;
  reset_period := 30
|}.
Lemma outage_opens_circuit_witness :
  ∃ msg c', @_send_request down_net demo_get initial_client
              = (Err (RuntimeError ("API request failed: " +:+ msg)), c')
    ∧ cl_state c' = Open ∧ cl_open_until c' = 33 ∧ length (cl_sent c') = 3%nat.
Proof.
  exact (@outage_opens_circuit down_net demo_get initial_client
    ltac:(split; [done|by eexists]) initial_inv eq_refl eq_refl ltac:(by eexists)).
Defined.
