(* ===== verification/OfflineReconciler.v ===== *)
(** * Replaying the journal against the server

    Models src/app/services/offline_reconciler.py, src/app/services/api_write_queue.py (the
    generic mutations) and the resilient mutations of api_client.py.  The state is an account
    together with the HTTP client's own state, reached through the [Sender] interface. *)

From S2P Require Import Prelude PyValue OfflineTypes OfflineStore OfflineProjection.
From S2P Require Import OfflineJournal UploadQueue ApiClient.
From Stdlib Require Import Ascii.
Local Open Scope Z_scope.

Record world (C : Type) := mkWorld { w_acc : account; w_client : C }.
Arguments mkWorld {C} _ _.
Arguments w_acc {C} _.
Arguments w_client {C} _.

Abbreviation WM C := (M (world C)).

Definition on_acc {C A} (m : AM A) : WM C A :=
  λ w, let '(r, a) := m (w_acc w) in (r, mkWorld a (w_client w)).
Definition on_client {C A} (m : M C A) : WM C A :=
  λ w, let '(r, c) := m (w_client w) in (r, mkWorld (w_acc w) c).

(** [s.replace(needle, by)] for a non-empty needle. *)
Fixpoint str_replace (fuel : nat) (needle by_ s : string) : string :=
  match fuel, s with
  | S f, String c s' =>
      if String.prefix needle s then
        by_ +:+ str_replace f needle by_
                  (String.substring (String.length needle) (String.length s) s)
      else String c (str_replace f needle by_ s')
  | _, _ => s
  end.

(* src/app/services/offline_reconciler.py :: _RETRYABLE_STATUS_CODES *)
Definition _RETRYABLE_STATUS_CODES : list Z := [408; 425; 429; 500; 502; 503; 504].

(* src/app/services/offline_reconciler.py :: _is_retryable_error *)
Definition _is_retryable_error (e : exn) : bool :=
  match e with
  | ApiError code _ => bool_decide (code ∈ _RETRYABLE_STATUS_CODES)
  | RuntimeError _ => true
  | _ => false
  end.

Definition param_scalar (v : pyval) : bool :=
  match v with PStr _ | PInt _ | PBool _ | PFloat _ => true | _ => false end.
(* src/app/services/offline_reconciler.py :: _request_params_dict *)
Definition _request_params_dict (v : pyval) : pydict :=
  List.filter (λ kv, match kv.2 with
                     | PNone => true
                     | PList l => forallb param_scalar l
                     | w => param_scalar w
                     end) (dict_or_empty v).

(* src/app/services/api_client_utils.py :: as_dict *)
Definition as_dict (payload : pyval) : pydict := dict_or_empty payload.

(** [cast(Mapping, payload.get(k) or {}).items()] *)
Definition mapping_items (k : string) (payload : pydict) : res pydict :=
  match get k payload with
  | PDict d => Ok d
  | v => if truthy v then Err (OtherError "object has no attribute 'items'") else Ok []
  end.

Section Reconciler.
Context `{Oracle} {C : Type} `{!Sender C}.

(* src/app/services/offline_reconciler.py :: _set_projection_status *)
Definition _set_projection_status (op : OfflineOperation) (status error : string) : AM unit :=
  if decide (op_entity_type op = "generic") then ret tt
  else
    let! record := get_projection_record (op_entity_type op) (op_local_id op) in
    match record with
    | None => ret tt
    | Some _ => mark_projection_status (op_entity_type op) (op_local_id op) status error None None
    end.

(* src/app/services/offline_reconciler.py :: _sync_create_projection_statuses *)
Definition _sync_create_projection_statuses : AM unit :=
  let! ops := list_operations in
  for_each (λ op,
    if negb (bool_decide (op_type op = "create")) || bool_decide (op_entity_type op = "generic")
       || (0 <=? op_local_id op) then ret tt
    else
      let! record := get_projection_record (op_entity_type op) (op_local_id op) in
      match record with
      | None => ret tt
      | Some r =>
          if negb (bool_decide (pr_sync_status r = op_status op))
             || negb (bool_decide (pr_sync_error r = op_last_error op))
          then mark_projection_status (op_entity_type op) (op_local_id op) (op_status op)
                 (op_last_error op) None None
          else ret tt
      end) ops.

(* src/app/services/offline_reconciler.py :: _resolved_parent_id *)
Definition _resolved_parent_id (r : OfflineEntityRef) : AM (option Z) :=
  if 0 <? ref_local_id r then ret (Some (ref_local_id r))
  else resolve_reconciled_id (ref_entity_type r) (ref_local_id r).

(* src/app/services/offline_reconciler.py :: _resolve_path_template *)
Fixpoint _resolve_path_template (path : string) (path_refs : pydict) : AM string :=
  match path_refs with
  | [] => ret path
  | (key, raw_ref) :: refs =>
      let! r := lift (ref_from_dict raw_ref) in
      let! resolved := _resolved_parent_id r in
      match resolved with
      | None => raise (RuntimeError ("Unresolved parent reference for path field " +:+ key))
      | Some i =>
          _resolve_path_template
            (str_replace (S (String.length path)) ("{" +:+ key +:+ "}") (pretty i) path) refs
      end
  end.

(* src/app/services/offline_reconciler.py :: _resolve_body_refs *)
Fixpoint _resolve_body_refs (body : pydict) (body_refs : pydict) : AM pydict :=
  match body_refs with
  | [] => ret body
  | (key, raw_ref) :: refs =>
      let! r := lift (ref_from_dict raw_ref) in
      let! resolved := _resolved_parent_id r in
      match resolved with
      | None => raise (RuntimeError ("Unresolved parent reference for body field " +:+ key))
      | Some i => _resolve_body_refs (dset key (PInt i) body) refs
      end
  end.

Definition header_dict (v : pyval) : list (string * string) :=
  map (λ '(k, w), (k, py_str w)) (dict_or_empty v).

(* src/app/services/offline_reconciler.py :: _resolve_request_payload *)
Definition _resolve_request_payload (op : OfflineOperation) : AM request :=
  let payload := op_payload op in
  let method := upper (str_field "method" "POST" payload) in
  let! path :=
    (if truthy (get "path_template" payload) then
       let! refs := lift (mapping_items "path_refs" payload) in
       _resolve_path_template (str_field "path_template" EmptyString payload) refs
     else ret (str_field "path" EmptyString payload)) in
  let! refs := lift (mapping_items "body_refs" payload) in
  let! body := _resolve_body_refs (dict_or_empty (get "body" payload)) refs in
  ret (mkReq method path (_request_params_dict (get "params" payload)) body
         (header_dict (get "headers" payload)) false).

(* src/app/services/offline_reconciler.py :: _create_conflict *)
Definition _create_conflict (op : OfflineOperation) (reason message : string)
    (server_payload : option pydict) : AM unit :=
  add_conflict (mkConflict (op_id op) (op_entity_type op) (op_local_id op) reason message
                  server_payload EmptyString).

(** The id of a create response; [int()] of a text or number, 0 of anything else. *)
Definition created_id_of (payload : pydict) : res Z :=
  match get "id" payload with
  | (PInt _ | PBool _ | PFloat _ | PStr _) as v => py_int v
  | _ => Ok 0
  end.

Definition drop_result {A} (m : AM A) : AM unit := let! _ := m in ret tt.

(* src/app/services/offline_reconciler.py :: _apply_create_success *)
Definition _apply_create_success (op : OfflineOperation) (response_payload request_body : pydict)
  : AM unit :=
  let! created_id := lift (created_id_of response_payload) in
  if created_id <=? 0 then raise (ValueError "Create response missing canonical id.")
  else
    let server_payload := match get "item" response_payload with
                          | PDict d => d
                          | _ => request_body
                          end in
    let server_payload := dsetdefault "id" (PInt created_id) server_payload in
    do! record_reconciled_id (op_entity_type op) (op_local_id op) created_id in
    do! reconcile_projection_record (op_entity_type op) (op_local_id op) created_id server_payload in
    do! drop_result (rewrite_projection_parent_refs (op_entity_type op) (op_local_id op) created_id) in
    do! drop_result (rewrite_media_parent_refs (op_entity_type op) (op_local_id op) created_id) in
    do! drop_result (update_operation_status (op_id op) "applied" EmptyString) in
    do! remove_conflict (op_id op) in
    do! drop_result refresh_blocked_operations in
    _sync_create_projection_statuses.

(* src/app/services/offline_reconciler.py :: _handle_retryable_failure *)
Definition _handle_retryable_failure (op : OfflineOperation) (e : exn) : AM unit :=
  do! note_operation_attempt (op_id op) (exn_str e) in
  do! drop_result (update_operation_status (op_id op) "pending" (exn_str e)) in
  _set_projection_status op "pending" (exn_str e).

(* src/app/services/offline_reconciler.py :: _handle_auth_block *)
Definition _handle_auth_block (op : OfflineOperation) (e : exn) : AM unit :=
  do! drop_result (update_operation_status (op_id op) "blocked" "auth_required") in
  _set_projection_status op "blocked" (exn_str e).

(* src/app/services/offline_reconciler.py :: _handle_review_failure *)
Definition _handle_review_failure (op : OfflineOperation) (e : exn) : AM unit :=
  do! drop_result (update_operation_status (op_id op) "needs_review" (exn_str e)) in
  do! _set_projection_status op "needs_review" (exn_str e) in
  _create_conflict op "sync_review_required" (exn_str e) None.

(* src/app/services/offline_reconciler.py :: _handle_generic_permanent_failure *)
Definition _handle_generic_permanent_failure (op : OfflineOperation) (e : exn) : AM unit :=
  let p := op_payload op in
  do! record_failed_api_mutation
        [("id", PStr (op_id op)); ("method", PStr (str_field "method" "POST" p));
         ("path", PStr (str_field "path" EmptyString p));
         ("json_body", PDict (dict_or_empty (get "body" p)));
         ("params", PDict (dict_or_empty (get "params" p)));
         ("headers", PDict (map (λ '(k, v), (k, PStr v)) (header_dict (get "headers" p))));
         ("dedupe_key", PStr (op_dedupe_key op)); ("label", PStr (str_field "label" EmptyString p))]
        (exn_str e) in
  drop_result (update_operation_status (op_id op) "cancelled" (exn_str e)).

(** [except Exception: h(exc); return outcome] *)
Definition on_failure (op : OfflineOperation) (e : exn) : AM string :=
  match e with
  | ApiError code _ =>
      if (code =? 401) || (code =? 403) then do! _handle_auth_block op e in ret "blocked"
      else if _is_retryable_error e then do! _handle_retryable_failure op e in ret "retryable"
      else if decide (op_entity_type op = "generic") then
        do! _handle_generic_permanent_failure op e in ret "discarded"
      else do! _handle_review_failure op e in ret "needs_review"
  | RuntimeError _ => do! _handle_retryable_failure op e in ret "retryable"
  | _ =>
      if decide (op_entity_type op = "generic") then
        do! _handle_generic_permanent_failure op e in ret "discarded"
      else do! _handle_review_failure op e in ret "needs_review"
  end.

Definition on_reply (op : OfflineOperation) (body : pydict) (payload : pyval) : AM string :=
  if bool_decide (op_type op = "create") && negb (bool_decide (op_entity_type op = "generic")) then
    catch (do! _apply_create_success op (as_dict payload) body in ret "flushed")
      (λ e, Some (do! _handle_review_failure op e in ret "needs_review"))
  else
    do! drop_result (update_operation_status (op_id op) "applied" EmptyString) in
    do! remove_conflict (op_id op) in
    do! (if bool_decide (op_type op = "delete") && negb (bool_decide (op_entity_type op = "generic"))
         then remove_projection_record (op_entity_type op) (op_local_id op)
         else _set_projection_status op "synced" EmptyString) in
    ret "flushed".

(** The exceptions of the request are values here: the [except] clauses pick the handler. *)
Definition attempt {A} (m : WM C A) : WM C (res A) :=
  λ w, let '(r, w') := m w in (Ok r, w').

(* src/app/services/offline_reconciler.py :: _replay_operation *)
Definition _replay_operation (op : OfflineOperation) : WM C string :=
  let! rq := on_acc (_resolve_request_payload op) in
  do! on_acc (drop_result (update_operation_status (op_id op) "syncing" EmptyString)) in
  do! on_acc (_set_projection_status op "syncing" EmptyString) in
  let! r := attempt (on_client (send_request rq)) in
  match r with
  | Err e => on_acc (on_failure op e)
  | Ok payload => on_acc (on_reply op (rq_body rq) payload)
  end.

(** The loop over the ready operations, stopped by a retryable outcome. *)
Fixpoint replay_each (ops : list OfflineOperation) : WM C (list string) :=
  match ops with
  | [] => ret []
  | op :: ops' =>
      let! o := _replay_operation op in
      if decide (o = "retryable") then ret [o]
      else let! os := replay_each ops' in ret (o :: os)
  end.
Definition outcome_count (o : string) (l : list string) : Z :=
  Z.of_nat (length (List.filter (λ x, bool_decide (x = o)) l)).

(* src/app/services/offline_reconciler.py :: replay_offline_operations *)
Definition replay_offline_operations (limit : Z) : WM C (list (string * Z)) :=
  do! on_acc (drop_result refresh_blocked_operations) in
  do! on_acc _sync_create_projection_statuses in
  let! ready := on_acc list_ready_operations in
  let! outcomes := replay_each (take (Z.to_nat (Z.max 1 limit)) ready) in
  do! on_acc (drop_result refresh_blocked_operations) in
  do! on_acc _sync_create_projection_statuses in
  let! pending := on_acc pending_operation_count in
  ret (map (λ o, (o, outcome_count o outcomes))
         ["flushed"; "discarded"; "blocked"; "needs_review"; "retryable"]
       ++ [("pending", pending); ("failed_permanent", outcome_count "discarded" outcomes)]).

(** ** Generic mutations *)

(* src/app/services/api_write_queue.py :: _compat_item_from_op *)
Definition _compat_item_from_op (op : OfflineOperation) : res (option pydict) :=
  if decide (op_entity_type op = "generic") then
    let p := op_payload op in
    let as_mapping k := match get k p with
                        | PDict d => Ok d
                        | v => if truthy v then Err (TypeError "object is not iterable") else Ok []
                        end in
    let? body := as_mapping "body" in
    let? params := as_mapping "params" in
    let? headers := as_mapping "headers" in
    Ok (Some [("id", PStr (op_id op)); ("method", PStr (str_field "method" "POST" p));
              ("path", PStr (str_field "path" EmptyString p)); ("json_body", PDict body);
              ("params", PDict params);
              ("headers", PDict (map (λ '(k, v), (k, PStr (py_str v))) headers));
              ("dedupe_key", PStr (op_dedupe_key op));
              ("label", PStr (str_field "label" EmptyString p));
              ("attempts", PInt (op_attempts op)); ("last_error", PStr (op_last_error op));
              ("created_at", PStr (op_created_at op)); ("updated_at", PStr (op_updated_at op))])
  else Ok None.

Variable scope : OfflineAccountScope.

(* src/app/services/api_write_queue.py :: enqueue_api_mutation *)
Definition enqueue_api_mutation (method path : string) (json_body params : pydict)
    (headers : list (string * string)) (dedupe_key label : option string) : AM string :=
  let! op := queue_generic_api_mutation scope method path json_body params headers dedupe_key label
               None in
  ret (op_id op).

Fixpoint compat_items (ops : list OfflineOperation) : res (list pydict) :=
  match ops with
  | [] => Ok []
  | op :: ops' =>
      let? c := _compat_item_from_op op in
      let? cs := compat_items ops' in
      Ok (match c with Some d => d :: cs | None => cs end)
  end.
(* src/app/services/api_write_queue.py :: list_pending_api_mutations *)
Definition list_pending_api_mutations : AM (list pydict) :=
  let! ops := list_operations in lift (compat_items ops).
(* src/app/services/api_write_queue.py :: pending_api_mutation_count *)
Definition pending_api_mutation_count : AM Z :=
  let! items := list_pending_api_mutations in ret (Z.of_nat (length items)).
(* src/app/services/api_write_queue.py :: remove_api_mutation *)
Definition remove_api_mutation (queue_id : string) : AM unit := remove_operation queue_id.
(* src/app/services/api_write_queue.py :: note_api_mutation_attempt *)
Definition note_api_mutation_attempt (queue_id error_message : string) : AM unit :=
  note_operation_attempt queue_id error_message.
(* src/app/services/api_write_queue.py :: list_failed_api_mutations *)
Definition list_failed_api_mutations : AM (list pyval) := _load_failed.
(* src/app/services/api_write_queue.py :: clear_api_write_queue *)
Definition clear_api_write_queue : AM unit := do! clear_operation_store in _write_failed [].
(* src/app/services/api_write_queue.py :: get_pending_api_mutation *)
Definition get_pending_api_mutation (queue_id : string) : AM (option pydict) :=
  let! op := get_operation queue_id in
  match op with Some o => lift (_compat_item_from_op o) | None => ret None end.

(* src/app/services/api_client.py :: MutationDispatchResult *)
Record MutationDispatchResult := mkDispatch {
  md_payload : pyval;
  md_queued : bool;
  md_queue_id : option string
}.

(* src/app/services/api_client.py :: _resilient_mutation *)
Definition _resilient_mutation (method path : string) (payload params : pydict)
    (headers : list (string * string)) (dedupe_key label : string) : WM C MutationDispatchResult :=
  let! r := attempt (on_client (send_request (mkReq method path params payload headers true))) in
  match r with
  | Ok response => ret (mkDispatch response false None)
  | Err e =>
      if _should_queue_mutation_error e then
        let! queue_id := on_acc (enqueue_api_mutation method path payload params headers
                                   (Some dedupe_key) (Some label)) in
        ret (mkDispatch PNone true (Some queue_id))
      else raise e
  end.
End Reconciler.
