(* ===== verification/OfflineEntities.v ===== *)
(** * Creating, updating and deleting entities online or offline

    Models src/app/services/offline_entity_mutations.py, with the capability table of
    offline_capabilities.py and the flag of offline_runtime.py: a mutation is sent, and when the
    server cannot be reached it is journaled under the idempotency key it was sent with. *)

From S2P Require Import Prelude PyValue OfflineTypes OfflineStore OfflineProjection.
From S2P Require Import OfflineJournal UploadQueue ApiClient OfflineReconciler.
Local Open Scope Z_scope.

(* src/app/services/offline_capabilities.py :: OfflineCapability *)
Record OfflineCapability := mkCapability { supported : bool; reason : string }.
(* src/app/services/offline_capabilities.py :: _DEFAULT_UNSUPPORTED *)
Definition _DEFAULT_UNSUPPORTED : OfflineCapability :=
  mkCapability false "This action requires an online connection.".
(* src/app/services/offline_capabilities.py :: _CAPABILITIES *)
Definition _CAPABILITIES : list ((string * string) * OfflineCapability) :=
  let yes := mkCapability true EmptyString in
  let contract_first :=
    mkCapability false "Sync the contract first before working with articles." in
  [(("client", "create"), yes); (("demande", "create"), yes); (("listing", "create"), yes);
   (("offer", "create"), yes); (("visit", "create"), yes); (("contract", "create"), yes);
   (("contract_article", "create"), yes); (("contract_article", "update"), yes);
   (("contract_article", "delete"), yes); (("contract_article", "renumber"), contract_first);
   (("contract_article", "copy_standard_clauses"), contract_first);
   (("offer_photo", "create"), yes); (("offer_photo", "upload"), yes);
   (("offer_photo", "delete"), yes);
   (("bulk_import", "execute"), mkCapability false "Imports require an online connection.")].

(* src/app/services/offline_capabilities.py :: get_offline_capability *)
Definition get_offline_capability (entity_type action : string) : OfflineCapability :=
  let key := (lower (strip entity_type), lower (strip action)) in
  match List.find (λ e, bool_decide (e.1 = key)) _CAPABILITIES with
  | Some (_, c) => c
  | None => _DEFAULT_UNSUPPORTED
  end.
(* src/app/services/offline_capabilities.py :: require_supported_offline_action *)
Definition require_supported_offline_action (entity_type action : string) : res unit :=
  let c := get_offline_capability entity_type action in
  if supported c then Ok tt else Err (ValueError (str_or (reason c) (reason _DEFAULT_UNSUPPORTED))).

(** [value] is the environment variable, ["0"] when it is not set. *)
(* src/app/services/offline_runtime.py :: offline_creates_enabled *)
Definition offline_creates_enabled (value : option string) : bool :=
  bool_decide (lower (strip (default "0" value)) ∈ ["1"; "true"; "yes"; "on"]).

Abbreviation refdict := (list (string * OfflineEntityRef)).

(* src/app/services/offline_entity_mutations.py :: OfflineCreateRequest *)
Record OfflineCreateRequest := mkCreate {
  cr_entity_type : string;
  cr_request_body : pydict;
  cr_projection_data : pydict;
  cr_path : option string;
  cr_path_template : option string;
  cr_path_refs : option refdict;
  cr_body_refs : option refdict;
  cr_label : string
}.

Fixpoint dedup_refs (seen : list OfflineEntityRef) (rs : list OfflineEntityRef)
  : list OfflineEntityRef :=
  match rs with
  | [] => []
  | r :: rs' => if bool_decide (r ∈ seen) then dedup_refs seen rs'
                else r :: dedup_refs (r :: seen) rs'
  end.
(* src/app/services/offline_entity_mutations.py :: _collect_parent_refs *)
Definition _collect_parent_refs (path_refs body_refs : option refdict) : list OfflineEntityRef :=
  dedup_refs [] (map snd (default [] path_refs) ++ map snd (default [] body_refs)).

Definition encode_refs (rs : option refdict) : pyval :=
  PDict (map (λ '(k, r), (k, ref_to_dict r)) (default [] rs)).

Section Entities.
Context `{Oracle} {C : Type} `{!Sender C}.
Variable scope : OfflineAccountScope.
(** The environment variable of [offline_creates_enabled], and the fuel of cancellations. *)
Variable creates_flag : option string.
Variable fuel : nat.

(* src/app/services/offline_entity_mutations.py :: _idempotency_key *)
Definition _idempotency_key (entity_type op_id : string) : string :=
  "offline:" +:+ account_key scope +:+ ":" +:+ entity_type +:+ ":" +:+ op_id.

(* src/app/services/offline_entity_mutations.py :: _resolve_path *)
Fixpoint _resolve_path (path : string) (path_refs : refdict) : AM string :=
  match path_refs with
  | [] => ret path
  | (key, r) :: refs =>
      let! resolved := _resolved_parent_id r in
      match resolved with
      | None => raise (RuntimeError ("Unresolved parent reference for path field " +:+ key))
      | Some i => _resolve_path (str_replace (S (String.length path)) ("{" +:+ key +:+ "}")
                                   (pretty i) path) refs
      end
  end.

(* src/app/services/offline_entity_mutations.py :: _resolve_body *)
Fixpoint _resolve_body (body : pydict) (body_refs : refdict) : AM pydict :=
  match body_refs with
  | [] => ret body
  | (key, r) :: refs =>
      let! resolved := _resolved_parent_id r in
      match resolved with
      | None => raise (RuntimeError ("Unresolved parent reference for body field " +:+ key))
      | Some i => _resolve_body (dset key (PInt i) body) refs
      end
  end.

(* src/app/services/offline_entity_mutations.py :: _create_projection *)
Definition _create_projection (entity_type : string) (local_id : Z) (data : pydict)
    (sync_status : string) : AM unit :=
  upsert_projection_record
    (mkProj entity_type local_id None (dsetdefault "id" (PInt local_id) data) sync_status
       EmptyString true).

(* src/app/services/offline_entity_mutations.py :: _queue_create *)
Definition _queue_create (rq : OfflineCreateRequest) (op_id_ : string) : AM Z :=
  let! temp_id := allocate_temp_id (cr_entity_type rq) in
  let key := _idempotency_key (cr_entity_type rq) op_id_ in
  let payload :=
    [("method", PStr "POST"); ("path", PStr (default EmptyString (cr_path rq)));
     ("path_template", PStr (default EmptyString (cr_path_template rq)));
     ("path_refs", encode_refs (cr_path_refs rq)); ("body", PDict (cr_request_body rq));
     ("body_refs", encode_refs (cr_body_refs rq));
     ("headers", PDict [("Idempotency-Key", PStr key)]); ("label", PStr (cr_label rq))] in
  let! op := queue_create_operation scope (cr_entity_type rq) temp_id payload
               (_collect_parent_refs (cr_path_refs rq) (cr_body_refs rq)) (Some key) (Some op_id_) in
  do! _create_projection (cr_entity_type rq) temp_id (cr_projection_data rq) (op_status op) in
  ret temp_id.

Definition request_path (rq : OfflineCreateRequest) : AM string :=
  let template := default EmptyString (cr_path_template rq) in
  if str_empty template then ret (default EmptyString (cr_path rq))
  else _resolve_path template (default [] (cr_path_refs rq)).

(** [any(_resolved_parent_id(ref) is None for ref in refs)] *)
Fixpoint any_unresolved (rs : list OfflineEntityRef) : AM bool :=
  match rs with
  | [] => ret false
  | r :: rs' => let! i := _resolved_parent_id r in
                match i with None => ret true | Some _ => any_unresolved rs' end
  end.

(* src/app/services/offline_entity_mutations.py :: create_entity *)
Definition create_entity (rq : OfflineCreateRequest) : WM C Z :=
  if negb (offline_creates_enabled creates_flag) then
    let! path := on_acc (request_path rq) in
    let! body := on_acc (_resolve_body (cr_request_body rq) (default [] (cr_body_refs rq))) in
    let! payload := on_client (send_request (mkReq "POST" path [] body [] true)) in
    lift (created_id_of (as_dict payload))
  else
    let! op_id_ := on_acc uuid_hex in
    let! unresolved :=
      on_acc (any_unresolved (_collect_parent_refs (cr_path_refs rq) (cr_body_refs rq))) in
    if (unresolved : bool) then on_acc (_queue_create rq op_id_)
    else
      let! path := on_acc (request_path rq) in
      let! body := on_acc (_resolve_body (cr_request_body rq) (default [] (cr_body_refs rq))) in
      let key := _idempotency_key (cr_entity_type rq) op_id_ in
      let! r := attempt (on_client (send_request
                  (mkReq "POST" path [] body [("Idempotency-Key", key)] true))) in
      match r with
      | Ok payload => lift (created_id_of (as_dict payload))
      | Err e => if _is_retryable_error e then on_acc (_queue_create rq op_id_) else raise e
      end.

(* src/app/services/offline_entity_mutations.py :: _ensure_projection_for_real_entity *)
Definition _ensure_projection_for_real_entity (entity_type : string) (local_id : Z) (data : pydict)
    (sync_status : string) : AM unit :=
  let! existing := get_projection_record entity_type local_id in
  let merged := dupdate (match existing with Some r => pr_data r | None => [] end) data in
  upsert_projection_record
    (mkProj entity_type local_id (Some local_id) (dsetdefault "id" (PInt local_id) merged)
       sync_status EmptyString false).

Definition queued (op : option OfflineOperation) : MutationDispatchResult :=
  mkDispatch PNone true (op_id <$> op).

(* src/app/services/offline_entity_mutations.py :: update_entity *)
Definition update_entity (entity_type : string) (local_id : Z) (path : string) (body : pydict)
    (dedupe_key label : string) : WM C MutationDispatchResult :=
  let payload := [("method", PStr "PUT"); ("path", PStr path); ("body", PDict body);
                  ("label", PStr label)] in
  if local_id <? 0 then
    on_acc (
      let! op := queue_update_operation scope entity_type local_id payload (Some dedupe_key) None in
      let! record := get_projection_record entity_type local_id in
      let merged := dupdate (match record with
                             | Some r => pr_data r
                             | None => [("id", PInt local_id)]
                             end) body in
      do! _create_projection entity_type local_id merged
            (match op with Some o => op_status o | None => "pending" end) in
      ret (queued op))
  else
    let! r := attempt (on_client (send_request (mkReq "PUT" path [] body [] true))) in
    match r with
    | Ok payload_out =>
        do! on_acc (remove_projection_record entity_type local_id) in
        ret (mkDispatch payload_out false None)
    | Err e =>
        if _is_retryable_error e then
          on_acc (
            let! op := queue_update_operation scope entity_type local_id payload (Some dedupe_key)
                         None in
            do! _ensure_projection_for_real_entity entity_type local_id body "pending" in
            ret (queued op))
        else raise e
    end.

(* src/app/services/offline_entity_mutations.py :: delete_entity *)
Definition delete_entity (entity_type : string) (local_id : Z) (path : string) (params : pydict)
    (dedupe_key label : string) : WM C MutationDispatchResult :=
  let params := _request_params_dict (PDict params) in
  let payload := [("method", PStr "DELETE"); ("path", PStr path); ("params", PDict params);
                  ("label", PStr label)] in
  if local_id <? 0 then
    on_acc (
      let! op := queue_delete_operation scope fuel entity_type local_id payload (Some dedupe_key)
                   None in
      ret (queued op))
  else
    let! r := attempt (on_client (send_request (mkReq "DELETE" path params [] [] true))) in
    match r with
    | Ok payload_out =>
        do! on_acc (remove_projection_record entity_type local_id) in
        ret (mkDispatch payload_out false None)
    | Err e =>
        if _is_retryable_error e then
          on_acc (
            let! op := queue_delete_operation scope fuel entity_type local_id payload
                         (Some dedupe_key) None in
            do! _ensure_projection_for_real_entity entity_type local_id [("id", PInt local_id)]
                  "pending_delete" in
            do! mark_projection_status entity_type local_id "pending_delete" EmptyString
                  (Some false) None in
            ret (queued op))
        else raise e
    end.
End Entities.
