(* ===== verification/ReconcilerSpec.v ===== *)
(** * The reconciler keeps the account consistent

    Triples for the handlers of OfflineReconciler, over accounts whose journal, conflicts and
    projection can be read. *)

From S2P Require Import Prelude PyValue OfflineTypes OfflineStore OfflineProjection.
From S2P Require Import OfflineJournal JournalSpec JournalCancel UploadQueue ApiClient.
From S2P Require Import OfflineReconciler.
Local Open Scope Z_scope.

(** ** The projection file *)

(** A row reads back as a record, or is skipped. *)
Definition row_fine (p : pydict) : Prop :=
  match proj_from_dict (PDict p) with Ok _ | Err (ValueError _) => True | Err _ => False end.
Definition rows_fine (rows : list (string * pydict)) : Prop := Forall (λ kp, row_fine kp.2) rows.
Definition map_fine (m : projmap) : Prop := Forall (λ kr, rows_fine kr.2) m.
Definition proj_map (f : pyfile) : projmap :=
  match f with FJson (PDict d) => parse_projection d | _ => [] end.

Lemma load_projection_run a : _load_projection_map a = (Ok (proj_map (a_projection a)), a).
Proof.
  unfold _load_projection_map, read_json, bind, gets, ret, proj_map.
  by destruct (a_projection a) as [| |[]].
Qed.
Lemma dict_rows_encode rows : dict_rows (map (λ '(k, p), (k, PDict p)) rows) = rows.
Proof. induction rows as [|[k p] rows IH]; simpl; [done|]. by rewrite IH. Qed.
Lemma parse_projection_encode m :
  parse_projection (map (λ '(ty, rows), (ty, encode_rows rows)) m) = m.
Proof.
  induction m as [|[ty rows] m IH]; simpl; [done|]. by rewrite IH, dict_rows_encode.
Qed.
Lemma Forall_dset {V} (P : V → Prop) k v (d : list (string * V)) :
  P v → Forall (λ kv, P kv.2) d → Forall (λ kv, P kv.2) (dset k v d).
Proof.
  intros Hv. induction 1 as [|[k' v'] d Hx Hd IH]; simpl; [by repeat constructor|].
  case_decide; by constructor.
Qed.
Lemma Forall_dpop {V} (P : V → Prop) k (d : list (string * V)) :
  Forall (λ kv, P kv.2) d → Forall (λ kv, P kv.2) (dpop k d).
Proof.
  induction 1 as [|[k' v'] d Hx Hd IH]; simpl; [done|]. case_decide; [done|by constructor].
Qed.
Lemma Forall_dget {V} (P : V → Prop) k v (d : list (string * V)) :
  Forall (λ kv, P kv.2) d → dget k d = Some v → P v.
Proof.
  intros Hd Hk%dget_Some_elem. by apply (proj1 (Forall_forall _ _) Hd (k, v)).
Qed.
Lemma rows_of m ty : map_fine m → rows_fine (default [] (dget ty m)).
Proof.
  intros Hm. destruct (dget ty m) as [rows|] eqn:E; [|constructor].
  exact (Forall_dget rows_fine _ _ _ Hm E).
Qed.
Lemma proj_record_fine r : row_fine (dict_or_empty (proj_to_dict r)).
Proof.
  unfold row_fine, proj_from_dict, proj_to_dict, int_field, get. simpl. by rewrite int_of_or_int.
Qed.

Section Spec.
Context `{Oracle, !ClockOk}.

(** An account in working order, with [ops] pending. *)
Definition working ops ot (a : account) : Prop :=
  account_ok ops ot a ∧ map_fine (proj_map (a_projection a)).

Lemma write_projection_working m ops ot :
  map_fine m → hoare (working ops ot) (_write_projection_map m) (λ _, working ops ot).
Proof.
  intros Hm. apply hoare_modify. intros a [Ha _]. split; [exact Ha|]. simpl.
  by rewrite parse_projection_encode.
Qed.
Lemma with_projection {A} ops ot (k : projmap → AM A) Q :
  (∀ m, map_fine m → hoare (working ops ot) (k m) Q) →
  hoare (working ops ot) (bind _load_projection_map k) Q.
Proof.
  intros Hk a Ha. rewrite (bind_ok _ _ _ _ _ (load_projection_run a)). apply Hk; [apply Ha|done].
Qed.
Lemma upsert_projection_working r ops ot :
  hoare (working ops ot) (upsert_projection_record r) (λ _, working ops ot).
Proof.
  apply with_projection. intros m Hm. apply write_projection_working.
  apply (Forall_dset rows_fine); [|done]. apply (Forall_dset row_fine); [apply proj_record_fine|].
  by apply rows_of.
Qed.
Lemma remove_projection_working ty lid ops ot :
  hoare (working ops ot) (remove_projection_record ty lid) (λ _, working ops ot).
Proof.
  apply with_projection. intros m Hm. apply write_projection_working.
  pose proof (Forall_dpop row_fine (pretty lid) _ (rows_of m ty Hm)) as Hr.
  destruct (dpop (pretty lid) _) as [|x l]; [by apply (Forall_dpop rows_fine)|].
  by apply (Forall_dset rows_fine).
Qed.
Lemma get_projection_working {A} ty lid ops ot (k : option OfflineProjectionRecord → AM A) Q :
  (∀ r, hoare (working ops ot) (k r) Q) →
  hoare (working ops ot) (bind (get_projection_record ty lid) k) Q.
Proof.
  intros Hk. eapply (hoare_bind _ _ _ (λ _, working ops ot)); [|done].
  apply with_projection. intros m Hm. unfold proj_row.
  destruct (dget (pretty lid) _) as [p|] eqn:E; [|by apply hoare_ret].
  pose proof (Forall_dget row_fine _ _ _ (rows_of m ty Hm) E) as Hp.
  unfold row_fine in Hp. destruct (proj_from_dict (PDict p)) as [r|[]]; done || by apply hoare_ret.
Qed.
Lemma mark_projection_working ty lid st err lo sid ops ot :
  hoare (working ops ot) (mark_projection_status ty lid st err lo sid) (λ _, working ops ot).
Proof.
  apply get_projection_working. intros [r|]; [apply upsert_projection_working|by apply hoare_ret].
Qed.
Lemma set_status_working op st err ops ot :
  hoare (working ops ot) (_set_projection_status op st err) (λ _, working ops ot).
Proof.
  unfold _set_projection_status. case_decide; [by apply hoare_ret|].
  apply get_projection_working. intros [r|]; [apply mark_projection_working|by apply hoare_ret].
Qed.
Lemma list_projection_run ty ops ot a :
  working ops ot a → ∃ rs, list_projection_records ty a = (Ok rs, a).
Proof.
  intros [_ Hm]. unfold list_projection_records.
  rewrite (bind_ok _ _ _ _ _ (load_projection_run a)). unfold lift.
  pose proof (rows_of _ ty Hm) as Hr. induction Hr as [|[k p] l Hp Hl [rs IH]]; [by exists []|].
  cbn [dvalues map snd parse_entries]. simpl in Hp. unfold row_fine in Hp.
  injection IH as IH. unfold dvalues in IH.
  destruct (proj_from_dict (PDict p)) as [r|[]]; done || (rewrite IH; simpl; eauto).
Qed.

(** ** Journal and conflict steps, over working accounts *)

Lemma lift_working {A} ops ot (m : AM A) (Φ : A → list OfflineOperation → Prop) :
  (∀ fr, temp_map_of fr = ot.1.1.1.2 →
     hoare (journal_in ops fr) m (λ r a, ∃ ops', Φ r ops' ∧ journal_in ops' fr a)) →
  hoare (working ops ot) m (λ r a, ∃ ops', Φ r ops' ∧ working ops' ot a).
Proof.
  intros Hm a [Ha Hp].
  destruct Ha as (Hj & Hc & <-).
  destruct (Hm (frame a) eq_refl a) as (r & a' & E & ops' & HQ & Hj' & Hf); [done|].
  assert (a_projection a' = a_projection a ∧ a_conflicts a' = a_conflicts a
          ∧ others a' = others a) as (Ep & Ec & Eo).
  { unfold frame, others in *. injection Hf as -> -> -> -> -> -> ->. done. }
  exists r, a'. split; [done|]. exists ops'. split; [done|].
  split; [split_and!; [done|by rewrite Ec|done]|by rewrite Ep].
Qed.
Lemma status_working i st err ops ot :
  in_ready_states st || is_terminal st = true →
  hoare (working ops ot) (drop_result (update_operation_status i st err))
    (λ _ a, ∃ now, working (after_status i st err now ops) ot a).
Proof.
  intros Hst. eapply hoare_bind.
  - apply (lift_working ops ot _ (λ _ l, ∃ now, l = after_status i st err now ops)). intros fr _.
    eapply hoare_conseq; [by apply update_status_hoare|done|]. intros r a (now & _ & Ha).
    eexists. split; [by exists now|done].
  - intros r. apply hoare_ret. intros a (l & (now & ->) & Ha). by exists now.
Qed.
Lemma attempt_working i err ops ot :
  hoare (working ops ot) (note_operation_attempt i err)
    (λ _ a, ∃ now, working (update_id i (with_attempt err now) ops) ot a).
Proof.
  eapply hoare_conseq; [|done|].
  - apply (lift_working ops ot _ (λ _ l, ∃ now, l = update_id i (with_attempt err now) ops)).
    intros fr _. eapply hoare_conseq; [apply note_attempt_hoare|done|]. intros r a (now & Ha).
    eexists. split; [by exists now|done].
  - intros r a (l & (now & ->) & Ha). by exists now.
Qed.
Lemma refresh_working ops ot :
  hoare (working ops ot) (drop_result refresh_blocked_operations)
    (λ _ a, working (map (normalize ot.1.1.1.2) ops) ot a).
Proof.
  eapply hoare_bind.
  - apply (lift_working ops ot _ (λ _ l, l = map (normalize ot.1.1.1.2) ops)). intros fr <-.
    eapply hoare_conseq; [apply refresh_hoare|done|]. intros r a [_ Ha]. by eexists.
  - intros r. apply hoare_ret. by intros a (l & -> & Ha).
Qed.
Lemma load_working {A} ops ot (k : list OfflineOperation → AM A) Q :
  (ops_ok ops → hoare (working ops ot) (k ops) Q) → hoare (working ops ot) (bind _load_ops k) Q.
Proof.
  intros Hk. eapply hoare_pure; [intros a Ha; exact (proj1 (proj1 (proj1 Ha)))|]. intros Hok.
  eapply hoare_bind.
  - apply (lift_working ops ot _ (λ r l, r = ops ∧ l = ops)). intros fr _.
    eapply hoare_conseq; [apply load_ops_hoare|done|]. intros r a [-> Ha]. by eexists.
  - intros r. apply hoare_exists. intros l. apply hoare_fact. intros [-> ->]. by apply Hk.
Qed.
Lemma write_conflicts_working cs ops ot :
  hoare (working ops ot) (write_conflicts cs) (λ _, working ops ot).
Proof.
  apply hoare_modify. intros a [(Hj & Hc & Ho) Hp]. split; [|exact Hp].
  split_and!; [exact Hj|apply written_conflicts_fine|exact Ho].
Qed.
Lemma with_conflicts {A} ops ot (k : list OfflineConflict → AM A) Q :
  (∀ cs, hoare (working ops ot) (k cs) Q) →
  hoare (working ops ot) (bind list_conflicts k) Q.
Proof.
  intros Hk a Ha. destruct (list_conflicts_run a) as [cs E]; [apply Ha|].
  rewrite (bind_ok _ _ _ _ _ E). by apply Hk.
Qed.
Lemma add_conflict_working c ops ot :
  hoare (working ops ot) (add_conflict c) (λ _, working ops ot).
Proof.
  apply with_conflicts. intros cs. cbv zeta.
  eapply (hoare_bind _ _ _ (λ _, working ops ot)); [|intros t; apply write_conflicts_working].
  destruct (str_empty _); [|by apply hoare_ret]. intros a Ha. eexists _, _. by split.
Qed.
Lemma remove_conflict_working i ops ot :
  hoare (working ops ot) (remove_conflict i) (λ _, working ops ot).
Proof. apply with_conflicts. intros cs. apply write_conflicts_working. Qed.

(** ** Accounts in working order, whatever their other files hold *)

Definition works (ops : list OfflineOperation) (a : account) : Prop := ∃ ot, working ops ot a.

Lemma works_hoare {A} ops (m : AM A) (Q : A → account → Prop) :
  (∀ ot, hoare (working ops ot) m Q) → hoare (works ops) m Q.
Proof. intros Hm. apply hoare_exists. apply Hm. Qed.
Lemma working_works {A} ops ops' (m : AM A) :
  (∀ ot, hoare (working ops ot) m (λ _, working ops' ot)) → hoare (works ops) m (λ _, works ops').
Proof.
  intros Hm. apply works_hoare. intros ot. eapply hoare_conseq; [apply Hm|done|]. intros r a Ha.
  by exists ot.
Qed.
Lemma works_set_failed f ops a : works ops a → works ops (set_failed f a).
Proof. intros (ot & (Hj & Hc & Ho) & Hp). by exists (others (set_failed f a)). Qed.
Lemma works_set_upload f ops a : works ops a → works ops (set_upload_index f a).
Proof. intros (ot & (Hj & Hc & Ho) & Hp). by exists (others (set_upload_index f a)). Qed.
Lemma works_set_temp_map f ops a : works ops a → works ops (set_temp_map f a).
Proof. intros (ot & (Hj & Hc & Ho) & Hp). by exists (others (set_temp_map f a)). Qed.
Lemma works_set_ticks c u ops a : works ops a → works ops (set_ticks c u a).
Proof. intros (ot & (Hj & Hc & Ho) & Hp). by exists (others (set_ticks c u a)). Qed.

Ltac keep :=
  repeat match goal with
    | |- keeps _ (ret _) => apply keeps_ret
    | |- keeps _ (lift _) => apply keeps_lift
    | |- keeps _ (gets _) => apply keeps_gets
    | |- keeps _ (raise _) => apply keeps_raise
    | |- keeps _ (bind _ _) => apply keeps_bind; [|intros ?]
    | |- keeps _ (match _ with _ => _ end) => case_match
    | |- keeps _ ((λ _, _) _) => cbn beta
    end.

Lemma keeps_uuid ops : keeps (works ops) uuid_hex.
Proof. intros a Ha. by apply works_set_ticks. Qed.
Lemma keeps_now ops : keeps (works ops) utc_now_iso.
Proof. intros a Ha. by apply works_set_ticks. Qed.
Lemma keeps_normalize_item ops p : keeps (works ops) (_normalize_item p).
Proof. unfold _normalize_item, file_content, setdefault_m. keep; apply keeps_uuid || apply keeps_now. Qed.
Lemma keeps_normalize_each ops l : keeps (works ops) (normalize_each l).
Proof.
  induction l as [|[] l IH]; cbn [normalize_each]; try done; keep; done || apply keeps_normalize_item.
Qed.
Lemma keeps_load_index ops : keeps (works ops) _load_index.
Proof. unfold _load_index, read_json. keep; apply keeps_normalize_each. Qed.
Lemma keeps_write_index ops items : keeps (works ops) (_write_index items).
Proof.
  unfold _write_index. keep; [apply keeps_normalize_each|]. intros acc Hacc. by apply works_set_upload.
Qed.
Lemma keeps_rewrite_media ops ty old new : keeps (works ops) (rewrite_media_parent_refs ty old new).
Proof.
  unfold rewrite_media_parent_refs. keep; [apply keeps_load_index| |apply keeps_write_index].
  match goal with |- keeps _ (rewrite_each _ _ _ ?l) => induction l as [|x l IH] end;
    cbn [rewrite_each]; keep; [|done]. unfold rewrite_parent. keep. apply keeps_now.
Qed.
Lemma keeps_upsert_projection ops r : keeps (works ops) (upsert_projection_record r).
Proof. apply keeps_hoare, working_works. intros ot. apply upsert_projection_working. Qed.
Lemma keeps_list_projection ops ty : keeps (works ops) (list_projection_records ty).
Proof. intros a [ot Ha]. destruct (list_projection_run ty ops ot a Ha) as [rs ->]. by exists ot. Qed.
Lemma keeps_rewrite_records ops field old new rs n :
  keeps (works ops) (rewrite_records field old new n rs).
Proof.
  revert n. induction rs as [|r rs IH]; intros n; cbn [rewrite_records]; keep; try apply IH.
  apply keeps_upsert_projection.
Qed.
Lemma keeps_rewrite_fields ops old new fs n : keeps (works ops) (rewrite_fields old new n fs).
Proof.
  revert n. induction fs as [|[ty field] fs IH]; intros n; cbn [rewrite_fields]; keep; try apply IH.
  - apply keeps_list_projection.
  - apply keeps_rewrite_records.
Qed.
Lemma keeps_rewrite_projection ops p old new :
  keeps (works ops) (rewrite_projection_parent_refs p old new).
Proof. apply keeps_rewrite_fields. Qed.

(** ** The handlers *)

(** [g] moves an operation to status [st], counting [k] attempts, and nothing else. *)
Record retains (st : string) (k : Z) (g : OfflineOperation → OfflineOperation) : Prop := {
  rt_id : ∀ o, op_id (g o) = op_id o;
  rt_status : ∀ o, op_status (g o) = st;
  rt_attempts : ∀ o, op_attempts (g o) = op_attempts o + k;
  rt_payload : ∀ o, op_payload (g o) = op_payload o;
  rt_target : ∀ o, (op_entity_type (g o), op_local_id (g o), op_type (g o))
                   = (op_entity_type o, op_local_id o, op_type o)
}.
Lemma update_twice i g1 g2 ops :
  (∀ o, op_id (g1 o) = op_id o) →
  update_id i g2 (update_id i g1 ops) = update_id i (λ o, g2 (g1 o)) ops.
Proof.
  intros Hid. unfold update_id. rewrite map_map. apply map_ext. intros o.
  destruct (has_id i o) eqn:E; unfold has_id in *; rewrite ?Hid, E; done.
Qed.
Lemma retains_status st err now k st0 g :
  retains st0 k g → retains st k (λ o, with_status st err now (g o)).
Proof. intros [? ? ? ? ?]. by split. Qed.
Lemma retains_attempt err now k st0 g :
  retains st0 k g → retains st0 (k + 1) (λ o, with_attempt err now (g o)).
Proof. intros [? ? Ha ? ?]. split; try done. intros o. simpl. rewrite Ha. lia. Qed.

(** The operations, [i] being moved by some [g]. *)
Definition moved i st k ops (a : account) : Prop :=
  ∃ g, retains st k g ∧ works (update_id i g ops) a.
Lemma status_moved i st err st0 k ops :
  in_ready_states st = true →
  hoare (moved i st0 k ops) (drop_result (update_operation_status i st err))
    (λ _, moved i st k ops).
Proof.
  intros Hst. apply hoare_exists. intros g. apply hoare_fact. intros Hg. apply works_hoare. intros ot.
  eapply hoare_conseq; [apply status_working; by rewrite Hst|done|]. intros r a (now & Ha).
  exists (λ o, with_status st err now (g o)). split; [by eapply retains_status|].
  exists ot. unfold after_status in Ha.
  destruct (is_terminal st) eqn:Et; [by rewrite (terminal_not_ready st Et) in Hst|].
  by rewrite update_twice in Ha by apply Hg.
Qed.
Lemma status_removed i st err st0 k ops :
  is_terminal st = true →
  hoare (moved i st0 k ops) (drop_result (update_operation_status i st err))
    (λ _, works (without i ops)).
Proof.
  intros Hst. apply hoare_exists. intros g. apply hoare_fact. intros Hg. apply works_hoare. intros ot.
  eapply hoare_conseq; [apply status_working; by rewrite Hst, orb_true_r|done|]. intros r a (now & Ha).
  exists ot. unfold after_status in Ha. rewrite Hst, without_update in Ha by apply Hg. done.
Qed.
Lemma attempt_moved i err st0 k ops :
  hoare (moved i st0 k ops) (note_operation_attempt i err) (λ _, moved i st0 (k + 1) ops).
Proof.
  apply hoare_exists. intros g. apply hoare_fact. intros Hg. apply works_hoare. intros ot.
  eapply hoare_conseq; [apply attempt_working|done|]. intros r a (now & Ha).
  exists (λ o, with_attempt err now (g o)). split; [by apply retains_attempt|].
  exists ot. by rewrite update_twice in Ha by apply Hg.
Qed.
Lemma moved_frame {A} i st k ops (m : AM A) :
  (∀ ops' ot, hoare (working ops' ot) m (λ _, working ops' ot)) →
  hoare (moved i st k ops) m (λ _, moved i st k ops).
Proof.
  intros Hm. apply hoare_exists. intros g. apply hoare_fact. intros Hg.
  eapply hoare_conseq; [by apply working_works; intros ot; apply Hm|done|]. intros r a Ha. by exists g.
Qed.
End Spec.
