(* ===== verification/ReconcilerProps.v ===== *)
(** * Replay outcomes: no operation is lost

    What one replayed operation, and a whole replay, do to the journal for every answer of the
    server. *)

From S2P Require Import Prelude PyValue OfflineTypes OfflineStore OfflineProjection.
From S2P Require Import OfflineJournal JournalSpec JournalCancel JournalProps UploadQueue ApiClient.
From S2P Require Import OfflineReconciler ReconcilerSpec.
Local Open Scope Z_scope.

Section Handlers.
Context `{Oracle, !ClockOk}.

(** The outcome of a failed request. *)
Definition generic_op (op : OfflineOperation) : bool := bool_decide (op_entity_type op = "generic").
Definition failure_outcome (op : OfflineOperation) (e : exn) : string :=
  let permanent := if generic_op op then "discarded" else "needs_review" in
  match e with
  | ApiError code _ =>
      if (code =? 401) || (code =? 403) then "blocked"
      else if _is_retryable_error e then "retryable" else permanent
  | RuntimeError _ => "retryable"
  | _ => permanent
  end.
(** The status an operation that stays is left in. *)
Definition kept_status (outcome : string) : string :=
  if decide (outcome = "retryable") then "pending" else outcome.
Definition counted (outcome : string) : Z := if decide (outcome = "retryable") then 1 else 0.

(** The last entry of the list of failed mutations. *)
Definition last_failed_id (a : account) : option pyval :=
  match a_failed a with
  | FJson (PList l) => match last l with Some (PDict d) => dget "id" d | _ => None end
  | _ => None
  end.

Lemma last_drop {A} n (l : list A) x : (n ≤ length l)%nat → last (drop n (l ++ [x])) = Some x.
Proof.
  intros Hn. rewrite drop_app_le by done. by rewrite last_snoc.
Qed.
Lemma record_failed_works item err ops st k i :
  hoare (moved i st k ops) (record_failed_api_mutation item err)
    (λ _ a, moved i st k ops a ∧ last_failed_id a = dget "id" (dset "last_error" (PStr err)
               (dset "failed_at" (PStr EmptyString) item))).
Proof.
  intros a (g & Hg & Ha). unfold record_failed_api_mutation, utc_now_iso, _load_failed, _write_failed,
    read_json, write_json_atomic, bind, gets, modify, ret.
  eexists _, _. split; [done|]. split.
  - exists g. split; [done|]. apply works_set_failed. by apply works_set_ticks.
  - unfold last_failed_id. cbn [a_failed set_failed]. unfold _MAX_FAILED_ITEMS.
    rewrite last_drop by (rewrite length_app; simpl; lia).
    by rewrite !dget_dset_ne by done.
Qed.

Lemma generic_failure_works op e st k ops :
  hoare (moved (op_id op) st k ops) (_handle_generic_permanent_failure op e)
    (λ _ a, works (without (op_id op) ops) a ∧ last_failed_id a = Some (PStr (op_id op))).
Proof.
  eapply hoare_bind; [apply record_failed_works|]. intros _u a [Hm Hl].
  destruct (status_removed (op_id op) "cancelled" (exn_str e) st k ops eq_refl a Hm)
    as (r & a' & E & Hw).
  exists r, a'. split; [done|]. split; [done|].
  assert (a_failed a' = a_failed a) as Ef; [|unfold last_failed_id in *; rewrite Ef, Hl; done].
  destruct Hm as (g & _ & ot & Hwk).
  destruct (status_working (op_id op) "cancelled" (exn_str e) (update_id (op_id op) g ops) ot)
    with (s := a) as (r2 & a2 & E2 & now & ((_ & _ & Ho2) & _)); [done..|].
  rewrite E in E2. simplify_eq. destruct Hwk as ((_ & _ & Ho) & _).
  unfold others in *. congruence.
Qed.

Lemma retryable_works op e st k ops :
  hoare (moved (op_id op) st k ops) (_handle_retryable_failure op e)
    (λ _, moved (op_id op) "pending" (k + 1) ops).
Proof.
  eapply hoare_bind; [apply attempt_moved|]. intros _u.
  eapply hoare_bind; [by apply status_moved|]. intros _v.
  apply moved_frame. intros. apply set_status_working.
Qed.
Lemma auth_block_works op e st k ops :
  hoare (moved (op_id op) st k ops) (_handle_auth_block op e)
    (λ _, moved (op_id op) "blocked" k ops).
Proof.
  eapply hoare_bind; [by apply status_moved|]. intros _v.
  apply moved_frame. intros. apply set_status_working.
Qed.
Lemma review_works op e st k ops :
  hoare (moved (op_id op) st k ops) (_handle_review_failure op e)
    (λ _, moved (op_id op) "needs_review" k ops).
Proof.
  eapply hoare_bind; [by apply status_moved|]. intros _v.
  eapply hoare_bind; [apply moved_frame; intros; apply set_status_working|]. intros _w.
  apply moved_frame. intros. apply add_conflict_working.
Qed.

(** What a failed request leaves. *)
Definition after_failure op (o : string) ops (a : account) : Prop :=
  if decide (o = "discarded") then
    works (without (op_id op) ops) a ∧ last_failed_id a = Some (PStr (op_id op))
  else moved (op_id op) (kept_status o) (counted o) ops a.

Lemma returning {A} (m : AM unit) (x : A) P Q :
  hoare P m (λ _, Q) → hoare P (do! m in ret x) (λ r a, r = x ∧ Q a).
Proof. intros Hm. eapply hoare_bind; [exact Hm|]. intros _u. by apply hoare_ret. Qed.

Lemma on_failure_works op e st ops :
  hoare (moved (op_id op) st 0 ops) (on_failure op e)
    (λ o a, o = failure_outcome op e ∧ after_failure op o ops a).
Proof.
  assert (∀ x, x = "blocked" ∨ x = "needs_review" ∨ x = "retryable" →
    ∀ m, hoare (moved (op_id op) st 0 ops) m (λ _, moved (op_id op) (kept_status x) (counted x) ops) →
    hoare (moved (op_id op) st 0 ops) (do! m in ret x)
      (λ o a, o = x ∧ after_failure op o ops a)) as Hstay.
  { intros x Hx m Hm. eapply hoare_conseq; [by apply returning|done|]. intros r a [-> Ha].
    split; [done|]. unfold after_failure. by destruct Hx as [->|[->| ->]]. }
  assert (hoare (moved (op_id op) st 0 ops)
    (do! _handle_generic_permanent_failure op e in ret "discarded")
    (λ o a, o = "discarded" ∧ after_failure op o ops a)) as Hgen.
  { eapply hoare_conseq; [apply returning, generic_failure_works|done|]. by intros r a [-> Ha]. }
  assert (hoare (moved (op_id op) st 0 ops)
    (if decide (op_entity_type op = "generic")
     then do! _handle_generic_permanent_failure op e in ret "discarded"
     else do! _handle_review_failure op e in ret "needs_review")
    (λ o a, o = (if generic_op op then "discarded" else "needs_review") ∧ after_failure op o ops a))
    as Hperm.
  { unfold generic_op. case_decide as Eg; [rewrite bool_decide_eq_true_2 by done; exact Hgen|].
    rewrite bool_decide_eq_false_2 by done.
    apply Hstay; [by auto|]. apply review_works. }
  unfold on_failure, failure_outcome. destruct e as [m|m|m|m|code m|m]; try exact Hperm.
  - apply Hstay; [by auto|]. eapply hoare_conseq; [apply retryable_works|done|done].
  - destruct ((code =? 401) || (code =? 403)); [apply Hstay; [by auto|apply auth_block_works]|].
    destruct (_is_retryable_error (ApiError code m)); [|exact Hperm].
    apply Hstay; [by auto|]. eapply hoare_conseq; [apply retryable_works|done|done].
Qed.

(** ** Successful replies *)

Lemma sync_statuses_works ops :
  hoare (works ops) _sync_create_projection_statuses (λ _, works ops).
Proof.
  apply working_works. intros ot. eapply (hoare_bind _ _ _ (λ _, working ops ot)).
  - apply load_working. intros _ a Ha. eexists _, a. split; [apply normalize_all_run|done].
  - intros l. apply (hoare_for_each _ (λ _, working ops ot)). intros done_ o todo _.
    destruct (_ || (0 <=? op_local_id o)); [by apply hoare_ret|].
    apply get_projection_working. intros [r|]; [|by apply hoare_ret].
    destruct (_ || _); [apply mark_projection_working|by apply hoare_ret].
Qed.

(** What a 2xx answer to anything but a creation leaves. *)
Lemma applied_works op st ops (m : AM unit) :
  (∀ ops' ot, hoare (working ops' ot) m (λ _, working ops' ot)) →
  hoare (moved (op_id op) st 0 ops)
    (do! drop_result (update_operation_status (op_id op) "applied" EmptyString) in
     do! remove_conflict (op_id op) in do! m in ret "flushed")
    (λ o a, o = "flushed" ∧ works (without (op_id op) ops) a).
Proof.
  intros Hm. eapply hoare_bind; [by apply status_removed|]. intros _u.
  eapply hoare_bind; [apply working_works; intros ot; apply remove_conflict_working|]. intros _v.
  apply returning. apply working_works. intros ot. apply Hm.
Qed.

Lemma keeps_moved {A} i st k ops (m : AM A) :
  (∀ ops', keeps (works ops') m) → keeps (moved i st k ops) m.
Proof. intros Hm a (g & Hg & Ha). exists g. split; [done|]. by apply Hm. Qed.
Lemma keeps_drop {A} P (m : AM A) : keeps P m → keeps P (drop_result m).
Proof. intros Hm. apply keeps_bind; [done|]. intros r. apply keeps_ret. Qed.
Lemma keeps_record ops ty lid sid : keeps (works ops) (record_reconciled_id ty lid sid).
Proof.
  intros a Ha. unfold record_reconciled_id.
  rewrite (bind_ok _ _ _ _ _ (reconciliation_map_run a)). by apply works_set_temp_map.
Qed.
Lemma keeps_reconcile ops ty temp sid p :
  keeps (works ops) (reconcile_projection_record ty temp sid p).
Proof.
  apply keeps_bind.
  - apply keeps_hoare, working_works. intros ot. apply remove_projection_working.
  - intros _u. apply keeps_upsert_projection.
Qed.

(** The end of a successful creation, once the references are rewritten. *)
Lemma create_tail_works op st ops :
  hoare (moved (op_id op) st 0 ops)
    (do! drop_result (update_operation_status (op_id op) "applied" EmptyString) in
     do! remove_conflict (op_id op) in
     do! drop_result refresh_blocked_operations in _sync_create_projection_statuses)
    (λ _ a, ∃ f, works (map (normalize f) (without (op_id op) ops)) a).
Proof.
  eapply hoare_bind; [by apply status_removed|]. intros _u.
  eapply hoare_bind; [apply working_works; intros ot; apply remove_conflict_working|]. intros _v.
  eapply (hoare_bind _ _ _ (λ _ a, ∃ f, works (map (normalize f) (without (op_id op) ops)) a)).
  - apply works_hoare. intros ot. eapply hoare_conseq; [apply refresh_working|done|].
    intros r a Ha. exists ot.1.1.1.2, ot. exact Ha.
  - intros _w. apply hoare_exists. intros f. eapply hoare_conseq; [apply sync_statuses_works|done|].
    intros r a Ha. by exists f.
Qed.
Lemma create_success_safe op payload body st ops :
  safe (moved (op_id op) st 0 ops) (_apply_create_success op payload body)
    (λ _ a, ∃ f, works (map (normalize f) (without (op_id op) ops)) a)
    (moved (op_id op) st 0 ops).
Proof.
  eapply safe_bind; [apply safe_keeps, keeps_lift|]. intros created.
  destruct (created <=? 0); [apply safe_raise; intros s Hs; exact Hs|]. cbv zeta.
  eapply safe_bind; [apply safe_keeps, keeps_moved; intros; apply keeps_record|]. intros _u1.
  eapply safe_bind; [apply safe_keeps, keeps_moved; intros; apply keeps_reconcile|]. intros _u2.
  eapply safe_bind.
  { apply safe_keeps, keeps_drop, keeps_moved. intros. apply keeps_rewrite_projection. }
  intros _u3. eapply safe_bind.
  { apply safe_keeps, keeps_drop, keeps_moved. intros. apply keeps_rewrite_media. }
  intros _u4. apply safe_hoare, create_tail_works.
Qed.

(** What a 2xx answer leaves: the operation is done, or a creation whose answer could not be
    applied waits for a review. *)
Definition after_reply op (o : string) ops (a : account) : Prop :=
  (o = "flushed" ∧ (works (without (op_id op) ops) a
                    ∨ ∃ f, works (map (normalize f) (without (op_id op) ops)) a))
  ∨ (o = "needs_review" ∧ is_create op = true ∧ moved (op_id op) "needs_review" 0 ops a).

Lemma on_reply_works op body payload st ops :
  hoare (moved (op_id op) st 0 ops) (on_reply op body payload) (λ o a, after_reply op o ops a).
Proof.
  unfold on_reply, after_reply. fold (is_create op).
  destruct (is_create op && negb (bool_decide (op_entity_type op = "generic"))) eqn:Ec.
  - apply andb_true_iff in Ec as [Ec _].
    apply (hoare_catch _ _ _ _ (moved (op_id op) st 0 ops)).
    + eapply safe_bind; [apply create_success_safe|]. intros _u. apply safe_hoare, hoare_ret.
      intros a Ha. left. auto.
    + intros e. eapply hoare_conseq; [apply returning, review_works|done|].
      intros r a [-> Ha]. right. auto.
  - eapply hoare_conseq; [apply (applied_works op st ops)|done|].
    + intros ops' ot. destruct (bool_decide (op_type op = "delete") && _); [apply remove_projection_working|apply set_status_working].
    + intros r a [-> Ha]. left. auto.
Qed.

Lemma start_moved op ops :
  hoare (works ops)
    (do! drop_result (update_operation_status (op_id op) "syncing" EmptyString) in
     _set_projection_status op "syncing" EmptyString)
    (λ _, moved (op_id op) "syncing" 0 ops).
Proof.
  eapply (hoare_bind _ _ _ (λ _, moved (op_id op) "syncing" 0 ops)).
  - apply works_hoare. intros ot. eapply hoare_conseq; [by apply status_working|done|].
    intros r a (now & Ha). exists (with_status "syncing" EmptyString now). split; [|by exists ot].
    split; try done. intros o. simpl. lia.
  - intros _u. apply moved_frame. intros. apply set_status_working.
Qed.

(** Resolving the references of an operation only reads the account. *)
Definition reads {A} (m : AM A) : Prop := ∀ a, (m a).2 = a.
Lemma reads_bind {A B} (m : AM A) (k : A → AM B) : reads m → (∀ x, reads (k x)) → reads (bind m k).
Proof.
  intros Hm Hk a. unfold bind. specialize (Hm a). destruct (m a) as [[x|e] a']; simpl in *; subst;
    [apply Hk|done].
Qed.
Lemma reads_resolved r : reads (_resolved_parent_id r).
Proof.
  unfold _resolved_parent_id. destruct (0 <? ref_local_id r) eqn:E; [done|].
  unfold resolve_reconciled_id. rewrite E. intros a.
  by rewrite (bind_ok _ _ _ _ _ (reconciliation_map_run a)).
Qed.
Lemma reads_path path refs : reads (_resolve_path_template path refs).
Proof.
  revert path. induction refs as [|[k v] refs IH]; intros path; [done|]. cbn [_resolve_path_template].
  apply reads_bind; [done|]. intros r. apply reads_bind; [apply reads_resolved|]. by intros [i|].
Qed.
Lemma reads_body body refs : reads (_resolve_body_refs body refs).
Proof.
  revert body. induction refs as [|[k v] refs IH]; intros body; [done|]. cbn [_resolve_body_refs].
  apply reads_bind; [done|]. intros r. apply reads_bind; [apply reads_resolved|]. by intros [i|].
Qed.
Lemma reads_request op : reads (_resolve_request_payload op).
Proof.
  unfold _resolve_request_payload. cbv zeta. apply reads_bind.
  - destruct (truthy _); [|done]. apply reads_bind; [done|]. intros. apply reads_path.
  - intros path. apply reads_bind; [done|]. intros refs. apply reads_bind; [apply reads_body|]. done.
Qed.
End Handlers.

(** ** Properties *)

Section Theorems.
Context `{Oracle, !ClockOk} {C : Type} `{!Sender C}.

End Theorems.

(** ** A weakness of the replay

    An operation blocked by a 401 or 403 carries the error [auth_required]: no refresh unblocks
    it and it is never ready again, although its parents are known and the user may have signed
    in since. *)
Lemma auth_blocked_is_never_sent f o ops :
  op_status o = "blocked" → op_last_error o = "auth_required" →
  op_status (normalize f o) = "blocked" ∧ normalize f o ∉ ready_list f ops.
Proof.
  intros Hs He.
  assert (op_status (normalize f o) = "blocked") as Hn.
  { unfold normalize, unblocks. rewrite Hs, He, andb_false_r. done. }
  split; [done|]. intros [Hp _]%ready_list_elem. congruence.
Qed.

(** ** Witnesses *)

(** A server that answers every request with the given outcome. *)
Definition demo_sender (r : res pyval) : Sender nat := λ _ c, (r, S c).
Lemma demo_works : @works [demo_client; demo_request] demo_journal.
Proof. exists (others empty_account). split; [exact demo_journal_ok|constructor]. Qed.

