(* ===== verification/EntityProps.v ===== *)
(** * Mutations made offline reach the server once

    The idempotency key of a creation, the freshness of temporary ids, and the queueing of
    mutations that could not be sent. *)

From S2P Require Import Prelude PyValue OfflineTypes OfflineStore OfflineProjection.
From S2P Require Import OfflineJournal JournalSpec JournalCancel JournalProps UploadQueue ApiClient.
From S2P Require Import OfflineReconciler ReconcilerSpec ReconcilerProps OfflineEntities.
Local Open Scope Z_scope.

(** An id from [uuid4] is never the empty text. *)
Class UuidOk `{Oracle} : Prop := uuid_nonempty : ∀ n, str_empty (uuid4 n) = false.
Lemma demo_uuid_ok : @UuidOk demo_oracle.
Proof. by intros n. Qed.

Section Entities.
Context `{Oracle, !ClockOk, !UuidOk} {C : Type} `{!Sender C}.
Variable scope : OfflineAccountScope.

(** ** Temporary ids *)

(** The last id given out for a type, 0 before the first. *)
Definition last_temp_id (entity_type : string) (f : pyfile) : res Z :=
  match f with FJson v => int_field entity_type (dict_or_empty v) | _ => Ok 0 end.
Definition next_temp_id (current : Z) : Z := if current <=? -1 then current - 1 else -1.

Lemma allocate_run ty cur a :
  last_temp_id ty (a_allocator a) = Ok cur →
  ∃ f, allocate_temp_id ty a = (Ok (next_temp_id cur), set_allocator f a)
    ∧ last_temp_id ty f = Ok (next_temp_id cur)
    ∧ ∀ ty' n, ty' ≠ ty → last_temp_id ty' (a_allocator a) = Ok n → last_temp_id ty' f = Ok n.
Proof.
  intros Hc. unfold allocate_temp_id, read_json. rewrite bind_gets.
  set (d := match a_allocator a with FJson v => v | _ => PDict [] end).
  assert (∀ ty', last_temp_id ty' (a_allocator a) = int_field ty' (dict_or_empty d)) as Hd.
  { intros ty'. unfold d, last_temp_id. by destruct (a_allocator a). }
  rewrite Hd in Hc. unfold lift. erewrite bind_ok by (by rewrite Hc).
  eexists. split; [done|]. split.
  - simpl. unfold int_field, get. rewrite dget_dset_eq. apply int_of_or_int.
  - intros ty' n Hne Hn. rewrite Hd in Hn. simpl. unfold int_field, get in *.
    by rewrite dget_dset_ne.
Qed.
Lemma next_temp_id_lt cur : next_temp_id cur < 0 ∧ (cur <= 0 → next_temp_id cur < cur ∨ cur = 0).
Proof. unfold next_temp_id. destruct (Z.leb_spec cur (-1)); lia. Qed.

(** ** Queueing a creation *)

Lemma works_set_allocator f ops a : works ops a → works ops (set_allocator f a).
Proof. intros (ot & (Hj & Hc & Ho) & Hp). by exists (others (set_allocator f a)). Qed.

Lemma queue_create_works ty lid p refs dk i ops :
  valid_target ty refs = true → str_empty i = false →
  hoare (works ops) (queue_create_operation scope ty lid p refs (Some dk) (Some i))
    (λ r a, op_id r = i ∧ op_payload r = p ∧ op_local_id r = lid ∧ op_dedupe_key r = dk
            ∧ is_create r = true ∧ works (upserted r ops) a).
Proof.
  intros Hv Hi. apply works_hoare. intros ot a Ha. unfold queue_create_operation, utc_now_iso.
  erewrite bind_ok by reflexivity. unfold id_or_uuid. rewrite Hi. rewrite bind_ret.
  rewrite (bind_ok _ _ _ _ _ (initial_status_run refs _)).
  set (st := if forallb _ refs then _ else _). set (a1 := set_ticks _ _ a).
  assert (working ops ot a1) as Ha1 by (destruct Ha as ((Hj & Hc & Ho) & Hp); by split).
  destruct (lift_working ops ot (_upsert_op (mkOp i (account_key scope) ty "create" lid p refs dk st 0
      EmptyString (clock (a_clock a)) (clock (a_clock a))))
    (λ r l, r = mkOp i (account_key scope) ty "create" lid p refs dk st 0 EmptyString
                  (clock (a_clock a)) (clock (a_clock a)) ∧ l = upserted r ops))
    with (s := a1) as (r & a' & E & l & (-> & ->) & Ha'); [|done|].
  { intros fr _. eapply hoare_conseq; [apply upsert_hoare|done|].
    - apply ready_new; [done..|]. unfold st. by destruct (forallb _ refs).
    - intros r s [-> Hs]. by eexists. }
  eexists _, a'. split; [exact E|]. split_and!; try done. by exists ot.
Qed.

Lemma queue_create_entity_works rq i ops a cur :
  works ops a →
  valid_target (cr_entity_type rq) (_collect_parent_refs (cr_path_refs rq) (cr_body_refs rq)) = true →
  str_empty i = false → last_temp_id (cr_entity_type rq) (a_allocator a) = Ok cur →
  ∃ op a', _queue_create scope rq i a = (Ok (next_temp_id cur), a') ∧ works (upserted op ops) a'
    ∧ op_id op = i ∧ op_local_id op = next_temp_id cur ∧ is_create op = true
    ∧ op_dedupe_key op = _idempotency_key scope (cr_entity_type rq) i
    ∧ header_dict (get "headers" (op_payload op))
      = [("Idempotency-Key", _idempotency_key scope (cr_entity_type rq) i)].
Proof.
  intros Hw Hv Hi Hc. unfold _queue_create.
  destruct (allocate_run _ _ _ Hc) as (f & E & _). rewrite (bind_ok _ _ _ _ _ E). cbv zeta.
  match goal with |- context [queue_create_operation scope ?ty ?l ?p ?rs (Some ?dk) (Some i)] =>
    destruct (queue_create_works ty l p rs dk i ops Hv Hi (set_allocator f a))
      as (op & a1 & E1 & Hid & Hp & Hl & Hd & Hcr & Hw1); [by apply works_set_allocator|] end.
  rewrite (bind_ok _ _ _ _ _ E1).
  destruct Hw1 as [ot Hw1].
  destruct (upsert_projection_working (mkProj (cr_entity_type rq) (next_temp_id cur) None
     (dsetdefault "id" (PInt (next_temp_id cur)) (cr_projection_data rq)) (op_status op)
     EmptyString true) _ ot a1 Hw1) as ([] & a2 & E2 & Hw2).
  unfold _create_projection. erewrite bind_ok by exact E2.
  exists op, a2. split; [done|]. split; [by exists ot|]. rewrite Hp. done.
Qed.

(** ** Queueing a mutation that could not be sent *)

Definition without_key (dk : string) (ops : list OfflineOperation) : list OfflineOperation :=
  if str_empty dk then ops
  else List.filter (λ o, negb (bool_decide (op_dedupe_key o = dk))) ops.
(** The journaled form of a generic mutation. *)
Definition journals method path body params (headers : list (string * string)) dk label
    (op : OfflineOperation) : Prop :=
  op_entity_type op = "generic" ∧ op_dedupe_key op = dk ∧ op_status op = "pending"
  ∧ op_payload op = [("method", PStr (upper (str_or method "POST"))); ("path", PStr path);
                     ("body", PDict body); ("params", PDict params);
                     ("headers", PDict (map (λ '(k, v), (k, PStr v)) headers));
                     ("label", PStr label)].

Lemma legacy_working ops ot :
  hoare (working ops ot) quarantine_legacy_api_queue_files (λ _, working ops ot).
Proof.
  apply (hoare_for_each _ (λ _, working ops ot)). intros done_ stem todo _.
  apply hoare_modify. intros a Ha. by case_bool_decide.
Qed.
Lemma now_working {A} ops ot (k : string → AM A) Q :
  (∀ now, str_empty now = false → hoare (working ops ot) (k now) Q) →
  hoare (working ops ot) (bind utc_now_iso k) Q.
Proof.
  intros Hk a ((Hj & Hc & Ho) & Hp). unfold utc_now_iso. erewrite bind_ok by reflexivity.
  apply Hk; [apply clock_nonempty|]. by split.
Qed.
Lemma uuid_working {A} ops ot (k : string → AM A) Q :
  (∀ i, hoare (working ops ot) (k i) Q) → hoare (working ops ot) (bind uuid_hex k) Q.
Proof.
  intros Hk a ((Hj & Hc & Ho) & Hp). unfold uuid_hex. erewrite bind_ok by reflexivity.
  apply Hk. by split.
Qed.

Lemma queue_generic_working method path body params hs dk label ops ot :
  hoare (working ops ot)
    (queue_generic_api_mutation scope method path body params hs (Some dk) (Some label) None)
    (λ op a, journals method path body params hs dk label op
             ∧ working (upserted op (without_key dk ops)) ot a).
Proof.
  eapply hoare_bind; [apply legacy_working|]. intros _u. cbv zeta.
  eapply (hoare_bind _ _ _ (λ _, working (without_key dk ops) ot)).
  - unfold without_key. cbn [default]. unfold id. destruct (str_empty dk); [by apply hoare_ret|].
    apply load_working. intros _.
    eapply hoare_conseq; [apply (lift_working ops ot _ (λ _ l,
       l = List.filter (λ o, negb (bool_decide (op_dedupe_key o = dk))) ops))|done|].
    + intros fr _. eapply hoare_conseq;
        [apply (drop_batch_hoare (λ o, bool_decide (op_dedupe_key o = dk)))|done|].
      intros r a Ha. by eexists.
    + by intros r a (l & -> & Ha).
  - intros _v. apply now_working. intros now Hnow. cbn [id_or_uuid]. apply uuid_working. intros i.
    set (t := if decide (upper _ = "PUT") then _ else _).
    eapply hoare_conseq; [apply (lift_working (without_key dk ops) ot _ (λ r l,
      journals method path body params hs dk label r ∧ l = upserted r (without_key dk ops)))
                         |done|by intros r a (l & (Hr & ->) & Ha)].
    intros fr _. eapply hoare_conseq; [apply upsert_hoare|done|].
    + apply ready_new; [done| |done]. unfold t. by repeat case_decide.
    + intros r a [-> Ha]. eexists. split; [|exact Ha]. done.
Qed.
End Entities.

Section Theorems.
Context `{Oracle, !ClockOk, !UuidOk} {C : Type} `{!Sender C}.

(** An offline creation and its retries use one idempotency key.  With offline creations on
    and its parents known, [create_entity] sends the creation under the key of a fresh operation
    id; when that request fails for a transient reason, the creation is journaled under the
    same operation id, with that very key as its header and as its deduplication key, and its
    temporary id is negative and not the last one given out; the rest of the journal is kept. *)
Theorem offline_create_keeps_its_key scope flag rq path body e ops cur (w : world C) :
  let i := uuid4 (a_uuid (w_acc w)) in
  let a1 := set_ticks (a_clock (w_acc w)) (S (a_uuid (w_acc w))) (w_acc w) in
  let key := _idempotency_key scope (cr_entity_type rq) i in
  let sent := mkReq "POST" path [] body [("Idempotency-Key", key)] true in
  works ops (w_acc w) → offline_creates_enabled flag = true →
  valid_target (cr_entity_type rq) (_collect_parent_refs (cr_path_refs rq) (cr_body_refs rq)) = true →
  last_temp_id (cr_entity_type rq) (a_allocator (w_acc w)) = Ok cur →
  any_unresolved (_collect_parent_refs (cr_path_refs rq) (cr_body_refs rq)) a1 = (Ok false, a1) →
  request_path rq a1 = (Ok path, a1) →
  _resolve_body (cr_request_body rq) (default [] (cr_body_refs rq)) a1 = (Ok body, a1) →
  (send_request sent (w_client w)).1 = Err e → _is_retryable_error e = true →
  ∃ temp op w',
    create_entity scope flag rq w = (Ok temp, w')
    ∧ w_client w' = (send_request sent (w_client w)).2
    ∧ works (upserted op ops) (w_acc w')
    ∧ temp < 0 ∧ temp ≠ cur ∧ op_local_id op = temp ∧ is_create op = true
    ∧ op_id op = i ∧ op_dedupe_key op = key
    ∧ header_dict (get "headers" (op_payload op)) = [("Idempotency-Key", key)].
Proof.
  intros i a1 key sent Hw Hflag Hv Hcur Hun Hpath Hbody Hsend Hretry.
  unfold create_entity. rewrite Hflag. cbn [negb].
  erewrite bind_ok by reflexivity. fold a1 i.
  erewrite bind_ok by (unfold on_acc; cbn [w_acc w_client]; rewrite Hun; reflexivity). cbn iota.
  erewrite bind_ok by (unfold on_acc; cbn [w_acc w_client]; rewrite Hpath; reflexivity).
  erewrite bind_ok by (unfold on_acc; cbn [w_acc w_client]; rewrite Hbody; reflexivity).
  cbv zeta. fold key. fold sent. destruct (send_request sent (w_client w)) as [r c'] eqn:Es.
  simpl in Hsend. subst r.
  erewrite bind_ok by (unfold attempt, on_client; cbn [w_acc w_client]; rewrite Es; reflexivity).
  cbn beta iota. rewrite Hretry. unfold on_acc. cbn [w_acc w_client].
  destruct (queue_create_entity_works scope rq i ops a1 cur) as (op & a2 & E2 & Hw2 & Hid & Hl & Hcr & Hd & Hh);
    [by apply works_set_ticks|done|apply uuid_nonempty|done|].
  rewrite E2. eexists _, op, _. split; [done|]. cbn [w_acc w_client snd].
  split_and!; try done.
  - apply next_temp_id_lt.
  - unfold next_temp_id. destruct (Z.leb_spec cur (-1)); lia.
Qed.

(** A resilient mutation is delivered, refused or queued, never dropped.  When the request is
    answered the answer is returned and the account is untouched; when it fails for a reason
    that is not transient the error is raised and the account is untouched; otherwise the very
    mutation (method, path, body, parameters, headers and label) is in the journal, pending,
    as the only operation under its deduplication key, and no operation under another key is
    lost. *)
Theorem resilient_mutation_delivers_or_queues scope method path payload params hs dk label ops
    (w : world C) :
  works ops (w_acc w) →
  let rq := mkReq method path params payload hs true in
  let '(r, c') := send_request rq (w_client w) in
  match r with
  | Ok v => _resilient_mutation scope method path payload params hs dk label w
            = (Ok (mkDispatch v false None), mkWorld (w_acc w) c')
  | Err e =>
      if _should_queue_mutation_error e then
        ∃ op a', _resilient_mutation scope method path payload params hs dk label w
                 = (Ok (mkDispatch PNone true (Some (op_id op))), mkWorld a' c')
          ∧ journals method path payload params hs dk label op
          ∧ works (upserted op (without_key dk ops)) a'
      else _resilient_mutation scope method path payload params hs dk label w
           = (Err e, mkWorld (w_acc w) c')
  end.
Proof.
  intros [ot Hw] rq. destruct (send_request rq (w_client w)) as [r c'] eqn:Es.
  assert (attempt (on_client (send_request rq)) w = (Ok r, mkWorld (w_acc w) c')) as Ea.
  { unfold attempt, on_client. by rewrite Es. }
  unfold _resilient_mutation. fold rq. destruct r as [v|e].
  - by rewrite (bind_ok _ _ _ _ _ Ea).
  - destruct (_should_queue_mutation_error e) eqn:Eq.
    + destruct (queue_generic_working scope method path payload params hs dk label ops ot (w_acc w) Hw)
        as (op & a' & E & Hj & Hw').
      exists op, a'. split_and!; [|done|by exists ot].
      rewrite (bind_ok _ _ _ _ _ Ea). cbn beta iota. rewrite Eq.
      unfold enqueue_api_mutation, on_acc. cbn [w_acc w_client].
      erewrite bind_ok; [reflexivity|]. cbn [w_acc w_client]. by rewrite (bind_ok _ _ _ _ _ E).
    + rewrite (bind_ok _ _ _ _ _ Ea). cbn beta iota. by rewrite Eq.
Qed.
End Theorems.

(** ** Witnesses *)

Definition demo_create : OfflineCreateRequest :=
  mkCreate "client" [("name", PStr "Ann")] [("name", PStr "Ann")] (Some "/clients") None None None
    "client".
Definition demo_account_path : string := "/clients".
Lemma offline_create_keeps_its_key_witness :
  ∃ temp op w',
    @create_entity demo_oracle nat (demo_sender (Err (RuntimeError "API request failed: timeout")))
      demo_scope (Some "1") demo_create (mkWorld demo_journal 0%nat) = (Ok temp, w')
    ∧ w_client w' = 1%nat
    ∧ works (upserted op [demo_client; demo_request]) (w_acc w')
    ∧ temp < 0 ∧ temp ≠ 0 ∧ op_local_id op = temp ∧ is_create op = true
    ∧ op_id op = "op0" ∧ op_dedupe_key op = "offline:acc:client:op0"
    ∧ header_dict (get "headers" (op_payload op)) = [("Idempotency-Key", "offline:acc:client:op0")].
Proof.
  exact (@offline_create_keeps_its_key demo_oracle demo_clock_ok demo_uuid_ok nat
    (demo_sender (Err (RuntimeError "API request failed: timeout"))) demo_scope (Some "1") demo_create
    demo_account_path [("name", PStr "Ann")] (RuntimeError "API request failed: timeout")
    [demo_client; demo_request] 0 (mkWorld demo_journal 0%nat) demo_works
    ltac:(vm_compute; reflexivity) ltac:(vm_compute; reflexivity) ltac:(vm_compute; reflexivity)
    eq_refl eq_refl eq_refl eq_refl eq_refl).
Defined.

Lemma resilient_mutation_delivers_or_queues_witness :
  ∃ op a', @_resilient_mutation demo_oracle nat (demo_sender (Err (RuntimeError "down"))) demo_scope
             "PUT" "/offers/3" [("price", PInt 5)] [] [] "offer:3" "offer"
             (mkWorld demo_journal 0%nat)
           = (Ok (mkDispatch PNone true (Some (op_id op))), mkWorld a' 1%nat)
    ∧ journals "PUT" "/offers/3" [("price", PInt 5)] [] [] "offer:3" "offer" op
    ∧ works (upserted op (without_key "offer:3" [demo_client; demo_request])) a'.
Proof.
  exact (@resilient_mutation_delivers_or_queues demo_oracle demo_clock_ok nat
    (demo_sender (Err (RuntimeError "down"))) demo_scope "PUT" "/offers/3" [("price", PInt 5)] [] []
    "offer:3" "offer" [demo_client; demo_request] (mkWorld demo_journal 0%nat) demo_works).
Defined.
