(* ===== verification/CanonicalJson.v ===== *)
(** * Canonical JSON and the fingerprint of a request

    Models src/core/contracts/idempotency_canonical_json.py and semantic_header_registry.py. *)

From S2P Require Import Prelude PyValue.
From Stdlib Require Import Ascii SpecFloat.
Local Open Scope Z_scope.

(** ** [format(x, ".15g")] of a finite float *)

(** The value [n/d] rounded half to even to [15] significant digits: the digits and the
    exponent of the first one. *)
Definition round_div (n d : Z) : Z :=
  let q := n / d in
  let r := 2 * (n mod d) in
  if r <? d then q else if d <? r then q + 1 else if Z.even q then q else q + 1.
Definition sig_digits (n d : Z) : Z * Z :=
  let k := dec_point n d in
  let c := if k <=? 15 then round_div (n * pow10 (15 - k)) d else round_div n (d * pow10 (k - 15)) in
  if c =? pow10 15 then (pow10 14, k) else (c, k - 1).

Definition format_g (digits : string) (ex : Z) : string :=
  let len := Z.of_nat (String.length digits) in
  if (-4 <=? ex) && (ex <? 15) then
    if ex <? 0 then "0." +:+ str_rep (Z.to_nat (- ex - 1)) "0" +:+ digits
    else if len <=? ex + 1 then digits +:+ str_rep (Z.to_nat (ex + 1 - len)) "0"
    else String.substring 0 (Z.to_nat (ex + 1)) digits +:+ "." +:+
         String.substring (Z.to_nat (ex + 1)) (Z.to_nat (len - ex - 1)) digits
  else
    let mant := if len =? 1 then digits
                else String.substring 0 1 digits +:+ "." +:+
                     String.substring 1 (Z.to_nat (len - 1)) digits in
    mant +:+ "e" +:+ (if ex <? 0 then "-" else "+") +:+
    (if Z.abs ex <? 10 then "0" +:+ pretty (Z.abs ex) else pretty (Z.abs ex)).

Definition format_15g (x : spec_float) : string :=
  match x with
  | S754_zero s => if s then "-0" else "0"
  | S754_infinity s => if s then "-inf" else "inf"
  | S754_nan => "nan"
  | S754_finite s m e =>
      let n := if 0 <=? e then Z.pos m * 2 ^ e else Z.pos m in
      let d := if 0 <=? e then 1 else 2 ^ (- e) in
      let '(c, ex) := sig_digits n d in
      let c' := rstrip_zeros 20 c in
      (if s then "-" else EmptyString) +:+ format_g (pretty c') ex
  end.

(** ** Normalisation *)

(** Python's order on the keys of two items. *)
Definition key_le {A} (a b : string * A) : bool := str_leb a.1 b.1.

(* src/core/contracts/idempotency_canonical_json.py :: _normalize_number *)
Definition _normalize_number (v : pyval) : res pyval :=
  match v with
  | PFloat ((S754_infinity _ | S754_nan)) =>
      Err (ValueError "non-finite float is not supported in canonical JSON")
  | PFloat x => Ok (PStr (format_15g x))
  | _ => Ok v
  end.

Fixpoint map_res {A B} (f : A → res B) (l : list A) : res (list B) :=
  match l with
  | [] => Ok []
  | x :: l' => let? y := f x in let? ys := map_res f l' in Ok (y :: ys)
  end.

(** A dictionary's items are sorted by key, then normalised in that order: the normalised items
    in the order of the dictionary, sorted, when none raises. *)
(* src/core/contracts/idempotency_canonical_json.py :: _normalize_value *)
Fixpoint _normalize_value (v : pyval) : res pyval :=
  match v with
  | PInt _ | PFloat _ => _normalize_number v
  | PDict d =>
      let? items := (fix go (d : list (string * pyval)) : res (list (string * pyval)) :=
                       match d with
                       | [] => Ok []
                       | (k, w) :: d' => let? w' := _normalize_value w in
                                         let? rest := go d' in Ok ((k, w') :: rest)
                       end) d in
      Ok (PDict (ssort key_le items))
  | PList l =>
      let? items := (fix go (l : list pyval) : res (list pyval) :=
                       match l with
                       | [] => Ok []
                       | w :: l' => let? w' := _normalize_value w in
                                    let? rest := go l' in Ok (w' :: rest)
                       end) l in
      Ok (PList items)
  | PStr _ | PBool _ | PNone => Ok v
  end.

(** ** [json.dumps(v, sort_keys=True, separators=(",", ":"), ensure_ascii=False)] *)

Definition json_char (c : ascii) : string :=
  let n := code c in
  if (n =? 34)%N then "\" +:+ String c EmptyString
  else if (n =? 92)%N then "\\"
  else if (n =? 10)%N then "\n"
  else if (n =? 13)%N then "\r"
  else if (n =? 9)%N then "\t"
  else if (n =? 8)%N then "\b"
  else if (n =? 12)%N then "\f"
  else if (n <? 32)%N
  then "\u00" +:+ String (hex_digit (n / 16)) (String (hex_digit (n mod 16)) EmptyString)
  else String c EmptyString.
Fixpoint json_chars (s : string) : string :=
  match s with EmptyString => EmptyString | String c s' => json_char c +:+ json_chars s' end.
Definition json_str (s : string) : string :=
  String quote2 (json_chars s +:+ String quote2 EmptyString).

(** [allow_nan=False] raises on a float that is not finite; the finite ones print as [repr]. *)
Fixpoint dump_sorted (v : pyval) : string :=
  match v with
  | PNone => "null"
  | PBool b => if b then "true" else "false"
  | PInt z => pretty z
  | PFloat x => float_repr x
  | PStr s => json_str s
  | PList l => "[" +:+ join "," (map dump_sorted l) +:+ "]"
  | PDict d =>
      "{" +:+ join "," (map (λ kv : string * string, json_str kv.1 +:+ ":" +:+ kv.2)
                          (ssort key_le (map (λ kv, match kv with (k, w) => (k, dump_sorted w) end) d)))
      +:+ "}"
  end.

(* src/core/contracts/idempotency_canonical_json.py :: canonical_json_dumps *)
Definition canonical_json_dumps (payload : pyval) : res string :=
  let? normalized := _normalize_value payload in Ok (dump_sorted normalized).

Section Hash.
Variable sha256_hex : string → string.

(* src/core/contracts/idempotency_canonical_json.py :: canonical_body_hash *)
Definition canonical_body_hash (payload : pyval) : res string :=
  let? dumped := canonical_json_dumps payload in Ok (sha256_hex dumped).

(* src/core/contracts/idempotency_canonical_json.py :: canonical_query_hash *)
Definition canonical_query_hash (query_items : list (string * list string)) : res string :=
  let normalized := map (λ kv : string * list string,
                       (kv.1, PList (map PStr (ssort str_leb kv.2)))) (ssort key_le query_items) in
  let? dumped := canonical_json_dumps (PDict normalized) in Ok (sha256_hex dumped).

(* src/core/contracts/semantic_header_registry.py :: SEMANTIC_HEADERS *)
Definition SEMANTIC_HEADERS : list string :=
  ["Idempotency-Key"; "If-Match"; "X-Feature-Flag"; "X-Tenant-Mode"].

(** The dictionary of the headers by lower-cased name: a later header replaces an earlier one. *)
Definition lower_headers (headers : list (string * string)) : list (string * string) :=
  dupdate [] (map (λ kv : string * string, (lower kv.1, kv.2)) headers).

(* src/core/contracts/semantic_header_registry.py :: normalize_semantic_headers *)
Definition normalize_semantic_headers (headers : list (string * string)) : list (string * string) :=
  let low := lower_headers headers in
  ssort key_le
    (foldl (λ acc header,
       match dget (lower header) low with
       | Some value => let v := strip value in
                       if str_empty v then acc else dset header v acc
       | None => acc
       end) [] SEMANTIC_HEADERS).

(* src/core/contracts/semantic_header_registry.py :: semantic_header_registry_hash *)
Definition semantic_header_registry_hash : string :=
  sha256_hex (join (String "010" EmptyString) (ssort str_leb (map lower SEMANTIC_HEADERS))).

(* src/core/contracts/semantic_header_registry.py :: is_sensitive_replay_header *)
Definition is_sensitive_replay_header (header_name : string) : bool :=
  bool_decide (lower (strip header_name) ∈ map lower ["Authorization"; "Set-Cookie"; "Cookie"]).

(* src/server/api/idempotency_engine.py :: _semantic_headers_hash *)
Definition _semantic_headers_hash (headers : list (string * string)) : res string :=
  let? dumped := canonical_json_dumps
    (PDict (map (λ kv : string * string, (kv.1, PStr kv.2)) (normalize_semantic_headers headers))) in
  Ok (sha256_hex dumped).
End Hash.

Example g_one : format_15g (S754_finite false 4503599627370496 (-52)) = "1".
Proof. vm_compute. reflexivity. Qed.
Example g_tenth : format_15g (S754_finite false 7205759403792794 (-56)) = "0.1".
Proof. vm_compute. reflexivity. Qed.
Example g_third : format_15g (S754_finite false 6004799503160661 (-54)) = "0.333333333333333".
Proof. vm_compute. reflexivity. Qed.
Example g_big : format_15g (S754_finite false 4768371582031250 21) = "1e+22".
Proof. vm_compute. reflexivity. Qed.
Example g_small : format_15g (S754_finite false 5902958103587057 (-69)) = "1e-05".
Proof. vm_compute. reflexivity. Qed.
Example dump_ex :
  canonical_json_dumps (PDict [("b", PInt 2); ("a", PList [PBool true; PNone; PStr "x"])])
  = Ok (String.concat EmptyString ["{"; json_str "a"; ":[true,null,"; json_str "x"; "],"; json_str "b"; ":2}"]).
Proof. vm_compute. reflexivity. Qed.
