(* ===== verification/CanonicalProps.v ===== *)
(** * The fingerprint does not depend on the order of keys *)

From S2P Require Import Prelude PyValue CanonicalJson.
From Stdlib Require Import SpecFloat.
Local Open Scope Z_scope.

Definition normalize_item (kv : string * pyval) : res (string * pyval) :=
  let? w := _normalize_value kv.2 in Ok (kv.1, w).

Lemma normalize_dict d :
  _normalize_value (PDict d) = let? items := map_res normalize_item d in Ok (PDict (ssort key_le items)).
Proof.
  cbn [_normalize_value]. f_equal. induction d as [|[k w] d IH]; [done|]. cbn [map_res].
  unfold normalize_item at 1. cbn [fst snd]. destruct (_normalize_value w) as [w'|e]; [|done].
  cbn [res_bind]. by rewrite IH.
Qed.
Lemma normalize_list l :
  _normalize_value (PList l) = let? items := map_res _normalize_value l in Ok (PList items).
Proof.
  cbn [_normalize_value]. f_equal. induction l as [|w l IH]; [done|]. cbn [map_res].
  destruct (_normalize_value w) as [w'|e]; [|done]. cbn [res_bind]. by rewrite IH.
Qed.

Lemma map_res_app {A B} (f : A → res B) l1 l2 :
  map_res f (l1 ++ l2) = let? a := map_res f l1 in let? b := map_res f l2 in Ok (a ++ b).
Proof.
  induction l1 as [|x l1 IH]; simpl; [by destruct (map_res f l2)|].
  destruct (f x); simpl; [|done]. rewrite IH.
  destruct (map_res f l1); simpl; [|done]. by destruct (map_res f l2).
Qed.

(** The only exception of the normalisation. *)
Definition nan_error : exn := ValueError "non-finite float is not supported in canonical JSON".

Fixpoint normalize_error (v : pyval) {struct v} : ∀ e, _normalize_value v = Err e → e = nan_error.
Proof.
  intros e. destruct v as [|b|z|x|s|l|d]; try done.
  - destruct x; by inversion 1.
  - rewrite normalize_list. intros E. assert (map_res _normalize_value l = Err e) as E'.
    { destruct (map_res _normalize_value l); simpl in E; congruence. }
    clear E. revert e E'. induction l as [|w l IH]; intros e; simpl; [done|].
    destruct (_normalize_value w) as [w'|e'] eqn:Ew; simpl.
    + destruct (map_res _normalize_value l) as [r|e2]; simpl; [done|]. intros [= ->]. by apply IH.
    + intros [= ->]. exact (normalize_error w e Ew).
  - rewrite normalize_dict. intros E. assert (map_res normalize_item d = Err e) as E'.
    { destruct (map_res normalize_item d); simpl in E; congruence. }
    clear E. revert e E'. induction d as [|[k w] d IH]; intros e; simpl; [done|].
    unfold normalize_item at 1. cbn [fst snd].
    destruct (_normalize_value w) as [w'|e'] eqn:Ew; simpl.
    + destruct (map_res normalize_item d) as [r|e2]; simpl; [done|]. intros [= ->]. by apply IH.
    + intros [= ->]. exact (normalize_error w e Ew).
Qed.

(** The same JSON value, up to the order of the keys of its objects. *)
Inductive same_json : pyval → pyval → Prop :=
  | sj_refl v : same_json v v
  | sj_trans v1 v2 v3 : same_json v1 v2 → same_json v2 v3 → same_json v1 v3
  | sj_swap pre a b post :
      NoDup (dkeys (pre ++ a :: b :: post)) →
      same_json (PDict (pre ++ a :: b :: post)) (PDict (pre ++ b :: a :: post))
  | sj_field pre k v v' post :
      same_json v v' → same_json (PDict (pre ++ (k, v) :: post)) (PDict (pre ++ (k, v') :: post))
  | sj_elem pre v v' post :
      same_json v v' → same_json (PList (pre ++ v :: post)) (PList (pre ++ v' :: post)).

Lemma key_le_total {A} (a b : string * A) : key_le a b = false → key_le b a = true.
Proof. apply str_leb_total. Qed.
Lemma key_le_trans {A} (a b c : string * A) :
  key_le a b = true → key_le b c = true → key_le a c = true.
Proof. apply str_leb_trans. Qed.
Lemma ssort_keys {A} (l1 l2 : list (string * A)) :
  NoDup (dkeys l1) → l1 ≡ₚ l2 → ssort key_le l1 = ssort key_le l2.
Proof.
  intros Hnd Hp. apply (sorted_unique key_le).
  - intros x y Hx Hy H1 H2. rewrite ssort_perm in Hx, Hy.
    apply (NoDup_map_inj_on fst l1); [done..|]. by apply str_leb_antisym.
  - apply ssort_sorted; [apply key_le_total|apply key_le_trans].
  - apply ssort_sorted; [apply key_le_total|apply key_le_trans].
  - by rewrite !ssort_perm.
Qed.
Lemma normalize_item_key kv kv' : normalize_item kv = Ok kv' → kv'.1 = kv.1.
Proof. unfold normalize_item. destruct (_normalize_value kv.2); simpl; by intros [= <-]. Qed.
Lemma map_res_keys d d' : map_res normalize_item d = Ok d' → dkeys d' = dkeys d.
Proof.
  revert d'. induction d as [|x d IH]; intros d'; simpl; [by intros [= <-]|].
  destruct (normalize_item x) as [y|] eqn:Ex; simpl; [|done].
  destruct (map_res normalize_item d) as [ys|]; simpl; [|done]. intros [= <-].
  unfold dkeys in *. simpl. rewrite (IH ys) by done. by rewrite (normalize_item_key x y).
Qed.

Lemma normalize_same v v' : same_json v v' → _normalize_value v = _normalize_value v'.
Proof.
  induction 1 as [v|v1 v2 v3 _ IH1 _ IH2|pre a b post Hnd|pre k v v' post _ IH|pre v v' post _ IH].
  - done.
  - by rewrite IH1.
  - rewrite !normalize_dict, !map_res_app. cbn [map_res].
    assert (∀ d', map_res normalize_item (pre ++ a :: b :: post) = Ok d' → NoDup (dkeys d')) as Hk.
    { intros d' Hd. by rewrite (map_res_keys _ _ Hd). }
    rewrite map_res_app in Hk. cbn [map_res] in Hk.
    destruct (map_res normalize_item pre) as [p|e]; cbn [res_bind] in *; [|done].
    destruct (normalize_item a) as [a'|ea] eqn:Ea, (normalize_item b) as [b'|eb] eqn:Eb;
      cbn [res_bind] in *.
    + destruct (map_res normalize_item post) as [q|]; cbn [res_bind] in *; [|done].
      do 2 f_equal. apply ssort_keys; [by apply Hk|].
      apply Permutation_app_head, perm_swap.
    + done.
    + done.
    + f_equal. unfold normalize_item in Ea, Eb.
      destruct (_normalize_value a.2) eqn:Ea'; [done|]. destruct (_normalize_value b.2) eqn:Eb'; [done|].
      simpl in Ea, Eb. simplify_eq. by rewrite (normalize_error _ _ Ea'), (normalize_error _ _ Eb').
  - rewrite !normalize_dict, !map_res_app. cbn [map_res]. unfold normalize_item at 2 5. cbn [fst snd].
    by rewrite IH.
  - rewrite !normalize_list, !map_res_app. cbn [map_res]. by rewrite IH.
Qed.

(** C38. Two request bodies that are the same JSON value up to the order of their keys, at any
    depth, have the same fingerprint: the canonical text, hence the hash that decides whether a
    reused idempotency key is a replay or a conflict, is the same (and they are rejected
    together when they hold a number that is not finite). *)
Theorem fingerprint_ignores_key_order (sha256_hex : string → string) v v' :
  same_json v v' →
  canonical_json_dumps v = canonical_json_dumps v'
  ∧ canonical_body_hash sha256_hex v = canonical_body_hash sha256_hex v'.
Proof.
  intros Hs%normalize_same. unfold canonical_body_hash, canonical_json_dumps. by rewrite Hs.
Qed.

(** ** Two bodies the fingerprint confuses

    A float is replaced by its 15-digit text, so a number and a string with that text have the
    same fingerprint, and an integral float becomes the text of an integer, ["1"] for [1.0]. *)
Example float_and_text_collide :
  canonical_json_dumps (PDict [("price", PFloat (S754_finite false 6755399441055744 (-52)))])
  = canonical_json_dumps (PDict [("price", PStr "1.5")]).
Proof. vm_compute. reflexivity. Qed.
Example integral_float_loses_its_point :
  _normalize_number (PFloat (S754_finite false 4503599627370496 (-52))) = Ok (PStr "1").
Proof. vm_compute. reflexivity. Qed.

Lemma fingerprint_ignores_key_order_witness :
  let v := PDict [("a", PInt 1); ("b", PList [PBool true])] in
  let v' := PDict [("b", PList [PBool true]); ("a", PInt 1)] in
  canonical_json_dumps v = canonical_json_dumps v'
  ∧ canonical_body_hash id v = canonical_body_hash id v'.
Proof.
  apply (fingerprint_ignores_key_order id).
  apply (sj_swap [] ("a", PInt 1) ("b", PList [PBool true]) []).
  apply (bool_decide_unpack _). by vm_compute.
Defined.
