(* ===== verification/ReplayPolicy.v ===== *)
(** * Route policies and what a replayed response may contain

    Models src/core/contracts/http_policy.py (the default policy of a route and its budgets) and
    idempotency_replay_policy.py (the sanitisation of stored responses). *)

From S2P Require Import Prelude PyValue.
From Stdlib Require Import Ascii.
Local Open Scope Z_scope.

(** ** Route policies *)

(* src/core/contracts/http_policy.py :: RouteBudget *)
Record RouteBudget := mkBudget { p95_ms : Z; max_payload_bytes : Z; max_scan_rows : Z }.

Inductive RetryClass : Type := CHEAP_READ | EXPENSIVE_READ | IDEMPOTENCY_KEY_WRITE | CAS_WRITE | NO_RETRY.
Inductive CostClass : Type := CHEAP | BOUNDED | EXPENSIVE.
Inductive ReplayMode : Type := NONE | FULL_SAFE | REFERENCE_ONLY.
#[export] Instance retry_class_eq_dec : EqDecision RetryClass.
Proof. solve_decision. Defined.
#[export] Instance replay_mode_eq_dec : EqDecision ReplayMode.
Proof. solve_decision. Defined.

(* src/core/contracts/http_policy.py :: RoutePolicy [32-40] *)
Record RoutePolicy := mkPolicy {
  policy_id : string;
  retry_class : RetryClass;
  cost_class : CostClass;
  replay_mode : ReplayMode;
  breaker_score : Z;
  alert_budget : RouteBudget;
  contract_budget : option RouteBudget;
  sla_facing : bool
}.

(* src/core/contracts/http_policy.py :: _validate_budget *)
Definition _validate_budget (b : RouteBudget) (label : string) : res unit :=
  if p95_ms b <=? 0 then Err (ValueError (label +:+ ".p95_ms must be > 0"))
  else if max_payload_bytes b <=? 0 then Err (ValueError (label +:+ ".max_payload_bytes must be > 0"))
  else if max_scan_rows b <=? 0 then Err (ValueError (label +:+ ".max_scan_rows must be > 0"))
  else Ok tt.

(* src/core/contracts/http_policy.py :: _validate_budget_tiers *)
Definition _validate_budget_tiers (alert contract : RouteBudget) (pid : string) : res unit :=
  if p95_ms contract <? p95_ms alert then
    Err (ValueError (pid +:+ ": alert_budget.p95_ms must be <= contract_budget.p95_ms"))
  else if max_payload_bytes contract <? max_payload_bytes alert then
    Err (ValueError (pid +:+
      ": alert_budget.max_payload_bytes must be <= contract_budget.max_payload_bytes"))
  else if max_scan_rows contract <? max_scan_rows alert then
    Err (ValueError (pid +:+ ": alert_budget.max_scan_rows must be <= contract_budget.max_scan_rows"))
  else Ok tt.

(* src/core/contracts/http_policy.py :: RoutePolicy.__post_init__ *)
Definition post_init (p : RoutePolicy) : res RoutePolicy :=
  let? _ := _validate_budget (alert_budget p) (policy_id p +:+ ".alert_budget") in
  let? _ := match contract_budget p with
            | Some c =>
                let? _ := _validate_budget c (policy_id p +:+ ".contract_budget") in
                _validate_budget_tiers (alert_budget p) c (policy_id p)
            | None => Ok tt
            end in
  match contract_budget p with
  | None => if sla_facing p then
              Err (ValueError ("Route policy '" +:+ policy_id p +:+
                               "' is SLA-facing and must define contract_budget."))
            else Ok p
  | Some _ => Ok p
  end.

(* src/core/contracts/http_policy.py :: _ALERT_DEFAULTS *)
Definition _ALERT_DEFAULTS (c : CostClass) : RouteBudget :=
  match c with
  | CHEAP => mkBudget 250 262144 1000
  | BOUNDED => mkBudget 1000 1048576 5000
  | EXPENSIVE => mkBudget 5000 2097152 20000
  end.

(** [str.isalnum] of an ASCII or Latin-1 character. *)
Definition is_alnum (c : ascii) : bool :=
  let n := code c in
  ((48 <=? n) && (n <=? 57) || (65 <=? n) && (n <=? 90) || (97 <=? n) && (n <=? 122)
   || (n =? 170) || (n =? 178) || (n =? 179) || (n =? 181) || (n =? 185) || (n =? 186)
   || (188 <=? n) && (n <=? 190)
   || (192 <=? n) && (n <=? 255) && negb (n =? 215) && negb (n =? 247))%N.

(** [s.strip(c)] for one character. *)
Fixpoint lstrip_char (c : ascii) (s : string) : string :=
  match s with
  | String d s' => if (code c =? code d)%N then lstrip_char c s' else s
  | EmptyString => EmptyString
  end.
Fixpoint rstrip_char (c : ascii) (s : string) : string :=
  match s with
  | EmptyString => EmptyString
  | String d s' => match rstrip_char c s' with
                   | EmptyString => if (code c =? code d)%N then EmptyString else String d EmptyString
                   | r => String d r
                   end
  end.
Definition strip_char (c : ascii) (s : string) : string := rstrip_char c (lstrip_char c s).

(** [while "__" in s: s = s.replace("__", "_")]: one underscore per run. *)
Fixpoint squeeze_underscores (after : bool) (s : string) : string :=
  match s with
  | EmptyString => EmptyString
  | String c s' =>
      if (code c =? 95)%N then
        (if after then squeeze_underscores true s' else String c (squeeze_underscores true s'))
      else String c (squeeze_underscores false s')
  end.

(* src/core/contracts/http_policy.py :: _slugify_policy_id *)
Definition _slugify_policy_id (route_path : string) : string :=
  let cleaned := strip_char "/" (strip route_path) in
  if str_empty cleaned then "root"
  else
    let slug := str_map (λ c, if is_alnum c then lower_char c else "_"%char) cleaned in
    str_or (strip_char "_" (squeeze_underscores false slug)) "route".

Definition str_has_sub (needle s : string) : bool := bool_decide (is_Some (String.index 0 needle s)).

(* src/core/contracts/http_policy.py :: _classify_cost *)
Definition _classify_cost (route_path : string) : CostClass :=
  let lowered := lower route_path in
  if str_has_sub "/all/" lowered || str_has_sub "rebuild" lowered || String.prefix "import/" lowered
  then EXPENSIVE
  else if str_has_sub "changes/" lowered || str_has_sub "batch" lowered || str_has_sub "counts/" lowered
  then BOUNDED
  else CHEAP.

Definition subset_of (a b : list string) : bool := forallb (λ x, bool_decide (x ∈ b)) a.
Definition meets (a b : list string) : bool := existsb (λ x, bool_decide (x ∈ b)) a.

(* src/core/contracts/http_policy.py :: default_route_policy *)
Definition default_route_policy (route_path : string) (methods : list string) : res RoutePolicy :=
  let method_set := map upper methods in
  let '(retry, replay) :=
    match method_set with
    | _ :: _ =>
        if subset_of method_set ["GET"; "HEAD"; "OPTIONS"] then (CHEAP_READ, NONE)
        else if meets method_set ["PUT"; "PATCH"; "DELETE"] then (CAS_WRITE, REFERENCE_ONLY)
        else if meets method_set ["POST"; "PUT"; "PATCH"; "DELETE"] then (IDEMPOTENCY_KEY_WRITE, FULL_SAFE)
        else (NO_RETRY, NONE)
    | [] => (NO_RETRY, NONE)
    end in
  let cost := _classify_cost route_path in
  post_init (mkPolicy ("route." +:+ _slugify_policy_id route_path) retry cost replay
               (match cost with CHEAP => 0 | BOUNDED => 1 | EXPENSIVE => 2 end)
               (_ALERT_DEFAULTS cost) None false).

(** ** Sanitising stored responses *)

(* src/core/contracts/idempotency_replay_policy.py :: REPLAY_DENYLIST_KEYS *)
Definition REPLAY_DENYLIST_KEYS : list string :=
  ["password"; "token"; "refresh"; "access"; "authorization"; "phone"; "email"; "family_name";
   "first_name"; "last_name"; "address"; "national_id"; "ssn"; "secret"].

(** The only entry of the table is ["*"]. *)
(* src/core/contracts/idempotency_replay_policy.py :: FULL_SAFE_FIELD_ALLOWLIST *)
Definition FULL_SAFE_FIELD_ALLOWLIST : list string :=
  ["id"; "ids"; "status"; "code"; "detail"; "message"; "errors"; "error"; "items"; "total"; "count";
   "counts"; "count_meta"; "task_id"; "created"; "updated"; "deleted"; "valid"; "action";
   "resource_url"; "current_row_version"; "current_record"; "policy_version";
   "semantic_header_registry_hash"; "retry_after_seconds"; "retryable"].

(* src/core/contracts/idempotency_replay_policy.py :: REFERENCE_ONLY_POLICIES *)
Definition REFERENCE_ONLY_POLICIES : list string :=
  ["route.clients"; "route.clients_int_client_id"; "route.listings"; "route.listings_int_listing_id";
   "route.offers_int_offer_id"; "route.demandes_int_demande_id"; "route.users";
   "route.users_int_user_id"; "route.crm_visits"; "route.crm_contracts"].

(* src/core/contracts/idempotency_replay_policy.py :: _is_blocked_key *)
Definition _is_blocked_key (key : string) : bool :=
  let lowered := lower (strip key) in
  bool_decide (lowered ∈ REPLAY_DENYLIST_KEYS)
  || existsb (λ term, str_has_sub term lowered) REPLAY_DENYLIST_KEYS.

Fixpoint pick_keys (keys : list string) (d : pydict) : pydict :=
  match keys with
  | [] => []
  | k :: ks => match dget k d with Some v => (k, v) :: pick_keys ks d | None => pick_keys ks d end
  end.
(* src/core/contracts/idempotency_replay_policy.py :: _reference_only_payload *)
Definition _reference_only_payload (payload : pyval) : pyval :=
  match payload with
  | PDict d =>
      match pick_keys ["id"; "ids"; "resource_id"; "resource_url"; "task_id"; "code"; "detail"] d with
      | [] => PDict [("detail", PStr "reference_only_replay")]
      | ref => PDict ref
      end
  | _ => PDict [("detail", PStr "reference_only_replay")]
  end.

(** The recursion of [sanitize_replay_payload] in mode [FULL_SAFE], with [_sanitize_mapping]
    inlined: below the first level the policy is ["*"], which is in no reference-only list, and
    every policy has the allowlist of ["*"]. *)
(* src/core/contracts/idempotency_replay_policy.py :: _sanitize_mapping *)
Fixpoint sanitize_full (payload : pyval) : pyval :=
  match payload with
  | PDict d =>
      PDict ((fix go (d : list (string * pyval)) : list (string * pyval) :=
                match d with
                | [] => []
                | (k, v) :: d' =>
                    if _is_blocked_key k || negb (bool_decide (k ∈ FULL_SAFE_FIELD_ALLOWLIST))
                    then go d' else (k, sanitize_full v) :: go d'
                end) d)
  | PList l => PList (map sanitize_full l)
  | v => v
  end.

(* src/core/contracts/idempotency_replay_policy.py :: sanitize_replay_payload *)
Definition sanitize_replay_payload (payload : pyval) (pid : string) (mode : ReplayMode) : pyval :=
  if bool_decide (mode = REFERENCE_ONLY) || bool_decide (pid ∈ REFERENCE_ONLY_POLICIES) then
    _reference_only_payload payload
  else if negb (bool_decide (mode = FULL_SAFE)) then
    PDict [("detail", PStr "replay_disabled_for_policy")]
  else sanitize_full payload.

(** ** Facts *)

(** A key of [d], or of an object inside it. *)
Inductive has_key : string → pyval → Prop :=
  | hk_here k v d : (k, v) ∈ d → has_key k (PDict d)
  | hk_field k k' v d : (k', v) ∈ d → has_key k v → has_key k (PDict d)
  | hk_elem k v l : v ∈ l → has_key k v → has_key k (PList l).

Definition sanitize_items : list (string * pyval) → list (string * pyval) :=
  fix go d := match d with
              | [] => []
              | (k, v) :: d' =>
                  if _is_blocked_key k || negb (bool_decide (k ∈ FULL_SAFE_FIELD_ALLOWLIST))
                  then go d' else (k, sanitize_full v) :: go d'
              end.
Lemma sanitize_items_elem k w d :
  (k, w) ∈ sanitize_items d →
  _is_blocked_key k = false ∧ k ∈ FULL_SAFE_FIELD_ALLOWLIST ∧ ∃ v, (k, v) ∈ d ∧ w = sanitize_full v.
Proof.
  induction d as [|[k' v'] d IH]; cbn [sanitize_items]; [by intros ?%elem_of_nil|].
  destruct (_is_blocked_key k' || _) eqn:E.
  - intros (? & ? & v & Hv & ?)%IH. split_and!; [done..|]. exists v. split; [by right|done].
  - apply orb_false_iff in E as [Eb Ea%negb_false_iff%bool_decide_eq_true].
    intros [[= -> ->]|(? & ? & v & Hv & ?)%IH]%elem_of_cons.
    + split_and!; [done..|]. exists v'. split; [left|done].
    + split_and!; [done..|]. exists v. split; [by right|done].
Qed.

Fixpoint sanitize_full_keys (v : pyval) {struct v} :
  ∀ k, has_key k (sanitize_full v) → _is_blocked_key k = false ∧ k ∈ FULL_SAFE_FIELD_ALLOWLIST.
Proof.
  intros k Hk. destruct v as [|b|z|x|s|l|d]; try by inversion Hk.
  - inversion Hk as [| |k' w l' Hin Hw]; subst. clear Hk. induction l as [|v l IH].
    + by apply elem_of_nil in Hin.
    + apply elem_of_cons in Hin as [->|Hin]; [exact (sanitize_full_keys v k Hw)|by apply IH].
  - change (sanitize_full (PDict d)) with (PDict (sanitize_items d)) in Hk.
    inversion Hk as [k' w d' Hin|k' k2 w d' Hin Hw|]; subst; clear Hk.
    + by apply sanitize_items_elem in Hin as (? & ? & _).
    + induction d as [|[k3 v3] d IH]; cbn [sanitize_items] in Hin; [by apply elem_of_nil in Hin|].
      destruct (_is_blocked_key k3 || _); [by apply IH|].
      apply elem_of_cons in Hin as [[= -> ->]|Hin]; [exact (sanitize_full_keys v3 k Hw)|by apply IH].
Qed.

(** A response stored for a full replay holds no personal or secret field.  At any depth of
    the sanitised payload every key is in the allowlist and none contains a denied term
    (password, token, email, phone, ...), for every policy that is not reference-only; a policy
    without replay stores a constant. *)
Theorem sanitized_payload_has_no_denied_key payload pid mode k :
  mode ≠ REFERENCE_ONLY → pid ∉ REFERENCE_ONLY_POLICIES →
  has_key k (sanitize_replay_payload payload pid mode) →
  _is_blocked_key k = false ∧ k ∈ FULL_SAFE_FIELD_ALLOWLIST.
Proof.
  intros Hm Hp. unfold sanitize_replay_payload.
  rewrite !bool_decide_eq_false_2 by done. cbn [orb].
  case_bool_decide; cbn [negb]; [apply sanitize_full_keys|].
  intros Hk. inversion Hk as [k' v d Hin|k' k2 v d Hin Hv|]; subst;
    apply list_elem_of_singleton in Hin; simplify_eq; [|by inversion Hv].
  split; [by vm_compute|]. apply (bool_decide_unpack _). by vm_compute.
Qed.

(** The reference-only payload keeps the value of [detail] as it is, with the personal fields it
    may hold. *)
Example reference_only_keeps_nested_fields :
  sanitize_replay_payload (PDict [("detail", PDict [("email", PStr "a@b.c")])]) "route.clients" FULL_SAFE
  = PDict [("detail", PDict [("email", PStr "a@b.c")])].
Proof. vm_compute. reflexivity. Qed.

Lemma sanitized_payload_has_no_denied_key_witness :
  _is_blocked_key "id" = false ∧ "id" ∈ FULL_SAFE_FIELD_ALLOWLIST.
Proof.
  apply (sanitized_payload_has_no_denied_key
    (PDict [("items", PList [PDict [("id", PInt 1); ("email", PStr "a@b.c")]])]) "route.visits" FULL_SAFE).
  - done.
  - apply (bool_decide_unpack _). by vm_compute.
  - apply (hk_field _ "items" (PList [PDict [("id", PInt 1)]])); [left|].
    apply (hk_elem _ (PDict [("id", PInt 1)])); [left|]. apply (hk_here _ (PInt 1)). left.
Defined.
