(* ===== verification/Idempotency.v ===== *)
(** * The idempotency engine of the server

    Models src/server/api/idempotency_engine.py and the constants of
    src/core/contracts/idempotency_contract.py.  The state is the table
    [api_idempotency_records], whose unique key is (agency, route, method, key), and the
    process's cached keyring.  Each call runs in one transaction that locks its row, so calls on
    the table are atomic steps.  SHA-256, HMAC, the routing table and the secret store are
    parameters. *)

From S2P Require Import Prelude PyValue CanonicalJson ReplayPolicy.
From Stdlib Require Import Ascii.
Local Open Scope Z_scope.

(* src/core/contracts/idempotency_contract.py :: IDEMPOTENCY_HEADER *)
Definition IDEMPOTENCY_HEADER : string := "Idempotency-Key".
(* src/core/contracts/idempotency_contract.py :: LEGACY_IDEMPOTENCY_HEADER *)
Definition LEGACY_IDEMPOTENCY_HEADER : string := "X-Idempotency-Key".
(* src/core/contracts/idempotency_contract.py :: IDEMPOTENCY_RESPONSE_HEADERS_ALLOWLIST *)
Definition IDEMPOTENCY_RESPONSE_HEADERS_ALLOWLIST : list string :=
  ["Content-Type"; "ETag"; "X-Request-Id"; "X-Request-Policy"; "Idempotency-Status"; "Retry-After"].
(* src/core/contracts/idempotency_contract.py :: IDEMPOTENCY_TTL_SECONDS_DEFAULT *)
Definition IDEMPOTENCY_TTL_SECONDS_DEFAULT : Z := 24 * 60 * 60.
(* src/core/contracts/idempotency_contract.py :: IDEMPOTENCY_IN_PROGRESS_WAIT_SECONDS *)
Definition IDEMPOTENCY_IN_PROGRESS_WAIT_SECONDS : Z := 3.
(* src/core/contracts/idempotency_contract.py :: IDEMPOTENCY_RETRY_AFTER_SECONDS *)
Definition IDEMPOTENCY_RETRY_AFTER_SECONDS : Z := 2.
(* src/core/contracts/idempotency_contract.py :: IDEMPOTENCY_MAX_RESPONSE_BYTES *)
Definition IDEMPOTENCY_MAX_RESPONSE_BYTES : Z := 256 * 1024.
(* src/core/contracts/idempotency_contract.py :: IDEMPOTENCY_HMAC_PAYLOAD_VERSION *)
Definition IDEMPOTENCY_HMAC_PAYLOAD_VERSION : string := "v1".

(* src/core/contracts/idempotency_contract.py :: IdempotencyScope *)
Record IdempotencyScope := mkIdScope {
  is_agency_id : Z;
  is_normalized_route : string;
  is_method : string;
  is_idempotency_key : string
}.
#[export] Instance id_scope_eq_dec : EqDecision IdempotencyScope.
Proof. solve_decision. Defined.

Inductive record_state : Type := InProgress | Completed | FailedTransient.
#[export] Instance record_state_eq_dec : EqDecision record_state.
Proof. solve_decision. Defined.

(** A row of [api_idempotency_records]; instants are counted in seconds. *)
Record row := mkRow {
  r_id : Z;
  r_scope : IdempotencyScope;
  r_body_hash : string;
  r_query_hash : string;
  r_semantic_hash : string;
  r_state : record_state;
  r_attempt : Z;
  r_lease_owner : string;
  r_lease_until : option Z;
  r_created_at : Z;
  r_expires_at : Z;
  r_status_code : option Z;
  r_content_type : string;
  r_response_headers : list (string * string);
  r_response_body : pyval;
  r_response_hash : string;
  r_record_hmac : option string;
  r_signature_key_id : option string;
  r_payload_version : option string
}.

Definition keyring : Type := list (string * string).
(* src/server/api/idempotency_engine.py :: _CachedHmacKeyring *)
Record _CachedHmacKeyring := mkCached {
  ck_keyring : keyring;
  ck_active_key_id : option string;
  ck_refresh_after : Z
}.

Record engine := mkEngine {
  e_rows : list row;
  e_next_id : Z;
  e_cache : option _CachedHmacKeyring;
  e_loads : nat
}.
Definition set_rows l e := mkEngine l (e_next_id e) (e_cache e) (e_loads e).

Abbreviation EM := (M engine).

(* src/server/api/idempotency_engine.py :: IdempotencyContext *)
Record IdempotencyContext := mkCtx {
  cx_scope : IdempotencyScope;
  cx_body_hash : string;
  cx_query_hash : string;
  cx_semantic_hash : string;
  cx_policy : option RoutePolicy;
  cx_raw_key_header : string;
  cx_lease_owner : string;
  cx_record_id : Z;
  cx_created_at : option Z;
  cx_expires_at : option Z
}.

(** A response: status, data and headers (names in one canonical spelling). *)
Record reply := mkReply { rp_status : Z; rp_data : pyval; rp_headers : list (string * string) }.
Definition add_header (k v : string) (r : reply) : reply :=
  mkReply (rp_status r) (rp_data r) (dset k v (rp_headers r)).

Record api_request := mkApiRequest {
  ar_method : string;
  ar_route : string;
  ar_agency_id : pyval;
  ar_headers : list (string * string);
  ar_query : list (string * list string);
  ar_body : pyval
}.

(** [request.headers.get(name, "")]: header names are compared without case. *)
Definition header (name : string) (r : api_request) : string :=
  default EmptyString (dget (lower name) (lower_headers (ar_headers r))).

(* src/server/api/idempotency_engine.py :: _extract_idempotency_header *)
Definition _extract_idempotency_header (r : api_request) : option string * string :=
  let raw := strip (header IDEMPOTENCY_HEADER r) in
  if negb (str_empty raw) then (Some raw, IDEMPOTENCY_HEADER)
  else
    let legacy := strip (header LEGACY_IDEMPOTENCY_HEADER r) in
    if negb (str_empty legacy) then (Some legacy, LEGACY_IDEMPOTENCY_HEADER)
    else (None, IDEMPOTENCY_HEADER).

(** [True] is the integer 1. *)
(* src/server/api/idempotency_engine.py :: _effective_agency_id *)
Definition _effective_agency_id (r : api_request) : Z :=
  match ar_agency_id r with
  | PInt z => if 0 <? z then z else 0
  | PBool true => 1
  | _ => 0
  end.

(* src/server/api/idempotency_engine.py :: _coerce_int *)
Definition _coerce_int (v : pyval) (dflt : Z) : Z :=
  match v with
  | PInt z => z
  | PStr s => match parse_int s with Some z => z | None => dflt end
  | _ => dflt
  end.

(** ** Responses *)

(* src/server/api/idempotency_engine.py :: _mismatch_response *)
Definition _mismatch_response : reply :=
  mkReply 409 (PDict [("code", PStr "IDEMPOTENCY_KEY_REUSE_MISMATCH");
                      ("detail", PStr "Idempotency key conflict")]) [].

(* src/server/api/idempotency_engine.py :: _in_progress_response *)
Definition _in_progress_response (raw_key : string) : reply :=
  mkReply 202 (PDict [("code", PStr "IDEMPOTENCY_IN_PROGRESS");
                      ("detail", PStr "Idempotent request is in progress");
                      ("retry_after_seconds", PInt IDEMPOTENCY_RETRY_AFTER_SECONDS)])
    [("Retry-After", pretty IDEMPOTENCY_RETRY_AFTER_SECONDS); (IDEMPOTENCY_HEADER, raw_key);
     (LEGACY_IDEMPOTENCY_HEADER, raw_key); ("Idempotency-Status", "in_progress")].

(* src/server/api/idempotency_engine.py :: _tampered_response *)
Definition _tampered_response (c : string) : reply :=
  mkReply 409 (PDict [("code", PStr c); ("detail", PStr "Idempotency record integrity check failed");
                      ("action", PStr "CONTACT_SUPPORT"); ("retryable", PBool false)]) [].

(* src/server/api/idempotency_engine.py :: _build_replay_response *)
Definition _build_replay_response (r : row) (raw_key : string) : reply :=
  let kept := List.filter (λ kv : string * string,
                bool_decide (kv.1 ∈ IDEMPOTENCY_RESPONSE_HEADERS_ALLOWLIST)) (r_response_headers r) in
  add_header "Idempotency-Status" "replayed"
    (add_header LEGACY_IDEMPOTENCY_HEADER raw_key
       (add_header IDEMPOTENCY_HEADER raw_key
          (mkReply (default 200 (r_status_code r)) (r_response_body r) (dupdate [] kept)))).

(* src/server/api/idempotency_engine.py :: _extract_replay_headers *)
Definition _extract_replay_headers (r : reply) : list (string * string) :=
  omap (λ h, (λ v, (h, v)) <$> dget h (rp_headers r)) IDEMPOTENCY_RESPONSE_HEADERS_ALLOWLIST.

(* src/server/api/idempotency_engine.py :: _coerce_storage_payload *)
Definition _coerce_storage_payload (payload : pyval) : pyval :=
  match payload with
  | PNone | PStr _ | PDict _ | PList _ => payload
  | v => PDict [("value", PStr (py_str v))]
  end.

(** The length of the UTF-8 encoding: a code point from 128 on takes two bytes. *)
Fixpoint utf8_length (s : string) : Z :=
  match s with
  | EmptyString => 0
  | String c s' => (if (code c <? 128)%N then 1 else 2) + utf8_length s'
  end.

(* src/server/api/idempotency_engine.py :: _response_payload_for_storage *)
Definition _response_payload_for_storage (payload : pyval) : res (pyval * string) :=
  let p := _coerce_storage_payload payload in
  let? (p, dumped) :=
    match canonical_json_dumps p with
    | Ok d => Ok (p, d)
    | Err _ =>
        let v := PDict [("value", PStr (py_str payload))] in
        let? d := canonical_json_dumps v in Ok (v, d)
    end in
  if IDEMPOTENCY_MAX_RESPONSE_BYTES <? utf8_length dumped then
    let v := PDict [("detail", PStr "response_omitted_due_to_size_cap")] in
    let? d := canonical_json_dumps v in Ok (v, d)
  else Ok (p, dumped).

(** ** The keyring *)

Abbreviation environ := (list (string * string)).

(* src/server/api/idempotency_engine.py :: _secrets_backend *)
Definition _secrets_backend (env : environ) : string :=
  lower (strip (str_or (default EmptyString (dget "IMMOAPP_SECRETS_BACKEND" env)) "openbao")).
(* src/server/api/idempotency_engine.py :: _allow_env_secrets *)
Definition _allow_env_secrets (env : environ) : bool :=
  bool_decide (lower (strip (default EmptyString (dget "IMMOAPP_ALLOW_ENV_SECRETS" env)))
               ∈ ["1"; "true"; "yes"; "on"]).

(** [str(mapping.get(k) or "").strip()] and [s or None]. *)
Definition mapping_text (k : string) (mapping : pydict) : string :=
  strip (py_str (py_or (get k mapping) (PStr EmptyString))).
Definition or_none (s : string) : option string := if str_empty s then None else Some s.
(** [s[n:]] *)
Definition str_drop (n : nat) (s : string) : string := String.substring n (String.length s - n) s.

Definition HMAC_PREFIX : string := "IMMOAPP_IDEMPOTENCY_HMAC_KEY_".
Definition HMAC_RESERVED : list string :=
  ["IMMOAPP_IDEMPOTENCY_HMAC_KEY_ID"; "IMMOAPP_IDEMPOTENCY_HMAC_KEYS_JSON";
   "IMMOAPP_IDEMPOTENCY_HMAC_KEY_ACTIVE"].

(** [if kid and secret: keyring[kid] = secret], both stripped. *)
Definition add_key (kid secret : string) (k : keyring) : keyring :=
  if negb (str_empty (strip kid)) && negb (str_empty (strip secret))
  then dset (strip kid) (strip secret) k else k.

(** One variable of the last loop; the active key falls back to the first one found. *)
Definition add_prefixed (acc : keyring * option string) (kv : string * pyval)
  : keyring * option string :=
  if negb (String.prefix HMAC_PREFIX kv.1) || bool_decide (kv.1 ∈ HMAC_RESERVED) then acc
  else
    let suffix := strip (str_drop (String.length HMAC_PREFIX) kv.1) in
    let secret := strip (py_str kv.2) in
    if negb (str_empty suffix) && negb (str_empty secret)
    then (dset suffix secret acc.1, match acc.2 with None => Some suffix | a => a end)
    else acc.

(** [json_loads] reads a JSON text, [None] when it is malformed. *)
(* src/server/api/idempotency_engine.py :: _parse_keyring_from_mapping *)
Definition _parse_keyring_from_mapping (json_loads : string → option pyval) (mapping : pydict)
  : keyring * option string :=
  let active_key_id := or_none (mapping_text "IMMOAPP_IDEMPOTENCY_HMAC_ACTIVE_KEY_ID" mapping) in
  let raw_json := mapping_text "IMMOAPP_IDEMPOTENCY_HMAC_KEYS_JSON" mapping in
  let parsed := if str_empty raw_json then None else json_loads raw_json in
  let ring := match parsed with
              | Some (PDict d) => foldl (λ acc kv, add_key kv.1 (py_str kv.2) acc) [] d
              | _ => []
              end in
  let raw_key := mapping_text "IMMOAPP_IDEMPOTENCY_HMAC_KEY" mapping in
  let raw_key_id := or_none (mapping_text "IMMOAPP_IDEMPOTENCY_HMAC_KEY_ID" mapping) in
  let '(ring, active_key_id) :=
    if str_empty raw_key then (ring, active_key_id)
    else
      let fallback_id := match raw_key_id, active_key_id with
                         | Some i, _ => i
                         | None, Some i => i
                         | None, None => "default"
                         end in
      (dset fallback_id raw_key ring, match active_key_id with None => Some fallback_id | a => a end) in
  foldl add_prefixed (ring, active_key_id) mapping.

(** What the process reads from outside; the n-th load of the keyring sees the n-th state of the
    secret store and of the environment. *)
Class Server := {
  sha256_hex : string → string;
  hmac_sha256 : string → string → string;
  json_loads : string → option pyval;
  route_policy : string → option RoutePolicy;
  isoformat : Z → string;
  fetch_secret_data : nat → res pyval;
  load_secrets : nat → res environ;
  os_environ : nat → environ;
  keyring_ttl : Z;
  enforce_write_key : bool;
  record_ttl : Z
}.

Section Engine.
Context `{Server}.

(* src/server/api/idempotency_engine.py :: _load_openbao_hmac_keyring *)
Definition _load_openbao_hmac_keyring (n : nat) : keyring * option string :=
  match fetch_secret_data n with
  | Ok (PDict secrets) => _parse_keyring_from_mapping json_loads secrets
  | _ => ([], None)
  end.

Definition environ_mapping (env : environ) : pydict :=
  map (λ kv : string * string, (kv.1, PStr kv.2)) env.
Definition first_key (k : keyring) : option string := head (ssort str_leb (dkeys k)).
Definition nothing_loaded (k : keyring) : bool := match k with [] => true | _ => false end.

(* src/server/api/idempotency_engine.py :: _load_idempotency_hmac_keyring *)
Definition _load_idempotency_hmac_keyring (n : nat) : res (keyring * option string) :=
  let env := os_environ n in
  let openbao := bool_decide (_secrets_backend env = "openbao") in
  let strict_openbao := openbao && negb (_allow_env_secrets env) in
  let '(ring, active, env) :=
    if openbao then
      let '(r, a) := _load_openbao_hmac_keyring n in
      if nothing_loaded r then
        match load_secrets n with
        | Ok env' => (_parse_keyring_from_mapping json_loads (environ_mapping env'), env')
        | Err _ => ([], None, env)
        end
      else (r, a, env)
    else ([], None, env) in
  let '(ring, active) :=
    if nothing_loaded ring && (negb openbao || _allow_env_secrets env)
    then _parse_keyring_from_mapping json_loads (environ_mapping env)
    else (ring, active) in
  if strict_openbao && nothing_loaded ring then
    Err (RuntimeError
      "OpenBao-only policy active but no idempotency HMAC key was loaded from OpenBao.")
  else
    Ok (ring, match active with
              | None => if nothing_loaded ring then None else first_key ring
              | a => a
              end).

Definition refresh_keyring (now : Z) : EM (keyring * option string) :=
  let! n := gets e_loads in
  do! modify (λ e, mkEngine (e_rows e) (e_next_id e) (e_cache e) (S n)) in
  let! (k, a) := lift (_load_idempotency_hmac_keyring n) in
  do! modify (λ e, mkEngine (e_rows e) (e_next_id e) (Some (mkCached k a (now + keyring_ttl)))
                     (e_loads e)) in
  ret (k, a).
(* src/server/api/idempotency_engine.py :: _idempotency_hmac_keyring *)
Definition _idempotency_hmac_keyring (now : Z) (force_refresh : bool)
  : EM (keyring * option string) :=
  let! cached := gets e_cache in
  match cached with
  | Some c => if negb force_refresh && (now <? ck_refresh_after c)
              then ret (ck_keyring c, ck_active_key_id c) else refresh_keyring now
  | None => refresh_keyring now
  end.

(* src/server/api/idempotency_engine.py :: _resolve_hmac_key *)
Definition _resolve_hmac_key (now : Z) (signature_key_id : option string) (force_refresh : bool)
  : EM (option string * option string) :=
  let! (ring, active) := _idempotency_hmac_keyring now force_refresh in
  match ring with
  | [] => ret (None, None)
  | _ =>
      match signature_key_id with
      | Some i =>
          match dget i ring with
          | Some key => if str_empty key then ret (None, Some i) else ret (Some key, Some i)
          | None => ret (None, Some i)
          end
      | None =>
          let fallback := match first_key ring with
                          | Some i => (dget i ring, Some i)
                          | None => (None, None)
                          end in
          ret (match active with
               | Some i => if str_empty i then fallback
                           else match dget i ring with
                                | Some key => (Some key, Some i)
                                | None => fallback
                                end
               | None => fallback
               end)
      end
  end.

(** The fields a signature covers. *)
Definition signed_payload (s : IdempotencyScope) (body_hash query_hash semantic_hash : string)
    (status_code : option Z) (response_hash content_type : string)
    (headers : list (string * string)) (created_at expires_at : Z) : pyval :=
  PDict [("agency_id", PInt (is_agency_id s)); ("normalized_route", PStr (is_normalized_route s));
         ("method", PStr (is_method s)); ("idempotency_key", PStr (is_idempotency_key s));
         ("canonical_body_hash", PStr body_hash); ("normalized_query_hash", PStr query_hash);
         ("semantic_headers_hash", PStr semantic_hash);
         ("status_code", match status_code with Some z => PInt z | None => PNone end);
         ("response_body_hash", PStr response_hash); ("response_content_type", PStr content_type);
         ("response_headers_json", PDict (map (λ kv : string * string, (kv.1, PStr kv.2)) headers));
         ("created_at", PStr (isoformat created_at)); ("expires_at", PStr (isoformat expires_at));
         ("payload_version", PStr IDEMPOTENCY_HMAC_PAYLOAD_VERSION)].

(* src/server/api/idempotency_engine.py :: _compute_record_hmac *)
Definition _compute_record_hmac (payload : pyval) (key : option string) : res (option string) :=
  match key with
  | None => Ok None
  | Some k => if str_empty k then Ok None
              else let? msg := canonical_json_dumps payload in Ok (Some (hmac_sha256 k msg))
  end.
Definition row_payload (r : row) : pyval :=
  signed_payload (r_scope r) (r_body_hash r) (r_query_hash r) (r_semantic_hash r) (r_status_code r)
    (r_response_hash r) (r_content_type r) (r_response_headers r) (r_created_at r) (r_expires_at r).

Definition opt_text (o : option string) : string := default EmptyString o.

(* src/server/api/idempotency_engine.py :: _completed_replay_or_integrity_error *)
Definition _completed_replay_or_integrity_error (now : Z) (r : row) (raw_key : string) : EM reply :=
  let version := opt_text (r_payload_version r) in
  if negb (str_empty version) && negb (bool_decide (version = IDEMPOTENCY_HMAC_PAYLOAD_VERSION))
  then ret (_tampered_response "IDEMPOTENCY_RECORD_UNVERIFIABLE")
  else
    let sig := strip (opt_text (r_signature_key_id r)) in
    let key_id := if str_empty sig then None else Some sig in
    let! (key, _) := _resolve_hmac_key now key_id false in
    let! key := match key_id, key with
                | Some _, None => let! (k, _) := _resolve_hmac_key now key_id true in ret k
                | _, _ => ret key
                end in
    let! expected := lift (_compute_record_hmac (row_payload r) key) in
    let stored := opt_text (r_record_hmac r) in
    match expected with
    | None => if negb (str_empty stored) then
                ret (_tampered_response "IDEMPOTENCY_RECORD_UNVERIFIABLE")
              else ret (_build_replay_response r raw_key)
    | Some x =>
        if negb (str_empty x) && negb (str_empty stored) && negb (bool_decide (x = stored))
        then ret (_tampered_response "IDEMPOTENCY_RECORD_TAMPERED")
        else ret (_build_replay_response r raw_key)
    end.

(** ** The table *)

(** The unique index: at most one row per scope. *)
(* src/server/api/idempotency_engine.py :: _select_locked_record *)
Definition _select_locked_record (s : IdempotencyScope) : EM (option row) :=
  gets (λ e, List.find (λ r, bool_decide (r_scope r = s)) (e_rows e)).

(** [INSERT ... ON CONFLICT DO NOTHING]. *)
(* src/server/api/idempotency_engine.py :: _try_insert_in_progress_record *)
Definition _try_insert_in_progress_record (cx : IdempotencyContext) (now lease_until expires_at : Z)
  : EM (option row) :=
  let! found := _select_locked_record (cx_scope cx) in
  match found with
  | Some _ => ret None
  | None =>
      λ e,
        let r := mkRow (e_next_id e) (cx_scope cx) (cx_body_hash cx) (cx_query_hash cx)
                   (cx_semantic_hash cx) InProgress 1 (cx_lease_owner cx) (Some lease_until) now
                   expires_at None EmptyString [] PNone EmptyString None None None in
        (Ok (Some r), mkEngine (e_rows e ++ [r]) (e_next_id e + 1) (e_cache e) (e_loads e))
  end.

Definition with_row (cx : IdempotencyContext) (r : row) : IdempotencyContext :=
  mkCtx (cx_scope cx) (cx_body_hash cx) (cx_query_hash cx) (cx_semantic_hash cx) (cx_policy cx)
    (cx_raw_key_header cx) (cx_lease_owner cx) (r_id r) (Some (r_created_at r)) (Some (r_expires_at r)).

(* src/server/api/idempotency_engine.py :: _wait_for_completion *)
Definition _wait_for_completion (now : Z) (s : IdempotencyScope) (raw_key : string) : EM reply :=
  let! r := _select_locked_record s in
  match r with
  | None => ret (_in_progress_response raw_key)
  | Some r => match r_state r with
              | Completed => _completed_replay_or_integrity_error now r raw_key
              | _ => ret (_in_progress_response raw_key)
              end
  end.

Definition take_lease (owner : string) (lease_until : Z) (r : row) : row :=
  mkRow (r_id r) (r_scope r) (r_body_hash r) (r_query_hash r) (r_semantic_hash r) InProgress
    (r_attempt r + 1) owner (Some lease_until) (r_created_at r) (r_expires_at r) (r_status_code r)
    (r_content_type r) (r_response_headers r) (r_response_body r) (r_response_hash r)
    (r_record_hmac r) (r_signature_key_id r) (r_payload_version r).
Definition update_rows (sel : row → bool) (f : row → row) : EM unit :=
  modify (λ e, set_rows (map (λ r, if sel r then f r else r) (e_rows e)) e).
Definition delete_rows (sel : row → bool) : EM unit :=
  modify (λ e, set_rows (List.filter (λ r, negb (sel r)) (e_rows e)) e).

(* src/server/api/idempotency_engine.py :: _record_expiry *)
Definition _record_expiry (now : Z) : Z := now + Z.max 60 (Z.min record_ttl (7 * 24 * 60 * 60)).

Definition is_write (m : string) : bool := bool_decide (m ∈ ["POST"; "PUT"; "PATCH"; "DELETE"]).
Definition key_write_policy (p : option RoutePolicy) : bool :=
  match p with Some q => bool_decide (retry_class q = IDEMPOTENCY_KEY_WRITE) | None => false end.

(** [now] is the clock of the call, [request_id] the fresh uuid used without [X-Request-Id]. *)
(* src/server/api/idempotency_engine.py :: check_idempotency *)
Definition check_idempotency (now : Z) (request_id : string) (rq : api_request)
  : EM (option IdempotencyContext * option reply) :=
  let method := upper (str_or (ar_method rq) "GET") in
  let policy := route_policy (ar_route rq) in
  let '(raw, header_name) := _extract_idempotency_header rq in
  match raw with
  | None =>
      if enforce_write_key && key_write_policy policy && is_write method then
        ret (None, Some (mkReply 400
          (PDict [("code", PStr "IDEMPOTENCY_KEY_REQUIRED");
                  ("detail", PStr "Idempotency-Key is required for this write endpoint")]) []))
      else ret (None, None)
  | Some raw_key =>
      if (255 <? String.length raw_key)%nat then
        ret (None, Some (mkReply 400 (PDict [("detail", PStr "Idempotency-Key is too long")]) []))
      else
        let s := mkIdScope (_effective_agency_id rq) (ar_route rq) method raw_key in
        let! body_hash := lift (canonical_body_hash sha256_hex (ar_body rq)) in
        let! query_hash := lift (canonical_query_hash sha256_hex (ar_query rq)) in
        let! semantic_hash := lift (_semantic_headers_hash sha256_hex (ar_headers rq)) in
        let owner := str_or (header "X-Request-Id" rq) ("req-" +:+ request_id) in
        let cx := mkCtx s body_hash query_hash semantic_hash policy header_name owner 0 None None in
        let lease_until := now + IDEMPOTENCY_IN_PROGRESS_WAIT_SECONDS in
        let! inserted := _try_insert_in_progress_record cx now lease_until (_record_expiry now) in
        match inserted with
        | Some r => ret (Some (with_row cx r), None)
        | None =>
            let! found := _select_locked_record s in
            match found with
            | None =>
                let! again := _try_insert_in_progress_record cx now lease_until (_record_expiry now) in
                match again with
                | Some r => ret (Some (with_row cx r), None)
                | None => ret (None, Some (_in_progress_response raw_key))
                end
            | Some r =>
                if negb (bool_decide (r_body_hash r = body_hash))
                   || negb (bool_decide (r_query_hash r = query_hash))
                   || negb (bool_decide (r_semantic_hash r = semantic_hash))
                then ret (None, Some _mismatch_response)
                else if decide (r_state r = Completed) then
                  let! p := _completed_replay_or_integrity_error now r raw_key in ret (None, Some p)
                else if match r_lease_until r with Some u => now <? u | None => false end then
                  let! p := _wait_for_completion now s raw_key in ret (None, Some p)
                else
                  do! update_rows (λ x, r_id x =? r_id r) (take_lease owner lease_until) in
                  ret (Some (with_row cx r), None)
            end
        end
  end.

Definition scope_is (s : IdempotencyScope) (r : row) : bool := bool_decide (r_scope r = s).
Definition completed_row (st : record_state) (status : Z) (ctype : string)
    (headers : list (string * string)) (body : pyval) (hash : string) (mac key_id : option string)
    (r : row) : row :=
  mkRow (r_id r) (r_scope r) (r_body_hash r) (r_query_hash r) (r_semantic_hash r) st (r_attempt r)
    (r_lease_owner r) None (r_created_at r) (r_expires_at r) (Some status) ctype headers body hash
    mac (match mac with Some _ => key_id | None => None end)
    (match mac with Some _ => Some IDEMPOTENCY_HMAC_PAYLOAD_VERSION | None => None end).

Definition echo_key (cx : IdempotencyContext) (st : string) (r : reply) : reply :=
  add_header "Idempotency-Status" st
    (add_header LEGACY_IDEMPOTENCY_HEADER (is_idempotency_key (cx_scope cx))
       (add_header IDEMPOTENCY_HEADER (is_idempotency_key (cx_scope cx)) r)).

(* src/server/api/idempotency_engine.py :: store_idempotency *)
Definition store_idempotency (now : Z) (context : option IdempotencyContext) (response : reply)
  : EM reply :=
  match context with
  | None => ret response
  | Some cx =>
      let status_code := rp_status response in
      if (status_code =? 401) || (status_code =? 403) then
        do! delete_rows (scope_is (cx_scope cx)) in
        ret (echo_key cx "skipped_auth_state" response)
      else
        let mode := match cx_policy cx with Some p => replay_mode p | None => NONE end in
        let pid := match cx_policy cx with Some p => policy_id p | None => EmptyString end in
        let replay_payload := sanitize_replay_payload (rp_data response) pid mode in
        let! (payload, dumped) := lift (_response_payload_for_storage replay_payload) in
        let headers := _extract_replay_headers response in
        let st := if 500 <=? status_code then FailedTransient else Completed in
        let ctype := str_or (default EmptyString (dget "Content-Type" (rp_headers response)))
                       "application/json" in
        let hash := sha256_hex dumped in
        match cx_created_at cx, cx_expires_at cx with
        | Some created, Some expires =>
            if cx_record_id cx <=? 0 then
              raise (RuntimeError "Idempotency context is missing persisted row metadata.")
            else
              let! (key, key_id) := _resolve_hmac_key now None false in
              let! mac := lift (_compute_record_hmac
                (signed_payload (cx_scope cx) (cx_body_hash cx) (cx_query_hash cx)
                   (cx_semantic_hash cx) (Some status_code) hash ctype headers created expires) key) in
              do! update_rows (λ r, (r_id r =? cx_record_id cx) && scope_is (cx_scope cx) r)
                    (completed_row st status_code ctype headers payload hash mac key_id) in
              let r := echo_key cx "created" response in
              let r := if bool_decide (cx_raw_key_header cx = LEGACY_IDEMPOTENCY_HEADER)
                       then add_header "Deprecation" "true" r else r in
              ret (if decide (st = FailedTransient)
                   then add_header "Retry-After" (pretty IDEMPOTENCY_RETRY_AFTER_SECONDS) r else r)
        | _, _ => raise (RuntimeError "Idempotency context is missing persisted row metadata.")
        end
  end.

Fixpoint purge_oldest (limit : nat) (doomed : list row) (rows : list row) : list row * Z :=
  match limit, doomed with
  | S n, d :: ds =>
      let '(rows', k) := purge_oldest n ds (List.filter (λ r, negb (r_id r =? r_id d)) rows) in
      (rows', k + 1)
  | _, _ => (rows, 0)
  end.
Definition expiry_leb (a b : row) : bool := r_expires_at a <=? r_expires_at b.
(* src/server/api/idempotency_engine.py :: purge_expired_idempotency_records *)
Definition purge_expired_idempotency_records (now : Z) (limit : nat) : EM Z :=
  λ e,
    let doomed := ssort expiry_leb (List.filter (λ r, (r_expires_at r <? now)
                    && negb (bool_decide (r_state r = InProgress))) (e_rows e)) in
    let '(rows, n) := purge_oldest limit doomed (e_rows e) in
    (Ok n, set_rows rows e).
End Engine.
