(* ===== verification/IdempotencyProps.v ===== *)
(** * At most one execution per idempotency key

    The table as a sequence of calls leaves it: unique rows, one executor per key while its lease
    runs, a stored response replayed until it expires. *)

From S2P Require Import Prelude PyValue CanonicalJson CanonicalProps ReplayPolicy Idempotency.
From Stdlib Require Import Ascii.
Local Open Scope Z_scope.

(** ** The keyring read from a mapping *)

Definition ring_clean (k : keyring) : Prop :=
  ∀ kid v, dget kid k = Some v → clean kid ∧ clean v.
Definition active_clean (a : option string) : Prop := ∀ kid, a = Some kid → clean kid.

Lemma dset_clean kid v k : clean kid → clean v → ring_clean k → ring_clean (dset kid v k).
Proof.
  intros Hk Hv Hr kid' v'. destruct (decide (kid' = kid)) as [->|Hne].
  - rewrite dget_dset_eq. by intros [= <-].
  - rewrite dget_dset_ne by done. apply Hr.
Qed.
Lemma add_key_clean kid v k : ring_clean k → ring_clean (add_key kid v k).
Proof.
  intros Hk. unfold add_key. destruct (str_empty (strip kid)) eqn:E1, (str_empty (strip v)) eqn:E2;
    cbn; try done. by apply dset_clean; [apply clean_strip..|].
Qed.
Lemma or_none_clean s : active_clean (or_none (strip s)).
Proof.
  unfold or_none. destruct (str_empty (strip s)) eqn:E; intros kid [= <-]. by apply clean_strip.
Qed.
Lemma add_prefixed_clean acc kv :
  ring_clean acc.1 → active_clean acc.2 →
  ring_clean (add_prefixed acc kv).1 ∧ active_clean (add_prefixed acc kv).2.
Proof.
  intros Hr Ha. unfold add_prefixed. destruct (_ || _); [done|].
  destruct (str_empty (strip (str_drop _ _))) eqn:E1; [done|].
  destruct (str_empty (strip (py_str _))) eqn:E2; [done|]. cbn. split.
  - by apply dset_clean; [apply clean_strip..|].
  - destruct acc.2; [done|]. intros kid [= <-]. by apply clean_strip.
Qed.
Lemma foldl_clean {A} (f : keyring * option string → A → keyring * option string) l acc :
  (∀ acc x, ring_clean acc.1 → active_clean acc.2 →
     ring_clean (f acc x).1 ∧ active_clean (f acc x).2) →
  ring_clean acc.1 → active_clean acc.2 →
  ring_clean (foldl f acc l).1 ∧ active_clean (foldl f acc l).2.
Proof.
  intros Hf. revert acc. induction l as [|x l IH]; intros acc Hr Ha; [done|].
  cbn. destruct (Hf acc x Hr Ha). by apply IH.
Qed.
Lemma add_keys_clean (d : pydict) k :
  ring_clean k → ring_clean (foldl (λ acc kv, add_key kv.1 (py_str kv.2) acc) k d).
Proof. revert k. induction d as [|x d IH]; intros k Hk; [done|]. by apply IH, add_key_clean. Qed.

Lemma parsed_keyring_clean jl mapping :
  ring_clean (_parse_keyring_from_mapping jl mapping).1 ∧
  active_clean (_parse_keyring_from_mapping jl mapping).2.
Proof.
  unfold _parse_keyring_from_mapping.
  set (ring := match (if str_empty _ then _ else _) with Some (PDict d) => _ | _ => _ end).
  assert (ring_clean ring) as Hr.
  { subst ring. destruct (if str_empty _ then _ else _) as [[]|]; try (by intros ??).
    by apply add_keys_clean. }
  pose proof (or_none_clean (py_str (py_or (get "IMMOAPP_IDEMPOTENCY_HMAC_ACTIVE_KEY_ID" mapping)
    (PStr EmptyString)))) as Ha.
  pose proof (or_none_clean (py_str (py_or (get "IMMOAPP_IDEMPOTENCY_HMAC_KEY_ID" mapping)
    (PStr EmptyString)))) as Hi.
  unfold mapping_text in *. cbv zeta.
  destruct (str_empty (strip (py_str (py_or (get "IMMOAPP_IDEMPOTENCY_HMAC_KEY" mapping) _)))) eqn:Ek.
  - apply foldl_clean; [by intros; apply add_prefixed_clean|exact Hr|exact Ha].
  - set (fb := match or_none _ with Some i => i | None => _ end).
    assert (clean fb) as Hfb.
    { subst fb. destruct (or_none (strip (py_str (py_or (get "IMMOAPP_IDEMPOTENCY_HMAC_KEY_ID" _) _)))) as [i|];
        [by apply (Hi i)|].
      destruct (or_none _) as [i|]; [by apply (Ha i)|]. by split. }
    apply foldl_clean; [by intros; apply add_prefixed_clean|..]; cbn.
    + apply dset_clean; [done|by apply clean_strip|done].
    + destruct (or_none (strip (py_str (py_or (get "IMMOAPP_IDEMPOTENCY_HMAC_ACTIVE_KEY_ID" _) _))));
        [done|]. by intros kid [= <-].
Qed.

Section Engine.
Context `{Server}.

Lemma loaded_clean n ring active :
  _load_idempotency_hmac_keyring n = Ok (ring, active) → ring_clean ring.
Proof.
  assert (ring_clean []) as Hnil by by intros ??.
  assert (∀ m, ring_clean (_parse_keyring_from_mapping json_loads m).1) as Hparse
    by (intros m; apply parsed_keyring_clean).
  assert (ring_clean (_load_openbao_hmac_keyring n).1) as Hbao.
  { unfold _load_openbao_hmac_keyring. destruct (fetch_secret_data n) as [[]|]; (exact Hnil || apply Hparse). }
  unfold _load_idempotency_hmac_keyring. cbv zeta.
  set (pair1 := if bool_decide (_secrets_backend _ = _) then _ else _).
  assert (ring_clean pair1.1.1) as H1.
  { subst pair1. case_bool_decide; [|done].
    destruct (_load_openbao_hmac_keyring n) as [r a]. destruct (nothing_loaded r); [|done].
    destruct (load_secrets n); [apply Hparse|done]. }
  destruct pair1 as [[r a] env].
  set (pair2 := if nothing_loaded r && _ then _ else _).
  assert (ring_clean pair2.1) as H2 by (subst pair2; destruct (_ && _); [apply Hparse|done]).
  destruct pair2 as [r2 a2]. destruct (_ && nothing_loaded r2); [done|].
  by intros [= <- _].
Qed.

(** ** Calls that only read the table *)

Definition same_table (e e' : engine) : Prop :=
  e_rows e' = e_rows e ∧ e_next_id e' = e_next_id e.
Definition reads {A} (m : EM A) : Prop := ∀ e, same_table e (m e).2.

Lemma same_table_refl e : same_table e e.
Proof. done. Qed.
Lemma same_table_trans e1 e2 e3 : same_table e1 e2 → same_table e2 e3 → same_table e1 e3.
Proof. intros [E1 E2] [E3 E4]. split; congruence. Qed.
Lemma table_ret {A} (a : A) : reads (ret a).
Proof. done. Qed.
Lemma table_lift {A} (r : res A) : reads (lift r).
Proof. done. Qed.
Lemma table_gets {A} (f : engine → A) : reads (gets f).
Proof. done. Qed.
Lemma table_bind {A B} (m : EM A) (k : A → EM B) :
  reads m → (∀ a, reads (k a)) → reads (bind m k).
Proof.
  intros Hm Hk e. unfold bind. specialize (Hm e). destruct (m e) as [[a|x] e']; [|done].
  eapply same_table_trans; [done|apply Hk].
Qed.

Lemma refresh_reads now : reads (refresh_keyring now).
Proof.
  apply table_bind; [apply table_gets|]. intros n. apply table_bind; [done|]. intros [].
  apply table_bind; [apply table_lift|]. intros [k a]. by apply table_bind.
Qed.
Lemma resolve_reads now sk force : reads (_resolve_hmac_key now sk force).
Proof.
  apply table_bind.
  - apply table_bind; [apply table_gets|]. intros [c|]; [destruct (_ && _); [done|]|];
      apply refresh_reads.
  - intros [[|x ring] active]; [done|]. destruct sk as [i|]; [|done].
    destruct (dget i (x :: ring)) as [k|]; [by destruct (str_empty k)|done].
Qed.
Lemma replay_reads now r raw : reads (_completed_replay_or_integrity_error now r raw).
Proof.
  unfold _completed_replay_or_integrity_error. destruct (_ && _); [done|].
  apply table_bind; [apply resolve_reads|]. intros [key k].
  apply table_bind; [|intros key'].
  - destruct (if str_empty _ then _ else _); [destruct key; [done|]|done].
    apply table_bind; [apply resolve_reads|]. by intros [].
  - apply table_bind; [apply table_lift|]. intros [x|]; [destruct (_ && _); done|].
    destruct (negb _); done.
Qed.

(** ** What a check does, without the sequencing *)

Definition find_row (s : IdempotencyScope) (e : engine) : option row :=
  List.find (λ r, bool_decide (r_scope r = s)) (e_rows e).

Record keyed := mkKeyed {
  kd_scope : IdempotencyScope;
  kd_body : string;
  kd_query : string;
  kd_semantic : string;
  kd_header : string
}.
(** The request carries a usable key, and its fingerprints exist. *)
Definition keyed_request (rq : api_request) : option keyed :=
  let '(raw, name) := _extract_idempotency_header rq in
  match raw with
  | None => None
  | Some k =>
      if (255 <? String.length k)%nat then None
      else
        match canonical_body_hash sha256_hex (ar_body rq), canonical_query_hash sha256_hex (ar_query rq),
              _semantic_headers_hash sha256_hex (ar_headers rq) with
        | Ok b, Ok q, Ok h =>
            Some (mkKeyed (mkIdScope (_effective_agency_id rq) (ar_route rq)
                             (upper (str_or (ar_method rq) "GET")) k) b q h name)
        | _, _, _ => None
        end
  end.

Definition same_request (k : keyed) (r : row) : bool :=
  bool_decide (r_body_hash r = kd_body k) && bool_decide (r_query_hash r = kd_query k)
  && bool_decide (r_semantic_hash r = kd_semantic k).
Definition lease_runs (now : Z) (r : row) : bool :=
  match r_lease_until r with Some u => now <? u | None => false end.
Definition owner_of (rid : string) (rq : api_request) : string :=
  str_or (header "X-Request-Id" rq) ("req-" +:+ rid).
Definition context_of (k : keyed) (rid : string) (rq : api_request) : IdempotencyContext :=
  mkCtx (kd_scope k) (kd_body k) (kd_query k) (kd_semantic k) (route_policy (ar_route rq))
    (kd_header k) (owner_of rid rq) 0 None None.
Definition new_row (k : keyed) (now : Z) (owner : string) (i : Z) : row :=
  mkRow i (kd_scope k) (kd_body k) (kd_query k) (kd_semantic k) InProgress 1 owner
    (Some (now + IDEMPOTENCY_IN_PROGRESS_WAIT_SECONDS)) now (_record_expiry now) None EmptyString []
    PNone EmptyString None None None.
Definition raw_of (k : keyed) : string := is_idempotency_key (kd_scope k).

Definition refuse (m : EM reply) : EM (option IdempotencyContext * option reply) :=
  let! p := m in ret (None, Some p).
Definition decided (k : keyed) (now : Z) (rid : string) (rq : api_request)
  : EM (option IdempotencyContext * option reply) := λ e,
  match find_row (kd_scope k) e with
  | None =>
      let r := new_row k now (owner_of rid rq) (e_next_id e) in
      (Ok (Some (with_row (context_of k rid rq) r), None),
       mkEngine (e_rows e ++ [r]) (e_next_id e + 1) (e_cache e) (e_loads e))
  | Some r =>
      if negb (same_request k r) then (Ok (None, Some _mismatch_response), e)
      else if decide (r_state r = Completed) then
        refuse (_completed_replay_or_integrity_error now r (raw_of k)) e
      else if lease_runs now r then (Ok (None, Some (_in_progress_response (raw_of k))), e)
      else (Ok (Some (with_row (context_of k rid rq) r), None),
            set_rows (map (λ x, if r_id x =? r_id r then
                              take_lease (owner_of rid rq) (now + IDEMPOTENCY_IN_PROGRESS_WAIT_SECONDS) x
                            else x) (e_rows e)) e)
  end.

Lemma check_keyed k now rid rq e :
  keyed_request rq = Some k → check_idempotency now rid rq e = decided k now rid rq e.
Proof.
  unfold keyed_request, check_idempotency. destruct (_extract_idempotency_header rq) as [[raw|] name];
    [|done].
  destruct (255 <? String.length raw)%nat; [done|].
  destruct (canonical_body_hash _ _) as [b|]; [|done].
  destruct (canonical_query_hash _ _) as [q|]; [|done].
  destruct (_semantic_headers_hash _ _) as [h|]; [|done]. intros [= <-].
  unfold decided, find_row, bind, lift, _try_insert_in_progress_record, _select_locked_record, bind,
    gets, ret. cbn [cx_scope kd_scope].
  destruct (List.find _ (e_rows e)) as [r|] eqn:Ef; [|done]. rewrite Ef.
  unfold same_request, raw_of. cbn [kd_body kd_query kd_semantic kd_scope is_idempotency_key].
  destruct (bool_decide (r_body_hash r = b)); cbn [negb orb andb]; [|done].
  destruct (bool_decide (r_query_hash r = q)); cbn [negb orb andb]; [|done].
  destruct (bool_decide (r_semantic_hash r = h)); cbn [negb orb andb]; [|done].
  destruct (decide (r_state r = Completed)) as [Ec|Ec].
  { unfold refuse, bind. by destruct (_completed_replay_or_integrity_error now r raw e) as [[] ]. }
  fold (lease_runs now r). destruct (lease_runs now r); [|done].
  unfold _wait_for_completion, _select_locked_record, bind, gets, ret. rewrite Ef.
  by destruct (r_state r).
Qed.

Lemma check_unkeyed now rid rq e :
  keyed_request rq = None →
  (check_idempotency now rid rq e).2 = e ∧
  ∀ c p, (check_idempotency now rid rq e).1 ≠ Ok (Some c, p).
Proof.
  unfold keyed_request, check_idempotency. destruct (_extract_idempotency_header rq) as [[raw|] name].
  - destruct (255 <? String.length raw)%nat; [done|].
    unfold bind, lift.
    destruct (canonical_body_hash _ _) as [b|]; [|done].
    destruct (canonical_query_hash _ _) as [q|]; [|done].
    by destruct (_semantic_headers_hash _ _) as [h|].
  - by destruct (_ && _).
Qed.

(** ** The table's invariant *)

Definition table_ok (e : engine) : Prop :=
  NoDup (map r_scope (e_rows e)) ∧ NoDup (map r_id (e_rows e)) ∧
  Forall (λ r, 0 < r_id r < e_next_id e) (e_rows e) ∧ 0 < e_next_id e.

Lemma find_row_Some s e r : find_row s e = Some r → r ∈ e_rows e ∧ r_scope r = s.
Proof.
  intros [Hin Hs%bool_decide_eq_true]%List.find_some. split; [by apply list_elem_of_In|done].
Qed.
Lemma find_row_None s e : find_row s e = None → s ∉ map r_scope (e_rows e).
Proof.
  intros Hf (r & -> & Hr%list_elem_of_In)%elem_of_map.
  pose proof (List.find_none _ _ Hf r Hr) as E. by apply bool_decide_eq_false in E.
Qed.
Lemma find_row_unique s e r :
  table_ok e → r ∈ e_rows e → r_scope r = s → find_row s e = Some r.
Proof.
  intros (Hs & _) Hr Hsc. destruct (find_row s e) as [r'|] eqn:E.
  - apply find_row_Some in E as [Hr' Hs']. f_equal.
    eapply NoDup_map_inj_on; [apply Hs|done..|congruence].
  - apply find_row_None in E. exfalso. apply E, elem_of_map. eauto.
Qed.
Lemma table_ok_same e e' : same_table e e' → table_ok e → table_ok e'.
Proof. unfold table_ok. by intros [-> ->]. Qed.
(** Rewriting rows in place, keys kept. *)
Lemma table_ok_map f e :
  (∀ r, r_scope (f r) = r_scope r ∧ r_id (f r) = r_id r) →
  table_ok e → table_ok (set_rows (map f (e_rows e)) e).
Proof.
  intros Hf (H1 & H2 & H3 & H4). unfold table_ok, set_rows. cbn. rewrite !map_map.
  rewrite (map_ext _ r_scope) by apply Hf. rewrite (map_ext (λ x, r_id (f x)) r_id) by apply Hf.
  split_and!; [done..| |done]. apply Forall_forall. intros x (r & -> & Hr)%elem_of_map.
  rewrite (proj2 (Hf r)). by eapply Forall_forall in H3.
Qed.
Lemma table_ok_filter f e :
  table_ok e → table_ok (set_rows (List.filter f (e_rows e)) e).
Proof.
  intros (H1 & H2 & H3 & H4). unfold table_ok, set_rows. cbn.
  split_and!; [by apply NoDup_map_filter..|by apply Forall_filter_b|done].
Qed.
Lemma table_ok_insert r e :
  r_id r = e_next_id e → r_scope r ∉ map r_scope (e_rows e) → table_ok e →
  table_ok (mkEngine (e_rows e ++ [r]) (e_next_id e + 1) (e_cache e) (e_loads e)).
Proof.
  intros Hi Hs (H1 & H2 & H3 & H4). unfold table_ok. cbn. rewrite !map_app. cbn.
  rewrite Forall_forall in H3.
  split_and!; [apply NoDup_app; split_and!; [done| |apply NoDup_singleton]..| |lia].
  - by intros x Hx ->%list_elem_of_singleton.
  - intros x (r' & -> & Hr')%elem_of_map Heq%list_elem_of_singleton. specialize (H3 _ Hr'). lia.
  - apply Forall_app. split; [|apply Forall_singleton; lia].
    apply Forall_forall. intros x Hx. specialize (H3 x Hx). lia.
Qed.

Lemma check_table_ok now rid rq e : table_ok e → table_ok (check_idempotency now rid rq e).2.
Proof.
  intros Hok. destruct (keyed_request rq) as [k|] eqn:Ek.
  - rewrite (check_keyed k) by done. unfold decided.
    destruct (find_row (kd_scope k) e) as [r|] eqn:Ef.
    + destruct (negb _); [done|]. case_decide.
      { eapply table_ok_same; [|done]. unfold refuse. apply table_bind; [apply replay_reads|done]. }
      destruct (lease_runs now r); [done|]. cbn. apply table_ok_map; [|done].
      intros x. by destruct (_ =? _).
    + apply table_ok_insert; [done| |done]. by apply find_row_None.
  - by rewrite (proj1 (check_unkeyed now rid rq e Ek)).
Qed.

(** ** Storing *)

(** Storing changes no row but those of its context. *)
Inductive store_effect (cx : IdempotencyContext) (e : engine) : engine → Prop :=
  | st_none e' : same_table e e' → store_effect cx e e'
  | st_deleted : store_effect cx e
      (set_rows (List.filter (λ r, negb (scope_is (cx_scope cx) r)) (e_rows e)) e)
  | st_updated e1 st status ctype hs body hash mac kid :
      same_table e e1 →
      store_effect cx e
        (set_rows (map (λ r, if (r_id r =? cx_record_id cx) && scope_is (cx_scope cx) r
                             then completed_row st status ctype hs body hash mac kid r else r)
                     (e_rows e)) e1).

Lemma store_has_effect now cx resp e :
  store_effect cx e (store_idempotency now (Some cx) resp e).2.
Proof.
  unfold store_idempotency. destruct (_ || _); [apply st_deleted|].
  unfold bind at 1, lift at 1. destruct (_response_payload_for_storage _) as [[p d]|];
    [|by apply st_none].
  destruct (cx_created_at cx), (cx_expires_at cx); try by apply st_none.
  destruct (_ <=? _); [by apply st_none|].
  unfold bind at 1. pose proof (resolve_reads now None false e) as Hr.
  destruct (_resolve_hmac_key now None false e) as [[[key kid]|] e1]; [|by apply st_none].
  unfold bind at 1, lift. destruct (_compute_record_hmac _ _) as [mac|]; [|by apply st_none].
  cbn in Hr |- *. rewrite (proj1 Hr). by apply st_updated.
Qed.

Lemma store_table_ok now cx resp e : table_ok e → table_ok (store_idempotency now cx resp e).2.
Proof.
  intros Hok. destruct cx as [cx|]; [|done].
  destruct (store_has_effect now cx resp e) as [e' Hs| |e1 st status ct hs b h m k Hs].
  - by eapply table_ok_same.
  - by apply table_ok_filter.
  - assert (table_ok e1) as Hok1 by by eapply table_ok_same.
    rewrite <- (proj1 Hs). apply table_ok_map; [|done]. intros r. by destruct (_ && _).
Qed.

(** ** Purging *)

Definition expired (now : Z) (r : row) : bool :=
  (r_expires_at r <? now) && negb (bool_decide (r_state r = InProgress)).
Definition doomed (now : Z) (limit : nat) (e : engine) : list row :=
  take limit (ssort expiry_leb (List.filter (expired now) (e_rows e))).

Lemma purge_oldest_spec limit l rows :
  purge_oldest limit l rows =
  (List.filter (λ r, negb (bool_decide (r_id r ∈ map r_id (take limit l)))) rows,
   Z.of_nat (length (take limit l))).
Proof.
  revert l rows. induction limit as [|n IH]; intros [|d l] rows; cbn -[List.filter];
    try (f_equal; symmetry; apply filter_all, Forall_forall; intros r _;
         by rewrite bool_decide_eq_false_2 by apply not_elem_of_nil).
  rewrite IH. f_equal; [|lia]. rewrite filter_filter_b. apply filter_ext. intros r.
  rewrite <- negb_orb. f_equal. apply eq_true_iff_eq.
  rewrite orb_true_iff, !bool_decide_eq_true, elem_of_cons, Z.eqb_eq. done.
Qed.

Lemma doomed_expired now limit e r : r ∈ doomed now limit e → expired now r = true ∧ r ∈ e_rows e.
Proof.
  intros Hr. unfold doomed in Hr. apply elem_of_take in Hr as (i & Hi & _).
  apply list_elem_of_lookup_2 in Hi. rewrite ssort_perm in Hi. by apply elem_of_filter_b in Hi.
Qed.

Lemma purge_result now limit e :
  purge_expired_idempotency_records now limit e =
  (Ok (Z.of_nat (length (doomed now limit e))),
   set_rows (List.filter (λ r, negb (bool_decide (r_id r ∈ map r_id (doomed now limit e))))
               (e_rows e)) e).
Proof. unfold purge_expired_idempotency_records. by rewrite purge_oldest_spec. Qed.

(** Exactly the doomed rows leave. *)
Lemma purge_elem now limit e r :
  table_ok e →
  (r ∈ e_rows (purge_expired_idempotency_records now limit e).2 ↔
   r ∈ e_rows e ∧ r ∉ doomed now limit e).
Proof.
  intros (_ & Hid & _). rewrite purge_result. cbn. rewrite elem_of_filter_b, negb_true_iff,
    bool_decide_eq_false. split.
  - intros [Hd Hr]. split; [done|]. intros Hin. apply Hd, elem_of_map. eauto.
  - intros [Hr Hd]. split; [|done]. intros (r' & Heq & Hr')%elem_of_map. apply Hd.
    destruct (doomed_expired _ _ _ _ Hr') as [_ Hin].
    by rewrite (NoDup_map_inj_on r_id _ r r' Hid Hr Hin Heq).
Qed.
Lemma purge_table_ok now limit e :
  table_ok e → table_ok (purge_expired_idempotency_records now limit e).2.
Proof. intros Hok. rewrite purge_result. by apply table_ok_filter. Qed.

(** ** Sequences of calls *)

Inductive call : Type :=
  | Check (now : Z) (request_id : string) (rq : api_request)
  | Store (now : Z) (context : option IdempotencyContext) (response : reply)
  | Purge (now : Z) (limit : nat).
Definition perform (e : engine) (c : call) : engine :=
  match c with
  | Check now rid rq => (check_idempotency now rid rq e).2
  | Store now cx resp => (store_idempotency now cx resp e).2
  | Purge now limit => (purge_expired_idempotency_records now limit e).2
  end.
Definition perform_all (cs : list call) (e : engine) : engine := foldl perform e cs.
Definition empty_table : engine := mkEngine [] 1 None 0.

Lemma perform_table_ok c e : table_ok e → table_ok (perform e c).
Proof. destruct c; [apply check_table_ok|apply store_table_ok|apply purge_table_ok]. Qed.
Lemma perform_all_inv (I : engine → Prop) (ok : call → Prop) cs e :
  (∀ e c, ok c → I e → I (perform e c)) → Forall ok cs → I e → I (perform_all cs e).
Proof.
  intros Hstep Hcs. revert e. induction Hcs as [|c cs Hc Hcs IH]; intros e He; [done|].
  cbn. apply IH. by apply Hstep.
Qed.

(** A row no check can take: its response is stored, or its lease runs. *)
Definition settled (now : Z) (r : row) : Prop := r_state r = Completed ∨ lease_runs now r = true.

Lemma check_keeps_row now rid rq e r :
  table_ok e → r ∈ e_rows e → settled now r → r ∈ e_rows (check_idempotency now rid rq e).2.
Proof.
  intros Hok Hr Hset. destruct (keyed_request rq) as [k|] eqn:Ek;
    [|by rewrite (proj1 (check_unkeyed now rid rq e Ek))].
  rewrite (check_keyed k) by done. unfold decided.
  destruct (find_row (kd_scope k) e) as [r'|] eqn:Ef.
  - destruct (negb _); [done|]. case_decide as Hc.
    { assert (same_table e (refuse (_completed_replay_or_integrity_error now r' (raw_of k)) e).2) as [-> _];
        [|done]. unfold refuse. apply table_bind; [apply replay_reads|done]. }
    destruct (lease_runs now r') eqn:El; [done|]. cbn. apply elem_of_map. exists r. split; [|done].
    destruct (Z.eqb_spec (r_id r) (r_id r')) as [Heq|Hne]; [|done].
    apply find_row_Some in Ef as [Hr' _]. destruct Hok as (_ & Hid & _).
    rewrite (NoDup_map_inj_on r_id _ r r' Hid Hr Hr' Heq) in Hset.
    destruct Hset; congruence.
  - cbn. apply elem_of_app. by left.
Qed.

(** What a call must respect for [r] to stay: checks come while [r] is settled, no other response
    is stored for its scope, and no purge finds it expired. *)
Definition respects (r : row) (c : call) : Prop :=
  match c with
  | Check now _ _ => settled now r
  | Store _ (Some cx) _ => cx_scope cx ≠ r_scope r
  | Store _ None _ => True
  | Purge now _ => expired now r = false
  end.

Lemma perform_keeps_row c e r :
  respects r c → table_ok e ∧ r ∈ e_rows e → table_ok (perform e c) ∧ r ∈ e_rows (perform e c).
Proof.
  intros Hc [Hok Hr]. split; [by apply perform_table_ok|].
  destruct c as [now rid rq|now [cx|] resp|now limit]; cbn [respects perform] in Hc |- *;
    [by apply check_keeps_row| |done|].
  - destruct (store_has_effect now cx resp e) as [e' Hs| |e1 st status ct hs b h m k Hs].
    + by rewrite (proj1 Hs).
    + cbn. apply elem_of_filter_b. split; [|done]. unfold scope_is. by rewrite bool_decide_eq_false_2.
    + cbn. apply elem_of_map. exists r. split; [|done]. unfold scope_is.
      rewrite (bool_decide_eq_false_2 (r_scope r = _)) by done. by rewrite andb_false_r.
  - apply purge_elem; [done|]. split; [done|]. intros [He _]%doomed_expired. congruence.
Qed.
Lemma perform_all_keeps_row cs e r :
  Forall (respects r) cs → table_ok e → r ∈ e_rows e →
  table_ok (perform_all cs e) ∧ r ∈ e_rows (perform_all cs e).
Proof.
  intros Hcs Hok Hr.
  apply (perform_all_inv (λ e, table_ok e ∧ r ∈ e_rows e) (respects r)); [|done..].
  intros e' c. by apply perform_keeps_row.
Qed.

(** The row a granted check leaves in the table. *)
Definition granted_row (cx : IdempotencyContext) (now : Z) (r : row) : Prop :=
  r_id r = cx_record_id cx ∧ r_scope r = cx_scope cx ∧ r_state r = InProgress ∧
  r_lease_until r = Some (now + IDEMPOTENCY_IN_PROGRESS_WAIT_SECONDS) ∧
  cx_created_at cx = Some (r_created_at r) ∧ cx_expires_at cx = Some (r_expires_at r) ∧
  r_body_hash r = cx_body_hash cx ∧ r_query_hash r = cx_query_hash cx ∧
  r_semantic_hash r = cx_semantic_hash cx.

Lemma same_request_iff k r :
  same_request k r = true ↔
  r_body_hash r = kd_body k ∧ r_query_hash r = kd_query k ∧ r_semantic_hash r = kd_semantic k.
Proof. unfold same_request. rewrite !andb_true_iff, !bool_decide_eq_true. tauto. Qed.

Lemma grant_spec now rid rq e cx p e1 :
  table_ok e → check_idempotency now rid rq e = (Ok (Some cx, p), e1) →
  p = None ∧ table_ok e1 ∧ 0 < cx_record_id cx ∧ (∃ r, r ∈ e_rows e1 ∧ granted_row cx now r) ∧
  ∃ k, keyed_request rq = Some k ∧ kd_scope k = cx_scope cx.
Proof.
  intros Hok Hck. assert (table_ok e1) as Hok1.
  { replace e1 with (check_idempotency now rid rq e).2 by by rewrite Hck. by apply check_table_ok. }
  destruct (keyed_request rq) as [k|] eqn:Ek.
  2: { exfalso. by eapply (proj2 (check_unkeyed now rid rq e Ek)); rewrite Hck. }
  rewrite (check_keyed k) in Hck by done. unfold decided in Hck.
  destruct (find_row (kd_scope k) e) as [r|] eqn:Ef.
  - destruct (same_request k r) eqn:Es; cbn in Hck; [|done]. apply same_request_iff in Es as (?&?&?).
    case_decide.
    { unfold refuse, bind in Hck. by destruct (_completed_replay_or_integrity_error _ _ _ _) as [[] ]. }
    destruct (lease_runs now r); [done|]. injection Hck as <- <- <-. cbn.
    apply find_row_Some in Ef as [Hr Hs]. split_and!; [done..| | |by eauto].
    + destruct Hok as (_ & _ & Hall & _). rewrite Forall_forall in Hall. by apply Hall.
    + eexists. split; [apply elem_of_map; exists r; split; [reflexivity|done]|].
      rewrite Z.eqb_refl. by unfold granted_row; cbn.
  - injection Hck as <- <- <-. cbn. split_and!; [done..|by apply Hok| |by eauto].
    eexists. split; [apply elem_of_app; right; apply list_elem_of_singleton; reflexivity|].
    by unfold granted_row; cbn.
Qed.

(** A call of another client of the table: it checks before [t], stores nothing for [s]. *)
Definition bystander (s : IdempotencyScope) (t : Z) (c : call) : Prop :=
  match c with
  | Check now _ _ => now < t
  | Store _ (Some cx) _ => cx_scope cx ≠ s
  | Store _ None _ => True
  | Purge _ _ => True
  end.
Lemma bystander_respects cx now r c :
  granted_row cx now r →
  bystander (cx_scope cx) (now + IDEMPOTENCY_IN_PROGRESS_WAIT_SECONDS) c → respects r c.
Proof.
  intros (Hi & Hs & Hst & Hl & _) Hc. destruct c as [now' rid rq|now' [cx'|] resp|now' n]; cbn in *.
  - right. unfold lease_runs. rewrite Hl. by apply Z.ltb_lt.
  - by rewrite Hs.
  - done.
  - unfold expired. rewrite Hst. cbn. by rewrite andb_false_r.
Qed.
Lemma granted_row_stays cx now e r cs :
  table_ok e → r ∈ e_rows e → granted_row cx now r →
  Forall (bystander (cx_scope cx) (now + IDEMPOTENCY_IN_PROGRESS_WAIT_SECONDS)) cs →
  table_ok (perform_all cs e) ∧ r ∈ e_rows (perform_all cs e).
Proof.
  intros Hok Hr Hg Hcs. apply perform_all_keeps_row; [|done..].
  eapply Forall_impl; [exact Hcs|]. intros c. by apply bystander_respects.
Qed.

(** C3. At most one request executes under an idempotency key while its lease runs: once a check
    grants the key (the row is inserted or its lease taken), every check of the same agency,
    route, method and key in the next three seconds is refused, whatever other checks, purges and
    stores for other keys happen in between.  The refusals are the 202 of a request in progress,
    or the 409 of a key reused for another body, query or header set. *)
Theorem one_executor_per_key now rid rq e cx p e1 cs now2 rid2 rq2 k2 :
  table_ok e → check_idempotency now rid rq e = (Ok (Some cx, p), e1) →
  Forall (bystander (cx_scope cx) (now + IDEMPOTENCY_IN_PROGRESS_WAIT_SECONDS)) cs →
  now2 < now + IDEMPOTENCY_IN_PROGRESS_WAIT_SECONDS →
  keyed_request rq2 = Some k2 → kd_scope k2 = cx_scope cx →
  check_idempotency now2 rid2 rq2 (perform_all cs e1) =
  (Ok (None, Some (if bool_decide (kd_body k2 = cx_body_hash cx ∧ kd_query k2 = cx_query_hash cx ∧
                                   kd_semantic k2 = cx_semantic_hash cx)
                   then _in_progress_response (is_idempotency_key (cx_scope cx))
                   else _mismatch_response)), perform_all cs e1).
Proof.
  intros Hok Hck Hcs Ht Hk2 Hs2. destruct (grant_spec _ _ _ _ _ _ _ Hok Hck) as (_ & Hok1 & _ & (r & Hr & Hg) & _).
  destruct (granted_row_stays _ _ _ _ _ Hok1 Hr Hg Hcs) as [Hok2 Hr2].
  rewrite (check_keyed k2) by done. unfold decided.
  destruct Hg as (Hi & Hs & Hst & Hl & _ & _ & Hb & Hq & Hh).
  rewrite (find_row_unique _ _ r) by (done || congruence).
  assert (same_request k2 r = bool_decide (kd_body k2 = cx_body_hash cx ∧ kd_query k2 = cx_query_hash cx ∧
            kd_semantic k2 = cx_semantic_hash cx)) as ->.
  { apply eq_true_iff_eq. rewrite same_request_iff, bool_decide_eq_true. split; intros (?&?&?); split_and!; congruence. }
  case_bool_decide; cbn; [|done]. rewrite decide_False by (rewrite Hst; done).
  unfold lease_runs. rewrite Hl. assert ((now2 <? _) = true) as -> by by apply Z.ltb_lt.
  unfold raw_of. by rewrite Hs2.
Qed.

(** ** Signatures *)

(** The key [_resolve_hmac_key] finds in a ring. *)
Definition pick (ring : keyring) (active sk : option string) : option string * option string :=
  match ring with
  | [] => (None, None)
  | _ =>
      match sk with
      | Some i => (match dget i ring with Some key => or_none key | None => None end, Some i)
      | None =>
          let fallback := match first_key ring with
                          | Some i => (dget i ring, Some i)
                          | None => (None, None)
                          end in
          match active with
          | Some i => if str_empty i then fallback
                      else match dget i ring with Some key => (Some key, Some i) | None => fallback end
          | None => fallback
          end
      end
  end.

(** The cached ring is the [m]-th one loaded, for some [m] not before [n]. *)
Definition cached_since (n : nat) (e : engine) : Prop :=
  (n ≤ e_loads e)%nat ∧
  ∀ c, e_cache e = Some c →
    ∃ m, (n ≤ m < e_loads e)%nat ∧
         _load_idempotency_hmac_keyring m = Ok (ck_keyring c, ck_active_key_id c).
Definition loads_succeed : Prop := ∀ n, ∃ ring active, _load_idempotency_hmac_keyring n = Ok (ring, active).

Lemma keyring_spec now force n e :
  loads_succeed → cached_since n e →
  ∃ m ring active e', (n ≤ m)%nat ∧ _load_idempotency_hmac_keyring m = Ok (ring, active) ∧
    _idempotency_hmac_keyring now force e = (Ok (ring, active), e') ∧ cached_since m e'.
Proof.
  intros Hl [Hn Hc]. unfold _idempotency_hmac_keyring, bind at 1, gets.
  assert (∃ m ring active e', (n ≤ m)%nat ∧ _load_idempotency_hmac_keyring m = Ok (ring, active) ∧
    refresh_keyring now e = (Ok (ring, active), e') ∧ cached_since m e') as Hrefresh.
  { destruct (Hl (e_loads e)) as (ring & active & E). exists (e_loads e), ring, active.
    unfold refresh_keyring, bind, gets, modify, lift, ret. cbn. rewrite E. eexists.
    split_and!; [done..|]. split; [cbn; lia|]. cbn. intros c [= <-]. exists (e_loads e). by split; [lia|]. }
  destruct (e_cache e) as [c|] eqn:Ec; [|done]. destruct (_ && _); [|done].
  destruct (Hc c eq_refl) as (m & Hm & E). exists m, (ck_keyring c), (ck_active_key_id c), e.
  split_and!; [lia|done..|]. split; [lia|]. intros c'. rewrite Ec. intros [= <-]. exists m. by split; [lia|].
Qed.
Lemma resolve_spec now sk force n e :
  loads_succeed → cached_since n e →
  ∃ m ring active e', (n ≤ m)%nat ∧ _load_idempotency_hmac_keyring m = Ok (ring, active) ∧
    _resolve_hmac_key now sk force e = (Ok (pick ring active sk), e') ∧ cached_since m e'.
Proof.
  intros Hl Hc. destruct (keyring_spec now force n e Hl Hc) as (m & ring & active & e' & Hm & El & Ek & Hc').
  exists m, ring, active, e'. split_and!; [done..| |done].
  unfold _resolve_hmac_key. rewrite (bind_ok _ _ _ _ _ Ek). unfold pick.
  destruct ring as [|x ring]; [done|]. destruct sk as [i|]; [|done].
  destruct (dget i _) as [key|]; [|done]. unfold or_none. by destruct (str_empty key).
Qed.

(** The key that signs is one of the ring, under a clean id. *)
Lemma pick_signing n ring active :
  _load_idempotency_hmac_keyring n = Ok (ring, active) →
  (pick ring active None = (None, None)) ∨
  ∃ i key, pick ring active None = (Some key, Some i) ∧ dget i ring = Some key ∧ clean i ∧ clean key.
Proof.
  intros Hl. pose proof (loaded_clean _ _ _ Hl) as Hcl. unfold pick.
  destruct ring as [|x ring]; [by left|]. right.
  assert (∃ i key, match first_key (x :: ring) with
                   | Some i => (dget i (x :: ring), Some i) | None => (None, None) end
                   = (Some key, Some i) ∧ dget i (x :: ring) = Some key) as (i & key & Ef & Eg).
  { unfold first_key. pose proof (ssort_perm str_leb (dkeys (x :: ring))) as Hp.
    destruct (ssort str_leb (dkeys (x :: ring))) as [|i l].
    { apply Permutation_nil_l in Hp. by destruct x. }
    cbn [head]. destruct (dget i (x :: ring)) as [key|] eqn:E; [by eauto|].
    apply dget_None_keys in E. exfalso. apply E. rewrite <- Hp. left. }
  assert (∀ j v, dget j (x :: ring) = Some v → clean j ∧ clean v) as Hc by apply Hcl.
  destruct active as [j|].
  - destruct (str_empty j) eqn:Ej; [rewrite Ef; by exists i, key; pose proof (Hc _ _ Eg); tauto|].
    destruct (dget j (x :: ring)) as [v|] eqn:Ev; [by exists j, v; pose proof (Hc _ _ Ev); tauto|].
    rewrite Ef. by exists i, key; pose proof (Hc _ _ Eg); tauto.
  - rewrite Ef. by exists i, key; pose proof (Hc _ _ Eg); tauto.
Qed.

Lemma signed_payload_dumps s b q h st hash ct hs c x :
  ∃ d, canonical_json_dumps (signed_payload s b q h st hash ct hs c x) = Ok d.
Proof.
  unfold canonical_json_dumps, signed_payload.
  assert (∀ l : list (string * string),
    (fix go (d : list (string * pyval)) : res (list (string * pyval)) :=
       match d with
       | [] => Ok []
       | (k, w) :: d' => let? w' := _normalize_value w in let? rest := go d' in Ok ((k, w') :: rest)
       end) (map (λ kv, (kv.1, PStr kv.2)) l) = Ok (map (λ kv, (kv.1, PStr kv.2)) l)) as Hs.
  { induction l as [|[k v] l IH]; cbn; [done|]. by rewrite IH. }
  cbn -[ssort map]. rewrite Hs. destruct st; cbn -[ssort map dump_sorted]; eauto.
Qed.
Lemma storage_payload_ok v : ∃ p d, _response_payload_for_storage v = Ok (p, d).
Proof.
  unfold _response_payload_for_storage.
  destruct (canonical_json_dumps (_coerce_storage_payload v)) as [d|]; cbn -[dump_sorted Z.ltb];
    destruct (_ <? _); eauto.
Qed.

(** The cache only moves to later loads. *)
Lemma refresh_keeps_cache n now : keeps (cached_since n) (refresh_keyring now).
Proof.
  intros e [Hn Hc]. unfold refresh_keyring, bind, gets, modify, lift, ret.
  destruct (_load_idempotency_hmac_keyring (e_loads e)) as [[ring active]|] eqn:E; cbn; split; cbn;
    try lia.
  - intros c [= <-]. exists (e_loads e). by split; [lia|].
  - intros c Hcc. destruct (Hc c Hcc) as (m & Hm & Em). exists m. by split; [lia|].
Qed.
Lemma resolve_keeps_cache n now sk force : keeps (cached_since n) (_resolve_hmac_key now sk force).
Proof.
  apply keeps_bind.
  - apply keeps_bind; [apply keeps_gets|]. intros [c|]; [destruct (_ && _); [apply keeps_ret|]|];
      apply refresh_keeps_cache.
  - intros [[|x ring] active]; [apply keeps_ret|]. destruct sk as [i|]; [|apply keeps_ret].
    destruct (dget i (x :: ring)) as [k|]; [destruct (str_empty k)|]; apply keeps_ret.
Qed.
Lemma replay_keeps_cache n now r raw :
  keeps (cached_since n) (_completed_replay_or_integrity_error now r raw).
Proof.
  unfold _completed_replay_or_integrity_error. destruct (_ && _); [apply keeps_ret|].
  apply keeps_bind; [apply resolve_keeps_cache|]. intros [key k].
  apply keeps_bind; [|intros key'].
  - destruct (if str_empty _ then _ else _); [destruct key; [apply keeps_ret|]|apply keeps_ret].
    apply keeps_bind; [apply resolve_keeps_cache|]. intros []. apply keeps_ret.
  - apply keeps_bind; [apply keeps_lift|]. intros [x|];
      [destruct (_ && _)|destruct (negb _)]; apply keeps_ret.
Qed.
Lemma check_keeps_cache n now rid rq : keeps (cached_since n) (check_idempotency now rid rq).
Proof.
  intros e He. destruct (keyed_request rq) as [k|] eqn:Ek;
    [|by rewrite (proj1 (check_unkeyed now rid rq e Ek))].
  rewrite (check_keyed k) by done. unfold decided. destruct (find_row _ e) as [r|]; [|done].
  destruct (negb _); [done|]. case_decide; [|by destruct (lease_runs now r)].
  unfold refuse. apply keeps_bind; [apply replay_keeps_cache|intros; apply keeps_ret|done].
Qed.
Lemma update_keeps_cache n sel f : keeps (cached_since n) (update_rows sel f).
Proof. by intros e He. Qed.
Lemma store_keeps_cache n now cx resp : keeps (cached_since n) (store_idempotency now cx resp).
Proof.
  destruct cx as [cx|]; [|apply keeps_ret]. unfold store_idempotency.
  destruct (_ || _); [by intros e He|].
  apply keeps_bind; [apply keeps_lift|]. intros [pl dp].
  destruct (cx_created_at cx), (cx_expires_at cx); try apply keeps_raise.
  destruct (_ <=? _); [apply keeps_raise|].
  apply keeps_bind; [apply resolve_keeps_cache|]. intros [key kid].
  apply keeps_bind; [apply keeps_lift|]. intros mac.
  apply keeps_bind; [apply update_keeps_cache|]. intros []. apply keeps_ret.
Qed.
Lemma perform_keeps_cache n c e : cached_since n e → cached_since n (perform e c).
Proof.
  intros He. destruct c as [now rid rq|now cx resp|now limit]; cbn [perform].
  - by apply check_keeps_cache.
  - by apply store_keeps_cache.
  - by rewrite purge_result.
Qed.
Lemma perform_all_keeps_cache n cs e : cached_since n e → cached_since n (perform_all cs e).
Proof.
  apply (perform_all_inv _ (λ _, True)); [|by apply Forall_true].
  intros e' c _. apply perform_keeps_cache.
Qed.

(** Rotation adds keys and keeps the value of the old ones. *)
Definition keys_survive : Prop :=
  ∀ n m ring active ring' active' i key,
    (n ≤ m)%nat → _load_idempotency_hmac_keyring n = Ok (ring, active) →
    _load_idempotency_hmac_keyring m = Ok (ring', active') →
    dget i ring = Some key → dget i ring' = Some key.

Definition well_signed (n : nat) (r : row) : Prop :=
  r_record_hmac r = None ∧ r_signature_key_id r = None ∧ r_payload_version r = None ∨
  ∃ ring active i key d,
    _load_idempotency_hmac_keyring n = Ok (ring, active) ∧ dget i ring = Some key ∧ clean i ∧ clean key ∧
    canonical_json_dumps (row_payload r) = Ok d ∧ r_record_hmac r = Some (hmac_sha256 key d) ∧
    r_signature_key_id r = Some i ∧ r_payload_version r = Some IDEMPOTENCY_HMAC_PAYLOAD_VERSION.

Lemma compute_ok r key : ∃ x, _compute_record_hmac (row_payload r) key = Ok x.
Proof.
  destruct key as [k|]; cbn; [|by eauto]. destruct (str_empty k); [by eauto|].
  unfold row_payload.
  edestruct signed_payload_dumps as [d E]. rewrite E. cbn. eauto.
Qed.

Lemma replay_well_signed n now r raw e :
  loads_succeed → keys_survive → cached_since n e → well_signed n r →
  ∃ e', _completed_replay_or_integrity_error now r raw e = (Ok (_build_replay_response r raw), e').
Proof.
  intros Hl Hs Hc Hw. unfold _completed_replay_or_integrity_error.
  destruct Hw as [(Em & Ek & Ev)|(ring0 & active0 & i & key & d & El0 & Ei & Hi & Hk & Ed & Em & Ek & Ev)];
    rewrite Em, Ek, Ev; cbn [opt_text default from_option id].
  - cbn. destruct (resolve_spec now None false n e Hl Hc) as (m & ring & active & e' & _ & _ & Er & _).
    rewrite (bind_ok _ _ _ _ _ Er). destruct (pick ring active None) as [key kid].
    rewrite bind_ret. unfold bind, lift. destruct (compute_ok r key) as [[x|] ->]; [|by exists e'].
    cbn. rewrite andb_false_r. by exists e'.
  - rewrite (bool_decide_eq_true_2 (IDEMPOTENCY_HMAC_PAYLOAD_VERSION = _)) by done.
    rewrite andb_false_r. rewrite (proj2 Hi), (clean_not_empty i) by done.
    destruct (resolve_spec now (Some i) false n e Hl Hc) as (m & ring & active & e' & Hm & El & Er & _).
    rewrite (bind_ok _ _ _ _ _ Er).
    pose proof (Hs _ _ _ _ _ _ _ _ Hm El0 El Ei) as Ei'.
    assert (pick ring active (Some i) = (Some key, Some i)) as ->.
    { unfold pick. destruct ring; [done|]. rewrite Ei'. unfold or_none. by rewrite clean_not_empty. }
    rewrite bind_ret. unfold bind, lift. cbn [_compute_record_hmac]. rewrite clean_not_empty by done.
    rewrite Ed. cbn [res_bind]. rewrite (bool_decide_eq_true_2 (hmac_sha256 key d = _)) by done.
    rewrite andb_false_r. by exists e'.
Qed.

(** ** A stored response *)

Definition policy_mode (cx : IdempotencyContext) : ReplayMode :=
  match cx_policy cx with Some p => replay_mode p | None => NONE end.
Definition policy_name (cx : IdempotencyContext) : string :=
  match cx_policy cx with Some p => policy_id p | None => EmptyString end.
(** What of the response data is kept. *)
Definition kept_payload (cx : IdempotencyContext) (resp : reply) : res (pyval * string) :=
  _response_payload_for_storage (sanitize_replay_payload (rp_data resp) (policy_name cx) (policy_mode cx)).
Definition auth_status (st : Z) : bool := (st =? 401) || (st =? 403).

(** The row of the context after the store. *)
Definition stored_as (st : record_state) (resp : reply) (payload : pyval) (r r' : row) : Prop :=
  ∃ ctype hash mac kid,
    r' = completed_row st (rp_status resp) ctype (_extract_replay_headers resp) payload hash mac kid r.

Lemma store_spec now cx now0 resp e r payload dumped :
  loads_succeed → table_ok e → cached_since 0 e → r ∈ e_rows e → granted_row cx now0 r →
  0 < cx_record_id cx → auth_status (rp_status resp) = false →
  kept_payload cx resp = Ok (payload, dumped) →
  ∃ n answer e' r',
    store_idempotency now (Some cx) resp e = (Ok answer, e') ∧ table_ok e' ∧ cached_since n e' ∧
    r' ∈ e_rows e' ∧ well_signed n r' ∧
    stored_as (if 500 <=? rp_status resp then FailedTransient else Completed) resp payload r r'.
Proof.
  intros Hl Hok Hc Hr (Hi & Hs & Hst & Hlu & Hcr & Hex & Hb & Hq & Hh) Hpos Ha Hp.
  assert (table_ok (store_idempotency now (Some cx) resp e).2) as Hok' by by apply store_table_ok.
  destruct (resolve_spec now None false 0 e Hl Hc) as (m & ring & active & e1 & _ & El & Er & Hc1).
  pose proof (resolve_reads now None false e) as Hsame. rewrite Er in Hsame. destruct Hsame as [Hrows _].
  destruct (pick ring active None) as [key kid] eqn:Epick.
  set (ctype := str_or (default EmptyString (dget "Content-Type" (rp_headers resp))) "application/json").
  destruct (signed_payload_dumps (cx_scope cx) (cx_body_hash cx) (cx_query_hash cx) (cx_semantic_hash cx)
    (Some (rp_status resp)) (sha256_hex dumped) ctype (_extract_replay_headers resp) (r_created_at r)
    (r_expires_at r)) as [d Ed].
  set (st := if 500 <=? rp_status resp then FailedTransient else Completed).
  set (mac := match key with Some k => if str_empty k then None else Some (hmac_sha256 k d) | None => None end).
  set (stored := completed_row st (rp_status resp) ctype (_extract_replay_headers resp) payload
    (sha256_hex dumped) mac kid).
  assert (∃ answer, store_idempotency now (Some cx) resp e =
    (Ok answer, set_rows (map (λ x, if (r_id x =? cx_record_id cx) && scope_is (cx_scope cx) x
                                    then stored x else x) (e_rows e1)) e1)) as [answer Est].
  { unfold store_idempotency. unfold auth_status in Ha. rewrite Ha.
    fold (policy_mode cx). fold (policy_name cx). fold (kept_payload cx resp).
    unfold bind at 1, lift at 1. rewrite Hp, Hcr, Hex, (proj2 (Z.leb_gt _ _) Hpos).
    rewrite (bind_ok _ _ _ _ _ Er). fold ctype.
    unfold bind, lift.
    assert (_compute_record_hmac (signed_payload (cx_scope cx) (cx_body_hash cx) (cx_query_hash cx)
      (cx_semantic_hash cx) (Some (rp_status resp)) (sha256_hex dumped) ctype (_extract_replay_headers resp)
      (r_created_at r) (r_expires_at r)) key = Ok mac) as ->; [|by eexists].
    subst mac. destruct key as [k|]; [|done]. cbn [_compute_record_hmac].
    destruct (str_empty k); [done|]. by rewrite Ed. }
  rewrite Est in Hok'. eexists m, _, _, (stored r).
  split_and!; [exact Est|done|done| | |by exists ctype, (sha256_hex dumped), mac, kid].
  - cbn in Hrows. apply elem_of_map. exists r. split; [|by rewrite Hrows].
    rewrite Hi, Z.eqb_refl. unfold scope_is. by rewrite bool_decide_eq_true_2.
  - destruct (pick_signing m ring active El) as [E|(i & k & E & Eg & Hci & Hck)];
      rewrite Epick in E; injection E as -> ->; subst stored mac.
    + left. done.
    + right. rewrite (clean_not_empty k) by done. exists ring, active, i, k, d.
      unfold row_payload, completed_row. cbn [r_scope r_body_hash r_query_hash r_semantic_hash r_status_code
        r_response_hash r_content_type r_response_headers r_created_at r_expires_at r_record_hmac
        r_signature_key_id r_payload_version]. rewrite Hb, Hq, Hh, Hs. by split_and!.
Qed.

(** A call between the store and a replay: it may check anything at any time, stores nothing for
    [s], and purges no later than the record expires. *)
Definition reader (s : IdempotencyScope) (expires : option Z) (c : call) : Prop :=
  match c with
  | Check _ _ _ => True
  | Store _ (Some cx) _ => cx_scope cx ≠ s
  | Store _ None _ => True
  | Purge now _ => match expires with Some x => now <= x | None => False end
  end.

Lemma replay_response_spec r raw :
  rp_status (_build_replay_response r raw) = default 200 (r_status_code r) ∧
  rp_data (_build_replay_response r raw) = r_response_body r ∧
  dget "Idempotency-Status" (rp_headers (_build_replay_response r raw)) = Some "replayed".
Proof. split_and!; [done..|]. apply dget_dset_eq. Qed.

(** C4. A completed response is replayed.  After a granted request stores a response below 500
    that is not 401 or 403, every later check with the same scope and the same fingerprints
    answers with that status and the sanitised payload, marked as replayed, and executes
    nothing: whatever checks came while it ran, whatever calls for other keys come later, until
    the record expires, and through any rotation of the signing keys that keeps the old ones. *)
Theorem response_is_replayed now rid rq e cx p e1 cs1 now1 resp payload dumped cs2 now2 rid2 rq2 k2 :
  loads_succeed → keys_survive → table_ok e → cached_since 0 e →
  check_idempotency now rid rq e = (Ok (Some cx, p), e1) →
  Forall (bystander (cx_scope cx) (now + IDEMPOTENCY_IN_PROGRESS_WAIT_SECONDS)) cs1 →
  rp_status resp < 500 → auth_status (rp_status resp) = false →
  kept_payload cx resp = Ok (payload, dumped) →
  Forall (reader (cx_scope cx) (cx_expires_at cx)) cs2 →
  keyed_request rq2 = Some k2 → kd_scope k2 = cx_scope cx →
  kd_body k2 = cx_body_hash cx → kd_query k2 = cx_query_hash cx → kd_semantic k2 = cx_semantic_hash cx →
  ∃ answer e2 replay e3,
    store_idempotency now1 (Some cx) resp (perform_all cs1 e1) = (Ok answer, e2) ∧
    check_idempotency now2 rid2 rq2 (perform_all cs2 e2) = (Ok (None, Some replay), e3) ∧
    same_table (perform_all cs2 e2) e3 ∧
    rp_status replay = rp_status resp ∧ rp_data replay = payload ∧
    dget "Idempotency-Status" (rp_headers replay) = Some "replayed".
Proof.
  intros Hl Hks Hok Hc0 Hck Hcs1 Hst Ha Hp Hcs2 Hk2 Hs2 Hb2 Hq2 Hh2.
  destruct (grant_spec _ _ _ _ _ _ _ Hok Hck) as (_ & Hok1 & Hpos & (r & Hr & Hg) & _).
  assert (cached_since 0 (perform_all cs1 e1)) as Hc1.
  { apply perform_all_keeps_cache. replace e1 with (check_idempotency now rid rq e).2 by by rewrite Hck.
    by apply check_keeps_cache. }
  destruct (granted_row_stays _ _ _ _ _ Hok1 Hr Hg Hcs1) as [Hok1' Hr1].
  destruct (store_spec now1 cx now resp _ r payload dumped Hl Hok1' Hc1 Hr1 Hg Hpos Ha Hp)
    as (n & answer & e2 & r' & Est & Hok2 & Hc2 & Hr2 & Hw & (ctype & hash & mac & kid & Er')).
  rewrite (proj2 (Z.leb_gt _ _) Hst) in Er'.
  destruct Hg as (Hi & Hs & _ & _ & _ & Hex & Hb & Hq & Hh).
  assert (r_scope r' = cx_scope cx ∧ r_expires_at r' = r_expires_at r ∧ r_state r' = Completed ∧
          same_request k2 r' = true) as (Hs' & Hex' & Hst' & Hsame).
  { subst r'. split_and!; [done..|]. apply same_request_iff. cbn. split_and!; congruence. }
  destruct (perform_all_keeps_row cs2 e2 r') as [Hok3 Hr3]; [|done..|].
  { eapply Forall_impl; [exact Hcs2|]. intros c. destruct c as [n' ?|n' [cx'|] ?|n' ?]; cbn.
    - by left.
    - by rewrite Hs'.
    - done.
    - rewrite Hex. intros Hle. unfold expired. rewrite Hex'. by rewrite (proj2 (Z.ltb_ge _ _) Hle). }
  destruct (replay_well_signed n now2 r' (raw_of k2) (perform_all cs2 e2) Hl Hks) as [e3 Ere]; [|done|].
  { by apply perform_all_keeps_cache. }
  exists answer, e2, (_build_replay_response r' (raw_of k2)), e3.
  assert (check_idempotency now2 rid2 rq2 (perform_all cs2 e2) =
          (Ok (None, Some (_build_replay_response r' (raw_of k2))), e3)) as Eck.
  { rewrite (check_keyed k2) by done. unfold decided.
    rewrite (find_row_unique _ _ r') by (done || congruence). rewrite Hsame, decide_True by done. cbn.
    unfold refuse, bind. by rewrite Ere. }
  destruct (replay_response_spec r' (raw_of k2)) as (-> & -> & ->). subst r'.
  split_and!; try done.
  pose proof (replay_reads now2 (completed_row Completed (rp_status resp) ctype (_extract_replay_headers resp)
    payload hash mac kid r) (raw_of k2) (perform_all cs2 e2)) as Hsm. by rewrite Ere in Hsm.
Qed.

Lemma deleted_scope_free s e :
  find_row s (set_rows (List.filter (λ r, negb (scope_is s r)) (e_rows e)) e) = None.
Proof.
  destruct (find_row s _) as [r|] eqn:E; [|done]. apply find_row_Some in E as [Hr Hs].
  cbn in Hr. apply elem_of_filter_b in Hr as [Hn _]. unfold scope_is in Hn.
  by rewrite bool_decide_eq_true_2 in Hn.
Qed.

(** A request that failed can be made again under its key.  After a response of 500 or more
    is stored, the next check with the same fingerprints is granted at once, on the same record;
    after a 401 or 403, which stores nothing, the next check under the key is granted on a new
    record, whatever its fingerprints. *)
Theorem failures_can_be_retried now rid rq e cx p e1 cs1 now1 resp now2 rid2 rq2 k2 :
  loads_succeed → table_ok e → cached_since 0 e →
  check_idempotency now rid rq e = (Ok (Some cx, p), e1) →
  Forall (bystander (cx_scope cx) (now + IDEMPOTENCY_IN_PROGRESS_WAIT_SECONDS)) cs1 →
  keyed_request rq2 = Some k2 → kd_scope k2 = cx_scope cx →
  (auth_status (rp_status resp) = true ∨
   500 <= rp_status resp ∧ kd_body k2 = cx_body_hash cx ∧ kd_query k2 = cx_query_hash cx ∧
   kd_semantic k2 = cx_semantic_hash cx) →
  ∃ answer e2 cx2 e3,
    store_idempotency now1 (Some cx) resp (perform_all cs1 e1) = (Ok answer, e2) ∧
    check_idempotency now2 rid2 rq2 e2 = (Ok (Some cx2, None), e3) ∧
    cx_record_id cx2 = (if auth_status (rp_status resp) then e_next_id e2 else cx_record_id cx).
Proof.
  intros Hl Hok Hc0 Hck Hcs1 Hk2 Hs2 Hcase.
  destruct (grant_spec _ _ _ _ _ _ _ Hok Hck) as (_ & Hok1 & Hpos & (r & Hr & Hg) & _).
  assert (cached_since 0 (perform_all cs1 e1)) as Hc1.
  { apply perform_all_keeps_cache. replace e1 with (check_idempotency now rid rq e).2 by by rewrite Hck.
    by apply check_keeps_cache. }
  destruct (granted_row_stays _ _ _ _ _ Hok1 Hr Hg Hcs1) as [Hok1' Hr1].
  destruct (auth_status (rp_status resp)) eqn:Ea.
  - eexists _, _, _, _. split; [unfold store_idempotency; unfold auth_status in Ea; rewrite Ea; reflexivity|].
    rewrite (check_keyed k2) by done. unfold decided. rewrite Hs2, deleted_scope_free. done.
  - destruct Hcase as [?|(Hst & Hb2 & Hq2 & Hh2)]; [done|].
    destruct (storage_payload_ok (sanitize_replay_payload (rp_data resp) (policy_name cx) (policy_mode cx)))
      as (payload & dumped & Hp).
    destruct (store_spec now1 cx now resp _ r payload dumped Hl Hok1' Hc1 Hr1 Hg Hpos Ea Hp)
      as (n & answer & e2 & r' & Est & Hok2 & Hc2 & Hr2 & Hw & (ctype & hash & mac & kid & Er')).
    rewrite (proj2 (Z.leb_le _ _) Hst) in Er'. destruct Hg as (Hi & Hs & _ & _ & _ & Hex & Hb & Hq & Hh).
    assert (same_request k2 r' = true ∧ r_scope r' = kd_scope k2) as [Hsame Hs'].
    { subst r'. split; [|cbn; congruence]. apply same_request_iff. cbn. split_and!; congruence. }
    eexists _, _, _, _. split; [exact Est|]. rewrite (check_keyed k2) by done. unfold decided.
    rewrite (find_row_unique _ _ r') by done. rewrite Hsame. subst r'. by cbn.
Qed.

(** The purge removes only records that have expired and are not in progress, the oldest
    first, at most [limit] of them, and answers with their number; a purge below its limit leaves
    no such record. *)
Theorem purge_removes_expired now limit e :
  table_ok e →
  ∃ gone e',
    purge_expired_idempotency_records now limit e = (Ok (Z.of_nat (length gone)), e') ∧
    (length gone ≤ limit)%nat ∧ NoDup gone ∧
    (∀ r, r ∈ e_rows e' ↔ r ∈ e_rows e ∧ r ∉ gone) ∧
    (∀ r, r ∈ gone → r ∈ e_rows e ∧ r_expires_at r < now ∧ r_state r ≠ InProgress) ∧
    (∀ r g, r ∈ e_rows e' → expired now r = true → g ∈ gone → r_expires_at g <= r_expires_at r) ∧
    ((length gone < limit)%nat → ∀ r, r ∈ e_rows e' → expired now r = false).
Proof.
  intros Hok. exists (doomed now limit e), (purge_expired_idempotency_records now limit e).2.
  set (all := ssort expiry_leb (List.filter (expired now) (e_rows e))).
  assert (∀ r, r ∈ e_rows e → expired now r = true → r ∉ doomed now limit e → r ∈ drop limit all) as Hrest.
  { intros r Hr Hx Hnd. assert (r ∈ all) as Ha by (unfold all; rewrite ssort_perm; by apply elem_of_filter_b).
    rewrite <- (take_drop limit all) in Ha. by apply elem_of_app in Ha as [?|?]. }
  split_and!.
  - by rewrite purge_result.
  - unfold doomed. rewrite length_take. lia.
  - unfold doomed. fold all. assert (NoDup all) as Hnd.
    { unfold all. rewrite ssort_perm. destruct Hok as (_ & Hid & _).
      apply (NoDup_of_map r_id), NoDup_map_filter, Hid. }
    rewrite <- (take_drop limit all) in Hnd. by apply NoDup_app in Hnd as (? & _ & _).
  - intros r. by apply purge_elem.
  - intros r [Hx Hr]%doomed_expired. unfold expired in Hx.
    apply andb_true_iff in Hx as [Hx%Z.ltb_lt Hs%negb_true_iff%bool_decide_eq_false]. done.
  - intros r g Hr Hx Hg. apply purge_elem in Hr as [Hr Hnd]; [|done].
    assert (StronglySorted (λ a b, expiry_leb a b = true) all) as Hsorted.
    { apply ssort_sorted; unfold expiry_leb; intros; rewrite ?Z.leb_le, ?Z.leb_gt in *; lia. }
    rewrite <- (take_drop limit all) in Hsorted.
    apply Z.leb_le. exact (StronglySorted_app_1_elem_of _ _ _ g r Hsorted Hg (Hrest r Hr Hx Hnd)).
  - intros Hlt r Hr. apply purge_elem in Hr as [Hr Hnd]; [|done].
    destruct (expired now r) eqn:Hx; [|done]. specialize (Hrest r Hr Hx Hnd).
    unfold doomed in Hlt. fold all in Hlt. rewrite length_take in Hlt.
    rewrite drop_ge in Hrest by lia. by apply elem_of_nil in Hrest.
Qed.

(** The key of a signature, in the cached ring or else in a fresh one. *)
Lemma unknown_key_is_unverifiable n now r raw e i x :
  loads_succeed → cached_since n e →
  r_signature_key_id r = Some i → clean i → r_record_hmac r = Some x → x ≠ EmptyString →
  opt_text (r_payload_version r) = IDEMPOTENCY_HMAC_PAYLOAD_VERSION →
  (∀ m ring active, _load_idempotency_hmac_keyring m = Ok (ring, active) → dget i ring = None) →
  ∃ e', _completed_replay_or_integrity_error now r raw e
        = (Ok (_tampered_response "IDEMPOTENCY_RECORD_UNVERIFIABLE"), e').
Proof.
  intros Hl Hc Ek Hi Em Hx Ev Hno. unfold _completed_replay_or_integrity_error. rewrite Ev.
  cbn [negb]. rewrite bool_decide_eq_true_2, andb_false_r by done. rewrite Ek, Em.
  cbn [opt_text default from_option id]. rewrite (proj2 Hi), (clean_not_empty i) by done.
  assert (∀ m ring active, _load_idempotency_hmac_keyring m = Ok (ring, active) →
            ∃ j, pick ring active (Some i) = (None, j)) as Hpick.
  { intros m ring active E. unfold pick. destruct ring; [by eauto|]. rewrite (Hno _ _ _ E). by eauto. }
  destruct (resolve_spec now (Some i) false n e Hl Hc) as (m & ring & active & e1 & Hm & El & Er & Hc1).
  rewrite (bind_ok _ _ _ _ _ Er). destruct (Hpick _ _ _ El) as [j ->].
  destruct (resolve_spec now (Some i) true m e1 Hl Hc1) as (m2 & ring2 & active2 & e2 & Hm2 & El2 & Er2 & Hc2).
  unfold bind. rewrite Er2. destruct (Hpick _ _ _ El2) as [j2 ->]. cbn. destruct x; [done|]. by exists e2.
Qed.

(** A stored record is replayed only while its signature matches its fields.  For a completed
    record signed with a key of the ring, a check with its fingerprints replays it when the HMAC
    of its fields (scope, fingerprints, status, body hash, headers, dates) is the stored one, and
    answers 409 IDEMPOTENCY_RECORD_TAMPERED when any of these fields changed it. *)
Theorem signature_decides_replay n now rid rq k e r i key x d :
  loads_succeed → table_ok e → cached_since n e → keyed_request rq = Some k →
  r ∈ e_rows e → r_scope r = kd_scope k → same_request k r = true → r_state r = Completed →
  r_signature_key_id r = Some i → clean i → r_record_hmac r = Some x → x ≠ EmptyString →
  r_payload_version r = Some IDEMPOTENCY_HMAC_PAYLOAD_VERSION →
  (∀ m ring active, (n ≤ m)%nat → _load_idempotency_hmac_keyring m = Ok (ring, active) →
     dget i ring = Some key) →
  canonical_json_dumps (row_payload r) = Ok d → hmac_sha256 key d ≠ EmptyString →
  ∃ e', same_table e e' ∧
    check_idempotency now rid rq e =
    (Ok (None, Some (if bool_decide (hmac_sha256 key d = x) then _build_replay_response r (raw_of k)
                     else _tampered_response "IDEMPOTENCY_RECORD_TAMPERED")), e').
Proof.
  intros Hl Hok Hc Hk Hr Hs Hsame Hst Ek Hi Em Hx Ev Hkey Hd Hne.
  rewrite (check_keyed k) by done. unfold decided. rewrite (find_row_unique _ _ r) by done.
  rewrite Hsame, decide_True by done. cbn [negb]. unfold refuse.
  pose proof (replay_reads now r (raw_of k) e) as Hsm. revert Hsm. unfold bind at 1.
  unfold _completed_replay_or_integrity_error. rewrite Ev, Ek, Em. cbn [opt_text default from_option id].
  rewrite (bool_decide_eq_true_2 (IDEMPOTENCY_HMAC_PAYLOAD_VERSION = _)), andb_false_r by done.
  rewrite (proj2 Hi), (clean_not_empty i) by done.
  destruct (resolve_spec now (Some i) false n e Hl Hc) as (m & ring & active & e' & Hm & El & Er & _).
  rewrite !(bind_ok _ _ _ _ _ Er). pose proof (Hkey _ _ _ Hm El) as Ei.
  assert (clean key) as Hck by apply (loaded_clean _ _ _ El _ _ Ei).
  assert (pick ring active (Some i) = (Some key, Some i)) as ->.
  { unfold pick. destruct ring; [done|]. rewrite Ei. unfold or_none. by rewrite clean_not_empty. }
  rewrite !bind_ret. unfold bind, lift. cbn [_compute_record_hmac]. rewrite clean_not_empty by done.
  rewrite Hd. cbn [res_bind].
  assert (str_empty (hmac_sha256 key d) = false) as -> by by destruct (hmac_sha256 key d).
  assert (str_empty x = false) as -> by by destruct x.
  case_bool_decide; cbn; intros Hsm; by exists e'.
Qed.
End Engine.

(** A record in progress outlives every purge: when its process dies, the row stays for ever. *)
Lemma abandoned_record_is_never_purged now limit e r :
  table_ok e → r ∈ e_rows e → r_state r = InProgress →
  r ∈ e_rows (purge_expired_idempotency_records now limit e).2.
Proof.
  intros Hok Hr Hst. apply purge_elem; [done|]. split; [done|].
  intros [Hx _]%doomed_expired. unfold expired in Hx. rewrite Hst in Hx. cbn in Hx.
  by rewrite andb_false_r in Hx.
Qed.

(** ** A concrete server *)

Definition demo_server : Server := {|
  sha256_hex := λ s, "h:" +:+ s;
  hmac_sha256 := λ k m, k +:+ ":" +:+ m;
  json_loads := λ _, None;
  route_policy := λ _, Some (mkPolicy "route.visits" IDEMPOTENCY_KEY_WRITE CHEAP FULL_SAFE 0
                         (mkBudget 250 262144 1000) None false);
  isoformat := pretty;
  fetch_secret_data := λ _, Ok (PDict [("IMMOAPP_IDEMPOTENCY_HMAC_KEY", PStr "secret")]);
  load_secrets := λ _, Err (RuntimeError "unused");
  os_environ := λ _, [];
  keyring_ttl := 60;
  enforce_write_key := true;
  record_ttl := IDEMPOTENCY_TTL_SECONDS_DEFAULT
|}.

Section Demo.
#[local] Existing Instance demo_server.

Definition demo_rq : api_request :=
  mkApiRequest "post" "visits" (PInt 7) [("Idempotency-Key", "k1")] [] (PDict [("a", PInt 1)]).
Definition other_rq : api_request :=
  mkApiRequest "post" "visits" (PInt 7) [("Idempotency-Key", "k2")] [] (PDict [("a", PInt 1)]).
Definition demo_keyed : keyed :=
  default (mkKeyed (mkIdScope 0 EmptyString EmptyString EmptyString) EmptyString EmptyString EmptyString
             EmptyString) (keyed_request demo_rq).
Definition demo_cx : IdempotencyContext :=
  with_row (context_of demo_keyed "r1" demo_rq) (new_row demo_keyed 0 (owner_of "r1" demo_rq) 1).
Definition demo_granted : engine := (check_idempotency 0 "r1" demo_rq empty_table).2.
Definition demo_resp (st : Z) : reply := mkReply st (PDict [("id", PInt 5)]) [("ETag", "e")].
Definition demo_calls : list call := [Check 1 "r2" other_rq; Purge 2 10].

Lemma empty_ok : table_ok empty_table.
Proof. split_and!; [constructor..|done]. Qed.
Lemma empty_cached : cached_since 0 empty_table.
Proof. by split. Qed.
Lemma demo_loads n : _load_idempotency_hmac_keyring n = Ok ([("default", "secret")], Some "default").
Proof. by vm_compute. Qed.
Lemma demo_loads_succeed : loads_succeed.
Proof. intros n. eexists _, _. apply demo_loads. Qed.
Lemma demo_keys_survive : keys_survive.
Proof. intros n m ring a ring' a' i key _. rewrite !demo_loads. by intros [= <- <-] [= <- <-]. Qed.
Lemma demo_grant : check_idempotency 0 "r1" demo_rq empty_table = (Ok (Some demo_cx, None), demo_granted).
Proof. vm_compute. reflexivity. Qed.
Lemma demo_bystanders : Forall (bystander (cx_scope demo_cx) 3) demo_calls.
Proof. repeat constructor. Qed.
Lemma demo_readers : Forall (reader (cx_scope demo_cx) (cx_expires_at demo_cx)) demo_calls.
Proof. repeat constructor; by vm_compute. Qed.

Lemma one_executor_per_key_witness :
  check_idempotency 2 "r3" demo_rq (perform_all demo_calls demo_granted) =
  (Ok (None, Some (_in_progress_response "k1")), perform_all demo_calls demo_granted).
Proof.
  refine (eq_trans (one_executor_per_key 0 "r1" demo_rq empty_table demo_cx None demo_granted demo_calls
    2 "r3" demo_rq demo_keyed empty_ok demo_grant demo_bystanders _ _ _) _); vm_compute; reflexivity.
Defined.

Lemma response_is_replayed_witness :
  ∃ answer e2 replay e3,
    store_idempotency 1 (Some demo_cx) (demo_resp 201) (perform_all demo_calls demo_granted) = (Ok answer, e2) ∧
    check_idempotency 9 "r4" demo_rq (perform_all demo_calls e2) = (Ok (None, Some replay), e3) ∧
    same_table (perform_all demo_calls e2) e3 ∧
    rp_status replay = 201 ∧ rp_data replay = PDict [("id", PInt 5)] ∧
    dget "Idempotency-Status" (rp_headers replay) = Some "replayed".
Proof.
  refine (response_is_replayed 0 "r1" demo_rq empty_table demo_cx None demo_granted demo_calls 1
    (demo_resp 201) _ _ demo_calls 9 "r4" demo_rq demo_keyed demo_loads_succeed demo_keys_survive
    empty_ok empty_cached demo_grant demo_bystanders _ _ _ demo_readers _ _ _ _ _);
    vm_compute; reflexivity.
Defined.

Lemma failures_can_be_retried_witness :
  ∃ answer e2 cx2 e3,
    store_idempotency 1 (Some demo_cx) (demo_resp 503) (perform_all demo_calls demo_granted) = (Ok answer, e2) ∧
    check_idempotency 1 "r4" demo_rq e2 = (Ok (Some cx2, None), e3) ∧ cx_record_id cx2 = 1.
Proof.
  refine (failures_can_be_retried 0 "r1" demo_rq empty_table demo_cx None demo_granted demo_calls 1
    (demo_resp 503) 1 "r4" demo_rq demo_keyed demo_loads_succeed empty_ok empty_cached demo_grant
    demo_bystanders _ _ (or_intror (conj _ (conj _ (conj _ _))))); vm_compute; done.
Defined.

Definition demo_done : engine := (store_idempotency 1 (Some demo_cx) (demo_resp 201) demo_granted).2.

Lemma demo_done_ok : table_ok demo_done.
Proof. apply store_table_ok, check_table_ok, empty_ok. Qed.
Lemma purge_removes_expired_witness :
  ∃ gone e',
    purge_expired_idempotency_records 100000 10 demo_done = (Ok (Z.of_nat (length gone)), e') ∧
    (length gone ≤ 10)%nat ∧ NoDup gone ∧
    (∀ r, r ∈ e_rows e' ↔ r ∈ e_rows demo_done ∧ r ∉ gone) ∧
    (∀ r, r ∈ gone → r ∈ e_rows demo_done ∧ r_expires_at r < 100000 ∧ r_state r ≠ InProgress) ∧
    (∀ r g, r ∈ e_rows e' → expired 100000 r = true → g ∈ gone → r_expires_at g <= r_expires_at r) ∧
    ((length gone < 10)%nat → ∀ r, r ∈ e_rows e' → expired 100000 r = false).
Proof. exact (purge_removes_expired 100000 10 demo_done demo_done_ok). Defined.

Definition demo_row : row := default (new_row demo_keyed 0 EmptyString 0) (head (e_rows demo_done)).
Definition demo_dump : string :=
  match canonical_json_dumps (row_payload demo_row) with Ok d => d | Err _ => EmptyString end.
Definition forged (r : row) : row :=
  mkRow (r_id r) (r_scope r) (r_body_hash r) (r_query_hash r) (r_semantic_hash r) (r_state r)
    (r_attempt r) (r_lease_owner r) (r_lease_until r) (r_created_at r) (r_expires_at r) (Some 200)
    (r_content_type r) (r_response_headers r) (r_response_body r) (r_response_hash r)
    (r_record_hmac r) (r_signature_key_id r) (r_payload_version r).
Definition forged_dump : string :=
  match canonical_json_dumps (row_payload (forged demo_row)) with Ok d => d | Err _ => EmptyString end.
Definition forged_table : engine := set_rows [forged demo_row] demo_done.

Lemma forged_table_ok : table_ok forged_table.
Proof. split_and!; [apply NoDup_singleton..| |done]. repeat constructor. Qed.
Lemma forged_cached : cached_since 0 forged_table.
Proof. apply (store_keeps_cache 0), check_keeps_cache, empty_cached. Qed.

(** A record whose status was changed to 200 is refused. *)
Lemma signature_decides_replay_witness :
  ∃ e', same_table forged_table e' ∧
    check_idempotency 5 "r5" demo_rq forged_table =
    (Ok (None, Some (_tampered_response "IDEMPOTENCY_RECORD_TAMPERED")), e').
Proof.
  refine (signature_decides_replay 0 5 "r5" demo_rq demo_keyed forged_table (forged demo_row) "default"
    "secret" ("secret:" +:+ demo_dump) forged_dump demo_loads_succeed forged_table_ok forged_cached
    _ _ _ _ _ _ _ _ _ _ _ _ _).
  - vm_compute. reflexivity.
  - left.
  - vm_compute. reflexivity.
  - vm_compute. reflexivity.
  - vm_compute. reflexivity.
  - vm_compute. reflexivity.
  - by split.
  - vm_compute. reflexivity.
  - by vm_compute.
  - vm_compute. reflexivity.
  - intros m ring active _. rewrite demo_loads. by intros [= <- <-].
  - vm_compute. reflexivity.
  - by vm_compute.
Defined.

(** The signature covers the hash of the body, and the hash is not recomputed from the stored
    body: a record whose body was replaced is replayed with the new body. *)
Definition forged_body (r : row) : row :=
  mkRow (r_id r) (r_scope r) (r_body_hash r) (r_query_hash r) (r_semantic_hash r) (r_state r)
    (r_attempt r) (r_lease_owner r) (r_lease_until r) (r_created_at r) (r_expires_at r) (r_status_code r)
    (r_content_type r) (r_response_headers r) (PDict [("id", PInt 666)]) (r_response_hash r)
    (r_record_hmac r) (r_signature_key_id r) (r_payload_version r).
Example replaced_body_is_replayed :
  option_map rp_data
    match (check_idempotency 5 "r5" demo_rq (set_rows [forged_body demo_row] demo_done)).1 with
    | Ok (None, Some p) => Some p
    | _ => None
    end = Some (PDict [("id", PInt 666)]).
Proof. vm_compute. reflexivity. Qed.

(** The lease is not renewed while a request runs: three seconds later a second one executes. *)
Example expired_lease_grants_again :
  match (check_idempotency 3 "r6" demo_rq demo_granted).1 with
  | Ok (Some cx, None) => bool_decide (cx_record_id cx = cx_record_id demo_cx)
  | _ => false
  end = true.
Proof. vm_compute. reflexivity. Qed.
End Demo.
