(* ===== verification/RebuildState.v ===== *)
(** * Match rebuild state

    Models src/core/data/match_rebuild_state.py: the table [match_rebuild_state] of one agency
    (row-level security restricts every statement to it), whose key is (scope, scope_id).  Each
    function is one transaction; [now] is its CURRENT_TIMESTAMP, [wall] the reading of
    [datetime.now], both in seconds. *)

From S2P Require Import Prelude.
Local Open Scope Z_scope.

Record rrow := mkRRow {
  rr_pending : bool;
  rr_generation : Z;
  rr_updated_at : Z;
  rr_dispatch_after : Z;
  rr_claim_token : option string;
  rr_claim_expires : option Z;
  rr_last_requested : Z
}.
Abbreviation rtable := (gmap (string * Z) rrow).
Abbreviation RM := (M rtable).

(** The two environment variables. *)
Class RebuildConfig := {
  _PENDING_STALE_SEC : Z;
  _DISPATCH_CLAIM_TTL_SEC : Z
}.

(** ** SQL statements *)

(** [UPDATE ... SET f WHERE scope = s AND scope_id = ANY(ids)] *)
Definition update_ids (s : string) (ids : list Z) (f : rrow → rrow) : RM unit :=
  modify (map_imap (λ k r, Some (if decide (k.1 = s ∧ k.2 ∈ ids) then f r else r))).
(** [INSERT ... ON CONFLICT DO NOTHING] *)
Definition insert_missing (s : string) (i : Z) (r : rrow) (t : rtable) : rtable :=
  match t !! (s, i) with Some _ => t | None => <[(s, i) := r]> t end.
(** [SELECT scope_id, ... WHERE scope = s AND scope_id = ANY(ids)], by ascending id. *)
Definition select_ids (s : string) (ids : list Z) (t : rtable) : list (Z * rrow) :=
  omap (λ i, (λ r, (i, r)) <$> t !! (s, i)) ids.
(** The rows of a scope that satisfy [p]. *)
Definition select_where (s : string) (p : rrow → bool) (t : rtable) : list (Z * rrow) :=
  omap (λ kv : (string * Z) * rrow,
          if decide (kv.1.1 = s ∧ p kv.2 = true) then Some (kv.1.2, kv.2) else None) (map_to_list t).

Definition idle_row (now : Z) : rrow := mkRRow false 0 now now None None now.

(** [sorted({int(v) for v in ids if int(v) > 0})] *)
Definition sorted_set (ids : list Z) : list Z := ssort Z.leb (remove_dups ids).
Definition positive_ids (ids : list Z) : list Z := sorted_set (List.filter (λ i, 0 <? i) ids).

(** ** Staleness and claims *)

Section State.
Context `{RebuildConfig}.

(* src/core/data/match_rebuild_state.py :: _is_stale *)
Definition _is_stale (wall updated_at : Z) : bool :=
  if _PENDING_STALE_SEC <=? 0 then false else _PENDING_STALE_SEC <? wall - updated_at.
(* src/core/data/match_rebuild_state.py :: _claim_expired *)
Definition _claim_expired (wall : Z) (claim_expires_at : option Z) : bool :=
  match claim_expires_at with Some x => x <=? wall | None => true end.
(* src/core/data/match_rebuild_state.py :: _dispatch_after_expr *)
Definition _dispatch_after_expr (now seconds : Z) : Z := now + Z.max 0 seconds.

(** [claim IS NULL OR claim <= CURRENT_TIMESTAMP] *)
Definition claim_free (now : Z) (r : rrow) : bool :=
  match rr_claim_expires r with Some x => x <=? now | None => true end.

Definition debounced (now debounce : Z) (r : rrow) : rrow :=
  mkRRow true (rr_generation r + 1) now (_dispatch_after_expr now debounce)
    (if claim_free now r then None else rr_claim_token r)
    (if claim_free now r then None else rr_claim_expires r) now.
Definition suppressed (now : Z) (r : rrow) : rrow :=
  mkRRow (rr_pending r) (rr_generation r + 1) now (rr_dispatch_after r) (rr_claim_token r)
    (rr_claim_expires r) now.
Definition enqueued (now : Z) (r : rrow) : rrow :=
  mkRRow true (rr_generation r + 1) now now None None now.

(** Whether a request is coalesced into the rebuild in flight. *)
Definition coalesces (wall : Z) (r : rrow) : bool :=
  let pending := if rr_pending r && _is_stale wall (rr_updated_at r) then false else rr_pending r in
  pending && negb (_claim_expired wall (rr_claim_expires r)).

(* src/core/data/match_rebuild_state.py :: request_rebuild *)
Definition request_rebuild (now wall : Z) (scope : string) (scope_id debounce_seconds : Z) : RM bool :=
  do! modify (insert_missing scope scope_id (idle_row now)) in
  let! row := gets (λ t : rtable, t !! (scope, scope_id)) in
  match row with
  | None => ret true
  | Some r =>
      if bool_decide (scope = "demande") && (0 <? debounce_seconds) then
        do! update_ids scope [scope_id] (debounced now debounce_seconds) in ret true
      else if coalesces wall r then
        do! update_ids scope [scope_id] (suppressed now) in ret false
      else
        do! update_ids scope [scope_id] (enqueued now) in ret true
  end.

(* src/core/data/match_rebuild_state.py :: request_rebuild_batch *)
Definition request_rebuild_batch (now wall : Z) (scope : string) (scope_ids : list Z)
    (debounce_seconds : Z) : RM (list Z) :=
  let normalized_ids := positive_ids scope_ids in
  match normalized_ids with
  | [] => ret []
  | _ =>
      do! modify (λ t, foldl (λ t i, insert_missing scope i (idle_row now) t) t normalized_ids) in
      if bool_decide (scope = "demande") && (0 <? debounce_seconds) then
        do! update_ids scope normalized_ids (debounced now debounce_seconds) in ret normalized_ids
      else
        let! rows := gets (select_ids scope normalized_ids) in
        let suppress (ir : Z * rrow) := coalesces wall ir.2 in
        let rows := List.filter (λ ir : Z * rrow, 0 <? ir.1) rows in
        let suppress_ids := map fst (List.filter suppress rows) in
        let enqueue_ids := map fst (List.filter (λ ir, negb (suppress ir)) rows) in
        do! match suppress_ids with
            | [] => ret tt
            | _ => update_ids scope suppress_ids (suppressed now)
            end in
        do! match enqueue_ids with
            | [] => ret tt
            | _ => update_ids scope enqueue_ids (enqueued now)
            end in
        ret (sorted_set enqueue_ids)
  end.

(* src/core/data/match_rebuild_state.py :: get_generation *)
Definition get_generation (scope : string) (scope_id : Z) : RM Z :=
  gets (λ t : rtable, match t !! (scope, scope_id) with Some r => rr_generation r | None => 0 end).

(** ** Counters *)

Definition dispatchable (now : Z) (r : rrow) : bool :=
  rr_pending r && (rr_dispatch_after r <=? now) && claim_free now r.
Definition count_where (s : string) (p : rrow → bool) : RM Z :=
  gets (λ t, Z.of_nat (length (select_where s p t))).
(* src/core/data/match_rebuild_state.py :: count_dispatchable *)
Definition count_dispatchable (now : Z) (scope : string) : RM Z := count_where scope (dispatchable now).
(* src/core/data/match_rebuild_state.py :: count_pending *)
Definition count_pending (scope : string) : RM Z := count_where scope rr_pending.
(* src/core/data/match_rebuild_state.py :: count_claimed_dispatches *)
Definition count_claimed_dispatches (now : Z) (scope : string) : RM Z :=
  count_where scope (λ r, rr_pending r &&
    match rr_claim_expires r with Some x => now <? x | None => false end).
Definition claim_lapsed (now : Z) (r : rrow) : bool :=
  rr_pending r && match rr_claim_expires r with Some x => x <=? now | None => false end.
(* src/core/data/match_rebuild_state.py :: count_expired_dispatch_claims *)
Definition count_expired_dispatch_claims (now : Z) (scope : string) : RM Z :=
  count_where scope (claim_lapsed now).

(** The rows as (scope_id, updated_at), for every scope. *)
(* src/core/data/match_rebuild_state.py :: fetch_stale_pending *)
Definition fetch_stale_pending (now : Z) (limit : nat) (stale_seconds : option Z)
  : RM (list ((string * Z) * Z)) :=
  let stale := default _PENDING_STALE_SEC stale_seconds in
  if stale <=? 0 then ret []
  else gets (λ t : rtable,
    map (λ kr, (kr.1, rr_updated_at kr.2))
      (take limit (ssort (λ a b, rr_updated_at a.2 <=? rr_updated_at b.2)
        (List.filter (λ kr, rr_pending kr.2 && (rr_updated_at kr.2 <? now - stale)) (map_to_list t))))).

(** ** Dispatch *)

(** ORDER BY dispatch_after, last_requested_at, scope_id. *)
Definition dispatch_leb (a b : Z * rrow) : bool :=
  if rr_dispatch_after a.2 <? rr_dispatch_after b.2 then true
  else if rr_dispatch_after b.2 <? rr_dispatch_after a.2 then false
  else if rr_last_requested a.2 <? rr_last_requested b.2 then true
  else if rr_last_requested b.2 <? rr_last_requested a.2 then false
  else a.1 <=? b.1.

Definition claimed (now ttl : Z) (token : string) (r : rrow) : rrow :=
  mkRRow (rr_pending r) (rr_generation r) now (rr_dispatch_after r) (Some token) (Some (now + ttl))
    (rr_last_requested r).
(** The rows a claim takes: [locked] are the rows another transaction holds (SKIP LOCKED). *)
Definition candidates (now : Z) (scope : string) (limit : nat) (locked : list Z) (t : rtable)
  : list (Z * rrow) :=
  take limit (ssort dispatch_leb
    (List.filter (λ ir : Z * rrow, negb (bool_decide (ir.1 ∈ locked)))
       (select_where scope (dispatchable now) t))).
Definition claim_ttl (claim_ttl_seconds : option Z) : Z :=
  Z.max 10 (match claim_ttl_seconds with
            | Some n => if n =? 0 then _DISPATCH_CLAIM_TTL_SEC else n
            | None => _DISPATCH_CLAIM_TTL_SEC
            end).
(** [token] is the caller's token, or the fresh uuid when it gives none. *)
(* src/core/data/match_rebuild_state.py :: claim_dispatchable_scope_ids *)
Definition claim_dispatchable_scope_ids (now : Z) (scope : string) (limit : nat) (locked : list Z)
    (token : string) (claim_ttl_seconds : option Z) : RM (list Z) :=
  let! rows := gets (candidates now scope limit locked) in
  let ids := map fst rows in
  do! update_ids scope ids (claimed now (claim_ttl claim_ttl_seconds) token) in
  ret (sorted_set (List.filter (λ i, 0 <? i) ids)).

Definition released (now : Z) (r : rrow) : rrow :=
  mkRRow (rr_pending r) (rr_generation r) now (rr_dispatch_after r) None None (rr_last_requested r).
Definition expiry_leb (a b : Z * rrow) : bool :=
  default 0 (rr_claim_expires a.2) <=? default 0 (rr_claim_expires b.2).
(* src/core/data/match_rebuild_state.py :: reclaim_expired_dispatch_claims *)
Definition reclaim_expired_dispatch_claims (now : Z) (scope : string) (limit : nat) (locked : list Z)
  : RM Z :=
  let! rows := gets (λ t, take limit (ssort expiry_leb
    (List.filter (λ ir : Z * rrow, negb (bool_decide (ir.1 ∈ locked)))
       (select_where scope (claim_lapsed now) t)))) in
  do! update_ids scope (map fst rows) (released now) in
  ret (Z.of_nat (length rows)).

(** ** Completion *)

Definition finished (now : Z) (again : bool) (r : rrow) : rrow :=
  mkRRow again (rr_generation r) now now None None (rr_last_requested r).
(* src/core/data/match_rebuild_state.py :: complete_rebuild *)
Definition complete_rebuild (now : Z) (scope : string) (scope_id start_generation : Z) : RM bool :=
  let! row := gets (λ t : rtable, t !! (scope, scope_id)) in
  match row with
  | None => ret false
  | Some r =>
      if start_generation <? rr_generation r then
        do! update_ids scope [scope_id] (finished now true) in ret true
      else
        do! update_ids scope [scope_id] (finished now false) in ret false
  end.

(** A dict from ids to generations. *)
Definition start_of (g : list (Z * Z)) (i : Z) : Z :=
  default 0 (snd <$> List.find (λ kv : Z * Z, kv.1 =? i) g).
(* src/core/data/match_rebuild_state.py :: complete_rebuild_batch *)
Definition complete_rebuild_batch (now : Z) (scope : string) (start_generations : list (Z * Z))
  : RM (list Z) :=
  let scope_ids := positive_ids (map fst start_generations) in
  match scope_ids with
  | [] => ret []
  | _ =>
      let! rows := gets (select_ids scope scope_ids) in
      match rows with
      | [] => ret []
      | _ =>
          let rows := List.filter (λ ir : Z * rrow, 0 <? ir.1) rows in
          let behind (ir : Z * rrow) := start_of start_generations ir.1 <? rr_generation ir.2 in
          let rerun_ids := map fst (List.filter behind rows) in
          let done_ids := map fst (List.filter (λ ir, negb (behind ir)) rows) in
          do! match rerun_ids with
              | [] => ret tt
              | _ => update_ids scope rerun_ids (finished now true)
              end in
          do! match done_ids with
              | [] => ret tt
              | _ => update_ids scope done_ids (finished now false)
              end in
          ret (sorted_set rerun_ids)
      end
  end.
End State.
