(* ===== verification/RebuildProps.v ===== *)
(** * No rebuild request is lost

    The batch operations against the single ones, the life of a row over any sequence of
    transactions, and the fairness of the dispatch. *)

From S2P Require Import Prelude RebuildState.
Local Open Scope Z_scope.

(** ** Sorted sets of ids *)

Lemma Z_leb_total x y : (x <=? y) = false → (y <=? x) = true.
Proof. rewrite Z.leb_gt, Z.leb_le. lia. Qed.
Lemma Z_leb_trans x y z : (x <=? y) = true → (y <=? z) = true → (x <=? z) = true.
Proof. rewrite !Z.leb_le. lia. Qed.

Lemma remove_dups_id {A} `{EqDecision A} (l : list A) : NoDup l → remove_dups l = l.
Proof.
  induction 1 as [|x l Hx Hl IH]; [done|]. cbn. destruct (decide_rel _ x l); [done|by rewrite IH].
Qed.
Lemma sorted_set_elem l i : i ∈ sorted_set l ↔ i ∈ l.
Proof. unfold sorted_set. rewrite ssort_perm. apply elem_of_remove_dups. Qed.
Lemma sorted_set_NoDup l : NoDup (sorted_set l).
Proof. unfold sorted_set. rewrite ssort_perm. apply NoDup_remove_dups. Qed.
Lemma sorted_set_sorted l : StronglySorted (λ a b, (a <=? b) = true) (sorted_set l).
Proof. apply ssort_sorted; [apply Z_leb_total|apply Z_leb_trans]. Qed.
Lemma sorted_set_id l : NoDup l → StronglySorted (λ a b, (a <=? b) = true) l → sorted_set l = l.
Proof. intros Hn Hs. unfold sorted_set. rewrite remove_dups_id by done. by apply ssort_id. Qed.
Lemma sorted_set_filter f l : sorted_set (List.filter f (sorted_set l)) = List.filter f (sorted_set l).
Proof.
  apply sorted_set_id; [|apply StronglySorted_filter, sorted_set_sorted].
  rewrite <- (map_id (List.filter f _)). apply NoDup_map_filter. rewrite map_id. apply sorted_set_NoDup.
Qed.
Lemma positive_ids_elem l i : i ∈ positive_ids l ↔ i ∈ l ∧ 0 < i.
Proof. unfold positive_ids. rewrite sorted_set_elem, elem_of_filter_b, Z.ltb_lt. tauto. Qed.
Lemma positive_ids_NoDup l : NoDup (positive_ids l).
Proof. apply sorted_set_NoDup. Qed.

(** ** Statements, row by row *)

Lemma update_ids_run s ids f t :
  ∃ t', update_ids s ids f t = (Ok tt, t') ∧
    ∀ k, t' !! k = (if decide (k.1 = s ∧ k.2 ∈ ids) then f else id) <$> t !! k.
Proof.
  eexists. split; [reflexivity|]. intros k. rewrite map_lookup_imap.
  destruct (t !! k); cbn; [|done]. by case_decide.
Qed.
Lemma insert_missing_lookup s i r t k :
  insert_missing s i r t !! k = (if decide (k = (s, i)) then Some (default r (t !! k)) else t !! k).
Proof.
  unfold insert_missing. case_decide as Hk.
  - subst. destruct (t !! (s, i)) eqn:E; [by rewrite E|by rewrite lookup_insert_eq].
  - destruct (t !! (s, i)); [done|by rewrite lookup_insert_ne].
Qed.
Lemma insert_all_lookup s ids r t k :
  foldl (λ t i, insert_missing s i r t) t ids !! k
  = (if decide (k.1 = s ∧ k.2 ∈ ids) then Some (default r (t !! k)) else t !! k).
Proof.
  revert t. induction ids as [|i ids IH]; intros t; cbn [foldl].
  - rewrite decide_False; [done|]. by intros [_ ?%elem_of_nil].
  - rewrite IH, insert_missing_lookup. destruct k as [s' j]. cbn.
    destruct (decide ((s', j) = (s, i))) as [[= -> ->]|Hne].
    + rewrite (decide_True (P := s = s ∧ i ∈ i :: ids)) by (split; [done|left]).
      by destruct (decide _).
    + destruct (decide (s' = s ∧ j ∈ ids)) as [[-> Hj]|Hj].
      * rewrite decide_True by (split; [done|by right]). done.
      * rewrite decide_False; [done|]. intros [-> [->|Hin]%elem_of_cons]; [done|by apply Hj].
Qed.

Section State.
Context `{RebuildConfig}.

(** What one request does to a row, and whether it asks for a dispatch. *)
Definition debounces (s : string) (d : Z) : bool := bool_decide (s = "demande") && (0 <? d).
Definition asks (wall : Z) (s : string) (d : Z) (r : rrow) : bool :=
  debounces s d || negb (coalesces wall r).
Definition requested (now wall : Z) (s : string) (d : Z) (r : rrow) : rrow :=
  if debounces s d then debounced now d r
  else if coalesces wall r then suppressed now r else enqueued now r.

Lemma request_run now wall s i d t :
  request_rebuild now wall s i d t =
  (Ok (asks wall s d (default (idle_row now) (t !! (s, i)))),
   <[(s, i) := requested now wall s d (default (idle_row now) (t !! (s, i)))]> t).
Proof.
  unfold request_rebuild, asks, requested, debounces. rewrite bind_modify, bind_gets.
  rewrite insert_missing_lookup, decide_True by done. set (r := default _ _).
  assert (∀ f (b : bool), bind (update_ids s [i] f) (λ _, ret b) (insert_missing s i (idle_row now) t)
            = (Ok b, <[(s, i) := f r]> t)) as Hu.
  { intros f b. destruct (update_ids_run s [i] f (insert_missing s i (idle_row now) t)) as (t' & E & Ht').
    rewrite (bind_ok _ _ _ _ _ E). unfold ret. f_equal. apply map_eq. intros [s' j].
    rewrite Ht', insert_missing_lookup. cbn. destruct (decide ((s', j) = (s, i))) as [[= -> ->]|Hne].
    - rewrite lookup_insert_eq. rewrite decide_True by (split; [done|left]). done.
    - rewrite lookup_insert_ne by congruence. rewrite decide_False; [by destruct (t !! (s', j))|].
      intros [-> ->%list_elem_of_singleton]. done. }
  destruct (_ && _); cbn; [apply Hu|]. destruct (coalesces wall r); cbn; apply Hu.
Qed.

(** Running a single operation for each id, keeping the ids for which it answers true. *)
Fixpoint collect (f : Z → RM bool) (ids : list Z) : RM (list Z) :=
  match ids with
  | [] => ret []
  | i :: ids' =>
      let! b := f i in
      let! rest := collect f ids' in
      ret (if b : bool then i :: rest else rest)
  end.

Lemma collect_run (f : Z → RM bool) (s : string) (verdict : Z → option rrow → bool)
    (g : Z → option rrow → option rrow) ids t :
  NoDup ids →
  (∀ i t, (f i t).1 = Ok (verdict i (t !! (s, i))) ∧
          ∀ k, (f i t).2 !! k = if decide (k = (s, i)) then g i (t !! k) else t !! k) →
  (collect f ids t).1 = Ok (List.filter (λ i, verdict i (t !! (s, i))) ids) ∧
  ∀ k, (collect f ids t).2 !! k = if decide (k.1 = s ∧ k.2 ∈ ids) then g k.2 (t !! k) else t !! k.
Proof.
  intros Hnd Hf. revert t. induction Hnd as [|i ids Hi Hnd IH]; intros t.
  - split; [done|]. intros k. cbn. rewrite decide_False; [done|]. by intros [_ ?%elem_of_nil].
  - cbn [collect List.filter]. destruct (Hf i t) as [Hv Hk]. unfold bind.
    destruct (f i t) as [r t1] eqn:E1. cbn in Hv, Hk. subst r. destruct (IH t1) as [Hv2 Hk2].
    destruct (collect f ids t1) as [r2 t2]. cbn in Hv2, Hk2. subst r2.
    assert (List.filter (λ j, verdict j (t1 !! (s, j))) ids
            = List.filter (λ j, verdict j (t !! (s, j))) ids) as ->.
    { apply filter_ext_in. intros j Hj%list_elem_of_In. f_equal. rewrite Hk, decide_False; [done|].
      by intros [= ->]. }
    split; [cbn; by destruct (verdict i (t !! (s, i)))|]. intros [s' j]. cbn. rewrite Hk2, Hk. cbn.
    destruct (decide ((s', j) = (s, i))) as [[= -> ->]|Hne].
    + rewrite (decide_True (P := s = s ∧ i ∈ i :: ids)) by (split; [done|left]).
      rewrite decide_False; [done|]. by intros [_ ?].
    + destruct (decide (s' = s ∧ j ∈ ids)) as [[-> Hj]|Hj].
      * rewrite decide_True by (split; [done|by right]). done.
      * rewrite decide_False; [done|]. intros [-> [->|Hin]%elem_of_cons]; [done|by apply Hj].
Qed.

Lemma request_each_run now wall s d ids t :
  NoDup ids →
  (collect (λ i, request_rebuild now wall s i d) ids t).1
    = Ok (List.filter (λ i, asks wall s d (default (idle_row now) (t !! (s, i)))) ids) ∧
  ∀ k, (collect (λ i, request_rebuild now wall s i d) ids t).2 !! k
       = if decide (k.1 = s ∧ k.2 ∈ ids)
         then Some (requested now wall s d (default (idle_row now) (t !! k))) else t !! k.
Proof.
  intros Hnd. apply (collect_run _ s (λ _ o, asks wall s d (default (idle_row now) o))
    (λ _ o, Some (requested now wall s d (default (idle_row now) o)))); [done|].
  intros i t'. rewrite request_run. split; [done|]. intros k. cbn. case_decide as Hk.
  - subst. by rewrite lookup_insert_eq.
  - by rewrite lookup_insert_ne.
Qed.

(** An UPDATE on the ids of a list, skipped when the list is empty. *)
Lemma update_unless_nil s ids f t :
  ∃ t', (match ids with [] => ret tt | _ => update_ids s ids f end) t = (Ok tt, t') ∧
    ∀ k, t' !! k = (if decide (k.1 = s ∧ k.2 ∈ ids) then f else id) <$> t !! k.
Proof.
  destruct ids as [|i ids]; [|apply update_ids_run]. exists t. split; [done|]. intros k.
  rewrite decide_False by by intros [_ ?%elem_of_nil]. by destruct (t !! k).
Qed.

Lemma select_ids_elem s ids t i r :
  NoDup ids → (i, r) ∈ select_ids s ids t ↔ i ∈ ids ∧ t !! (s, i) = Some r.
Proof.
  intros _. unfold select_ids. rewrite list_elem_of_omap. split.
  - intros (j & Hj & E). destruct (t !! (s, j)) eqn:Et; cbn in E; simplify_eq. done.
  - intros [Hi Ht]. exists i. by rewrite Ht.
Qed.
Lemma select_ids_fst (p : Z * rrow → bool) s ids t :
  (∀ i, i ∈ ids → is_Some (t !! (s, i))) →
  map fst (List.filter p (select_ids s ids t))
  = List.filter (λ i, match t !! (s, i) with Some r => p (i, r) | None => false end) ids.
Proof.
  induction ids as [|i ids IH]; intros Hall; [done|]. cbn.
  destruct (Hall i) as [r E]; [left|]. rewrite E. cbn.
  rewrite <- IH by (intros j Hj; apply Hall; by right). by destruct (p (i, r)).
Qed.

Lemma request_batch_run now wall s ids d t :
  request_rebuild_batch now wall s ids d t
  = collect (λ i, request_rebuild now wall s i d) (positive_ids ids) t.
Proof.
  pose proof (positive_ids_NoDup ids) as Hnd. destruct (request_each_run now wall s d _ t Hnd) as [Hv Hk].
  destruct (collect _ (positive_ids ids) t) as [r t'] eqn:Ec. cbn in Hv, Hk. subst r.
  unfold request_rebuild_batch. destruct (positive_ids ids) as [|i0 ids0] eqn:Ei.
  { by injection Ec as <-. }
  rewrite <- Ei in *. rewrite bind_modify.
  set (t1 := foldl _ t _).
  assert (∀ k, t1 !! k = if decide (k.1 = s ∧ k.2 ∈ positive_ids ids)
                         then Some (default (idle_row now) (t !! k)) else t !! k) as Ht1
    by (intros; apply insert_all_lookup).
  assert (∀ i, i ∈ positive_ids ids → t1 !! (s, i) = Some (default (idle_row now) (t !! (s, i)))) as Hin
    by (intros; by rewrite Ht1, decide_True).
  clearbody t1. fold (debounces s d). unfold asks, requested in *. destruct (debounces s d) eqn:Ed; cbn [orb negb].
  - destruct (update_ids_run s (positive_ids ids) (debounced now d) t1) as (t2 & E & Ht2).
    rewrite (bind_ok _ _ _ _ _ E). unfold ret. f_equal.
    + rewrite filter_all; [done|]. by apply Forall_forall.
    + apply map_eq. intros k. rewrite Ht2, Ht1, Hk. case_decide; [done|by destruct (t !! k)].
  - assert (∀ q : Z * rrow → bool,
      map fst (List.filter q (List.filter (λ ir : Z * rrow, 0 <? ir.1) (select_ids s (positive_ids ids) t1)))
      = List.filter (λ i, q (i, default (idle_row now) (t !! (s, i)))) (positive_ids ids)) as Hsel.
    { intros q. rewrite filter_filter_b, select_ids_fst by (intros i Hi; rewrite Hin by done; by eexists).
      apply filter_ext_in. intros i Hi%list_elem_of_In. rewrite Hin by done. cbn.
      apply positive_ids_elem in Hi as [_ Hi%Z.ltb_lt]. by rewrite Hi. }
    rewrite bind_gets, !Hsel. cbn [fst snd].
    set (sup := List.filter (λ i, coalesces _ _) _). set (enq := List.filter (λ i, negb _) _).
    destruct (update_unless_nil s sup (suppressed now) t1) as (t2 & E2 & Ht2).
    rewrite (bind_ok _ _ _ _ _ E2).
    destruct (update_unless_nil s enq (enqueued now) t2) as (t3 & E3 & Ht3).
    rewrite (bind_ok _ _ _ _ _ E3). unfold ret. f_equal.
    + f_equal. apply sorted_set_filter.
    + apply map_eq. intros [s' j]. rewrite Ht3, Ht2, Ht1, Hk. cbn.
      destruct (decide (s' = s ∧ j ∈ positive_ids ids)) as [[-> Hj]|Hno].
      * set (r := default (idle_row now) (t !! (s, j))). cbn.
        assert ((j ∈ sup ↔ coalesces wall r = true) ∧ (j ∈ enq ↔ coalesces wall r = false)) as [Hs He].
        { subst sup enq. rewrite !elem_of_filter_b, negb_true_iff. fold r. tauto. }
        destruct (coalesces wall r).
        -- rewrite (decide_False (P := s = s ∧ j ∈ enq)) by (intros [_ ?%He]; done).
           by rewrite (decide_True (P := s = s ∧ j ∈ sup)) by (split; [done|by apply Hs]).
        -- rewrite (decide_True (P := s = s ∧ j ∈ enq)) by (split; [done|by apply He]).
           by rewrite (decide_False (P := s = s ∧ j ∈ sup)) by (intros [_ ?%Hs]; done).
      * rewrite (decide_False (P := s' = s ∧ j ∈ enq))
          by (intros [-> [_ ?]%elem_of_filter_b]; by apply Hno).
        rewrite (decide_False (P := s' = s ∧ j ∈ sup))
          by (intros [-> [_ ?]%elem_of_filter_b]; by apply Hno).
        by destruct (t !! (s', j)).
Qed.

(** ** Completion *)

Definition behind (start : Z) (o : option rrow) : bool :=
  match o with Some r => start <? rr_generation r | None => false end.

Lemma complete_run now s i start t :
  (complete_rebuild now s i start t).1 = Ok (behind start (t !! (s, i))) ∧
  ∀ k, (complete_rebuild now s i start t).2 !! k =
       if decide (k = (s, i)) then finished now (behind start (t !! k)) <$> t !! k else t !! k.
Proof.
  unfold complete_rebuild. rewrite bind_gets. destruct (t !! (s, i)) as [r|] eqn:E; cbn [behind].
  - assert (∀ b, (bind (update_ids s [i] (finished now b)) (λ _, ret b) t).1 = Ok b ∧
      ∀ k, (bind (update_ids s [i] (finished now b)) (λ _, ret b) t).2 !! k =
           if decide (k = (s, i)) then finished now b <$> t !! k else t !! k) as Hu.
    { intros b. destruct (update_ids_run s [i] (finished now b) t) as (t' & Eu & Ht').
      rewrite (bind_ok _ _ _ _ _ Eu). split; [done|]. intros [s' j]. cbn. rewrite Ht'. cbn.
      destruct (decide ((s', j) = (s, i))) as [[= -> ->]|Hne].
      - by rewrite decide_True by (split; [done|left]).
      - rewrite decide_False; [by destruct (t !! (s', j))|]. intros [-> ->%list_elem_of_singleton]. done. }
    destruct (start <? rr_generation r) eqn:Eb; [destruct (Hu true) as [H1 H2]|destruct (Hu false) as [H1 H2]];
      (split; [exact H1|]); intros k; rewrite H2; (case_decide; [|done]); subst; rewrite E; cbn; by rewrite Eb.
  - split; [done|]. intros k. cbn. case_decide; [subst; by rewrite E|done].
Qed.

(** What a completion from [g] does to a row. *)
Definition finish_row (now start : Z) (o : option rrow) : option rrow :=
  finished now (behind start o) <$> o.

Lemma complete_each_run now s g ids t :
  NoDup ids →
  (collect (λ i, complete_rebuild now s i (start_of g i)) ids t).1
    = Ok (List.filter (λ i, behind (start_of g i) (t !! (s, i))) ids) ∧
  ∀ k, (collect (λ i, complete_rebuild now s i (start_of g i)) ids t).2 !! k
       = if decide (k.1 = s ∧ k.2 ∈ ids) then finish_row now (start_of g k.2) (t !! k) else t !! k.
Proof.
  intros Hnd. apply (collect_run _ s (λ i, behind (start_of g i)) (λ i, finish_row now (start_of g i)));
    [done|]. intros i t'. apply complete_run.
Qed.

Lemma select_ids_filter (p : Z * rrow → bool) s ids t :
  map fst (List.filter p (select_ids s ids t))
  = List.filter (λ i, match t !! (s, i) with Some r => p (i, r) | None => false end) ids.
Proof.
  induction ids as [|i ids IH]; [done|]. cbn. destruct (t !! (s, i)) as [r|] eqn:E; cbn; [|done].
  rewrite <- IH. by destruct (p (i, r)).
Qed.

Lemma complete_batch_run now s g t :
  complete_rebuild_batch now s g t
  = collect (λ i, complete_rebuild now s i (start_of g i)) (positive_ids (map fst g)) t.
Proof.
  set (ids := positive_ids (map fst g)). pose proof (positive_ids_NoDup (map fst g)) as Hnd. fold ids in Hnd.
  destruct (complete_each_run now s g ids t Hnd) as [Hv Hk].
  destruct (collect _ ids t) as [r t'] eqn:Ec. cbn in Hv, Hk. subst r.
  unfold complete_rebuild_batch. fold ids. destruct ids as [|i0 ids0] eqn:Ei; [by injection Ec as <-|].
  rewrite <- Ei in *. rewrite bind_gets.
  assert (∀ i, i ∈ ids → 0 < i) as Hpos by (unfold ids; intros i Hi; apply positive_ids_elem in Hi; tauto).
  destruct (select_ids s ids t) as [|ir0 irs] eqn:Es.
  { assert (∀ i, i ∈ ids → t !! (s, i) = None) as Hnone.
    { intros i Hi. destruct (t !! (s, i)) as [r|] eqn:E; [|done].
      assert ((i, r) ∈ select_ids s ids t) as Hin by by apply select_ids_elem.
      rewrite Es in Hin. by apply elem_of_nil in Hin. }
    unfold ret. f_equal.
    - rewrite filter_none; [done|]. apply Forall_forall. intros i Hi. by rewrite (Hnone i Hi).
    - apply map_eq. intros [s' j]. rewrite Hk. cbn. case_decide as Hd; [|done]. destruct Hd as [-> Hj].
      by rewrite Hnone. }
  rewrite <- Es. clear Es ir0 irs.
  assert (∀ q : Z * rrow → bool,
      map fst (List.filter q (List.filter (λ ir : Z * rrow, 0 <? ir.1) (select_ids s ids t)))
      = List.filter (λ i, match t !! (s, i) with Some r => q (i, r) | None => false end) ids) as Hsel.
  { intros q. rewrite filter_filter_b, select_ids_filter. apply filter_ext_in.
    intros i Hi%list_elem_of_In. apply Hpos, Z.ltb_lt in Hi. destruct (t !! (s, i)); [cbn; by rewrite Hi|done]. }
  cbv zeta. rewrite !Hsel. cbn [fst snd].
  set (rerun := List.filter (λ i, match _ with Some r => start_of g i <? _ | None => _ end) ids).
  set (fin := List.filter (λ i, match _ with Some r => negb _ | None => _ end) ids).
  destruct (update_unless_nil s rerun (finished now true) t) as (t2 & E2 & Ht2).
  rewrite (bind_ok _ _ _ _ _ E2).
  destruct (update_unless_nil s fin (finished now false) t2) as (t3 & E3 & Ht3).
  rewrite (bind_ok _ _ _ _ _ E3). unfold ret. f_equal; [f_equal; apply sorted_set_filter|].
  apply map_eq. intros [s' j]. rewrite Ht3, Ht2, Hk. cbn. unfold finish_row.
  destruct (t !! (s', j)) as [r|] eqn:E; [|by destruct (decide (s' = s ∧ j ∈ ids))]. cbn. f_equal.
  destruct (decide (s' = s ∧ j ∈ ids)) as [[-> Hj]|Hno].
  - assert ((j ∈ rerun ↔ (start_of g j <? rr_generation r) = true) ∧
            (j ∈ fin ↔ (start_of g j <? rr_generation r) = false)) as [Hr Hf].
    { subst rerun fin. rewrite !elem_of_filter_b, E, negb_true_iff. tauto. }
    destruct (start_of g j <? rr_generation r).
    + rewrite (decide_False (P := s = s ∧ j ∈ fin)) by (intros [_ ?%Hf]; done).
      by rewrite (decide_True (P := s = s ∧ j ∈ rerun)) by (split; [done|by apply Hr]).
    + rewrite (decide_True (P := s = s ∧ j ∈ fin)) by (split; [done|by apply Hf]).
      by rewrite (decide_False (P := s = s ∧ j ∈ rerun)) by (intros [_ ?%Hr]; done).
  - rewrite (decide_False (P := s' = s ∧ j ∈ fin)) by (intros [-> [_ ?]%elem_of_filter_b]; by apply Hno).
    by rewrite (decide_False (P := s' = s ∧ j ∈ rerun)) by (intros [-> [_ ?]%elem_of_filter_b]; by apply Hno).
Qed.

(** The batch operations are the single ones, one after the other.  A batch of requests
    leaves the table, and answers the ids, of calling [request_rebuild] once for each positive id
    in ascending order; a batch of completions those of calling [complete_rebuild] with the
    generation each id started from. *)
Theorem batches_are_single_calls now wall s ids d g t :
  request_rebuild_batch now wall s ids d t
    = collect (λ i, request_rebuild now wall s i d) (positive_ids ids) t ∧
  complete_rebuild_batch now s g t
    = collect (λ i, complete_rebuild now s i (start_of g i)) (positive_ids (map fst g)) t.
Proof. split; [apply request_batch_run|apply complete_batch_run]. Qed.

(** ** Sequences of transactions *)

Inductive event : Type :=
  | Request (now wall : Z) (s : string) (i d : Z)
  | RequestMany (now wall : Z) (s : string) (ids : list Z) (d : Z)
  | Claim (now : Z) (s : string) (limit : nat) (locked : list Z) (token : string) (ttl : option Z)
  | Reclaim (now : Z) (s : string) (limit : nat) (locked : list Z)
  | Complete (now : Z) (s : string) (i start : Z)
  | CompleteMany (now : Z) (s : string) (g : list (Z * Z)).

Definition happen (t : rtable) (ev : event) : rtable :=
  match ev with
  | Request now wall s i d => (request_rebuild now wall s i d t).2
  | RequestMany now wall s ids d => (request_rebuild_batch now wall s ids d t).2
  | Claim now s limit locked token ttl => (claim_dispatchable_scope_ids now s limit locked token ttl t).2
  | Reclaim now s limit locked => (reclaim_expired_dispatch_claims now s limit locked t).2
  | Complete now s i start => (complete_rebuild now s i start t).2
  | CompleteMany now s g => (complete_rebuild_batch now s g t).2
  end.
Definition history (evs : list event) : rtable := foldl happen ∅ evs.

(** The event requests a rebuild of [k]; it completes one that started at generation [g]. *)
Definition requests (k : string * Z) (ev : event) : bool :=
  match ev with
  | Request _ _ s i _ => bool_decide (k = (s, i))
  | RequestMany _ _ s ids _ => bool_decide (k.1 = s ∧ k.2 ∈ positive_ids ids)
  | _ => false
  end.
Definition completes (k : string * Z) (ev : event) : option Z :=
  match ev with
  | Complete _ s i start => if decide (k = (s, i)) then Some start else None
  | CompleteMany _ s g =>
      if decide (k.1 = s ∧ k.2 ∈ positive_ids (map fst g)) then Some (start_of g k.2) else None
  | _ => None
  end.

(** Neither a claim nor its release changes what is pending. *)
Definition same_work (o o' : option rrow) : Prop :=
  match o, o' with
  | Some r, Some r' => rr_pending r' = rr_pending r ∧ rr_generation r' = rr_generation r
  | None, None => True
  | _, _ => False
  end.
Lemma same_work_refl o : same_work o o.
Proof. by destruct o. Qed.

Lemma update_same_work s ids f t t' k :
  (∀ r, rr_pending (f r) = rr_pending r ∧ rr_generation (f r) = rr_generation r) →
  update_ids s ids f t = (Ok tt, t') → same_work (t !! k) (t' !! k).
Proof.
  intros Hf E. destruct (update_ids_run s ids f t) as (t2 & E2 & Ht2). rewrite E2 in E. injection E as <-.
  rewrite Ht2. destruct (t !! k); cbn; [|done]. by case_decide.
Qed.

(** One event, seen from one row. *)
Lemma happen_row t ev k :
  if requests k ev then
    ∃ r, happen t ev !! k = Some r ∧ rr_pending r = true ∧
         rr_generation r = match t !! k with Some r0 => rr_generation r0 | None => 0 end + 1
  else
    match completes k ev with
    | Some start => match happen t ev !! k, t !! k with
                    | Some r', Some r => rr_pending r' = (start <? rr_generation r) ∧
                                         rr_generation r' = rr_generation r
                    | None, None => True
                    | _, _ => False
                    end
    | None => same_work (t !! k) (happen t ev !! k)
    end.
Proof.
  assert (∀ now wall s d, let r := requested now wall s d (default (idle_row now) (t !! k)) in
    rr_pending r = true ∧
    rr_generation r = match t !! k with Some r0 => rr_generation r0 | None => 0 end + 1) as Hreq.
  { intros now wall s d. unfold requested. destruct (debounces s d); [by destruct (t !! k)|].
    destruct (coalesces wall _) eqn:Ec; [|by destruct (t !! k)]. split; [|by destruct (t !! k)].
    cbn. unfold coalesces in Ec. by destruct (rr_pending (default (idle_row now) (t !! k))). }
  destruct ev as [now wall s i d|now wall s ids d|now s lim lk tok ttl|now s lim lk|now s i start|now s g];
    cbn [requests completes happen].
  - rewrite request_run. cbn [snd]. case_bool_decide as Hk.
    + subst k. eexists. rewrite lookup_insert_eq. split; [done|]. apply Hreq.
    + rewrite lookup_insert_ne by done. apply same_work_refl.
  - rewrite request_batch_run.
    rewrite (proj2 (request_each_run now wall s d _ t (positive_ids_NoDup ids))).
    case_bool_decide as Hk; [rewrite decide_True by done|rewrite decide_False by done; apply same_work_refl].
    eexists. split; [done|]. apply Hreq.
  - unfold claim_dispatchable_scope_ids. rewrite bind_gets.
    destruct (update_ids_run s (map fst (candidates now s lim lk t)) (claimed now (claim_ttl ttl) tok) t)
      as (t' & E & _). rewrite (bind_ok _ _ _ _ _ E). eapply (update_same_work s); [|exact E]. done.
  - unfold reclaim_expired_dispatch_claims. rewrite bind_gets. set (rows := take _ _).
    destruct (update_ids_run s (map fst rows) (released now) t) as (t' & E & _).
    rewrite (bind_ok _ _ _ _ _ E). eapply (update_same_work s); [|exact E]. done.
  - rewrite (proj2 (complete_run now s i start t)). case_decide; [|apply same_work_refl].
    by destruct (t !! k).
  - rewrite complete_batch_run, (proj2 (complete_each_run now s g _ t (positive_ids_NoDup _))).
    case_decide; [|apply same_work_refl]. by destruct (t !! k).
Qed.

Definition times_requested (k : string * Z) (evs : list event) : Z :=
  Z.of_nat (length (List.filter (requests k) evs)).
Lemma times_requested_snoc k evs ev :
  times_requested k (evs ++ [ev]) = times_requested k evs + (if requests k ev then 1 else 0).
Proof.
  unfold times_requested. rewrite List.filter_app, length_app. cbn. destruct (requests k ev); cbn; lia.
Qed.

Definition covered (k : string * Z) (g : Z) (evs : list event) : Prop :=
  ∃ ev start, ev ∈ evs ∧ completes k ev = Some start ∧ g <= start.

Definition accounted (evs : list event) (k : string * Z) (o : option rrow) : Prop :=
  match o with
  | None => times_requested k evs = 0
  | Some r => rr_generation r = times_requested k evs ∧
              (rr_pending r = false → covered k (rr_generation r) evs)
  end.
Lemma covered_snoc k g evs ev : covered k g evs → covered k g (evs ++ [ev]).
Proof. intros (ev' & start & Hin & ?). exists ev', start. split; [|done]. apply elem_of_app. by left. Qed.

Lemma history_accounted evs k : accounted evs k (history evs !! k).
Proof.
  induction evs as [|ev evs IH] using rev_ind; [done|].
  unfold history. rewrite foldl_snoc. fold (history evs).
  pose proof (happen_row (history evs) ev k) as Hrow. unfold accounted in *.
  rewrite times_requested_snoc. destruct (requests k ev).
  - destruct Hrow as (r & -> & Hp & Hg). split; [|by rewrite Hp].
    rewrite Hg. destruct (history evs !! k); lia.
  - rewrite Z.add_0_r. destruct (completes k ev) as [start|] eqn:Ec.
    + destruct (happen (history evs) ev !! k) as [r'|], (history evs !! k) as [r|]; try done.
      destruct Hrow as [Hp ->]. split; [tauto|]. rewrite Hp. intros Hlt%Z.ltb_ge.
      exists ev, start. split_and!; [apply elem_of_app; right; by left|done|done].
    + destruct (happen (history evs) ev !! k) as [r'|], (history evs !! k) as [r|]; try done.
      destruct Hrow as [Hp ->]. split; [tauto|]. rewrite Hp. intros Hf. by apply covered_snoc, IH.
Qed.

(** C8. No rebuild request is lost.  After any sequence of requests, batches, dispatch claims,
    reclaims and completions, in any order and from any number of workers, the generation of a
    row is the number of times it was requested, and a row that is not pending was completed by
    a run that had started after the last of these requests: a request that arrives while a
    rebuild runs makes another rebuild pending. *)
Theorem no_request_is_lost evs k r :
  history evs !! k = Some r →
  rr_generation r = times_requested k evs ∧
  (rr_pending r = false → ∃ ev start, ev ∈ evs ∧ completes k ev = Some start ∧ times_requested k evs <= start).
Proof.
  intros E. pose proof (history_accounted evs k) as Ha. rewrite E in Ha. destruct Ha as [Hg Hc].
  split; [done|]. rewrite <- Hg. exact Hc.
Qed.

(** ** Dispatch *)

Lemma select_where_elem s p t i r :
  (i, r) ∈ select_where s p t ↔ t !! (s, i) = Some r ∧ p r = true.
Proof.
  unfold select_where. rewrite list_elem_of_omap. split.
  - intros ([[s' j] r'] & Hin%elem_of_map_to_list & E). cbn in E. case_decide as Hd; [|done].
    destruct Hd as [-> Hp]. by simplify_eq.
  - intros [Ht Hp]. exists ((s, i), r). split; [by apply elem_of_map_to_list|]. cbn.
    by rewrite decide_True.
Qed.
Lemma select_where_NoDup s p t : NoDup (map fst (select_where s p t)).
Proof.
  unfold select_where. pose proof (NoDup_fst_map_to_list t) as Hnd. revert Hnd.
  induction (map_to_list t) as [|[[s' j] r] l IH]; cbn; [constructor|].
  intros [Hj Hl]%NoDup_cons. case_decide as Hd; [|by apply IH]. cbn. constructor; [|by apply IH].
  intros ([j' r'] & Heq & Hin)%elem_of_map. cbn in Heq. subst j'.
  apply list_elem_of_omap in Hin as ([[s2 j2] r2] & Hin2 & E). cbn in E. case_decide as Hd2; [|done].
  destruct Hd as [-> _], Hd2 as [-> _]. simplify_eq. apply Hj, list_elem_of_fmap. by exists ((s, j), r').
Qed.
Lemma dispatch_leb_total a b : dispatch_leb a b = false → dispatch_leb b a = true.
Proof.
  unfold dispatch_leb. intros Hab. repeat case_match; rewrite ?Z.ltb_lt, ?Z.ltb_ge, ?Z.leb_gt, ?Z.leb_le in *;
    try done; lia.
Qed.
Lemma dispatch_leb_trans a b c : dispatch_leb a b = true → dispatch_leb b c = true → dispatch_leb a c = true.
Proof.
  unfold dispatch_leb. intros Hab Hbc. repeat case_match; rewrite ?Z.ltb_lt, ?Z.ltb_ge, ?Z.leb_gt, ?Z.leb_le in *;
    try done; lia.
Qed.

(** The unlocked dispatchable rows, in dispatch order. *)
Definition waiting (now : Z) (s : string) (locked : list Z) (t : rtable) : list (Z * rrow) :=
  ssort dispatch_leb (List.filter (λ ir : Z * rrow, negb (bool_decide (ir.1 ∈ locked)))
                        (select_where s (dispatchable now) t)).
Lemma waiting_elem now s locked t i r :
  (i, r) ∈ waiting now s locked t ↔
  t !! (s, i) = Some r ∧ dispatchable now r = true ∧ i ∉ locked.
Proof.
  unfold waiting. rewrite ssort_perm, elem_of_filter_b, select_where_elem, negb_true_iff,
    bool_decide_eq_false. tauto.
Qed.
Lemma waiting_NoDup now s locked t : NoDup (map fst (waiting now s locked t)).
Proof.
  unfold waiting. rewrite (ssort_perm dispatch_leb). apply NoDup_map_filter, select_where_NoDup.
Qed.
Lemma waiting_sorted now s locked t :
  StronglySorted (λ a b, dispatch_leb a b = true) (waiting now s locked t).
Proof. apply ssort_sorted; [apply dispatch_leb_total|apply dispatch_leb_trans]. Qed.

(** Claims are exclusive and fair.  A claim takes at most [limit] rows, only rows that are
    pending, due, not under a live claim and not locked by another worker, and marks each with
    its token until the end of the claim period, during which no other claim can take it; the
    rest of the table is unchanged.  If a row that could be taken is not, the claim took [limit]
    rows, all before it in the order of due time, request time and id. *)
Theorem claims_are_exclusive_and_fair now s limit locked token ttl t :
  (∀ i r, t !! (s, i) = Some r → 0 < i) →
  ∃ ids t',
    claim_dispatchable_scope_ids now s limit locked token ttl t = (Ok ids, t') ∧
    (length ids ≤ limit)%nat ∧ NoDup ids ∧
    (∀ i, i ∈ ids → ∃ r, t !! (s, i) = Some r ∧ dispatchable now r = true ∧ (i ∉ locked) ∧
       t' !! (s, i) = Some (claimed now (claim_ttl ttl) token r) ∧
       ∀ now', now' < now + claim_ttl ttl →
         dispatchable now' (claimed now (claim_ttl ttl) token r) = false) ∧
    (∀ k, ¬ (k.1 = s ∧ k.2 ∈ ids) → (t' !! k = t !! k)) ∧
    (∀ i r, t !! (s, i) = Some r → dispatchable now r = true → i ∉ locked → i ∉ ids →
       length ids = limit ∧
       ∀ j rj, j ∈ ids → t !! (s, j) = Some rj → dispatch_leb (j, rj) (i, r) = true).
Proof.
  intros Hpos. unfold claim_dispatchable_scope_ids. rewrite bind_gets.
  change (candidates now s limit locked t) with (take limit (waiting now s locked t)).
  set (w := waiting now s locked t). set (taken := map fst (take limit w)).
  destruct (update_ids_run s taken (claimed now (claim_ttl ttl) token) t) as (t' & E & Ht').
  rewrite (bind_ok _ _ _ _ _ E). unfold ret. eexists _, t'. split; [done|].
  assert (∀ ir, ir ∈ take limit w → ir ∈ w) as Htake 
    by (intros ir Hir; rewrite <- (take_drop limit w); apply elem_of_app; by left).
  assert (NoDup taken) as Hnd.
  { unfold taken. rewrite <- (map_id (map fst _)), map_id.
    assert (NoDup (map fst w)) as Hw by apply waiting_NoDup.
    rewrite <- (take_drop limit w), map_app in Hw. by apply NoDup_app in Hw as (? & _ & _). }
  assert (∀ i, i ∈ taken ↔ ∃ r, (i, r) ∈ take limit w) as Htk.
  { intros i. unfold taken. rewrite elem_of_map. split; [intros ([j r] & -> & ?); eauto|intros [r ?]; by exists (i, r)]. }
  assert (List.filter (λ i, 0 <? i) taken = taken) as ->.
  { apply filter_all, Forall_forall. intros i [r Hr%Htake%waiting_elem]%Htk. apply Z.ltb_lt.
    by eapply Hpos, (proj1 Hr). }
  assert (length (sorted_set taken) = length taken) as Hlen.
  { unfold sorted_set. by rewrite ssort_perm, remove_dups_id. }
  assert (length taken = limit `min` length w)%nat as Hlw by (unfold taken; by rewrite length_map, length_take).
  rewrite Hlen, Hlw. split_and!; [lia|apply sorted_set_NoDup|..].
  - intros i Hi. rewrite sorted_set_elem in Hi. pose proof (proj1 (Htk i) Hi) as [r Hr].
    apply Htake, waiting_elem in Hr as (Hr & Hd & Hl). exists r. split_and!; [done..| |].
    + rewrite Ht', Hr, decide_True by done. done.
    + intros now' Hlt. unfold dispatchable, claim_free. cbn. rewrite (proj2 (Z.leb_gt _ _) Hlt).
      by rewrite andb_false_r.
  - intros k Hk. rewrite Ht', decide_False; [by destruct (t !! k)|].
    intros [Hs Hin]. apply Hk. by rewrite sorted_set_elem.
  - intros i r Hr Hd Hl Hni. rewrite sorted_set_elem in Hni.
    assert ((i, r) ∈ w) as Hw by by apply waiting_elem.
    rewrite <- (take_drop limit w) in Hw. apply elem_of_app in Hw as [Hw|Hw]; [exfalso; apply Hni, Htk; by exists r|].
    assert (limit < length w)%nat as Hlim.
    { destruct (Nat.le_gt_cases (length w) limit); [|done]. rewrite drop_ge in Hw by done. by apply elem_of_nil in Hw. }
    split; [lia|]. intros j rj Hj Hrj. rewrite sorted_set_elem in Hj.
    apply Htk in Hj as [rj' Hj]. assert (rj' = rj) as -> by (apply Htake, waiting_elem in Hj as (Hj' & _); congruence).
    pose proof (waiting_sorted now s locked t) as Hs. fold w in Hs. rewrite <- (take_drop limit w) in Hs.
    exact (StronglySorted_app_1_elem_of _ _ _ _ _ Hs Hj Hw).
Qed.
End State.

(** ** Concrete histories *)

Definition demo_config : RebuildConfig := {| _PENDING_STALE_SEC := 900; _DISPATCH_CLAIM_TTL_SEC := 120 |}.

Section Demo.
#[local] Existing Instance demo_config.

(** A request arrives while the rebuild of the first one runs: the row is pending again. *)
Definition demo_events : list event :=
  [Request 0 0 "client" 4 0; Claim 1 "client" 10 [] "w1" None; Request 5 5 "client" 4 0;
   Complete 9 "client" 4 1; Claim 10 "client" 10 [] "w1" None; Complete 20 "client" 4 2].
Definition demo_row : rrow := mkRRow false 2 20 20 None None 5.
Lemma demo_history : history demo_events !! ("client", 4) = Some demo_row.
Proof. vm_compute. reflexivity. Qed.
Lemma no_request_is_lost_witness :
  rr_generation demo_row = times_requested ("client", 4) demo_events ∧
  (rr_pending demo_row = false → ∃ ev start, ev ∈ demo_events ∧
     completes ("client", 4) ev = Some start ∧ times_requested ("client", 4) demo_events <= start).
Proof. exact (no_request_is_lost demo_events ("client", 4) demo_row demo_history). Defined.

Definition demo_table : rtable := history (take 1 demo_events).
Lemma demo_table_pos i r : demo_table !! ("client", i) = Some r → 0 < i.
Proof.
  replace demo_table with (<[("client", 4) := enqueued 0 (idle_row 0)]> (∅ : rtable)) by by vm_compute.
  destruct (decide (i = 4)) as [->|Hne]; [lia|]. rewrite lookup_insert_ne by congruence. done.
Qed.
Lemma claims_are_exclusive_and_fair_witness :
  ∃ ids t',
    claim_dispatchable_scope_ids 1 "client" 10 [] "w1" None demo_table = (Ok ids, t') ∧
    (length ids ≤ 10)%nat ∧ NoDup ids ∧
    (∀ i, i ∈ ids → ∃ r, demo_table !! ("client", i) = Some r ∧ dispatchable 1 r = true ∧ (i ∉ []) ∧
       t' !! ("client", i) = Some (claimed 1 (claim_ttl None) "w1" r) ∧
       ∀ now', now' < 1 + claim_ttl None →
         dispatchable now' (claimed 1 (claim_ttl None) "w1" r) = false) ∧
    (∀ k, ¬ (k.1 = "client" ∧ k.2 ∈ ids) → t' !! k = demo_table !! k) ∧
    (∀ i r, demo_table !! ("client", i) = Some r → dispatchable 1 r = true → i ∉ [] → i ∉ ids →
       length ids = 10%nat ∧
       ∀ j rj, j ∈ ids → demo_table !! ("client", j) = Some rj → dispatch_leb (j, rj) (i, r) = true).
Proof. exact (claims_are_exclusive_and_fair 1 "client" 10 [] "w1" None demo_table demo_table_pos). Defined.
Example demo_claim :
  (claim_dispatchable_scope_ids 1 "client" 10 [] "w1" None demo_table).1 = Ok [4].
Proof. vm_compute. reflexivity. Qed.
End Demo.
