(* ===== verification/WorkLease.v ===== *)
(** * Tenant work leases and the fair scheduler

    Models src/core/data/tenant_work_lease.py (the table [tenant_work_lease], one row per task
    name, agency and stream) and the scheduling of src/server/services/match_all_scheduler.py.
    [now] is the time of a transaction.  Clients reach the leases through [StreamLeases]. *)

From S2P Require Import Prelude PyValue.
Local Open Scope Z_scope.

(** A stream: task name, agency, stream key. *)
Abbreviation stream := (string * Z * string)%type.

(** ** What the lease table offers to its clients *)

Class StreamLeases (T : Type) := {
  sl_reserve : Z → stream → string → Z → Z → M T (option string * bool);
  sl_assign : Z → stream → string → string → Z → M T unit;
  sl_release : Z → stream → string → M T unit;
  sl_clear : Z → stream → M T unit
}.

(** What it promises: a stream has at most one owner; a reservation is granted only on a stream
    without owner, and otherwise names the owner; a release takes the slot only from the owner it
    names; every other stream is untouched. *)
Class StreamLeaseLaws (T : Type) `{StreamLeases T} := {
  sl_ok : T → Prop;
  sl_owner : T → stream → option string;
  sl_reserve_law now k o seconds limit t :
    sl_ok t → clean o →
    ∃ r t', sl_reserve now k o seconds limit t = (Ok r, t') ∧ sl_ok t' ∧
      (∀ k', k' ≠ k → sl_owner t' k' = sl_owner t k') ∧
      match sl_owner t k with
      | Some p => r = (Some p, false) ∧ sl_owner t' k = Some p
      | None => r = (None, true) ∧ sl_owner t' k = Some o ∨ r = (None, false) ∧ sl_owner t' k = None
      end;
  sl_assign_law now k o o' seconds t :
    sl_ok t → clean o' →
    ∃ t', sl_assign now k o o' seconds t = (Ok tt, t') ∧ sl_ok t' ∧
      (∀ k', k' ≠ k → sl_owner t' k' = sl_owner t k') ∧
      sl_owner t' k = if decide (sl_owner t k = Some o) then Some o' else sl_owner t k;
  sl_release_law now k o t :
    sl_ok t →
    ∃ t', sl_release now k o t = (Ok tt, t') ∧ sl_ok t' ∧
      (∀ k', k' ≠ k → sl_owner t' k' = sl_owner t k') ∧
      sl_owner t' k = if decide (sl_owner t k = Some o) then None else sl_owner t k;
  sl_clear_law now k t :
    sl_ok t →
    ∃ t', sl_clear now k t = (Ok tt, t') ∧ sl_ok t' ∧
      (∀ k', k' ≠ k → sl_owner t' k' = sl_owner t k') ∧ sl_owner t' k = None
}.

(** ** The table *)

Record lease := mkLease {
  l_in_flight : Z;
  l_owner : option string;
  l_until : option Z;
  l_attempt : Z;
  l_updated : Z
}.
Abbreviation ltable := (gmap stream lease).
Abbreviation LM := (M ltable).

(* src/core/data/tenant_work_lease.py :: _ensure_row *)
Definition _ensure_row (now : Z) (k : stream) : LM unit :=
  modify (λ t : ltable, match t !! k with Some _ => t | None => <[k := mkLease 0 None None 0 now]> t end).

(** [in_flight > 0 AND lease_until IS NOT NULL AND lease_until > NOW()] *)
Definition lease_live (now : Z) (l : lease) : bool :=
  (0 <? l_in_flight l) && match l_until l with Some u => now <? u | None => false end.
Definition same_tenant (k : stream) (kl : stream * lease) : bool :=
  bool_decide (kl.1.1.1 = k.1.1) && bool_decide (kl.1.1.2 = k.1.2).
Definition live_rows (now : Z) (k : stream) (t : ltable) : list (stream * lease) :=
  List.filter (λ kl, same_tenant k kl && lease_live now kl.2) (map_to_list t).
Definition sum_in_flight (l : list (stream * lease)) : Z :=
  foldr (λ kl n, l_in_flight kl.2 + n) 0 l.

Definition touch (now : Z) (l : lease) : lease :=
  mkLease (l_in_flight l) (l_owner l) (l_until l) (l_attempt l) now.
Definition freed (now : Z) (l : lease) : lease := mkLease 0 None None (l_attempt l) now.
(** [UPDATE ... WHERE task_name = .. AND agency_id = .. AND stream_key = ..] *)
Definition update_stream (k : stream) (f : lease → lease) : LM unit := modify (alter f k).

(* src/core/data/tenant_work_lease.py :: reserve_stream_slot *)
Definition reserve_stream_slot (now : Z) (k : stream) (provisional_owner : string)
    (lease_seconds max_in_flight : Z) : LM (option string * bool) :=
  do! _ensure_row now k in
  let! active_rows := gets (live_rows now k) in
  let active_in_flight := sum_in_flight active_rows in
  let! row := gets (λ t : ltable, t !! k) in
  match row with
  | None => ret (None, false)
  | Some r =>
      let lease_owner := match l_owner r with
                         | Some o => if str_empty (strip o) then None else Some (strip o)
                         | None => None
                         end in
      match lease_owner, l_until r, 0 <? l_in_flight r with
      | Some o, Some _, true => do! update_stream k (touch now) in ret (Some o, false)
      | _, _, _ =>
          if Z.max 1 max_in_flight <=? active_in_flight then ret (None, false)
          else
            do! update_stream k (λ l, mkLease (l_in_flight l + 1) (Some provisional_owner)
                   (Some (now + Z.max 1 lease_seconds)) (l_attempt l + 1) now) in
            ret (None, true)
      end
  end.

(** [... AND lease_owner = o] *)
Definition when_owner (o : string) (f : lease → lease) (l : lease) : lease :=
  if bool_decide (l_owner l = Some o) then f l else l.

(* src/core/data/tenant_work_lease.py :: assign_stream_owner *)
Definition assign_stream_owner (now : Z) (k : stream) (from_owner to_owner : string)
    (lease_seconds : Z) : LM unit :=
  update_stream k (when_owner from_owner (λ l,
    mkLease (l_in_flight l) (Some to_owner) (Some (now + Z.max 1 lease_seconds)) (l_attempt l) now)).
(* src/core/data/tenant_work_lease.py :: release_stream_slot *)
Definition release_stream_slot (now : Z) (k : stream) (lease_owner : string) : LM unit :=
  update_stream k (when_owner lease_owner (freed now)).
(* src/core/data/tenant_work_lease.py :: clear_stream_slot *)
Definition clear_stream_slot (now : Z) (k : stream) : LM unit := update_stream k (freed now).

#[export] Instance table_leases : StreamLeases ltable := {
  sl_reserve := reserve_stream_slot;
  sl_assign := assign_stream_owner;
  sl_release := release_stream_slot;
  sl_clear := clear_stream_slot
}.

(** ** The scheduler *)

(* src/server/services/match_all_scheduler.py :: ACTIVE_STATES *)
Definition ACTIVE_STATES : list string := ["PENDING"; "RECEIVED"; "STARTED"; "RETRY"].

Inductive ScheduleStatus : Type := scheduled | coalesced | backpressure | failed.
(* src/server/services/match_all_scheduler.py :: ScheduleResult *)
Record ScheduleResult := mkSchedule {
  sr_status : ScheduleStatus;
  sr_task_id : option string;
  sr_state : option string
}.

(** The pressure readings [resolve_dynamic_max_in_flight] takes: the environment, the hub's
    background job limit, the active tenants ([None] when the query fails) and the profile. *)
Record pressure := mkPressure {
  p_environ : list (string * string);
  p_max_background_jobs : Z;
  p_active_tenants : option Z;
  p_profile : string
}.
(** [_parse_env] of [resolve_dynamic_max_in_flight], and [_env_int] of rebuild_leases.py. *)
(* src/server/services/rebuild_leases.py :: _env_int *)
Definition _env_int (env : list (string * string)) (name : string) (dflt min_v max_v : Z) : Z :=
  let raw := strip (default EmptyString (dget name env)) in
  if str_empty raw then dflt
  else match parse_int raw with Some v => Z.max min_v (Z.min max_v v) | None => dflt end.

(* src/server/services/match_all_scheduler.py :: resolve_dynamic_max_in_flight *)
Definition resolve_dynamic_max_in_flight (p : pressure) (default_limit : Z) : Z :=
  let floor := _env_int (p_environ p) "IMMOAPP_MATCH_ALL_MIN_IN_FLIGHT" (Z.max 1 default_limit) 1 32 in
  let cap := _env_int (p_environ p) "IMMOAPP_MATCH_ALL_MAX_IN_FLIGHT_CAP" 4 1 64 in
  let default_slots := Z.max 1 (p_max_background_jobs p) in
  let global_slots := _env_int (p_environ p) "IMMOAPP_MATCH_ALL_GLOBAL_SLOT_BUDGET" default_slots 1 128 in
  if cap <=? floor then floor
  else
    match p_active_tenants p with
    | None => Z.max floor (Z.min cap default_limit)
    | Some active_tenants =>
        let computed :=
          if active_tenants <=? 0 then Z.max floor (Z.min cap global_slots)
          else Z.max floor (Z.min cap (Z.max 1 (global_slots / active_tenants))) in
        let computed := Z.min computed (p_max_background_jobs p) in
        if bool_decide (p_profile p = "red") then 1
        else if bool_decide (p_profile p = "yellow") then Z.max 1 (computed / 2)
        else computed
    end.

Section Scheduler.
Context {T : Type} `{StreamLeases T}.
(** [AsyncResult(id).status] at each of the two readings, and the id of the launched task. *)
Variables (status1 status2 : string → string) (launched : option string).

(** The end of the call, once it is known whether the slot was reserved. *)
Definition launch_reserved (n4 : Z) (pending : string) (k : stream) (lease_seconds : Z) (reserved : bool)
  : M T ScheduleResult :=
  if negb reserved then ret (mkSchedule backpressure None None)
  else
    let task_id := strip (default EmptyString launched) in
    if str_empty task_id then
      do! sl_release n4 k pending in ret (mkSchedule failed None None)
    else
      do! sl_assign n4 k pending task_id lease_seconds in
      ret (mkSchedule scheduled (Some task_id) None).

(** [pending] is the owner built from a fresh uuid; the transactions run at [n1], [n2], ... *)
(* src/server/services/match_all_scheduler.py :: schedule_tenant_fair_task *)
Definition schedule_tenant_fair_task (n1 n2 n3 n4 : Z) (pending : string) (k : stream)
    (lease_seconds max_in_flight : Z) : M T ScheduleResult :=
  let! (active_task_id, reserved) := sl_reserve n1 k pending lease_seconds max_in_flight in
  match active_task_id with
  | Some a =>
      if bool_decide (status1 a ∈ ACTIVE_STATES) then ret (mkSchedule coalesced (Some a) (Some (status1 a)))
      else
        do! sl_release n2 k a in
        let! (active_task_id, reserved) := sl_reserve n3 k pending lease_seconds max_in_flight in
        match active_task_id with
        | Some b => ret (mkSchedule coalesced (Some b) (Some (status2 b)))
        | None => launch_reserved n4 pending k lease_seconds reserved
        end
  | None => launch_reserved n4 pending k lease_seconds reserved
  end.
End Scheduler.
