(* ===== verification/WorkLeaseProps.v ===== *)
(** * One owner per stream, bounded work per tenant *)

From S2P Require Import Prelude PyValue WorkLease.
Local Open Scope Z_scope.

(** ** The table's invariant *)

(** A row is free, or holds one task with its owner and the end of its lease. *)
Definition slot_ok (l : lease) : Prop :=
  l_in_flight l = 0 ∧ l_owner l = None ∧ l_until l = None ∨
  l_in_flight l = 1 ∧ (∃ o, l_owner l = Some o ∧ clean o) ∧ is_Some (l_until l).
Definition leases_ok (t : ltable) : Prop := map_Forall (λ _ l, slot_ok l) t.
Definition owner_in (t : ltable) (k : stream) : option string := t !! k ≫= l_owner.

Lemma leases_ok_insert k l t : slot_ok l → leases_ok t → leases_ok (<[k := l]> t).
Proof. intros Hl Ht. by apply map_Forall_insert_2. Qed.
Lemma leases_ok_alter f k t :
  (∀ l, t !! k = Some l → slot_ok l → slot_ok (f l)) → leases_ok t → leases_ok (alter f k t).
Proof.
  intros Hf Ht k' l Hl. destruct (decide (k' = k)) as [->|Hne].
  - rewrite lookup_alter_eq in Hl. destruct (t !! k) as [l0|] eqn:E; [|done]. cbn in Hl.
    injection Hl as <-. apply Hf; [done|]. by eapply Ht.
  - rewrite lookup_alter_ne in Hl by done. by eapply Ht.
Qed.
Lemma owner_alter_ne f k k' t : k' ≠ k → owner_in (alter f k t) k' = owner_in t k'.
Proof. intros Hne. unfold owner_in. by rewrite lookup_alter_ne. Qed.
Lemma owner_alter f k t : owner_in (alter f k t) k = (f <$> t !! k) ≫= l_owner.
Proof. unfold owner_in. by rewrite lookup_alter_eq. Qed.

Definition ensured (now : Z) (k : stream) (t : ltable) : ltable :=
  match t !! k with Some _ => t | None => <[k := mkLease 0 None None 0 now]> t end.
Definition row_at (now : Z) (k : stream) (t : ltable) : lease :=
  default (mkLease 0 None None 0 now) (t !! k).
Lemma ensured_lookup now k t k' :
  ensured now k t !! k' = if decide (k' = k) then Some (row_at now k t) else t !! k'.
Proof.
  unfold ensured, row_at. case_decide as Hk.
  - subst. destruct (t !! k) eqn:E; [done|]. by rewrite lookup_insert_eq.
  - destruct (t !! k); [done|]. by rewrite lookup_insert_ne.
Qed.
Lemma ensured_ok now k t : leases_ok t → leases_ok (ensured now k t).
Proof.
  intros Ht. unfold ensured. destruct (t !! k); [done|]. apply leases_ok_insert; [by left|done].
Qed.

(** What a reservation does, by the state of the row. *)
Definition reserved_row (now : Z) (o : string) (seconds : Z) (l : lease) : lease :=
  mkLease (l_in_flight l + 1) (Some o) (Some (now + Z.max 1 seconds)) (l_attempt l + 1) now.
Definition busy (now : Z) (k : stream) (limit : Z) (t : ltable) : bool :=
  Z.max 1 limit <=? sum_in_flight (live_rows now k t).

Lemma reserve_run now k o seconds limit t :
  leases_ok t →
  reserve_stream_slot now k o seconds limit t =
  match owner_in t k with
  | Some p => (Ok (Some p, false), alter (touch now) k (ensured now k t))
  | None => if busy now k limit (ensured now k t) then (Ok (None, false), ensured now k t)
            else (Ok (None, true), alter (reserved_row now o seconds) k (ensured now k t))
  end.
Proof.
  intros Ht. unfold reserve_stream_slot, _ensure_row. rewrite bind_modify, !bind_gets.
  fold (ensured now k t). rewrite ensured_lookup, decide_True by done.
  assert (slot_ok (row_at now k t)) as Hr.
  { unfold row_at. destruct (t !! k) eqn:E; [by eapply Ht|by left]. }
  assert (owner_in t k = l_owner (row_at now k t)) as ->.
  { unfold owner_in, row_at. by destruct (t !! k). }
  destruct Hr as [(E1 & E2 & E3)|(E1 & (p & E2 & Hp) & (u & E3))]; rewrite E2.
  - unfold busy. by destruct (_ <=? _).
  - rewrite E3, E1, (proj2 Hp), (clean_not_empty p) by done. done.
Qed.

Lemma reserve_law now k o seconds limit t :
  leases_ok t → clean o →
  ∃ r t', reserve_stream_slot now k o seconds limit t = (Ok r, t') ∧ leases_ok t' ∧
    (∀ k', k' ≠ k → owner_in t' k' = owner_in t k') ∧
    match owner_in t k with
    | Some p => r = (Some p, false) ∧ owner_in t' k = Some p
    | None => r = (None, true) ∧ owner_in t' k = Some o ∨ r = (None, false) ∧ owner_in t' k = None
    end.
Proof.
  intros Hok Ho. rewrite reserve_run by done.
  pose proof (ensured_ok now k t Hok) as Hok'.
  assert (∀ k', k' ≠ k → owner_in (ensured now k t) k' = owner_in t k') as Hother.
  { intros k' Hne. unfold owner_in. by rewrite ensured_lookup, decide_False. }
  assert (owner_in (ensured now k t) k = owner_in t k) as Hsame.
  { unfold owner_in, row_at. rewrite ensured_lookup, decide_True by done. unfold row_at.
    by destruct (t !! k). }
  destruct (owner_in t k) as [p|] eqn:E; [|destruct (busy _ _ _ _)]; eexists _, _; (split; [done|]).
  - split_and!; [by apply leases_ok_alter| |done|].
    + intros k' Hne. rewrite owner_alter_ne by done. by apply Hother.
    + rewrite owner_alter. rewrite <- Hsame. unfold owner_in. by destruct (ensured now k t !! k).
  - split_and!; [done..|]. right. split; [done|]. congruence.
  - split_and!.
    + apply leases_ok_alter; [|done]. intros l Hl Hslot. right. cbn.
      split_and!; [|by eexists|by eexists].
      unfold owner_in in Hsame. rewrite Hl in Hsame. cbn in Hsame.
      destruct Hslot as [(-> & _)|(_ & (q & Eq & _) & _)]; [done|congruence].
    + intros k' Hne. rewrite owner_alter_ne by done. by apply Hother.
    + left. split; [done|]. rewrite owner_alter, ensured_lookup, decide_True by done. done.
Qed.
Lemma assign_law now k o o' seconds t :
  leases_ok t → clean o' →
  ∃ t', assign_stream_owner now k o o' seconds t = (Ok tt, t') ∧ leases_ok t' ∧
    (∀ k', k' ≠ k → owner_in t' k' = owner_in t k') ∧
    owner_in t' k = if decide (owner_in t k = Some o) then Some o' else owner_in t k.
Proof.
  intros Hok Ho. eexists. split; [done|]. split_and!.
  - apply leases_ok_alter; [|done]. intros l _ Hl. unfold when_owner. case_bool_decide as E; [|done].
    right. destruct Hl as [(_ & En & _)|(Hi & _ & Hu)]; [congruence|]. cbn. split_and!; by eauto.
  - intros k' Hne. by apply owner_alter_ne.
  - rewrite owner_alter. unfold owner_in. destruct (t !! k) as [l|]; cbn; [|by rewrite decide_False].
    unfold when_owner. case_bool_decide as E; [by rewrite decide_True|by rewrite decide_False].
Qed.
Lemma release_law now k o t :
  leases_ok t →
  ∃ t', release_stream_slot now k o t = (Ok tt, t') ∧ leases_ok t' ∧
    (∀ k', k' ≠ k → owner_in t' k' = owner_in t k') ∧
    owner_in t' k = if decide (owner_in t k = Some o) then None else owner_in t k.
Proof.
  intros Hok. eexists. split; [done|]. split_and!.
  - apply leases_ok_alter; [|done]. intros l _ Hl. unfold when_owner. case_bool_decide; [by left|done].
  - intros k' Hne. by apply owner_alter_ne.
  - rewrite owner_alter. unfold owner_in. destruct (t !! k) as [l|]; cbn; [|by rewrite decide_False].
    unfold when_owner. case_bool_decide as E; [by rewrite decide_True|by rewrite decide_False].
Qed.
Lemma clear_law now k t :
  leases_ok t →
  ∃ t', clear_stream_slot now k t = (Ok tt, t') ∧ leases_ok t' ∧
    (∀ k', k' ≠ k → owner_in t' k' = owner_in t k') ∧ owner_in t' k = None.
Proof.
  intros Hok. eexists. split; [done|]. split_and!.
  - apply leases_ok_alter; [|done]. by left.
  - intros k' Hne. by apply owner_alter_ne.
  - rewrite owner_alter. by destruct (t !! k).
Qed.

#[export] Instance table_lease_laws : StreamLeaseLaws ltable := {|
  sl_ok := leases_ok;
  sl_owner := owner_in;
  sl_reserve_law := reserve_law;
  sl_assign_law := assign_law;
  sl_release_law := release_law;
  sl_clear_law := clear_law
|}.

(** ** The scheduler, against the interface *)

Section Scheduler.
Context {T : Type} `{StreamLeaseLaws T}.
Variables (status1 status2 : string → string) (launched : option string).

Definition launched_id : string := strip (default EmptyString launched).
Definition idle (k : stream) (t : T) : Prop :=
  match sl_owner t k with Some a => status1 a ∉ ACTIVE_STATES | None => True end.

(** What each answer says of the stream before and after. *)
Definition schedule_meaning (k : stream) (t t' : T) (r : ScheduleResult) : Prop :=
  match sr_status r with
  | scheduled => idle k t ∧ sr_task_id r = Some launched_id ∧ clean launched_id ∧
                 sl_owner t' k = Some launched_id
  | coalesced => ∃ a, sl_owner t k = Some a ∧ status1 a ∈ ACTIVE_STATES ∧
                      sr_task_id r = Some a ∧ sr_state r = Some (status1 a) ∧ sl_owner t' k = Some a
  | backpressure => idle k t ∧ sr_task_id r = None ∧ sl_owner t' k = None
  | failed => idle k t ∧ sr_task_id r = None ∧ launched_id = EmptyString ∧ sl_owner t' k = None
  end.

(** What scheduling a task does to its stream.  The call always answers; it answers
    [coalesced], with the task that owns the stream, exactly when that task is in an active state,
    and then launches nothing; a stream without owner, or whose owner is no longer active, is
    either given to the launched task ([scheduled]), or left without owner when the agency is at
    its limit ([backpressure]) or the launch gave no id ([failed]).  No other stream changes.
    Proved for every lease table that keeps the promises of [StreamLeaseLaws]. *)
Theorem schedule_outcomes n1 n2 n3 n4 pending k seconds limit t :
  sl_ok t → clean pending →
  ∃ r t',
    schedule_tenant_fair_task status1 status2 launched n1 n2 n3 n4 pending k seconds limit t = (Ok r, t') ∧
    sl_ok t' ∧ (∀ k', k' ≠ k → sl_owner t' k' = sl_owner t k') ∧ schedule_meaning k t t' r.
Proof.
  intros Hok Hp. unfold schedule_tenant_fair_task.
  assert (∀ (b : bool) (t1 : T), sl_ok t1 → (∀ k', k' ≠ k → sl_owner t1 k' = sl_owner t k') → idle k t →
    sl_owner t1 k = (if b then Some pending else None) →
    ∃ r t', launch_reserved launched n4 pending k seconds b t1 = (Ok r, t') ∧ sl_ok t' ∧
      (∀ k', k' ≠ k → sl_owner t' k' = sl_owner t k') ∧ schedule_meaning k t t' r) as Hfin.
  { intros b t1 Hok1 Hoth Hidle Hown. unfold launch_reserved. destruct b; cbn [negb].
    - destruct (str_empty (strip (default EmptyString launched))) eqn:El.
      + destruct (sl_release_law n4 k pending t1 Hok1) as (t' & E & Hok' & Hoth' & Hk).
        rewrite (bind_ok _ _ _ _ _ E). eexists _, t'. split; [done|]. split_and!; [done| |].
        * intros k' Hne. by rewrite Hoth', Hoth.
        * rewrite Hown, decide_True in Hk by done. cbn. split_and!; [done..| |done].
          unfold launched_id. by destruct (strip _).
      + pose proof (clean_strip _ El) as Hcl.
        destruct (sl_assign_law n4 k pending launched_id seconds t1 Hok1 Hcl) as (t' & E & Hok' & Hoth' & Hk).
        unfold launched_id in E. rewrite (bind_ok _ _ _ _ _ E). eexists _, t'. split; [done|].
        split_and!; [done| |].
        * intros k' Hne. by rewrite Hoth', Hoth.
        * rewrite Hown, decide_True in Hk by done. done.
    - eexists _, t1. split; [done|]. done. }
  destruct (sl_reserve_law n1 k pending seconds limit t Hok Hp) as (r1 & t1 & E1 & Hok1 & Hoth1 & Hr1).
  rewrite (bind_ok _ _ _ _ _ E1). destruct (sl_owner t k) as [a|] eqn:Eo.
  - destruct Hr1 as [-> Hown1]. case_bool_decide as Ha.
    + eexists _, t1. split; [done|]. split_and!; [done..|]. cbn. exists a. done.
    + destruct (sl_release_law n2 k a t1 Hok1) as (t2 & E2 & Hok2 & Hoth2 & Hk2).
      rewrite (bind_ok _ _ _ _ _ E2). rewrite Hown1, decide_True in Hk2 by done.
      destruct (sl_reserve_law n3 k pending seconds limit t2 Hok2 Hp) as (r3 & t3 & E3 & Hok3 & Hoth3 & Hr3).
      rewrite (bind_ok _ _ _ _ _ E3). rewrite Hk2 in Hr3.
      assert (idle k t) as Hidle by (unfold idle; by rewrite Eo).
      assert (∀ k', k' ≠ k → sl_owner t3 k' = sl_owner t k') as Hoth
        by (intros k' Hne; by rewrite Hoth3, Hoth2, Hoth1).
      destruct Hr3 as [[-> Hk3]|[-> Hk3]]; by apply Hfin.
  - assert (idle k t) as Hidle by (unfold idle; by rewrite Eo).
    destruct Hr1 as [[-> Hk1]|[-> Hk1]]; by apply Hfin.
Qed.
End Scheduler.

(** ** Capacity *)

Definition flag (b : bool) : nat := if b then 1 else 0.
Lemma filter_perm_length {A} (p : A → bool) l1 l2 :
  l1 ≡ₚ l2 → length (List.filter p l1) = length (List.filter p l2).
Proof.
  induction 1 as [|x l1 l2 _ IH|x y l|l1 l2 l3 _ IH1 _ IH2]; cbn; [done| | |lia].
  - by destruct (p x); cbn; rewrite IH.
  - by destruct (p x), (p y).
Qed.
Lemma count_delete (p : stream * lease → bool) (k : stream) (t : ltable) :
  length (List.filter p (map_to_list t))
  = (match t !! k with Some l => flag (p (k, l)) | None => 0%nat end
     + length (List.filter p (map_to_list (delete k t))))%nat.
Proof.
  destruct (t !! k) as [l|] eqn:E.
  - rewrite (filter_perm_length p _ _ (symmetry (map_to_list_delete t k l E))). cbn.
    by destruct (p (k, l)).
  - by rewrite delete_id.
Qed.
Lemma count_insert (p : stream * lease → bool) (k : stream) (l : lease) (t : ltable) :
  length (List.filter p (map_to_list (<[k := l]> t)))
  = (flag (p (k, l)) + length (List.filter p (map_to_list (delete k t))))%nat.
Proof. by rewrite (count_delete p k), lookup_insert_eq, delete_insert_eq. Qed.

(** The number of live leases of the tenant of [k]. *)
Definition live_count (now : Z) (k : stream) (t : ltable) : nat := length (live_rows now k t).
Definition counts (now : Z) (k : stream) (kl : stream * lease) : bool :=
  same_tenant k kl && lease_live now kl.2.

Lemma sum_is_count now k t : leases_ok t → sum_in_flight (live_rows now k t) = Z.of_nat (live_count now k t).
Proof.
  intros Hok. unfold live_count, live_rows.
  assert (Forall (λ kl : stream * lease, slot_ok kl.2) (map_to_list t)) as Hall.
  { apply Forall_forall. intros [k' l] Hin%elem_of_map_to_list. by apply (Hok k'). }
  unfold sum_in_flight in *. induction Hall as [|[k' l] rows Hl Hrows IH]; [done|]. cbn [List.filter snd].
  destruct (same_tenant k (k', l)); cbn [andb]; [|exact IH].
  destruct (lease_live now l) eqn:El; [|exact IH]. cbn [foldr length snd]. rewrite IH.
  destruct Hl as [(Hi & _)|(Hi & _)]; cbn in Hi; [|lia].
  unfold lease_live in El. by rewrite Hi in El.
Qed.

(** Changing a row of the table changes the count by that row alone. *)
Lemma count_alter now k k' f t :
  live_count now k (alter f k' t)
  = match t !! k' with
    | Some l => (flag (counts now k (k', f l)) + live_count now k (delete k' t))%nat
    | None => live_count now k t
    end.
Proof.
  unfold live_count, live_rows. fold (counts now k). destruct (t !! k') as [l|] eqn:E.
  - assert (alter f k' t = <[k' := f l]> t) as ->; [|apply count_insert]. apply map_eq. intros j.
    destruct (decide (j = k')) as [->|Hne].
    + by rewrite lookup_alter_eq, lookup_insert_eq, E.
    + by rewrite lookup_alter_ne, lookup_insert_ne.
  - assert (alter f k' t = t) as ->; [|done]. apply map_eq. intros j.
    destruct (decide (j = k')) as [->|Hne]; [by rewrite lookup_alter_eq, E|by rewrite lookup_alter_ne].
Qed.
Lemma count_split now k k' t :
  live_count now k t
  = (match t !! k' with Some l => flag (counts now k (k', l)) | None => 0 end
     + live_count now k (delete k' t))%nat.
Proof. apply count_delete. Qed.

(** A row that is not live afterwards, or that was live already, adds nothing. *)
Lemma count_alter_le now k k' f t :
  (∀ l, t !! k' = Some l → lease_live now (f l) = true → lease_live now l = true) →
  (live_count now k (alter f k' t) ≤ live_count now k t)%nat.
Proof.
  intros Hf. rewrite count_alter, (count_split now k k' t).
  destruct (t !! k') as [l|]; [|lia]. specialize (Hf l eq_refl).
  unfold counts. cbn [snd]. change (same_tenant k (k', f l)) with (same_tenant k (k', l)).
  destruct (same_tenant k (k', l)), (lease_live now (f l)), (lease_live now l); cbn; try lia;
    by specialize (Hf eq_refl).
Qed.
(** A row of another tenant adds nothing, any other row at most one. *)
Lemma count_alter_succ now k k' f t :
  (live_count now k (alter f k' t)
   ≤ flag (bool_decide (k'.1.1 = k.1.1) && bool_decide (k'.1.2 = k.1.2)) + live_count now k t)%nat.
Proof.
  rewrite count_alter, (count_split now k k' t). destruct (t !! k') as [l|]; [|lia].
  unfold counts, same_tenant. cbn [fst snd].
  destruct (bool_decide (k'.1.1 = k.1.1) && bool_decide (k'.1.2 = k.1.2)); cbn [andb flag]; [|lia].
  destruct (lease_live now (f l)), (lease_live now l); cbn; lia.
Qed.
Lemma count_later now now' k t : now <= now' → (live_count now' k t ≤ live_count now k t)%nat.
Proof.
  intros Hle. unfold live_count, live_rows. induction (map_to_list t) as [|[k' l] rows IH]; [done|].
  cbn -[lease_live]. destruct (same_tenant k (k', l)); cbn -[lease_live]; [|done].
  assert (lease_live now' l = true → lease_live now l = true) as Hl.
  { unfold lease_live. destruct (0 <? l_in_flight l), (l_until l); cbn; try done.
    rewrite !Z.ltb_lt. lia. }
  destruct (lease_live now' l), (lease_live now l); cbn; try lia; by specialize (Hl eq_refl).
Qed.
Lemma count_same_tenant now k k' t : k.1 = k'.1 → live_count now k t = live_count now k' t.
Proof. intros Hk. unfold live_count, live_rows, same_tenant. by rewrite Hk. Qed.
Lemma ensured_count now k k' t : live_count now k (ensured now k' t) = live_count now k t.
Proof.
  unfold ensured. destruct (t !! k') eqn:E; [done|]. unfold live_count, live_rows. fold (counts now k).
  rewrite count_insert, (delete_id t k' E). unfold counts. cbn. by rewrite andb_false_r.
Qed.

(** ** Any number of workers *)

(** The tables that reservations with one limit, assignments made before the lease ends, releases
    and clears can reach, with the time of the last one. *)
Inductive reached (limit : Z) : Z → ltable → Prop :=
  | re_empty now : reached limit now ∅
  | re_later now now' t : reached limit now t → now <= now' → reached limit now' t
  | re_reserve now k o seconds t :
      reached limit now t → clean o → reached limit now (reserve_stream_slot now k o seconds limit t).2
  | re_assign now k o o' seconds t :
      reached limit now t → clean o' →
      (∀ l, t !! k = Some l → l_owner l = Some o → lease_live now l = true) →
      reached limit now (assign_stream_owner now k o o' seconds t).2
  | re_release now k o t : reached limit now t → reached limit now (release_stream_slot now k o t).2
  | re_clear now k t : reached limit now t → reached limit now (clear_stream_slot now k t).2.

Lemma reached_ok limit now t : reached limit now t → leases_ok t.
Proof.
  induction 1 as [now|now now' t _ IH _|now k o s t _ IH Ho|now k o o' s t _ IH Ho _|now k o t _ IH|now k t _ IH];
    [done|done|..].
  - destruct (reserve_law now k o s limit t IH Ho) as (r & t' & E & ? & _). by rewrite E.
  - destruct (assign_law now k o o' s t IH Ho) as (t' & E & ? & _). by rewrite E.
  - destruct (release_law now k o t IH) as (t' & E & ? & _). by rewrite E.
  - destruct (clear_law now k t IH) as (t' & E & ? & _). by rewrite E.
Qed.


(** ** The dynamic limit *)

Lemma env_int_bounds env name d lo hi :
  lo <= hi → _env_int env name d lo hi = d ∨ lo <= _env_int env name d lo hi <= hi.
Proof.
  intros Hle. unfold _env_int. destruct (str_empty _); [by left|]. destruct (parse_int _); [|by left].
  right. lia.
Qed.

Lemma half_bounds c : c <= 64 → 1 <= Z.max 1 (c / 2) <= 64.
Proof. intros Hc. pose proof (Z.div_le_upper_bound c 2 64). lia. Qed.

(** The dynamic limit is never zero and never above the larger of its floor and its cap: for
    a hub that allows a background job, and a default limit up to 32, it is between 1 and 64; a
    red profile brings it to 1 whenever the floor is below the cap and the tenants could be
    counted. *)
Theorem dynamic_limit_bounds p d :
  1 <= p_max_background_jobs p → d <= 32 →
  1 <= resolve_dynamic_max_in_flight p d <= 64 ∧
  (_env_int (p_environ p) "IMMOAPP_MATCH_ALL_MIN_IN_FLIGHT" (Z.max 1 d) 1 32
     < _env_int (p_environ p) "IMMOAPP_MATCH_ALL_MAX_IN_FLIGHT_CAP" 4 1 64 →
   is_Some (p_active_tenants p) → p_profile p = "red" → resolve_dynamic_max_in_flight p d = 1).
Proof.
  intros Hb Hd. unfold resolve_dynamic_max_in_flight.
  destruct (env_int_bounds (p_environ p) "IMMOAPP_MATCH_ALL_MIN_IN_FLIGHT" (Z.max 1 d) 1 32) as [Hf|Hf]; [lia| |];
  destruct (env_int_bounds (p_environ p) "IMMOAPP_MATCH_ALL_MAX_IN_FLIGHT_CAP" 4 1 64) as [Hc|Hc]; try lia;
  (split; [|intros Hlt [n ->] ->; rewrite (proj2 (Z.leb_gt _ _) Hlt); done]);
  (case_match; [lia|]); (destruct (p_active_tenants p) as [n|]; [|lia]);
  repeat case_bool_decide; repeat case_match; try apply half_bounds; lia.
Qed.

(** ** A stream whose launcher died

    The end of the lease is not looked at when the stream has an owner, and the broker reports an
    unknown task as PENDING: a scheduler that stops between its reservation and the assignment of
    the task leaves a stream that answers [coalesced] for ever. *)
Lemma expired_lease_is_still_owned now k o seconds limit t p :
  leases_ok t → owner_in t k = Some p →
  (reserve_stream_slot now k o seconds limit t).1 = Ok (Some p, false).
Proof. intros Hok Hp. rewrite reserve_run by done. by rewrite Hp. Qed.

Lemma dead_launcher_blocks_stream st1 st2 l n1 n2 n3 n4 pending k seconds limit t p :
  leases_ok t → owner_in t k = Some p → st1 p = "PENDING" →
  (schedule_tenant_fair_task st1 st2 l n1 n2 n3 n4 pending k seconds limit t).1
  = Ok (mkSchedule coalesced (Some p) (Some "PENDING")).
Proof.
  intros Hok Hp Hst. unfold schedule_tenant_fair_task. cbn [sl_reserve table_leases].
  unfold bind at 1. rewrite reserve_run by done. rewrite Hp. cbn beta iota. rewrite Hst.
  by rewrite bool_decide_eq_true_2 by left.
Qed.

(** ** Concrete runs *)

Definition demo_stream : stream := ("matches_all", 7, "clients:all").
Definition demo_reserved : ltable := (reserve_stream_slot 0 demo_stream "pending-1" 60 2 ∅).2.

Lemma clean_demo : clean "pending-1".
Proof. by split. Qed.
Lemma demo_reached : reached 2 0 demo_reserved.
Proof. apply re_reserve; [apply re_empty|apply clean_demo]. Qed.
Example demo_live : live_count 0 demo_stream demo_reserved = 1%nat.
Proof. vm_compute. reflexivity. Qed.

Lemma empty_leases_ok : leases_ok ∅.
Proof. apply map_Forall_empty. Qed.
Lemma schedule_outcomes_witness :
  ∃ r t',
    schedule_tenant_fair_task (T := ltable) (λ _, "PENDING") (λ _, "PENDING") (Some "task-9") 0 0 0 1
      "pending-1" demo_stream 60 2 ∅ = (Ok r, t') ∧
    leases_ok t' ∧ (∀ k', k' ≠ demo_stream → owner_in t' k' = owner_in ∅ k') ∧
    schedule_meaning (λ _, "PENDING") (Some "task-9") demo_stream ∅ t' r.
Proof.
  exact (schedule_outcomes (T := ltable) (λ _, "PENDING") (λ _, "PENDING") (Some "task-9") 0 0 0 1
    "pending-1" demo_stream 60 2 ∅ empty_leases_ok clean_demo).
Defined.
Example demo_schedule :
  (schedule_tenant_fair_task (T := ltable) (λ _, "PENDING") (λ _, "PENDING") (Some "task-9") 0 0 0 1
      "pending-1" demo_stream 60 2 ∅).1 = Ok (mkSchedule scheduled (Some "task-9") None).
Proof. vm_compute. reflexivity. Qed.

Definition demo_pressure : pressure := mkPressure [] 4 (Some 2) "red".
Lemma dynamic_limit_bounds_witness :
  1 <= resolve_dynamic_max_in_flight demo_pressure 1 <= 64 ∧
  (_env_int (p_environ demo_pressure) "IMMOAPP_MATCH_ALL_MIN_IN_FLIGHT" (Z.max 1 1) 1 32
     < _env_int (p_environ demo_pressure) "IMMOAPP_MATCH_ALL_MAX_IN_FLIGHT_CAP" 4 1 64 →
   is_Some (p_active_tenants demo_pressure) → p_profile demo_pressure = "red" →
   resolve_dynamic_max_in_flight demo_pressure 1 = 1).
Proof. apply (dynamic_limit_bounds demo_pressure 1); cbn; lia. Defined.
