(* ===== verification/RebuildLease.v ===== *)
(** * Rebuild leases

    Models src/server/services/rebuild_leases.py: the table [api_rebuild_job_leases], the
    reservation under the advisory lock of an agency, and the status marks.  [now] is the time of
    the transaction; [table_exists] is false while the migration has not run. *)

From S2P Require Import Prelude PyValue WorkLease.
Local Open Scope Z_scope.

Inductive job_status : Type := Queued | Running | Done | Failed.
#[export] Instance job_status_eq_dec : EqDecision job_status.
Proof. solve_decision. Defined.

(** A row of [api_rebuild_job_leases]. *)
Record jlease := mkJLease {
  jl_agency : Z;
  jl_job_type : string;
  jl_scope_key : string;
  jl_task : string;
  jl_status : job_status;
  jl_error : string;
  jl_created : Z;
  jl_updated : Z;
  jl_expires : Z
}.
Abbreviation JM := (M (list jlease)).

Inductive lease_outcome : Type := accepted | coalesced_lease | backpressured.
(* src/server/services/rebuild_leases.py :: LeaseReserveResult *)
Record LeaseReserveResult := mkReserve {
  lr_outcome : lease_outcome;
  lr_task_id : option string;
  lr_retry_after : Z
}.

Class LeaseEnv := {
  lease_environ : list (string * string);
  table_exists : bool
}.

Section Leases.
Context `{LeaseEnv}.

(* src/server/services/rebuild_leases.py :: _max_active_leases *)
Definition _max_active_leases : Z := _env_int lease_environ "IMMOAPP_REBUILD_MAX_ACTIVE_LEASES" 2 1 32.
(* src/server/services/rebuild_leases.py :: _queued_ttl_seconds *)
Definition _queued_ttl_seconds : Z :=
  _env_int lease_environ "IMMOAPP_REBUILD_LEASE_TTL_SECONDS" 3600 60 86400.
(* src/server/services/rebuild_leases.py :: _history_ttl_seconds *)
Definition _history_ttl_seconds : Z :=
  _env_int lease_environ "IMMOAPP_REBUILD_LEASE_HISTORY_TTL_SECONDS" 21600 300 604800.
(* src/server/services/rebuild_leases.py :: _retry_after_seconds *)
Definition _retry_after_seconds : Z := _env_int lease_environ "IMMOAPP_REBUILD_RETRY_AFTER_SECONDS" 30 5 600.
(* src/server/services/rebuild_leases.py :: _min_interval_seconds *)
Definition _min_interval_seconds : Z :=
  _env_int lease_environ "IMMOAPP_REBUILD_MIN_INTERVAL_SECONDS" 30 0 3600.

(** [status IN ('queued', 'running') AND expires_at > NOW()] *)
Definition job_active (now : Z) (l : jlease) : bool :=
  bool_decide (jl_status l ∈ [Queued; Running]) && (now <? jl_expires l).
Definition same_job (agency : Z) (job scope : string) (l : jlease) : bool :=
  (jl_agency l =? agency) && bool_decide (jl_job_type l = job) && bool_decide (jl_scope_key l = scope).
(** [... ORDER BY updated_at DESC LIMIT 1] *)
Definition latest (p : jlease → bool) (rows : list jlease) : option jlease :=
  head (ssort (λ a b, jl_updated b <=? jl_updated a) (List.filter p rows)).
(** [str(task or "").strip() or None] *)
Definition task_or_none (s : string) : option string := if str_empty (strip s) then None else Some (strip s).

(* src/server/services/rebuild_leases.py :: reserve_rebuild_lease *)
Definition reserve_rebuild_lease (now agency_id : Z) (job_type scope_key task_id : string)
  : JM LeaseReserveResult :=
  if negb table_exists then ret (mkReserve accepted (Some task_id) _retry_after_seconds)
  else
    do! modify (List.filter (λ l, negb ((jl_expires l <? now) && bool_decide (jl_status l ∈ [Done; Failed])))) in
    let! existing := gets (latest (λ l, same_job agency_id job_type scope_key l && job_active now l)) in
    match existing with
    | Some l => ret (mkReserve coalesced_lease (task_or_none (jl_task l)) _retry_after_seconds)
    | None =>
        let interval := _min_interval_seconds in
        let! recent := gets (λ rows : list jlease,
          if 0 <? interval
          then latest (λ l, same_job agency_id job_type scope_key l && (now <? jl_updated l + interval)) rows
          else None) in
        match recent with
        | Some l =>
            let retry_after := Z.max 1 (jl_updated l + interval - now) in
            ret (mkReserve coalesced_lease (task_or_none (jl_task l)) (Z.max 1 retry_after))
        | None =>
            let! active_count := gets (λ rows : list jlease, Z.of_nat (length
              (List.filter (λ l, (jl_agency l =? agency_id) && job_active now l) rows))) in
            if _max_active_leases <=? active_count
            then ret (mkReserve backpressured None _retry_after_seconds)
            else
              do! modify (λ rows, rows ++ [mkJLease agency_id job_type scope_key task_id Queued EmptyString
                                             now now (now + _queued_ttl_seconds)]) in
              ret (mkReserve accepted (Some task_id) _retry_after_seconds)
        end
    end.

(** [error_message[:1000]] *)
Definition marked (now : Z) (st : job_status) (error_message : string) (l : jlease) : jlease :=
  mkJLease (jl_agency l) (jl_job_type l) (jl_scope_key l) (jl_task l) st
    (String.substring 0 1000 error_message) (jl_created l) now
    (now + match st with Running => _queued_ttl_seconds | _ => _history_ttl_seconds end).
(* src/server/services/rebuild_leases.py :: _mark_status *)
Definition _mark_status (now : Z) (task_id : string) (st : job_status) (error_message : string) : JM unit :=
  modify (map (λ l, if bool_decide (jl_task l = task_id) then marked now st error_message l else l)).
(* src/server/services/rebuild_leases.py :: mark_rebuild_running *)
Definition mark_rebuild_running (now : Z) (task_id : string) : JM unit :=
  if table_exists then _mark_status now task_id Running EmptyString else ret tt.
(* src/server/services/rebuild_leases.py :: mark_rebuild_done *)
Definition mark_rebuild_done (now : Z) (task_id : string) : JM unit :=
  if table_exists then _mark_status now task_id Done EmptyString else ret tt.
(* src/server/services/rebuild_leases.py :: mark_rebuild_failed *)
Definition mark_rebuild_failed (now : Z) (task_id error_message : string) : JM unit :=
  if table_exists then _mark_status now task_id Failed error_message else ret tt.

(* src/server/services/rebuild_leases.py :: parse_scope_key *)
Definition parse_scope_key (job_type : string) (client_id wilaya_id : option Z) : string :=
  let normalized := lower (strip job_type) in
  if bool_decide (normalized = "client") then "client:" +:+ pretty (default 0 client_id)
  else if bool_decide (normalized = "wilaya") then "wilaya:" +:+ pretty (default 0 wilaya_id)
  else "_".

(** ** The leases that hold a rebuild *)

Definition active_of (now agency : Z) (rows : list jlease) : nat :=
  length (List.filter (λ l, (jl_agency l =? agency) && job_active now l) rows).
Definition holders (now agency : Z) (job scope : string) (rows : list jlease) : nat :=
  length (List.filter (λ l, same_job agency job scope l && job_active now l) rows).

(** The tables reachable by reservations and marks, each worker marking its task running only
    while its lease is active. *)
Inductive leased : Z → list jlease → Prop :=
  | le_empty now : leased now []
  | le_later now now' rows : leased now rows → now <= now' → leased now' rows
  | le_reserve now agency job scope task rows :
      leased now rows → leased now (reserve_rebuild_lease now agency job scope task rows).2
  | le_running now task rows :
      leased now rows → (∀ l, l ∈ rows → jl_task l = task → job_active now l = true) →
      leased now (mark_rebuild_running now task rows).2
  | le_done now task rows : leased now rows → leased now (mark_rebuild_done now task rows).2
  | le_failed now task err rows : leased now rows → leased now (mark_rebuild_failed now task err rows).2.

Lemma filter_length_mono {A} (p q : A → bool) l :
  (∀ x, x ∈ l → p x = true → q x = true) →
  (length (List.filter p l) ≤ length (List.filter q l))%nat.
Proof.
  induction l as [|x l IH]; intros Hpq; [done|]. cbn.
  assert (length (List.filter p l) ≤ length (List.filter q l))%nat as Hl
    by (apply IH; intros y Hy; apply Hpq; by right).
  pose proof (Hpq x (list_elem_of_here x l)) as Hx. destruct (p x), (q x); cbn; try lia; by specialize (Hx eq_refl).
Qed.
Lemma filter_map_mono {A} (p : A → bool) (f : A → A) l :
  (∀ x, x ∈ l → p (f x) = true → p x = true) →
  (length (List.filter p (map f l)) ≤ length (List.filter p l))%nat.
Proof.
  induction l as [|x l IH]; intros Hpf; [done|]. cbn.
  assert (length (List.filter p (map f l)) ≤ length (List.filter p l))%nat as Hl
    by (apply IH; intros y Hy; apply Hpf; by right).
  pose proof (Hpf x (list_elem_of_here x l)) as Hx. destruct (p (f x)), (p x); cbn; try lia; by specialize (Hx eq_refl).
Qed.
Lemma filter_sub_length {A} (p q : A → bool) l :
  (length (List.filter p (List.filter q l)) ≤ length (List.filter p l))%nat.
Proof.
  induction l as [|x l IH]; [done|]. cbn. destruct (q x); cbn; destruct (p x); cbn; lia.
Qed.
Lemma latest_None p rows : latest p rows = None → List.filter p rows = [].
Proof.
  unfold latest. intros Hh. destruct (ssort _ (List.filter p rows)) eqn:E; [|done].
  pose proof (ssort_perm (λ a b, jl_updated b <=? jl_updated a) (List.filter p rows)) as Hp.
  rewrite E in Hp. by apply Permutation_nil_l in Hp.
Qed.
Lemma job_active_later now now' l : now <= now' → job_active now' l = true → job_active now l = true.
Proof.
  unfold job_active. rewrite !andb_true_iff, !Z.ltb_lt. intros Hle [? ?]. split; [done|lia].
Qed.

(** A count of active rows [p] that a step keeps within [bound]. *)
Lemma mark_count now task st err (q : jlease → bool) rows :
  (∀ l, q (marked now st err l) = q l) →
  (st = Running → ∀ l, l ∈ rows → jl_task l = task → job_active now l = true) → st ≠ Queued →
  (length (List.filter (λ l, q l && job_active now l) (_mark_status now task st err rows).2)
   ≤ length (List.filter (λ l, q l && job_active now l) rows))%nat.
Proof.
  intros Hq Hrun Hnq. apply filter_map_mono. intros l Hl. case_bool_decide as Ht; [|done].
  rewrite Hq, !andb_true_iff. intros [? Ha]. split; [done|]. destruct st; [done|by apply Hrun|..];
    (unfold job_active in Ha; cbn in Ha; by rewrite bool_decide_eq_false_2 in Ha by set_solver).
Qed.

(** One step keeps both bounds. *)
Definition bounded (now : Z) (rows : list jlease) : Prop :=
  (∀ agency, Z.of_nat (active_of now agency rows) <= _max_active_leases) ∧
  (∀ agency job scope, (holders now agency job scope rows ≤ 1)%nat).

Lemma mark_bounded now task st err rows :
  (st = Running → ∀ l, l ∈ rows → jl_task l = task → job_active now l = true) → st ≠ Queued →
  bounded now rows → bounded now (_mark_status now task st err rows).2.
Proof.
  intros Hrun Hnq [H1 H2]. split.
  - intros agency. specialize (H1 agency). unfold active_of in *.
    pose proof (mark_count now task st err (λ l, jl_agency l =? agency) rows (λ _, eq_refl) Hrun Hnq). cbn beta in *. lia.
  - intros agency job scope. specialize (H2 agency job scope). unfold holders in *.
    pose proof (mark_count now task st err (same_job agency job scope) rows (λ _, eq_refl) Hrun Hnq). lia.
Qed.
Lemma max_active_pos : 1 <= _max_active_leases.
Proof.
  unfold _max_active_leases, _env_int. destruct (str_empty _); [lia|]. destruct (parse_int _); lia.
Qed.

Lemma reserve_bounded now agency job scope task rows :
  bounded now rows → bounded now (reserve_rebuild_lease now agency job scope task rows).2.
Proof.
  intros [H1 H2]. unfold reserve_rebuild_lease. destruct (negb table_exists); [done|].
  rewrite bind_modify. set (kept := List.filter _ rows).
  assert (bounded now kept) as [K1 K2].
  { split; [intros a; specialize (H1 a)|intros a j s; specialize (H2 a j s)]; unfold active_of, holders, kept in *.
    - pose proof (filter_sub_length (λ l, (jl_agency l =? a) && job_active now l)
        (λ l, negb ((jl_expires l <? now) && bool_decide (jl_status l ∈ [Done; Failed]))) rows). lia.
    - pose proof (filter_sub_length (λ l, same_job a j s l && job_active now l)
        (λ l, negb ((jl_expires l <? now) && bool_decide (jl_status l ∈ [Done; Failed]))) rows). lia. }
  clearbody kept. rewrite bind_gets. destruct (latest _ kept) eqn:Ee; [done|].
  apply latest_None in Ee. rewrite bind_gets. destruct (if 0 <? _ then _ else _); [done|].
  rewrite bind_gets. destruct (Z.leb_spec _max_active_leases
    (Z.of_nat (length (List.filter (λ l, (jl_agency l =? agency) && job_active now l) kept)))) as [Hle|Hlt]; [done|].
  rewrite bind_modify. cbn [snd ret]. split.
  - intros a. specialize (K1 a). unfold active_of in *. rewrite List.filter_app, length_app. cbn [List.filter].
    destruct (Z.eqb_spec (jl_agency (mkJLease agency job scope task Queued EmptyString now now
      (now + _queued_ttl_seconds))) a) as [Heq|Hne]; cbn in *; [subst a|lia].
    destruct (job_active now _); cbn; lia.
  - intros a j s. specialize (K2 a j s). unfold holders in *. rewrite List.filter_app, length_app. cbn [List.filter].
    destruct (same_job a j s (mkJLease agency job scope task Queued EmptyString now now
      (now + _queued_ttl_seconds))) eqn:Es; cbn; [|lia].
    unfold same_job in Es. cbn in Es. rewrite !andb_true_iff, !bool_decide_eq_true, Z.eqb_eq in Es.
    destruct Es as [[-> ->] ->]. rewrite Ee. destruct (job_active now _); cbn; lia.
Qed.

(** At most one active rebuild per job and scope, and a bounded number per agency.  Whatever
    the sequence of reservations, marks and waits, from any number of workers that mark their
    task running while its lease is active, at every time no (agency, job type, scope) has two
    active leases and no agency has more than the configured maximum. *)
Theorem rebuild_leases_bounded now rows :
  leased now rows →
  (∀ agency, Z.of_nat (active_of now agency rows) <= _max_active_leases) ∧
  (∀ agency job scope, (holders now agency job scope rows ≤ 1)%nat).
Proof.
  induction 1 as [now|now now' rows _ [H1 H2] Hle|now a j s t rows _ IH|now t rows _ IH Ha|now t rows _ IH|now t err rows _ IH].
  - pose proof max_active_pos. split; [intros; cbn; lia|intros; cbn; lia].
  - split.
    + intros a. specialize (H1 a). unfold active_of in *.
      pose proof (filter_length_mono (λ l, (jl_agency l =? a) && job_active now' l)
        (λ l, (jl_agency l =? a) && job_active now l) rows) as Hm.
      apply (Z.le_trans _ (Z.of_nat (length (List.filter (λ l, (jl_agency l =? a) && job_active now l) rows)))); [|done].
      apply inj_le, Hm. intros l _. rewrite !andb_true_iff. intros [? ?]. split; [done|by eapply job_active_later].
    + intros a j s. specialize (H2 a j s). unfold holders in *. etrans; [|exact H2].
      apply filter_length_mono. intros l _. rewrite !andb_true_iff. intros [? ?]. split; [done|by eapply job_active_later].
  - by apply reserve_bounded.
  - unfold mark_rebuild_running. destruct table_exists; [|done]. by apply mark_bounded.
  - unfold mark_rebuild_done. destruct table_exists; [|done]. by apply mark_bounded.
  - unfold mark_rebuild_failed. destruct table_exists; [|done]. by apply mark_bounded.
Qed.
End Leases.

(** ** Concrete runs *)

Definition demo_lease_env : LeaseEnv := {| lease_environ := []; table_exists := true |}.
Section Demo.
#[local] Existing Instance demo_lease_env.

Definition two_leases : list jlease :=
  (reserve_rebuild_lease 5 7 "wilaya" "wilaya:3" "t2" (reserve_rebuild_lease 0 7 "client" "client:1" "t1" []).2).2.
Lemma two_leased : leased 5 two_leases.
Proof.
  apply le_reserve, (le_later 0); [|lia]. apply le_reserve, le_empty.
Qed.
Lemma rebuild_leases_bounded_witness :
  (∀ agency, Z.of_nat (active_of 5 agency two_leases) <= _max_active_leases) ∧
  (∀ agency job scope, (holders 5 agency job scope two_leases ≤ 1)%nat).
Proof. exact (rebuild_leases_bounded 5 two_leases two_leased). Defined.
Example third_is_backpressured :
  active_of 5 7 two_leases = 2%nat ∧
  (reserve_rebuild_lease 6 7 "all" "_" "t3" two_leases).1 = Ok (mkReserve backpressured None 30).
Proof. vm_compute. done. Qed.

(** A mark does not look at the lease it renews: a worker that starts after its lease expired makes
    two active leases for one scope. *)
Example late_start_doubles_the_lease :
  let rows := (reserve_rebuild_lease 4000 7 "client" "client:1" "t2"
                 (reserve_rebuild_lease 0 7 "client" "client:1" "t1" []).2).2 in
  holders 4001 7 "client" "client:1" (mark_rebuild_running 4001 "t1" rows).2 = 2%nat.
Proof. vm_compute. reflexivity. Qed.
End Demo.
