(* ===== verification/ImportQueue.v ===== *)
(** * The import execution queue

    Models src/server/services/import_job_queue.py: the jobs of all agencies with their status,
    and the execution slot of an agency, a stream of the lease table reached through
    [StreamLeases].  A job argument is the row of its id, as the callers read it just before; the
    workflow payload of a job is a field of its row. *)

From S2P Require Import Prelude PyValue WorkLease.
Local Open Scope Z_scope.

Inductive import_status : Type := PENDING | PARSING | READY | QUEUED | RUNNING | COMPLETED | FAILED.
#[export] Instance import_status_eq_dec : EqDecision import_status.
Proof. solve_decision. Defined.

(** The fields of [ImportJob] the queue reads or writes. *)
Record import_job := mkJob {
  ij_id : string;
  ij_agency : Z;
  ij_status : import_status;
  ij_stage : string;
  ij_progress : Z;
  ij_detail : pydict;
  ij_workflow : pydict;
  ij_created : Z;
  ij_task : string
}.

(* src/server/services/import_job_queue.py :: _LEASE_TASK_NAME *)
Definition _LEASE_TASK_NAME : string := "imports_execute".
(* src/server/services/import_job_queue.py :: _STREAM_KEY *)
Definition _STREAM_KEY : string := "default".
(* src/server/services/import_job_queue.py :: _LEASE_SECONDS *)
Definition _LEASE_SECONDS : Z := 30 * 60.
(* src/server/services/import_job_queue.py :: _MAX_IN_FLIGHT *)
Definition _MAX_IN_FLIGHT : Z := 1.
Definition slot_of (agency : Z) : stream := (_LEASE_TASK_NAME, agency, _STREAM_KEY).

(* src/server/services/import_job_queue.py :: QueueClaimResult *)
Record QueueClaimResult := mkClaim {
  qc_status : string;
  qc_queue_position : Z;
  qc_agency_queue_depth : Z
}.

(* src/server/services/import_job_queue.py :: execution_owner_for_job *)
Definition execution_owner_for_job (job_id : string) : string := "import-job:" +:+ job_id.

Section Queue.
Context {T : Type} `{StreamLeases T}.

Record qstate := mkQueue { q_jobs : list import_job; q_leases : T }.
Abbreviation QM := (M qstate).

(** A lease transaction of the queue. *)
Definition on_leases {A} (m : M T A) : QM A :=
  λ q, let '(r, t) := m (q_leases q) in (r, mkQueue (q_jobs q) t).
Definition update_job (i : string) (f : import_job → import_job) : QM unit :=
  modify (λ q, mkQueue (map (λ j, if decide (ij_id j = i) then f j else j) (q_jobs q)) (q_leases q)).
(** [ImportJob.objects.filter(...).count()] and [.exists()] *)
Definition count_jobs (p : import_job → bool) : QM Z :=
  gets (λ q, Z.of_nat (length (List.filter p (q_jobs q)))).
Definition exists_job (p : import_job → bool) : QM bool := gets (λ q, existsb p (q_jobs q)).

Definition in_agency (agency : Z) (st : import_status) (j : import_job) : bool :=
  (ij_agency j =? agency) && bool_decide (ij_status j = st).

(* src/server/services/import_job_queue.py :: agency_queue_depth *)
Definition agency_queue_depth (agency_id : Z) : QM Z := count_jobs (in_agency agency_id QUEUED).
(* src/server/services/import_job_queue.py :: global_running_import_count *)
Definition global_running_import_count : QM Z :=
  count_jobs (λ j, bool_decide (ij_status j = RUNNING)).

(* src/server/services/import_job_queue.py :: _reserve_execution_slot *)
Definition _reserve_execution_slot (now agency_id : Z) (owner : string) : QM bool :=
  let! (_, reserved) := on_leases (sl_reserve now (slot_of agency_id) owner _LEASE_SECONDS _MAX_IN_FLIGHT) in
  ret reserved.
(* src/server/services/import_job_queue.py :: _recover_and_reserve_execution_slot *)
Definition _recover_and_reserve_execution_slot (now agency_id : Z) (owner : string) : QM bool :=
  do! on_leases (sl_clear now (slot_of agency_id)) in
  let! (_, reserved) := on_leases (sl_reserve now (slot_of agency_id) owner _LEASE_SECONDS _MAX_IN_FLIGHT) in
  ret reserved.
(* src/server/services/import_job_queue.py :: release_execution_slot *)
Definition release_execution_slot (now agency_id : Z) (owner : string) : QM unit :=
  on_leases (sl_release now (slot_of agency_id) owner).

(** [job.status] is QUEUED. *)
(* src/server/services/import_job_queue.py :: queue_position_for_job *)
Definition queue_position_for_job (j : import_job) : QM Z :=
  if bool_decide (ij_status j = QUEUED) then
    let! n := count_jobs (λ x, in_agency (ij_agency j) QUEUED x && (ij_created x <? ij_created j)) in
    ret (n + 1)
  else ret 0.

Definition queued_job (profile : string) (j : import_job) : import_job :=
  mkJob (ij_id j) (ij_agency j) QUEUED "execution" 0
    (dupdate (ij_detail j) [("phase", PStr "queued"); ("current_chunk", PInt 0);
                            ("execution_profile", PStr profile)])
    (ij_workflow j) (ij_created j) (ij_task j).
Definition with_workflow (d : pydict) (j : import_job) : import_job :=
  mkJob (ij_id j) (ij_agency j) (ij_status j) (ij_stage j) (ij_progress j) (ij_detail j) d
    (ij_created j) (ij_task j).
(** [now_iso] is [timezone.now().isoformat()]. *)
(* src/server/services/import_job_queue.py :: mark_job_queued *)
Definition mark_job_queued (now_iso : string) (j : import_job) (execution_profile : string)
  : QM QueueClaimResult :=
  let payload := dset "status" (PStr "queued") (dset "execution_profile" (PStr execution_profile)
    (dset "cancel_requested" (PBool false) (dset "queued_at" (PStr now_iso) (ij_workflow j)))) in
  do! update_job (ij_id j) (queued_job execution_profile) in
  let! queue_depth := agency_queue_depth (ij_agency j) in
  let payload := dset "agency_queue_depth" (PInt queue_depth) payload in
  do! update_job (ij_id j) (with_workflow payload) in
  let! pos := queue_position_for_job (queued_job execution_profile j) in
  ret (mkClaim "queued" pos queue_depth).

Definition running_job (profile : string) (j : import_job) : import_job :=
  let detail := dset "execution_profile" (PStr profile) (ij_detail j) in
  let phase := py_str (py_or (default (PStr EmptyString) (dget "phase" detail)) (PStr EmptyString)) in
  mkJob (ij_id j) (ij_agency j) RUNNING "execution" (ij_progress j)
    (if str_empty phase then dset "phase" (PStr "queued") detail else detail)
    (ij_workflow j) (ij_created j) (ij_task j).
(* src/server/services/import_job_queue.py :: mark_job_running *)
Definition mark_job_running (j : import_job) (execution_profile : string) : QM unit :=
  let payload := dset "agency_queue_depth" (PInt 0) (dset "queued_at" PNone
    (dset "status" (PStr "running") (dset "execution_profile" (PStr execution_profile)
      (dset "cancel_requested" (PBool false) (ij_workflow j))))) in
  do! update_job (ij_id j) (with_workflow payload) in
  update_job (ij_id j) (running_job execution_profile).

(** The end of a claim that got no slot. *)
Definition queue_or_full (now_iso : string) (j : import_job) (profile : string) : QM QueueClaimResult :=
  let! depth := agency_queue_depth (ij_agency j) in
  if (1 <=? depth) && negb (bool_decide (ij_status j = QUEUED)) then ret (mkClaim "full" 0 1)
  else mark_job_queued now_iso j profile.
Definition start_job (j : import_job) (profile : string) : QM QueueClaimResult :=
  do! mark_job_running j profile in
  let! depth := agency_queue_depth (ij_agency j) in
  ret (mkClaim "running" 0 depth).

(** [now1] and [now2] are the times of the two lease transactions. *)
(* src/server/services/import_job_queue.py :: claim_execution_or_queue *)
Definition claim_execution_or_queue (now1 now2 : Z) (now_iso : string) (j : import_job)
    (execution_profile : string) (force_queue : bool) : QM QueueClaimResult :=
  if force_queue then queue_or_full now_iso j execution_profile
  else
    let owner := execution_owner_for_job (ij_id j) in
    let! reserved := _reserve_execution_slot now1 (ij_agency j) owner in
    if reserved : bool then start_job j execution_profile
    else
      let! running := exists_job (in_agency (ij_agency j) RUNNING) in
      let! recovered := if running : bool then ret false
                        else _recover_and_reserve_execution_slot now2 (ij_agency j) owner in
      if recovered : bool then start_job j execution_profile
      else queue_or_full now_iso j execution_profile.

(** [.order_by("created_at", "id").first()] *)
Definition job_leb (a b : import_job) : bool :=
  if ij_created a <? ij_created b then true
  else if ij_created b <? ij_created a then false else str_leb (ij_id a) (ij_id b).
Definition queued_jobs (p : import_job → bool) (q : qstate) : list import_job :=
  ssort job_leb (List.filter (λ j, p j && bool_decide (ij_status j = QUEUED)) (q_jobs q)).

(** [task_for i] is the id the broker gives to the task of job [i]. *)
Variable task_for : string → string.
Definition with_task (task : string) (j : import_job) : import_job :=
  mkJob (ij_id j) (ij_agency j) (ij_status j) (ij_stage j) (ij_progress j) (ij_detail j) (ij_workflow j)
    (ij_created j) task.

(* src/server/services/import_job_queue.py :: dispatch_next_agency_import *)
Definition dispatch_next_agency_import (now1 now2 agency_id : Z) : QM bool :=
  let! first := gets (λ q, head (queued_jobs (λ j, ij_agency j =? agency_id) q)) in
  match first with
  | None => ret false
  | Some j =>
      let owner := execution_owner_for_job (ij_id j) in
      let! reserved := _reserve_execution_slot now1 agency_id owner in
      let! granted :=
        if reserved : bool then ret true
        else
          let! other := exists_job (λ x, in_agency agency_id RUNNING x && negb (bool_decide (ij_id x = ij_id j))) in
          if other : bool then ret false
          else _recover_and_reserve_execution_slot now2 agency_id owner in
      if negb granted then ret false
      else
        let profile := py_str (py_or (default (PStr "red") (dget "execution_profile" (ij_workflow j)))
                                 (PStr "red")) in
        do! mark_job_running j profile in
        do! update_job (ij_id j) (with_task (task_for (ij_id j))) in
        ret true
  end.

(** The loop of [dispatch_queued_imports] over the agencies. *)
Fixpoint dispatch_agencies (clock : nat → Z) (limit : Z) (max_running : option Z) (agencies : list Z)
    (dispatched : Z) : QM Z :=
  match agencies with
  | [] => ret dispatched
  | a :: rest =>
      let! running := global_running_import_count in
      if match max_running with Some m => m <=? running | None => false end then ret dispatched
      else
        let n := length rest in
        let! ok := dispatch_next_agency_import (clock (2 * n)%nat) (clock (2 * n + 1)%nat) a in
        let dispatched := if ok : bool then dispatched + 1 else dispatched in
        if Z.max 1 limit <=? dispatched then ret dispatched
        else dispatch_agencies clock limit max_running rest dispatched
  end.
(** The query is ordered by creation, so DISTINCT applies to (agency, created_at, id): an agency
    appears once per queued job. *)
(* src/server/services/import_job_queue.py :: dispatch_queued_imports *)
Definition dispatch_queued_imports (clock : nat → Z) (limit : Z) (max_global_running : option Z) : QM Z :=
  let! agencies := gets (λ q, map ij_agency (queued_jobs (λ _, true) q)) in
  dispatch_agencies clock limit max_global_running agencies 0.
End Queue.
Arguments qstate : clear implicits.
