(* ===== verification/ImportQueueProps.v ===== *)
(** * One running and one queued import per agency

    Proved for every lease table that keeps the promises of [StreamLeaseLaws]. *)

From S2P Require Import Prelude PyValue WorkLease WorkLeaseProps ImportQueue.
Local Open Scope Z_scope.

Definition owner_ok (j : import_job) : Prop := clean (execution_owner_for_job (ij_id j)).
Definition agency_count (a : Z) (st : import_status) (jobs : list import_job) : nat :=
  length (List.filter (in_agency a st) jobs).

(** The jobs agree with the owners of the slots: a running job owns the slot of its agency, and an
    agency has at most one queued job. *)
Definition jobs_ok (own : Z → option string) (jobs : list import_job) : Prop :=
  NoDup (map ij_id jobs) ∧ Forall owner_ok jobs ∧
  (∀ j, j ∈ jobs → ij_status j = RUNNING → own (ij_agency j) = Some (execution_owner_for_job (ij_id j))) ∧
  (∀ a, (agency_count a QUEUED jobs ≤ 1)%nat).

Lemma owner_inj a b : execution_owner_for_job a = execution_owner_for_job b → a = b.
Proof. unfold execution_owner_for_job. intros E. cbn in E. by injection E. Qed.
Lemma slot_inj a b : slot_of a = slot_of b → a = b.
Proof. unfold slot_of. by intros [= ->]. Qed.

Lemma same_elements_short {A} (l : list A) :
  NoDup l → (∀ x y, x ∈ l → y ∈ l → x = y) → (length l ≤ 1)%nat.
Proof.
  intros Hnd Heq. destruct l as [|x [|y l]]; cbn; [lia..|]. exfalso.
  apply NoDup_cons in Hnd as [Hx _]. apply Hx. rewrite (Heq x y); [left|left|right; left].
Qed.
Lemma one_running own jobs a : jobs_ok own jobs → (agency_count a RUNNING jobs ≤ 1)%nat.
Proof.
  intros (Hnd & _ & Hrun & _). apply same_elements_short.
  - apply (NoDup_of_map ij_id), NoDup_map_filter, Hnd.
  - assert (∀ j, j ∈ List.filter (in_agency a RUNNING) jobs →
      j ∈ jobs ∧ own a = Some (execution_owner_for_job (ij_id j))) as Hj.
    { intros j [Hin Hj]%elem_of_filter_b. unfold in_agency in Hin.
      apply andb_true_iff in Hin as [<-%Z.eqb_eq Hst%bool_decide_eq_true]. split; [done|by apply Hrun]. }
    intros x y [Hx Ex]%Hj [Hy Ey]%Hj. apply (NoDup_map_inj_on ij_id jobs); [done..|].
    apply owner_inj. congruence.
Qed.

(** A job of [jobs] other than the updated one is untouched. *)
Definition put (i : string) (f : import_job → import_job) (jobs : list import_job) : list import_job :=
  map (λ j, if decide (ij_id j = i) then f j else j) jobs.
Definition keeps_key (f : import_job → import_job) : Prop :=
  ∀ j, ij_id (f j) = ij_id j ∧ ij_agency (f j) = ij_agency j.

Lemma put_count_le a st i f jobs :
  keeps_key f →
  (∀ j, j ∈ jobs → ij_id j = i → ij_agency j = a → ij_status (f j) = st → ij_status j = st) →
  (agency_count a st (put i f jobs) ≤ agency_count a st jobs)%nat.
Proof.
  intros Hk Hst. unfold agency_count, put. induction jobs as [|j jobs IH]; [done|].
  assert (length (List.filter (in_agency a st) (map (λ j, if decide (ij_id j = i) then f j else j) jobs))
          ≤ length (List.filter (in_agency a st) jobs))%nat as Hl
    by (apply IH; intros j' Hj'; apply Hst; by right).
  cbn [map List.filter]. case_decide as Hi.
  - assert (in_agency a st (f j) = true → in_agency a st j = true) as Hin.
    { unfold in_agency. rewrite (proj2 (Hk j)), !andb_true_iff, !bool_decide_eq_true, Z.eqb_eq.
      intros [Ha Hs]. split; [done|]. by apply Hst; [left|..]. }
    destruct (in_agency a st (f j)), (in_agency a st j); cbn [length]; try lia; by specialize (Hin eq_refl).
  - destruct (in_agency a st j); cbn [length]; lia.
Qed.
Lemma put_count_succ a st i f jobs :
  NoDup (map ij_id jobs) → keeps_key f →
  (agency_count a st (put i f jobs) ≤ 1 + agency_count a st jobs)%nat.
Proof.
  intros Hnd Hk. unfold agency_count, put. induction jobs as [|j jobs IH]; [cbn; lia|].
  cbn [map] in Hnd. apply NoDup_cons in Hnd as [Hj Hnd]. specialize (IH Hnd).
  cbn [map List.filter]. case_decide as Hi.
  - assert (map (λ j, if decide (ij_id j = i) then f j else j) jobs = jobs) as ->.
    { rewrite <- (map_id jobs) at 2. apply map_ext_in. intros x Hx%list_elem_of_In.
      rewrite decide_False; [done|]. intros Hxi. apply Hj, elem_of_map. exists x. split; [congruence|done]. }
    destruct (in_agency a st (f j)), (in_agency a st j); cbn [length]; lia.
  - destruct (in_agency a st j); cbn [length]; lia.
Qed.

Lemma put_jobs_ok own i f jobs :
  jobs_ok own jobs → keeps_key f →
  (∀ j, j ∈ jobs → ij_id j = i → ij_status (f j) = RUNNING →
     own (ij_agency j) = Some (execution_owner_for_job i)) →
  (∀ j, j ∈ jobs → ij_id j = i → ij_status (f j) = QUEUED →
     ij_status j = QUEUED ∨ agency_count (ij_agency j) QUEUED jobs = 0%nat) →
  jobs_ok own (put i f jobs).
Proof.
  intros (Hnd & Hown & Hrun & Hq) Hk Hr Hqu.
  assert (map ij_id (put i f jobs) = map ij_id jobs) as Hids.
  { unfold put. rewrite map_map. apply map_ext. intros j. case_decide; [apply Hk|done]. }
  split_and!.
  - by rewrite Hids.
  - rewrite Forall_forall in Hown |- *. intros x (j & -> & Hj)%elem_of_map. specialize (Hown j Hj).
    unfold owner_ok in *. case_decide; [by rewrite (proj1 (Hk j))|done].
  - intros x (j & -> & Hj)%elem_of_map. case_decide as Hi; [|by apply Hrun].
    destruct (Hk j) as [-> ->]. rewrite Hi. by apply Hr.
  - intros a. destruct (decide (agency_count a QUEUED jobs = 0%nat)) as [H0|Hn0].
    + pose proof (put_count_succ a QUEUED i f jobs Hnd Hk). lia.
    + etrans; [|apply (Hq a)]. apply put_count_le; [done|].
      intros j Hj Hi Ha Hst. destruct (Hqu j Hj Hi Hst) as [?|H0]; [done|]. by rewrite Ha in H0.
Qed.
(** A new owner of a slot concerns only its agency. *)
Lemma own_jobs_ok own own' a jobs :
  jobs_ok own jobs → (∀ b, b ≠ a → own' b = own b) →
  (own' a = own a ∨ agency_count a RUNNING jobs = 0%nat) → jobs_ok own' jobs.
Proof.
  intros (Hnd & Hown & Hrun & Hq) Hoth Ha. split_and!; [done..| |done].
  intros j Hj Hst. destruct (decide (ij_agency j = a)) as [<-|Hne].
  - destruct Ha as [->|H0]; [by apply Hrun|]. exfalso. unfold agency_count in H0.
    apply length_zero_iff_nil in H0.
    assert (j ∈ List.filter (in_agency (ij_agency j) RUNNING) jobs) as Hin.
    { apply elem_of_filter_b. split; [|done]. unfold in_agency. by rewrite Z.eqb_refl, bool_decide_eq_true_2. }
    rewrite H0 in Hin. by apply elem_of_nil in Hin.
  - rewrite Hoth by done. by apply Hrun.
Qed.
Lemma no_running own jobs a : jobs_ok own jobs → own a = None → agency_count a RUNNING jobs = 0%nat.
Proof.
  intros (_ & _ & Hrun & _) Hn. unfold agency_count. rewrite filter_none; [done|].
  apply Forall_forall. intros j Hj. unfold in_agency. destruct (Z.eqb_spec (ij_agency j) a) as [<-|]; [|done].
  cbn. apply bool_decide_eq_false. intros Hst. specialize (Hrun j Hj Hst). congruence.
Qed.
Lemma count_zero a st jobs : existsb (in_agency a st) jobs = false → agency_count a st jobs = 0%nat.
Proof.
  intros He. unfold agency_count. rewrite filter_none; [done|]. apply Forall_forall. intros j Hj.
  apply not_true_iff_false. intros Ht. apply not_true_iff_false in He. apply He, existsb_exists.
  exists j. split; [by apply list_elem_of_In|done].
Qed.

Section Queue.
Context {T : Type} `{StreamLeaseLaws T}.
Implicit Types (q : qstate T).

Definition slot_owner (t : T) (a : Z) : option string := sl_owner t (slot_of a).
Definition queue_ok (q : qstate T) : Prop :=
  sl_ok (q_leases q) ∧ jobs_ok (slot_owner (q_leases q)) (q_jobs q).

(** A lease step that gives the slot of [a] to [owner] only when no job of [a] runs. *)
Definition slot_step (a : Z) (owner : string) (q : qstate T) (m : M (qstate T) bool) : Prop :=
  ∃ b q', m q = (Ok b, q') ∧ q_jobs q' = q_jobs q ∧ queue_ok q' ∧
    (b = true → slot_owner (q_leases q') a = Some owner ∧ agency_count a RUNNING (q_jobs q) = 0%nat).

Lemma reserve_step now a owner q :
  queue_ok q → clean owner → slot_step a owner q (_reserve_execution_slot now a owner).
Proof.
  intros [Hok Hj] Hc. unfold slot_step, _reserve_execution_slot, on_leases, bind.
  destruct (sl_reserve_law now (slot_of a) owner _LEASE_SECONDS _MAX_IN_FLIGHT (q_leases q) Hok Hc)
    as ([r b] & t' & E & Hok' & Hoth & Hr). rewrite E. eexists b, _. split; [done|].
  assert (∀ c, c ≠ a → slot_owner t' c = slot_owner (q_leases q) c) as Hoth'.
  { intros c Hne. apply Hoth. by intros ?%slot_inj. }
  split; [done|]. destruct (sl_owner (q_leases q) (slot_of a)) as [p|] eqn:Eo.
  - destruct Hr as [[= -> ->] Hs]. split; [|done]. split; [done|]. eapply own_jobs_ok; [exact Hj|exact Hoth'|].
    left. unfold slot_owner. cbn. by rewrite Hs, Eo.
  - pose proof (no_running _ _ a Hj Eo) as Hzero.
    assert (queue_ok (mkQueue (q_jobs q) t')) as Hq.
    { split; [done|]. eapply own_jobs_ok; [exact Hj|exact Hoth'|by right]. }
    destruct Hr as [[[= -> ->] Hs]|[[= -> ->] Hs]]; done.
Qed.
Lemma recover_step now a owner q :
  queue_ok q → clean owner → agency_count a RUNNING (q_jobs q) = 0%nat →
  slot_step a owner q (_recover_and_reserve_execution_slot now a owner).
Proof.
  intros [Hok Hj] Hc Hzero.
  destruct (sl_clear_law now (slot_of a) (q_leases q) Hok) as (t1 & E1 & Hok1 & Hoth1 & Hn).
  assert (queue_ok (mkQueue (q_jobs q) t1)) as Hq1.
  { split; [done|]. eapply own_jobs_ok; [exact Hj| |by right].
    intros c Hne. apply Hoth1. by intros ?%slot_inj. }
  destruct (reserve_step now a owner _ Hq1 Hc) as (b & q' & E & Hjobs & Hq' & Hb).
  exists b, q'. split; [|done]. unfold _recover_and_reserve_execution_slot.
  unfold bind at 1, on_leases at 1. rewrite E1. exact E.
Qed.

(** ** Marks *)

Lemma update_run i f q : update_job i f q = (Ok tt, mkQueue (put i f (q_jobs q)) (q_leases q)).
Proof. done. Qed.
Lemma workflow_keeps d : keeps_key (with_workflow d).
Proof. by intros j. Qed.

Lemma workflow_ok i d q : queue_ok q → queue_ok (mkQueue (put i (with_workflow d) (q_jobs q)) (q_leases q)).
Proof.
  intros [Hok Hj]. split; [done|]. apply put_jobs_ok; [done|apply workflow_keeps| |].
  - intros j Hin <- Hst. cbn in Hst. by apply Hj.
  - intros j Hin Hi Hst. by left.
Qed.

Lemma running_ok j profile q :
  queue_ok q → j ∈ q_jobs q → slot_owner (q_leases q) (ij_agency j) = Some (execution_owner_for_job (ij_id j)) →
  ∃ q', mark_job_running j profile q = (Ok tt, q') ∧ queue_ok q' ∧ q_leases q' = q_leases q.
Proof.
  intros Hq Hj Hown. unfold mark_job_running. unfold bind at 1. rewrite update_run.
  set (d := dset "agency_queue_depth" _ _). rewrite update_run. eexists. split; [done|]. split; [|done].
  pose proof (workflow_ok (ij_id j) d q Hq) as [Hok1 Hj1]. split; [done|]. cbn [q_jobs q_leases] in *.
  apply put_jobs_ok; [done|done| |done].
  intros x (x0 & -> & Hx0)%elem_of_map. destruct Hq as [_ (Hnd & _)].
  intros Hi _. assert (ij_id x0 = ij_id j) as Hi0 by (destruct (decide (ij_id x0 = ij_id j)); done).
  rewrite (NoDup_map_inj_on ij_id (q_jobs q) x0 j Hnd Hx0 Hj Hi0). rewrite decide_True by done. exact Hown.
Qed.

Lemma start_ok j profile q :
  queue_ok q → j ∈ q_jobs q → slot_owner (q_leases q) (ij_agency j) = Some (execution_owner_for_job (ij_id j)) →
  ∃ r q', start_job j profile q = (Ok r, q') ∧ queue_ok q'.
Proof.
  intros Hq Hj Hown. destruct (running_ok j profile q Hq Hj Hown) as (q' & E & Hq' & _).
  unfold start_job. rewrite (bind_ok _ _ _ _ _ E). eexists _, q'. split; [done|done].
Qed.

Lemma queue_or_full_ok iso j profile q :
  queue_ok q → j ∈ q_jobs q → ∃ r q', queue_or_full iso j profile q = (Ok r, q') ∧ queue_ok q'.
Proof.
  intros Hq Hj. unfold queue_or_full, agency_queue_depth, count_jobs. rewrite bind_gets.
  fold (agency_count (ij_agency j) QUEUED (q_jobs q)).
  destruct ((1 <=? _) && _) eqn:Ef; [eexists _, q; done|].
  unfold mark_job_queued. unfold bind at 1. rewrite update_run.
  unfold agency_queue_depth, count_jobs. rewrite bind_gets. unfold bind at 1. rewrite update_run.
  unfold queue_position_for_job. rewrite bool_decide_eq_true_2 by done.
  eexists _, _. split; [done|]. apply (workflow_ok (ij_id j) _ (mkQueue _ (q_leases q))).
  destruct Hq as [Hok Hjobs]. split; [done|]. cbn [q_jobs q_leases]. apply put_jobs_ok; [done|done|done|].
  intros x Hx Hi _. destruct Hjobs as (Hnd & _).
  rewrite (NoDup_map_inj_on ij_id (q_jobs q) x j Hnd Hx Hj Hi).
  apply andb_false_iff in Ef as [Ed|Es]; [right|left].
  - apply Z.leb_gt in Ed. lia.
  - by apply negb_false_iff, bool_decide_eq_true in Es.
Qed.

Lemma owner_clean j q : queue_ok q → j ∈ q_jobs q → clean (execution_owner_for_job (ij_id j)).
Proof. intros [_ (_ & Hown & _)] Hj. rewrite Forall_forall in Hown. by apply Hown. Qed.

Lemma claim_ok now1 now2 iso j profile force q :
  queue_ok q → j ∈ q_jobs q →
  ∃ r q', claim_execution_or_queue now1 now2 iso j profile force q = (Ok r, q') ∧ queue_ok q'.
Proof.
  intros Hq Hj. pose proof (owner_clean j q Hq Hj) as Hc. unfold claim_execution_or_queue.
  destruct force; [by apply queue_or_full_ok|].
  destruct (reserve_step now1 (ij_agency j) _ q Hq Hc) as (b & q1 & E1 & Ej1 & Hq1 & Hb).
  rewrite (bind_ok _ _ _ _ _ E1). assert (j ∈ q_jobs q1) as Hj1 by by rewrite Ej1.
  destruct b; [destruct (Hb eq_refl) as [Ho _]; by apply start_ok|].
  unfold exists_job. rewrite bind_gets.
  destruct (existsb (in_agency (ij_agency j) RUNNING) (q_jobs q1)) eqn:Er.
  - rewrite bind_ret. by apply queue_or_full_ok.
  - apply count_zero in Er.
    destruct (recover_step now2 (ij_agency j) _ q1 Hq1 Hc Er) as (b & q2 & E2 & Ej2 & Hq2 & Hb2).
    rewrite (bind_ok _ _ _ _ _ E2). assert (j ∈ q_jobs q2) as Hj2 by by rewrite Ej2.
    destruct b; [destruct (Hb2 eq_refl) as [Ho _]; by apply start_ok|by apply queue_or_full_ok].
Qed.

Lemma queued_jobs_elem p q j :
  j ∈ queued_jobs p q ↔ j ∈ q_jobs q ∧ p j = true ∧ ij_status j = QUEUED.
Proof.
  unfold queued_jobs. rewrite ssort_perm, elem_of_filter_b, andb_true_iff, bool_decide_eq_true. tauto.
Qed.

Lemma dispatch_ok task_for now1 now2 a q :
  queue_ok q →
  ∃ b q', dispatch_next_agency_import task_for now1 now2 a q = (Ok b, q') ∧ queue_ok q'.
Proof.
  intros Hq. unfold dispatch_next_agency_import. rewrite bind_gets.
  destruct (head (queued_jobs _ q)) as [j|] eqn:Eh; [|eexists _, q; done].
  assert (j ∈ queued_jobs (λ j, ij_agency j =? a) q) as Hjq.
  { destruct (queued_jobs _ q); [done|]. injection Eh as ->. left. }
  apply queued_jobs_elem in Hjq as (Hj & Ha%Z.eqb_eq & Hst). subst a.
  pose proof (owner_clean j q Hq Hj) as Hc.
  destruct (reserve_step now1 (ij_agency j) _ q Hq Hc) as (b & q1 & E1 & Ej1 & Hq1 & Hb).
  rewrite (bind_ok _ _ _ _ _ E1). set (granted := if b then _ else _).
  assert (slot_step (ij_agency j) (execution_owner_for_job (ij_id j)) q1 granted ∨
          ∃ q2, granted q1 = (Ok true, q2) ∧ q_jobs q2 = q_jobs q1 ∧ queue_ok q2 ∧
            slot_owner (q_leases q2) (ij_agency j) = Some (execution_owner_for_job (ij_id j))) as Hg.
  { subst granted. destruct b; [right; exists q1; split_and!; try done; by apply Hb|]. left.
    unfold exists_job. unfold slot_step. rewrite bind_gets.
    destruct (existsb _ (q_jobs q1)) eqn:Er; [by exists false, q1|].
    apply recover_step; [done..|]. apply count_zero. apply not_true_iff_false. intros (x & Hx & Hxr)%existsb_exists.
    apply not_true_iff_false in Er. apply Er, existsb_exists. exists x. split; [done|]. rewrite Hxr. cbn.
    apply negb_true_iff, bool_decide_eq_false. intros Hid.
    assert (x = j) as ->.
    { apply list_elem_of_In in Hx. rewrite Ej1 in Hx. destruct Hq as [_ (Hnd & _)].
      by apply (NoDup_map_inj_on ij_id (q_jobs q)). }
    unfold in_agency in Hxr. rewrite Hst in Hxr. by rewrite andb_false_r in Hxr. }
  assert (∃ g q2, granted q1 = (Ok g, q2) ∧ q_jobs q2 = q_jobs q1 ∧ queue_ok q2 ∧
    (g = true → slot_owner (q_leases q2) (ij_agency j) = Some (execution_owner_for_job (ij_id j))))
    as (g & q2 & E2 & Ej2 & Hq2 & Hg2).
  { destruct Hg as [(g & q2 & ? & ? & ? & Hg2)|(q2 & ? & ? & ? & ?)]; [exists g, q2|exists true, q2];
      split_and!; try done. intros Hgt. by apply Hg2. }
  rewrite (bind_ok _ _ _ _ _ E2). destruct g; cbn [negb]; [|by eexists _, q2].
  destruct (running_ok j (py_str (py_or (default (PStr "red") (dget "execution_profile" (ij_workflow j)))
    (PStr "red"))) q2 Hq2) as (q3 & E3 & Hq3 & _); [by rewrite Ej2, Ej1|by apply Hg2|].
  rewrite (bind_ok _ _ _ _ _ E3). unfold bind at 1. rewrite update_run. eexists _, _. split; [done|].
  destruct Hq3 as [Hok3 Hj3]. split; [done|]. apply put_jobs_ok; [done|done| |by left].
  intros x Hx <- Hsx. cbn in Hsx. by apply Hj3.
Qed.

Lemma dispatch_all_ok task_for clock limit maxr agencies n q :
  queue_ok q →
  ∃ r q', dispatch_agencies task_for clock limit maxr agencies n q = (Ok r, q') ∧ queue_ok q'.
Proof.
  revert n q. induction agencies as [|a rest IH]; intros n q Hq; [by eexists _, q|].
  cbn [dispatch_agencies]. unfold global_running_import_count, count_jobs. rewrite bind_gets.
  destruct (match maxr with Some m => _ | None => _ end); [by eexists _, q|].
  destruct (dispatch_ok task_for (clock (2 * length rest)%nat) (clock (2 * length rest + 1)%nat) a q Hq)
    as (b & q1 & E & Hq1).
  cbv zeta. rewrite (bind_ok _ _ _ _ _ E). destruct (_ <=? _); [by eexists _, q1|by apply IH].
Qed.

(** ** Any sequence of requests, dispatches and endings *)

Inductive queue_reached (task_for : string → string) : qstate T → Prop :=
  | qr_empty t : sl_ok t → queue_reached task_for (mkQueue [] t)
  | qr_submit j q :
      queue_reached task_for q → owner_ok j → ij_id j ∉ map ij_id (q_jobs q) →
      ij_status j = PENDING → queue_reached task_for (mkQueue (q_jobs q ++ [j]) (q_leases q))
  | qr_claim now1 now2 iso j profile force q :
      queue_reached task_for q → j ∈ q_jobs q →
      queue_reached task_for (claim_execution_or_queue now1 now2 iso j profile force q).2
  | qr_dispatch now1 now2 a q :
      queue_reached task_for q → queue_reached task_for (dispatch_next_agency_import task_for now1 now2 a q).2
  | qr_dispatch_all clock limit maxr q :
      queue_reached task_for q → queue_reached task_for (dispatch_queued_imports task_for clock limit maxr q).2
  | qr_end i st q :
      queue_reached task_for q → st ≠ RUNNING → st ≠ QUEUED →
      queue_reached task_for (update_job i (λ j, mkJob (ij_id j) (ij_agency j) st (ij_stage j) (ij_progress j)
        (ij_detail j) (ij_workflow j) (ij_created j) (ij_task j)) q).2
  | qr_release now j q :
      queue_reached task_for q → j ∈ q_jobs q → ij_status j ≠ RUNNING →
      queue_reached task_for (release_execution_slot now (ij_agency j) (execution_owner_for_job (ij_id j)) q).2.

Lemma submit_ok j q :
  queue_ok q → owner_ok j → ij_id j ∉ map ij_id (q_jobs q) → ij_status j = PENDING →
  queue_ok (mkQueue (q_jobs q ++ [j]) (q_leases q)).
Proof.
  intros [Hok (Hnd & Hown & Hrun & Hq)] Ho Hi Hst. split; [done|]. cbn. split_and!.
  - rewrite map_app. apply NoDup_app. split_and!; [done| |apply NoDup_singleton].
    by intros x Hx ->%list_elem_of_singleton.
  - apply Forall_app. split; [done|by constructor].
  - intros x [Hx| ->%list_elem_of_singleton]%elem_of_app; [by apply Hrun|congruence].
  - intros a. unfold agency_count. rewrite List.filter_app, length_app. specialize (Hq a). cbn.
    unfold in_agency at 2. rewrite Hst. cbn. rewrite andb_false_r. cbn. unfold agency_count in Hq. lia.
Qed.
Lemma release_ok now j q :
  queue_ok q → j ∈ q_jobs q → ij_status j ≠ RUNNING →
  queue_ok (release_execution_slot now (ij_agency j) (execution_owner_for_job (ij_id j)) q).2.
Proof.
  intros [Hok Hj] Hin Hst. unfold release_execution_slot, on_leases.
  destruct (sl_release_law now (slot_of (ij_agency j)) (execution_owner_for_job (ij_id j)) (q_leases q) Hok)
    as (t' & E & Hok' & Hoth & Hs). rewrite E. split; [done|]. cbn [q_jobs q_leases snd].
  apply (own_jobs_ok (slot_owner (q_leases q)) _ (ij_agency j)); [done| |].
  { intros b Hne. apply Hoth. by intros ?%slot_inj. }
  case_decide as Ho; [right|by left]. destruct Hj as (Hnd & _ & Hrun & _).
  unfold agency_count. rewrite filter_none; [done|]. apply Forall_forall. intros x Hx. unfold in_agency.
  destruct (Z.eqb_spec (ij_agency x) (ij_agency j)) as [Ha|]; [|done]. cbn. apply bool_decide_eq_false.
  intros Hxs. specialize (Hrun x Hx Hxs). unfold slot_owner in Hrun. rewrite Ha, Ho in Hrun.
  apply Hst. assert (ij_id j = ij_id x) as Hid' by (apply owner_inj; by apply (inj Some)).
  by rewrite (NoDup_map_inj_on ij_id (q_jobs q) j x Hnd Hin Hx Hid').
Qed.

Lemma reached_queue_ok task_for q : queue_reached task_for q → queue_ok q.
Proof.
  induction 1 as [t Ht|j q _ IH Ho Hi Hs|n1 n2 iso j pr force q _ IH Hj|n1 n2 a q _ IH|clock limit maxr q _ IH
                 |i st q _ IH Hr Hqs|now j q _ IH Hj Hs].
  - split; [done|]. cbn. split_and!; [constructor..| |]; [intros j ?%elem_of_nil; done|intros a; cbn; lia].
  - by apply submit_ok.
  - by destruct (claim_ok n1 n2 iso j pr force q IH Hj) as (r & q' & -> & ?).
  - by destruct (dispatch_ok task_for n1 n2 a q IH) as (r & q' & -> & ?).
  - unfold dispatch_queued_imports. rewrite bind_gets.
    by destruct (dispatch_all_ok task_for clock limit maxr (map ij_agency (queued_jobs (λ _, true) q)) 0 q IH)
      as (r & q' & -> & ?).
  - rewrite update_run. destruct IH as [Hok Hj]. split; [done|]. apply put_jobs_ok; [done|done|done|done].
  - by apply release_ok.
Qed.

End Queue.

(** ** Concrete runs *)

Definition demo_job (i : string) (created : Z) : import_job :=
  mkJob i 7 PENDING "mapping" 0 [] [] created EmptyString.
Definition demo_queue : qstate ltable := mkQueue [demo_job "a" 1; demo_job "b" 2] ∅.
Definition demo_claimed : qstate ltable :=
  (claim_execution_or_queue 0 0 "t" (demo_job "b" 2) "green" false
    (claim_execution_or_queue 0 0 "t" (demo_job "a" 1) "green" false demo_queue).2).2.

Lemma demo_queue_reached : queue_reached id demo_queue.
Proof.
  change demo_queue with (mkQueue (([] ++ [demo_job "a" 1]) ++ [demo_job "b" 2]) (∅ : ltable)).
  apply (qr_submit id (demo_job "b" 2) (mkQueue ([] ++ [demo_job "a" 1]) ∅)).
  - apply (qr_submit id (demo_job "a" 1) (mkQueue [] ∅)); [apply qr_empty, empty_leases_ok|by split| |done].
    apply not_elem_of_nil.
  - by split.
  - cbn. by rewrite list_elem_of_singleton.
  - done.
Qed.
Lemma demo_claimed_reached : queue_reached id demo_claimed.
Proof.
  apply (qr_claim id 0 0 "t" (demo_job "b" 2)).
  - apply (qr_claim id 0 0 "t" (demo_job "a" 1)); [apply demo_queue_reached|left].
  - right. left.
Qed.
Example demo_statuses : map ij_status (q_jobs demo_claimed) = [RUNNING; QUEUED].
Proof. vm_compute. reflexivity. Qed.

(** The lease is taken in one transaction and the status written in another: a second claim that
    comes in between finds the slot taken but no running job, recovers the slot, and both jobs
    run. *)
Example interleaved_claims_both_run :
  let q1 := (_reserve_execution_slot 0 7 (execution_owner_for_job "a") demo_queue).2 in
  let q2 := (claim_execution_or_queue 0 0 "t" (demo_job "b" 2) "green" false q1).2 in
  let q3 := (start_job (demo_job "a" 1) "green" q2).2 in
  agency_count 7 RUNNING (q_jobs q3) = 2%nat.
Proof. vm_compute. reflexivity. Qed.
