(* ===== verification/ImportLoad.v ===== *)
(** * Loading root rows with conflict isolation

    Models src/server/services/import_load_policy.py, import_load_conflict_isolation.py,
    import_load_accounting.py and import_root_key_index.py, with the entry readers of
    import_runtime_artifacts.py and the phone key of duplicate_checker.py.  The batch INSERT is
    the callable the code takes as an argument; [D] is the state of the database session. *)

From S2P Require Import Prelude PyValue.
From Stdlib Require Import Ascii.
Local Open Scope Z_scope.

(* src/core/contracts/import_batch_refs.py :: CreatedRowRef *)
Record CreatedRowRef := mkRowRef { source_ordinal : Z; created_id : Z }.

Abbreviation entry := pydict.

(** ** Entry readers *)

(** [int] of a bool, an int or a decimal string, [dflt] otherwise. *)
Definition int_or (v : pyval) (dflt : Z) : Z :=
  match v with
  | PBool b => if b then 1 else 0
  | PInt z => z
  | PStr s => match parse_int s with Some z => z | None => dflt end
  | _ => dflt
  end.
(* src/server/services/import_runtime_artifacts.py :: entry_row_num *)
Definition entry_row_num (e : entry) : Z := int_or (default (PInt 0) (dget "row" e)) 0.
(* src/server/services/import_runtime_artifacts.py :: entry_int *)
Definition entry_int (e : entry) (key : string) : Z := int_or (default (PInt 0) (dget key e)) 0.
(* src/server/services/import_runtime_artifacts.py :: entry_dict *)
Definition entry_dict (e : entry) (key : string) : pydict :=
  match dget key e with Some (PDict d) => d | _ => [] end.
(* src/server/services/import_runtime_artifacts.py :: entry_str_list *)
Definition entry_str_list (e : entry) (key : string) : list string :=
  match dget key e with Some (PList l) => map py_str l | _ => [] end.

(* src/server/services/import_load_policy.py :: _SOURCE_ORDINAL_KEY *)
Definition _SOURCE_ORDINAL_KEY : string := "_source_ordinal".
(* src/server/services/import_load_policy.py :: _entry_source_ordinal *)
Definition _entry_source_ordinal (e : entry) (fallback : Z) : Z :=
  int_or (default (PInt fallback) (dget _SOURCE_ORDINAL_KEY e)) fallback.
Fixpoint ordinals_from (i : Z) (es : list entry) : list Z :=
  match es with [] => [] | e :: es' => _entry_source_ordinal e i :: ordinals_from (i + 1) es' end.
(* src/server/services/import_load_policy.py :: _batch_entry_source_ordinals *)
Definition _batch_entry_source_ordinals (es : list entry) : list Z := ordinals_from 0 es.

(** ** Validation of what an INSERT returns *)

Definition ref_leb (a b : CreatedRowRef) : bool := source_ordinal a <=? source_ordinal b.
Definition same_set (a b : list Z) : bool :=
  forallb (λ x, bool_decide (x ∈ b)) a && forallb (λ x, bool_decide (x ∈ a)) b.
(* src/server/services/import_load_policy.py :: _require_created_row_refs *)
Definition _require_created_row_refs (created_rows : list CreatedRowRef) (expected : list Z)
    (context : string) : res (list CreatedRowRef) :=
  let actual := map source_ordinal created_rows in
  if negb (Nat.eqb (length created_rows) (length expected)) then
    Err (ValueError (context +:+ " returned " +:+ pretty (length created_rows) +:+
      " created-row refs for " +:+ pretty (length expected) +:+ " input rows."))
  else if existsb (λ r, created_id r <=? 0) created_rows then
    Err (ValueError (context +:+ " returned a non-positive created id."))
  else if existsb (λ o, o <? 0) actual then
    Err (ValueError (context +:+ " returned a negative source ordinal."))
  else if negb (bool_decide (NoDup actual)) then
    Err (ValueError (context +:+ " returned duplicate source ordinals."))
  else if negb (bool_decide (NoDup expected)) then
    Err (ValueError (context +:+ " expected unique source ordinals."))
  else if negb (same_set actual expected) then
    Err (ValueError (context +:+ " returned source ordinals that did not match the input rows."))
  else Ok (ssort ref_leb created_rows).

(* src/server/services/import_load_policy.py :: _require_insert_cardinality *)
Definition _require_insert_cardinality (created_ids : list Z) (expected_count : Z) (context : string)
  : res (list Z) :=
  if negb (Z.of_nat (length created_ids) =? Z.max 0 expected_count) then
    Err (ValueError (context +:+ " returned " +:+ pretty (length created_ids) +:+ " ids for " +:+
      pretty expected_count +:+ " input rows."))
  else Ok created_ids.

(** ** Child anchors and thresholds *)

Inductive anchor_kind : Type := resolved | ambiguous_parent | orphan.
(* src/server/services/import_load_policy.py :: ChildAnchorClassification *)
Record ChildAnchorClassification := mkAnchor {
  ca_resolved_anchor_id : Z;
  ca_kind : anchor_kind;
  ca_user_error : string;
  ca_internal_error : string
}.
(* src/server/services/import_load_policy.py :: classify_child_anchor *)
Definition classify_child_anchor (original_anchor_id resolved_anchor_id : Z) : ChildAnchorClassification :=
  if 0 <? resolved_anchor_id then mkAnchor resolved_anchor_id resolved EmptyString EmptyString
  else if original_anchor_id <? 0 then
    mkAnchor 0 ambiguous_parent "Planned child row had an ambiguous parent and was not anchored."
      "A planned child row had an ambiguous parent and was not anchored."
  else mkAnchor 0 orphan "Planned child row lost its parent anchor during load."
         "Planned child row lost its parent anchor during load.".
(* src/server/services/import_load_policy.py :: build_child_anchor_failure_rows *)
Definition build_child_anchor_failure_rows (row_num : Z) (row_data : pydict) (c : ChildAnchorClassification)
  : pydict * pydict :=
  ([("row", PInt row_num); ("errors", PList [PStr (ca_user_error c)])],
   [("row", PInt row_num); ("errors", PList [PStr (ca_internal_error c)]); ("data", PDict row_data)]).
(* src/server/services/import_load_policy.py :: build_root_conflict_error *)
Definition build_root_conflict_error (e : entry) (message : string) : pydict :=
  [("row", PInt (entry_row_num e)); ("errors", PList [PStr message]); ("data", PDict (entry_dict e "data"))].

(** ** Counting *)

(* src/server/services/import_load_accounting.py :: LoadCountDelta *)
Record LoadCountDelta := mkDelta { ld_skipped_count : Z; ld_error_count : Z }.
(* src/server/services/import_load_accounting.py :: child_anchor_failure_delta *)
Definition child_anchor_failure_delta : LoadCountDelta := mkDelta 0 1.
(* src/server/services/import_load_accounting.py :: root_conflict_failure_delta *)
Definition root_conflict_failure_delta (failure_count : Z) : LoadCountDelta := mkDelta 0 (Z.max 0 failure_count).
(* src/server/services/import_load_accounting.py :: apply_load_count_delta *)
Definition apply_load_count_delta (r : LoadCountDelta) (delta : LoadCountDelta) : LoadCountDelta :=
  mkDelta (ld_skipped_count r + ld_skipped_count delta) (ld_error_count r + ld_error_count delta).

(** ** File-wide root keys *)

Fixpoint str_filter (f : ascii → bool) (s : string) : string :=
  match s with
  | EmptyString => EmptyString
  | String c s' => if f c then String c (str_filter f s') else str_filter f s'
  end.
(** [s[n:]] *)
Definition str_from (n : nat) (s : string) : string := String.substring n (String.length s - n) s.
(** [str.isdigit]: the ASCII digits, and the three superscripts of Latin-1. *)
Definition py_isdigit (c : ascii) : bool :=
  is_digit c || ((code c =? 178) || (code c =? 179) || (code c =? 185))%N.
(* src/server/services/duplicate_checker.py :: _normalize_phone_for_dedup *)
Definition _normalize_phone_for_dedup (phone : string) : string :=
  if str_empty phone then EmptyString
  else
    let digits := str_filter py_isdigit phone in
    let digits :=
      if String.prefix "00213" digits then "0" +:+ str_from 5 digits
      else if String.prefix "213" digits && (9 <? Z.of_nat (String.length digits))
      then "0" +:+ str_from 3 digits else digits in
    if (String.length digits =? 9)%nat
       && match digits with String c _ => (code c =? 53) || (code c =? 54) || (code c =? 55) | _ => false end%N
    then "0" +:+ digits else digits.

(* src/server/services/import_root_key_index.py :: RootKeyDecision *)
Record RootKeyDecision := mkRootKey { rk_key : string; rk_winner_row : Z; rk_is_duplicate : bool }.
(* src/server/services/import_root_key_index.py :: root_phone_key *)
Definition root_phone_key (row_data : pydict) : string :=
  let phone := _normalize_phone_for_dedup
    (py_str (py_or (default (PStr EmptyString) (dget "phone" row_data)) (PStr EmptyString))) in
  if str_empty phone || (Z.of_nat (String.length phone) <? 9) then EmptyString else "phone:" +:+ phone.
(** The dictionary of the keys seen so far is the state. *)
(* src/server/services/import_root_key_index.py :: remember_root_key *)
Definition remember_root_key (row_data : pydict) (row_num : Z) : M (list (string * Z)) RootKeyDecision :=
  let key := root_phone_key row_data in
  if str_empty key then ret (mkRootKey EmptyString 0 false)
  else
    let! winner_row := gets (λ seen, default 0 (dget key seen)) in
    if 0 <? winner_row then ret (mkRootKey key winner_row true)
    else
      do! modify (dset key row_num) in ret (mkRootKey key row_num false).

(** ** The load *)

Section Load.
Context {D : Type}.
(** The batch INSERT: entity type, row data, source ordinals. *)
Variable insert_batch_fn : string → list pydict → list Z → M D (list CreatedRowRef).
(** The SQLSTATE of an exception, of its [__cause__] and of its [orig], when there are any. *)
Variable sqlstates : exn → option string * option string * option string.

(* src/server/services/import_load_policy.py :: exception_sqlstate *)
Definition exception_sqlstate (e : exn) : string :=
  let text o := strip (default EmptyString o) in
  let '(own, cause, orig) := sqlstates e in
  if negb (str_empty (text own)) then text own
  else if negb (str_empty (text cause)) then text cause else text orig.
(* src/server/services/import_load_policy.py :: is_unique_violation *)
Definition is_unique_violation (e : exn) : bool := bool_decide (exception_sqlstate e = "23505").

(** What a bundle load writes: the session, the ids imported so far, the map from anchor keys to
    created ids, and the errors. *)
Record load_state := mkLoad {
  ls_db : D;
  ls_imported : list Z;
  ls_anchors : list (string * Z);
  ls_errors : list pydict
}.
Definition on_db {A} (m : M D A) : M load_state A :=
  λ s, let '(r, d) := m (ls_db s) in (r, mkLoad d (ls_imported s) (ls_anchors s) (ls_errors s)).

(** The entries by ordinal; a later entry with the same ordinal replaces an earlier one. *)
Fixpoint entry_at (i : Z) (es : list entry) (o : Z) : option entry :=
  match es with
  | [] => None
  | e :: es' =>
      match entry_at (i + 1) es' o with
      | Some e' => Some e'
      | None => if _entry_source_ordinal e i =? o then Some e else None
      end
  end.
Definition set_anchors (keys : list string) (i : Z) (m : list (string * Z)) : list (string * Z) :=
  foldl (λ m k, dset k i m) m keys.
(** [entry_by_source_ordinal[o]] raises KeyError when there is none. *)
(* src/server/services/import_load_policy.py :: remember_created_anchor_keys *)
Definition remember_created_anchor_keys (batch_entries : list entry) (created_rows : list CreatedRowRef)
  : M load_state unit :=
  let! rows := lift (_require_created_row_refs created_rows (_batch_entry_source_ordinals batch_entries)
                       "Root anchor mapping") in
  for_each (λ r,
    match entry_at 0 batch_entries (source_ordinal r) with
    | None => raise (OtherError "KeyError")
    | Some e => modify (λ s, mkLoad (ls_db s) (ls_imported s)
                   (set_anchors (entry_str_list e "anchor_keys") (created_id r) (ls_anchors s)) (ls_errors s))
    end) rows.

Section Flush.
Variable on_rows_inserted : list CreatedRowRef → list entry → M load_state unit.
Variable append_leaf_error : entry → M load_state unit.

(** The body of the [try]. *)
Definition insert_current (entity_type : string) (current : list entry) : M load_state (list CreatedRowRef) :=
  let ordinals := _batch_entry_source_ordinals current in
  let! batch_rows := on_db (insert_batch_fn entity_type (map (λ e, entry_dict e "data") current) ordinals) in
  let! rows := lift (_require_created_row_refs batch_rows ordinals (entity_type +:+ " root load insert")) in
  do! on_rows_inserted rows current in
  ret rows.

(** [while worklist: ...]; the head of the list is the top of the stack.  [None]: out of fuel. *)
Fixpoint isolate (fuel : nat) (entity_type : string) (worklist : list (list entry))
    (created : list CreatedRowRef) (skipped : Z) : M load_state (option (list CreatedRowRef * Z)) :=
  match worklist with
  | [] => ret (Some (created, skipped))
  | current :: rest =>
      match fuel with
      | O => ret None
      | S fuel' =>
          λ s, match insert_current entity_type current s with
               | (Ok rows, s') => isolate fuel' entity_type rest (created ++ rows) skipped s'
               | (Err e, s') =>
                   if negb (is_unique_violation e) then (Err e, s')
                   else
                     match current with
                     | [] => (Err (OtherError "IndexError"), s')
                     | [x] => bind (append_leaf_error x)
                                (λ _, isolate fuel' entity_type rest created (skipped + 1)) s'
                     | _ =>
                         let split := Nat.max 1 (length current / 2) in
                         isolate fuel' entity_type (take split current :: drop split current :: rest)
                           created skipped s'
                     end
               end
      end
  end.

Fixpoint index_entries (i : Z) (es : list entry) : list entry :=
  match es with [] => [] | e :: es' => dset _SOURCE_ORDINAL_KEY (PInt i) e :: index_entries (i + 1) es' end.

(** Each pass takes one batch off the list or splits it in two: [2 n] passes are enough for [n]
    entries.  The durations are not kept. *)
(* src/server/services/import_load_policy.py :: flush_root_entries_with_conflict_isolation *)
Definition flush_root_entries_with_conflict_isolation (entity_type : string) (batch_entries : list entry)
  : M load_state (option (list CreatedRowRef * Z)) :=
  match batch_entries with
  | [] => ret (Some ([], 0))
  | _ => isolate (2 * length batch_entries) entity_type [index_entries 0 batch_entries] [] 0
  end.
End Flush.

(* src/server/services/import_load_conflict_isolation.py :: _flush_bundle_root_entries_with_conflict_isolation._on_rows_inserted *)
Definition _on_rows_inserted (rows : list CreatedRowRef) (entries : list entry) : M load_state unit :=
  do! modify (λ s, mkLoad (ls_db s) (ls_imported s ++ map created_id rows) (ls_anchors s) (ls_errors s)) in
  remember_created_anchor_keys entries rows.
Definition conflict_message : string := "A planned root row no longer loads safely. Restart the import.".
(* src/server/services/import_load_conflict_isolation.py :: _flush_bundle_root_entries_with_conflict_isolation._append_leaf_error *)
Definition _append_leaf_error (e : entry) : M load_state unit :=
  modify (λ s, mkLoad (ls_db s) (ls_imported s) (ls_anchors s)
                 (ls_errors s ++ [build_root_conflict_error e conflict_message])).
(* src/server/services/import_load_conflict_isolation.py :: _flush_bundle_root_entries_with_conflict_isolation *)
Definition _flush_bundle_root_entries_with_conflict_isolation (entity_type : string)
    (batch_entries : list entry) : M load_state (option (list Z)) :=
  let! r := flush_root_entries_with_conflict_isolation _on_rows_inserted _append_leaf_error entity_type
              batch_entries in
  ret ((λ p : list CreatedRowRef * Z, map created_id p.1) <$> r).
End Load.
Arguments load_state : clear implicits.
