(* ===== verification/ImportLoadProps.v ===== *)
(** * Loading root rows: every row is accounted for once

    The bisection of import_load_policy.py terminates, keeps the rows in order and gives each row
    exactly one verdict; over a store whose batch INSERT is all-or-nothing it accepts exactly the
    rows that inserting them one by one would accept. *)

From S2P Require Import Prelude PyValue ImportLoad.
From Stdlib Require Import Ascii.
Local Open Scope Z_scope.

(** ** Ordinals of a batch *)

(** [numbered a es]: the entries carry the ordinals [a], [a + 1], ... *)
Fixpoint numbered (a : Z) (es : list entry) : Prop :=
  match es with
  | [] => True
  | e :: es' => dget _SOURCE_ORDINAL_KEY e = Some (PInt a) ∧ numbered (a + 1) es'
  end.
Fixpoint zseq (a : Z) (n : nat) : list Z :=
  match n with O => [] | S n' => a :: zseq (a + 1) n' end.

Lemma zseq_ge a n x : x ∈ zseq a n → a ≤ x.
Proof.
  revert a. induction n as [|n IH]; intros a; simpl; [by intros ?%elem_of_nil|].
  intros [->|H%IH]%elem_of_cons; lia.
Qed.
Lemma zseq_NoDup a n : NoDup (zseq a n).
Proof.
  revert a. induction n as [|n IH]; intros a; simpl; constructor; [|done].
  intros H%zseq_ge. lia.
Qed.
Lemma zseq_sorted a n : StronglySorted (λ x y, (x <=? y) = true) (zseq a n).
Proof.
  revert a. induction n as [|n IH]; intros a; simpl; constructor; [done|].
  apply Forall_forall. intros y Hy%zseq_ge. lia.
Qed.
Lemma numbered_index a es : numbered a (index_entries a es).
Proof.
  revert a. induction es as [|e es IH]; intros a; simpl; [done|].
  split; [apply dget_dset_eq|apply IH].
Qed.
Lemma numbered_app a es1 es2 :
  numbered a (es1 ++ es2) ↔ numbered a es1 ∧ numbered (a + Z.of_nat (length es1)) es2.
Proof.
  revert a. induction es1 as [|e es1 IH]; intros a; simpl.
  - rewrite Z.add_0_r. tauto.
  - rewrite IH. replace (a + 1 + Z.of_nat (length es1)) with (a + Z.of_nat (S (length es1))) by lia. tauto.
Qed.
Lemma ordinal_of e a i : dget _SOURCE_ORDINAL_KEY e = Some (PInt a) → _entry_source_ordinal e i = a.
Proof. unfold _entry_source_ordinal. by intros ->. Qed.
Lemma numbered_ordinals a es : numbered a es → _batch_entry_source_ordinals es = zseq a (length es).
Proof.
  unfold _batch_entry_source_ordinals. generalize 0 as i. revert a.
  induction es as [|e es IH]; intros a i; simpl; [done|]. intros [He Hes].
  by rewrite (ordinal_of e a i He), (IH _ _ Hes).
Qed.
Lemma numbered_entry_below a es i o : numbered a es → o < a → entry_at i es o = None.
Proof.
  revert a i. induction es as [|e es IH]; intros a i; simpl; [done|]. intros [He Hes] Ho.
  rewrite (IH _ (i + 1) Hes) by lia. rewrite (ordinal_of e a i He). by case_match; [lia|].
Qed.
Lemma numbered_entry a es1 e es2 i :
  numbered a (es1 ++ e :: es2) → entry_at i (es1 ++ e :: es2) (a + Z.of_nat (length es1)) = Some e.
Proof.
  revert a i. induction es1 as [|e1 es1 IH]; intros a i; simpl; intros [He Hes].
  - rewrite Z.add_0_r, (numbered_entry_below _ _ _ _ Hes) by lia.
    rewrite (ordinal_of e a i He). by rewrite Z.eqb_refl.
  - replace (a + Z.of_nat (S (length es1))) with (a + 1 + Z.of_nat (length es1)) by lia.
    by rewrite (IH _ (i + 1) Hes).
Qed.

(** ** What a validated INSERT returned *)

Lemma ssort_refs_sorted rows :
  StronglySorted (λ x y, (x <=? y) = true) (map source_ordinal (ssort ref_leb rows)).
Proof.
  assert (StronglySorted (λ a b, ref_leb a b = true) (ssort ref_leb rows)) as Hs.
  { apply ssort_sorted; unfold ref_leb; intros; lia. }
  revert Hs. induction 1 as [|r l Hl IH Hr]; simpl; constructor; [done|].
  apply Forall_map. by eapply Forall_impl; [apply Hr|].
Qed.
Lemma same_set_iff a b : same_set a b = true ↔ (∀ x, x ∈ a ↔ x ∈ b).
Proof.
  unfold same_set. rewrite andb_true_iff, !forallb_forall. setoid_rewrite <- list_elem_of_In.
  setoid_rewrite bool_decide_eq_true. split; [intros [? ?] x; split; auto|].
  intros Heq. by split; intros x; apply Heq.
Qed.
Lemma refs_by_ordinal rows a n :
  map source_ordinal rows ≡ₚ zseq a n → map source_ordinal (ssort ref_leb rows) = zseq a n.
Proof.
  intros Hp. apply (sorted_unique Z.leb); [lia|apply ssort_refs_sorted|apply zseq_sorted|].
  by rewrite (ssort_perm ref_leb rows).
Qed.
(** The validated refs are those of the input rows, in input order. *)
Lemma require_refs_ok rows a n ctx rows' :
  _require_created_row_refs rows (zseq a n) ctx = Ok rows' →
  map source_ordinal rows' = zseq a n ∧ Forall (λ r, 0 < created_id r) rows'.
Proof.
  unfold _require_created_row_refs. repeat (case_match; [done|]).
  intros [= <-]. repeat match goal with H : negb _ = false |- _ => apply negb_false_iff in H end.
  split.
  - apply refs_by_ordinal, NoDup_Permutation; [by eapply bool_decide_eq_true|apply zseq_NoDup|].
    by apply same_set_iff.
  - rewrite (ssort_perm ref_leb rows), Forall_forall. intros r Hr%list_elem_of_In.
    apply not_true_iff_false in H0. apply Z.lt_nge. intros Hle. apply H0, existsb_exists.
    exists r. split; [done|]. lia.
Qed.
Lemma require_refs_accepts rows a n ctx :
  0 ≤ a → map source_ordinal rows ≡ₚ zseq a n → Forall (λ r, 0 < created_id r) rows →
  _require_created_row_refs rows (zseq a n) ctx = Ok (ssort ref_leb rows).
Proof.
  intros Ha Hp Hpos. unfold _require_created_row_refs.
  assert (length rows = length (zseq a n)) as ->.
  { rewrite <- (length_map source_ordinal rows). by rewrite Hp. }
  rewrite Nat.eqb_refl. cbn [negb].
  assert (existsb (λ r, created_id r <=? 0) rows = false) as ->.
  { apply not_true_iff_false. intros (r & Hr%list_elem_of_In & ?)%existsb_exists.
    rewrite Forall_forall in Hpos. specialize (Hpos r Hr). lia. }
  assert (existsb (λ o, o <? 0) (map source_ordinal rows) = false) as ->.
  { apply not_true_iff_false. intros (o & Ho%list_elem_of_In & ?)%existsb_exists.
    rewrite Hp in Ho. apply zseq_ge in Ho. lia. }
  rewrite !bool_decide_eq_true_2; [|apply zseq_NoDup|rewrite Hp; apply zseq_NoDup].
  cbn [negb]. assert (same_set (map source_ordinal rows) (zseq a n) = true) as ->; [|done].
  apply same_set_iff. intros x. by rewrite Hp.
Qed.
Lemma require_refs_error rows ords ctx e :
  _require_created_row_refs rows ords ctx = Err e → ∃ msg, e = ValueError msg.
Proof. unfold _require_created_row_refs. repeat case_match; intros [=]; eauto. Qed.
Lemma require_refs_fixed rows a n ctx ctx' rows' :
  0 ≤ a → _require_created_row_refs rows (zseq a n) ctx = Ok rows' →
  _require_created_row_refs rows' (zseq a n) ctx' = Ok rows'.
Proof.
  intros Ha [Ho Hpos]%require_refs_ok.
  rewrite require_refs_accepts; [|done|by rewrite Ho|done].
  f_equal. apply ssort_id.
  assert (StronglySorted (λ x y, (x <=? y) = true) (map source_ordinal rows')) as Hs
    by (rewrite Ho; apply zseq_sorted).
  clear -Hs. induction rows' as [|r l IH]; [constructor|]. inversion_clear Hs as [|?? Hl Hr].
  constructor; [auto|]. rewrite Forall_map in Hr. done.
Qed.

(** ** The account of a load *)

(** The verdict on a row: the id it was created with, or [None] when it was skipped.  [record] is
    what a verdict adds to the ids, the anchors and the errors of the load. *)
Abbreviation account := (list Z * list (string * Z) * list pydict)%type.
Definition record (acc : account) (ev : entry * option Z) : account :=
  let '(imported, anchors, errors) := acc in
  match ev.2 with
  | Some i => (imported ++ [i], set_anchors (entry_str_list ev.1 "anchor_keys") i anchors, errors)
  | None => (imported, anchors, errors ++ [build_root_conflict_error ev.1 conflict_message])
  end.
Definition account_of {D} (s : load_state D) : account := (ls_imported s, ls_anchors s, ls_errors s).
Definition skips (v : list (option Z)) : Z := Z.of_nat (length (List.filter (λ x, bool_decide (x = None)) v)).

Lemma record_index es v : ∀ a acc,
  foldl record acc (zip (index_entries a es) v) = foldl record acc (zip es v).
Proof.
  revert v. induction es as [|e es IH]; intros [|x v] a [[imp anc] err]; cbn [index_entries zip zip_with foldl]; [done..|].
  rewrite IH. f_equal. unfold record. cbn [fst snd]. destruct x.
  - unfold entry_str_list. by rewrite dget_dset_ne.
  - unfold build_root_conflict_error, entry_row_num, entry_dict. by rewrite !dget_dset_ne.
Qed.
Lemma record_imported es v acc :
  length v = length es →
  foldl record acc (zip es v) =
    (acc.1.1 ++ omap id v,
     foldl (λ m p, match p.2 with Some i => set_anchors (entry_str_list p.1 "anchor_keys") i m | None => m end)
       acc.1.2 (zip es v),
     acc.2 ++ map (λ p, build_root_conflict_error p.1 conflict_message)
                (List.filter (λ p, bool_decide (p.2 = None)) (zip es v))).
Proof.
  revert v acc. induction es as [|e es IH]; intros [|x v] [[imp anc] err] Hl; try done.
  { cbn. by rewrite !app_nil_r. }
  injection Hl as Hl. cbn [zip zip_with foldl]. rewrite (IH v _ Hl).
  destruct x as [i|]; cbn; by rewrite <- ?(assoc_L (++)).
Qed.

Section Isolation.
Context {D : Type}.
Variable insert_batch_fn : string → list pydict → list Z → M D (list CreatedRowRef).
Variable sqlstates : exn → option string * option string * option string.
Local Abbreviation on_rows := (_on_rows_inserted (D := D)).
Local Abbreviation on_leaf := (_append_leaf_error (D := D)).
Local Abbreviation try_batch := (insert_current insert_batch_fn on_rows).
Local Abbreviation loop := (isolate insert_batch_fn sqlstates on_rows on_leaf).
Implicit Types (s : load_state D).

Lemma anchors_run cur rows : ∀ es1 a s,
  numbered a (es1 ++ cur) → map source_ordinal rows = zseq (a + Z.of_nat (length es1)) (length cur) →
  ∃ s', for_each (λ r, match entry_at 0 (es1 ++ cur) (source_ordinal r) with
      | None => raise (OtherError "KeyError")
      | Some e => modify (λ s, mkLoad (ls_db s) (ls_imported s)
           (set_anchors (entry_str_list e "anchor_keys") (created_id r) (ls_anchors s)) (ls_errors s))
      end) rows s = (Ok tt, s') ∧
    ls_db s' = ls_db s ∧
    ∀ imp, foldl record (imp, ls_anchors s, ls_errors s) (zip cur (map (Some ∘ created_id) rows)) =
      (imp ++ map created_id rows, ls_anchors s', ls_errors s') ∧ ls_imported s' = ls_imported s.
Proof.
  revert rows. induction cur as [|e cur IH]; intros [|r rows] es1 a s Hn Ho; try done.
  { exists s. cbn. split_and!; [done..|]. intros imp. by rewrite app_nil_r. }
  injection Ho as Hr Ho. cbn [for_each]. rewrite Hr, (numbered_entry _ _ _ _ _ Hn). unfold bind at 1, modify at 1.
  edestruct (IH rows (es1 ++ [e]) a) as (s' & E & Hdb & Hacc).
  { by rewrite <- (assoc_L (++)). }
  { rewrite Ho, length_app. cbn. f_equal; lia. }
  rewrite <- (assoc_L (++)) in E. cbn [app] in E. exists s'. split; [exact E|]. split; [done|].
  intros imp. cbn [map zip zip_with foldl]. destruct (Hacc (imp ++ [created_id r])) as [Hf Hi].
  split; [|exact Hi]. unfold record at 2. cbn [fst snd compose]. unfold compose at 1. 
  etrans; [exact Hf|]. by rewrite <- (assoc_L (++)).
Qed.

(** One attempt: either the rows of the batch are all recorded with positive ids, or an exception
    leaves the account as it was. *)
Lemma try_batch_spec et cur a s :
  0 ≤ a → numbered a cur →
  match try_batch et cur s with
  | (Ok rows, s') => length rows = length cur ∧ Forall (λ r, 0 < created_id r) rows ∧
      account_of s' = foldl record (account_of s) (zip cur (map (Some ∘ created_id) rows))
  | (Err _, s') => account_of s' = account_of s
  end.
Proof.
  intros Ha Hn. unfold insert_current. rewrite (numbered_ordinals _ _ Hn).
  unfold bind at 1, on_db. destruct (insert_batch_fn _ _ _ _) as [[rows0|e] d]; [|done].
  unfold bind at 1, lift. destruct (_require_created_row_refs rows0 _ _) as [rows|e] eqn:Er; [|done].
  destruct (require_refs_ok _ _ _ _ _ Er) as [Ho Hpos].
  unfold bind at 1, _on_rows_inserted, bind at 1, modify at 1, remember_created_anchor_keys.
  rewrite (numbered_ordinals _ _ Hn). unfold bind at 1, lift. rewrite (require_refs_fixed _ _ _ _ _ _ Ha Er).
  edestruct (anchors_run cur rows [] a) as (s' & E & Hdb & Hacc); [done|by rewrite Ho, Z.add_0_r|].
  cbn [app] in E. rewrite E. cbn.
  split_and!; [|done|].
  - rewrite <- (length_map source_ordinal rows), Ho. clear. generalize a.
    induction (length cur); intros ?; simpl; auto.
  - destruct (Hacc (ls_imported s)) as [Hf Hi]. unfold account_of. rewrite Hi. cbn in Hf |- *. by rewrite Hf.
Qed.

(** ** The bisection as a big-step relation *)

Definition split_at (cur : list entry) : nat := Nat.max 1 (length cur / 2).
Definition with_error (x : entry) s : load_state D :=
  mkLoad (ls_db s) (ls_imported s) (ls_anchors s) (ls_errors s ++ [build_root_conflict_error x conflict_message]).

(** [flushed et cur v s s']: the loop works off the batch [cur], giving its entries the verdicts [v]. *)
Inductive flushed (et : string) : list entry → list (option Z) → load_state D → load_state D → Prop :=
  | flushed_ok cur rows s s' :
      try_batch et cur s = (Ok rows, s') →
      flushed et cur (map (Some ∘ created_id) rows) s s'
  | flushed_leaf x e s s1 :
      try_batch et [x] s = (Err e, s1) → is_unique_violation sqlstates e = true →
      flushed et [x] [None] s (with_error x s1)
  | flushed_split cur e s s1 v1 s2 v2 s3 :
      try_batch et cur s = (Err e, s1) → is_unique_violation sqlstates e = true →
      (2 ≤ length cur)%nat →
      flushed et (take (split_at cur) cur) v1 s1 s2 →
      flushed et (drop (split_at cur) cur) v2 s2 s3 →
      flushed et cur (v1 ++ v2) s s3.
Inductive flushed_all (et : string) : list (list entry) → list (option Z) → load_state D → load_state D → Prop :=
  | flushed_all_nil s : flushed_all et [] [] s s
  | flushed_all_cons cur rest v1 v2 s s1 s2 :
      flushed et cur v1 s s1 → flushed_all et rest v2 s1 s2 →
      flushed_all et (cur :: rest) (v1 ++ v2) s s2.

Definition passes (worklist : list (list entry)) : nat := sum_list_with (λ b, 2 * length b - 1)%nat worklist.

Lemma passes_cons b w : passes (b :: w) = (2 * length b - 1 + passes w)%nat.
Proof. done. Qed.
Lemma split_bounds cur : (2 ≤ length cur)%nat → (1 ≤ split_at cur < length cur)%nat.
Proof.
  unfold split_at. intros H. pose proof (Nat.div_lt (length cur) 2 ltac:(lia) ltac:(lia)). lia.
Qed.
Lemma split_lengths cur :
  (2 ≤ length cur)%nat →
  (1 ≤ length (take (split_at cur) cur))%nat ∧ (1 ≤ length (drop (split_at cur) cur))%nat ∧
  (length (take (split_at cur) cur) + length (drop (split_at cur) cur) = length cur)%nat.
Proof. intros H%split_bounds. rewrite length_take, length_drop. lia. Qed.

(** The batches of the worklist: not empty, with consecutive ordinals. *)
Definition slice (b : list entry) : Prop := (1 ≤ length b)%nat ∧ ∃ a, 0 ≤ a ∧ numbered a b.
Lemma slice_cut cur :
  (2 ≤ length cur)%nat → slice cur → slice (take (split_at cur) cur) ∧ slice (drop (split_at cur) cur).
Proof.
  intros H2 [_ (a & Ha & Hn)]. destruct (split_lengths cur H2) as (Ht & Hd & _).
  rewrite <- (take_drop (split_at cur) cur), numbered_app in Hn. destruct Hn as [Hn1 Hn2].
  split; (split; [done|]); eexists; (split; [|done]); lia.
Qed.

(** With a pass per batch and per split the loop runs to its end: it works off every batch, or it
    stops at an exception that is not a unique violation. *)
Lemma isolate_flushed et fuel : ∀ worklist created skipped s,
  Forall slice worklist → (passes worklist ≤ fuel)%nat →
  match loop fuel et worklist created skipped s with
  | (Ok (Some (rows, k)), s') => ∃ v, flushed_all et worklist v s s' ∧
      map created_id rows = map created_id created ++ omap id v ∧ k = skipped + skips v
  | (Ok None, _) => False
  | (Err e, _) => is_unique_violation sqlstates e = false ∧
      ∃ cur s1 s2, slice cur ∧ try_batch et cur s1 = (Err e, s2)
  end.
Proof.
  induction fuel as [|fuel IH]; intros [|cur rest] created skipped s Hne Hf.
  1,3: exists []; rewrite app_nil_r, Z.add_0_r; split; [constructor|done].
  { inversion_clear Hne as [|?? [Hc _] _]. rewrite passes_cons in Hf. lia. }
  inversion_clear Hne as [|?? Hcur Hrest]. pose proof (proj1 Hcur) as Hc. rewrite passes_cons in Hf. cbn [isolate].
  destruct (try_batch et cur s) as [[rows|e] s1] eqn:Et.
  - specialize (IH rest (created ++ rows) skipped s1 Hrest ltac:(lia)).
    destruct (loop _ _ _ _ _ _) as [[[[rows' k]|]|e] s']; [|done|done].
    destruct IH as (v & Hv & Hr & Hk). exists (map (Some ∘ created_id) rows ++ v).
    split; [econstructor; [by constructor|done]|]. rewrite Hr, Hk, map_app, <- (assoc_L (++)). split.
    + f_equal. rewrite omap_app. f_equal. clear. induction rows; simpl; f_equal; done.
    + unfold skips. rewrite List.filter_app, length_app.
      rewrite (filter_none _ (map _ rows)); [done|]. apply Forall_forall. intros o (r & -> & _)%elem_of_map. done.
  - destruct (is_unique_violation sqlstates e) eqn:Eu; cbn [negb]; [|split; [done|]].
    2:{ by exists cur, s, s1. }
    destruct cur as [|x [|y cur]]; [cbn in Hc; lia| |].
    + rewrite (bind_ok (on_leaf x) _ s1 tt (with_error x s1)) by done.
      specialize (IH rest created (skipped + 1) (with_error x s1) Hrest ltac:(cbn [length] in Hf; lia)).
      destruct (loop _ _ _ _ _ _) as [[[[rows' k]|]|e'] s']; [|done|done].
      destruct IH as (v & Hv & Hr & Hk). exists ([None] ++ v).
      split; [econstructor; [by eapply flushed_leaf|done]|]. split; [done|].
      rewrite Hk. unfold skips. cbn [app List.filter bool_decide length]. cbn. lia.
    + set (cur' := x :: y :: cur) in *. fold (split_at cur').
      assert (2 ≤ length cur')%nat as H2 by (cbn; lia). destruct (split_lengths cur' H2) as (Hl1 & Hl2 & Hsum).
      destruct (slice_cut cur' H2 Hcur) as [Ht Hd].
      assert (passes (take (split_at cur') cur' :: drop (split_at cur') cur' :: rest) ≤ fuel)%nat as Hp.
      { rewrite !passes_cons. lia. }
      specialize (IH (take (split_at cur') cur' :: drop (split_at cur') cur' :: rest) created skipped s1
        ltac:(apply Forall_cons; split; [done|by apply Forall_cons]) Hp).
      destruct (loop _ _ _ _ _ _) as [[[[rows' k]|]|e'] s']; [|done|done].
      destruct IH as (v & Hv & Hr & Hk). exists v. split; [|done].
      inversion Hv as [|?? v1 v2 ? s2 ? Hv1 Hv']; subst. inversion Hv' as [|?? v3 v4 ? s3 ? Hv3 Hv4]; subst.
      rewrite (assoc_L (++)). econstructor; [|exact Hv4]. by eapply flushed_split.
Qed.

(** The account of a batch is the account of its verdicts. *)
Lemma flushed_account et cur v s s' :
  flushed et cur v s s' → ∀ a, 0 ≤ a → numbered a cur →
  length v = length cur ∧ account_of s' = foldl record (account_of s) (zip cur v).
Proof.
  induction 1 as [cur rows s s' E|x e s s1 E Hu|cur e s s1 v1 s2 v2 s3 E Hu H2 H1 IH1 Hd IHd]; intros a Ha Hn.
  - pose proof (try_batch_spec et cur a s Ha Hn) as Ht. rewrite E in Ht.
    destruct Ht as (Hl & _ & Hacc). by rewrite length_map.
  - pose proof (try_batch_spec et [x] a s Ha Hn) as Ht. rewrite E in Ht. split; [done|].
    unfold account_of in Ht |- *. injection Ht as Hi Han Her. cbn. by rewrite Hi, Han, Her.
  - pose proof (try_batch_spec et cur a s Ha Hn) as Ht. rewrite E in Ht.
    pose proof (take_drop (split_at cur) cur) as Hcut. rewrite <- Hcut, numbered_app in Hn. destruct Hn as [Hn1 Hn2].
    destruct (IH1 a Ha Hn1) as [Hl1 Ha1]. edestruct IHd as [Hl2 Ha2]; [|exact Hn2|]; [lia|].
    split; [rewrite length_app, Hl1, Hl2, <- length_app; by rewrite Hcut|].
    rewrite <- Hcut. rewrite zip_with_app by done. rewrite foldl_app. by rewrite Ha2, Ha1, Ht.
Qed.

Lemma flush_flushed et es s :
  match flush_root_entries_with_conflict_isolation insert_batch_fn sqlstates on_rows on_leaf et es s with
  | (Ok (Some (rows, k)), s') => ∃ v, (es ≠ [] → flushed et (index_entries 0 es) v s s') ∧
      length v = length es ∧ map created_id rows = omap id v ∧ k = skips v ∧
      account_of s' = foldl record (account_of s) (zip es v) ∧ (es = [] → s' = s)
  | (Ok None, _) => False
  | (Err e, _) => is_unique_violation sqlstates e = false ∧
      ∃ cur s1 s2, slice cur ∧ try_batch et cur s1 = (Err e, s2)
  end.
Proof.
  destruct es as [|e0 es0]; [by exists []|]. set (es := e0 :: es0).
  assert (∀ a l, length (index_entries a l) = length l) as Hlen.
  { intros a l. revert a. induction l; intros; simpl; auto. }
  pose proof (isolate_flushed et (2 * length es) [index_entries 0 es] [] 0 s) as Hi.
  change (flush_root_entries_with_conflict_isolation insert_batch_fn sqlstates on_rows on_leaf et es s)
    with (loop (2 * length es) et [index_entries 0 es] [] 0 s).
  assert (es ≠ []) as Hes by done. assert (1 ≤ length es)%nat as H1 by (cbn; lia). clearbody es.
  ospecialize (Hi _ _); [|rewrite passes_cons, Hlen; cbn; lia|].
  { apply Forall_singleton. split; [by rewrite Hlen|]. exists 0. by split; [|apply numbered_index]. }
  destruct (loop _ _ _ _ _ _) as [[[[rows k]|]|e] s']; [|done|done].
  destruct Hi as (v & Hv & Hr & Hk). inversion Hv as [|? ? v1 v2 ? s1 ? Hv1 Hv2]; subst.
  inversion Hv2; subst. rewrite app_nil_r in *.
  destruct (flushed_account _ _ _ _ _ Hv1 0 ltac:(lia) (numbered_index 0 es)) as [Hl Ha].
  exists v1. rewrite Hlen in Hl. rewrite record_index in Ha. split_and!; try done.
Qed.

(** C20. Loading a batch of root rows ends (the bisection never runs out of passes) and accounts
    for every row exactly once: when it returns, each row was either created, and its id is
    returned and appended to the imported ids in input order and bound to its anchor keys, or
    skipped, and one conflict error carrying its row number and data is appended, in input order.
    The load is abandoned only on an exception that is not a unique violation. *)
Theorem every_row_is_accounted_for (et : string) (es : list entry) (s : load_state D) :
  match _flush_bundle_root_entries_with_conflict_isolation insert_batch_fn sqlstates et es s with
  | (Ok (Some ids), s') =>
      ∃ v : list (option Z), length v = length es ∧ ids = omap id v ∧
        ls_imported s' = ls_imported s ++ ids ∧
        ls_errors s' = ls_errors s ++
          map (λ p, build_root_conflict_error p.1 conflict_message)
            (List.filter (λ p, bool_decide (p.2 = None)) (zip es v)) ∧
        ls_anchors s' =
          foldl (λ m p, match p.2 with
                        | Some i => set_anchors (entry_str_list p.1 "anchor_keys") i m
                        | None => m end) (ls_anchors s) (zip es v)
  | (Ok None, _) => False
  | (Err e, _) => is_unique_violation sqlstates e = false
  end.
Proof.
  unfold _flush_bundle_root_entries_with_conflict_isolation, bind.
  pose proof (flush_flushed et es s) as Hf.
  destruct (flush_root_entries_with_conflict_isolation _ _ _ _ _ _ _) as [[[[rows k]|]|e] s'];
    [|done|by destruct Hf].
  destruct Hf as (v & _ & Hl & Hr & _ & Ha & _). cbn. exists v.
  rewrite (record_imported es v _ Hl) in Ha. injection Ha as -> -> ->. by rewrite Hr.
Qed.

(** ** Bisection against one-by-one insertion *)

Context {V : Type}.
(** What the database holds, as far as conflicts go, and the effect of one row on it: [None] when
    the row violates a unique constraint. *)
Variable view : D → V.
Variable accept : V → pydict → option V.

Fixpoint accept_all (t : V) (rows : list pydict) : option V :=
  match rows with
  | [] => Some t
  | r :: rows' => match accept t r with Some t' => accept_all t' rows' | None => None end
  end.
(** The reference: insert one row at a time and skip the rows that conflict. *)
Fixpoint one_by_one (t : V) (rows : list pydict) : list bool * V :=
  match rows with
  | [] => ([], t)
  | r :: rows' =>
      match accept t r with
      | Some t' => let '(b, t'') := one_by_one t' rows' in (true :: b, t'')
      | None => let '(b, t'') := one_by_one t rows' in (false :: b, t'')
      end
  end.

(** A batch INSERT is one statement: it inserts all its rows and returns a positive id for each, or
    it raises a unique violation and inserts none. *)
Definition all_or_nothing : Prop := ∀ et rows ordinals d,
  length ordinals = length rows →
  match accept_all (view d) rows, insert_batch_fn et rows ordinals d with
  | Some t, (Ok refs, d') => view d' = t ∧ map source_ordinal refs ≡ₚ ordinals ∧
                             Forall (λ r, 0 < created_id r) refs
  | None, (Err e, d') => view d' = view d ∧ is_unique_violation sqlstates e = true
  | _, _ => False
  end.

Lemma one_by_one_all t rows t' :
  accept_all t rows = Some t' → one_by_one t rows = (map (λ _, true) rows, t').
Proof.
  revert t. induction rows as [|r rows IH]; intros t; simpl; [by intros [= ->]|].
  destruct (accept t r) as [t1|]; [|done]. intros H. by rewrite (IH _ H).
Qed.
Lemma one_by_one_app t rows1 rows2 :
  one_by_one t (rows1 ++ rows2) =
    let '(b1, t1) := one_by_one t rows1 in
    let '(b2, t2) := one_by_one t1 rows2 in (b1 ++ b2, t2).
Proof.
  revert t. induction rows1 as [|r rows1 IH]; intros t; cbn [app one_by_one].
  { by destruct (one_by_one t rows2). }
  destruct (accept t r) as [t1|]; rewrite IH.
  - destruct (one_by_one t1 rows1) as [b1 t2]. by destruct (one_by_one t2 rows2).
  - destruct (one_by_one t rows1) as [b1 t2]. by destruct (one_by_one t2 rows2).
Qed.

Local Abbreviation data := (map (λ e, entry_dict e "data")).

Lemma data_index a es : data (index_entries a es) = data es.
Proof.
  revert a. induction es as [|e es IH]; intros a; [done|]. cbn [index_entries map]. rewrite IH. f_equal.
  unfold entry_dict. by rewrite dget_dset_ne.
Qed.
Lemma zseq_length a n : length (zseq a n) = n.
Proof. revert a. induction n; intros; simpl; auto. Qed.

Lemma try_batch_atomic et cur a s :
  all_or_nothing → 0 ≤ a → numbered a cur →
  match accept_all (view (ls_db s)) (data cur), try_batch et cur s with
  | Some t, (Ok rows, s') => view (ls_db s') = t
  | None, (Err e, s') => view (ls_db s') = view (ls_db s) ∧ is_unique_violation sqlstates e = true
  | _, _ => False
  end.
Proof.
  intros Hat Ha Hn. specialize (Hat et (data cur) (zseq a (length cur)) (ls_db s)).
  rewrite zseq_length, length_map in Hat. specialize (Hat eq_refl).
  destruct (accept_all _ _) as [t|]; unfold insert_current; rewrite (numbered_ordinals _ _ Hn);
    unfold bind at 1, on_db; destruct (insert_batch_fn _ _ _ _) as [[refs|e] d']; [|done..].
  destruct Hat as (Ht & Hp & Hpos). unfold bind at 1, lift.
  rewrite (require_refs_accepts _ _ _ _ Ha Hp Hpos).
  unfold bind at 1, _on_rows_inserted, bind at 1, modify at 1, remember_created_anchor_keys.
  rewrite (numbered_ordinals _ _ Hn). unfold bind at 1, lift.
  rewrite (require_refs_fixed _ _ _ _ _ _ Ha (require_refs_accepts _ _ _ "ctx" Ha Hp Hpos)).
  edestruct (anchors_run cur (ssort ref_leb refs) [] a) as (s' & E & Hdb & _);
    [done|cbn [length]; rewrite Z.add_0_r; by apply refs_by_ordinal|].
  cbn [app] in E. rewrite E. cbn. rewrite Hdb. done.
Qed.

Lemma flushed_one_by_one et cur v s s' :
  all_or_nothing → flushed et cur v s s' → ∀ a, 0 ≤ a → numbered a cur →
  one_by_one (view (ls_db s)) (data cur) = (map (λ o, bool_decide (is_Some o)) v, view (ls_db s')).
Proof.
  intros Hat. induction 1 as [cur rows s s' E|x e s s1 E Hu|cur e s s1 v1 s2 v2 s3 E Hu H2 H1 IH1 Hd IHd]; intros a Ha Hn.
  - pose proof (try_batch_atomic et cur a s Hat Ha Hn) as Ht.
    pose proof (try_batch_spec et cur a s Ha Hn) as Hl. rewrite E in Ht, Hl. destruct Hl as [Hl _].
    destruct (accept_all _ _) as [t|] eqn:Ea; [|done]. rewrite (one_by_one_all _ _ _ Ea), Ht. f_equal.
    rewrite !map_map. revert Hl. clear. revert cur. induction rows as [|r rows IH]; intros [|e cur] Hl; try done.
    injection Hl as Hl. cbn [map]. by rewrite (IH _ Hl).
  - pose proof (try_batch_atomic et [x] a s Hat Ha Hn) as Ht. rewrite E in Ht. cbn in Ht |- *.
    destruct (accept _ _); [done|]. destruct Ht as [Ht _]. by rewrite Ht.
  - pose proof (try_batch_atomic et cur a s Hat Ha Hn) as Ht. rewrite E in Ht.
    destruct (accept_all _ _); [done|]. destruct Ht as [Ht _].
    pose proof (take_drop (split_at cur) cur) as Hcut. rewrite <- Hcut, numbered_app in Hn. destruct Hn as [Hn1 Hn2].
    rewrite <- Hcut at 1. rewrite map_app, one_by_one_app, <- Ht, (IH1 a Ha Hn1).
    erewrite IHd; [|shelve|exact Hn2]. by rewrite map_app.
    Unshelve. lia.
Qed.

End Isolation.

(** ** A keyed store: phones are unique, the id sequence advances on failed batches too *)

Definition sqlstate_in_message (e : exn) : option string * option string * option string :=
  match e with OtherError m => (Some m, None, None) | _ => (None, None, None) end.
Definition phone_accept (t : list string) (row : pydict) : option (list string) :=
  let phone := py_str (get "phone" row) in
  if bool_decide (phone ∈ t) then None else Some (phone :: t).
Definition keyed_insert (et : string) (rows : list pydict) (ordinals : list Z)
  : M (nat * list string) (list CreatedRowRef) :=
  λ d, let next := (d.1 + length rows)%nat in
       match accept_all phone_accept d.2 rows with
       | Some t => (Ok (zip_with mkRowRef ordinals (zseq (Z.of_nat d.1 + 1) (length rows))), (next, t))
       | None => (Err (OtherError "23505"), (next, d.2))
       end.

Lemma keyed_insert_atomic : all_or_nothing keyed_insert sqlstate_in_message snd phone_accept.
Proof.
  intros et rows ordinals [n t] Hl. unfold keyed_insert. cbn [fst snd].
  destruct (accept_all phone_accept t rows) as [t'|]; [|done]. split_and!; [done| |].
  - rewrite <- (zseq_length (Z.of_nat n + 1) (length rows)) in Hl. revert Hl.
    generalize (zseq (Z.of_nat n + 1) (length rows)). clear. induction ordinals as [|o os IH]; intros [|i l] Hl; try done.
    injection Hl as Hl. cbn. by rewrite (IH _ Hl).
  - assert (∀ a os, 0 < a → Forall (λ r, 0 < created_id r) (zip_with mkRowRef os (zseq a (length rows)))) as H.
    { clear. induction (length rows) as [|k IH]; intros a [|o os] Ha; cbn; constructor; [done|]. apply IH. lia. }
    apply H. lia.
Qed.

Definition phone_entry (row : Z) (phone : string) : entry :=
  [("row", PInt row); ("data", PDict [("phone", PStr phone)]); ("anchor_keys", PList [PStr ("phone:" +:+ phone)])].
Definition three_entries : list entry :=
  [phone_entry 2 "0550000001"; phone_entry 3 "0550000001"; phone_entry 4 "0550000002"].
Definition empty_load {D} (d : D) : load_state D := mkLoad d [] [] [].


(** ** Inside one PostgreSQL transaction

    A transaction with a failed statement answers SQLSTATE 25P02 to every later statement until it
    is rolled back; the loads run their batches in one transaction and set no savepoint. *)

Definition in_transaction {D} (insert : string → list pydict → list Z → M D (list CreatedRowRef))
    (et : string) (rows : list pydict) (ordinals : list Z) : M (D * bool) (list CreatedRowRef) :=
  λ s, if s.2 then (Err (OtherError "25P02"), s)
       else match insert et rows ordinals s.1 with
            | (Ok refs, d') => (Ok refs, (d', false))
            | (Err e, d') => (Err e, (d', true))
            end.

(** There the first conflict of a batch of several rows ends the load with 25P02: no row of the
    batch is isolated. *)
Lemma aborted_transaction_defeats_isolation {D} (insert : string → list pydict → list Z → M D (list CreatedRowRef))
    et es (d d' : D) imported anchors errors :
  (2 ≤ length es)%nat →
  insert et (map (λ e, entry_dict e "data") es) (_batch_entry_source_ordinals (index_entries 0 es)) d
    = (Err (OtherError "23505"), d') →
  _flush_bundle_root_entries_with_conflict_isolation (in_transaction insert) sqlstate_in_message et es
    (mkLoad (d, false) imported anchors errors)
  = (Err (OtherError "25P02"), mkLoad (d', true) imported anchors errors).
Proof.
  intros H2 Hi. destruct es as [|x [|y es]]; cbn in H2; try lia. set (all := x :: y :: es) in *.
  unfold _flush_bundle_root_entries_with_conflict_isolation, flush_root_entries_with_conflict_isolation.
  unfold all at 1. fold all. unfold bind at 1.
  assert (∃ k, 2 * length all = S (S k))%nat as [k ->] by (exists (2 * length es + 2)%nat; cbn; lia).
  assert (∃ z w l, index_entries 0 all = z :: w :: l) as (z & w & l & Ez) by (cbn; eauto).
  cbn [isolate]. unfold insert_current at 1. unfold bind at 1, on_db. cbn [ls_db].
  unfold in_transaction at 1. cbn [fst snd]. rewrite data_index, Hi. rewrite Ez. cbn. reflexivity.
Qed.

(** ** Root keys of a file *)

(** The decisions for the rows of a file, in order: each row is remembered after those before it. *)
Fixpoint remember_rows (rows : list (Z * pydict)) : M (list (string * Z)) (list RootKeyDecision) :=
  match rows with
  | [] => ret []
  | (row_num, row_data) :: rows' =>
      let! d := remember_root_key row_data row_num in
      let! ds := remember_rows rows' in
      ret (d :: ds)
  end.
(** The number of the first row with the key. *)
Definition first_row (key : string) (rows : list (Z * pydict)) : option Z :=
  fst <$> head (List.filter (λ r, bool_decide (root_phone_key r.2 = key)) rows).
(** What the decision for a row should be, given the rows before it. *)
Definition decision_after (before : list (Z * pydict)) (row : Z * pydict) : RootKeyDecision :=
  let key := root_phone_key row.2 in
  if str_empty key then mkRootKey EmptyString 0 false
  else match first_row key before with
       | Some winner => mkRootKey key winner true
       | None => mkRootKey key row.1 false
       end.

Definition seen_of (before : list (Z * pydict)) (seen : list (string * Z)) : Prop :=
  ∀ key, key ≠ EmptyString → dget key seen = first_row key before.

Lemma first_row_snoc key before row :
  first_row key (before ++ [row]) =
    match first_row key before with
    | Some w => Some w
    | None => if bool_decide (root_phone_key row.2 = key) then Some row.1 else None
    end.
Proof.
  unfold first_row. rewrite List.filter_app. destruct (List.filter _ before); [|done].
  cbn. by case_bool_decide.
Qed.
Lemma first_row_positive key before w :
  Forall (λ r, 0 < r.1) before → first_row key before = Some w → 0 < w.
Proof.
  intros Hp%(Forall_filter_b _ (λ r, bool_decide (root_phone_key r.2 = key))). unfold first_row.
  destruct (List.filter _ before) as [|r l]; [done|]. inversion_clear Hp. by intros [= <-].
Qed.
Lemma remember_root_key_spec before row seen :
  Forall (λ r, 0 < r.1) before → seen_of before seen →
  ∃ seen', remember_root_key row.2 row.1 seen = (Ok (decision_after before row), seen') ∧
           seen_of (before ++ [row]) seen'.
Proof.
  intros Hp Hs. unfold remember_root_key, decision_after.
  destruct (str_empty (root_phone_key row.2)) eqn:Ek.
  - exists seen. split; [done|]. intros key Hk. rewrite first_row_snoc, (Hs key Hk).
    destruct (first_row key before); [done|]. rewrite bool_decide_eq_false_2; [done|].
    intros <-. by destruct (root_phone_key row.2).
  - assert (root_phone_key row.2 ≠ EmptyString) as Hne by (by intros E; rewrite E in Ek).
    rewrite bind_gets, (Hs _ Hne). destruct (first_row (root_phone_key row.2) before) as [w|] eqn:Ew; cbn [from_option id].
    + rewrite (proj2 (Z.ltb_lt 0 w)) by (by eapply first_row_positive). exists seen. split; [done|].
      intros key Hk. rewrite first_row_snoc, (Hs key Hk). destruct (first_row key before) eqn:E; [done|].
      rewrite bool_decide_eq_false_2; [done|]. intros <-. congruence.
    + exists (dset (root_phone_key row.2) row.1 seen). split; [done|]. intros key Hk.
      rewrite first_row_snoc. case_bool_decide as E.
      * subst key. by rewrite dget_dset_eq, Ew.
      * rewrite dget_dset_ne by done. rewrite (Hs key Hk). by destruct (first_row key before).
Qed.
Lemma remember_rows_spec rows : ∀ before seen,
  Forall (λ r, 0 < r.1) (before ++ rows) → seen_of before seen →
  (remember_rows rows seen).1 =
    Ok (imap (λ i row, decision_after (before ++ take i rows) row) rows).
Proof.
  induction rows as [|row rows IH]; intros before seen Hp Hs; [done|].
  destruct (remember_root_key_spec before row seen) as (seen' & E & Hs'); [by apply Forall_app in Hp as [? _]|done|].
  destruct row as [n data]. cbn [remember_rows]. rewrite (bind_ok _ _ _ _ _ E). unfold bind at 1.
  rewrite (assoc_L (++) before [(n, data)] rows : before ++ (n, data) :: rows = _) in Hp.
  specialize (IH (before ++ [(n, data)]) seen' Hp Hs').
  destruct (remember_rows rows seen') as [[ds|e] s'']; cbn in IH; [|done]. injection IH as ->.
  cbn [ret fst imap take]. rewrite app_nil_r. do 2 f_equal.
  apply imap_ext. intros i x _. cbn [compose take]. unfold compose. cbn [take]. by rewrite <- (assoc_L (++)).
Qed.

(** In a file whose row numbers are positive, the first row with a phone key wins and every
    later row with it is marked a duplicate of that first row; rows without a usable phone are
    never duplicates. *)
Theorem first_row_with_a_key_wins (rows : list (Z * pydict)) :
  Forall (λ r, 0 < r.1) rows →
  (remember_rows rows []).1 = Ok (imap (λ i row, decision_after (take i rows) row) rows).
Proof. intros Hp. by apply (remember_rows_spec rows [] []). Qed.

Lemma first_row_with_a_key_wins_witness :
  let rows := [(2, [("phone", PStr "0550 00 00 01")]); (3, [("phone", PNone)]);
               (4, [("phone", PStr "+213550000001")])] in
  (remember_rows rows []).1 = Ok [mkRootKey "phone:0550000001" 2 false; mkRootKey EmptyString 0 false;
                                  mkRootKey "phone:0550000001" 2 true].
Proof. intros rows. rewrite (first_row_with_a_key_wins rows); [vm_compute; reflexivity|by repeat constructor]. Defined.

(** ** Phone formats *)

Definition all_digits (s : string) : Prop := str_filter py_isdigit s = s.

Lemma substring_all s : String.substring 0 (String.length s) s = s.
Proof. induction s as [|c s IH]; [done|]. cbn [String.length String.substring]. by rewrite IH. Qed.

Ltac eval_digits :=
  repeat match goal with
    |- context [py_isdigit ?c] => let b := eval vm_compute in (py_isdigit c) in change (py_isdigit c) with b
  end.

(** A mobile number (nine digits from 5, 6 or 7) has one phone key in each of the formats in
    which agencies write it: national with the leading zero, bare, with +213 and with 00213. *)
Theorem phone_formats_share_a_key (c : ascii) (rest : string) :
  c ∈ ["5"%char; "6"%char; "7"%char] → all_digits rest → String.length rest = 8%nat →
  Forall (λ p, _normalize_phone_for_dedup p = "0" +:+ String c rest)
    ["0" +:+ String c rest; String c rest; "+213" +:+ String c rest; "00213" +:+ String c rest].
Proof.
  unfold all_digits. intros Hc Hr Hl.
  assert (String.substring 0 8 rest = rest) as Hsub by (by rewrite <- Hl, substring_all).
  assert (∀ x, "0" +:+ x = String "0" x) as H0 by done.
  set_unfold in Hc. destruct Hc as [->|[->|[->|[]]]];
    change ("+213" +:+ String ?d rest) with (String "+" (String "2" (String "1" (String "3" (String d rest)))));
    change ("00213" +:+ String ?d rest)
      with (String "0" (String "0" (String "2" (String "1" (String "3" (String d rest))))));
    rewrite H0; repeat (apply Forall_cons; split); try done; unfold _normalize_phone_for_dedup, str_from;
    rewrite !H0; cbn -[String.substring]; rewrite ?Hr; eval_digits;
    cbn -[String.substring code]; rewrite ?Hl; cbn -[code]; rewrite ?Hsub;
    change (9 <? Z.of_nat 12) with true; cbn -[code]; by rewrite ?Hl.
Qed.

Lemma phone_formats_share_a_key_witness :
  Forall (λ p, _normalize_phone_for_dedup p = "0550123456")
    ["0550123456"; "550123456"; "+213550123456"; "00213550123456"].
Proof.
  exact (phone_formats_share_a_key "5"%char "50123456" ltac:(set_solver) ltac:(reflexivity) ltac:(reflexivity)).
Defined.
