(* ===== verification/ImportPhases.v ===== *)
(** * Phases of a distributed import and their leases

    Models src/server/services/import_workflow_leases.py and import_phase_attempts.py: the rows of
    [ImportChunkPhase] with the attempt that holds each (its lease token), the jobs they belong to,
    and the fence around the writes of an attempt.

    Each call runs under a row lock or is one UPDATE, so it is one transition of the state.  Times
    and the uuid of a new lease are arguments.  [D] is what the fenced writes change.  The workflow
    payload of a job is a field of its row; payloads are JSON values, on which
    [json_safe_value] is the identity. *)

From S2P Require Import Prelude PyValue ImportQueue.
Local Open Scope Z_scope.

(* src/server/imports/models.py :: ImportChunkPhase.Phase *)
Inductive phase_kind : Type := PLAN | LOAD.
(* src/server/imports/models.py :: ImportChunkPhase.Status *)
Inductive phase_status : Type :=
  ph_BLOCKED | ph_PENDING | ph_QUEUED | ph_RUNNING | ph_CANCELLED | ph_COMPLETED | ph_FAILED.
(* src/server/imports/models.py :: ImportChunk.Role *)
Inductive chunk_role : Type := SINGLE | ROOT | CHILD.
#[export] Instance phase_kind_eq_dec : EqDecision phase_kind.
Proof. solve_decision. Defined.
#[export] Instance phase_status_eq_dec : EqDecision phase_status.
Proof. solve_decision. Defined.
#[export] Instance chunk_role_eq_dec : EqDecision chunk_role.
Proof. solve_decision. Defined.

(** A phase with what its chunk says of it: the job, the role and the place in the file. *)
(* src/server/imports/models.py :: ImportChunkPhase *)
Record chunk_phase := mkPhase {
  cp_id : Z;
  cp_job : string;
  cp_role : chunk_role;
  cp_ordinal : Z;
  cp_phase : phase_kind;
  cp_status : phase_status;
  cp_attempt_count : Z;
  cp_task_id : string;
  cp_lease_token : string;
  cp_heartbeat_at : option Z;
  cp_lease_expires_at : option Z;
  cp_started_at : option Z;
  cp_finished_at : option Z;
  cp_error_payload : pydict;
  cp_metrics_payload : pydict
}.

(** The fields of [ImportJob] the workflow reads or writes. *)
Record workflow_job := mkWJob {
  wj_id : string;
  wj_status : import_status;
  wj_workflow : pydict;
  wj_summary : pydict;
  wj_inference : pydict;
  wj_progress : Z;
  wj_detail : pydict
}.

Definition StaleImportPhaseLeaseError (msg : string) : exn := RuntimeError ("StaleImportPhaseLeaseError: " +:+ msg).
Definition ImportPhaseAttemptCancelled (msg : string) : exn := RuntimeError ("ImportPhaseAttemptCancelled: " +:+ msg).
Definition DoesNotExist : exn := OtherError "DoesNotExist".

(** ** Writes to a row *)

Definition set_status (st : phase_status) (p : chunk_phase) : chunk_phase :=
  mkPhase (cp_id p) (cp_job p) (cp_role p) (cp_ordinal p) (cp_phase p) st (cp_attempt_count p) (cp_task_id p)
    (cp_lease_token p) (cp_heartbeat_at p) (cp_lease_expires_at p) (cp_started_at p) (cp_finished_at p)
    (cp_error_payload p) (cp_metrics_payload p).
(** [lease_token="", heartbeat_at=None, lease_expires_at=None] *)
Definition clear_lease (p : chunk_phase) : chunk_phase :=
  mkPhase (cp_id p) (cp_job p) (cp_role p) (cp_ordinal p) (cp_phase p) (cp_status p) (cp_attempt_count p)
    (cp_task_id p) EmptyString None None (cp_started_at p) (cp_finished_at p) (cp_error_payload p)
    (cp_metrics_payload p).
Definition finish (now : Z) (p : chunk_phase) : chunk_phase :=
  mkPhase (cp_id p) (cp_job p) (cp_role p) (cp_ordinal p) (cp_phase p) (cp_status p) (cp_attempt_count p)
    (cp_task_id p) (cp_lease_token p) (cp_heartbeat_at p) (cp_lease_expires_at p) (cp_started_at p) (Some now)
    (cp_error_payload p) (cp_metrics_payload p).
Definition set_error (d : pydict) (p : chunk_phase) : chunk_phase :=
  mkPhase (cp_id p) (cp_job p) (cp_role p) (cp_ordinal p) (cp_phase p) (cp_status p) (cp_attempt_count p)
    (cp_task_id p) (cp_lease_token p) (cp_heartbeat_at p) (cp_lease_expires_at p) (cp_started_at p)
    (cp_finished_at p) d (cp_metrics_payload p).
Definition set_metrics (d : pydict) (p : chunk_phase) : chunk_phase :=
  mkPhase (cp_id p) (cp_job p) (cp_role p) (cp_ordinal p) (cp_phase p) (cp_status p) (cp_attempt_count p)
    (cp_task_id p) (cp_lease_token p) (cp_heartbeat_at p) (cp_lease_expires_at p) (cp_started_at p)
    (cp_finished_at p) (cp_error_payload p) d.
Definition beat (now until : Z) (p : chunk_phase) : chunk_phase :=
  mkPhase (cp_id p) (cp_job p) (cp_role p) (cp_ordinal p) (cp_phase p) (cp_status p) (cp_attempt_count p)
    (cp_task_id p) (cp_lease_token p) (Some now) (Some until) (cp_started_at p)
    (cp_finished_at p) (cp_error_payload p) (cp_metrics_payload p).
Definition lease_to (now until : Z) (task token : string) (p : chunk_phase) : chunk_phase :=
  mkPhase (cp_id p) (cp_job p) (cp_role p) (cp_ordinal p) (cp_phase p) ph_RUNNING (cp_attempt_count p + 1)
    task token (Some now) (Some until) (Some now) (cp_finished_at p) [] (cp_metrics_payload p).
Definition cancel_waiting (now : Z) (p : chunk_phase) : chunk_phase := finish now (clear_lease (set_status ph_CANCELLED p)).

Definition waiting (p : chunk_phase) : bool := bool_decide (cp_status p ∈ [ph_BLOCKED; ph_PENDING; ph_QUEUED]).
(** [filter(id=..., status=RUNNING, lease_token=...)] *)
Definition held (phase_id : Z) (token : string) (p : chunk_phase) : bool :=
  (cp_id p =? phase_id) && bool_decide (cp_status p = ph_RUNNING) && bool_decide (cp_lease_token p = token).

Section Phases.
Context {D : Type}.
(** The environment of the process. *)
Variable environ : list (string * string).

(** [w_chunks] holds the job of each [ImportChunk] row. *)
Record wstate := mkW {
  w_jobs : list workflow_job;
  w_chunks : list string;
  w_phases : list chunk_phase;
  w_data : D
}.
Abbreviation WM := (M wstate).

Definition set_phases (ps : list chunk_phase) (s : wstate) : wstate := mkW (w_jobs s) (w_chunks s) ps (w_data s).
Definition set_jobs (js : list workflow_job) (s : wstate) : wstate := mkW js (w_chunks s) (w_phases s) (w_data s).
Definition find_phase (phase_id : Z) (s : wstate) : option chunk_phase :=
  List.find (λ p, cp_id p =? phase_id) (w_phases s).
Definition find_job (job_id : string) (s : wstate) : option workflow_job :=
  List.find (λ j, bool_decide (wj_id j = job_id)) (w_jobs s).
(** [objects.filter(q).update(...)]: the number of rows changed. *)
Definition update_phases (q : chunk_phase → bool) (f : chunk_phase → chunk_phase) : WM Z :=
  let! n := gets (λ s, Z.of_nat (length (List.filter q (w_phases s)))) in
  do! modify (λ s, set_phases (map (λ p, if q p then f p else p) (w_phases s)) s) in
  ret n.
(** [phase.save(update_fields=[...])] of the locked row. *)
Definition save_phase (phase_id : Z) (f : chunk_phase → chunk_phase) : WM unit :=
  let! _ := update_phases (λ p, cp_id p =? phase_id) f in ret tt.
Definition update_wjob (job_id : string) (f : workflow_job → workflow_job) : WM unit :=
  modify (λ s, set_jobs (map (λ j, if bool_decide (wj_id j = job_id) then f j else j) (w_jobs s)) s).
Definition get_phase (phase_id : Z) : WM chunk_phase :=
  λ s, match find_phase phase_id s with Some p => (Ok p, s) | None => (Err DoesNotExist, s) end.
Definition get_job (job_id : string) : WM workflow_job :=
  λ s, match find_job job_id s with Some j => (Ok j, s) | None => (Err DoesNotExist, s) end.
Definition with_wf (d : pydict) (j : workflow_job) : workflow_job :=
  mkWJob (wj_id j) (wj_status j) d (wj_summary j) (wj_inference j) (wj_progress j) (wj_detail j).

(** [with transaction.atomic()]: an exception undoes the writes to the rows, not those made through
    other sessions. *)
Definition atomic {A} (m : WM A) : WM A :=
  λ s, match m s with
       | (Ok a, s') => (Ok a, s')
       | (Err e, s') => (Err e, mkW (w_jobs s) (w_chunks s) (w_phases s) (w_data s'))
       end.

(** [job.status == RUNNING] and the flag of the payload. *)
Definition cancel_requested (j : workflow_job) : bool :=
  truthy (default (PBool false) (dget "cancel_requested" (wj_workflow j))).
Definition live_job (j : workflow_job) : bool :=
  bool_decide (wj_status j = RUNNING) && negb (cancel_requested j).

(** ** import_workflow_leases.py *)

(* src/server/services/import_workflow_leases.py :: _phase_lease_ttl_seconds *)
Definition _phase_lease_ttl_seconds : Z :=
  let raw_value := strip (default EmptyString (dget "IMMOAPP_IMPORT_PHASE_LEASE_TTL_SECONDS" environ)) in
  Z.max 30 (Z.min (default 180 (parse_int raw_value)) 3600).

(** The row that is returned is the row as saved. *)
(* src/server/services/import_workflow_leases.py :: acquire_phase *)
Definition acquire_phase (now : Z) (uuid : string) (phase_id : Z) (task_id : string) : WM (option chunk_phase) :=
  let! phase := get_phase phase_id in
  let! job := get_job (cp_job phase) in
  if negb (live_job job) then
    do! (if waiting phase then save_phase phase_id (λ p, finish now (set_status ph_CANCELLED p)) else ret tt) in
    ret None
  else if bool_decide (cp_status phase ∈ [ph_COMPLETED; ph_BLOCKED; ph_CANCELLED]) then ret None
  else if bool_decide (cp_status phase = ph_RUNNING) && negb (bool_decide (cp_task_id phase = task_id))
  then ret None
  else
    let lease := lease_to now (now + _phase_lease_ttl_seconds) task_id uuid in
    do! save_phase phase_id lease in
    ret (Some (lease phase)).

(* src/server/services/import_workflow_leases.py :: heartbeat_phase_lease *)
Definition heartbeat_phase_lease (now : Z) (phase_id : Z) (lease_token : string) : WM bool :=
  if str_empty lease_token then ret false
  else
    let! updated := update_phases (held phase_id lease_token) (beat now (now + _phase_lease_ttl_seconds)) in
    ret (negb (updated =? 0)).
(* src/server/services/import_workflow_leases.py :: phase_lease_active *)
Definition phase_lease_active (phase_id : Z) (lease_token : string) : WM bool :=
  if str_empty lease_token then ret false
  else gets (λ s, existsb (held phase_id lease_token) (w_phases s)).
(* src/server/services/import_workflow_leases.py :: complete_phase *)
Definition complete_phase (now : Z) (phase_id : Z) (lease_token : string) (metrics_payload : pydict) : WM bool :=
  let! updated := update_phases (held phase_id lease_token)
    (λ p, finish now (clear_lease (set_error [] (set_metrics metrics_payload (set_status ph_COMPLETED p))))) in
  ret (negb (updated =? 0)).
(* src/server/services/import_workflow_leases.py :: fail_phase *)
Definition fail_phase (now : Z) (phase_id : Z) (lease_token : string) (error_payload : pydict) : WM bool :=
  let! updated := update_phases (held phase_id lease_token)
    (λ p, finish now (clear_lease (set_error error_payload (set_status ph_FAILED p)))) in
  ret (negb (updated =? 0)).
(* src/server/services/import_workflow_leases.py :: cancel_pending_phases *)
Definition cancel_pending_phases (now : Z) (job_id : string) : WM Z :=
  update_phases (λ p, bool_decide (cp_job p = job_id) && waiting p) (cancel_waiting now).
(* src/server/services/import_workflow_leases.py :: request_workflow_cancellation *)
Definition request_workflow_cancellation (now : Z) (job_id : string) : WM Z :=
  let! locked_job := get_job job_id in
  do! update_wjob job_id (with_wf (dset "cancel_requested" (PBool true) (wj_workflow locked_job))) in
  cancel_pending_phases now job_id.

(** [status=RUNNING, lease_expires_at < now] *)
Definition expired_phase (now : Z) (p : chunk_phase) : bool :=
  bool_decide (cp_status p = ph_RUNNING) &&
  match cp_lease_expires_at p with Some t => t <? now | None => false end.
(** The body of the loop: the row read before is only identified by its id in the UPDATE. *)
Definition requeue_one (now : Z) (phase : chunk_phase) : WM bool :=
  let! job := get_job (cp_job phase) in
  let metrics := cp_metrics_payload phase in
  if live_job job then
    let metrics := dset "requeued_after_lease_expiry" (PBool true) metrics in
    let! _ := update_phases (λ p, cp_id p =? cp_id phase)
      (λ p, clear_lease (set_metrics metrics (set_status ph_QUEUED p))) in
    ret true
  else
    let! _ := update_phases (λ p, cp_id p =? cp_id phase) (cancel_waiting now) in
    ret false.
Fixpoint requeue_each (now : Z) (phases : list chunk_phase) (requeued cancelled : Z) : WM (Z * Z) :=
  match phases with
  | [] => ret (requeued, cancelled)
  | p :: rest =>
      let! again := requeue_one now p in
      if again : bool then requeue_each now rest (requeued + 1) cancelled
      else requeue_each now rest requeued (cancelled + 1)
  end.
Definition phase_id_leb (a b : chunk_phase) : bool := cp_id a <=? cp_id b.
(* src/server/services/import_workflow_leases.py :: requeue_expired_import_phases *)
Definition requeue_expired_import_phases (now : Z) : WM (Z * Z) :=
  let! phases := gets (λ s, ssort phase_id_leb (List.filter (expired_phase now) (w_phases s))) in
  requeue_each now phases 0 0.

(** ** import_phase_attempts.py *)

(* src/server/services/import_phase_attempts.py :: assert_phase_attempt_current *)
Definition assert_phase_attempt_current (now : Z) (phase : chunk_phase) : WM unit :=
  let! alive := heartbeat_phase_lease now (cp_id phase) (cp_lease_token phase) in
  if alive : bool then ret tt
  else raise (StaleImportPhaseLeaseError
    ("Chunk phase " +:+ pretty (cp_id phase) +:+ " lost its lease before it could finish.")).
(* src/server/services/import_phase_attempts.py :: claim_phase_attempt_started *)
Definition claim_phase_attempt_started (now : Z) (uuid : string) (phase_id : Z) (task_id : string)
  : WM (option chunk_phase) := acquire_phase now uuid phase_id task_id.
(* src/server/services/import_phase_attempts.py :: is_phase_attempt_current *)
Definition is_phase_attempt_current (phase_id : Z) (attempt_id lease_token : string) : WM bool :=
  phase_lease_active phase_id (str_or attempt_id lease_token).
(* src/server/services/import_phase_attempts.py :: complete_phase_attempt *)
Definition complete_phase_attempt (now : Z) (phase_id : Z) (attempt_id : string) (metrics_payload : pydict)
  : WM bool := complete_phase now phase_id attempt_id metrics_payload.
(* src/server/services/import_phase_attempts.py :: fail_phase_attempt *)
Definition fail_phase_attempt (now : Z) (phase_id : Z) (attempt_id : string) (error_payload : pydict)
  : WM bool := fail_phase now phase_id attempt_id error_payload.
(* src/server/services/import_phase_attempts.py :: cancel_phase_attempt *)
Definition cancel_phase_attempt (now : Z) (phase_id : Z) (attempt_id : string) (error_payload : pydict)
  : WM bool :=
  let! row := gets (find_phase phase_id) in
  match row with
  | None => ret false
  | Some phase =>
      if negb (bool_decide (cp_status phase = ph_RUNNING))
         || negb (bool_decide (cp_lease_token phase = attempt_id)) then ret false
      else
        do! save_phase phase_id
              (λ p, finish now (clear_lease (set_error error_payload (set_status ph_CANCELLED p)))) in
        ret true
  end.
(* src/server/services/import_phase_attempts.py :: raise_phase_attempt_cancelled *)
Definition raise_phase_attempt_cancelled {A} (phase : chunk_phase) (reason : string) : WM A :=
  raise (ImportPhaseAttemptCancelled
    ("Chunk phase " +:+ pretty (cp_id phase) +:+ " was cancelled before " +:+ str_or reason "success" +:+ ".")).
(** A write of the attempt, on its own session. *)
Definition on_data {A} (fn : M D A) : WM A :=
  λ s, let '(r, d) := fn (w_data s) in (r, mkW (w_jobs s) (w_chunks s) (w_phases s) d).
(* src/server/services/import_phase_attempts.py :: run_with_phase_attempt_fence *)
Definition run_with_phase_attempt_fence {A} (now : Z) (phase : chunk_phase) (operation : string) (fn : M D A)
  : WM A :=
  do! assert_phase_attempt_current now phase in
  let! locked_phase := get_phase (cp_id phase) in
  let! job := get_job (cp_job locked_phase) in
  if negb (bool_decide (cp_status locked_phase = ph_RUNNING))
     || negb (bool_decide (cp_lease_token locked_phase = cp_lease_token phase))
     || negb (bool_decide (wj_status job = RUNNING))
  then raise (StaleImportPhaseLeaseError
    ("Chunk phase " +:+ pretty (cp_id phase) +:+ " lost its lease before " +:+ str_or operation "a write" +:+ "."))
  else if cancel_requested job then raise_phase_attempt_cancelled phase (str_or operation "a write")
  else on_data fn.
End Phases.
Arguments wstate : clear implicits.
