(* ===== verification/ImportDispatch.v ===== *)
(** * Dispatch of the phases of an import

    Models src/server/services/import_workflow_dispatch.py with [advance_workflow] of
    import_chunk_workflow.py, [build_progress_detail] of import_progress_runtime.py and
    import_job_topology.py: which phases of a job become ready after each completed phase, and when
    the job is finalised.  The store of the root indexes is the callable the code takes. *)

From S2P Require Import Prelude PyValue ImportQueue ImportPhases.
From Stdlib Require Import SpecFloat.
Local Open Scope Z_scope.

(* src/server/services/import_workflow_dispatch.py :: WorkflowDispatchPlan *)
Record WorkflowDispatchPlan := mkPlan {
  dp_plan_phase_ids : list Z;
  dp_load_phase_ids : list Z;
  dp_finalize_job : bool
}.
Definition empty_plan : WorkflowDispatchPlan := mkPlan [] [] false.

(** [dict(d.get(k, {}) or {})] *)
Definition dict_field (k : string) (d : pydict) : res pydict :=
  match py_or (get k d) (PDict []) with
  | PDict x => Ok x
  | v => Err (TypeError ("cannot convert " +:+ py_repr v +:+ " to a dictionary"))
  end.
(** [list(d.get(k, []) or [])] of a JSON array *)
Definition list_field (k : string) (d : pydict) : res (list pyval) :=
  match py_or (get k d) (PList []) with
  | PList x => Ok x
  | v => Err (TypeError ("cannot convert " +:+ py_repr v +:+ " to a list"))
  end.
Fixpoint sum_res (l : list (res Z)) : res Z :=
  match l with
  | [] => Ok 0
  | r :: l' => let? a := r in let? b := sum_res l' in Ok (a + b)
  end.
Definition sum_metric (k : string) (phases : list chunk_phase) : res Z :=
  sum_res (map (λ p, int_field k (cp_metrics_payload p)) phases).

(* src/server/services/import_job_topology.py :: ImportJobTopology *)
Record ImportJobTopology := mkTopology {
  tp_bundle_mode : string;
  tp_topology_side : string;
  tp_root_entity : string;
  tp_child_entity : string
}.
(* src/server/services/import_job_topology.py :: job_topology *)
Definition job_topology (job : workflow_job) : res ImportJobTopology :=
  let? inference := dict_field "final_inference" (wj_inference job) in
  let bundle_mode := str_field "bundle_mode" "single_entity" inference in
  let side := str_field "topology_side_hint" "unknown" inference in
  if bool_decide (side = "client_side") then Ok (mkTopology bundle_mode side "client" "demande")
  else Ok (mkTopology bundle_mode side "listing" "offer").

(* src/server/services/import_progress_runtime.py :: build_progress_detail *)
Definition build_progress_detail (rows_total rows_processed rows_created rows_updated rows_skipped rows_review
    current_chunk chunks_total : Z) (phase bundle_mode : string) (review_overflow_count_value : Z) : pydict :=
  [("rows_total", PInt (Z.max 0 rows_total));
   ("rows_processed", PInt (Z.max 0 rows_processed));
   ("rows_created", PInt (Z.max 0 rows_created));
   ("rows_updated", PInt (Z.max 0 rows_updated));
   ("rows_skipped", PInt (Z.max 0 rows_skipped));
   ("rows_review", PInt (Z.max 0 rows_review));
   ("current_chunk", PInt (Z.max 0 current_chunk));
   ("chunks_total", PInt (Z.max 0 chunks_total));
   ("phase", PStr (str_or phase "executing"));
   ("bundle_mode", PStr (str_or bundle_mode "single_entity"));
   ("review_overflow_count", PInt (Z.max 0 review_overflow_count_value))].

(* src/server/services/import_workflow_dispatch.py :: aggregate_review_overflow_count *)
Definition aggregate_review_overflow_count (workflow : pydict) (phases : list chunk_phase) : res Z :=
  let? prepare_counts := dict_field "prepare_counts" workflow in
  let? base := int_field "review_overflow_count" prepare_counts in
  let? more := sum_metric "review_overflow_count" phases in
  Ok (Z.max 0 (base + more)).

(** A count as a float, exact below 2^53. *)
Definition float_of_count (n : Z) : spec_float := binary_normalize 53 1024 n 0 false.
(** [int((a / b) * 99)] *)
Definition percent99 (a b : Z) : res Z :=
  py_int (PFloat (SFmul 53 1024 (SFdiv 53 1024 (float_of_count a) (float_of_count b)) (float_of_count 99))).
Definition count_phases (q : chunk_phase → bool) (phases : list chunk_phase) : Z :=
  Z.of_nat (length (List.filter q phases)).
Definition is_status (st : phase_status) (p : chunk_phase) : bool := bool_decide (cp_status p = st).

(** The loop over the phases: processed, created, skipped, review and error rows. *)
Fixpoint phase_counts (phases : list chunk_phase) : res (Z * Z * Z * Z * Z) :=
  match phases with
  | [] => Ok (0, 0, 0, 0, 0)
  | p :: rest =>
      let metrics := cp_metrics_payload p in
      let? a := int_field "processed_count" metrics in
      let? b := int_field "created_count" metrics in
      let? c := int_field "skipped_count" metrics in
      let? d := int_field "review_count" metrics in
      let? e := int_field "error_count" metrics in
      let? more := phase_counts rest in
      let '(a', b', c', d', e') := more in
      Ok (a + a', b + b', c + c', d + d', e + e')
  end.
(** The values [rollup_workflow_progress] writes: progress and detail. *)
Definition workflow_progress (job : workflow_job) (workflow : pydict) (phases : list chunk_phase)
  : res (Z * pydict) :=
  let? total_rows := int_field "row_count" (wj_summary job) in
  let? prepare_counts := dict_field "prepare_counts" workflow in
  let? review0 := int_field "review_count" prepare_counts in
  let? error0 := int_field "error_count" prepare_counts in
  let? review_overflow_total := aggregate_review_overflow_count workflow phases in
  let? counts := phase_counts phases in
  let '(completed_rows, created_rows, skipped_rows, reviews, errors) := counts in
  let total_phase_slots := Z.max 1 (Z.of_nat (length phases) + 1) in
  let completed_phase_slots :=
    (if truthy (get "prepare_completed" workflow) then 1 else 0) + count_phases (is_status ph_COMPLETED) phases in
  let running := List.filter (λ p, bool_decide (cp_status p ∈ [ph_QUEUED; ph_RUNNING; ph_PENDING])) phases in
  let phase_name :=
    if existsb (λ p, bool_decide (cp_phase p = LOAD)) running then "executing"
    else match running with
         | _ :: _ => "planning"
         | [] => if truthy (get "finalize_queued" workflow) then "rebuild" else "mapping"
         end in
  let? percent := percent99 completed_phase_slots total_phase_slots in
  let? topology := job_topology job in
  Ok (Z.min 99 percent,
      dset "error_count" (PInt (error0 + errors))
        (build_progress_detail total_rows (Z.min total_rows completed_rows) created_rows 0 skipped_rows
           (review0 + reviews + review_overflow_total) completed_phase_slots total_phase_slots phase_name
           (tp_bundle_mode topology) review_overflow_total)).

(* src/server/services/import_workflow_dispatch.py :: _completed *)
Definition _completed (phases : list chunk_phase) : bool :=
  match phases with [] => false | _ => forallb (is_status ph_COMPLETED) phases end.
(* src/server/services/import_workflow_dispatch.py :: _has_failed *)
Definition _has_failed (phases : list chunk_phase) : bool := existsb (is_status ph_FAILED) phases.

(** [existing[str(key)] = int(value)] for the values that convert. *)
Definition merge_ids (d : pydict) (acc : list (string * Z)) : list (string * Z) :=
  foldl (λ acc kv, match py_int kv.2 with Ok i => dset kv.1 i acc | Err _ => acc end) acc d.
Definition ids_dict (m : list (string * Z)) : pydict := map (λ kv, (kv.1, PInt kv.2)) m.
Fixpoint merge_metric (k : string) (phases : list chunk_phase) (acc : list (string * Z)) : res (list (string * Z)) :=
  match phases with
  | [] => Ok acc
  | p :: rest => let? d := dict_field k (cp_metrics_payload p) in merge_metric k rest (merge_ids d acc)
  end.
Fixpoint planned_keys (phases : list chunk_phase) (acc : list string) : res (list string) :=
  match phases with
  | [] => Ok acc
  | p :: rest =>
      let? keys := list_field "planned_root_anchor_keys" (cp_metrics_payload p) in
      planned_keys rest
        (foldl (λ acc key,
           let key_text := strip (py_str (py_or key (PStr EmptyString))) in
           if str_empty key_text || bool_decide (key_text ∈ acc) then acc else acc ++ [key_text]) acc keys)
  end.
(** A value that [int] refuses with OverflowError (an infinite float) is not JSON. *)
(* src/server/services/import_workflow_dispatch.py :: _aggregate_root_plan_index *)
Definition _aggregate_root_plan_index (phases : list chunk_phase) : res pydict :=
  let? existing := merge_metric "existing_anchor_map" phases [] in
  let? planned := planned_keys phases [] in
  Ok [("existing_anchor_map", PDict (ids_dict existing));
      ("planned_root_anchor_keys", PList (map PStr (ssort str_leb planned)))].
(* src/server/services/import_workflow_dispatch.py :: _aggregate_root_load_anchor_map *)
Definition _aggregate_root_load_anchor_map (phases : list chunk_phase) : res pydict :=
  let? created := merge_metric "created_anchor_map" phases [] in
  Ok (ids_dict created).

Section Dispatch.
Context {D : Type}.
Record manifest_meta := mkMeta { mm_manifest_id : Z; mm_checksum : string; mm_key_count : Z }.
(** The store of a root index: job, artifact kind, payload, phase. *)
Variable persist_root_index_manifest_fn : workflow_job → string → pydict → phase_kind → M D manifest_meta.
Local Abbreviation WM := (M (wstate D)).

(* src/server/services/import_workflow_dispatch.py :: rollup_workflow_progress *)
Definition rollup_workflow_progress (job : workflow_job) (workflow : pydict) (phases : list chunk_phase) : WM unit :=
  let! (progress, detail) := lift (workflow_progress job workflow phases) in
  update_wjob (wj_id job) (λ j,
    mkWJob (wj_id j) (wj_status j) (wj_workflow j) (wj_summary j) (wj_inference j) progress detail).

(** The phase objects of the list are changed too: the second result is the list after the call. *)
(* src/server/services/import_workflow_dispatch.py :: _queue_pending *)
Fixpoint _queue_pending (phases : list chunk_phase) (allow_blocked : bool) : WM (list Z * list chunk_phase) :=
  match phases with
  | [] => ret ([], [])
  | p :: rest =>
      if is_status ph_PENDING p || allow_blocked && is_status ph_BLOCKED p then
        do! save_phase (cp_id p) (set_status ph_QUEUED) in
        let! (ids, rest') := _queue_pending rest allow_blocked in
        ret (cp_id p :: ids, set_status ph_QUEUED p :: rest')
      else
        let! (ids, rest') := _queue_pending rest allow_blocked in
        ret (ids, p :: rest')
  end.

Definition save_workflow (job : workflow_job) (payload : pydict) : WM unit := update_wjob (wj_id job) (with_wf payload).
Definition index_fields (prefix : string) (m : manifest_meta) (payload : pydict) : pydict :=
  dset (prefix +:+ "_ready") (PBool true) (dset (prefix +:+ "_key_count") (PInt (mm_key_count m))
    (dset (prefix +:+ "_checksum") (PStr (mm_checksum m)) (dset (prefix +:+ "_manifest_id") (PInt (mm_manifest_id m)) payload))).
Definition save_index (job : workflow_job) (prefix : string) (m : manifest_meta) (payload : pydict) : WM pydict :=
  let payload := index_fields prefix m payload in
  do! save_workflow job payload in ret payload.
(** [v == t] for a text [t] *)
Definition is_text (t : string) (v : pyval) : bool :=
  match v with PStr x => bool_decide (x = t) | _ => false end.
Definition flag (k : string) (payload : pydict) : bool := truthy (get k payload).

(** The end of [advance_workflow_dispatch]: the job is finalised once. *)
Definition finalize (job : workflow_job) (payload : pydict) (plans loads : list Z) : WM WorkflowDispatchPlan :=
  if flag "finalize_queued" payload then ret (mkPlan plans loads false)
  else do! save_workflow job (dset "finalize_queued" (PBool true) payload) in ret (mkPlan plans loads true).

Definition role_phases (k : phase_kind) (r : chunk_role) (phases : list chunk_phase) : list chunk_phase :=
  List.filter (λ p, bool_decide (cp_phase p = k) && bool_decide (cp_role p = r)) phases.
Definition kind_phases (k : phase_kind) (phases : list chunk_phase) : list chunk_phase :=
  List.filter (λ p, bool_decide (cp_phase p = k)) phases.

(** The branch of a bundle, from the child loads back. *)
Definition dispatch_child_load (job : workflow_job) (payload : pydict) (child_load : list chunk_phase)
    (plans loads : list Z) : WM WorkflowDispatchPlan :=
  match child_load with
  | [] => finalize job payload plans loads
  | _ =>
      let! (ids, child_load') := _queue_pending child_load true in
      if _completed child_load' then finalize job payload plans (loads ++ ids)
      else ret (mkPlan plans (loads ++ ids) false)
  end.
Definition dispatch_root_load (job : workflow_job) (payload : pydict) (root_load child_load : list chunk_phase)
    (plans loads : list Z) : WM WorkflowDispatchPlan :=
  match root_load with
  | [] =>
      let! payload :=
        if flag "root_load_anchor_map_ready" payload then ret payload
        else save_index job "root_load_anchor_map" (mkMeta 0 EmptyString 0) payload in
      dispatch_child_load job payload child_load plans loads
  | _ =>
      let! (ids, root_load') := _queue_pending root_load true in
      let loads := loads ++ ids in
      if flag "root_load_anchor_map_ready" payload then dispatch_child_load job payload child_load plans loads
      else if _completed root_load' then
        let! index := lift (_aggregate_root_load_anchor_map root_load') in
        let! m := on_data (persist_root_index_manifest_fn job "root_load_anchor_map" index LOAD) in
        let! payload := save_index job "root_load_anchor_map" m payload in
        dispatch_child_load job payload child_load plans loads
      else ret (mkPlan plans loads false)
  end.
Definition dispatch_child_plan (job : workflow_job) (payload : pydict)
    (child_plan root_load child_load : list chunk_phase) : WM WorkflowDispatchPlan :=
  match child_plan with
  | [] => dispatch_root_load job payload root_load child_load [] []
  | _ =>
      let! (plans, child_plan') := _queue_pending child_plan true in
      if _completed child_plan' then dispatch_root_load job payload root_load child_load plans []
      else
        let! (loads, _) := _queue_pending root_load true in
        ret (mkPlan plans loads false)
  end.
Definition dispatch_root_plan (job : workflow_job) (payload : pydict)
    (root_plan child_plan root_load child_load : list chunk_phase) : WM WorkflowDispatchPlan :=
  if flag "root_plan_index_ready" payload then dispatch_child_plan job payload child_plan root_load child_load
  else if _completed root_plan then
    let! index := lift (_aggregate_root_plan_index root_plan) in
    let! m := on_data (persist_root_index_manifest_fn job "root_plan_index" index PLAN) in
    let! payload := save_index job "root_plan_index" m payload in
    dispatch_child_plan job payload child_plan root_load child_load
  else
    let! (plans, _) := _queue_pending root_plan false in
    ret (mkPlan plans [] false).
Definition dispatch_bundle (job : workflow_job) (payload : pydict) (phases : list chunk_phase)
  : WM WorkflowDispatchPlan :=
  let root_plan := role_phases PLAN ROOT phases in
  let child_plan := role_phases PLAN CHILD phases in
  let root_load := role_phases LOAD ROOT phases in
  let child_load := role_phases LOAD CHILD phases in
  let! payload :=
    match root_plan with
    | [] => if flag "root_plan_index_ready" payload then ret payload
            else save_index job "root_plan_index" (mkMeta 0 EmptyString 0) payload
    | _ => ret payload
    end in
  dispatch_root_plan job payload root_plan child_plan root_load child_load.
Definition dispatch_single (job : workflow_job) (payload : pydict) (phases : list chunk_phase)
  : WM WorkflowDispatchPlan :=
  let! (plans, plan_phases) := _queue_pending (kind_phases PLAN phases) false in
  if negb (_completed plan_phases) then ret (mkPlan plans [] false)
  else
    let! (loads, load_phases) := _queue_pending (kind_phases LOAD phases) true in
    if negb (_completed load_phases) then ret (mkPlan plans loads false)
    else finalize job payload plans loads.

(* src/server/services/import_workflow_dispatch.py :: advance_workflow_dispatch *)
Definition advance_workflow_dispatch (job : workflow_job) (payload : pydict) (chunks : list string)
    (phases : list chunk_phase) : WM WorkflowDispatchPlan :=
  do! rollup_workflow_progress job payload phases in
  if _has_failed phases then ret empty_plan
  else
    match chunks with
    | [] => finalize job payload [] []
    | _ =>
        if is_text "same_side_bundle" (get "bundle_mode" payload)
        then dispatch_bundle job payload phases else dispatch_single job payload phases
    end.

(** [order_by("chunk__chunk_role", "chunk__ordinal", "id")] *)
Definition role_text (r : chunk_role) : string :=
  match r with SINGLE => "single" | ROOT => "root" | CHILD => "child" end.
Definition phase_leb (a b : chunk_phase) : bool :=
  if negb (bool_decide (cp_role a = cp_role b)) then str_leb (role_text (cp_role a)) (role_text (cp_role b))
  else if negb (cp_ordinal a =? cp_ordinal b) then cp_ordinal a <=? cp_ordinal b else cp_id a <=? cp_id b.
(* src/server/services/import_chunk_workflow.py :: advance_workflow *)
Definition advance_workflow (job_id : string) : WM WorkflowDispatchPlan :=
  atomic (
  let! job := get_job job_id in
  let payload := wj_workflow job in
  if negb (flag "prepare_completed" payload) then ret empty_plan
  else if negb (live_job job) then ret empty_plan
  else
    let! chunks := gets (λ s, List.filter (λ c, bool_decide (c = job_id)) (w_chunks s)) in
    let! phases := gets (λ s, ssort phase_leb (List.filter (λ p, bool_decide (cp_job p = job_id)) (w_phases s))) in
    advance_workflow_dispatch job payload chunks phases).
End Dispatch.
