(* ===== verification/ImportDispatchProps.v ===== *)
(** * The order of the phases of an import

    What one advance of the workflow does: it queues only phases that wait, only after the phases
    they depend on are completed, and finalises the job once, when all its phases are completed. *)

From S2P Require Import Prelude PyValue ImportQueue ImportPhases ImportDispatch.
Local Open Scope Z_scope.

(** ** What queueing does *)

Definition ready (allow_blocked : bool) (p : chunk_phase) : bool :=
  is_status ph_PENDING p || allow_blocked && is_status ph_BLOCKED p.
Definition queue_row (ids : list Z) (p : chunk_phase) : chunk_phase :=
  if bool_decide (cp_id p ∈ ids) then set_status ph_QUEUED p else p.
Definition queued_in (ids : list Z) (ps : list chunk_phase) : list chunk_phase := map (queue_row ids) ps.
Definition queue_if (b : bool) (p : chunk_phase) : chunk_phase := if ready b p then set_status ph_QUEUED p else p.
Definition ready_ids (b : bool) (ps : list chunk_phase) : list Z := map cp_id (List.filter (ready b) ps).

Lemma queued_in_app ids1 ids2 ps : queued_in ids2 (queued_in ids1 ps) = queued_in (ids1 ++ ids2) ps.
Proof.
  unfold queued_in. rewrite map_map. apply map_ext. intros p. unfold queue_row.
  repeat case_bool_decide; try done; exfalso; set_solver.
Qed.
Lemma queued_in_ext ids1 ids2 ps : (∀ i, i ∈ ids1 ↔ i ∈ ids2) → queued_in ids1 ps = queued_in ids2 ps.
Proof. intros Hi. apply map_ext. intros p. unfold queue_row. by rewrite (bool_decide_ext _ _ (Hi (cp_id p))). Qed.
Lemma queued_in_nil ps : queued_in [] ps = ps.
Proof. unfold queued_in. rewrite <- (map_id ps) at 2. apply map_ext. intros p. unfold queue_row. by case_bool_decide; [set_solver|]. Qed.

Lemma completed_queued b ps : _completed (map (queue_if b) ps) = _completed ps.
Proof.
  destruct ps as [|p0 ps]; [done|]. cbn [map _completed]. change (queue_if b p0 :: map (queue_if b) ps)
    with (map (queue_if b) (p0 :: ps)). induction (p0 :: ps) as [|p l IH]; [done|]. cbn [map forallb].
  rewrite IH. f_equal. unfold queue_if, ready, is_status. destruct p as [? ? ? ? ? [] ? ? ? ? ? ? ? ? ?], b; done.
Qed.
Lemma completed_all ps : _completed ps = true → ∀ p, p ∈ ps → cp_status p = ph_COMPLETED.
Proof.
  destruct ps as [|p0 ps]; [done|]. unfold _completed. rewrite forallb_forall. intros H p Hp%list_elem_of_In.
  specialize (H p Hp). by apply bool_decide_eq_true in H.
Qed.

Section Order.
Context {D : Type}.
Variable persist : workflow_job → string → pydict → phase_kind → M D manifest_meta.
Implicit Types (s : wstate D) (phases : list chunk_phase).

Lemma queue_pending_run b ps s :
  _queue_pending ps b s = (Ok (ready_ids b ps, map (queue_if b) ps), set_phases (queued_in (ready_ids b ps) (w_phases s)) s).
Proof.
  revert s. induction ps as [|p ps IH]; intros s; cbn [_queue_pending].
  { unfold ready_ids. cbn. rewrite queued_in_nil. by destruct s. }
  unfold ready_ids, queue_if at 1. cbn [List.filter map]. fold (ready b p). destruct (ready b p) eqn:Er.
  - assert (save_phase (cp_id p) (set_status ph_QUEUED) s
            = (Ok tt, set_phases (queued_in [cp_id p] (w_phases s)) s)) as Es.
    { unfold save_phase, update_phases, bind, gets, modify, ret. do 2 f_equal. unfold queued_in. apply map_ext.
      intros x. unfold queue_row. destruct (Z.eqb_spec (cp_id x) (cp_id p)) as [E|E];
        case_bool_decide; try done; exfalso; set_solver. }
    rewrite (bind_ok _ _ _ _ _ Es). unfold bind at 1. rewrite IH. unfold set_phases, ret.
    cbn [w_phases w_jobs w_chunks w_data]. by rewrite queued_in_app.
  - unfold bind at 1. rewrite IH. done.
Qed.

(** ** The order *)

(** [needs bundle p q]: [q] must be completed before [p] is queued. *)
Definition needs (bundle : bool) (p q : chunk_phase) : bool :=
  if bundle then
    match cp_phase p, cp_role p, cp_phase q, cp_role q with
    | PLAN, CHILD, PLAN, ROOT => true
    | LOAD, ROOT, PLAN, ROOT => true
    | LOAD, CHILD, PLAN, (ROOT | CHILD) => true
    | LOAD, CHILD, LOAD, ROOT => true
    | _, _, _, _ => false
    end
  else match cp_phase p, cp_phase q with LOAD, PLAN => true | _, _ => false end.
(** The phases the finalisation of the job waits for. *)
Definition counts (bundle : bool) (p : chunk_phase) : bool := negb bundle || bool_decide (cp_role p ≠ SINGLE).

Definition launchable (bundle : bool) phases (k : phase_kind) (i : Z) : Prop :=
  ∃ p, p ∈ phases ∧ cp_id p = i ∧ cp_phase p = k ∧ (cp_status p = ph_PENDING ∨ cp_status p = ph_BLOCKED) ∧
       ∀ q, q ∈ phases → needs bundle p q = true → cp_status q = ph_COMPLETED.
Definition is_bundle (payload : pydict) : bool := is_text "same_side_bundle" (get "bundle_mode" payload).

(** The ready flags of the payload tell the truth about the root phases. *)
Definition truthful (payload : pydict) phases : Prop :=
  (flag "root_plan_index_ready" payload = true → ∀ q, q ∈ role_phases PLAN ROOT phases → cp_status q = ph_COMPLETED) ∧
  (flag "root_load_anchor_map_ready" payload = true → ∀ q, q ∈ role_phases LOAD ROOT phases → cp_status q = ph_COMPLETED).

(** ... and [fin] says whether the finalisation was queued. *)
Definition sound (fin : bool) (payload : pydict) phases : Prop :=
  truthful payload phases ∧ flag "finalize_queued" payload = fin.
(** The payload stored for the job is truthful. *)
Definition saved_truthful (job : workflow_job) phases s : Prop :=
  ∀ j, j ∈ w_jobs s → wj_id j = wj_id job → truthful (wj_workflow j) phases.

Record good (bundle fin : bool) (job : workflow_job) phases (L : list chunk_phase) (d : WorkflowDispatchPlan) s' : Prop := {
  g_state : w_phases s' = queued_in (dp_plan_phase_ids d ++ dp_load_phase_ids d) L;
  g_plans : Forall (launchable bundle phases PLAN) (dp_plan_phase_ids d);
  g_loads : Forall (launchable bundle phases LOAD) (dp_load_phase_ids d);
  g_final : dp_finalize_job d = true → ∀ p, p ∈ phases → counts bundle p = true → cp_status p = ph_COMPLETED;
  g_once : dp_finalize_job d = true → fin = false ∧
    ∀ j, j ∈ w_jobs s' → wj_id j = wj_id job → flag "finalize_queued" (wj_workflow j) = true
}.

Lemma elem_role k r phases q : q ∈ role_phases k r phases ↔ q ∈ phases ∧ cp_phase q = k ∧ cp_role q = r.
Proof.
  unfold role_phases. rewrite elem_of_filter_b, andb_true_iff, !bool_decide_eq_true. tauto.
Qed.
Lemma elem_kind k phases q : q ∈ kind_phases k phases ↔ q ∈ phases ∧ cp_phase q = k.
Proof. unfold kind_phases. rewrite elem_of_filter_b, bool_decide_eq_true. tauto. Qed.

Lemma ready_launchable bundle phases k b ps :
  (∀ p, p ∈ ps → p ∈ phases ∧ cp_phase p = k ∧ ∀ q, q ∈ phases → needs bundle p q = true → cp_status q = ph_COMPLETED) →
  Forall (launchable bundle phases k) (ready_ids b ps).
Proof.
  intros Hps. apply Forall_forall. intros i (p & -> & [Hr Hp]%elem_of_filter_b)%elem_of_map.
  destruct (Hps p Hp) as (Hin & Hk & Hq). exists p. split_and!; try done.
  unfold ready, is_status in Hr. destruct (cp_status p); try done; [by right|by left| |..];
    by repeat case_bool_decide; destruct b.
Qed.

(** ** The steps of an advance *)

Section Steps.
Variables (bundle fin : bool) (phases L : list chunk_phase) (job : workflow_job).
Implicit Types (payload : pydict) (plans loads : list Z).
Definition at_rows (ids : list Z) s : Prop := w_phases s = queued_in ids L ∧ saved_truthful job phases s.
Local Abbreviation advances ids m :=
  (safe (at_rows ids) m (λ d s', good bundle fin job phases L d s' ∧ saved_truthful job phases s') (λ _, True)).
Local Abbreviation all_launchable plans loads :=
  (Forall (launchable bundle phases PLAN) plans ∧ Forall (launchable bundle phases LOAD) loads).
Definition done_if (q : chunk_phase → bool) : Prop := ∀ p, p ∈ phases → q p = true → cp_status p = ph_COMPLETED.

Lemma stop_good plans loads : all_launchable plans loads → advances (plans ++ loads) (ret (mkPlan plans loads false)).
Proof. intros [Hp Hl] s [Hs Ht]. split; [by split|done]. Qed.
Lemma save_truthful payload s :
  truthful payload phases → saved_truthful job phases s → saved_truthful job phases (save_workflow job payload s).2.
Proof.
  intros Hp Hs j (j0 & -> & Hj)%elem_of_map. cbn. case_bool_decide; cbn; [done|]. by apply Hs.
Qed.
Lemma finalize_good payload plans loads :
  all_launchable plans loads → done_if (counts bundle) → sound fin payload phases →
  advances (plans ++ loads) (finalize job payload plans loads).
Proof.
  intros [Hp Hl] Hd [Ht Hf] s [Hs Hj]. unfold finalize. destruct (flag _ _); [split; [by split|done]|].
  split; [split; try done|].
  - intros _. split; [done|]. intros j (j0 & -> & Hj0)%elem_of_map. case_bool_decide; cbn; [|done].
    intros _. unfold flag, get. by rewrite dget_dset_eq.
  - apply (save_truthful (dset "finalize_queued" (PBool true) payload)); [|done].
    unfold truthful, flag, get. by rewrite !dget_dset_ne.
Qed.
Lemma queue_good ids b ps (k : list Z * list chunk_phase → M (wstate D) WorkflowDispatchPlan) :
  advances (ids ++ ready_ids b ps) (k (ready_ids b ps, map (queue_if b) ps)) →
  advances ids (bind (_queue_pending ps b) k).
Proof.
  intros Hk s Hs. rewrite (bind_ok _ _ _ _ _ (queue_pending_run b ps s)). apply Hk.
  destruct Hs as [Hs Ht]. split; [|exact Ht]. unfold set_phases. cbn [w_phases]. by rewrite Hs, queued_in_app.
Qed.
Lemma same_rows_good {A} ids (m : M (wstate D) A) (k : A → M (wstate D) WorkflowDispatchPlan) :
  (∀ s, w_phases (m s).2 = w_phases s ∧ w_jobs (m s).2 = w_jobs s) → (∀ a, advances ids (k a)) →
  advances ids (bind m k).
Proof.
  intros Hm Hk s [Hs Ht]. unfold bind. specialize (Hm s). destruct (m s) as [[a|e] s']; [|done].
  destruct Hm as [Hm Hj]. cbn in Hm, Hj. apply Hk. split; [by rewrite Hm|]. unfold saved_truthful. by rewrite Hj.
Qed.
Lemma save_index_good ids prefix m payload (k : pydict → M (wstate D) WorkflowDispatchPlan) :
  sound fin (index_fields prefix m payload) phases →
  advances ids (k (index_fields prefix m payload)) → advances ids (bind (save_index job prefix m payload) k).
Proof.
  intros [Ht _] Hk s [Hs Hj]. apply Hk. split; [exact Hs|]. by apply (save_truthful (index_fields prefix m payload)).
Qed.
Lemma on_data_rows {A} (fn : M D A) s : w_phases (on_data fn s).2 = w_phases s ∧ w_jobs (on_data fn s).2 = w_jobs s.
Proof. unfold on_data. by destruct (fn (w_data s)). Qed.

(** A phase of the list may be queued when what it needs is completed. *)
Lemma queue_launchable k b ps (q : chunk_phase → bool) :
  done_if q → (∀ p, p ∈ ps → p ∈ phases ∧ cp_phase p = k ∧ ∀ r, needs bundle p r = true → q r = true) →
  Forall (launchable bundle phases k) (ready_ids b ps).
Proof.
  intros Hq Hps. apply ready_launchable. intros p Hp. destruct (Hps p Hp) as (? & ? & Hn).
  split_and!; [done..|]. intros r Hr Hnr. by apply Hq, Hn.
Qed.
End Steps.

Definition role_is (k : phase_kind) (r : chunk_role) (p : chunk_phase) : bool :=
  bool_decide (cp_phase p = k) && bool_decide (cp_role p = r).
Definition all_plans (p : chunk_phase) : bool := role_is PLAN ROOT p || role_is PLAN CHILD p.

Ltac by_roles :=
  intros p [? [Hk Hr]]%elem_role; split_and!; [done..|]; intros r; unfold needs, all_plans, role_is;
  rewrite Hk, Hr; by destruct (cp_phase r), (cp_role r).

Section Bundle.
Variables (fin : bool) (phases L : list chunk_phase) (job : workflow_job).
Local Abbreviation advances ids m :=
  (safe (at_rows phases L job ids) m (λ d s', good true fin job phases L d s' ∧ saved_truthful job phases s') (λ _, True)).
Local Abbreviation all_launchable plans loads :=
  (Forall (launchable true phases PLAN) plans ∧ Forall (launchable true phases LOAD) loads).
Local Abbreviation done_for q := (done_if phases q).

Lemma completed_role k r b :
  _completed (map (queue_if b) (role_phases k r phases)) = true → done_for (role_is k r).
Proof.
  rewrite completed_queued. intros Hc p Hp [Hk Hr]%andb_true_iff.
  apply (completed_all _ Hc), elem_role. by rewrite !bool_decide_eq_true in *.
Qed.
Lemma no_role k r : role_phases k r phases = [] → done_for (role_is k r).
Proof.
  intros E p Hp [Hk Hr]%andb_true_iff. rewrite bool_decide_eq_true in *.
  assert (p ∈ role_phases k r phases) as Hin by (by apply elem_role). rewrite E in Hin. by apply elem_of_nil in Hin.
Qed.
Lemma done_or q1 q2 : done_for q1 → done_for q2 → done_for (λ p, q1 p || q2 p).
Proof. intros H1 H2 p Hp [?|?]%orb_true_iff; auto. Qed.
Lemma done_weaken q1 q2 : done_for q1 → (∀ p, q2 p = true → q1 p = true) → done_for q2.
Proof. intros H1 H p Hp Hq. auto. Qed.

Lemma sound_plan payload m :
  sound fin payload phases → done_for (role_is PLAN ROOT) → sound fin (index_fields "root_plan_index" m payload) phases.
Proof.
  intros [[H1 H2] Hf] Hd. split; [split|]; unfold index_fields, flag, get.
  - intros _ q (Hq & Hk & Hr)%elem_role. apply Hd; [done|]. unfold role_is. by rewrite Hk, Hr.
  - rewrite !dget_dset_ne by done. exact H2.
  - by rewrite !dget_dset_ne.
Qed.
Lemma sound_load payload m :
  sound fin payload phases → done_for (role_is LOAD ROOT) → sound fin (index_fields "root_load_anchor_map" m payload) phases.
Proof.
  intros [[H1 H2] Hf] Hd. split; [split|]; unfold index_fields, flag, get.
  - rewrite !dget_dset_ne by done. exact H1.
  - intros _ q (Hq & Hk & Hr)%elem_role. apply Hd; [done|]. unfold role_is. by rewrite Hk, Hr.
  - by rewrite !dget_dset_ne.
Qed.

Lemma child_load_good payload plans loads :
  all_launchable plans loads → done_for (λ p, all_plans p || role_is LOAD ROOT p) → sound fin payload phases →
  advances (plans ++ loads) (dispatch_child_load job payload (role_phases LOAD CHILD phases) plans loads).
Proof.
  intros [Hp Hl] Hd Ht. unfold dispatch_child_load.
  assert (done_for (role_is LOAD CHILD) → done_for (counts true)) as Hall.
  { intros Hc. eapply done_weaken; [exact (done_or _ _ Hd Hc)|]. intros p.
    unfold counts, all_plans, role_is. by destruct (cp_phase p), (cp_role p). }
  destruct (role_phases LOAD CHILD phases) eqn:E; [by apply finalize_good; [|exact (Hall (no_role _ _ E))|]|].
  rewrite <- E. clear E. apply queue_good. rewrite <- (assoc_L (++)).
  assert (all_launchable plans (loads ++ ready_ids true (role_phases LOAD CHILD phases))).
  { split; [done|]. apply Forall_app. split; [done|]. eapply queue_launchable; [exact Hd|]. by_roles. }
  cbn beta iota. destruct (_completed _) eqn:Ec; [|by apply stop_good].
  apply finalize_good; [done|exact (Hall (completed_role _ _ true Ec))|done].
Qed.
Lemma root_load_good payload plans loads :
  all_launchable plans loads → done_for all_plans → sound fin payload phases →
  advances (plans ++ loads)
    (dispatch_root_load persist job payload (role_phases LOAD ROOT phases) (role_phases LOAD CHILD phases) plans loads).
Proof.
  intros [Hp Hl] Hd Ht. pose proof Ht as [[_ Htrue] _]. unfold dispatch_root_load.
  assert (done_for (role_is LOAD ROOT) → done_for (λ p, all_plans p || role_is LOAD ROOT p)) as Hboth by (by apply done_or).
  destruct (role_phases LOAD ROOT phases) eqn:E.
  { pose proof (Hboth (no_role _ _ E)) as Hd2. destruct (flag _ _); [by apply child_load_good|].
    pose proof (sound_load payload (mkMeta 0 EmptyString 0) Ht (no_role _ _ E)).
    apply save_index_good; [done|]. by apply child_load_good. }
  rewrite <- E in *. clear E. apply queue_good. rewrite <- (assoc_L (++)).
  assert (all_launchable plans (loads ++ ready_ids true (role_phases LOAD ROOT phases))).
  { split; [done|]. apply Forall_app. split; [done|]. eapply queue_launchable; [exact Hd|]. by_roles. }
  cbn beta iota. destruct (flag _ _) eqn:Ef.
  { apply child_load_good; [done| |done]. refine (Hboth _). intros q Hq [Hk Hr]%andb_true_iff.
    apply Htrue; [done|]. apply elem_role. by rewrite bool_decide_eq_true in *. }
  destruct (_completed _) eqn:Ec; [|by apply stop_good].
  apply same_rows_good; [done|]. intros index. apply same_rows_good; [intros; apply on_data_rows|]. intros m.
  pose proof (sound_load payload m Ht (completed_role _ _ true Ec)).
  apply save_index_good; [done|]. apply child_load_good; [done|exact (Hboth (completed_role _ _ true Ec))|done].
Qed.
Lemma child_plan_good payload :
  done_for (role_is PLAN ROOT) → sound fin payload phases →
  advances [] (dispatch_child_plan persist job payload (role_phases PLAN CHILD phases)
                 (role_phases LOAD ROOT phases) (role_phases LOAD CHILD phases)).
Proof.
  intros Hd Ht. unfold dispatch_child_plan. destruct (role_phases PLAN CHILD phases) eqn:E.
  { by apply (root_load_good payload [] []); [|exact (done_or _ _ Hd (no_role _ _ E))|]. }
  rewrite <- E. clear E. apply queue_good. cbn [app].
  assert (Forall (launchable true phases PLAN) (ready_ids true (role_phases PLAN CHILD phases))) as Hc.
  { eapply queue_launchable; [exact Hd|]. by_roles. }
  cbn beta iota. destruct (_completed _) eqn:Ec.
  - rewrite <- (app_nil_r (ready_ids true (role_phases PLAN CHILD phases))) at 1.
    apply root_load_good; [done| |done]. exact (done_or _ _ Hd (completed_role _ _ true Ec)).
  - apply queue_good. apply stop_good. split; [done|]. eapply queue_launchable; [exact Hd|]. by_roles.
Qed.
Lemma root_plan_good payload :
  sound fin payload phases →
  advances [] (dispatch_root_plan persist job payload (role_phases PLAN ROOT phases) (role_phases PLAN CHILD phases)
                 (role_phases LOAD ROOT phases) (role_phases LOAD CHILD phases)).
Proof.
  intros Ht. unfold dispatch_root_plan. destruct (flag "root_plan_index_ready" payload) eqn:Ef.
  { apply child_plan_good; [|done]. intros q Hq [Hk Hr]%andb_true_iff. apply (proj1 (proj1 Ht) Ef).
    apply elem_role. by rewrite bool_decide_eq_true in *. }
  destruct (_completed _) eqn:Ec.
  - rewrite <- (completed_queued true) in Ec. pose proof (completed_role _ _ true Ec) as Hd.
    apply same_rows_good; [done|]. intros index. apply same_rows_good; [intros; apply on_data_rows|]. intros m.
    apply save_index_good; [by apply sound_plan|]. apply child_plan_good; [done|by apply sound_plan].
  - apply queue_good. cbn [app]. rewrite <- (app_nil_r (ready_ids _ _)) at 1. apply stop_good. split; [|done].
    eapply (queue_launchable _ _ _ _ _ (λ _, false)); [by intros ? ?|]. by_roles.
Qed.
Lemma bundle_good payload : sound fin payload phases → advances [] (dispatch_bundle persist job payload phases).
Proof.
  intros Ht. unfold dispatch_bundle. cbv zeta.
  destruct (role_phases PLAN ROOT phases) eqn:E; [|rewrite <- E; by apply root_plan_good].
  pose proof (no_role _ _ E) as Hd. rewrite <- E.
  destruct (flag "root_plan_index_ready" payload); [by apply root_plan_good|].
  pose proof (sound_plan payload (mkMeta 0 EmptyString 0) Ht Hd).
  apply save_index_good; [done|]. by apply root_plan_good.
Qed.
End Bundle.

Lemma single_good fin phases L job payload :
  sound fin payload phases →
  safe (at_rows phases L job []) (dispatch_single job payload phases)
    (λ d s', good false fin job phases L d s' ∧ saved_truthful job phases s') (λ _, True).
Proof.
  intros Ht. unfold dispatch_single. apply queue_good. cbn [app].
  assert (Forall (launchable false phases PLAN) (ready_ids false (kind_phases PLAN phases))) as Hp.
  { eapply (queue_launchable _ _ _ _ _ (λ _, false)); [by intros ? ?|]. intros p [? Hk]%elem_kind. split_and!; [done..|].
    intros r. unfold needs. by rewrite Hk. }
  cbn beta iota. destruct (_completed (map _ (kind_phases PLAN phases))) eqn:Ec; cbn [negb].
  2:{ rewrite <- (app_nil_r (ready_ids _ _)) at 1. by apply stop_good. }
  rewrite completed_queued in Ec.
  assert (done_if phases (λ p, bool_decide (cp_phase p = PLAN))) as Hd.
  { intros p Hp' Hk. apply (completed_all _ Ec), elem_kind. by apply bool_decide_eq_true in Hk. }
  apply queue_good.
  assert (Forall (launchable false phases LOAD) (ready_ids true (kind_phases LOAD phases))) as Hl.
  { eapply queue_launchable; [exact Hd|]. intros p [? Hk]%elem_kind. split_and!; [done..|].
    intros r. unfold needs. rewrite Hk. by destruct (cp_phase r). }
  cbn beta iota. destruct (_completed (map _ (kind_phases LOAD phases))) eqn:El; cbn [negb]; [|by apply stop_good].
  rewrite completed_queued in El. apply finalize_good; [done| |done].
  intros p Hp' _. destruct (cp_phase p) eqn:Ek.
  - apply Hd; [done|]. by rewrite Ek.
  - apply (completed_all _ El), elem_kind. done.
Qed.

(** ** One advance of a job *)

Definition phases_of (job_id : string) s : list chunk_phase :=
  ssort phase_leb (List.filter (λ p, bool_decide (cp_job p = job_id)) (w_phases s)).
Lemma elem_phases_of job_id s p : p ∈ phases_of job_id s ↔ p ∈ w_phases s ∧ cp_job p = job_id.
Proof.
  unfold phases_of. rewrite (ssort_perm phase_leb _), elem_of_filter_b, bool_decide_eq_true. tauto.
Qed.

Lemma find_job_id job_id s j : find_job job_id s = Some j → j ∈ w_jobs s ∧ wj_id j = job_id.
Proof.
  unfold find_job. intros [Hin Hid]%List.find_some. by rewrite bool_decide_eq_true in Hid; rewrite list_elem_of_In.
Qed.
Lemma dispatch_good fin job payload chunks phases L :
  sound fin payload phases → (chunks = [] → phases = []) →
  safe (at_rows phases L job []) (advance_workflow_dispatch persist job payload chunks phases)
    (λ d s', good (is_bundle payload) fin job phases L d s' ∧ saved_truthful job phases s') (λ _, True).
Proof.
  intros Ht Hch. unfold advance_workflow_dispatch. eapply safe_bind.
  { instantiate (1 := λ _, at_rows phases L job []). intros s [Hs Hj]. unfold rollup_workflow_progress, bind, lift.
    destruct (workflow_progress job payload phases) as [[n d]|]; [|done]. split; [exact Hs|].
    intros j (j0 & -> & Hj0)%elem_of_map. case_bool_decide; cbn; [|by apply Hj]. intros _. by apply Hj. }
  intros u. cbv beta. clear u. destruct (_has_failed phases); [by apply (stop_good _ _ _ _ _ [] [])|].
  destruct chunks as [|c cs].
  { apply (finalize_good _ _ _ _ _ _ [] []); [done| |done]. intros p Hp _. rewrite Hch in Hp by done.
    by apply elem_of_nil in Hp. }
  fold (is_bundle payload). destruct (is_bundle payload); [by apply bundle_good|by apply single_good].
Qed.

Lemma truthful_queued job_id payload s s' (d : WorkflowDispatchPlan) bundle :
  NoDup (map cp_id (w_phases s)) →
  w_phases s' = queued_in (dp_plan_phase_ids d ++ dp_load_phase_ids d) (w_phases s) →
  Forall (launchable bundle (phases_of job_id s) PLAN) (dp_plan_phase_ids d) →
  Forall (launchable bundle (phases_of job_id s) LOAD) (dp_load_phase_ids d) →
  truthful payload (phases_of job_id s) → truthful payload (phases_of job_id s').
Proof.
  intros Hnd Hs Hp Hl [H1 H2]. set (ids := dp_plan_phase_ids d ++ dp_load_phase_ids d) in *.
  assert (∀ q, q ∈ w_phases s → cp_status q = ph_COMPLETED → queue_row ids q = q) as Hfix.
  { intros q Hq Hc. unfold queue_row. case_bool_decide as Hin; [|done].
    assert (∃ p, p ∈ phases_of job_id s ∧ cp_id p = cp_id q ∧ (cp_status p = ph_PENDING ∨ cp_status p = ph_BLOCKED))
      as (p & [Hps _]%elem_phases_of & Hid & Hst).
    { rewrite Forall_forall in Hp, Hl. apply elem_of_app in Hin as [Hin|Hin];
        [destruct (Hp _ Hin) as (p & ? & ? & _ & ? & _)|destruct (Hl _ Hin) as (p & ? & ? & _ & ? & _)]; eauto. }
    assert (p = q) as -> by (by apply (NoDup_map_inj_on cp_id (w_phases s))). destruct Hst; congruence. }
  assert (∀ k r, (∀ q, q ∈ role_phases k r (phases_of job_id s) → cp_status q = ph_COMPLETED) →
                 ∀ q, q ∈ role_phases k r (phases_of job_id s') → cp_status q = ph_COMPLETED) as Hrole.
  { intros k r Hall q ([Hq Hj]%elem_phases_of & Hk & Hr)%elem_role. rewrite Hs in Hq.
    apply elem_of_map in Hq as (q0 & -> & Hq0).
    assert (cp_status q0 = ph_COMPLETED) as Hc.
    { apply Hall, elem_role. unfold queue_row in *. rewrite elem_phases_of. by case_bool_decide. }
    by rewrite (Hfix q0 Hq0 Hc). }
  split; intros Hf; apply Hrole; auto.
Qed.

(** Whatever the flags say, an advance only moves waiting phases of the job to QUEUED. *)
Section Rows.
Variables (phases L : list chunk_phase).
Definition moved s : Prop := ∃ ids, w_phases s = queued_in ids L ∧
  Forall (λ i, ∃ p, p ∈ phases ∧ cp_id p = i ∧ (cp_status p = ph_PENDING ∨ cp_status p = ph_BLOCKED)) ids.

Lemma moved_same {A} (m : M (wstate D) A) : (∀ s, w_phases (m s).2 = w_phases s) → keeps moved m.
Proof. intros Hm s (ids & Hs & Hi). exists ids. by rewrite Hm. Qed.
Lemma moved_queue b ps : (∀ p, p ∈ ps → p ∈ phases) → keeps moved (_queue_pending ps b).
Proof.
  intros Hps s (ids & Hs & Hi). rewrite queue_pending_run. exists (ids ++ ready_ids b ps). cbn.
  rewrite Hs, queued_in_app. split; [done|]. apply Forall_app. split; [done|].
  apply Forall_forall. intros i (p & -> & [Hr Hp]%elem_of_filter_b)%elem_of_map. exists p. split_and!; auto.
  unfold ready, is_status in Hr. destruct (cp_status p); try done; [by right|by left| |..];
    by repeat case_bool_decide; destruct b.
Qed.
Lemma moved_role k r p : p ∈ role_phases k r phases → p ∈ phases.
Proof. by intros [? _]%elem_role. Qed.
Lemma moved_kind k p : p ∈ kind_phases k phases → p ∈ phases.
Proof. by intros [? _]%elem_kind. Qed.

Ltac moving :=
  repeat first
    [ progress intros
    | apply keeps_bind
    | apply moved_queue; first [apply moved_role | apply moved_kind]
    | match goal with
      | |- keeps _ (if ?b then _ else _) => destruct b
      | |- keeps _ (match ?x with _ => _ end) => destruct x eqn:?
      end
    | apply moved_same; intros; (done || apply on_data_rows) ].

Lemma moved_child_load job w plans loads :
  keeps moved (dispatch_child_load job w (role_phases LOAD CHILD phases) plans loads).
Proof.
  unfold dispatch_child_load, finalize. pose proof (moved_role LOAD CHILD) as Hr.
  destruct (role_phases LOAD CHILD phases); [by moving|]. apply keeps_bind; [by apply moved_queue|]. by moving.
Qed.
Lemma moved_root_load job w plans loads :
  keeps moved (dispatch_root_load persist job w (role_phases LOAD ROOT phases) (role_phases LOAD CHILD phases)
                 plans loads).
Proof.
  unfold dispatch_root_load. pose proof (moved_role LOAD ROOT) as Hr. destruct (role_phases LOAD ROOT phases).
  { apply keeps_bind; [by moving|]. intros ?. apply moved_child_load. }
  apply keeps_bind; [by apply moved_queue|]. intros [ids l']. destruct (flag _ _); [apply moved_child_load|].
  destruct (_completed l'); [|by moving]. repeat (apply keeps_bind; [by moving|]; intros ?). apply moved_child_load.
Qed.
Lemma moved_child_plan job w :
  keeps moved (dispatch_child_plan persist job w (role_phases PLAN CHILD phases) (role_phases LOAD ROOT phases)
                 (role_phases LOAD CHILD phases)).
Proof.
  unfold dispatch_child_plan. pose proof (moved_role PLAN CHILD) as Hr.
  destruct (role_phases PLAN CHILD phases); [apply moved_root_load|]. apply keeps_bind; [by apply moved_queue|].
  intros [ids l']. destruct (_completed l'); [apply moved_root_load|]. apply keeps_bind; [by moving|].
  intros [? ?]. by moving.
Qed.
Lemma moved_bundle job payload : keeps moved (dispatch_bundle persist job payload phases).
Proof.
  unfold dispatch_bundle. cbv zeta. apply keeps_bind; [by moving|]. intros payload'.
  unfold dispatch_root_plan. destruct (flag _ _); [apply moved_child_plan|]. destruct (_completed _).
  - repeat (apply keeps_bind; [by moving|]; intros ?). apply moved_child_plan.
  - apply keeps_bind; [by moving|]. intros [? ?]. by moving.
Qed.
Lemma moved_single job payload : keeps moved (dispatch_single job payload phases).
Proof.
  unfold dispatch_single, finalize. apply keeps_bind; [by moving|]. intros [plans l]. destruct (negb _); [by moving|].
  apply keeps_bind; [by moving|]. intros [loads l']. by moving.
Qed.
Lemma moved_dispatch job payload chunks :
  keeps moved (advance_workflow_dispatch persist job payload chunks phases).
Proof.
  unfold advance_workflow_dispatch. apply keeps_bind.
  { apply moved_same. intros s. unfold rollup_workflow_progress, bind, lift.
    by destruct (workflow_progress job payload phases) as [[]|]. }
  intros _. destruct (_has_failed phases); [by moving|]. destruct chunks; [unfold finalize; by moving|].
  destruct (is_text _ _); [apply moved_bundle|apply moved_single].
Qed.
End Rows.

Lemma advance_rows job_id s :
  moved (phases_of job_id s) (w_phases s) (advance_workflow persist job_id s).2.
Proof.
  assert (moved (phases_of job_id s) (w_phases s) s) as H0 by (exists []; by rewrite queued_in_nil).
  unfold advance_workflow, atomic.
  assert (∀ {A} (m : M (wstate D) A), keeps (moved (phases_of job_id s) (w_phases s)) m →
    moved (phases_of job_id s) (w_phases s)
      (match m s with (Ok a, s') => (Ok a, s')
       | (Err e, s') => (Err e, mkW (w_jobs s) (w_chunks s) (w_phases s) (w_data s')) end).2) as Hat.
  { intros A m Hm. specialize (Hm s H0). by destruct (m s) as [[a|e] s']. }
  unfold bind at 1, get_job. destruct (find_job job_id s) as [job|]; [|done].
  destruct (negb _); [done|]. destruct (negb _); [done|].
  rewrite !bind_gets. fold (phases_of job_id s). apply Hat, moved_dispatch.
Qed.

(** C16. One advance of an import, whose ready flags are truthful and whose phases have chunks,
    queues only phases that wait (pending or blocked) and only when every phase they depend on is
    completed: child plans and root loads after the root plans, child loads after all plans and
    the root loads, and loads after plans when there is no bundle.  It changes no other phase, asks
    for the finalisation only when every phase is completed and never twice, leaves the flags
    truthful, and when it raises it changes nothing. *)
Theorem phases_start_in_order (job_id : string) (s : wstate D) (job : workflow_job) :
  find_job job_id s = Some job → NoDup (map wj_id (w_jobs s)) → NoDup (map cp_id (w_phases s)) →
  (∀ p, p ∈ w_phases s → cp_job p ∈ w_chunks s) →
  truthful (wj_workflow job) (phases_of job_id s) →
  match advance_workflow persist job_id s with
  | (Ok d, s') =>
      let bundle := is_bundle (wj_workflow job) in
      w_phases s' = queued_in (dp_plan_phase_ids d ++ dp_load_phase_ids d) (w_phases s) ∧
      Forall (launchable bundle (phases_of job_id s) PLAN) (dp_plan_phase_ids d) ∧
      Forall (launchable bundle (phases_of job_id s) LOAD) (dp_load_phase_ids d) ∧
      (dp_finalize_job d = true →
         flag "finalize_queued" (wj_workflow job) = false ∧
         (∀ p, p ∈ phases_of job_id s → counts bundle p = true → cp_status p = ph_COMPLETED) ∧
         (∀ j, find_job job_id s' = Some j → flag "finalize_queued" (wj_workflow j) = true)) ∧
      (∀ j, find_job job_id s' = Some j → truthful (wj_workflow j) (phases_of job_id s'))
  | (Err _, s') => w_phases s' = w_phases s ∧ w_jobs s' = w_jobs s
  end.
Proof.
  intros Hj Hndj Hnd Hch Ht. unfold advance_workflow, atomic. rewrite (bind_ok _ _ _ job s) by (unfold get_job; by rewrite Hj).
  pose proof (find_job_id _ _ _ Hj) as [Hjin Hjid].
  assert (∀ j, j ∈ w_jobs s → wj_id j = wj_id job → truthful (wj_workflow j) (phases_of job_id s)) as Hsaved.
  { intros j Hjj Hid. by rewrite (NoDup_map_inj_on wj_id (w_jobs s) j job). }
  assert (∀ d, d = empty_plan →
    w_phases s = queued_in (dp_plan_phase_ids d ++ dp_load_phase_ids d) (w_phases s)) as Hidle
    by (intros d ->; by rewrite queued_in_nil).
  destruct (flag "prepare_completed" (wj_workflow job)); cbn [negb].
  2:{ split_and!; try done; [by apply Hidle|]. intros j [Hin Hid]%find_job_id. apply Hsaved; congruence. }
  destruct (live_job job); cbn [negb].
  2:{ split_and!; try done; [by apply Hidle|]. intros j [Hin Hid]%find_job_id. apply Hsaved; congruence. }
  rewrite !bind_gets. fold (phases_of job_id s).
  pose proof (dispatch_good (flag "finalize_queued" (wj_workflow job)) job (wj_workflow job)
    (List.filter (λ c, bool_decide (c = job_id)) (w_chunks s)) (phases_of job_id s) (w_phases s)
    (conj Ht eq_refl)) as Hg.
  ospecialize (Hg _ s _).
  { intros E. destruct (phases_of job_id s) as [|p l] eqn:Ep; [done|]. exfalso.
    assert (p ∈ phases_of job_id s) as [Hp Hpj]%elem_phases_of by (rewrite Ep; left).
    assert (job_id ∈ List.filter (λ c, bool_decide (c = job_id)) (w_chunks s)) as Hc.
    { apply elem_of_filter_b. rewrite bool_decide_eq_true. split; [done|]. rewrite <- Hpj. by apply Hch. }
    rewrite E in Hc. by apply elem_of_nil in Hc. }
  { split; [by rewrite queued_in_nil|exact Hsaved]. }
  destruct (advance_workflow_dispatch _ _ _ _ _ s) as [[d|e] s']; [|done].
  destruct Hg as [[Hs' Hp Hl Hf Ho] Hst]. split_and!; try done.
  - intros Hfin. destruct (Ho Hfin) as [H0 Hafter]. split_and!; [done|by apply Hf|].
    intros j [Hin Hid]%find_job_id. apply Hafter; congruence.
  - intros j [Hin Hid]%find_job_id. eapply truthful_queued; try done. apply Hst; congruence.
Qed.
End Order.

(** ** A bundle whose root plan is completed *)

Module Demo.
Definition waiting_phase (i : Z) (r : chunk_role) (k : phase_kind) (st : phase_status) : chunk_phase :=
  mkPhase i "j" r 0 k st 0 EmptyString EmptyString None None None None [] [].
Definition bundle_job : workflow_job :=
  mkWJob "j" RUNNING [("prepare_completed", PBool true); ("bundle_mode", PStr "same_side_bundle")] [] [] 0 [].
Definition bundle_state : wstate unit :=
  mkW [bundle_job] ["j"; "j"]
    [waiting_phase 1 ROOT PLAN ph_COMPLETED; waiting_phase 2 ROOT LOAD ph_BLOCKED;
     waiting_phase 3 CHILD PLAN ph_BLOCKED; waiting_phase 4 CHILD LOAD ph_BLOCKED] tt.
Definition store_index (j : workflow_job) (kind : string) (index : pydict) (k : phase_kind) : M unit manifest_meta :=
  ret (mkMeta 1 "sum" 0).
End Demo.

Lemma phases_start_in_order_witness :
  ∃ s', advance_workflow Demo.store_index "j" Demo.bundle_state = (Ok (mkPlan [3] [2] false), s') ∧
    Forall (launchable true (phases_of "j" Demo.bundle_state) PLAN) [3] ∧
    Forall (launchable true (phases_of "j" Demo.bundle_state) LOAD) [2].
Proof.
  exists (advance_workflow Demo.store_index "j" Demo.bundle_state).2.
  assert (advance_workflow Demo.store_index "j" Demo.bundle_state =
    (Ok (mkPlan [3] [2] false), (advance_workflow Demo.store_index "j" Demo.bundle_state).2)) as E
    by (vm_compute; reflexivity).
  split; [exact E|].
  pose proof (phases_start_in_order Demo.store_index "j" Demo.bundle_state Demo.bundle_job) as H.
  rewrite E in H. destruct H as (_ & Hp & Hl & _); [reflexivity| | | | |split; [exact Hp|exact Hl]].
  - apply NoDup_singleton.
  - apply (bool_decide_unpack _). vm_compute. exact I.
  - intros p Hp. repeat (apply elem_of_cons in Hp as [->|Hp]; [left|]). by apply elem_of_nil in Hp.
  - split; intros [=].
Defined.
