(* ===== verification/ImportPhaseProps.v ===== *)
(** * Fencing of import phase attempts

    A lease token identifies an attempt.  Whatever the workers, the janitor and the users do, a
    token that has lost its phase never gets it back, and no call made with it changes anything. *)

From S2P Require Import Prelude PyValue ImportQueue ImportPhases ImportDispatch ImportDispatchProps.
Local Open Scope Z_scope.

Section Fencing.
Context {D : Type}.
Variable environ : list (string * string).
Implicit Types (s : wstate D) (used : list string).

(** ** The invariant *)

Definition idle (p : chunk_phase) : Prop := cp_status p ≠ ph_RUNNING ∧ cp_lease_token p = EmptyString.
Definition running (p : chunk_phase) : Prop := cp_status p = ph_RUNNING ∧ cp_lease_token p ≠ EmptyString.
(** [used] holds the tokens issued so far. *)
Record phases_ok used s : Prop := {
  ok_ids : NoDup (map cp_id (w_phases s));
  ok_each : Forall (λ p, idle p ∨ running p ∧ cp_lease_token p ∈ used) (w_phases s);
  ok_once : ∀ p q, p ∈ w_phases s → q ∈ w_phases s → running p → cp_lease_token p = cp_lease_token q → p = q
}.
Definition current (tok : string) s : Prop := ∃ p, p ∈ w_phases s ∧ running p ∧ cp_lease_token p = tok.

(** [s'] has the phases of [s], each with its lease kept or given up. *)
Definition kept (p p' : chunk_phase) : Prop :=
  cp_id p' = cp_id p ∧ cp_job p' = cp_job p ∧
  (cp_status p' = ph_RUNNING ∧ cp_status p = ph_RUNNING ∧ cp_lease_token p' = cp_lease_token p ∨ idle p').
Definition settles s s' : Prop := Forall2 kept (w_phases s) (w_phases s').

Lemma kept_refl used p : idle p ∨ running p ∧ cp_lease_token p ∈ used → kept p p.
Proof. intros [Hi|[Hr _]]; repeat split; try done; [by right|left]. by destruct Hr. Qed.
Lemma kept_trans p q r : kept p q → kept q r → kept p r.
Proof.
  intros (Hi & Hj & H1) (Hi' & Hj' & H2). split_and!; [congruence..|]. destruct H2 as [(A & B & C)|?]; [|by right].
  destruct H1 as [(A' & B' & C')|[Hn _]]; [|by congruence]. left. split_and!; congruence.
Qed.
Lemma settles_refl used s : phases_ok used s → settles s s.
Proof.
  intros [_ He _]. unfold settles. induction He as [|p ps Hp Hps IH]; constructor; [by eapply kept_refl|done].
Qed.
Lemma settles_trans s1 s2 s3 : settles s1 s2 → settles s2 s3 → settles s1 s3.
Proof.
  unfold settles. intros H1. revert s3. generalize (w_phases s2), H1. clear.
  intros l2 H1 s3. generalize (w_phases s3). clear s3. induction H1; inversion 1; subst; constructor; eauto using kept_trans.
Qed.
Lemma settles_elem s s' p' : settles s s' → p' ∈ w_phases s' → ∃ p, p ∈ w_phases s ∧ kept p p'.
Proof.
  intros Hs [i Hi]%list_elem_of_lookup. destruct (Forall2_lookup_r _ _ _ _ _ Hs Hi) as (p & Hp & Hk).
  exists p. split; [by eapply list_elem_of_lookup_2|done].
Qed.
Lemma settles_ids s s' : settles s s' → map cp_id (w_phases s') = map cp_id (w_phases s).
Proof. unfold settles. induction 1 as [|p p' ps ps' (Hi & _) Hf IH]; cbn; [done|]. by rewrite Hi, IH. Qed.

Lemma settles_ok used s s' : phases_ok used s → settles s s' → phases_ok used s'.
Proof.
  intros [Hid He Ho] Hs. rewrite Forall_forall in He. split.
  - by rewrite (settles_ids _ _ Hs).
  - apply Forall_forall. intros p' Hp'. destruct (settles_elem _ _ _ Hs Hp') as (p & Hp & _ & _ & [(Hr' & Hr & Ht)|Hi]).
    + right. destruct (He p Hp) as [[Hn _]|[[_ Hne] Hu]]; [done|]. unfold running. by rewrite Ht.
    + by left.
  - intros p' q' Hp' Hq' Hr Ht.
    destruct (settles_elem _ _ _ Hs Hp') as (p & Hp & Hpi & _ & [(_ & Hrp & Htp)|[Hn _]]); [|by destruct Hr].
    destruct (settles_elem _ _ _ Hs Hq') as (q & Hq & Hqi & _ & [(_ & Hrq & Htq)|[_ Hq0]]).
    2:{ destruct Hr as [_ Hne]. congruence. }
    assert (p = q) as <-.
    { apply Ho; [done..| |congruence]. split; [done|]. destruct Hr as [_ Hne]. congruence. }
    apply (NoDup_map_inj_on cp_id (w_phases s')); [by rewrite (settles_ids _ _ Hs)|done..|congruence].
Qed.
Lemma settles_current s s' tok : settles s s' → current tok s' → current tok s.
Proof.
  intros Hs (p' & Hp' & Hr & Ht).
  destruct (settles_elem _ _ _ Hs Hp') as (p & Hp & _ & _ & [(_ & Hrp & Htp)|[Hn _]]); [|by destruct Hr].
  exists p. destruct Hr as [_ Hne]. split_and!; [done| |congruence]. split; congruence.
Qed.

(** ** Every operation but a new lease settles *)

Definition settling {A} (m : M (wstate D) A) : Prop := ∀ used s, phases_ok used s → settles s (m s).2.

Lemma settling_same {A} (m : M (wstate D) A) : (∀ s, w_phases (m s).2 = w_phases s) → settling m.
Proof. intros Hm used s Hok. unfold settles. rewrite Hm. by eapply settles_refl. Qed.
Lemma settling_bind {A B} (m : M (wstate D) A) (k : A → M (wstate D) B) :
  settling m → (∀ a, settling (k a)) → settling (bind m k).
Proof.
  intros Hm Hk used s Hok. specialize (Hm used s Hok). unfold bind.
  destruct (m s) as [[a|e] s']; [|done]. cbn in Hm. eapply settles_trans; [exact Hm|].
  eapply Hk, settles_ok; [exact Hok|exact Hm].
Qed.
Lemma settling_update q f :
  (∀ p, q p = true → idle p ∨ running p → kept p (f p)) → settling (update_phases q f).
Proof.
  intros Hf used s [_ He _]. unfold update_phases, settles. cbn.
  induction He as [|p ps Hp Hps IH]; cbn; constructor; [|done].
  destruct (q p) eqn:Eq; [|by eapply kept_refl]. apply Hf; tauto.
Qed.
Lemma gives_up_idle p p' :
  cp_id p' = cp_id p → cp_job p' = cp_job p → cp_status p' ≠ ph_RUNNING → cp_lease_token p' = EmptyString →
  kept p p'.
Proof. intros ????. split_and!; try done. right. done. Qed.

Ltac settle :=
  repeat first
    [ apply settling_bind; [|intros ?]
    | apply settling_update; intros ? ? ?; apply gives_up_idle; done
    | match goal with
      | |- settling (if ?b then _ else _) => destruct b
      | |- settling (match ?x with _ => _ end) => destruct x
      end
    | apply settling_same; intros s; done ].

Lemma settling_get_phase i : settling (get_phase (D := D) i).
Proof. apply settling_same. intros s. unfold get_phase. by destruct (find_phase i s). Qed.
Lemma settling_get_job i : settling (get_job (D := D) i).
Proof. apply settling_same. intros s. unfold get_job. by destruct (find_job i s). Qed.
Lemma settling_on_data {A} (fn : M D A) : settling (on_data fn).
Proof. apply settling_same. intros s. unfold on_data. by destruct (fn (w_data s)). Qed.
Hint Resolve settling_get_phase settling_get_job settling_on_data : core.

Lemma settling_heartbeat now i tok : settling (heartbeat_phase_lease (D := D) environ now i tok).
Proof.
  unfold heartbeat_phase_lease. destruct (str_empty tok); [by settle|].
  apply settling_bind; [|intros ?; by settle].
  apply settling_update. intros p Hq Hp. unfold held in Hq.
  apply andb_true_iff in Hq as [[_ Hq]%andb_true_iff _]. apply bool_decide_eq_true in Hq.
  split_and!; [done..|]. by left.
Qed.
Lemma settling_complete now i tok m : settling (complete_phase (D := D) now i tok m).
Proof. unfold complete_phase. by settle. Qed.
Lemma settling_fail now i tok m : settling (fail_phase (D := D) now i tok m).
Proof. unfold fail_phase. by settle. Qed.
Lemma settling_cancel_attempt now i tok m : settling (cancel_phase_attempt (D := D) now i tok m).
Proof. unfold cancel_phase_attempt, save_phase. by settle. Qed.
Lemma settling_request_cancel now j : settling (request_workflow_cancellation (D := D) now j).
Proof.
  unfold request_workflow_cancellation, cancel_pending_phases. apply settling_bind; [done|]. intros ?. by settle.
Qed.
Lemma settling_requeue now : settling (requeue_expired_import_phases (D := D) now).
Proof.
  apply settling_bind; [by settle|]. intros ps. generalize 0 at 2 as c. generalize 0 as r.
  induction ps as [|p ps IH]; intros r c; cbn [requeue_each]; [by settle|].
  apply settling_bind; [|intros []; apply IH].
  unfold requeue_one. apply settling_bind; [done|]. intros j. by settle.
Qed.
Lemma settling_fence {A} now p op (fn : M D A) : settling (run_with_phase_attempt_fence environ now p op fn).
Proof.
  unfold run_with_phase_attempt_fence. apply settling_bind.
  { unfold assert_phase_attempt_current. apply settling_bind; [apply settling_heartbeat|]. intros []; by settle. }
  intros _. apply settling_bind; [done|]. intros l. apply settling_bind; [done|]. intros j.
  destruct (_ || _ || _); [by settle|]. destruct (cancel_requested j); [by settle|done].
Qed.
Lemma settling_advance persist job_id : settling (advance_workflow (D := D) persist job_id).
Proof.
  intros used s [Hid He _]. destruct (advance_rows persist job_id s) as (ids & Hs & Hids). unfold settles.
  rewrite Hs. unfold queued_in. rewrite Forall_forall in Hids. rewrite Forall_forall in He.
  apply Forall2_fmap_r, Forall2_same_length_lookup_2; [done|]. intros i p q Hp Hq. simplify_eq.
  apply list_elem_of_lookup_2 in Hp. unfold compose, queue_row. case_bool_decide as Hin; [|by eapply kept_refl, He].
  destruct (Hids _ Hin) as (p' & [Hp' _]%elem_phases_of & Hpid & Hst).
  assert (p' = p) as -> by (by apply (NoDup_map_inj_on cp_id (w_phases s))).
  apply gives_up_idle; try done. destruct (He p Hp) as [[_ Ht]|[[Hr _] _]]; [done|]. destruct Hst; congruence.
Qed.

(** ** A new lease *)

Lemma find_phase_elem i s p : find_phase i s = Some p → p ∈ w_phases s ∧ cp_id p = i.
Proof. unfold find_phase. intros [Hin Hid]%List.find_some. rewrite list_elem_of_In. split; [done|lia]. Qed.
Lemma row_is_found used i s p q :
  phases_ok used s → find_phase i s = Some p → q ∈ w_phases s → cp_id q = i → q = p.
Proof.
  intros [Hid _ _] [Hp Hpi]%find_phase_elem Hq Hqi. apply (NoDup_map_inj_on cp_id (w_phases s)); congruence.
Qed.
Lemma save_phase_run i f s :
  save_phase i f s = (Ok tt, set_phases (map (λ p, if cp_id p =? i then f p else p) (w_phases s)) s).
Proof. done. Qed.

Lemma lease_ok used s i uuid f :
  phases_ok used s → uuid ≠ EmptyString → uuid ∉ used →
  (∀ p, cp_id (f p) = cp_id p ∧ cp_status (f p) = ph_RUNNING ∧ cp_lease_token (f p) = uuid) →
  let s' := set_phases (map (λ p, if cp_id p =? i then f p else p) (w_phases s)) s in
  phases_ok (uuid :: used) s' ∧ ∀ tok, tok ∈ used → current tok s' → current tok s.
Proof.
  intros [Hid He Ho] Hne Hfresh Hf s'. rewrite Forall_forall in He.
  assert (∀ p', p' ∈ w_phases s' → ∃ p, p ∈ w_phases s ∧ cp_id p' = cp_id p ∧
            (p' = p ∧ cp_lease_token p ≠ uuid ∨ cp_id p = i ∧ running p' ∧ cp_lease_token p' = uuid)) as Hrow.
  { intros p' (p & -> & Hp)%elem_of_map. exists p. destruct (Hf p) as (Hfi & Hfr & Hft).
    destruct (Z.eqb_spec (cp_id p) i); split_and!; try done; [right|left].
    - split_and!; try done. by split; [|rewrite Hft].
    - split; [done|]. intros Ht. destruct (He p Hp) as [[_ Ht']|[_ Hu]]; congruence. }
  split; [split|].
  - enough (map cp_id (w_phases s') = map cp_id (w_phases s)) as -> by done. cbn. rewrite map_map.
    apply map_ext. intros p. destruct (cp_id p =? i); [apply Hf|done].
  - apply Forall_forall. intros p' Hp'. destruct (Hrow p' Hp') as (p & Hp & _ & [[-> _]|(_ & Hr & Ht)]).
    + destruct (He p Hp) as [|[? ?]]; [by left|]. right. split; [done|]. by right.
    + right. split; [done|]. rewrite Ht. left.
  - intros p' q' Hp' Hq' Hr Ht. destruct (Hrow p' Hp') as (p & Hp & Hpi & [[-> Hpt]|(Hi & Hrp & Htp)]),
      (Hrow q' Hq') as (q & Hq & Hqi & [[-> Hqt]|(Hi' & Hrq & Htq)]); try congruence; [by apply Ho|].
    apply (NoDup_map_inj_on cp_id (w_phases s')); try done; [|congruence].
    cbn. rewrite map_map. erewrite map_ext; [exact Hid|]. intros x. destruct (cp_id x =? i); [apply Hf|done].
  - intros tok Htok (p' & Hp' & Hr & Ht). destruct (Hrow p' Hp') as (p & Hp & _ & [[-> _]|(_ & _ & Htu)]).
    + by exists p.
    + congruence.
Qed.

Lemma acquire_cases used s now uuid i task r s' :
  phases_ok used s → acquire_phase environ now uuid i task s = (r, s') →
  settles s s' ∨
  s' = set_phases (map (λ p, if cp_id p =? i
                             then lease_to now (now + _phase_lease_ttl_seconds environ) task uuid p else p)
                     (w_phases s)) s.
Proof.
  intros Hok. pose proof (settles_refl used s Hok) as Hself. unfold acquire_phase.
  unfold bind at 1, get_phase. destruct (find_phase i s) as [p|] eqn:Ep; [|by intros [= <- <-]; left].
  unfold bind at 1, get_job. destruct (find_job (cp_job p) s) as [j|]; [|by intros [= <- <-]; left].
  destruct (live_job j); cbn [negb].
  - destruct (bool_decide _); [by intros [= <- <-]; left|].
    destruct (_ && _); [by intros [= <- <-]; left|]. intros [= <- <-]. by right.
  - destruct (waiting p) eqn:Ew; [|by intros [= <- <-]; left].
    rewrite (bind_ok _ _ _ _ _ (save_phase_run i _ s)). intros [= <- <-]. left.
    pose proof Hok as [Hid He Ho]. rewrite Forall_forall in He. unfold settles. cbn.
    apply Forall2_fmap_r, Forall2_same_length_lookup_2; [done|]. intros n x y Hx Hy. simplify_eq.
    apply list_elem_of_lookup_2 in Hx. unfold compose.
    destruct (Z.eqb_spec (cp_id x) i) as [E|E]; [|by eapply kept_refl, He].
    assert (x = p) as -> by (by eapply (row_is_found used)).
    unfold waiting in Ew. apply bool_decide_eq_true in Ew.
    apply gives_up_idle; try done. destruct (He p Hx) as [[_ Ht]|[[Hr _] _]]; [done|]. rewrite Hr in Ew.
    by repeat (apply elem_of_cons in Ew as [Ew|Ew]; [done|]); apply elem_of_nil in Ew.
Qed.
Lemma acquire_ok used s now uuid i task :
  phases_ok used s → uuid ≠ EmptyString → uuid ∉ used →
  let s' := (acquire_phase environ now uuid i task s).2 in
  phases_ok (uuid :: used) s' ∧ ∀ tok, tok ∈ used → current tok s' → current tok s.
Proof.
  intros Hok Hne Hfresh. cbv zeta. destruct (acquire_phase environ now uuid i task s) as [r s'] eqn:E.
  destruct (acquire_cases _ _ _ _ _ _ _ _ Hok E) as [Hs| ->]; [|by apply lease_ok].
  split; [|intros tok _; by apply settles_current]. eapply settles_ok; [|exact Hs].
  destruct Hok as [Hid He Ho]. split; [done| |done]. eapply Forall_impl; [exact He|]. cbn.
  intros p [?|[? ?]]; [by left|right]. split; [done|]. by right.
Qed.

(** ** Histories *)

(** The steps of workers, janitors and users, in any order; jobs may change under them in any way.
    [used] collects the uuids of the leases; a new one differs from the earlier ones. *)
Abbreviation history := (prod (list string) (wstate D)).
Inductive fence_step : history → history → Prop :=
  | fs_acquire now uuid i task used s :
      uuid ≠ EmptyString → uuid ∉ used →
      fence_step (used, s) (uuid :: used, (acquire_phase environ now uuid i task s).2)
  | fs_heartbeat now i tok used s : fence_step (used, s) (used, (heartbeat_phase_lease environ now i tok s).2)
  | fs_complete now i tok d used s : fence_step (used, s) (used, (complete_phase now i tok d s).2)
  | fs_fail now i tok d used s : fence_step (used, s) (used, (fail_phase now i tok d s).2)
  | fs_cancel now i tok d used s : fence_step (used, s) (used, (cancel_phase_attempt now i tok d s).2)
  | fs_request now j used s : fence_step (used, s) (used, (request_workflow_cancellation now j s).2)
  | fs_requeue now used s : fence_step (used, s) (used, (requeue_expired_import_phases now s).2)
  | fs_write {A} now p op (fn : M D A) used s :
      fence_step (used, s) (used, (run_with_phase_attempt_fence environ now p op fn s).2)
  | fs_advance persist j used s : fence_step (used, s) (used, (advance_workflow persist j s).2)
  | fs_jobs js used s : fence_step (used, s) (used, set_jobs js s).
(** Phases start without a lease. *)
Definition staged s : Prop := NoDup (map cp_id (w_phases s)) ∧ Forall idle (w_phases s).
Definition fenced_history (h : history) : Prop := ∃ s0, staged s0 ∧ rtc fence_step ([], s0) h.

Lemma settling_step {A} (m : M (wstate D) A) used s :
  settling m → phases_ok used s → EmptyString ∉ used →
  phases_ok used (m s).2 ∧ (EmptyString ∉ used) ∧
  (∀ tok, tok ∈ used → tok ∈ used ∧ (current tok (m s).2 → current tok s)).
Proof.
  intros Hm Hok Hne. pose proof (Hm _ _ Hok) as Hs. split_and!; [by eapply settles_ok|done|].
  intros tok Htok. split; [done|by apply settles_current].
Qed.
Lemma step_settles used s used' s' :
  phases_ok used s → EmptyString ∉ used → fence_step (used, s) (used', s') →
  phases_ok used' s' ∧ (EmptyString ∉ used') ∧ (∀ tok, tok ∈ used → tok ∈ used' ∧ (current tok s' → current tok s)).
Proof.
  intros Hok Hne Hstep. remember (used, s) as h eqn:Eh. remember (used', s') as h' eqn:Eh'.
  destruct Hstep; apply pair_equal_spec in Eh as [-> ->], Eh' as [<- <-].
  - destruct (acquire_ok _ _ now uuid i task Hok ltac:(done) ltac:(done)) as [Hok' Hc].
    split_and!; [done|by apply not_elem_of_cons|]. intros tok Htok. split; [by right|by apply Hc].
  - exact (settling_step _ _ _ (settling_heartbeat now i tok) Hok Hne).
  - exact (settling_step _ _ _ (settling_complete now i tok d) Hok Hne).
  - exact (settling_step _ _ _ (settling_fail now i tok d) Hok Hne).
  - exact (settling_step _ _ _ (settling_cancel_attempt now i tok d) Hok Hne).
  - exact (settling_step _ _ _ (settling_request_cancel now j) Hok Hne).
  - exact (settling_step _ _ _ (settling_requeue now) Hok Hne).
  - exact (settling_step _ _ _ (settling_fence now p op fn) Hok Hne).
  - exact (settling_step _ _ _ (settling_advance persist j) Hok Hne).
  - split_and!; [|done..]. destruct Hok as [Hid He Ho]. by split.
Qed.
Lemma steps_settle used s used' s' :
  phases_ok used s → EmptyString ∉ used → rtc fence_step (used, s) (used', s') →
  phases_ok used' s' ∧ (EmptyString ∉ used') ∧ (∀ tok, tok ∈ used → tok ∈ used' ∧ (current tok s' → current tok s)).
Proof.
  intros Hok Hne Hr. remember (used, s) as h eqn:Eh. remember (used', s') as h' eqn:Eh'. revert used s Hok Hne Eh.
  induction Hr as [h|h [used1 s1] h2 Hstep Hr IH]; intros used s Hok Hne ->.
  { simplify_eq. split_and!; done. }
  destruct (step_settles _ _ _ _ Hok Hne Hstep) as (Hok1 & Hne1 & H1).
  destruct (IH Eh' used1 s1 Hok1 Hne1 eq_refl) as (Hok2 & Hne2 & H2). split_and!; [done..|].
  intros tok Htok. destruct (H1 tok Htok) as [Hin Hc]. destruct (H2 tok Hin) as [Hin2 Hc2]. auto.
Qed.
Lemma history_ok used s : fenced_history (used, s) → phases_ok used s ∧ EmptyString ∉ used.
Proof.
  intros (s0 & [Hid Hidle] & Hr). apply steps_settle in Hr as (? & ? & _); [done| |by intros ?%elem_of_nil].
  rewrite Forall_forall in Hidle. split; [done| |].
  - apply Forall_forall. intros p Hp. left. auto.
  - intros p q Hp _ [Hr' _] _. destruct (Hidle p Hp). done.
Qed.

(** ** What a stale token can do *)

Definition powerless (tok : string) s : Prop :=
  (∀ now i d, heartbeat_phase_lease environ now i tok s = (Ok false, s) ∧
              complete_phase now i tok d s = (Ok false, s) ∧
              fail_phase now i tok d s = (Ok false, s) ∧
              cancel_phase_attempt now i tok d s = (Ok false, s) ∧
              phase_lease_active i tok s = (Ok false, s)) ∧
  (∀ A now p op (fn : M D A), cp_lease_token p = tok →
     ∃ msg, run_with_phase_attempt_fence environ now p op fn s = (Err (StaleImportPhaseLeaseError msg), s)).

Lemma held_current i tok s p : tok ≠ EmptyString → p ∈ w_phases s → held i tok p = true → current tok s.
Proof.
  unfold held. rewrite !andb_true_iff, !bool_decide_eq_true. intros Hne Hp [[_ Hr] Ht].
  exists p. split_and!; [done| |done]. split; [done|congruence].
Qed.
Lemma not_current_held i tok s : tok ≠ EmptyString → ¬ current tok s → Forall (λ p, held i tok p = false) (w_phases s).
Proof.
  intros Hne Hn. apply Forall_forall. intros p Hp. apply not_true_iff_false. intros Hh. by eapply Hn, held_current.
Qed.
Lemma update_no_row q f s : Forall (λ p, q p = false) (w_phases s) → update_phases q f s = (Ok 0, s).
Proof.
  intros Hq. unfold update_phases, bind, gets, modify, ret. rewrite (filter_none q _ Hq). cbn. do 2 f_equal.
  destruct s as [js cs ps d]. unfold set_phases. cbn in *. f_equal.
  induction Hq as [|p ps Hp Hps IH]; cbn; [done|]. by rewrite Hp, IH.
Qed.
Lemma not_current_powerless tok s : tok ≠ EmptyString → ¬ current tok s → powerless tok s.
Proof.
  intros Hne Hn.
  assert (str_empty tok = false) as Hte by (by destruct tok).
  assert (∀ now i, heartbeat_phase_lease environ now i tok s = (Ok false, s)) as Hhb.
  { intros now i. unfold heartbeat_phase_lease. rewrite Hte. by rewrite (bind_ok _ _ _ _ _ (update_no_row _ _ _ (not_current_held i _ _ Hne Hn))). }
  split; [|intros A now p op fn Hp].
  - intros now i d. split_and!; [done|..].
    1,2: unfold complete_phase, fail_phase; by rewrite (bind_ok _ _ _ _ _ (update_no_row _ _ _ (not_current_held i _ _ Hne Hn))).
    + unfold cancel_phase_attempt. rewrite bind_gets. destruct (find_phase i s) as [p|] eqn:Ep; [|done].
      destruct (negb _ || negb _) eqn:Ec; [done|]. exfalso.
      apply orb_false_iff in Ec as [Hr%negb_false_iff%bool_decide_eq_true Ht%negb_false_iff%bool_decide_eq_true].
      apply find_phase_elem in Ep as [Hp _]. apply Hn. exists p. split_and!; [done| |done]. split; congruence.
    + unfold phase_lease_active. rewrite Hte. unfold gets. do 2 f_equal. apply not_true_iff_false.
      intros (p & Hp%list_elem_of_In & Hh)%existsb_exists. by eapply Hn, held_current.
  - unfold run_with_phase_attempt_fence, assert_phase_attempt_current. rewrite Hp. eexists.
    unfold bind at 1 2. by rewrite Hhb.
Qed.

(** ** An accepted end *)

Lemma ends_current tok i s (f : chunk_phase → chunk_phase) used :
  phases_ok used s → tok ≠ EmptyString → (∀ p, cp_status (f p) ≠ ph_RUNNING) →
  (∃ p, p ∈ w_phases s ∧ held i tok p = true) →
  current tok s ∧ ¬ current tok (set_phases (map (λ p, if held i tok p then f p else p) (w_phases s)) s).
Proof.
  intros Hok Hne Hf (p & Hp & Hh). split; [by eapply held_current|].
  intros (q' & (q & -> & Hq)%elem_of_map & Hr & Ht). destruct (held i tok q) eqn:Eq.
  - destruct Hr as [Hr _]. by apply Hf in Hr.
  - pose proof Hh as Hh'. unfold held in Hh'. rewrite !andb_true_iff, !bool_decide_eq_true in Hh'.
    destruct Hh' as [[_ Hpr] Hpt].
    assert (p = q) as -> by (eapply (ok_once _ _ Hok); try done; [by split; [|rewrite Hpt]|congruence]). congruence.
Qed.
Lemma update_true tok i s (f : chunk_phase → chunk_phase) used s' :
  phases_ok used s → tok ≠ EmptyString → (∀ p, cp_status (f p) ≠ ph_RUNNING) →
  (let! updated := update_phases (held i tok) f in ret (negb (updated =? 0))) s = (Ok true, s') →
  current tok s ∧ ¬ current tok s'.
Proof.
  intros Hok Hne Hf. unfold bind, update_phases, gets, modify, ret. cbn. intros [= Hn <-].
  eapply ends_current; try done. destruct (List.filter (held i tok) (w_phases s)) as [|p l] eqn:El; [done|].
  exists p. apply and_comm, elem_of_filter_b. rewrite El. left.
Qed.
Lemma cancel_true tok i s now d used s' :
  phases_ok used s → tok ≠ EmptyString → cancel_phase_attempt now i tok d s = (Ok true, s') →
  current tok s ∧ ¬ current tok s'.
Proof.
  intros Hok Hne. unfold cancel_phase_attempt. rewrite bind_gets. destruct (find_phase i s) as [p|] eqn:Ep; [|done].
  destruct (negb _ || negb _) eqn:Ec; [done|].
  apply orb_false_iff in Ec as [Hr%negb_false_iff%bool_decide_eq_true Ht%negb_false_iff%bool_decide_eq_true].
  rewrite (bind_ok _ _ _ _ _ (save_phase_run i _ s)). intros [= <-].
  set (f := λ p, finish now (clear_lease (set_error d (set_status ph_CANCELLED p)))).
  change (current tok s ∧ ¬ current tok (set_phases (map (λ q, if cp_id q =? i then f q else q) (w_phases s)) s)).
  assert (map (λ q, if cp_id q =? i then f q else q) (w_phases s)
          = map (λ q, if held i tok q then f q else q) (w_phases s)) as ->.
  { apply map_ext_in. intros q Hq%list_elem_of_In. unfold held.
    destruct (Z.eqb_spec (cp_id q) i) as [E|E]; [|done].
    rewrite (row_is_found _ _ _ _ _ Hok Ep Hq E). by rewrite !bool_decide_eq_true_2. }
  eapply (ends_current tok i s f); try done. apply find_phase_elem in Ep as [Hp Hi]. exists p. split; [done|].
  unfold held. by rewrite !bool_decide_eq_true_2, Hi, Z.eqb_refl.
Qed.

(** C7. In every history of the phases of imports (workers acquiring, beating, completing,
    failing and cancelling attempts, users cancelling jobs, the janitor requeueing expired leases,
    the workflow advancing, jobs changing), an attempt that has lost its phase is powerless for
    ever: its heartbeats, its completion, its failure and its cancellation return false and change
    nothing, and its fenced writes raise before the write.  An attempt whose completion, failure or
    cancellation was accepted held its phase until then and has lost it, so exactly one end of an
    attempt is ever accepted. *)
Theorem stale_attempt_is_powerless (used : list string) (s : wstate D) (tok : string) :
  fenced_history (used, s) → tok ∈ used →
  (¬ current tok s → ∀ used' s', rtc fence_step (used, s) (used', s') → ¬ current tok s' ∧ powerless tok s') ∧
  (∀ now i d s', complete_phase now i tok d s = (Ok true, s') ∨ fail_phase now i tok d s = (Ok true, s') ∨
                 cancel_phase_attempt now i tok d s = (Ok true, s') →
     current tok s ∧ ¬ current tok s').
Proof.
  intros Hh Htok. destruct (history_ok _ _ Hh) as [Hok Hne].
  assert (tok ≠ EmptyString) as Ht by (by intros ->). split.
  - intros Hn used' s' Hr. destruct (steps_settle _ _ _ _ Hok Hne Hr) as (_ & _ & Hc).
    assert (¬ current tok s') by (intros Hc'; by apply Hn, (Hc tok Htok)).
    split; [done|]. by apply not_current_powerless.
  - intros now i d s' [H|[H|H]].
    + by eapply (update_true tok i s); [done..| |exact H].
    + by eapply (update_true tok i s); [done..| |exact H].
    + by eapply cancel_true.
Qed.

(** ** Fenced writes *)

(** The attempt [p] holds its phase, and the job of the phase runs and is not cancelled. *)
Definition holds (p : chunk_phase) s : Prop :=
  ∃ row job, find_phase (cp_id p) s = Some row ∧ cp_status row = ph_RUNNING ∧
    cp_lease_token row = cp_lease_token p ∧ cp_lease_token p ≠ EmptyString ∧
    find_job (cp_job row) s = Some job ∧ live_job job = true.

Lemma find_phase_map i f s :
  (∀ p, cp_id (f p) = cp_id p) → find_phase i (set_phases (map f (w_phases s)) s) = f <$> find_phase i s.
Proof.
  intros Hf. unfold find_phase. cbn. induction (w_phases s) as [|p ps IH]; cbn; [done|].
  rewrite Hf. by destruct (cp_id p =? i).
Qed.
(** The state after a heartbeat. *)
Definition beaten (now : Z) (i : Z) (tok : string) s : wstate D :=
  set_phases (map (λ p, if held i tok p then beat now (now + _phase_lease_ttl_seconds environ) p else p) (w_phases s)) s.
Lemma heartbeat_run now i tok s :
  tok ≠ EmptyString →
  heartbeat_phase_lease environ now i tok s =
    (Ok (existsb (held i tok) (w_phases s)), beaten now i tok s).
Proof.
  intros Hne. unfold heartbeat_phase_lease. assert (str_empty tok = false) as -> by (by destruct tok).
  unfold bind, update_phases, gets, modify, ret. cbn. f_equal. f_equal.
  destruct (existsb (held i tok) (w_phases s)) eqn:E.
  - apply existsb_exists in E as (p & Hp & Hh). assert (p ∈ List.filter (held i tok) (w_phases s)) as Hin
      by (rewrite elem_of_filter_b, list_elem_of_In; done).
    destruct (List.filter _ _); [by apply elem_of_nil in Hin|done].
  - rewrite filter_none; [done|]. apply Forall_forall. intros p Hp%list_elem_of_In. apply not_true_iff_false.
    intros Hh. apply not_true_iff_false in E. apply E, existsb_exists. eauto.
Qed.
Lemma find_beaten now i tok s : 
  find_phase i (beaten now i tok s) =
  (λ p, if held i tok p then beat now (now + _phase_lease_ttl_seconds environ) p else p) <$> find_phase i s.
Proof. apply find_phase_map. intros p. by destruct (held i tok p). Qed.

Lemma held_found used i tok s :
  phases_ok used s →
  existsb (held i tok) (w_phases s) = true ↔
  ∃ row, find_phase i s = Some row ∧ cp_status row = ph_RUNNING ∧ cp_lease_token row = tok.
Proof.
  intros Hok. rewrite existsb_exists. split.
  - intros (p & Hp%list_elem_of_In & Hh). unfold held in Hh. rewrite !andb_true_iff, !bool_decide_eq_true, Z.eqb_eq in Hh.
    destruct Hh as [[Hi Hr] Ht]. destruct (find_phase i s) as [row|] eqn:E.
    + exists row. by rewrite <- (row_is_found _ _ _ _ _ Hok E Hp Hi).
    + exfalso. unfold find_phase in E. apply (List.find_none _ _) with (x := p) in E; [|by apply list_elem_of_In]. lia.
  - intros (row & [Hp Hi]%find_phase_elem & Hr & Ht). exists row. rewrite <- list_elem_of_In. split; [done|].
    unfold held. by rewrite Hi, Z.eqb_refl, !bool_decide_eq_true_2.
Qed.

(** The run of a fenced write. *)
Lemma write_run {A} used now p op (fn : M D A) s r s1 :
  phases_ok used s → run_with_phase_attempt_fence environ now p op fn s = (r, s1) →
  (holds p s ∧ r = (fn (w_data s)).1 ∧
     s1 = mkW (w_jobs s) (w_chunks s) (w_phases (beaten now (cp_id p) (cp_lease_token p) s)) (fn (w_data s)).2) ∨
  (¬ holds p s ∧ ∃ e, r = Err e ∧ w_data s1 = w_data s).
Proof.
  intros Hok. unfold run_with_phase_attempt_fence, assert_phase_attempt_current.
  destruct (decide (cp_lease_token p = EmptyString)) as [E|Hne].
  { unfold bind at 1 2, heartbeat_phase_lease. rewrite E. cbn. intros [= <- <-]. right.
    split; [by intros (? & ? & _ & _ & _ & ? & _)|eauto]. }
  unfold bind at 1 2. rewrite heartbeat_run by done.
  destruct (existsb (held (cp_id p) (cp_lease_token p)) (w_phases s)) eqn:Eh; cbn [ret].
  2:{ intros [= <- <-]. right. split; [|by eauto]. intros (row & job & Hf & Hr & Ht & _). apply not_true_iff_false in Eh.
      apply Eh, (held_found used); eauto. }
  apply (held_found used) in Eh as (row & Hf & Hr & Ht); [|done].
  unfold bind at 1, get_phase. rewrite find_beaten, Hf. cbn [fmap option_fmap option_map].
  assert (held (cp_id p) (cp_lease_token p) row = true) as ->.
  { apply find_phase_elem in Hf as [_ Hi]. unfold held. by rewrite Hi, Z.eqb_refl, !bool_decide_eq_true_2. }
  unfold bind at 1, get_job. cbn [cp_job beat].
  change (find_job (cp_job row) (beaten now (cp_id p) (cp_lease_token p) s)) with (find_job (cp_job row) s).
  destruct (find_job (cp_job row) s) as [job|] eqn:Ej.
  2:{ intros [= <- <-]. right. split; [|by eauto]. intros (row' & job & Hf' & _ & _ & _ & Ej' & _). congruence. }
  cbn [cp_status cp_lease_token beat]. rewrite !(bool_decide_eq_true_2 (_ = _)) by done. cbn [negb orb].
  destruct (live_job job) eqn:El.
  - pose proof El as [Hjr Hjc%negb_true_iff]%andb_true_iff. rewrite Hjr, Hjc. cbn [negb].
    unfold on_data. cbn. destruct (fn (w_data s)) as [r' d']. intros [= <- <-].
    left. split; [|done]. by exists row, job.
  - intros Hrun. right. split.
    { intros (row' & job' & Hf' & _ & _ & _ & Ej' & El'). simplify_eq. congruence. }
    revert Hrun. unfold live_job in El. destruct (bool_decide (wj_status job = RUNNING)); cbn [negb].
    + cbn in El. apply negb_false_iff in El. rewrite El. intros [= <- <-]. eauto.
    + intros [= <- <-]. eauto.
Qed.

Lemma cancelled_not_held now j s n s' p :
  request_workflow_cancellation now j s = (Ok n, s') →
  (∀ row, find_phase (cp_id p) s' = Some row → cp_job row = j) → ¬ holds p s'.
Proof.
  intros Hrun Hj (row & job & Hf & _ & _ & _ & Hjob & Hl). specialize (Hj row Hf). subst j. revert Hrun.
  unfold request_workflow_cancellation, bind at 1, get_job. destruct (find_job (cp_job row) s) as [locked|]; [|done].
  intros [= _ <-]. apply find_job_id in Hjob as [(j0 & -> & _)%elem_of_map Hid].
  revert Hl Hid. case_bool_decide as E; [|by intros _ ?]. intros Hl _. unfold live_job, cancel_requested in Hl.
  cbn [wj_workflow wj_status with_wf] in Hl. rewrite dget_dset_eq in Hl. cbn [from_option id truthy negb] in Hl.
  by rewrite andb_false_r in Hl.
Qed.

(** A fenced write happens exactly when the attempt holds its phase and the job runs and is not
    cancelled: then it runs, once, on the data, and beyond it only the lease is renewed; otherwise
    it raises before the write and the data are untouched.  After the cancellation of a job was
    requested, no attempt on a phase of that job writes. *)
Theorem fenced_writes {A} (used : list string) (s : wstate D) (now : Z) (p : chunk_phase) (op : string) (fn : M D A) :
  fenced_history (used, s) →
  (holds p s → run_with_phase_attempt_fence environ now p op fn s =
     ((fn (w_data s)).1, mkW (w_jobs s) (w_chunks s) (w_phases (beaten now (cp_id p) (cp_lease_token p) s))
                           (fn (w_data s)).2)) ∧
  (¬ holds p s → ∃ e s', run_with_phase_attempt_fence environ now p op fn s = (Err e, s') ∧ w_data s' = w_data s) ∧
  (∀ now' j n s1, request_workflow_cancellation now' j s = (Ok n, s1) →
     (∀ row, find_phase (cp_id p) s1 = Some row → cp_job row = j) →
     ∃ e s', run_with_phase_attempt_fence environ now p op fn s1 = (Err e, s') ∧ w_data s' = w_data s).
Proof.
  intros Hh. destruct (history_ok _ _ Hh) as [Hok _]. split_and!.
  - intros Hp. destruct (run_with_phase_attempt_fence environ now p op fn s) as [r s1] eqn:E.
    destruct (write_run _ _ _ _ _ _ _ _ Hok E) as [(_ & -> & ->)|[? _]]; done.
  - intros Hp. destruct (run_with_phase_attempt_fence environ now p op fn s) as [r s1] eqn:E.
    destruct (write_run _ _ _ _ _ _ _ _ Hok E) as [(? & _)|(_ & e & -> & ?)]; eauto; done.
  - intros now' j n s1 Hrun Hrows. pose proof (settling_request_cancel now' j used s Hok) as Hs.
    rewrite Hrun in Hs. cbn in Hs. pose proof (settles_ok _ _ _ Hok Hs) as Hok1.
    assert (w_data s1 = w_data s) as <-.
    { revert Hrun. unfold request_workflow_cancellation, bind at 1, get_job.
      destruct (find_job j s); [|done]. by intros [= _ <-]. }
    destruct (run_with_phase_attempt_fence environ now p op fn s1) as [r s2] eqn:E.
    destruct (write_run _ _ _ _ _ _ _ _ Hok1 E) as [(Hp & _)|(_ & e & -> & ?)]; [|eauto].
    exfalso. by eapply cancelled_not_held.
Qed.
End Fencing.

(** ** A lease that expires and is taken over *)

Module Demo.
Definition one_job : workflow_job := mkWJob "j" RUNNING [] [] [] 0 [].
Definition start : wstate Z :=
  mkW [one_job] ["j"]
    [mkPhase 1 "j" ROOT 0 LOAD ph_QUEUED 0 EmptyString EmptyString None None None None [] []] 0.
Definition first_attempt : wstate Z := (acquire_phase [] 0 "t1" 1 "task-a" start).2.
Definition requeued : wstate Z := (requeue_expired_import_phases 1000 first_attempt).2.
Definition second_attempt : wstate Z := (acquire_phase [] 1001 "t2" 1 "task-b" requeued).2.
Definition attempt (tok : string) : chunk_phase :=
  mkPhase 1 "j" ROOT 0 LOAD ph_RUNNING 1 EmptyString tok None None None None [] [].
Definition add_row : M Z unit := λ d, (Ok tt, d + 1).

Lemma second_history : fenced_history [] (["t2"; "t1"], second_attempt).
Proof.
  exists start. split.
  { split; [apply NoDup_singleton|]. by repeat constructor. }
  eapply rtc_l; [apply (fs_acquire [] 0 "t1" 1 "task-a" [] start); [done|apply not_elem_of_nil]|].
  eapply rtc_l; [apply (fs_requeue [] 1000 ["t1"] first_attempt)|].
  eapply rtc_l; [apply (fs_acquire [] 1001 "t2" 1 "task-b" ["t1"] requeued); [done|]|apply rtc_refl].
  apply (bool_decide_unpack _). vm_compute. exact I.
Qed.
Lemma first_is_stale : ¬ current "t1" second_attempt.
Proof.
  intros (p & Hp & _ & Ht). assert (cp_lease_token p ∈ map cp_lease_token (w_phases second_attempt)) as Hin
    by (apply elem_of_map; eauto).
  assert (map cp_lease_token (w_phases second_attempt) = ["t2"]) as E by (vm_compute; reflexivity).
  rewrite E, Ht in Hin. by apply list_elem_of_singleton in Hin.
Qed.
End Demo.

Lemma stale_attempt_is_powerless_witness : powerless [] "t1" Demo.second_attempt.
Proof.
  exact (proj2 (proj1 (stale_attempt_is_powerless [] ["t2"; "t1"] Demo.second_attempt "t1" Demo.second_history
    ltac:(right; left)) Demo.first_is_stale _ _ (rtc_refl _ _))).
Defined.
Lemma fenced_writes_witness :
  w_data (run_with_phase_attempt_fence [] 1002 (Demo.attempt "t2") "load" Demo.add_row Demo.second_attempt).2 = 1 ∧
  ∃ e s', run_with_phase_attempt_fence [] 1002 (Demo.attempt "t1") "load" Demo.add_row Demo.second_attempt
          = (Err e, s') ∧ w_data s' = 0.
Proof.
  split.
  - rewrite (proj1 (fenced_writes [] ["t2"; "t1"] Demo.second_attempt 1002 (Demo.attempt "t2") "load" Demo.add_row
      Demo.second_history)); [vm_compute; reflexivity|].
    eexists _, _. split_and!; (vm_compute; reflexivity) || discriminate.
  - apply (fenced_writes [] ["t2"; "t1"] Demo.second_attempt 1002 (Demo.attempt "t1") "load" Demo.add_row
      Demo.second_history).
    intros (row & job & Hf & _ & Ht & _). vm_compute in Hf. injection Hf as <-. vm_compute in Ht. discriminate.
Defined.

(** The janitor identifies the rows it requeues by their id only: an attempt that completes between
    its query and its UPDATE is undone, and the phase runs again. *)
Example requeue_undoes_completion :
  let read := List.filter (expired_phase 1000) (w_phases Demo.first_attempt) in
  let completed := (complete_phase 1000 1 "t1" [] Demo.first_attempt).2 in
  map cp_status (w_phases completed) = [ph_COMPLETED] ∧
  map cp_status (w_phases (requeue_each 1000 read 0 0 completed).2) = [ph_QUEUED].
Proof. vm_compute. done. Qed.
