(* ===== verification/Environ.v ===== *)
(** * Settings read from the environment

    Models the readers of src/core/env_flags.py and of src/server/services/auth_lockout.py: a
    strict boolean, which raises on an unknown text, and a clamped integer, which falls back. *)

From S2P Require Import Prelude PyValue.
Local Open Scope Z_scope.

Abbreviation environment := (list (string * string)).

Definition EnvBoolError (msg : string) : exn := ValueError msg.

(* src/core/env_flags.py :: BOOLEAN_TRUE_VALUES *)
Definition BOOLEAN_TRUE_VALUES : list string := ["1"; "true"; "yes"; "on"].
(* src/core/env_flags.py :: BOOLEAN_FALSE_VALUES *)
Definition BOOLEAN_FALSE_VALUES : list string := [EmptyString; "0"; "false"; "no"; "off"].

(* src/core/env_flags.py :: parse_bool_env_value *)
Definition parse_bool_env_value (name : string) (value : option string) (dflt : bool) : res bool :=
  match value with
  | None => Ok dflt
  | Some raw =>
      let normalized := lower (strip raw) in
      if bool_decide (normalized ∈ BOOLEAN_TRUE_VALUES) then Ok true
      else if bool_decide (normalized ∈ BOOLEAN_FALSE_VALUES) then Ok false
      else Err (EnvBoolError (name +:+ " must be a boolean value (0, 1, false, no, off, on, true, yes); got "
                              +:+ repr_str raw +:+ "."))
  end.
(* src/core/env_flags.py :: bool_env *)
Definition bool_env (env : environment) (name : string) : res bool :=
  parse_bool_env_value name (dget name env) false.
(* src/core/env_flags.py :: auth_session_tracking_enabled *)
Definition auth_session_tracking_enabled (env : environment) : res bool :=
  bool_env env "IMMOAPP_AUTH_SESSION_TRACKING_ENABLED".
(* src/core/env_flags.py :: require_session_id_claim *)
Definition require_session_id_claim (env : environment) : res bool :=
  bool_env env "IMMOAPP_REQUIRE_SESSION_ID_CLAIM".

(* src/server/services/auth_lockout.py :: _int_env *)
Definition _int_env (env : environment) (name : string) (dflt low high : Z) : Z :=
  let raw := strip (default EmptyString (dget name env)) in
  if str_empty raw then dflt
  else match parse_int raw with Some value => Z.max low (Z.min high value) | None => dflt end.

(** ** Facts *)

Lemma int_env_bounds env name dflt low high :
  low <= high → low <= dflt <= high → low <= _int_env env name dflt low high <= high.
Proof. intros ? ?. unfold _int_env. repeat case_match; lia. Qed.
