(* ===== verification/Sessions.v ===== *)
(** * Sessions of signed-in users

    Models src/server/services/session_lifecycle.py and session_revocation.py, with the token
    authentication and refresh of src/server/api/auth_session_jwt.py that call them: the table
    [UserSession], the live users, and the validation cache of one process.

    Wall-clock readings are microseconds; readings of the monotonic clock are Python floats.  A
    user argument is the row as the request loaded it.  What the token library answers (the claims
    of a token, the rotated token) is an argument. *)

From S2P Require Import Prelude PyValue PyFloat Environ.
From Stdlib Require Import Ascii String SpecFloat.
Local Open Scope Z_scope.

Record user := mkUser {
  u_id : Z;
  u_active : bool;
  u_superuser : bool;
  u_agency : option Z;
  u_invalid_before : option Z
}.

(* src/server/accounts/models.py :: UserSession *)
Record session := mkSession {
  us_session_id : Z;
  us_user : Z;
  us_agency : option Z;
  us_source_ip : string;
  us_user_agent : string;
  us_refresh_jti : string;
  us_created_at : Z;
  us_last_seen_at : Z;
  us_expires_at : Z;
  us_revoked_at : option Z;
  us_revoke_reason : string
}.

Definition with_seen (now : Z) (r : session) : session :=
  mkSession (us_session_id r) (us_user r) (us_agency r) (us_source_ip r) (us_user_agent r) (us_refresh_jti r)
    (us_created_at r) now (us_expires_at r) (us_revoked_at r) (us_revoke_reason r).
Definition with_binding (jti : string) (now until : Z) (r : session) : session :=
  mkSession (us_session_id r) (us_user r) (us_agency r) (us_source_ip r) (us_user_agent r) jti
    (us_created_at r) now until (us_revoked_at r) (us_revoke_reason r).
Definition with_revocation (now : Z) (reason : string) (r : session) : session :=
  mkSession (us_session_id r) (us_user r) (us_agency r) (us_source_ip r) (us_user_agent r) (us_refresh_jti r)
    (us_created_at r) (us_last_seen_at r) (us_expires_at r) (Some now) reason.
Definition with_invalid_before (now : Z) (u : user) : user :=
  mkUser (u_id u) (u_active u) (u_superuser u) (u_agency u) (Some now).

(** [text\[:n\]] *)
Definition clip (n : nat) (s : string) : string := substring 0 n s.

(** ** Session identifiers *)

Definition hex_value (c : ascii) : option Z :=
  let n := Z.of_N (code (lower_char c)) in
  if (48 <=? n) && (n <=? 57) then Some (n - 48)
  else if (97 <=? n) && (n <=? 102) then Some (n - 87) else None.
(** [int(s, 16)] after the sign and the prefix; single underscores between digits. *)
Fixpoint hex_digits (acc : Z) (after_digit : bool) (s : string) : option Z :=
  match s with
  | EmptyString => if after_digit then Some acc else None
  | String c t =>
      match hex_value c with
      | Some v => hex_digits (16 * acc + v) true t
      | None => if (code c =? 95)%N && after_digit then
                  match t with EmptyString => None | _ => hex_digits acc false t end
                else None
      end
  end.
(** [0x], which an underscore may follow *)
Definition drop_0x (s : string) : string :=
  match s with
  | String z (String x (String u t as t')) =>
      if (code z =? 48)%N && (code (lower_char x) =? 120)%N
      then if (code u =? 95)%N then t else t' else s
  | _ => s
  end.
Definition parse_hex (s : string) : option Z :=
  match strip s with
  | EmptyString => None
  | String c t =>
      if (code c =? 45)%N then Z.opp <$> hex_digits 0 false (drop_0x t)
      else if (code c =? 43)%N then hex_digits 0 false (drop_0x t)
      else hex_digits 0 false (drop_0x (String c t))
  end.

Fixpoint remove_chars (f : ascii → bool) (s : string) : string :=
  match s with
  | EmptyString => EmptyString
  | String c t => if f c then remove_chars f t else String c (remove_chars f t)
  end.
(** [s.replace(old, EmptyString)], with at most [fuel] characters of [s]. *)
Fixpoint remove_text (fuel : nat) (old s : string) : string :=
  match fuel with
  | O => s
  | S f =>
      if String.prefix old s
      then remove_text f old (substring (String.length old) (String.length s - String.length old) s)
      else match s with EmptyString => EmptyString | String c t => String c (remove_text f old t) end
  end.
Definition is_brace (c : ascii) : bool := (code c =? 123)%N || (code c =? 125)%N.
Fixpoint lstrip_braces (s : string) : string :=
  match s with String c t => if is_brace c then lstrip_braces t else s | EmptyString => EmptyString end.
Fixpoint rstrip_braces (s : string) : string :=
  match s with
  | String c t => match rstrip_braces t with
                  | EmptyString => if is_brace c then EmptyString else String c EmptyString
                  | t' => String c t'
                  end
  | EmptyString => EmptyString
  end.

(** [UUID(text)]: [None] is its [ValueError]. *)
Definition uuid_of_text (text : string) : option Z :=
  let n := String.length text in
  let hex := remove_chars (λ c, (code c =? 45)%N)
               (rstrip_braces (lstrip_braces (remove_text (S n) "uuid:" (remove_text (S n) "urn:" text)))) in
  if (String.length hex =? 32)%nat then
    match parse_hex hex with
    | Some v => if (0 <=? v) && (v <? 2 ^ 128) then Some v else None
    | None => None
    end
  else None.

Fixpoint hex_text (n : nat) (v : Z) : string :=
  match n with
  | O => EmptyString
  | S k => hex_text k (v / 16) +:+ String (hex_digit (Z.to_N (v mod 16))) EmptyString
  end.
(** [str(uuid)] *)
Definition uuid_text (u : Z) : string :=
  let h := hex_text 32 u in
  substring 0 8 h +:+ "-" +:+ substring 8 4 h +:+ "-" +:+ substring 12 4 h +:+ "-" +:+ substring 16 4 h
    +:+ "-" +:+ substring 20 12 h.

(** A session id as the callers hold it: a [UUID], or a claim of a token. *)
Inductive sid_value : Type := SidUuid (u : Z) | SidClaim (v : pyval).

(* src/server/services/session_lifecycle.py :: _to_uuid *)
Definition _to_uuid (value : sid_value) : option Z :=
  match value with
  | SidUuid u => Some u
  | SidClaim v =>
      let text := strip (py_str (py_or v (PStr EmptyString))) in
      if str_empty text then None else uuid_of_text text
  end.

(** The nearest integer to a finite float, ties to even. *)
Definition float_half_even (x : spec_float) : Z :=
  match x with
  | S754_finite s m e =>
      let q := if 0 <=? e then Z.pos m * 2 ^ e else half_even (Z.pos m) (2 ^ (- e)) in
      if s then - q else q
  | _ => 0
  end.
(** [datetime.fromtimestamp(x, tz=utc)], in microseconds. *)
Definition fromtimestamp (x : spec_float) : res Z :=
  match x with
  | S754_nan => Err (ValueError "cannot convert float NaN to integer")
  | S754_infinity _ => Err (OverflowError "cannot convert float infinity to integer")
  | S754_zero _ => Ok 0
  | S754_finite s m e =>
      let sec := float_trunc s m e in
      let us := sec * 1000000 + float_half_even (fmul (fsub x (of_Z sec)) (of_Z 1000000)) in
      if (- 62135596800000000 <=? us) && (us <? 253402300800000000) then Ok us
      else Err (ValueError "year is out of range")
  end.

(* src/server/services/session_lifecycle.py :: _token_iat_to_dt *)
Definition _token_iat_to_dt (iat : pyval) : res (option Z) :=
  match iat with
  | PInt z => let? x := float_of_int z in let? t := fromtimestamp x in Ok (Some t)
  | PBool b => let? t := fromtimestamp (of_Z (if b then 1 else 0)) in Ok (Some t)
  | PFloat x => let? t := fromtimestamp x in Ok (Some t)
  | _ => Ok None
  end.

(** ** The service *)

(** A validation answers: accepted, and the reason of a refusal. *)
Abbreviation answer := (bool * option string)%type.

Section Sessions.
Variable wall : nat → Z.
Variable mono : nat → spec_float.
Variable uuid4 : nat → Z.
Variable environ : environment.

(** [au_cache] is the validation cache of the process that runs; [au_ticks] counts the readings
    of its clocks, [au_uuids] those of [uuid4]. *)
Record auth := mkAuth {
  au_users : gmap Z user;
  au_sessions : list session;
  au_cache : gmap (Z * string) (spec_float * Z);
  au_ticks : nat;
  au_uuids : nat
}.
Abbreviation AM := (M auth).

Definition set_sessions (f : list session → list session) (a : auth) : auth :=
  mkAuth (au_users a) (f (au_sessions a)) (au_cache a) (au_ticks a) (au_uuids a).
Definition set_users (f : gmap Z user → gmap Z user) (a : auth) : auth :=
  mkAuth (f (au_users a)) (au_sessions a) (au_cache a) (au_ticks a) (au_uuids a).
Definition set_cache (f : gmap (Z * string) (spec_float * Z) → gmap (Z * string) (spec_float * Z)) (a : auth) : auth :=
  mkAuth (au_users a) (au_sessions a) (f (au_cache a)) (au_ticks a) (au_uuids a).
Definition tick (a : auth) : auth :=
  mkAuth (au_users a) (au_sessions a) (au_cache a) (S (au_ticks a)) (au_uuids a).

(** [timezone.now()] and [time.monotonic()] *)
Definition timezone_now : AM Z := λ a, (Ok (wall (au_ticks a)), tick a).
Definition time_monotonic : AM spec_float := λ a, (Ok (mono (au_ticks a)), tick a).
(** [UserSession.objects.filter(...).update(...)] *)
Definition update_where (p : session → bool) (f : session → session) : AM unit :=
  modify (set_sessions (map (λ r, if p r then f r else r))).

(* src/server/services/session_lifecycle.py :: _refresh_days *)
Definition _refresh_days : Z :=
  Z.max 1 (Z.min (default 1 (parse_int (strip (default "1" (dget "JWT_REFRESH_DAYS" environ))))) 30).
(* src/server/services/session_lifecycle.py :: _session_lifetime *)
Definition _session_lifetime : Z :=
  let raw := strip (default EmptyString (dget "IMMOAPP_SESSION_LIFETIME_SECONDS" environ)) in
  match (if str_empty raw then None else parse_int raw) with
  | Some sec => Z.max 300 (Z.min sec (60 * 60 * 24 * 30)) * 1000000
  | None => _refresh_days * (86400 * 1000000)
  end.
Definition under_pytest : bool := negb (str_empty (default EmptyString (dget "PYTEST_CURRENT_TEST" environ))).
(* src/server/services/session_lifecycle.py :: _session_validate_cache_seconds *)
Definition _session_validate_cache_seconds : spec_float :=
  let value := default (of_Z 15)
                 (py_float (strip (default "15" (dget "IMMOAPP_SESSION_VALIDATE_CACHE_SECONDS" environ)))) in
  if under_pytest then of_Z 0 else py_fmax (of_Z 0) (py_fmin value (of_Z 120)).
(* src/server/services/session_lifecycle.py :: _session_touch_min_interval_seconds *)
Definition _session_touch_min_interval_seconds : Z :=
  let value := default 60
                 (parse_int (strip (default "60" (dget "IMMOAPP_SESSION_TOUCH_MIN_INTERVAL_SECONDS" environ)))) in
  if under_pytest then 0 else Z.max 0 (Z.min value 3600).

(** The keys that match: all of them when neither argument is given. *)
Definition doomed (user_id session_id : option Z) (key : Z * string) : bool :=
  match user_id with Some u => key.1 =? u | None => true end
  && match session_id with Some s => bool_decide (key.2 = uuid_text s) | None => true end.
(* src/server/services/session_lifecycle.py :: _invalidate_validation_cache *)
Definition _invalidate_validation_cache (user_id session_id : option Z) : AM unit :=
  modify (set_cache (filter (λ kv, doomed user_id session_id kv.1 = false))).

(* src/server/services/session_lifecycle.py :: _live_user_is_active *)
Definition _live_user_is_active (u : user) : AM bool :=
  gets (λ a, u_active u && match au_users a !! u_id u with Some l => u_active l | None => false end).

Definition IntegrityError : exn := OtherError "IntegrityError".
(* src/server/services/session_lifecycle.py :: issue_session_impl *)
Definition issue_session_impl (u : user) (source_ip user_agent : option string) : AM session :=
  let! now := timezone_now in
  let! sid := gets (λ a, uuid4 (au_uuids a)) in
  do! modify (λ a, mkAuth (au_users a) (au_sessions a) (au_cache a) (au_ticks a) (S (au_uuids a))) in
  let! created_at := timezone_now in
  let row := mkSession sid (u_id u) (u_agency u) (clip 64 (default EmptyString source_ip))
               (clip 512 (default EmptyString user_agent)) EmptyString created_at now (now + _session_lifetime)
               None EmptyString in
  let! taken := gets (λ a, existsb (λ r, us_session_id r =? sid) (au_sessions a)) in
  if taken then raise IntegrityError
  else do! modify (set_sessions (λ l, l ++ [row])) in ret row.

Definition open_session (sid : Z) (r : session) : bool :=
  (us_session_id r =? sid) && match us_revoked_at r with None => true | Some _ => false end.

(* src/server/services/session_lifecycle.py :: bind_refresh_jti_impl *)
Definition bind_refresh_jti_impl (session_id : sid_value) (refresh_jti : option string) : AM unit :=
  match _to_uuid session_id with
  | None => ret tt
  | Some sid =>
      let! now := timezone_now in
      update_where (open_session sid)
        (with_binding (clip 64 (default EmptyString refresh_jti)) now (now + _session_lifetime))
  end.
(* src/server/services/session_lifecycle.py :: touch_session_impl *)
Definition touch_session_impl (session_id : sid_value) : AM unit :=
  match _to_uuid session_id with
  | None => ret tt
  | Some sid => let! now := timezone_now in update_where (open_session sid) (with_seen now)
  end.

(** ** Validation of a token *)

(** The row as both paths judge it: missing, revoked or expired. *)
Definition row_refusal (row : option session) (now : Z) : option string :=
  match row with
  | None => Some "session_not_found"
  | Some r => match us_revoked_at r with
              | Some _ => Some "session_revoked"
              | None => if us_expires_at r <=? now then Some "session_expired" else None
              end
  end.
(** [UserSession.objects.filter(session_id=sid, user_id=...).first()] *)
Definition session_row (sid uid : Z) (a : auth) : option session :=
  List.find (λ r, (us_session_id r =? sid) && (us_user r =? uid)) (au_sessions a).

(** The clock is read for the expiry only: when the row is there and not revoked. *)
Definition judge_row (row : option session) : AM (option string * Z) :=
  match row with
  | Some (mkSession _ _ _ _ _ _ _ _ _ None _) => let! now := timezone_now in ret (row_refusal row now, now)
  | _ => ret (row_refusal row 0, 0)
  end.

(** The cached path: [None] when the cache does not answer. *)
(* src/server/services/session_lifecycle.py :: validate_token_session_impl [177-211] *)
Definition cached_validation (cache_ttl : spec_float) (uid sid : Z) : AM (option answer) :=
  let key := (uid, uuid_text sid) in
  let forget := _invalidate_validation_cache (Some uid) (Some sid) in
  if flt (of_Z 0) cache_ttl then
    let! now_mono := time_monotonic in
    let! cache_entry := gets (λ a, au_cache a !! key) in
    match cache_entry with
    | None => ret None
    | Some (cache_deadline, session_expires_at) =>
        if flt now_mono cache_deadline then
          let! t := timezone_now in
          if t <? session_expires_at then
            let! row := gets (session_row sid uid) in
            let! refusal := judge_row row in
            match refusal.1, row with
            | Some reason, _ => do! forget in ret (Some (false, Some reason))
            | None, Some r =>
                do! (if us_expires_at r =? session_expires_at then ret tt
                     else modify (set_cache (insert key (cache_deadline, us_expires_at r)))) in
                ret (Some (true, None))
            | None, None => ret None
            end
          else do! forget in ret None
        else do! forget in ret None
    end
  else ret None.

(* src/server/services/session_lifecycle.py :: validate_token_session_impl [213-246] *)
Definition database_validation (cache_ttl : spec_float) (uid sid : Z) : AM answer :=
  let! row := gets (session_row sid uid) in
  let! refusal := judge_row row in
  match refusal, row with
  | (Some reason, _), _ =>
      do! _invalidate_validation_cache (Some uid) (Some sid) in ret (false, Some reason)
  | (None, now), Some r =>
      let touch_interval := _session_touch_min_interval_seconds in
      do! (if touch_interval <=? 0 then touch_session_impl (SidUuid sid)
           else if touch_interval * 1000000 <=? now - us_last_seen_at r
           then update_where (λ x, open_session sid x && (us_user x =? uid)) (with_seen now)
           else ret tt) in
      do! (if flt (of_Z 0) cache_ttl then
             let! m := time_monotonic in
             modify (set_cache (insert (uid, uuid_text sid) (fadd m cache_ttl, us_expires_at r)))
           else ret tt) in
      ret (true, None)
  | (None, _), None => ret (false, Some "session_not_found")
  end.

(* src/server/services/session_lifecycle.py :: validate_token_session_impl *)
Definition validate_token_session_impl (u : user) (session_id : sid_value) (token_iat : pyval) : AM answer :=
  let! live := _live_user_is_active u in
  if negb live then
    do! _invalidate_validation_cache (Some (u_id u)) None in ret (false, Some "user_inactive")
  else
    let! iat_dt := lift (_token_iat_to_dt token_iat) in
    if match u_invalid_before u, iat_dt with Some b, Some t => t <=? b | _, _ => false end
    then ret (false, Some "session_revoked_before_iat")
    else
      let! require_sid := lift (require_session_id_claim environ) in
      match _to_uuid session_id with
      | None => ret (if require_sid then (false, Some "missing_session_id") else (true, None))
      | Some sid =>
          let cache_ttl := _session_validate_cache_seconds in
          let! cached := cached_validation cache_ttl (u_id u) sid in
          match cached with
          | Some r => ret r
          | None => database_validation cache_ttl (u_id u) sid
          end
      end.

(** ** Revocation *)

Definition NotFoundError (msg : string) : exn := OtherError ("NotFoundError: " +:+ msg).
Definition PermissionDeniedError (msg : string) : exn := OtherError ("PermissionDeniedError: " +:+ msg).

(* src/server/services/session_revocation.py :: revoke_session_impl *)
Definition revoke_session_impl (actor : user) (session_id : sid_value) (reason : string) : AM unit :=
  match _to_uuid session_id with
  | None => raise (ValueError "session_id must be a valid UUID")
  | Some sid =>
      let! found := gets (λ a, List.find (λ r, us_session_id r =? sid) (au_sessions a)) in
      match found with
      | None => raise (NotFoundError "Session not found.")
      | Some s =>
          if negb (u_superuser actor) && negb (us_user s =? u_id actor)
          then raise (PermissionDeniedError "Forbidden session scope.")
          else
            match us_revoked_at s with
            | Some _ => ret tt
            | None =>
                let! now := timezone_now in
                do! update_where (λ r, us_session_id r =? sid) (with_revocation now (clip 64 reason)) in
                _invalidate_validation_cache (Some (us_user s)) (Some sid)
            end
      end
  end.

Definition save_invalid_before (uid now : Z) : AM unit := modify (set_users (alter (with_invalid_before now) uid)).
Definition count_where (p : session → bool) : AM Z :=
  gets (λ a, Z.of_nat (List.length (List.filter p (au_sessions a)))).
Definition open_of_user (uid : Z) (r : session) : bool :=
  (us_user r =? uid) && match us_revoked_at r with None => true | Some _ => false end.

(* src/server/services/session_revocation.py :: revoke_all_sessions_impl *)
Definition revoke_all_sessions_impl (actor : user) (except_session_id : option sid_value) : AM Z :=
  let exclude_sid := match except_session_id with Some v => _to_uuid v | None => None end in
  let qs r := open_of_user (u_id actor) r
              && match exclude_sid with Some sid => negb (us_session_id r =? sid) | None => true end in
  let! now := timezone_now in
  let! count := count_where qs in
  do! update_where qs (with_revocation now "bulk_revoke") in
  do! save_invalid_before (u_id actor) now in
  do! _invalidate_validation_cache (Some (u_id actor)) None in
  ret count.

(* src/server/services/session_revocation.py :: revoke_user_sessions_impl *)
Definition revoke_user_sessions_impl (u : user) (reason : string) : AM Z :=
  let! now := timezone_now in
  let! count := count_where (open_of_user (u_id u)) in
  do! update_where (open_of_user (u_id u))
        (with_revocation now (clip 64 (str_or reason "user_deactivated"))) in
  do! save_invalid_before (u_id u) now in
  do! _invalidate_validation_cache (Some (u_id u)) None in
  ret count.

(** ** Token authentication, sign-in and refresh *)

Definition AuthenticationFailed (msg : string) : exn := OtherError ("AuthenticationFailed: " +:+ msg).

(** The claims of a token whose signature and lifetime the token library accepted. *)
Record claims := mkClaims { c_user_id : pyval; c_sid : pyval; c_iat : pyval; c_jti : pyval }.
(** What the library's own refresh answers: a failure, an access token only, or a rotated refresh
    token, which reads back or not. *)
Inductive rotation : Type := RefreshRejected | AccessOnly | Rotated (jti : option pyval).

(** [result] is the answer of the library's [authenticate]: no token, or a user and the claims. *)
(* src/server/api/auth_session_jwt.py :: SessionAwareJWTAuthentication.authenticate *)
Definition authenticate (result : option (user * claims)) : AM (option (user * claims)) :=
  match result with
  | None => ret None
  | Some (u, validated_token) =>
      let! tracking := lift (auth_session_tracking_enabled environ) in
      if negb tracking then ret (Some (u, validated_token))
      else
        let! v := validate_token_session_impl u (SidClaim (c_sid validated_token)) (c_iat validated_token) in
        if v.1 then ret (Some (u, validated_token))
        else raise (AuthenticationFailed "Session revoked or expired.")
  end.

(* src/server/api/auth_session_jwt.py :: _refresh_subject *)
Definition _refresh_subject (token : option claims) : AM (claims * user) :=
  match token with
  | None => raise (AuthenticationFailed "Invalid refresh token.")
  | Some c =>
      match py_int (c_user_id c) with
      | Err (TypeError _) | Err (ValueError _) => raise (AuthenticationFailed "Invalid refresh token.")
      | Err e => raise e
      | Ok uid =>
          let! u := gets (λ a, au_users a !! uid) in
          match u with
          | Some u => if u_active u then ret (c, u) else raise (AuthenticationFailed "Invalid refresh token.")
          | None => raise (AuthenticationFailed "Invalid refresh token.")
          end
      end
  end.

(* src/server/api/auth_session_jwt.py :: SessionAwareTokenRefreshSerializer.validate *)
Definition refresh_validate (token : option claims) (library : rotation) : AM rotation :=
  let! subject := _refresh_subject token in
  let sid := SidClaim (c_sid subject.1) in
  let current_refresh_jti := py_str (py_or (c_jti subject.1) (PStr EmptyString)) in
  let! tracking := lift (auth_session_tracking_enabled environ) in
  do! (if tracking : bool then
         let! v := validate_token_session_impl subject.2 sid (c_iat subject.1) in
         if v.1 then ret tt else raise (AuthenticationFailed "Session revoked or expired.")
       else ret tt) in
  match library with
  | RefreshRejected => raise (AuthenticationFailed "Invalid refresh token.")
  | AccessOnly => do! (if tracking then touch_session_impl sid else ret tt) in ret AccessOnly
  | Rotated jti =>
      if tracking then
        match jti with
        | None => raise (AuthenticationFailed "Invalid refresh token.")
        | Some j => do! bind_refresh_jti_impl sid (Some (str_or (py_str j) current_refresh_jti)) in ret library
        end
      else ret library
  end.

(** The end of a sign-in: the user's password and code were accepted, [jti] is the id of the
    refresh token the library makes for the session. *)
(* src/server/api/auth_session_jwt.py :: SessionAwareTokenObtainPairSerializer.validate [162-175] *)
Definition sign_in (u : user) (source_ip user_agent : option string) (jti : string) : AM session :=
  let! s := issue_session_impl u source_ip user_agent in
  do! bind_refresh_jti_impl (SidUuid (us_session_id s)) (Some jti) in
  ret s.

End Sessions.
