(* ===== verification/SessionProps.v ===== *)
(** * A revoked or expired session is never accepted again

    The validation of a token against its definition without a cache, and what a history of
    sign-ins, refreshes and revocations, in any number of processes, leaves of a session. *)

From S2P Require Import Prelude PyValue PyFloat Environ Sessions.
From Stdlib Require Import SpecFloat.
Local Open Scope Z_scope.

Section Validation.
Context (wall : nat → Z) (mono : nat → spec_float) (uuid4 : nat → Z) (environ : environment).

Lemma bind_timezone_now {B} (k : Z → M auth B) a : bind (timezone_now wall) k a = k (wall (au_ticks a)) (tick a).
Proof. done. Qed.
Lemma bind_time_monotonic {B} (k : spec_float → M auth B) a : bind (time_monotonic mono) k a = k (mono (au_ticks a)) (tick a).
Proof. done. Qed.
Hint Rewrite @bind_timezone_now @bind_time_monotonic : py.

(** ** Validation without a cache *)

Definition of_refusal (r : option string) : answer :=
  match r with Some reason => (false, Some reason) | None => (true, None) end.
Definition live (u : user) (a : auth) : bool :=
  u_active u && match au_users a !! u_id u with Some l => u_active l | None => false end.
Definition before_cutoff (u : user) (iat : option Z) : bool :=
  match u_invalid_before u, iat with Some b, Some t => t <=? b | _, _ => false end.

(** The verdict of the tables at time [t]. *)
Definition verdict (u : user) (sid : sid_value) (iat : pyval) (a : auth) (t : Z) : res answer :=
  if negb (live u a) then Ok (false, Some "user_inactive")
  else
    let? d := _token_iat_to_dt iat in
    if before_cutoff u d then Ok (false, Some "session_revoked_before_iat")
    else
      let? require_sid := require_session_id_claim environ in
      match _to_uuid sid with
      | None => Ok (if require_sid : bool then (false, Some "missing_session_id") else (true, None))
      | Some s => Ok (of_refusal (row_refusal (session_row s (u_id u) a) t))
      end.

(** ** What a validation may change: the cache, the clocks and [last_seen_at] *)

Definition touched (r r' : session) : Prop := r' = r ∨ ∃ t, r' = with_seen t r.
Record quiet (a a' : auth) : Prop := {
  q_users : au_users a' = au_users a;
  q_sessions : Forall2 touched (au_sessions a) (au_sessions a');
  q_ticks : (au_ticks a ≤ au_ticks a')%nat
}.

Lemma touched_refl l : Forall2 touched l l.
Proof. apply Forall_Forall2_diag, Forall_true. by left. Qed.
Lemma touched_trans r1 r2 r3 : touched r1 r2 → touched r2 r3 → touched r1 r3.
Proof. intros [->|[t ->]] [->|[t' ->]]; [by left|right; eauto..]. Qed.
#[export] Instance quiet_refl : Reflexive quiet.
Proof. intros a. split; [done|apply touched_refl|lia]. Qed.
#[export] Instance quiet_trans : Transitive quiet.
Proof.
  intros a b c [Hu Hs Ht] [Hu' Hs' Ht']. split; [congruence| |lia].
  clear -Hs Hs'. revert Hs'. generalize (au_sessions c). induction Hs as [|x y l k Hxy Hs IH]; intros m Hm;
    inversion_clear Hm; constructor; [by eapply touched_trans|by apply IH].
Qed.

Lemma quiet_tick a : quiet a (tick a).
Proof. split; [done|apply touched_refl|cbn; lia]. Qed.
Lemma quiet_cache f a : quiet a (set_cache f a).
Proof. split; [done|apply touched_refl|done]. Qed.
Lemma quiet_seen (p : session → bool) (now : Z) (a : auth) : quiet a (set_sessions (map (λ r, if p r then with_seen now r else r)) a).
Proof.
  split; [done| |done]. cbn. induction (au_sessions a) as [|r l IH]; constructor; [|done].
  destruct (p r); [right; eauto|by left].
Qed.

Lemma find_touched (p : session → bool) l l' :
  (∀ r t, p (with_seen t r) = p r) → Forall2 touched l l' →
  option_Forall2 touched (List.find p l) (List.find p l').
Proof.
  intros Hp Hl. induction Hl as [|r r' l l' Hr Hl IH]; [constructor|]. cbn.
  assert (p r' = p r) as -> by (destruct Hr as [->|[t ->]]; auto).
  destruct (p r); [by constructor|done].
Qed.
Lemma session_row_quiet s uid a a' :
  quiet a a' → option_Forall2 touched (session_row s uid a) (session_row s uid a').
Proof. intros [_ Hs _]. unfold session_row. by apply find_touched. Qed.
Lemma row_refusal_touched r r' t :
  option_Forall2 touched r r' → row_refusal r' t = row_refusal r t.
Proof. intros H. destruct H as [x y [->|[s ->]]|]; done. Qed.

(** ** The two paths *)

Lemma judge_row_run row a :
  ∃ n a', judge_row wall row a = (Ok (row_refusal row (wall (au_ticks a)), n), a')
    ∧ quiet a a' ∧ au_sessions a' = au_sessions a
    ∧ (row_refusal row (wall (au_ticks a)) = None → n = wall (au_ticks a)).
Proof.
  destruct row as [[?????????[rev|]?]|]; cbn.
  - eexists _, a. by split; [|split; [reflexivity|]].
  - eexists _, (tick a). by split; [|split; [apply quiet_tick|]].
  - eexists _, a. by split; [|split; [reflexivity|]].
Qed.

(** A cached answer is the judgement of the row, read during the call; otherwise the tables and the
    time are as the database path needs them. *)
Lemma cached_run ttl uid s a :
  ∃ r a', cached_validation wall mono ttl uid s a = (Ok r, a') ∧ quiet a a' ∧ au_sessions a' = au_sessions a
    ∧ match r with
      | Some ans => ∃ k, (au_ticks a ≤ k ≤ au_ticks a')%nat
                      ∧ ans = of_refusal (row_refusal (session_row s uid a) (wall k))
      | None => True
      end.
Proof.
  unfold cached_validation. destruct (flt (of_Z 0) ttl); [|by exists None, a].
  autorewrite with py. cbn [au_cache tick].
  destruct (au_cache a !! (uid, uuid_text s)) as [[deadline expires]|]; [|by exists None, (tick a); split; [|split; [apply quiet_tick|]]].
  assert (quiet a (tick a)) as Q1 by apply quiet_tick.
  destruct (flt _ deadline); [|eexists None, _; split; [done|]; split; [by etrans; [apply Q1|apply quiet_cache]|done]].
  autorewrite with py.
  assert (quiet a (tick (tick a))) as Q2 by (etrans; [apply Q1|apply quiet_tick]).
  destruct (wall _ <? expires); [|eexists None, _; split; [done|]; split; [by etrans; [apply Q2|apply quiet_cache]|done]].
  autorewrite with py.
  destruct (judge_row_run (session_row s uid (tick (tick a))) (tick (tick a))) as (n & a3 & E & Q & Hs & _).
  rewrite (bind_ok _ _ _ _ _ E). cbn [fst snd].
  assert (quiet a a3) as Q3 by (etrans; [apply Q2|apply Q]).
  change (session_row s uid (tick (tick a))) with (session_row s uid a) in *.
  assert (au_ticks a ≤ au_ticks (tick (tick a)) ≤ au_ticks a3)%nat as Hk by (split; [apply Q2|apply Q]).
  destruct (row_refusal _ _) as [reason|] eqn:Er.
  - eexists (Some _), _. split; [done|]. split; [by etrans; [apply Q3|apply quiet_cache]|].
    split; [done|]. exists (au_ticks (tick (tick a))). by rewrite Er.
  - destruct (session_row s uid a) as [row|] eqn:Erow; [|done].
    destruct (us_expires_at row =? expires); eexists (Some _), _; (split; [done|]);
      (split; [first [done|by etrans; [apply Q3|apply quiet_cache]]|]); (split; [done|]);
      exists (au_ticks (tick (tick a))); by rewrite Er.
Qed.

Lemma database_run ttl uid s a :
  ∃ ans a', database_validation wall mono environ ttl uid s a = (Ok ans, a') ∧ quiet a a'
    ∧ ∃ k, (au_ticks a ≤ k ≤ au_ticks a')%nat ∧ ans = of_refusal (row_refusal (session_row s uid a) (wall k)).
Proof.
  unfold database_validation. autorewrite with py.
  destruct (judge_row_run (session_row s uid a) a) as (n & a1 & E & Q & Hs & Hn).
  rewrite (bind_ok _ _ _ _ _ E). destruct (row_refusal _ _) as [reason|] eqn:Er.
  - eexists _, _. split; [done|]. split; [by etrans; [apply Q|apply quiet_cache]|].
    exists (au_ticks a). rewrite Er. split; [split; [done|apply Q]|done].
  - rewrite (Hn eq_refl) in *. destruct (session_row s uid a) as [row|] eqn:Erow; [|done].
    match goal with |- context[bind ?m _ a1] => assert (∃ a2, m a1 = (Ok tt, a2) ∧ quiet a1 a2) as (a2 & E2 & Q2) end.
    { repeat case_match; [| |by exists a1].
      - eexists. split; [done|]. etrans; [apply quiet_tick|apply quiet_seen].
      - eexists. split; [done|apply quiet_seen]. }
    rewrite (bind_ok _ _ _ _ _ E2).
    match goal with |- context[bind ?m _ a2] => assert (∃ a3, m a2 = (Ok tt, a3) ∧ quiet a2 a3) as (a3 & E3 & Q3) end.
    { destruct (flt (of_Z 0) ttl); [|by exists a2]. eexists. split; [done|]. etrans; [apply quiet_tick|apply quiet_cache]. }
    rewrite (bind_ok _ _ _ _ _ E3). eexists _, a3. split; [done|].
    split; [etrans; [apply Q|]; by etrans|]. exists (au_ticks a). rewrite Er.
    split; [|done]. destruct Q, Q2, Q3. lia.
Qed.

Lemma validation_run u sid iat a :
  let '(r, a') := validate_token_session_impl wall mono environ u sid iat a in
  quiet a a' ∧ ∃ k, (au_ticks a ≤ k ≤ au_ticks a')%nat ∧ r = verdict u sid iat a (wall k).
Proof.
  unfold validate_token_session_impl, verdict, live, _live_user_is_active. autorewrite with py.
  destruct (negb _); [by cbn; split; [apply quiet_cache|exists (au_ticks a)]|].
  destruct (_token_iat_to_dt iat) as [d|e]; cbn; [|by split; [|exists (au_ticks a)]].
  change (match u_invalid_before u with Some b => _ | None => _ end) with (before_cutoff u d).
  destruct (before_cutoff u d); [by split; [|exists (au_ticks a)]|].
  unfold bind at 1, lift. destruct (require_session_id_claim environ) as [q|e]; cbn; [|by split; [|exists (au_ticks a)]].
  destruct (_to_uuid sid) as [s|]; [|by split; [|exists (au_ticks a)]].
  destruct (cached_run (_session_validate_cache_seconds environ) (u_id u) s a) as (r & a1 & E & Q & Hs & Hr).
  rewrite (bind_ok _ _ _ _ _ E). destruct r as [ans|]; [destruct Hr as (k & Hk & ->); by split; [|exists k]|].
  destruct (database_run (_session_validate_cache_seconds environ) (u_id u) s a1) as (ans & a2 & E2 & Q2 & k & Hk & ->).
  rewrite E2. split; [by etrans|]. exists k. split; [destruct Q; lia|].
  unfold session_row. by rewrite Hs.
Qed.

(** C36. The validation cache is transparent.  Whatever it holds, in whatever process, a validation
    answers what the tables say at a moment during the call (inactive user, token older than the
    user's cut-off, missing, unknown, revoked or expired session, else accepted) and raises only on
    an unreadable claim or setting; it changes no user and nothing of a session but its
    [last_seen_at]. *)
Theorem cache_is_transparent u sid iat a :
  let '(r, a') := validate_token_session_impl wall mono environ u sid iat a in
  quiet a a' ∧ ∃ k, (au_ticks a ≤ k ≤ au_ticks a')%nat ∧ r = verdict u sid iat a (wall k).
Proof. apply validation_run. Qed.
End Validation.

(** ** Histories *)

Section History.
Context (wall : nat → Z) (mono : nat → spec_float) (uuid4 : nat → Z) (environ : environment).

(** The cut-off of a user never moves back. *)
Definition later_cutoff (l l' : user) : Prop :=
  u_id l' = u_id l ∧ ∀ b, u_invalid_before l = Some b → ∃ b', u_invalid_before l' = Some b' ∧ b <= b'.

(** What happens between two moments: calls of the service by any request, a switch to another
    process (which has its own cache), the administration of users (which are deactivated, not
    removed), and time. *)
Inductive step : auth → auth → Prop :=
  | step_sign_in u ip agent jti a : step a (sign_in wall uuid4 environ u ip agent jti a).2
  | step_authenticate result a : step a (authenticate wall mono environ result a).2
  | step_refresh token library a : step a (refresh_validate wall mono environ token library a).2
  | step_revoke actor sid reason a : step a (revoke_session_impl wall actor sid reason a).2
  | step_revoke_all actor sid a : step a (revoke_all_sessions_impl wall actor sid a).2
  | step_revoke_user u reason a : step a (revoke_user_sessions_impl wall u reason a).2
  | step_process cache a : step a (set_cache (λ _, cache) a)
  | step_users users a :
      (∀ uid l, au_users a !! uid = Some l → ∃ l', users !! uid = Some l' ∧ later_cutoff l l') →
      step a (set_users (λ _, users) a)
  | step_wait a : step a (tick a).
Definition history : auth → auth → Prop := rtc step.

(** ** Ended sessions *)

Definition over (t : Z) (r : session) : Prop := us_revoked_at r ≠ None ∨ us_expires_at r <= t.
(** Every row of the session, and there is one, is revoked or has expired. *)
Definition ended (sid : Z) (a : auth) : Prop :=
  (∃ r, r ∈ au_sessions a ∧ us_session_id r = sid) ∧
  ∀ r, r ∈ au_sessions a → us_session_id r = sid → over (wall (au_ticks a)) r.

Hypothesis wall_grows : ∀ m n, (m ≤ n)%nat → wall m <= wall n.

Lemma over_later r t t' : t <= t' → over t r → over t' r.
Proof. intros ? [?|?]; [by left|right; lia]. Qed.

(** Calls that rewrite rows without reviving one keep a session ended. *)
Lemma ended_map sid f a a' :
  au_sessions a' = map f (au_sessions a) → (au_ticks a ≤ au_ticks a')%nat →
  (∀ r, us_session_id (f r) = us_session_id r) →
  (∀ r t, us_session_id r = sid → over t r → over t (f r)) →
  ended sid a → ended sid a'.
Proof.
  intros Hm Ht Hid Hf [(r & Hr & Hs) Hall]. unfold ended. rewrite Hm. split.
  - exists (f r). rewrite Hid. split; [|done]. apply elem_of_map. eauto.
  - intros x (y & -> & Hy)%elem_of_map. rewrite Hid. intros Hx.
    apply Hf; [done|]. eapply over_later; [by apply wall_grows, Ht|eauto].
Qed.
Lemma ended_quiet sid a a' : quiet a a' → ended sid a → ended sid a'.
Proof.
  intros [_ Hs Ht] [(r & Hr & Hid) Hall]. split.
  - apply list_elem_of_lookup in Hr as [i Hi]. destruct (Forall2_lookup_l _ _ _ _ _ Hs Hi) as (r' & Hi' & Hr').
    exists r'. split; [by eapply list_elem_of_lookup_2|]. destruct Hr' as [->|[? ->]]; done.
  - intros x [i Hi]%list_elem_of_lookup. destruct (Forall2_lookup_r _ _ _ _ _ Hs Hi) as (y & Hy & Hxy).
    intros Hx. assert (over (wall (au_ticks a)) y) as Ho.
    { apply Hall; [by eapply list_elem_of_lookup_2|]. destruct Hxy as [->|[? ->]]; done. }
    eapply over_later; [by apply wall_grows, Ht|]. destruct Hxy as [->|[? ->]]; done.
Qed.

(** An ended session is refused by the tables, whoever asks. *)
Lemma ended_refused sid u v iat a t :
  ended sid a → _to_uuid v = Some sid → wall (au_ticks a) <= t →
  ∀ ans, verdict environ u v iat a t = Ok ans → ans.1 = false.
Proof.
  intros [_ Hall] Hv Ht ans. unfold verdict. repeat (case_match; [by intros [= <-]|]).
  destruct (_token_iat_to_dt iat) as [d|]; [|done]. cbn. destruct (before_cutoff u d); [by intros [= <-]|].
  destruct (require_session_id_claim environ); [|done]. cbn. rewrite Hv. intros [= <-].
  destruct (row_refusal _ t) eqn:Er; [done|].
  unfold row_refusal in Er. destruct (session_row sid (u_id u) a) as [r|] eqn:Erow; [|done].
  unfold session_row in Erow. apply List.find_some in Erow as [Hr [Hid Hu]%andb_true_iff].
  apply list_elem_of_In in Hr. apply Z.eqb_eq in Hid. destruct (Hall r Hr Hid) as [Ho|Ho].
  - by destruct (us_revoked_at r).
  - destruct (us_revoked_at r); [done|]. by rewrite (proj2 (Z.leb_le _ _)) in Er by lia.
Qed.

(** ** Ended sessions stay ended *)

Lemma validation_refuses sid u v iat a ans a' :
  ended sid a → _to_uuid v = Some sid →
  validate_token_session_impl wall mono environ u v iat a = (Ok ans, a') → ans.1 = false.
Proof.
  intros He Hv E. pose proof (validation_run wall mono environ u v iat a) as H.
  rewrite E in H. destruct H as [_ (k & Hk & H)]. symmetry in H.
  eapply ended_refused; [done|done| |done]. apply wall_grows. lia.
Qed.

(** The session a token names. *)
Definition names (sid : Z) (c : claims) : Prop := _to_uuid (SidClaim (c_sid c)) = Some sid.
Definition tracked : Prop := auth_session_tracking_enabled environ = Ok true.

Lemma authenticate_refuses sid u c a x :
  tracked → names sid c → ended sid a → (authenticate wall mono environ (Some (u, c)) a).1 ≠ Ok x.
Proof.
  intros Ht Hn He. cbn [authenticate]. rewrite Ht. unfold lift. rewrite (bind_ok _ _ _ _ _ eq_refl). cbn [negb].
  unfold bind. destruct (validate_token_session_impl _ _ _ _ _ _ a) as [[ans|e] a'] eqn:E; [|done].
  by rewrite (validation_refuses _ _ _ _ _ _ _ He Hn E).
Qed.

Lemma refresh_refuses sid c library a x :
  tracked → names sid c → ended sid a → (refresh_validate wall mono environ (Some c) library a).1 ≠ Ok x.
Proof.
  intros Ht Hn He. unfold refresh_validate.
  assert (∀ r a', _refresh_subject (Some c) a = (r, a') → a' = a ∧ ∀ s, r = Ok s → s.1 = c) as Hsub.
  { intros r a'. unfold _refresh_subject, bind, gets, raise, ret.
    destruct (py_int (c_user_id c)) as [uid|[]]; repeat case_match; intros; simplify_eq; split; try done;
      by intros s [= <-]. }
  unfold bind at 1. destruct (_refresh_subject (Some c) a) as [[[c' u]|e] a'] eqn:E; [|done].
  destruct (Hsub _ _ eq_refl) as [-> Hc]. specialize (Hc _ eq_refl). cbn in Hc. subst c'. cbn [fst snd].
  rewrite Ht. unfold lift. rewrite (bind_ok _ _ _ _ _ eq_refl).
  unfold bind. destruct (validate_token_session_impl _ _ _ _ _ _ a) as [[ans|e] a''] eqn:Ev; [|done].
  by rewrite (validation_refuses _ _ _ _ _ _ _ He Hn Ev).
Qed.

Lemma authenticate_quiet result a : quiet a (authenticate wall mono environ result a).2.
Proof.
  destruct result as [[u c]|]; [|done]. cbn [authenticate]. unfold bind at 1, lift.
  destruct (auth_session_tracking_enabled environ) as [[]|]; try done. cbn [negb]. unfold bind.
  pose proof (validation_run wall mono environ u (SidClaim (c_sid c)) (c_iat c) a) as H.
  destruct (validate_token_session_impl _ _ _ _ _ _ a) as [[[[] ?]|e] a'] eqn:E; apply H.
Qed.

Lemma update_other_rows sid sid' f a :
  sid' ≠ sid → (∀ r, us_session_id (f r) = us_session_id r) →
  ended sid a → ended sid (update_where (open_session sid') f a).2.
Proof.
  intros Hne Hid. apply ended_map with (f := λ r, if open_session sid' r then f r else r); [done|done|..].
  - intros r. by destruct (open_session sid' r).
  - intros r t Hr Ho. unfold open_session. rewrite Hr. by rewrite (proj2 (Z.eqb_neq sid sid')).
Qed.

Lemma sign_in_ended sid u ip agent jti a :
  ended sid a → ended sid (sign_in wall uuid4 environ u ip agent jti a).2.
Proof.
  intros He. unfold sign_in, issue_session_impl.
  set (fresh := uuid4 (au_uuids a)). set (now := wall (au_ticks a)).
  set (a3 := mkAuth (au_users a) (au_sessions a) (au_cache a) (S (S (au_ticks a))) (S (au_uuids a))).
  assert (ended sid a3) as H3 by (eapply ended_quiet; [|done]; split; [done|apply touched_refl|cbn; lia]).
  unfold bind at 1 2 3 4 5, timezone_now, gets, modify. cbn -[clip].
  fold fresh. unfold bind at 1. destruct (existsb _ _) eqn:Et; [done|]. cbn -[clip open_session].
  assert (fresh ≠ sid) as Hne.
  { intros Hf. destruct He as [(r & Hr & Hs) _]. apply (f_equal negb) in Et. cbn in Et.
    apply negb_true_iff, not_true_iff_false in Et. apply Et, existsb_exists. exists r.
    split; [by apply list_elem_of_In|]. apply Z.eqb_eq. congruence. }
  match goal with |- ended _ (set_sessions (map (λ r, if _ then ?f r else r)) ?b) =>
    apply (update_other_rows sid fresh f b); [done|done|] end.
  destruct H3 as [(r & Hr & Hs) Hall]. split.
  - exists r. split; [|done]. cbn. apply elem_of_app. by left.
  - cbn -[clip]. intros x [Hx|Hx%list_elem_of_singleton]%elem_of_app Hid; [|subst x; by cbn in Hid].
    eapply over_later; [|by apply Hall]. apply wall_grows. cbn. lia.
Qed.

Lemma ended_tick sid a : ended sid a → ended sid (tick a).
Proof. apply ended_quiet, quiet_tick. Qed.

(** A binding or a touch with the claim of another session, or with no readable claim. *)
Lemma keyed_update_ended sid v (f : Z → session → session) a :
  _to_uuid v ≠ Some sid → (∀ now r, us_session_id (f now r) = us_session_id r) → ended sid a →
  ended sid (match _to_uuid v with
             | None => ret tt
             | Some s => let! now := timezone_now wall in update_where (open_session s) (f now)
             end a).2.
Proof.
  intros Hne Hid He. destruct (_to_uuid v) as [s|]; [|done].
  unfold bind, timezone_now. apply update_other_rows; [congruence|done|by apply ended_tick].
Qed.
(** A touch revives nothing. *)
Lemma touch_ended sid v a : ended sid a → ended sid (touch_session_impl wall v a).2.
Proof.
  unfold touch_session_impl. destruct (_to_uuid v) as [s|]; [|done]. unfold bind, timezone_now.
  intros He. eapply ended_quiet; [apply quiet_seen|by apply ended_tick].
Qed.

Lemma refresh_ended sid token library a :
  ended sid a → ended sid (refresh_validate wall mono environ token library a).2.
Proof.
  intros He. unfold refresh_validate. unfold bind at 1.
  assert (ended sid (_refresh_subject token a).2) as H1.
  { unfold _refresh_subject, bind, gets, raise, ret. repeat case_match; simplify_eq; done. }
  destruct (_refresh_subject token a) as [[[c u]|e] a1]; [|done]. cbn [fst snd] in *.
  unfold bind at 1, lift. destruct (auth_session_tracking_enabled environ) as [tracking|e]; [|done].
  destruct tracking; [|by destruct library].
  unfold bind at 1 2. pose proof (validation_run wall mono environ u (SidClaim (c_sid c)) (c_iat c) a1) as Hv.
  destruct (validate_token_session_impl _ _ _ _ _ _ a1) as [[ans|e] a2] eqn:Ev; [|by eapply ended_quiet; [apply Hv|]].
  assert (ended sid a2) as H2 by (eapply ended_quiet; [apply Hv|done]).
  destruct ans as [[] reason]; [|done]. unfold ret at 1. cbn [fst snd].
  assert (_to_uuid (SidClaim (c_sid c)) ≠ Some sid) as Hne.
  { intros Hs. by pose proof (validation_refuses _ _ _ _ _ _ _ H1 Hs Ev). }
  destruct library as [| |[j|]]; try done.
  - pose proof (touch_ended sid (SidClaim (c_sid c)) a2 H2) as H3. unfold bind.
    by destruct (touch_session_impl _ _ a2) as [[]].
  - pose proof (keyed_update_ended sid (SidClaim (c_sid c)) (λ now, with_binding
      (clip 64 (default EmptyString (Some (str_or (py_str j) (py_str (py_or (c_jti c) (PStr EmptyString)))))))
      now (now + _session_lifetime environ)) a2 Hne (λ _ _, eq_refl) H2) as H3.
    unfold bind at 1. unfold bind_refresh_jti_impl.
    match goal with |- context[match ?m a2 with _ => _ end] => destruct (m a2) as [[] ?] end; exact H3.
Qed.

Lemma revocation_ended sid p now reason a :
  ended sid a → ended sid (set_sessions (map (λ r, if p r : bool then with_revocation now reason r else r)) a).
Proof.
  apply ended_map with (f := λ r, if p r : bool then with_revocation now reason r else r); [done|done|..].
  - intros r. by destruct (p r).
  - intros r t _ Ho. destruct (p r); [by left|done].
Qed.
Lemma ended_users sid f a : ended sid a → ended sid (set_users f a).
Proof. done. Qed.

Lemma step_ended sid a a' : step a a' → ended sid a → ended sid a'.
Proof.
  intros Hs He. destruct Hs as [u ip agent jti a|result a|token library a|actor v reason a|actor v a|u reason a|cache a|users a|a].
  - by apply sign_in_ended.
  - eapply ended_quiet; [apply authenticate_quiet|done].
  - by apply refresh_ended.
  - unfold revoke_session_impl, bind, gets, timezone_now, update_where, modify, _invalidate_validation_cache.
    repeat case_match; simplify_eq; try done. by apply (revocation_ended _ _ _ _ (tick a)), ended_tick.
  - apply (revocation_ended _ _ _ _ (tick a)), ended_tick, He.
  - apply (revocation_ended _ _ _ _ (tick a)), ended_tick, He.
  - done.
  - done.
  - by apply ended_tick.
Qed.
Lemma history_ended sid a a' : history a a' → ended sid a → ended sid a'.
Proof. induction 1; eauto using step_ended. Qed.

(** ** Cut-offs *)

(** User [uid] is cut off at [t]: tokens issued by [t] are too old for the row any request loads. *)
Definition cut_off (uid t : Z) (a : auth) : Prop :=
  t <= wall (au_ticks a) ∧
  ∃ l b, au_users a !! uid = Some l ∧ u_id l = uid ∧ u_invalid_before l = Some b ∧ t <= b.

Definition users_kept (a a' : auth) : Prop := au_users a' = au_users a ∧ (au_ticks a ≤ au_ticks a')%nat.
Lemma cut_off_kept uid t a a' : users_kept a a' → cut_off uid t a → cut_off uid t a'.
Proof. intros [Hu Ht] [Hw Hl]. split; [transitivity (wall (au_ticks a)); [done|by apply wall_grows]|by rewrite Hu]. Qed.
Lemma cut_off_saved uid uid' t a f a' :
  (∀ l, f l = with_invalid_before (wall (au_ticks a)) l) →
  au_users a' = alter f uid' (au_users a) → (au_ticks a ≤ au_ticks a')%nat → cut_off uid t a → cut_off uid t a'.
Proof.
  intros Hf Hu Ht [Hw (l & b & Hl & Hid & Hb & Hle)]. split; [transitivity (wall (au_ticks a)); [done|by apply wall_grows]|].
  rewrite Hu. destruct (decide (uid' = uid)) as [->|Hne].
  - rewrite lookup_alter_eq, Hl. cbn. rewrite Hf.
    by exists (with_invalid_before (wall (au_ticks a)) l), (wall (au_ticks a)).
  - rewrite lookup_alter_ne by done. eauto 10.
Qed.

Lemma auth_kept_refl a : users_kept a a.
Proof. done. Qed.
Lemma auth_kept_trans a b c : users_kept a b → users_kept b c → users_kept a c.
Proof. intros [? ?] [? ?]. split; [congruence|lia]. Qed.
Lemma keeps_kept {A} a (m : M auth A) : (∀ b, users_kept b (m b).2) → keeps (users_kept a) m.
Proof. intros Hm b Hb. eapply auth_kept_trans; [done|apply Hm]. Qed.
Lemma auth_keeps_modify a f : (∀ b, users_kept b (f b)) → keeps (users_kept a) (modify f).
Proof. intros Hf. by apply keeps_kept. Qed.
Lemma auth_keeps_now a : keeps (users_kept a) (timezone_now wall).
Proof. apply keeps_kept. intros b. split; [done|cbn; lia]. Qed.
(** Only the calls that save a cut-off write the users: the others are walked call by call. *)
Ltac walk :=
  repeat first [apply keeps_ret | apply keeps_lift | apply keeps_gets | apply keeps_raise | apply auth_keeps_now
               | apply auth_keeps_modify; intros ?; split; [done|cbn; lia]
               | apply keeps_bind; [|intros ?] | case_match ].
Ltac call_kept a := apply (λ H : keeps (users_kept a) _, H a (auth_kept_refl a)).

Lemma sign_in_kept u ip agent jti a : users_kept a (sign_in wall uuid4 environ u ip agent jti a).2.
Proof. call_kept a. unfold sign_in, issue_session_impl, bind_refresh_jti_impl, update_where. cbn [_to_uuid]. walk. Qed.
Lemma revoke_kept actor v reason a : users_kept a (revoke_session_impl wall actor v reason a).2.
Proof. call_kept a. unfold revoke_session_impl, update_where, _invalidate_validation_cache. walk. Qed.
Lemma bind_kept v jti a : users_kept a (bind_refresh_jti_impl wall environ v jti a).2.
Proof. call_kept a. unfold bind_refresh_jti_impl, update_where. walk. Qed.
Lemma touch_kept v a : users_kept a (touch_session_impl wall v a).2.
Proof. call_kept a. unfold touch_session_impl, update_where. walk. Qed.
Lemma quiet_kept a a' : quiet a a' → users_kept a a'.
Proof. intros []. done. Qed.

Lemma refresh_kept token library a : users_kept a (refresh_validate wall mono environ token library a).2.
Proof.
  call_kept a. unfold refresh_validate.
  apply keeps_bind.
  { unfold _refresh_subject. walk. }
  intros [c u]. apply keeps_bind; [apply keeps_lift|]. intros tracking. apply keeps_bind.
  { destruct tracking; [|apply keeps_ret]. apply keeps_bind; [|intros [[] ?]; [apply keeps_ret|apply keeps_raise]].
    apply keeps_kept. intros b. pose proof (validation_run wall mono environ u (SidClaim (c_sid c)) (c_iat c) b) as H.
    destruct (validate_token_session_impl _ _ _ _ _ _ b). apply quiet_kept, H. }
  intros []. destruct library as [| |[j|]]; [apply keeps_raise| | |].
  - apply keeps_bind; [|intros; apply keeps_ret]. destruct tracking; [|apply keeps_ret]. apply keeps_kept, touch_kept.
  - destruct tracking; [|apply keeps_ret]. apply keeps_bind; [|intros; apply keeps_ret]. apply keeps_kept. intros b. apply bind_kept.
  - destruct tracking; [apply keeps_raise|apply keeps_ret].
Qed.

Lemma step_cut_off uid t a a' : step a a' → cut_off uid t a → cut_off uid t a'.
Proof.
  intros Hs Hc. destruct Hs as [u ip agent jti a|result a|token library a|actor v reason a|actor v a|u reason a|cache a|users a Hu|a].
  - eapply cut_off_kept; [apply sign_in_kept|done].
  - eapply cut_off_kept; [apply quiet_kept, authenticate_quiet|done].
  - eapply cut_off_kept; [apply refresh_kept|done].
  - eapply cut_off_kept; [apply revoke_kept|done].
  - apply (cut_off_saved uid (u_id actor) t a (with_invalid_before (wall (au_ticks a)))); [done|done|cbn; lia|done].
  - apply (cut_off_saved uid (u_id u) t a (with_invalid_before (wall (au_ticks a)))); [done|done|cbn; lia|done].
  - done.
  - destruct Hc as [Hw (l & b & Hl & Hid & Hb & Hle)]. split; [done|].
    destruct (Hu _ _ Hl) as (l' & Hl' & Hid' & Hb'). destruct (Hb' _ Hb) as (b' & ? & ?).
    exists l', b'. repeat split; [done|congruence|done|lia].
  - eapply cut_off_kept; [|done]. split; [done|cbn; lia].
Qed.
Lemma history_cut_off uid t a a' : history a a' → cut_off uid t a → cut_off uid t a'.
Proof. induction 1; eauto using step_cut_off. Qed.

(** A token of a user cut off after its issue is refused. *)
Lemma old_token_refused uid t a l c iat x :
  tracked → cut_off uid t a → au_users a !! uid = Some l → _token_iat_to_dt (c_iat c) = Ok (Some iat) → iat <= t →
  (authenticate wall mono environ (Some (l, c)) a).1 ≠ Ok x.
Proof.
  intros Ht [_ (l' & b & Hl' & _ & Hb & Hle)] Hl Hi Hit. rewrite Hl in Hl'. injection Hl' as <-. cbn [authenticate]. rewrite Ht.
  unfold lift. rewrite (bind_ok _ _ _ _ _ eq_refl). cbn [negb].
  pose proof (validation_run wall mono environ l (SidClaim (c_sid c)) (c_iat c) a) as H. unfold bind.
  destruct (validate_token_session_impl _ _ _ _ _ _ a) as [r a'] eqn:E. destruct H as [_ (k & _ & ->)].
  unfold verdict. destruct (live l a); [|done]. cbn. rewrite Hi. cbn. unfold before_cutoff. rewrite Hb.
  by rewrite (proj2 (Z.leb_le _ _)) by lia.
Qed.

(** ** Signing a user out *)

Lemma sign_out_ends_sessions u reason a r :
  NoDup (map us_session_id (au_sessions a)) → r ∈ au_sessions a → us_user r = u_id u →
  ended (us_session_id r) (revoke_user_sessions_impl wall u reason a).2.
Proof.
  intros Hnd Hr Hu. cbn. split.
  - eexists. split; [by apply elem_of_map; eexists|]. by destruct (open_of_user _ r).
  - intros x (y & -> & Hy)%elem_of_map Hid. cbn.
    assert (y = r) as ->.
    { apply (NoDup_map_inj_on us_session_id (au_sessions a)); [done..|]. by destruct (open_of_user _ y) in Hid. }
    unfold open_of_user. rewrite Hu, Z.eqb_refl. cbn. destruct (us_revoked_at r) eqn:Er; [|by left].
    left. by rewrite Er.
Qed.

(** C6. A session that has ended is never accepted again.  Once its row is revoked or past its
    expiry, then whatever sign-ins, refreshes, revocations and account changes follow, in
    whatever processes with whatever caches, no request with a token of that session is
    authenticated and no refresh with it succeeds. *)
Theorem ended_session_is_never_accepted sid a a' c :
  tracked → ended sid a → history a a' → names sid c →
  (∀ u x, (authenticate wall mono environ (Some (u, c)) a').1 ≠ Ok x) ∧
  (∀ library x, (refresh_validate wall mono environ (Some c) library a').1 ≠ Ok x).
Proof.
  intros Ht He Hh Hn. apply (history_ended sid) in Hh; [|done].
  split; intros; [by eapply authenticate_refuses|by eapply refresh_refuses].
Qed.

(** Signing a user out is final.  [revoke_user_sessions] answers the number of sessions it
    revoked, and afterwards, whatever happens, no request is authenticated with a token of a
    session the user had, nor with any token issued up to that moment, with or without a
    session. *)
Theorem sign_out_is_final u reason a a' l c :
  tracked → NoDup (map us_session_id (au_sessions a)) →
  (∃ row, au_users a !! u_id u = Some row ∧ u_id row = u_id u) →
  history (revoke_user_sessions_impl wall u reason a).2 a' → au_users a' !! u_id u = Some l →
  (∃ r, r ∈ au_sessions a ∧ us_user r = u_id u ∧ names (us_session_id r) c) ∨
  (∃ iat, _token_iat_to_dt (c_iat c) = Ok (Some iat) ∧ iat <= wall (au_ticks a)) →
  (revoke_user_sessions_impl wall u reason a).1
    = Ok (Z.of_nat (length (List.filter (open_of_user (u_id u)) (au_sessions a)))) ∧
  ∀ x, (authenticate wall mono environ (Some (l, c)) a').1 ≠ Ok x.
Proof.
  intros Ht Hnd (row & Hrow & Hid) Hh Hl Hc. split; [done|]. intros x. destruct Hc as [(r & Hr & Hu & Hn)|(iat & Hi & Hle)].
  - eapply authenticate_refuses; [done..|]. eapply history_ended; [done|]. by apply sign_out_ends_sessions.
  - eapply old_token_refused; [done| |done..]. eapply history_cut_off; [done|].
    split; [cbn; apply wall_grows; lia|]. exists (with_invalid_before (wall (au_ticks a)) row), (wall (au_ticks a)).
    cbn. by rewrite lookup_alter_eq, Hrow.
Qed.

(** ** A weakness: the session to keep is signed out too *)

(** [revoke_all_sessions] spares the row of the session to keep, but the user's cut-off makes every
    token issued so far too old, those of that session included. *)
Lemma kept_session_is_refused actor sid a l c iat x :
  tracked → (∃ row, au_users a !! u_id actor = Some row ∧ u_id row = u_id actor) →
  let a' := (revoke_all_sessions_impl wall actor (Some (SidUuid sid)) a).2 in
  au_users a' !! u_id actor = Some l → names sid c →
  _token_iat_to_dt (c_iat c) = Ok (Some iat) → iat <= wall (au_ticks a) →
  (authenticate wall mono environ (Some (l, c)) a').1 ≠ Ok x.
Proof.
  intros Ht (row & Hrow & Hid) a' Hl _ Hi Hle. eapply old_token_refused; [done| |done..].
  split; [cbn; apply wall_grows; lia|]. exists (with_invalid_before (wall (au_ticks a)) row), (wall (au_ticks a)).
  cbn. by rewrite lookup_alter_eq, Hrow.
Qed.
End History.

(** ** A concrete history *)

Module Demo.
Definition wall (n : nat) : Z := 1000000000 + 400000 * Z.of_nat n.
Definition mono (n : nat) : spec_float := of_Z (Z.of_nat n).
Definition uuid4 (n : nat) : Z := Z.of_nat n + 1.
Definition environ : environment := [("IMMOAPP_AUTH_SESSION_TRACKING_ENABLED", "1")].
Definition ann : user := mkUser 7 true false (Some 1) None.
Definition start : auth := mkAuth {[7 := ann]} [] ∅ 0 0.
Definition signed_in : auth := (sign_in wall uuid4 environ ann None None "j" start).2.
Definition token (sid iat : Z) : claims := mkClaims (PInt 7) (PStr (uuid_text sid)) (PInt iat) (PStr "j").
Definition signed_out : auth := (revoke_user_sessions_impl wall ann "user_deactivated" signed_in).2.
Definition revoked : auth := (revoke_session_impl wall ann (SidUuid 1) "single_revoke" signed_in).2.

Lemma wall_grows m n : (m ≤ n)%nat → wall m <= wall n.
Proof. unfold wall. lia. Qed.
(** The token of the new session is accepted, and its answer cached. *)
Example token_accepted :
  let '(r, a) := authenticate wall mono environ (Some (ann, token 1 1000)) signed_in in
  (match r with Ok (Some _) => true | _ => false end, size (au_cache a)) = (true, 1%nat).
Proof. vm_compute. reflexivity. Qed.
Lemma revoked_ended : ended wall 1 revoked.
Proof.
  split; [eexists; split; [by left|reflexivity]|].
  intros r [->|H%elem_of_nil]%elem_of_cons _; [|done]. left. discriminate.
Qed.
End Demo.

Lemma ended_session_is_never_accepted_witness :
  ended Demo.wall 1 Demo.revoked ∧
  ∀ u x, (authenticate Demo.wall Demo.mono Demo.environ (Some (u, Demo.token 1 2000)) (tick Demo.revoked)).1 ≠ Ok x.
Proof.
  split; [exact Demo.revoked_ended|].
  refine (proj1 (ended_session_is_never_accepted Demo.wall Demo.mono Demo.uuid4 Demo.environ Demo.wall_grows
    1 Demo.revoked (tick Demo.revoked) (Demo.token 1 2000) _ Demo.revoked_ended _ _)).
  - vm_compute. reflexivity.
  - apply rtc_once, step_wait.
  - vm_compute. reflexivity.
Defined.

Lemma sign_out_is_final_witness :
  (revoke_user_sessions_impl Demo.wall Demo.ann "user_deactivated" Demo.signed_in).1 = Ok 1 ∧
  ∀ x, (authenticate Demo.wall Demo.mono Demo.environ
          (Some (with_invalid_before (Demo.wall (au_ticks Demo.signed_in)) Demo.ann, Demo.token 1 999)) Demo.signed_out).1 ≠ Ok x.
Proof.
  refine (sign_out_is_final Demo.wall Demo.mono Demo.uuid4 Demo.environ Demo.wall_grows Demo.ann "user_deactivated"
    Demo.signed_in Demo.signed_out _ (Demo.token 1 999) _ _ _ _ _ _).
  - vm_compute. reflexivity.
  - apply NoDup_singleton.
  - eexists. split; vm_compute; reflexivity.
  - apply rtc_refl.
  - vm_compute. reflexivity.
  - right. exists 999000000. split; [vm_compute; reflexivity|]. vm_compute. discriminate.
Defined.

(** A token carries its issue time in whole seconds, so that a sign-in within the second of a
    sign-out gives a token that is already too old. *)
Example prompt_sign_in_is_refused :
  let a := (sign_in Demo.wall Demo.uuid4 Demo.environ Demo.ann None None "k" Demo.signed_out).2 in
  let iat := Demo.wall (au_ticks Demo.signed_out) / 1000000 in
  match au_users a !! 7 with
  | Some l => (authenticate Demo.wall Demo.mono Demo.environ (Some (l, Demo.token 2 iat)) a).1
  | None => Ok None
  end = Err (AuthenticationFailed "Session revoked or expired.").
Proof. vm_compute. reflexivity. Qed.
