(* ===== verification/Elevation.v ===== *)
(** * Temporary elevation of privileges

    Models src/server/services/permission_grant_workflow.py, permission_grant_queries.py and
    permission_elevation.py, with the role helpers of users_helpers.py: the table
    [PrivilegeElevationRequest], who may request, decide and revoke, and the permissions a user has
    at a time.  Times are microseconds; each reading of the clock is an argument.  The audit log
    and the alerts are the lists of what was sent to them. *)

From S2P Require Import Prelude PyValue Environ.
Local Open Scope Z_scope.

(** ** Users *)

Record account := mkAccount {
  ac_id : Z;
  ac_superuser : bool;
  ac_role : string;
  ac_owner : bool;
  ac_agency : option Z;
  ac_manager : option Z;
  ac_can_import : bool;
  ac_can_hard_delete : bool
}.
Abbreviation actor := (option account).

Definition NotFoundError (msg : string) : exn := OtherError ("NotFoundError: " +:+ msg).
Definition PermissionDeniedError (msg : string) : exn := OtherError ("PermissionDeniedError: " +:+ msg).
Definition IntegrityError : exn := OtherError "IntegrityError".

(* src/server/services/users_helpers.py :: is_superuser *)
Definition is_superuser (u : actor) : bool := match u with Some a => ac_superuser a | None => false end.
(* src/server/services/users_helpers.py :: is_owner *)
Definition is_owner (u : actor) : bool := match u with Some a => ac_owner a | None => false end.
(* src/server/services/users_helpers.py :: role_of *)
Definition role_of (u : actor) : option string :=
  match u with Some a => if str_empty (ac_role a) then None else Some (ac_role a) | None => None end.
(* src/server/services/permission_elevation.py :: _role_of_or_empty *)
Definition _role_of_or_empty (u : actor) : string := default EmptyString (role_of u).
(* src/server/services/users_helpers.py :: agency_id_of *)
Definition agency_id_of (u : actor) : option Z := match u with Some a => ac_agency a | None => None end.
(* src/server/services/users_helpers.py :: require_manager *)
Definition require_manager (u : actor) : res unit :=
  if is_superuser u then Ok tt
  else if bool_decide (role_of u = Some "manager") then Ok tt
  else Err (PermissionDeniedError "Manager access required.").

(** ** Requests *)

Inductive grant_status : Type := PENDING | APPROVED | DENIED | REVOKED.
#[export] Instance grant_status_eq_dec : EqDecision grant_status.
Proof. solve_decision. Defined.

(* src/server/accounts/models.py :: PrivilegeElevationRequest *)
Record grant := mkGrant {
  g_id : Z;
  g_agency : Z;
  g_user : Z;
  g_permission : string;
  g_reason : string;
  g_status : grant_status;
  g_requested_by : option Z;
  g_approved_by : option Z;
  g_revoked_by : option Z;
  g_requested_at : Z;
  g_decided_at : option Z;
  g_expires_at : option Z;
  g_revoked_at : option Z;
  g_revoke_reason : string
}.

(** [gs_next] is the next id of the table. *)
Record grants := mkGrants {
  gs_users : gmap Z account;
  gs_rows : gmap Z grant;
  gs_next : Z;
  gs_log : list (string * Z * Z);
  gs_alerts : list (string * Z * Z)
}.
Abbreviation GM := (M grants).

Definition set_row (r : grant) (s : grants) : grants :=
  mkGrants (gs_users s) (<[g_id r := r]> (gs_rows s)) (gs_next s) (gs_log s) (gs_alerts s).
Definition log_auth_event (event : string) (user request : Z) : GM unit :=
  modify (λ s, mkGrants (gs_users s) (gs_rows s) (gs_next s) (gs_log s ++ [(event, user, request)]) (gs_alerts s)).
Definition emit_security_alert (reason : string) (user request : Z) : GM unit :=
  modify (λ s, mkGrants (gs_users s) (gs_rows s) (gs_next s) (gs_log s) (gs_alerts s ++ [(reason, user, request)])).

(** What the callers are given: the fields of the row, with the status as shown at time [now]. *)
Record grant_view := mkView { gv_row : grant; gv_status : string; gv_active : bool }.
Definition status_text (st : grant_status) : string :=
  match st with PENDING => "pending" | APPROVED => "approved" | DENIED => "denied" | REVOKED => "revoked" end.
Definition unexpired (now : Z) (r : grant) : bool := match g_expires_at r with Some e => now <? e | None => true end.
Definition active (now : Z) (r : grant) : bool :=
  bool_decide (g_status r = APPROVED) && bool_decide (g_revoked_at r = None) && unexpired now r.
(* src/server/services/permission_grant_queries.py :: serialize_request_impl *)
Definition serialize_request_impl (now : Z) (r : grant) : grant_view :=
  let is_active := active now r in
  mkView r (if bool_decide (g_status r = APPROVED) && negb is_active then "expired" else status_text (g_status r)) is_active.

Section Elevation.
Variable environ : environment.

(* src/server/services/permission_elevation.py :: _SUPPORTED_PERMISSIONS *)
Definition _SUPPORTED_PERMISSIONS : list string := ["can_import"; "can_hard_delete"].
(* src/server/services/permission_elevation.py :: _DEFAULT_APPROVAL_MINUTES *)
Definition _DEFAULT_APPROVAL_MINUTES : Z :=
  _int_env environ "IMMOAPP_PRIVILEGE_ELEVATION_DEFAULT_MINUTES" 120 5 (24 * 60).
(* src/server/services/permission_elevation.py :: _MAX_APPROVAL_MINUTES *)
Definition _MAX_APPROVAL_MINUTES : Z :=
  _int_env environ "IMMOAPP_PRIVILEGE_ELEVATION_MAX_MINUTES" (24 * 60) 5 (7 * 24 * 60).
(* src/server/services/permission_elevation.py :: _normalize_permission *)
Definition _normalize_permission (permission : string) : res string :=
  let value := strip permission in
  if bool_decide (value ∈ _SUPPORTED_PERMISSIONS) then Ok value
  else Err (ValueError ("Unsupported permission '" +:+ value +:+ "'")).
(* src/server/services/permission_elevation.py :: _clamp_minutes *)
Definition _clamp_minutes (value : option Z) : Z :=
  match value with
  | None => _DEFAULT_APPROVAL_MINUTES
  | Some v => Z.max 5 (Z.min v _MAX_APPROVAL_MINUTES)
  end.

(* src/server/services/permission_grant_workflow.py :: target_user_for_actor_impl *)
Definition target_user_for_actor_impl (u : actor) (user_id : Z) : GM account :=
  let! target := gets (λ s, gs_users s !! user_id) in
  match target with
  | None => raise (NotFoundError "User not found.")
  | Some target =>
      if is_superuser u then ret target
      else if negb (match agency_id_of u with Some g => bool_decide (Some g = ac_agency target) | None => false end)
      then raise (PermissionDeniedError "Forbidden agency scope.")
      else if negb (bool_decide (_role_of_or_empty u = "manager"))
      then raise (PermissionDeniedError "Manager access required.")
      else if is_owner u then ret target
      else
        match u with
        | None => raise (PermissionDeniedError "Actor id required.")
        | Some a =>
            if ac_id target =? ac_id a then ret target
            else if default 0 (ac_manager target) =? ac_id a then ret target
            else raise (PermissionDeniedError "Managers may only request elevation for self or owned agents.")
        end
  end.

(* src/server/services/permission_grant_workflow.py :: require_owner_or_superuser_impl *)
Definition require_owner_or_superuser_impl (u : actor) : res unit :=
  if is_superuser u then Ok tt
  else if bool_decide (_role_of_or_empty u = "manager") && is_owner u then Ok tt
  else Err (PermissionDeniedError "Owner access required.").

Definition actor_id (u : actor) : option Z := match u with Some a => Some (ac_id a) | None => None end.

(* src/server/services/permission_grant_workflow.py :: request_elevation_impl *)
Definition request_elevation_impl (now view_now : Z) (u : actor) (user_id : Z) (permission : string)
    (reason : option string) : GM grant_view :=
  do! lift (require_manager u) in
  let! target := target_user_for_actor_impl u user_id in
  let! normalized_permission := lift (_normalize_permission permission) in
  match ac_agency target with
  | None => raise IntegrityError
  | Some agency =>
      let! n := gets gs_next in
      let row := mkGrant n agency (ac_id target) normalized_permission
                   (String.substring 0 512 (default EmptyString reason)) PENDING
                   (match actor_id u with Some 0 => None | i => i end) None None now None None None EmptyString in
      do! modify (λ s, mkGrants (gs_users s) (<[n := row]> (gs_rows s)) (n + 1) (gs_log s) (gs_alerts s)) in
      do! log_auth_event "privilege_elevation_requested" (ac_id target) n in
      ret (serialize_request_impl view_now row)
  end.

(** The transaction of a decision: the row is read again under its lock. *)
(* src/server/services/permission_grant_workflow.py :: decide_request_impl [158-184] *)
Definition decide_locked (now : Z) (u : actor) (request_id : Z) (approve : bool) (reason : option string)
    (duration_minutes : option Z) : GM grant :=
  let! row := gets (λ s, gs_rows s !! request_id) in
  match row with
  | None => raise (OtherError "DoesNotExist")
  | Some row =>
      if bool_decide (g_status row = PENDING) then
        let row' := mkGrant (g_id row) (g_agency row) (g_user row) (g_permission row) (g_reason row)
          (if approve then APPROVED else DENIED) (g_requested_by row) (actor_id u) (g_revoked_by row)
          (g_requested_at row) (Some now)
          (if approve then Some (now + _clamp_minutes duration_minutes * 60000000) else None)
          (g_revoked_at row)
          (if approve then g_revoke_reason row else String.substring 0 256 (default EmptyString reason)) in
        do! modify (set_row row') in ret row'
      else raise (ValueError "Privilege request is no longer pending.")
  end.

(** The checks before it; [u] may act on requests of the agency of the row. *)
Definition check_scope (u : actor) (row : grant) : res unit :=
  if negb (is_superuser u) && negb (bool_decide (agency_id_of u = Some (g_agency row)))
  then Err (PermissionDeniedError "Forbidden agency scope.") else Ok tt.

(* src/server/services/permission_grant_workflow.py :: decide_request_impl *)
Definition decide_request_impl (now view_now : Z) (u : actor) (request_id : Z) (approve : bool)
    (reason : option string) (duration_minutes : option Z) : GM grant_view :=
  do! lift (require_owner_or_superuser_impl u) in
  let! row := gets (λ s, gs_rows s !! request_id) in
  match row with
  | None => raise (NotFoundError "Privilege request not found.")
  | Some row =>
      do! lift (check_scope u row) in
      if negb (bool_decide (g_status row = PENDING))
      then raise (ValueError "Privilege request is no longer pending.")
      else
        let! row := decide_locked now u (g_id row) approve reason duration_minutes in
        do! log_auth_event (if approve then "privilege_elevation_approved" else "privilege_elevation_denied")
              (g_user row) (g_id row) in
        do! (if approve then emit_security_alert "privilege_spike" (g_user row) (g_id row) else ret tt) in
        ret (serialize_request_impl view_now row)
  end.

(** The transaction of a revocation. *)
(* src/server/services/permission_grant_workflow.py :: revoke_request_impl [243-250] *)
Definition revoke_locked (now : Z) (u : actor) (request_id : Z) (reason : option string) : GM grant :=
  let! row := gets (λ s, gs_rows s !! request_id) in
  match row with
  | None => raise (OtherError "DoesNotExist")
  | Some row =>
      let row' := mkGrant (g_id row) (g_agency row) (g_user row) (g_permission row) (g_reason row) REVOKED
        (g_requested_by row) (g_approved_by row) (actor_id u) (g_requested_at row) (g_decided_at row)
        (g_expires_at row) (Some now) (String.substring 0 256 (str_or (default EmptyString reason) "revoked")) in
      do! modify (set_row row') in ret row'
  end.

(* src/server/services/permission_grant_workflow.py :: revoke_request_impl *)
Definition revoke_request_impl (now view_now : Z) (u : actor) (request_id : Z) (reason : option string) : GM grant_view :=
  do! lift (require_owner_or_superuser_impl u) in
  let! row := gets (λ s, gs_rows s !! request_id) in
  match row with
  | None => raise (NotFoundError "Privilege request not found.")
  | Some row =>
      do! lift (check_scope u row) in
      if bool_decide (g_status row = REVOKED) then ret (serialize_request_impl view_now row)
      else
        let! row := revoke_locked now u (g_id row) reason in
        do! log_auth_event "privilege_elevation_revoked" (g_user row) (g_id row) in
        ret (serialize_request_impl view_now row)
  end.

(** ** Effective permissions *)

Definition own_permission (a : account) (permission : string) : bool :=
  if bool_decide (permission = "can_import") then ac_can_import a
  else if bool_decide (permission = "can_hard_delete") then ac_can_hard_delete a else false.
Definition granted (now : Z) (uid : Z) (permission : string) (s : grants) : bool :=
  existsb (λ kr, (g_user kr.2 =? uid) && bool_decide (g_permission kr.2 = permission) && active now kr.2)
    (map_to_list (gs_rows s)).
(* src/server/services/permission_grant_queries.py :: has_effective_permission_impl *)
Definition has_effective_permission_impl (now : Z) (a : account) (permission : string) : GM bool :=
  let! normalized := lift (_normalize_permission permission) in
  if ac_superuser a then ret true
  else if own_permission a normalized then ret true
  else gets (granted now (ac_id a) normalized).
(* src/server/services/permission_grant_queries.py :: list_effective_permissions_impl *)
Definition list_effective_permissions_impl (now : Z) (a : account) : GM (list (string * bool)) :=
  let! h := has_effective_permission_impl now a "can_hard_delete" in
  let! i := has_effective_permission_impl now a "can_import" in
  ret [("can_hard_delete", h); ("can_import", i)].

(** ** The list of requests *)

Definition requested_before (r1 r2 : grant) : bool :=
  (g_requested_at r2 <? g_requested_at r1) || (g_requested_at r1 =? g_requested_at r2) && (g_id r2 <=? g_id r1).
Definition manages (u : actor) (s : grants) (r : grant) : bool :=
  match actor_id u with
  | None => false
  | Some i => (g_user r =? i)
              || match gs_users s !! g_user r with Some a => bool_decide (ac_manager a = Some i) | None => false end
  end.
(* src/server/services/permission_grant_queries.py :: list_requests_impl *)
Definition list_requests_impl (now view_now : Z) (u : actor) (user_id : option Z) (status : option string) :
    GM (list grant_view) :=
  do! lift (require_manager u) in
  let! s := gets id in
  let visible r :=
    is_superuser u
    || bool_decide (agency_id_of u = Some (g_agency r)) && (is_owner u || manages u s r) in
  let status_filter := lower (strip (default EmptyString status)) in
  let wanted r :=
    match user_id with Some i => g_user r =? i | None => true end
    && (if str_empty status_filter then true
        else if bool_decide (status_filter = "expired")
        then bool_decide (g_status r = APPROVED) && bool_decide (g_revoked_at r = None)
             && match g_expires_at r with Some e => e <=? now | None => false end
        else bool_decide (status_filter = status_text (g_status r))) in
  let rows := List.filter (λ r, visible r && wanted r) (map snd (map_to_list (gs_rows s))) in
  ret (map (serialize_request_impl view_now) (take 500 (ssort requested_before rows))).

End Elevation.
