(* ===== verification/ElevationProps.v ===== *)
(** * Elevated permissions are approved, bounded in time and revocable

    What any history of requests, decisions, revocations and account changes leaves in the table,
    the decisions and revocations of different requests interleaving between the check and the
    locked transaction of each. *)

From S2P Require Import Prelude PyValue Environ Elevation.
Local Open Scope Z_scope.

Section Props.
Context (environ : environment).

(** [u] may decide on the requests of an agency: a superuser, or an owner who manages it. *)
Definition authorised (u : actor) (agency : Z) : Prop :=
  is_superuser u = true ∨ role_of u = Some "manager" ∧ is_owner u = true ∧ agency_id_of u = Some agency.

Lemma owner_in_scope u row :
  require_owner_or_superuser_impl u = Ok tt → check_scope u row = Ok tt → authorised u (g_agency row).
Proof.
  unfold require_owner_or_superuser_impl, check_scope, authorised, _role_of_or_empty.
  destruct (is_superuser u); [by left|]. cbn. intros H1 H2. right.
  destruct (bool_decide (_ = "manager")) eqn:Er in H1; [|done]. apply bool_decide_eq_true in Er.
  destruct (is_owner u); [|done]. case_bool_decide; [|done].
  destruct (role_of u); cbn in Er; [by subst|done].
Qed.

(** ** Calls and histories *)

(** A call of the service; [Locked] calls are the transactions of requests whose checks ran
    earlier. *)
Inductive call : Type :=
  | Request (now view : Z) (u : actor) (user : Z) (permission : string) (reason : option string)
  | Decide (now view : Z) (u : actor) (i : Z) (approve : bool) (reason : option string) (minutes : option Z)
  | LockedDecide (now : Z) (u : actor) (i : Z) (approve : bool) (reason : option string) (minutes : option Z)
  | Revoke (now view : Z) (u : actor) (i : Z) (reason : option string)
  | LockedRevoke (now : Z) (u : actor) (i : Z) (reason : option string)
  | Accounts (users : gmap Z account).

Definition succeeds {A} (m : M grants A) (s : grants) : bool * grants :=
  match m s with (Ok _, s') => (true, s') | (Err _, s') => (false, s') end.
Definition perform (c : call) (s : grants) : bool * grants :=
  match c with
  | Request now view u user permission reason =>
      succeeds (request_elevation_impl now view u user permission reason) s
  | Decide now view u i approve reason minutes =>
      succeeds (decide_request_impl environ now view u i approve reason minutes) s
  | LockedDecide now u i approve reason minutes => succeeds (decide_locked environ now u i approve reason minutes) s
  | Revoke now view u i reason => succeeds (revoke_request_impl now view u i reason) s
  | LockedRevoke now u i reason => succeeds (revoke_locked now u i reason) s
  | Accounts users => (true, mkGrants users (gs_rows s) (gs_next s) (gs_log s) (gs_alerts s))
  end.
(** The checks of a locked decision passed: its actor may decide on the row. *)
Definition checked (c : call) (s : grants) : Prop :=
  match c with
  | LockedDecide _ u i _ _ _ => ∀ r, gs_rows s !! i = Some r → authorised u (g_agency r)
  | _ => True
  end.

Definition no_grants (users : gmap Z account) : grants := mkGrants users ∅ 1 [] [].
(** [reached cs s]: [cs] are the calls that succeeded, failed ones happen in between. *)
Inductive reached : list call → grants → Prop :=
  | reached_start users : reached [] (no_grants users)
  | reached_call c cs s s' : reached cs s → checked c s → perform c s = (true, s') → reached (cs ++ [c]) s'
  | reached_failure c cs s s' : reached cs s → checked c s → perform c s = (false, s') → reached cs s'.

(** Request [i] was approved by [u] at [t] for [m] minutes. *)
Definition approval (c : call) : option (Z * actor * Z * Z) :=
  match c with
  | Decide now _ u i true _ minutes | LockedDecide now u i true _ minutes => Some (i, u, now, _clamp_minutes environ minutes)
  | _ => None
  end.
Definition revokes (c : call) : option Z :=
  match c with Revoke _ _ _ i _ | LockedRevoke _ _ i _ => Some i | _ => None end.

(** ** The invariant *)

Definition approved_by_history (cs : list call) (r : grant) : Prop :=
  ∃ c u t m, c ∈ cs ∧ approval c = Some (g_id r, u, t, m) ∧ authorised u (g_agency r) ∧
    g_approved_by r = actor_id u ∧ g_decided_at r = Some t ∧ g_expires_at r = Some (t + m * 60000000).
Definition row_ok (cs : list call) (r : grant) : Prop :=
  match g_status r with APPROVED => approved_by_history cs r | _ => True end ∧
  (∀ c, c ∈ cs → revokes c = Some (g_id r) → g_status r = REVOKED).
Record grants_ok (cs : list call) (s : grants) : Prop := {
  gok_keys : ∀ i r, gs_rows s !! i = Some r → g_id r = i ∧ i < gs_next s;
  gok_rows : ∀ i r, gs_rows s !! i = Some r → row_ok cs r;
  gok_revoked : ∀ c i, c ∈ cs → revokes c = Some i → is_Some (gs_rows s !! i)
}.

Lemma approved_more cs c r : approved_by_history cs r → approved_by_history (cs ++ [c]) r.
Proof. intros (x & u & t & m & Hx & H). exists x, u, t, m. split; [apply elem_of_app; by left|done]. Qed.
Lemma row_ok_more cs c r : row_ok cs r → revokes c ≠ Some (g_id r) → row_ok (cs ++ [c]) r.
Proof.
  intros [Ha Hr] Hc. split.
  - destruct (g_status r); try done. by apply approved_more.
  - intros x [Hx|Hx%list_elem_of_singleton]%elem_of_app Hi; [by eapply Hr|by subst x].
Qed.

(** A call that is not a revocation, and leaves the rows. *)
Lemma ok_same cs c s s' :
  grants_ok cs s → gs_rows s' = gs_rows s → gs_next s' = gs_next s → revokes c = None → grants_ok (cs ++ [c]) s'.
Proof.
  intros [Hk Hr Hv] Hrows Hnext Hc. split; rewrite ?Hrows, ?Hnext; [done| |].
  - intros i r Hi. apply row_ok_more; [by eapply Hr|by rewrite Hc].
  - intros x i [Hx|Hx%list_elem_of_singleton]%elem_of_app; [by apply Hv|subst x; by rewrite Hc].
Qed.
(** A call that writes row [r'] over [r], or a new row. *)
Lemma ok_write cs c s s' r' :
  grants_ok cs s → gs_rows s' = <[g_id r' := r']> (gs_rows s) → gs_next s <= gs_next s' → g_id r' < gs_next s' →
  row_ok (cs ++ [c]) r' → (∀ i, revokes c = Some i → i = g_id r') → grants_ok (cs ++ [c]) s'.
Proof.
  intros [Hk Hr Hv] Hrows Hle Hlt Hok Hc. split; rewrite ?Hrows.
  - intros i r [[? ?]|[Hne Hi]]%lookup_insert_Some; [by subst|]. destruct (Hk _ _ Hi). lia.
  - intros i r [[? ?]|[Hne Hi]]%lookup_insert_Some; [by subst|]. destruct (Hk _ _ Hi) as [Hid _].
    apply row_ok_more; [by eapply Hr|]. intros He. apply Hc in He. congruence.
  - intros x i [Hx|Hx%list_elem_of_singleton]%elem_of_app Hi; [|subst x].
    + destruct (decide (g_id r' = i)) as [->|Hne]; [by rewrite lookup_insert_eq|].
      rewrite lookup_insert_ne by done. by eapply Hv.
    + rewrite (Hc _ Hi). by rewrite lookup_insert_eq.
Qed.

(** ** What each call does *)

Lemma elevation_request_run now view u user permission reason s v s' :
  request_elevation_impl now view u user permission reason s = (Ok v, s') →
  ∃ r, gs_rows s' = <[g_id r := r]> (gs_rows s) ∧ g_id r = gs_next s ∧ gs_next s' = gs_next s + 1 ∧ g_status r = PENDING.
Proof.
  unfold request_elevation_impl, target_user_for_actor_impl, log_auth_event, bind, gets, lift, modify, raise, ret.
  intros H. repeat case_match; simplify_eq; cbn [gs_rows gs_next];
    match goal with |- ∃ _, <[_ := ?row]> _ = _ ∧ _ => by exists row end.
Qed.

Lemma decide_locked_run now u i approve reason minutes s r s' :
  decide_locked environ now u i approve reason minutes s = (Ok r, s') →
  ∃ row, gs_rows s !! i = Some row ∧ g_status row = PENDING ∧ s' = set_row r s ∧
    g_id r = g_id row ∧ g_agency r = g_agency row ∧ g_status r = (if approve then APPROVED else DENIED) ∧
    g_approved_by r = actor_id u ∧ g_decided_at r = Some now ∧
    (approve = true → g_expires_at r = Some (now + _clamp_minutes environ minutes * 60000000)).
Proof.
  unfold decide_locked, bind, gets, modify, raise, ret.
  destruct (gs_rows s !! i) as [row|]; [|done]. case_bool_decide; [|done]. intros [= <- <-].
  exists row. by destruct approve.
Qed.

Lemma decide_run now view u i approve reason minutes s v s' :
  decide_request_impl environ now view u i approve reason minutes s = (Ok v, s') →
  ∃ row r s1, gs_rows s !! i = Some row ∧ authorised u (g_agency row) ∧
    decide_locked environ now u (g_id row) approve reason minutes s = (Ok r, s1) ∧
    gs_rows s' = gs_rows s1 ∧ gs_next s' = gs_next s1.
Proof.
  unfold decide_request_impl. unfold bind at 1, lift.
  destruct (require_owner_or_superuser_impl u) as [[]|] eqn:Eo; [|done]. autorewrite with py.
  destruct (gs_rows s !! i) as [row|]; [|done]. unfold bind at 1, lift.
  destruct (check_scope u row) as [[]|] eqn:Es; [|done]. destruct (negb _); [done|]. unfold bind at 1.
  destruct (decide_locked _ _ _ _ _ _ _ s) as [[r|] s1] eqn:Ed; [|done].
  intros H. exists row, r, s1. split; [done|]. split; [by apply owner_in_scope|]. split; [done|].
  destruct approve; cbn in H; apply pair_equal_spec in H as [_ <-]; done.
Qed.

Lemma revoke_locked_run now u i reason s r s' :
  revoke_locked now u i reason s = (Ok r, s') →
  ∃ row, gs_rows s !! i = Some row ∧ s' = set_row r s ∧ g_id r = g_id row ∧ g_status r = REVOKED.
Proof.
  unfold revoke_locked, bind, gets, modify, raise, ret.
  destruct (gs_rows s !! i) as [row|]; [|done]. intros [= <- <-]. by exists row.
Qed.

Lemma elevation_revoke_run now view u i reason s v s' :
  revoke_request_impl now view u i reason s = (Ok v, s') →
  ∃ row, gs_rows s !! i = Some row ∧
    (g_status row = REVOKED ∧ s' = s ∨
     ∃ r s1, revoke_locked now u (g_id row) reason s = (Ok r, s1) ∧ gs_rows s' = gs_rows s1 ∧ gs_next s' = gs_next s1).
Proof.
  unfold revoke_request_impl. unfold bind at 1, lift.
  destruct (require_owner_or_superuser_impl u) as [[]|] eqn:Eo; [|done]. autorewrite with py.
  destruct (gs_rows s !! i) as [row|]; [|done]. unfold bind at 1, lift.
  destruct (check_scope u row) as [[]|] eqn:Es; [|done]. case_bool_decide.
  - intros [= <- <-]. eauto.
  - unfold bind at 1. destruct (revoke_locked _ _ _ _ s) as [[r|] s1] eqn:Er; [|done].
    intros E. cbn in E. apply pair_equal_spec in E as [_ Heq]. exists row. split; [done|]. right. exists r, s1. by rewrite <- Heq.
Qed.

(** A call that raises writes no row. *)
Lemma failure_writes_nothing c s s' :
  perform c s = (false, s') → gs_rows s' = gs_rows s ∧ gs_next s' = gs_next s.
Proof.
  destruct c; cbn [perform]; unfold succeeds, request_elevation_impl, target_user_for_actor_impl,
    decide_request_impl, decide_locked, revoke_request_impl, revoke_locked, log_auth_event, emit_security_alert,
    bind, gets, lift, modify, raise, ret; intros Hf; repeat (case_match; try discriminate); simplify_eq; done.
Qed.

(** ** The invariant holds *)

Lemma decision_ok cs s c now u i approve reason minutes r s1 s' :
  grants_ok cs s → decide_locked environ now u i approve reason minutes s = (Ok r, s1) →
  gs_rows s' = gs_rows s1 → gs_next s' = gs_next s1 →
  (∀ row, gs_rows s !! i = Some row → authorised u (g_agency row)) →
  revokes c = None → (approve = true → approval c = Some (i, u, now, _clamp_minutes environ minutes)) →
  grants_ok (cs ++ [c]) s'.
Proof.
  intros Hok Hd Hrows Hnext Hu Hc Ha.
  destruct (decide_locked_run _ _ _ _ _ _ _ _ _ Hd) as (row & Hi & Hp & -> & Hid & Hag & Hst & Hby & Hat & Hex).
  destruct (gok_keys _ _ Hok _ _ Hi) as [Hkey Hlt]. destruct (gok_rows _ _ Hok _ _ Hi) as [_ Hrev].
  apply (ok_write cs c s s' r); [done|done|rewrite Hnext; cbn; lia|rewrite Hnext; cbn; lia| |by rewrite Hc].
  split.
  - rewrite Hst. destruct approve; [|done]. exists c, u, now, (_clamp_minutes environ minutes).
    split; [apply elem_of_app; right; by left|]. rewrite Hid, Hkey, Hag. auto 6.
  - intros x [Hx|Hx%list_elem_of_singleton]%elem_of_app Hr; [|subst x; congruence].
    rewrite Hid in Hr. by rewrite (Hrev x Hx Hr) in Hp.
Qed.

Lemma revocation_ok cs s c now u i reason r s1 s' :
  grants_ok cs s → revoke_locked now u i reason s = (Ok r, s1) →
  gs_rows s' = gs_rows s1 → gs_next s' = gs_next s1 → revokes c = Some i →
  grants_ok (cs ++ [c]) s'.
Proof.
  intros Hok Hd Hrows Hnext Hc.
  destruct (revoke_locked_run _ _ _ _ _ _ _ Hd) as (row & Hi & -> & Hid & Hst).
  destruct (gok_keys _ _ Hok _ _ Hi) as [Hkey Hlt].
  apply (ok_write cs c s s' r); [done|done|rewrite Hnext; cbn; lia|rewrite Hnext; cbn; lia| |intros; congruence].
  split; [by rewrite Hst|done].
Qed.

Lemma perform_ok c cs s s' : grants_ok cs s → checked c s → perform c s = (true, s') → grants_ok (cs ++ [c]) s'.
Proof.
  intros Hok Hc. destruct c as [now view u user perm reason|now view u i approve reason minutes
    |now u i approve reason minutes|now view u i reason|now u i reason|users]; cbn [perform]; unfold succeeds.
  - destruct (request_elevation_impl _ _ _ _ _ _ s) as [[v|] s1] eqn:E; intros [= <-].
    destruct (elevation_request_run _ _ _ _ _ _ _ _ _ E) as (r & Hrows & Hid & Hnext & Hst).
    eapply ok_write; [done|done|lia|lia| |done]. split; [by rewrite Hst|].
    intros x [Hx|Hx%list_elem_of_singleton]%elem_of_app Hr; [|by subst x].
    destruct (gok_revoked _ _ Hok _ _ Hx Hr) as [r0 Hr0]. destruct (gok_keys _ _ Hok _ _ Hr0). lia.
  - destruct (decide_request_impl _ _ _ _ _ _ _ _ s) as [[v|] s1] eqn:E; intros [= <-].
    destruct (decide_run _ _ _ _ _ _ _ _ _ _ E) as (row & r & s2 & Hi & Hu & Hd & Hrows & Hnext).
    destruct (gok_keys _ _ Hok _ _ Hi) as [Hkey _]. rewrite Hkey in Hd.
    eapply decision_ok; [done..| |done|by intros ->]. intros row' Hi'. congruence.
  - destruct (decide_locked _ _ _ _ _ _ _ s) as [[v|] s1] eqn:E; intros [= <-].
    eapply decision_ok; [done..|by intros ->].
  - destruct (revoke_request_impl _ _ _ _ _ s) as [[v|] s1] eqn:E; intros [= <-].
    destruct (elevation_revoke_run _ _ _ _ _ _ _ _ E) as (row & Hi & [[Hst ->]|(r & s2 & Hd & Hrows & Hnext)]);
      destruct (gok_keys _ _ Hok _ _ Hi) as [Hkey _].
    + destruct Hok as [Hk Hr Hv]. split; [done| |].
      * intros k r Hkr. destruct (decide (k = i)) as [->|Hne].
        -- simplify_eq. split; [by rewrite Hst|done].
        -- apply row_ok_more; [by eapply Hr|]. destruct (Hk _ _ Hkr). cbn. congruence.
      * intros x k [Hx|Hx%list_elem_of_singleton]%elem_of_app Hxk; [by eapply Hv|].
        subst x. cbn in Hxk. simplify_eq. by eexists.
    + rewrite Hkey in Hd. by eapply revocation_ok.
  - destruct (revoke_locked _ _ _ _ s) as [[v|] s1] eqn:E; intros [= <-]. by eapply revocation_ok.
  - intros [= <-]. by eapply ok_same.
Qed.

Lemma reached_granted cs s : reached cs s → grants_ok cs s.
Proof.
  induction 1 as [users|c cs s s' _ IH Hc E|c cs s s' _ IH Hc E].
  - split; intros; set_solver.
  - by eapply perform_ok.
  - destruct (failure_writes_nothing _ _ _ E) as [Hr Hn]. destruct IH as [Hk Hro Hv].
    split; intros *; rewrite ?Hr, ?Hn; [apply Hk|apply Hro|apply Hv].
Qed.

Lemma clamp_bounds v : 5 <= _clamp_minutes environ v <= Z.max (_DEFAULT_APPROVAL_MINUTES environ) (_MAX_APPROVAL_MINUTES environ).
Proof.
  pose proof (int_env_bounds environ "IMMOAPP_PRIVILEGE_ELEVATION_DEFAULT_MINUTES" 120 5 (24 * 60)).
  pose proof (int_env_bounds environ "IMMOAPP_PRIVILEGE_ELEVATION_MAX_MINUTES" (24 * 60) 5 (7 * 24 * 60)).
  unfold _clamp_minutes, _DEFAULT_APPROVAL_MINUTES, _MAX_APPROVAL_MINUTES in *. destruct v; lia.
Qed.

(** C32. A permission beyond the user's own is approved, bounded in time and revocable.  After any
    history of requests, decisions, revocations and account changes, by any actors and
    interleaved between the checks and the transaction of each, [has_effective_permission]
    answers that an ordinary user has a permission only when the account itself has it, or
    when a request of that user for it was approved by a superuser or by an owner of the
    agency, at a time not longer ago than the minutes granted (between five and the larger of the
    two configured limits), and no call has revoked it. *)
Theorem grants_are_approved_and_bounded cs s now a permission s' :
  reached cs s → has_effective_permission_impl now a permission s = (Ok true, s') →
  ac_superuser a = true ∨ own_permission a (strip permission) = true ∨
  ∃ i r c u t m,
    gs_rows s !! i = Some r ∧ g_user r = ac_id a ∧ g_permission r = strip permission ∧
    c ∈ cs ∧ approval c = Some (i, u, t, m) ∧ authorised u (g_agency r) ∧
    now < t + m * 60000000 ∧
    5 <= m <= Z.max (_DEFAULT_APPROVAL_MINUTES environ) (_MAX_APPROVAL_MINUTES environ) ∧
    (∀ x, x ∈ cs → revokes x ≠ Some i).
Proof.
  intros Hre%reached_granted. unfold has_effective_permission_impl, _normalize_permission, bind, lift, ret, gets.
  case_bool_decide; [|done]. destruct (ac_superuser a); [by left|].
  destruct (own_permission a _); [by right; left|]. intros [= Hg _]. right. right.
  unfold granted in Hg. apply existsb_exists in Hg as ([i r] & Hin%list_elem_of_In%elem_of_map_to_list & Hr).
  cbn in Hr. apply andb_true_iff in Hr as [[Hu Hp]%andb_true_iff Ha].
  unfold active in Ha. apply andb_true_iff in Ha as [[Hst _]%andb_true_iff Hex].
  apply Z.eqb_eq in Hu. apply bool_decide_eq_true in Hp, Hst.
  destruct (gok_keys _ _ Hre _ _ Hin) as [Hkey _]. destruct (gok_rows _ _ Hre _ _ Hin) as [Happ Hrev].
  rewrite Hst in Happ. destruct Happ as (c & u & t & m & Hc & Hap & Hau & _ & _ & Hexp).
  rewrite Hkey in *. exists i, r, c, u, t, m. unfold unexpired in Hex. rewrite Hexp in Hex. apply Z.ltb_lt in Hex.
  repeat split; try done.
  - destruct c as [| | | | |]; try done; cbn in Hap; destruct approve; try done; injection Hap as _ _ _ <-; apply clamp_bounds.
  - destruct c as [| | | | |]; try done; cbn in Hap; destruct approve; try done; injection Hap as _ _ _ <-; apply clamp_bounds.
  - intros x Hx Hxi. rewrite (Hrev x Hx Hxi) in Hst. done.
Qed.
End Props.

(** ** A concrete history *)

Module Demo.
Definition owner : account := mkAccount 1 false "manager" true (Some 9) None false false.
Definition agent : account := mkAccount 2 false "agent" false (Some 9) (Some 1) false false.
Definition users : gmap Z account := {[1 := owner; 2 := agent]}.
Definition calls : list call :=
  [Request 0 0 (Some owner) 2 "can_import" None; Decide 60 60 (Some owner) 1 true None (Some 10)].
Definition final : grants := (perform [] (Decide 60 60 (Some owner) 1 true None (Some 10))
  (perform [] (Request 0 0 (Some owner) 2 "can_import" None) (no_grants users)).2).2.
Lemma final_reached : reached [] calls final.
Proof.
  apply (reached_call _ (Decide 60 60 (Some owner) 1 true None (Some 10)) [Request 0 0 (Some owner) 2 "can_import" None]
    (perform [] (Request 0 0 (Some owner) 2 "can_import" None) (no_grants users)).2); [|done|vm_compute; reflexivity].
  apply (reached_call _ _ [] (no_grants users)); [apply reached_start|done|vm_compute; reflexivity].
Qed.
(** The agent may import for ten minutes. *)
Example permission_window :
  map (λ now, (has_effective_permission_impl now agent "can_import" final).1) [60; 600000059; 600000060]
  = [Ok true; Ok true; Ok false].
Proof. vm_compute. reflexivity. Qed.
End Demo.

Lemma grants_are_approved_and_bounded_witness :
  ∃ i r c u t m, gs_rows Demo.final !! i = Some r ∧ g_user r = 2 ∧ g_permission r = "can_import" ∧
    c ∈ Demo.calls ∧ approval [] c = Some (i, u, t, m) ∧ authorised u (g_agency r) ∧
    60 < t + m * 60000000 ∧ 5 <= m <= 1440 ∧ (∀ x, x ∈ Demo.calls → revokes x ≠ Some i).
Proof.
  destruct (grants_are_approved_and_bounded [] Demo.calls Demo.final 60 Demo.agent "can_import" Demo.final
    Demo.final_reached eq_refl) as [H|[H|H]]; [discriminate H|discriminate H|exact H].
Defined.

(** The default duration is not clamped: a decision without a duration may exceed the maximum. *)
Example default_exceeds_maximum :
  let env := [("IMMOAPP_PRIVILEGE_ELEVATION_DEFAULT_MINUTES", "1440"); ("IMMOAPP_PRIVILEGE_ELEVATION_MAX_MINUTES", "60")] in
  _MAX_APPROVAL_MINUTES env = 60 ∧ _clamp_minutes env None = 1440 ∧ _clamp_minutes env (Some 1440) = 60.
Proof. vm_compute. done. Qed.
