(* ===== verification/TaskAttempts.v ===== *)
(** * Attempts of a background task

    Models src/server/services/task_attempt_lifecycle.py: the decisions on the JSON payload of an
    attempt.  [now_iso] is the time of the call, [new_id] the next [uuid4().hex]. *)

From S2P Require Import Prelude PyValue.
Local Open Scope Z_scope.

Definition ATTEMPT_PENDING : string := "pending".
Definition ATTEMPT_PUBLISHED : string := "published".
Definition ATTEMPT_PUBLISH_FAILED : string := "publish_failed".
Definition ATTEMPT_STARTED : string := "started".
Definition ATTEMPT_CANCEL_REQUESTED : string := "cancel_requested".
Definition ATTEMPT_COMPLETED : string := "completed".
Definition ATTEMPT_CONFLICT : string := "conflict".
Definition ATTEMPT_FAILED : string := "failed".
Definition ATTEMPT_CANCELLED : string := "cancelled".
Definition ATTEMPT_STALE_IGNORED : string := "stale_ignored".
(* src/server/services/task_attempt_lifecycle.py :: ATTEMPT_TERMINAL_STATUSES *)
Definition ATTEMPT_TERMINAL_STATUSES : list string :=
  [ATTEMPT_COMPLETED; ATTEMPT_CONFLICT; ATTEMPT_FAILED; ATTEMPT_CANCELLED; ATTEMPT_STALE_IGNORED].
Definition terminal (status : string) : bool := bool_decide (status ∈ ATTEMPT_TERMINAL_STATUSES).

(* src/server/services/task_attempt_lifecycle.py :: TaskAttemptStaleError *)
Definition TaskAttemptStaleError (attempt_type task_id status : string) : exn :=
  RuntimeError ("Stale task attempt ignored: attempt_type=" +:+ attempt_type +:+ " task_id=" +:+ task_id
                +:+ " status=" +:+ status).

(* src/server/services/task_attempt_lifecycle.py :: AttemptDecision *)
Record AttemptDecision := mkDecision { ad_payload : pydict; ad_status : string; ad_changed : bool; ad_reason : string }.

(** [str(payload.get(k, d) or d)] with the empty default. *)
Definition text (k : string) (p : pydict) : string := str_field k EmptyString p.
Definition status_of (p : pydict) : string := text "status" p.
Definition stored_task (p : pydict) : string := strip (text "task_id" p).

(* src/server/services/task_attempt_lifecycle.py :: _mapping *)
Definition _mapping (v : pyval) : pydict := match v with PDict d => d | _ => [] end.
(* src/server/services/task_attempt_lifecycle.py :: _task_id_matches *)
Definition _task_id_matches (payload : pydict) (task_id : option string) : bool :=
  let requested_task_id := strip (default EmptyString task_id) in
  str_empty requested_task_id || bool_decide (requested_task_id = stored_task payload).

(* src/server/services/task_attempt_lifecycle.py :: new_attempt_payload *)
Definition new_attempt_payload (attempt_type task_id now_iso new_id : string) (initial_payload : pydict)
    (status : string) : pydict :=
  let payload := dset "attempt_id" (PStr (str_or (text "attempt_id" initial_payload) new_id)) initial_payload in
  let payload := dset "attempt_type" (PStr attempt_type) payload in
  let payload := dset "task_id" (PStr task_id) payload in
  let payload := dset "status" (PStr (str_or status ATTEMPT_PENDING)) payload in
  let payload := dsetdefault "requested_at" (PStr now_iso) payload in
  let payload := dsetdefault "started_at" (PStr EmptyString) payload in
  let payload := dsetdefault "heartbeat_at" (PStr EmptyString) payload in
  let payload := dsetdefault "finished_at" (PStr EmptyString) payload in
  let payload := dsetdefault "cancel_requested_at" (PStr EmptyString) payload in
  dsetdefault "cancel_reason" (PStr EmptyString) payload.

(* src/server/services/task_attempt_lifecycle.py :: is_attempt_current *)
Definition is_attempt_current (payload : pydict) (task_id : option string) (require_started : bool) : AttemptDecision :=
  let status := status_of payload in
  let blocked := str_or status ATTEMPT_STALE_IGNORED in
  if negb (_task_id_matches payload task_id)
  then mkDecision payload ATTEMPT_STALE_IGNORED false "task_id_mismatch"
  else if terminal status || bool_decide (status = ATTEMPT_CANCEL_REQUESTED)
  then mkDecision payload blocked false blocked
  else if require_started && negb (bool_decide (status = ATTEMPT_STARTED))
  then mkDecision payload blocked false blocked
  else mkDecision payload status true EmptyString.

(* src/server/services/task_attempt_lifecycle.py :: claim_started_payload *)
Definition claim_started_payload (payload : pydict) (task_id : option string) (attempt_type now_iso new_id : string)
    (startable_statuses : list string) : AttemptDecision :=
  let stored_task_id := stored_task payload in
  let requested_task_id := strip (default EmptyString task_id) in
  let stale reason := mkDecision payload ATTEMPT_STALE_IGNORED false reason in
  let current_status := status_of payload in
  if str_empty stored_task_id then stale "missing_task_id"
  else if negb (str_empty requested_task_id) && negb (bool_decide (requested_task_id = stored_task_id))
  then stale "task_id_mismatch"
  else if terminal current_status || bool_decide (current_status = ATTEMPT_STARTED)
          || bool_decide (current_status = ATTEMPT_CANCEL_REQUESTED)
  then stale current_status
  else if negb (bool_decide (current_status ∈ startable_statuses)) then stale current_status
  else
    let p := dset "task_id" (PStr stored_task_id) payload in
    let p := dset "attempt_type" (PStr (str_or (text "attempt_type" p) attempt_type)) p in
    let p := dset "attempt_id" (PStr (str_or (text "attempt_id" p) new_id)) p in
    let p := dset "status" (PStr ATTEMPT_STARTED) p in
    let p := dset "started_at" (PStr (str_or (text "started_at" p) now_iso)) p in
    let p := dset "heartbeat_at" (PStr now_iso) p in
    mkDecision p ATTEMPT_STARTED true EmptyString.

(* src/server/services/task_attempt_lifecycle.py :: heartbeat_payload *)
Definition heartbeat_payload (payload : pydict) (task_id : option string) (now_iso : string) : AttemptDecision :=
  let current := is_attempt_current payload task_id true in
  if negb (ad_changed current) then current
  else mkDecision (dset "heartbeat_at" (PStr now_iso) (ad_payload current)) ATTEMPT_STARTED true EmptyString.

(* src/server/services/task_attempt_lifecycle.py :: cancel_payload *)
Definition cancel_payload (payload : pydict) (task_id : option string) (now_iso reason : string)
    (cancellable_statuses : list string) : AttemptDecision :=
  let current_status := status_of payload in
  if negb (_task_id_matches payload task_id)
  then mkDecision payload ATTEMPT_STALE_IGNORED false "task_id_mismatch"
  else if terminal current_status then mkDecision payload current_status false "terminal"
  else if negb (bool_decide (current_status ∈ cancellable_statuses))
  then mkDecision payload (str_or current_status ATTEMPT_STALE_IGNORED) false "not_cancellable"
  else
    let p := dset "status" (PStr ATTEMPT_CANCELLED) payload in
    let p := dset "cancel_requested_at" (PStr now_iso) p in
    let p := dset "cancel_reason" (PStr reason) p in
    let p := dset "finished_at" (PStr now_iso) p in
    mkDecision p ATTEMPT_CANCELLED true EmptyString.

(* src/server/services/task_attempt_lifecycle.py :: finish_payload *)
Definition finish_payload (payload : pydict) (task_id : option string)
    (attempt_type requested_status now_iso new_id : string) : AttemptDecision :=
  let status := str_or requested_status ATTEMPT_FAILED in
  let current_status := status_of payload in
  if negb (_task_id_matches payload task_id)
  then mkDecision payload ATTEMPT_STALE_IGNORED false "task_id_mismatch"
  else if terminal current_status
  then mkDecision payload current_status false
         (if bool_decide (status = current_status) then "terminal" else "terminal_conflict")
  else
    let p := dset "attempt_type" (PStr (str_or (text "attempt_type" payload) attempt_type)) payload in
    let p := dset "attempt_id" (PStr (str_or (text "attempt_id" p) new_id)) p in
    let p := dset "status" (PStr status) p in
    let p := dset "finished_at" (PStr now_iso) p in
    mkDecision p status true EmptyString.
