(* ===== verification/ReviewSubmit.v ===== *)
(** * The submission of a reviewed import

    Models src/server/services/import_review_submit_attempts.py and the dispatch envelope of
    import_review_submit_dispatch.py: the attempt that submits the review of an import, kept in the
    workflow payload of its job, the fence around the writes of the worker, and the publisher's
    marks.

    Each call locks the row of the job.  [D] is what the fenced writes change.  A job argument is
    the row of its id and agency; the workflow payload is a field of the row, and payloads are JSON
    values, on which [json_safe_value] is the identity. *)

From S2P Require Import Prelude PyValue TaskAttempts.
Local Open Scope Z_scope.

Definition ATTEMPT_REVIEW_SUBMIT : string := "review_submit".
Definition REVIEW_SUBMIT_ATTEMPT_WORKFLOW_KEY : string := "review_submit_dispatch".
(* src/server/services/import_review_submit_attempts.py :: REVIEW_SUBMIT_STARTABLE_STATUSES *)
Definition REVIEW_SUBMIT_STARTABLE_STATUSES : list string := [ATTEMPT_PENDING; ATTEMPT_PUBLISHED; ATTEMPT_PUBLISH_FAILED].

Record submit_job := mkSubmitJob { sj_id : string; sj_agency : Z; sj_task_id : string; sj_workflow : pydict }.

(* src/server/services/import_review_submit_attempts.py :: ReviewSubmitAttemptTransition *)
Record transition := mkTransition {
  tr_job : option submit_job; tr_payload : pydict; tr_status : string; tr_changed : bool; tr_reason : string
}.
Definition missing (reason : string) : transition := mkTransition None [] "missing" false reason.
Definition StaleImportTaskAttemptError (task_id : option string) (status : string) : exn :=
  TaskAttemptStaleError ATTEMPT_REVIEW_SUBMIT (default EmptyString task_id) status.

Section Submit.
Context {D : Type}.
(** The readings of the clock, as ISO texts, and of [uuid4().hex]. *)
Variable iso : nat → string.
Variable hex : nat → string.

Record submits := mkSubmits { sb_jobs : list submit_job; sb_data : D; sb_ticks : nat }.
Abbreviation SM := (M submits).

Definition set_jobs (js : list submit_job) (s : submits) : submits := mkSubmits js (sb_data s) (sb_ticks s).
Definition _now_iso : SM string := λ s, (Ok (iso (sb_ticks s)), mkSubmits (sb_jobs s) (sb_data s) (S (sb_ticks s))).
Definition uuid4_hex : SM string := λ s, (Ok (hex (sb_ticks s)), mkSubmits (sb_jobs s) (sb_data s) (S (sb_ticks s))).
(** A transaction: an exception undoes its writes (the clock goes on). *)
Definition atomic {A} (m : SM A) : SM A :=
  λ s, match m s with
       | (Ok a, s') => (Ok a, s')
       | (Err e, s') => (Err e, mkSubmits (sb_jobs s) (sb_data s) (sb_ticks s'))
       end.

Definition same_job (id : string) (agency : Z) (j : submit_job) : bool :=
  bool_decide (sj_id j = id) && (sj_agency j =? agency).
Definition find_job (id : string) (agency : Z) (s : submits) : option submit_job :=
  List.find (same_job id agency) (sb_jobs s).

(* src/server/services/import_review_submit_attempts.py :: _payload_from_workflow *)
Definition _payload_from_workflow (workflow : pydict) : pydict :=
  _mapping (get REVIEW_SUBMIT_ATTEMPT_WORKFLOW_KEY workflow).
(* src/server/services/import_review_submit_attempts.py :: review_submit_attempt_payload *)
Definition review_submit_attempt_payload (job : submit_job) : pydict := _payload_from_workflow (sj_workflow job).
(* src/server/services/import_review_submit_attempts.py :: _locked_job *)
Definition _locked_job (job : submit_job) : SM (option submit_job) := gets (find_job (sj_id job) (sj_agency job)).

Definition with_workflow (w : pydict) (j : submit_job) : submit_job :=
  mkSubmitJob (sj_id j) (sj_agency j) (sj_task_id j) w.
Definition save_workflow_payload (job : submit_job) (w : pydict) : SM unit :=
  modify (λ s, set_jobs (map (λ j, if same_job (sj_id job) (sj_agency job) j then with_workflow w j else j) (sb_jobs s)) s).
(* src/server/services/import_review_submit_attempts.py :: _save_attempt *)
Definition _save_attempt (job : submit_job) (workflow payload : pydict) : SM pydict :=
  do! save_workflow_payload job (dset REVIEW_SUBMIT_ATTEMPT_WORKFLOW_KEY (PDict payload) workflow) in
  ret payload.
(** [workflow.pop(key, None)] for each key *)
Definition pop_keys (keys : list string) (workflow : pydict) : pydict := foldl (λ w k, dpop k w) workflow keys.

(* src/server/services/import_review_submit_attempts.py :: begin_review_submit_attempt *)
Definition begin_review_submit_attempt (job : submit_job) (task_id : string) (initial_payload : pydict)
    (status : string) : SM pydict :=
  let! now := _now_iso in
  let! id := uuid4_hex in
  _save_attempt job (sj_workflow job)
    (new_attempt_payload ATTEMPT_REVIEW_SUBMIT task_id now id initial_payload status).

(** The task id of the job stands in for a missing one. *)
Definition with_task_id (job : submit_job) (payload : pydict) : pydict :=
  if str_empty (stored_task payload) then dset "task_id" (PStr (sj_task_id job)) payload else payload.

(* src/server/services/import_review_submit_attempts.py :: claim_review_submit_attempt_started *)
Definition claim_review_submit_attempt_started (session_id : string) (agency_id : Z) (task_id : option string)
  : SM transition :=
  atomic (
  let! found := gets (find_job session_id agency_id) in
  match found with
  | None => ret (missing "missing_job")
  | Some job =>
      let workflow := sj_workflow job in
      let payload := with_task_id job (_payload_from_workflow workflow) in
      let! now := _now_iso in
      let! id := uuid4_hex in
      let decision := claim_started_payload payload task_id ATTEMPT_REVIEW_SUBMIT now id REVIEW_SUBMIT_STARTABLE_STATUSES in
      if negb (ad_changed decision)
      then ret (mkTransition (Some job) payload (ad_status decision) false (ad_reason decision))
      else
        let! saved := _save_attempt job workflow (ad_payload decision) in
        ret (mkTransition (Some job) saved ATTEMPT_STARTED true EmptyString)
  end).

(* src/server/services/import_review_submit_attempts.py :: heartbeat_review_submit_attempt *)
Definition heartbeat_review_submit_attempt (job : submit_job) (task_id : option string) : SM transition :=
  atomic (
  let! locked := _locked_job job in
  match locked with
  | None => ret (missing EmptyString)
  | Some locked_job =>
      let workflow := sj_workflow locked_job in
      let payload := _payload_from_workflow workflow in
      let! now := _now_iso in
      let decision := heartbeat_payload payload task_id now in
      if negb (ad_changed decision)
      then ret (mkTransition (Some locked_job) payload (ad_status decision) false (ad_reason decision))
      else
        let! saved := _save_attempt locked_job workflow (ad_payload decision) in
        ret (mkTransition (Some locked_job) saved ATTEMPT_STARTED true EmptyString)
  end).

(* src/server/services/import_review_submit_attempts.py :: assert_review_submit_attempt_current *)
Definition assert_review_submit_attempt_current (job : submit_job) (task_id : option string) : SM submit_job :=
  let! t := heartbeat_review_submit_attempt job task_id in
  match tr_job t, tr_changed t with
  | Some j, true => ret j
  | _, _ => raise (StaleImportTaskAttemptError task_id (tr_status t))
  end.

(* src/server/services/import_review_submit_attempts.py :: run_with_review_submit_attempt_fence *)
Definition run_with_review_submit_attempt_fence {A} (job : submit_job) (task_id : option string)
    (fn : submit_job → SM A) : SM A :=
  atomic (
  let! locked := _locked_job job in
  match locked with
  | None => raise (StaleImportTaskAttemptError task_id "missing")
  | Some locked_job =>
      let workflow := sj_workflow locked_job in
      let payload := _payload_from_workflow workflow in
      let! now := _now_iso in
      let decision := heartbeat_payload payload task_id now in
      if negb (ad_changed decision) then raise (StaleImportTaskAttemptError task_id (ad_status decision))
      else
        let! _saved := _save_attempt locked_job workflow (ad_payload decision) in
        fn locked_job
  end).

(* src/server/services/import_review_submit_attempts.py :: request_review_submit_attempt_cancel *)
Definition request_review_submit_attempt_cancel (job : submit_job) (task_id : option string) (reason : string)
    (clear_workflow_keys : list string) : SM transition :=
  atomic (
  let! locked := _locked_job job in
  match locked with
  | None => ret (missing EmptyString)
  | Some locked_job =>
      let workflow := sj_workflow locked_job in
      let payload := with_task_id locked_job (_payload_from_workflow workflow) in
      let! now := _now_iso in
      let decision := cancel_payload payload task_id now reason [ATTEMPT_STARTED] in
      if negb (ad_changed decision)
      then ret (mkTransition (Some locked_job) payload (ad_status decision) false (ad_reason decision))
      else
        let! saved := _save_attempt locked_job (pop_keys clear_workflow_keys workflow) (ad_payload decision) in
        ret (mkTransition (Some locked_job) saved ATTEMPT_CANCELLED true EmptyString)
  end).

(* src/server/services/import_review_submit_attempts.py :: _finish_locked_attempt *)
Definition _finish_locked_attempt (job : submit_job) (workflow payload : pydict) (task_id : option string)
    (status : string) (clear_workflow_keys : list string) : SM (pydict * bool) :=
  let! now := _now_iso in
  let! id := uuid4_hex in
  let decision := finish_payload payload task_id ATTEMPT_REVIEW_SUBMIT status now id in
  if negb (ad_changed decision) then ret (ad_payload decision, false)
  else
    let! saved := _save_attempt job (pop_keys clear_workflow_keys workflow) (ad_payload decision) in
    ret (saved, true).

(* src/server/services/import_review_submit_attempts.py :: finish_review_submit_attempt_fresh *)
Definition finish_review_submit_attempt_fresh (job : submit_job) (task_id : option string) (status : string)
    (clear_workflow_keys : list string) : SM transition :=
  atomic (
  let! locked := _locked_job job in
  match locked with
  | None => ret (missing EmptyString)
  | Some locked_job =>
      let workflow := sj_workflow locked_job in
      let! r := _finish_locked_attempt locked_job workflow (_payload_from_workflow workflow) task_id status clear_workflow_keys in
      ret (mkTransition (Some locked_job) r.1 (str_or (status_of r.1) status) r.2 EmptyString)
  end).

(** The [finish_current] callback of a terminal section, which reads the payload it last saved. *)
(* src/server/services/import_review_submit_attempts.py :: run_review_submit_terminal_section.finish_current *)
Definition finish_current (locked_job : submit_job) (task_id : option string) (status : string)
    (keys_to_clear : list string) : SM pydict :=
  let! latest := _locked_job locked_job in
  let latest_workflow := match latest with Some j => sj_workflow j | None => [] end in
  let! r := _finish_locked_attempt locked_job latest_workflow (_payload_from_workflow latest_workflow) task_id status keys_to_clear in
  ret r.1.

(* src/server/services/import_review_submit_attempts.py :: run_review_submit_terminal_section *)
Definition run_review_submit_terminal_section {A} (job : submit_job) (task_id : option string)
    (success_status : string) (clear_workflow_keys : list string)
    (fn : submit_job → (string → list string → SM pydict) → SM A)
    (handle_exception : submit_job → exn → (string → list string → SM pydict) → SM A) : SM A :=
  atomic (
  let! locked := _locked_job job in
  match locked with
  | None => raise (StaleImportTaskAttemptError task_id "missing")
  | Some locked_job =>
      let workflow := sj_workflow locked_job in
      let payload := _payload_from_workflow workflow in
      let current := is_attempt_current payload task_id true in
      if negb (ad_changed current) then raise (StaleImportTaskAttemptError task_id (ad_status current))
      else
        let! now := _now_iso in
        let heartbeat := heartbeat_payload payload task_id now in
        let! _saved := _save_attempt locked_job workflow (ad_payload heartbeat) in
        let finish := finish_current locked_job task_id in
        let! result := catch (let! r := fn locked_job finish in ret (inl r))
                         (λ exc, Some (let! r := handle_exception locked_job exc finish in ret (inr r))) in
        match result with
        | inr handled => ret handled
        | inl r => let! _p := finish success_status clear_workflow_keys in ret r
        end
  end).

(** ** The publisher's marks *)

(* src/server/services/import_review_submit_dispatch.py :: _int_value *)
Definition _int_value (v : pyval) : res Z :=
  match v with
  | PBool b => Ok (if b then 1 else 0)
  | PInt z => Ok z
  | PFloat _ => py_int v
  | PStr s => if str_empty (strip s) then Ok 0 else py_int (PStr (strip s))
  | _ => Ok 0
  end.

(** One more publication was tried. *)
Definition count_publish (error : string) (dispatch : pydict) : SM pydict :=
  let! n := lift (_int_value (default (PInt 0) (dget "publish_attempt_count" dispatch))) in
  let dispatch := dset "publish_attempt_count" (PInt (n + 1)) dispatch in
  let! now := _now_iso in
  let set_error d := dset "last_error_code" (PStr error) d in
  let set_time d := dset "last_attempted_at" (PStr now) d in
  ret (if str_empty error then set_error (set_time dispatch) else set_time (set_error dispatch)).
(** The dispatch of the job, when it is the one of [task_id]. *)
Definition named_dispatch (job : submit_job) (task_id : string) : pydict * bool :=
  let dispatch := _payload_from_workflow (sj_workflow job) in
  (dispatch, bool_decide (text "task_id" dispatch = task_id)).

(* src/server/services/import_review_submit_dispatch.py :: _mark_review_submit_dispatch_published *)
Definition _mark_review_submit_dispatch_published (job : submit_job) (task_id : string) : SM pydict :=
  let '(dispatch, named) := named_dispatch job task_id in
  if negb named then ret dispatch
  else
    let status := status_of dispatch in
    if terminal status then ret dispatch
    else
      let d := if bool_decide (status = ATTEMPT_STARTED) then dispatch
               else dset "status" (PStr ATTEMPT_PUBLISHED) dispatch in
      let! d := (if str_empty (strip (text "published_at" d))
                 then let! now := _now_iso in ret (dset "published_at" (PStr now) d) else ret d) in
      let! d := count_publish EmptyString d in
      _save_attempt job (sj_workflow job) d.

(* src/server/services/import_review_submit_dispatch.py :: _mark_review_submit_dispatch_publish_failed *)
Definition _mark_review_submit_dispatch_publish_failed (job : submit_job) (task_id error_code : string) : SM pydict :=
  let '(dispatch, named) := named_dispatch job task_id in
  if negb named then ret dispatch
  else
    let status := status_of dispatch in
    if terminal status || bool_decide (status = ATTEMPT_STARTED) then ret dispatch
    else
      let d := dset "status" (PStr ATTEMPT_PUBLISH_FAILED) dispatch in
      let! d := count_publish (str_or error_code "review_submit_publish_failed") d in
      _save_attempt job (sj_workflow job) d.

(* src/server/services/import_review_submit_dispatch.py :: mark_review_submit_dispatch_published_fresh *)
Definition mark_review_submit_dispatch_published_fresh (job : submit_job) (task_id : string) : SM pydict :=
  atomic (
  let! locked := _locked_job job in
  match locked with None => ret [] | Some j => _mark_review_submit_dispatch_published j task_id end).
(* src/server/services/import_review_submit_dispatch.py :: mark_review_submit_dispatch_publish_failed_fresh *)
Definition mark_review_submit_dispatch_publish_failed_fresh (job : submit_job) (task_id error_code : string) : SM pydict :=
  atomic (
  let! locked := _locked_job job in
  match locked with None => ret [] | Some j => _mark_review_submit_dispatch_publish_failed j task_id error_code end).
End Submit.
Arguments submits : clear implicits.
