(* ===== verification/ReviewSubmitProps.v ===== *)
(** * A review is submitted once

    Over the calls of workers, publishers and the watchdog on one job, between two submissions. *)

From S2P Require Import Prelude PyValue TaskAttempts ReviewSubmit.
Local Open Scope Z_scope.

(** ** The decisions *)

Lemma text_dset k v p : text k (dset k (PStr v) p) = v.
Proof. unfold text, str_field, get. rewrite dget_dset_eq. apply py_or_str_self. Qed.
Lemma text_dset_ne k k' v p : k ≠ k' → text k (dset k' v p) = text k p.
Proof. intros Hk. unfold text, str_field, get. by rewrite dget_dset_ne. Qed.

(** A payload in a terminal status is never changed. *)
Lemma terminal_is_final p t :
  terminal (status_of p) = true →
  ad_changed (is_attempt_current p t true) = false
  ∧ (∀ now, ad_changed (heartbeat_payload p t now) = false)
  ∧ (∀ ty now id st, ad_changed (claim_started_payload p t ty now id st) = false)
  ∧ (∀ now reason st, ad_changed (cancel_payload p t now reason st) = false)
  ∧ (∀ ty st now id, ad_changed (finish_payload p t ty st now id) = false).
Proof.
  intros Ht. assert (ad_changed (is_attempt_current p t true) = false) as Hc.
  { unfold is_attempt_current. rewrite Ht. by destruct (negb (_task_id_matches p t)). }
  split; [done|]. repeat split; intros *.
  - unfold heartbeat_payload. by rewrite Hc.
  - unfold claim_started_payload. rewrite Ht. by repeat case_match.
  - unfold cancel_payload. rewrite Ht. by destruct (negb (_task_id_matches p t)).
  - unfold finish_payload. rewrite Ht. by destruct (negb (_task_id_matches p t)).
Qed.

(** A payload that is current stays current across a heartbeat, and can be finished. *)
Lemma current_finishes p t now1 ty st now2 id :
  ad_changed (is_attempt_current p t true) = true → terminal st = true →
  let h := ad_payload (heartbeat_payload p t now1) in
  ad_changed (heartbeat_payload p t now1) = true
  ∧ ad_changed (finish_payload h t ty st now2 id) = true
  ∧ status_of (ad_payload (finish_payload h t ty st now2 id)) = st.
Proof.
  intros Hc Hst. assert (is_attempt_current p t true = mkDecision p (status_of p) true EmptyString
    ∧ _task_id_matches p t = true ∧ terminal (status_of p) = false) as (E & Hm & Hn).
  { unfold is_attempt_current in *. destruct (_task_id_matches p t); [|done]. cbn in *.
    destruct (terminal (status_of p)); [done|]. cbn in *. destruct (bool_decide _); [done|].
    by destruct (negb _). }
  unfold heartbeat_payload. rewrite E. cbn [ad_changed ad_payload negb]. split; [done|].
  unfold finish_payload, _task_id_matches, stored_task, status_of in *.
  rewrite !(text_dset_ne "task_id" "heartbeat_at"), (text_dset_ne "status" "heartbeat_at") by done.
  rewrite Hm, Hn. cbn [ad_changed ad_payload negb]. split; [done|].
  rewrite (text_dset_ne "status" "finished_at") by done. rewrite text_dset.
  unfold str_or. by destruct st.
Qed.

Section Props.
Context {D : Type} (iso hex : nat → string).
(** The job. *)
Context (id : string) (agency : Z).

(** Its attempt. *)
Definition attempt (s : submits D) : pydict :=
  match find_job id agency s with Some j => review_submit_attempt_payload j | None => [] end.
Definition ended (s : submits D) : Prop := terminal (status_of (attempt s)) = true.

(** ** The calls *)

(** A write of the worker, on its own session. *)
Definition on_data {A} (fn : M D A) : M (submits D) A :=
  λ s, let '(r, d) := fn (sb_data s) in (r, mkSubmits (sb_jobs s) d (sb_ticks s)).
(** The handler of [run_review_submit_task]: it records the error and finishes the attempt. *)
Definition failure_handler (record : exn → M D unit) (status : exn → string) (keys : list string)
    (_ : submit_job) (e : exn) (finish : string → list string → M (submits D) pydict) : M (submits D) unit :=
  do! on_data (record e) in let! _p := finish (status e) keys in ret tt.

(** A call on the job; [task] is the id the caller claims to run under. *)
Inductive call : Type :=
  | Claim (task : option string)
  | Heartbeat (task : option string)
  | Write (task : option string) (fn : M D unit)
  | WriteAndFinish (task : option string) (fn : M D unit) (status : string) (keys : list string)
  | Section_ (task : option string) (success : string) (keys : list string) (fn : M D unit)
      (record : exn → M D unit) (failure : exn → string)
  | Cancel (task : option string) (reason : string) (keys : list string)
  | Finish (task : option string) (status : string) (keys : list string)
  | Published (task : string)
  | PublishFailed (task code : string).

(** Sections finish their attempt. *)
Definition finishes (c : call) : Prop :=
  match c with Section_ _ success _ _ _ failure => terminal success = true ∧ ∀ e, terminal (failure e) = true | _ => True end.

Definition job_arg (s : submits D) : submit_job :=
  default (mkSubmitJob id agency EmptyString []) (find_job id agency s).
Definition run_call (c : call) : M (submits D) unit :=
  let! s := gets (λ s, s) in
  let j := job_arg s in
  match c with
  | Claim task => let! _t := claim_review_submit_attempt_started iso hex id agency task in ret tt
  | Heartbeat task => let! _t := heartbeat_review_submit_attempt iso j task in ret tt
  | Write task fn => run_with_review_submit_attempt_fence iso j task (λ _, on_data fn)
  | WriteAndFinish task fn status keys =>
      run_with_review_submit_attempt_fence iso j task (λ locked,
        do! on_data fn in let! _t := finish_review_submit_attempt_fresh iso hex locked task status keys in ret tt)
  | Section_ task success keys fn record failure =>
      run_review_submit_terminal_section iso hex j task success keys (λ _ _, on_data fn)
        (failure_handler record failure keys)
  | Cancel task reason keys => let! _t := request_review_submit_attempt_cancel iso j task reason keys in ret tt
  | Finish task status keys => let! _t := finish_review_submit_attempt_fresh iso hex j task status keys in ret tt
  | Published task => let! _d := mark_review_submit_dispatch_published_fresh iso j task in ret tt
  | PublishFailed task code => let! _d := mark_review_submit_dispatch_publish_failed_fresh iso j task code in ret tt
  end.
(** The call applied the review: a section that returned. *)
Definition applied (c : call) (r : res unit) : bool := match c, r with Section_ _ _ _ _ _ _, Ok _ => true | _, _ => false end.
Fixpoint run_calls (cs : list call) (s : submits D) : nat * submits D :=
  match cs with
  | [] => (0%nat, s)
  | c :: cs' =>
      let '(r, s1) := run_call c s in
      let '(n, s') := run_calls cs' s1 in
      ((if applied c r then 1 else 0) + n, s')%nat
  end.

(** ** What a call can do to an attempt that has ended *)

Definition untouched (s s' : submits D) : Prop := sb_jobs s' = sb_jobs s ∧ sb_data s' = sb_data s.
Lemma untouched_attempt s s' : untouched s s' → attempt s' = attempt s.
Proof. intros [Hj _]. unfold attempt, find_job. by rewrite Hj. Qed.

Lemma find_job_key (s : submits D) j : find_job id agency s = Some j → sj_id j = id ∧ sj_agency j = agency.
Proof.
  intros [_ Hs]%List.find_some. unfold same_job in Hs. apply andb_true_iff in Hs as [H1 H2].
  by apply bool_decide_eq_true in H1; apply Z.eqb_eq in H2.
Qed.
Lemma find_job_arg s : find_job (sj_id (job_arg s)) (sj_agency (job_arg s)) s = find_job id agency s.
Proof.
  unfold job_arg. destruct (find_job id agency s) as [j|] eqn:E; cbn; [|done].
  by destruct (find_job_key s j E) as [-> ->].
Qed.

Lemma status_with_task_id j p : status_of (with_task_id j p) = status_of p.
Proof. unfold with_task_id, status_of. destruct (str_empty _); [|done]. by apply text_dset_ne. Qed.

(** A locked read, by argument or by key, finds the row. *)
Lemma locked_row s : _locked_job (job_arg s) s = (Ok (find_job id agency s), s).
Proof. unfold _locked_job, gets. by rewrite find_job_arg. Qed.

Ltac run_locked Ej := unfold atomic; rewrite (bind_ok _ _ _ _ _ (locked_row _)), Ej;
  unfold bind, ret, raise, gets, _now_iso, uuid4_hex.

Lemma ended_call c s :
  ended s → untouched s (run_call c s).2 ∧ applied c (run_call c s).1 = false.
Proof.
  unfold ended, attempt. destruct (find_job id agency s) as [j|] eqn:Ej; [|done]. intros He.
  change (terminal (status_of (_payload_from_workflow (sj_workflow j))) = true) in He.
  pose proof He as Hw. rewrite <- (status_with_task_id j) in Hw.
  unfold run_call. rewrite bind_gets. destruct c; try (unfold bind at 1).
  - destruct (terminal_is_final _ task Hw) as (_ & _ & Hc & _).
    unfold claim_review_submit_attempt_started, atomic. rewrite bind_gets, Ej. unfold bind, ret, _now_iso, uuid4_hex.
    by rewrite Hc.
  - destruct (terminal_is_final _ task He) as (_ & Hc & _).
    unfold heartbeat_review_submit_attempt. run_locked Ej. by rewrite Hc.
  - destruct (terminal_is_final _ task He) as (_ & Hc & _).
    unfold run_with_review_submit_attempt_fence. run_locked Ej. by rewrite Hc.
  - destruct (terminal_is_final _ task He) as (_ & Hc & _).
    unfold run_with_review_submit_attempt_fence. run_locked Ej. by rewrite Hc.
  - destruct (terminal_is_final _ task He) as (Hc & _).
    unfold run_review_submit_terminal_section. run_locked Ej. by rewrite Hc.
  - destruct (terminal_is_final _ task Hw) as (_ & _ & _ & Hc & _).
    unfold request_review_submit_attempt_cancel. run_locked Ej. by rewrite Hc.
  - destruct (terminal_is_final _ task He) as (_ & _ & _ & _ & Hc).
    unfold finish_review_submit_attempt_fresh, _finish_locked_attempt. run_locked Ej. by rewrite Hc.
  - unfold mark_review_submit_dispatch_published_fresh, _mark_review_submit_dispatch_published, named_dispatch.
    run_locked Ej. rewrite He. by destruct (negb _).
  - unfold mark_review_submit_dispatch_publish_failed_fresh, _mark_review_submit_dispatch_publish_failed, named_dispatch.
    run_locked Ej. rewrite He. by destruct (negb _).
Qed.

(** ** A section that returns ends the attempt *)

Lemma find_saved (s : submits D) job j w :
  same_job id agency job = true → find_job id agency s = Some j →
  find_job id agency (set_jobs (map (λ x, if same_job (sj_id job) (sj_agency job) x then with_workflow w x else x) (sb_jobs s)) s)
    = Some (with_workflow w j).
Proof.
  unfold same_job at 1. intros [H1 H2]%andb_true_iff. apply bool_decide_eq_true in H1. apply Z.eqb_eq in H2.
  rewrite H1, H2. unfold find_job. cbn [sb_jobs set_jobs].
  induction (sb_jobs s) as [|x l IH]; [done|]. cbn. destruct (same_job id agency x) eqn:Ex.
  - intros [= <-]. unfold same_job in *. cbn. by rewrite Ex.
  - by rewrite Ex.
Qed.
Lemma payload_saved p w : _payload_from_workflow (dset REVIEW_SUBMIT_ATTEMPT_WORKFLOW_KEY (PDict p) w) = p.
Proof. unfold _payload_from_workflow, get. by rewrite dget_dset_eq. Qed.

Lemma finish_current_run job j t st keys (s : submits D) :
  same_job id agency job = true → find_job id agency s = Some j →
  (∀ now new, ad_changed (finish_payload (_payload_from_workflow (sj_workflow j)) t ATTEMPT_REVIEW_SUBMIT st now new) = true
     ∧ status_of (ad_payload (finish_payload (_payload_from_workflow (sj_workflow j)) t ATTEMPT_REVIEW_SUBMIT st now new)) = st) →
  ∃ p s', finish_current iso hex job t st keys s = (Ok p, s') ∧ status_of (attempt s') = st.
Proof.
  intros Hjob Hj Hf. unfold finish_current. unfold bind at 1, _locked_job, gets.
  assert (find_job (sj_id job) (sj_agency job) s = Some j) as ->.
  { unfold same_job in Hjob. apply andb_true_iff in Hjob as [H1 H2].
    apply bool_decide_eq_true in H1. apply Z.eqb_eq in H2. by rewrite H1, H2. }
  unfold _finish_locked_attempt, _save_attempt, bind, ret, _now_iso, uuid4_hex.
  destruct (Hf (iso (sb_ticks s)) (hex (S (sb_ticks s)))) as [Hch Hst].
  cbn [sb_ticks]. rewrite Hch. cbn [negb]. eexists _, _. split; [done|].
  unfold attempt, save_workflow_payload, modify. cbn [snd]. rewrite (find_saved _ job j) by done.
  unfold review_submit_attempt_payload. cbn [sj_workflow with_workflow]. by rewrite payload_saved.
Qed.

Lemma same_job_found (s : submits D) j : find_job id agency s = Some j → same_job id agency j = true.
Proof. by intros [_ Hs]%List.find_some. Qed.
Lemma on_data_jobs {A} (fn : M D A) (s : submits D) r s' :
  on_data fn s = (r, s') → find_job id agency s' = find_job id agency s.
Proof. unfold on_data. destruct (fn (sb_data s)). by intros [= <- <-]. Qed.

Lemma section_ends task success keys fn record failure s s' :
  finishes (Section_ task success keys fn record failure) →
  run_call (Section_ task success keys fn record failure) s = (Ok tt, s') → ended s'.
Proof.
  intros [Hsuc Hfail]. unfold run_call. rewrite bind_gets.
  unfold run_review_submit_terminal_section, atomic. rewrite (bind_ok _ _ _ _ _ (locked_row _)).
  destruct (find_job id agency s) as [j|] eqn:Ej; [|done].
  destruct (ad_changed (is_attempt_current _ task true)) eqn:Ec; [|done]. cbn [negb].
  set (now := iso (sb_ticks s)). set (p := _payload_from_workflow (sj_workflow j)) in *.
  set (h := ad_payload (heartbeat_payload p task now)).
  set (w := dset REVIEW_SUBMIT_ATTEMPT_WORKFLOW_KEY (PDict h) (sj_workflow j)).
  set (s0 := mkSubmits (sb_jobs s) (sb_data s) (S (sb_ticks s))).
  set (s1 := set_jobs (map (λ x, if same_job (sj_id j) (sj_agency j) x then with_workflow w x else x) (sb_jobs s0)) s0).
  rewrite (bind_ok (_now_iso iso) _ s now s0) by done.
  rewrite (bind_ok (_save_attempt j (sj_workflow j) h) _ s0 h s1) by done.
  assert (find_job id agency s1 = Some (with_workflow w j)) as H1.
  { apply find_saved; [by eapply same_job_found|done]. }
  assert (∀ (s2 : submits D) st, find_job id agency s2 = find_job id agency s1 → terminal st = true →
    ∃ q s3, finish_current iso hex j task st keys s2 = (Ok q, s3) ∧ ended s3) as Hfin.
  { intros s2 st Hs2 Hst. destruct (finish_current_run j (with_workflow w j) task st keys s2) as (q & s3 & E & Hq).
    - by eapply same_job_found.
    - congruence.
    - intros now' new. cbn [sj_workflow with_workflow]. unfold w. rewrite payload_saved.
      by destruct (current_finishes p task now ATTEMPT_REVIEW_SUBMIT st now' new Ec Hst) as (_ & ? & ?).
    - exists q, s3. split; [done|]. unfold ended. by rewrite Hq. }
  unfold bind at 1, catch. unfold bind at 1. destruct (on_data fn s1) as [[[]|e] s2] eqn:Ef; pose proof (on_data_jobs _ _ _ _ Ef) as H2.
  - unfold bind at 1 2, ret at 1. destruct (Hfin s2 success H2 Hsuc) as (q & s3 & -> & He). cbn. by intros [= <-].
  - unfold bind at 1 2, failure_handler. unfold bind at 1.
    destruct (on_data (record e) s2) as [[[]|e'] s2'] eqn:Er; [|done]. pose proof (on_data_jobs _ _ _ _ Er) as H3.
    destruct (Hfin s2' (failure e)) as (q & s3 & E3 & He); [congruence|done|].
    unfold bind at 1. rewrite E3. cbn. by intros [= <-].
Qed.

Lemma ended_calls cs s :
  ended s → (run_calls cs s).1 = 0%nat ∧ untouched s (run_calls cs s).2.
Proof.
  revert s. induction cs as [|c cs IH]; intros s He; [done|]. cbn [run_calls].
  destruct (ended_call c s He) as [Hu Ha]. destruct (run_call c s) as [r s1]. cbn in Hu, Ha.
  assert (ended s1) as He1 by (unfold ended; by rewrite (untouched_attempt s s1)).
  destruct (IH s1 He1) as [Hn Hs]. destruct (run_calls cs s1) as [n s']. cbn in *. subst n. rewrite Ha.
  split; [done|]. destruct Hu, Hs. split; congruence.
Qed.

(** C5. A reviewed import is applied at most once.  Whatever calls workers, publishers and the
    watchdog make on a job between two submissions, in any order and under any task ids, at
    most one terminal section returns; when one has, or when the attempt has been cancelled or
    finished in any other way, the attempt is in a terminal status, and then no call changes
    the job or runs a write of a worker. *)
Theorem review_is_applied_once cs s :
  Forall finishes cs →
  ((run_calls cs s).1 ≤ 1)%nat ∧
  ((run_calls cs s).1 = 1%nat → ended (run_calls cs s).2) ∧
  (ended s → (run_calls cs s).1 = 0%nat ∧ untouched s (run_calls cs s).2).
Proof.
  intros Hf. assert (((run_calls cs s).1 ≤ 1)%nat ∧ ((run_calls cs s).1 = 1%nat → ended (run_calls cs s).2)) as [? ?];
    [|by repeat split; [..|apply ended_calls|apply ended_calls|apply ended_calls]].
  revert s. induction Hf as [|c cs Hc Hf IH]; intros s; cbn [run_calls]; [by cbn; split; [lia|]|].
  destruct (run_call c s) as [r s1] eqn:Er. destruct (applied c r) eqn:Ea.
  - assert (ended s1) as He1.
    { destruct c; try done. destruct r as [[]|]; [|done]. by eapply section_ends. }
    destruct (ended_calls cs s1 He1) as [Hn Hs]. destruct (run_calls cs s1) as [n s']. cbn in *. subst n.
    split; [lia|]. intros _. unfold ended. by rewrite (untouched_attempt s1 s').
  - specialize (IH s1). by destruct (run_calls cs s1) as [n s'].
Qed.
End Props.

(** ** A concrete submission *)

Module Demo.
Definition iso (n : nat) : string := "t" +:+ pretty n.
Definition hex (n : nat) : string := "h" +:+ pretty n.
Definition idle : submits nat := mkSubmits [mkSubmitJob "j" 1 "old" []] 0%nat 0.
Definition submitted : submits nat := (begin_review_submit_attempt iso hex (mkSubmitJob "j" 1 "old" []) "a" [] "pending" idle).2.
Definition write : M nat unit := modify S.
Definition section_of (task : string) : call := Section_ (Some task) "completed" ["review_submit"] write (λ _, ret tt) (λ _, "failed").
(** A delayed worker of another task, the worker itself twice, the publisher and the watchdog. *)
Definition calls : list call :=
  [Claim (Some "b"); Published "a"; Claim (Some "a"); section_of "b"; Heartbeat (Some "a"); section_of "a";
   section_of "a"; Published "a"; Cancel (Some "a") "stalled" []; Write (Some "a") write].
Lemma calls_finish : Forall finishes calls.
Proof. repeat constructor; intros; vm_compute; reflexivity. Qed.
(** The review is applied once, and the last statuses stay. *)
Example applied_once :
  let '(n, s) := run_calls iso hex "j" 1 calls submitted in
  (n, sb_data s, status_of (attempt "j" 1 s)) = (1%nat, 1%nat, "completed").
Proof. vm_compute. reflexivity. Qed.
End Demo.

Lemma review_is_applied_once_witness :
  Forall finishes Demo.calls ∧ ended "j" 1 (run_calls Demo.iso Demo.hex "j" 1 Demo.calls Demo.submitted).2.
Proof.
  split; [exact Demo.calls_finish|].
  apply (proj1 (proj2 (review_is_applied_once Demo.iso Demo.hex "j" 1 Demo.calls Demo.submitted Demo.calls_finish))).
  vm_compute. reflexivity.
Defined.
