(* ===== verification/Invites.v ===== *)
(** * Invitations to join an agency

    Models src/server/services/registration_invites.py with the helpers of registration_tokens.py
    and users_helpers.py it uses: the table [UserInvite] and the accounts it creates.

    Times are microseconds.  A name is its clear text (its encryption at rest is transparent); a
    cursor is the pair of its fields.  SHA-256, the password policy and the mail queue are
    parameters; the invitation mails and the generations bumped for the caches are the lists of
    what was sent. *)

From S2P Require Import Prelude PyValue PyFloat Environ Sessions Elevation.
Local Open Scope Z_scope.

(** An account with its sign-in names. *)
Record member := mkMember { mb_account : account; mb_username : string; mb_email : string; mb_active : bool }.

Inductive invite_status : Type := INVITE_PENDING | INVITE_ACCEPTED | INVITE_REVOKED | INVITE_EXPIRED.
#[export] Instance invite_status_eq_dec : EqDecision invite_status.
Proof. solve_decision. Defined.

(* src/server/accounts/models.py :: UserInvite *)
Record invite := mkInvite {
  in_id : Z;
  in_agency : Z;
  in_invited_by : option Z;
  in_name : string;
  in_email : string;
  in_role : string;
  in_manager : option Z;
  in_code_hash : string;
  in_status : invite_status;
  in_expires_at : Z;
  in_created_at : Z;
  in_last_sent_at : option Z;
  in_resend_count : Z;
  in_accepted_at : option Z;
  in_accepted_user : option Z
}.

(** [rg_next_user] is the next id of the users, [rg_codes] and [rg_uuids] count the readings of the
    random sources. *)
Record registry := mkRegistry {
  rg_members : list member;
  rg_next_user : Z;
  rg_invites : list invite;
  rg_mail : list (string * string);
  rg_bumps : list (string * Z);
  rg_codes : nat;
  rg_uuids : nat
}.
Abbreviation IM := (M registry).

Definition InviteResendCooldownError (retry_after_seconds : Z) : exn :=
  RuntimeError ("Invite resend cooldown active: " +:+ pretty (Z.max 1 retry_after_seconds)).
Definition EmailQueueUnavailableError (msg : string) : exn := RuntimeError msg.
Definition ValidationError (msg : string) : exn := OtherError ("ValidationError: " +:+ msg).

Definition set_invites (f : list invite → list invite) (s : registry) : registry :=
  mkRegistry (rg_members s) (rg_next_user s) (f (rg_invites s)) (rg_mail s) (rg_bumps s) (rg_codes s) (rg_uuids s).
(** A transaction: an exception undoes its writes; random values are not given back. *)
Definition atomic {A} (m : IM A) : IM A :=
  λ s, match m s with
       | (Ok a, s') => (Ok a, s')
       | (Err e, s') => (Err e, mkRegistry (rg_members s) (rg_next_user s) (rg_invites s) (rg_mail s) (rg_bumps s)
                                  (rg_codes s') (rg_uuids s'))
       end.
(** [invite.save()] *)
Definition save_invite (r : invite) : IM unit :=
  modify (set_invites (map (λ x, if in_id x =? in_id r then r else x))).

Definition with_status (st : invite_status) (r : invite) : invite :=
  mkInvite (in_id r) (in_agency r) (in_invited_by r) (in_name r) (in_email r) (in_role r) (in_manager r)
    (in_code_hash r) st (in_expires_at r) (in_created_at r) (in_last_sent_at r) (in_resend_count r)
    (in_accepted_at r) (in_accepted_user r).
Definition resent (hash : string) (now expires : Z) (r : invite) : invite :=
  mkInvite (in_id r) (in_agency r) (in_invited_by r) (in_name r) (in_email r) (in_role r) (in_manager r)
    hash (in_status r) expires (in_created_at r) (Some now) (in_resend_count r + 1)
    (in_accepted_at r) (in_accepted_user r).
Definition accepted (now uid : Z) (r : invite) : invite :=
  mkInvite (in_id r) (in_agency r) (in_invited_by r) (in_name r) (in_email r) (in_role r) (in_manager r)
    EmptyString INVITE_ACCEPTED (in_expires_at r) (in_created_at r) (in_last_sent_at r) (in_resend_count r)
    (Some now) (Some uid).

(* src/server/services/users_helpers.py :: ensure_manager_is_owner *)
Definition ensure_manager_is_owner (u : actor) (field : string) : res unit :=
  if is_superuser u then Ok tt
  else if is_owner u then Ok tt
  else Err (PermissionDeniedError ("Only an agency owner can modify " +:+ field +:+ ".")).
(* src/server/services/users_helpers.py :: require_same_agency *)
Definition require_same_agency (u : actor) (target_agency : option Z) : res unit :=
  if is_superuser u then Ok tt
  else match agency_id_of u, target_agency with
       | Some a, Some b => if a =? b then Ok tt else Err (PermissionDeniedError "User is outside your agency.")
       | _, _ => Err (PermissionDeniedError "User is outside your agency.")
       end.
(* src/server/services/users_helpers.py :: resolve_manager_id *)
Definition resolve_manager_id (u : actor) (desired_manager_id : option Z) : option Z :=
  if is_superuser u then desired_manager_id else if is_owner u then desired_manager_id else actor_id u.

Section Invites.
Variable environ : environment.
Variable sha256 : string → string.
Variable password_ok : string → bool.
(** [_generate_code] and [uuid4] read random values; [mail_queued] says whether the queue took the
    n-th mail. *)
Variable generate_code : nat → string.
Variable uuid4 : nat → Z.
Variable mail_queued : nat → bool.

Definition iexact (a b : string) : bool := bool_decide (upper a = upper b).
Definition find_member (uid : Z) (s : registry) : option member :=
  List.find (λ m, ac_id (mb_account m) =? uid) (rg_members s).
Definition email_taken (email : string) : IM bool := gets (λ s, existsb (λ m, iexact (mb_email m) email) (rg_members s)).

(* src/server/services/users_helpers.py :: validate_manager_assignment *)
Definition validate_manager_assignment (manager_id : option Z) (agency_id : option Z) : IM (option Z) :=
  match manager_id with
  | None => ret None
  | Some i =>
      let! manager := gets (find_member i) in
      match manager with
      | None => raise (NotFoundError "Manager not found.")
      | Some m =>
          if negb (bool_decide (ac_role (mb_account m) = "manager"))
          then raise (ValueError "Assigned manager must have role manager.")
          else if match agency_id with Some a => negb (bool_decide (ac_agency (mb_account m) = Some a)) | None => false end
          then raise (PermissionDeniedError "Manager must belong to the same agency.")
          else ret (Some i)
      end
  end.

(* src/server/services/registration_tokens.py :: _invite_expiry_hours *)
Definition _invite_expiry_hours (expires_seconds : option Z) : Z :=
  match expires_seconds with
  | None => _int_env environ "IMMOAPP_INVITE_CODE_EXPIRY_HOURS" 48 1 (24 * 14)
  | Some s => Z.max 1 (half_even (Z.max 900 (Z.min (7 * 24 * 3600) s)) 3600)
  end.
(* src/server/services/registration_tokens.py :: _invite_resend_cooldown_seconds *)
Definition _invite_resend_cooldown_seconds : Z :=
  _int_env environ "IMMOAPP_INVITE_RESEND_COOLDOWN_SECONDS" 3600 60 (24 * 3600).
Definition hours (n : Z) : Z := n * 3600000000.

Definition fresh_code : IM string :=
  λ s, (Ok (generate_code (rg_codes s)),
        mkRegistry (rg_members s) (rg_next_user s) (rg_invites s) (rg_mail s) (rg_bumps s) (S (rg_codes s)) (rg_uuids s)).
(* src/server/services/registration_lifecycle.py :: _queue_platform_email_or_raise *)
Definition _queue_platform_email_or_raise (to code : string) : IM unit :=
  let! n := gets (λ s, List.length (rg_mail s)) in
  if mail_queued n
  then modify (λ s, mkRegistry (rg_members s) (rg_next_user s) (rg_invites s) (rg_mail s ++ [(to, code)]) (rg_bumps s)
                      (rg_codes s) (rg_uuids s))
  else raise (EmailQueueUnavailableError "Email queue is unavailable.").

Definition bump_generation (surface : string) (scope : Z) : IM unit :=
  modify (λ s, mkRegistry (rg_members s) (rg_next_user s) (rg_invites s) (rg_mail s) (rg_bumps s ++ [(surface, scope)])
                 (rg_codes s) (rg_uuids s)).
(* src/server/services/registration_invites.py :: _bump_invite_generations_in_atomic *)
Definition _bump_invite_generations_in_atomic (agency_id : Z) (invited_by_id manager_id : option Z) : IM unit :=
  if 0 <? agency_id then
    do! bump_generation "invites_agency" agency_id in
    for_each (bump_generation "invites_actor")
      (remove_dups (List.filter (λ i, 0 <? i) (omap id [invited_by_id; manager_id])))
  else ret tt.
(* src/server/services/registration_invites.py :: _bump_users_generation_in_atomic *)
Definition _bump_users_generation_in_atomic (agency_id : Z) : IM unit :=
  if 0 <? agency_id then bump_generation "users" agency_id else ret tt.

(* src/server/services/registration_invites.py :: assert_invite_role_constraints_impl *)
Definition assert_invite_role_constraints_impl (role : string) (manager_id : option Z) : res unit :=
  if bool_decide (role = "agent") && bool_decide (manager_id = None)
  then Err (ValueError "manager_id is required for agent invites.")
  else if bool_decide (role = "manager") && negb (bool_decide (manager_id = None))
  then Err (ValueError "manager_id must be null for manager invites.")
  else if negb (bool_decide (role ∈ ["agent"; "manager"]))
  then Err (ValueError "role must be agent or manager.") else Ok tt.

Definition text_of (k : string) (data : pydict) : string := strip (str_field k EmptyString data).
Definition lowered (k : string) (data : pydict) : string := lower (text_of k data).
(** [isinstance(v, int)] *)
Definition as_int (v : pyval) : option Z :=
  match v with PInt z => Some z | PBool b => Some (if b then 1 else 0) | _ => None end.
(** The invited name: given, or made of the other names. *)
Definition invite_name_of (data : pydict) : string :=
  let invite_name := text_of "invite_name" data in
  if str_empty invite_name
  then str_or (strip (text_of "first_name" data +:+ " " +:+ text_of "last_name" data)) (text_of "username" data)
  else invite_name.

(* src/server/services/registration_invites.py :: create_user_invite_impl *)
Definition create_user_invite_impl (now created_at : Z) (u : actor) (data : pydict) : IM (Z * string) :=
  do! lift (require_manager u) in
  do! lift (ensure_manager_is_owner u "invite_create") in
  if truthy (get "is_owner" data) then raise (ValueError "Invites cannot grant owner access.")
  else
    let role := lowered "role" data in
    let manager_id_raw := get "manager_id" data in
    let manager_id := as_int manager_id_raw in
    if match manager_id_raw, manager_id with PNone, _ => false | _, None => true | _, Some _ => false end
    then raise (ValueError "manager_id must be an integer.")
    else
      match agency_id_of u with
      | None => raise (PermissionDeniedError "Actor agency is required.")
      | Some agency_id =>
          let! manager_id :=
            (if bool_decide (role = "agent") then
               match resolve_manager_id u manager_id with
               | None => raise (ValueError "manager_id is required for agent invites.")
               | Some m => validate_manager_assignment (Some m) (Some agency_id)
               end
             else ret manager_id) in
          do! lift (assert_invite_role_constraints_impl role manager_id) in
          let invite_email := lowered "email" data in
          if str_empty invite_email then raise (ValueError "email is required.")
          else
            let! taken := email_taken invite_email in
            if taken then raise (ValueError "A user with this email already exists.")
            else
              let invite_name := invite_name_of data in
              if str_empty invite_name then raise (ValueError "invite_name is required.")
              else
                let! code := fresh_code in
                let expires_at := now + hours (_invite_expiry_hours (as_int (get "expires_seconds" data))) in
                atomic (
                  let! id := gets (λ s, uuid4 (rg_uuids s)) in
                  let! clash := gets (λ s, existsb (λ r, in_id r =? id) (rg_invites s)) in
                  do! (if clash then raise IntegrityError else ret tt) in
                  let row := mkInvite id agency_id (actor_id u) invite_name invite_email role manager_id
                    (sha256 code) INVITE_PENDING expires_at created_at (Some now) 0 None None in
                  do! modify (λ s, mkRegistry (rg_members s) (rg_next_user s) (rg_invites s ++ [row]) (rg_mail s)
                                     (rg_bumps s) (rg_codes s) (S (rg_uuids s))) in
                  do! _queue_platform_email_or_raise invite_email code in
                  do! _bump_invite_generations_in_atomic agency_id (actor_id u) manager_id in
                  ret (id, code))
      end.

(* src/server/services/registration_tokens.py :: _parse_uuid *)
Definition _parse_uuid (text : string) : res Z :=
  match uuid_of_text text with Some v => Ok v | None => Err (PermissionDeniedError "Invalid or expired link.") end.
Definition may_see (u : actor) (r : invite) : bool :=
  bool_decide (in_manager r = actor_id u) || bool_decide (in_invited_by r = actor_id u).

(* src/server/services/registration_invites.py :: load_invite_for_actor_impl *)
Definition load_invite_for_actor_impl (u : actor) (invite_id : string) : IM invite :=
  do! lift (require_manager u) in
  let! invite_uuid := lift (_parse_uuid invite_id) in
  let! found := gets (λ s, List.find (λ r, in_id r =? invite_uuid) (rg_invites s)) in
  match found with
  | None => raise (NotFoundError "Invite not found.")
  | Some r =>
      do! lift (require_same_agency u (Some (in_agency r))) in
      if negb (is_superuser u) && negb (is_owner u) && negb (may_see u r)
      then raise (PermissionDeniedError "Forbidden invite scope.") else ret r
  end.

(** ** The list *)

(** [order_by("-created_at", "-id")] *)
Definition newer (r1 r2 : invite) : bool :=
  (in_created_at r2 <? in_created_at r1) || (in_created_at r1 =? in_created_at r2) && (in_id r2 <=? in_id r1).
(** [Q(created_at__lt=..) | (Q(created_at=..) & Q(id__lt=..))] *)
Definition after_cursor (cursor : option (Z * Z)) (r : invite) : bool :=
  match cursor with
  | None => true
  | Some (created_at, id) => (in_created_at r <? created_at) || (in_created_at r =? created_at) && (in_id r <? id)
  end.
Definition pending_for (now : Z) (u : actor) (agency_id : Z) (r : invite) : bool :=
  (in_agency r =? agency_id) && bool_decide (in_status r = INVITE_PENDING) && (now <? in_expires_at r)
  && (is_superuser u || is_owner u || may_see u r).

(* src/server/services/cursor_pagination.py :: normalize_limit *)
Definition normalize_limit (value : pyval) (dflt minimum maximum : Z) : Z :=
  match value with
  | PNone => dflt
  | _ => match parse_int (strip (py_str value)) with
         | None => dflt
         | Some parsed => if parsed <? minimum then minimum else if maximum <? parsed then maximum else parsed
         end
  end.

(* src/server/services/registration_invites.py :: list_pending_invites_page_impl *)
Definition list_pending_invites_page_impl (now : Z) (u : actor) (limit : pyval) (cursor : option (Z * Z))
  : IM (list invite * option (Z * Z) * bool) :=
  do! lift (require_manager u) in
  match agency_id_of u with
  | None => ret ([], None, false)
  | Some agency_id =>
      let normalized_limit := Z.to_nat (normalize_limit limit 50 1 200) in
      let! rows := gets (λ s, List.filter (λ r, pending_for now u agency_id r && after_cursor cursor r) (rg_invites s)) in
      let invites := take (S normalized_limit) (ssort newer rows) in
      let has_more := (normalized_limit <? List.length invites)%nat in
      let page := take normalized_limit invites in
      let next_cursor := if has_more then (λ r, (in_created_at r, in_id r)) <$> last page else None in
      ret (page, next_cursor, has_more)
  end.

(** The loop over the pages; [nows] are the readings of the clock, one for each. *)
Fixpoint list_pages (fuel : nat) (nows : nat → Z) (u : actor) (items : list invite) (cursor : option (Z * Z)) : IM (list invite) :=
  match fuel with
  | O => raise (RuntimeError "fuel")
  | S f =>
      let! r := list_pending_invites_page_impl (nows f) u (PInt 200) cursor in
      let '(page, next_cursor, has_more) := r in
      match next_cursor, has_more with
      | Some c, true => list_pages f nows u (items ++ page) (Some c)
      | _, _ => ret (items ++ page)
      end
  end.
(* src/server/services/registration_invites.py :: list_pending_invites_impl *)
Definition list_pending_invites_impl (fuel : nat) (nows : nat → Z) (u : actor) : IM (list invite) :=
  list_pages fuel nows u [] None.

(** ** Resending, revoking, accepting, expiring *)

(* src/server/services/registration_invites.py :: resend_invite_impl *)
Definition resend_invite_impl (now : Z) (u : actor) (invite_id : string) (expires_seconds : option Z) : IM (Z * string) :=
  atomic (
  let! r := load_invite_for_actor_impl u invite_id in
  if negb (bool_decide (in_status r = INVITE_PENDING)) then raise (ValueError "Invite is not pending.")
  else if in_expires_at r <=? now then
    do! save_invite (with_status INVITE_EXPIRED r) in raise (ValueError "Invite has expired.")
  else
    let next_allowed := match in_last_sent_at r with
                        | Some t => t + _invite_resend_cooldown_seconds * 1000000
                        | None => now
                        end in
    if now <? next_allowed then raise (InviteResendCooldownError ((next_allowed - now) / 1000000))
    else
      let! code := fresh_code in
      do! save_invite (resent (sha256 code) now (now + hours (_invite_expiry_hours expires_seconds)) r) in
      do! _queue_platform_email_or_raise (in_email r) code in
      do! _bump_invite_generations_in_atomic (in_agency r) (in_invited_by r) (in_manager r) in
      ret (in_id r, code)).

(* src/server/services/registration_invites.py :: revoke_invite_impl *)
Definition revoke_invite_impl (u : actor) (invite_id : string) : IM Z :=
  atomic (
  let! r := load_invite_for_actor_impl u invite_id in
  do! (if bool_decide (in_status r = INVITE_PENDING) then
         do! save_invite (with_status INVITE_REVOKED r) in
         _bump_invite_generations_in_atomic (in_agency r) (in_invited_by r) (in_manager r)
       else ret tt) in
  ret (in_id r)).

(** The invites a code of an address may accept, newest first. *)
Definition matching (email hash : string) (r : invite) : bool :=
  iexact (in_email r) email && bool_decide (in_code_hash r = hash) && bool_decide (in_status r = INVITE_PENDING).

(** [full_clean] and [save] of the new user; the database gives the id. *)
Definition create_member (email role : string) (agency : Z) (manager : option Z) (password : string) : IM member :=
  if negb (password_ok password) then raise (ValidationError "password")
  else
    let! clash := gets (λ s, existsb (λ m, bool_decide (mb_username m = email)) (rg_members s)) in
    if clash then raise (ValidationError "username")
    else
      let! uid := gets rg_next_user in
      let m := mkMember (mkAccount uid false role false (Some agency) manager false false) email email true in
      do! modify (λ s, mkRegistry (rg_members s ++ [m]) (uid + 1) (rg_invites s) (rg_mail s) (rg_bumps s)
                         (rg_codes s) (rg_uuids s)) in
      ret m.

(** The transaction of an acceptance; the tokens of the new user are a sign-in. *)
(* src/server/services/registration_invites.py :: accept_invite_impl *)
Definition accept_invite_impl (now : Z) (invite_code email password : string) : IM (member * invite) :=
  let normalized_email := lower (strip email) in
  let code_hash := sha256 (upper (strip invite_code)) in
  atomic (
  let! invite_qs := gets (λ s, ssort newer (List.filter (matching normalized_email code_hash) (rg_invites s))) in
  let found := match List.find (λ r, now <? in_expires_at r) invite_qs with
               | Some r => Some r
               | None => hd_error invite_qs
               end in
  match found with
  | None => raise (PermissionDeniedError "Invalid invite code.")
  | Some r =>
      if in_expires_at r <=? now then
        do! save_invite (with_status INVITE_EXPIRED r) in raise (PermissionDeniedError "Invite code expired.")
      else
        do! lift (assert_invite_role_constraints_impl (in_role r) (in_manager r)) in
        let! taken := email_taken normalized_email in
        if taken then raise (ValueError "A user with this email already exists.")
        else
          let! m := create_member normalized_email (in_role r) (in_agency r) (in_manager r) password in
          do! save_invite (accepted now (ac_id (mb_account m)) r) in
          do! _bump_invite_generations_in_atomic (in_agency r) (in_invited_by r) (in_manager r) in
          do! _bump_users_generation_in_atomic (in_agency r) in
          ret (m, r)
  end).

Definition overdue (now : Z) (r : invite) : bool := bool_decide (in_status r = INVITE_PENDING) && (in_expires_at r <=? now).
(* src/server/services/registration_invites.py :: expire_pending_invites_impl *)
Definition expire_pending_invites_impl (now : Z) : IM Z :=
  let! touched_rows := gets (λ s, List.filter (overdue now) (rg_invites s)) in
  do! modify (set_invites (map (λ r, if overdue now r then with_status INVITE_EXPIRED r else r))) in
  do! for_each (λ r, _bump_invite_generations_in_atomic (in_agency r) (in_invited_by r) (in_manager r)) touched_rows in
  ret (Z.of_nat (List.length touched_rows)).
End Invites.
