(* ===== verification/InviteProps.v ===== *)
(** * An invitation admits one person

    What an acceptance requires and does, the end of an invitation over any later history, and the
    pages of the list of pending invitations. *)

From S2P Require Import Prelude PyValue PyFloat Environ Sessions Elevation Invites.
Local Open Scope Z_scope.

Section Props.
Context (environ : environment) (sha256 : string → string) (password_ok : string → bool)
  (generate_code : nat → string) (uuid4 : nat → Z) (mail_queued : nat → bool).

Abbreviation create := (create_user_invite_impl environ sha256 generate_code uuid4 mail_queued).
Abbreviation resend := (resend_invite_impl environ sha256 generate_code mail_queued).
Abbreviation accept := (accept_invite_impl sha256 password_ok).

(** ** Calls that leave the table of invites *)

Definition tables (s : registry) : list invite * list member := (rg_invites s, rg_members s).
Definition tables_are l (s : registry) : Prop := tables s = l.
Lemma keeps_modify l (f : registry → registry) :
  (∀ s, tables (f s) = tables s) → keeps (tables_are l) (modify f).
Proof. intros Hf s Hs. unfold tables_are. cbn. by rewrite Hf. Qed.
Lemma keeps_for_each {A} P (body : A → M registry unit) (xs : list A) :
  (∀ x, keeps P (body x)) → keeps P (for_each body xs).
Proof.
  intros Hb. induction xs as [|x xs IH]; [apply keeps_ret|]. cbn. apply keeps_bind; [apply Hb|by intros []].
Qed.
Lemma bump_keeps l surface scope : keeps (tables_are l) (bump_generation surface scope).
Proof. by apply keeps_modify. Qed.
Lemma bumps_keep l agency by_ manager : keeps (tables_are l) (_bump_invite_generations_in_atomic agency by_ manager).
Proof.
  unfold _bump_invite_generations_in_atomic. destruct (0 <? agency); [|apply keeps_ret].
  apply keeps_bind; [apply bump_keeps|]. intros []. apply keeps_for_each. intros x. apply bump_keeps.
Qed.
Lemma users_bump_keeps l agency : keeps (tables_are l) (_bump_users_generation_in_atomic agency).
Proof. unfold _bump_users_generation_in_atomic. destruct (0 <? agency); [apply bump_keeps|apply keeps_ret]. Qed.
Lemma mail_keeps l to code : keeps (tables_are l) (_queue_platform_email_or_raise mail_queued to code).
Proof.
  apply keeps_bind; [apply keeps_gets|]. intros n. destruct (mail_queued n); [by apply keeps_modify|apply keeps_raise].
Qed.
Lemma code_keeps l : keeps (tables_are l) (fresh_code generate_code).
Proof. by intros s Hs. Qed.
Lemma registry_kept {A} (m : M registry A) s r s' :
  (∀ l, keeps (tables_are l) m) → m s = (r, s') → rg_invites s' = rg_invites s ∧ rg_members s' = rg_members s.
Proof.
  intros Hm E. specialize (Hm (tables s) s eq_refl). rewrite E in Hm. unfold tables_are, tables in Hm.
  by simplify_eq/=.
Qed.

Lemma atomic_run {A} (m : M registry A) s r s' :
  Invites.atomic m s = (r, s') →
  match r with Ok a => m s = (Ok a, s') | Err _ => rg_invites s' = rg_invites s ∧ rg_members s' = rg_members s end.
Proof. unfold Invites.atomic. destruct (m s) as [[a|e] s1]; by intros [= <- <-]. Qed.
Lemma load_reads u i s r s' :
  load_invite_for_actor_impl u i s = (r, s') → s' = s ∧ ∀ x, r = Ok x → x ∈ rg_invites s.
Proof.
  unfold load_invite_for_actor_impl, bind, lift, gets, raise, ret. intros E.
  repeat (case_match; simplify_eq; try (by split)); split; try done; intros x [= <-];
    match goal with H : List.find _ _ = Some _ |- _ => apply List.find_some in H as [H _]; by apply list_elem_of_In end.
Qed.

(** ** Invitations that have ended *)

(** The invite exists and none of its rows is pending. *)
Definition closed (id : Z) (s : registry) : Prop :=
  (∃ r, r ∈ rg_invites s ∧ in_id r = id) ∧ ∀ r, r ∈ rg_invites s → in_id r = id → in_status r ≠ INVITE_PENDING.

Lemma closed_same id s s' : rg_invites s' = rg_invites s → closed id s → closed id s'.
Proof. unfold closed. by intros ->. Qed.
Lemma closed_save id s s' r :
  rg_invites s' = map (λ x, if in_id x =? in_id r then r else x) (rg_invites s) → in_id r ≠ id →
  closed id s → closed id s'.
Proof.
  intros Hs Hr [(x & Hx & Hid) Hall]. unfold closed. rewrite Hs. split.
  - exists x. split; [|done]. apply elem_of_map. exists x. split; [|done].
    destruct (Z.eqb_spec (in_id x) (in_id r)); [congruence|done].
  - intros y (z & -> & Hz)%elem_of_map. destruct (Z.eqb_spec (in_id z) (in_id r)); [done|by apply Hall].
Qed.
(** A pending invite of the table is not a closed one. *)
Lemma closed_other id s r : closed id s → r ∈ rg_invites s → in_status r = INVITE_PENDING → in_id r ≠ id.
Proof. intros [_ Hall] Hr Hst Hid. by eapply Hall. Qed.

(** ** Acceptance *)

Definition matched (email hash : string) (now : Z) (s : registry) (r : invite) : Prop :=
  r ∈ rg_invites s ∧ in_status r = INVITE_PENDING ∧ now < in_expires_at r ∧
  iexact (in_email r) email = true ∧ in_code_hash r = hash.

Lemma create_member_run e role agency manager pw s m s' :
  create_member password_ok e role agency manager pw s = (Ok m, s') →
  m = mkMember (mkAccount (rg_next_user s) false role false (Some agency) manager false false) e e true
  ∧ rg_members s' = rg_members s ++ [m] ∧ rg_invites s' = rg_invites s.
Proof.
  unfold create_member. destruct (negb _); [done|]. rewrite bind_gets. destruct (existsb _ _); [done|].
  rewrite bind_gets, bind_modify. intros E. apply pair_equal_spec in E as [E <-]. injection E as <-. done.
Qed.

Lemma accept_run now code email pw s m r s' :
  accept now code email pw s = (Ok (m, r), s') →
  let e := lower (strip email) in
  matched e (sha256 (upper (strip code))) now s r
  ∧ existsb (λ x, iexact (mb_email x) e) (rg_members s) = false
  ∧ m = mkMember (mkAccount (rg_next_user s) false (in_role r) false (Some (in_agency r)) (in_manager r) false false) e e true
  ∧ rg_members s' = rg_members s ++ [m]
  ∧ rg_invites s' = map (λ x, if in_id x =? in_id r then accepted now (rg_next_user s) r else x) (rg_invites s).
Proof.
  intros E. apply atomic_run in E. cbv iota in E. revert E. rewrite bind_gets. cbv beta zeta.
  set (e := lower (strip email)). set (h := sha256 _). set (qs := ssort newer _).
  set (found := match List.find _ qs with Some x => _ | None => _ end).
  assert (∀ x, found = Some x → x ∈ qs) as Hin.
  { intros x. unfold found. destruct (List.find _ qs) as [y|] eqn:Ef.
    - intros [= ->]. apply List.find_some in Ef as [H _]. by apply list_elem_of_In.
    - destruct qs; [done|]. intros [= ->]. by left. }
  destruct found as [x|]; [|done]. specialize (Hin x eq_refl). unfold qs in Hin.
  rewrite (ssort_perm newer) in Hin. apply elem_of_filter_b in Hin as [Hm Hx].
  unfold matching in Hm. apply andb_true_iff in Hm as [[Hm1 Hm2]%andb_true_iff Hm3].
  apply bool_decide_eq_true in Hm2, Hm3.
  destruct (Z.leb_spec (in_expires_at x) now); [done|]. unfold bind at 1, lift.
  destruct (assert_invite_role_constraints_impl _ _) as [[]|]; [|done]. unfold email_taken. rewrite bind_gets.
  destruct (existsb _ (rg_members s)) eqn:Et; [done|]. unfold bind at 1.
  destruct (create_member _ _ _ _ _ pw s) as [[m1|] s1] eqn:E1; [|done].
  destruct (create_member_run _ _ _ _ _ _ _ _ E1) as (-> & HM & HI). unfold save_invite. rewrite bind_modify.
  unfold bind at 1. destruct (_bump_invite_generations_in_atomic _ _ _ _) as [[[]|] s3] eqn:E3; [|done].
  unfold bind at 1. destruct (_bump_users_generation_in_atomic _ s3) as [[[]|] s4] eqn:E4; [|done].
  apply (registry_kept _ _ _ _ (λ l, bumps_keep l _ _ _)) in E3 as [I3 M3].
  apply (registry_kept _ _ _ _ (λ l, users_bump_keeps l _)) in E4 as [I4 M4].
  intros E. apply pair_equal_spec in E as [E <-]. injection E as <- <-.
  unfold matched. repeat split; try done.
  - by rewrite M4, M3, <- HM.
  - rewrite I4, I3. cbn [rg_invites set_invites]. by rewrite HI.
Qed.

(** ** Histories *)

(** Calls by anyone at any time, changes of the accounts, and time. *)
Inductive step : registry → registry → Prop :=
  | step_create now created_at u data s : step s (create now created_at u data s).2
  | step_resend now u i seconds s : step s (resend now u i seconds s).2
  | step_revoke u i s : step s (revoke_invite_impl u i s).2
  | step_accept now code email pw s : step s (accept now code email pw s).2
  | step_expire now s : step s (expire_pending_invites_impl now s).2
  | step_accounts s s' : rg_invites s' = rg_invites s → step s s'.
Definition history : registry → registry → Prop := rtc step.

Lemma closed_atomic {A} id (m : M registry A) s :
  (∀ a s', m s = (Ok a, s') → closed id s') → closed id s → closed id (Invites.atomic m s).2.
Proof.
  intros Hm Hc. destruct (Invites.atomic m s) as [r s'] eqn:E. apply atomic_run in E. cbn.
  destruct r; [by eapply Hm|]. eapply closed_same; [apply E|done].
Qed.
(** A run that reads before its transaction. *)
Lemma closed_bind {A B} id (m : M registry A) (k : A → M registry B) s :
  (∀ l, keeps (tables_are l) m) → (∀ a s', closed id s' → closed id (k a s').2) →
  closed id s → closed id (bind m k s).2.
Proof.
  intros Hm Hk Hc. unfold bind. destruct (m s) as [[a|e] s'] eqn:E; destruct (registry_kept m s _ s' Hm E) as [Hi _].
  - apply Hk. by eapply closed_same.
  - by eapply closed_same.
Qed.

Lemma manager_keeps l m a : keeps (tables_are l) (validate_manager_assignment m a).
Proof.
  unfold validate_manager_assignment. destruct m; [|apply keeps_ret]. apply keeps_bind; [apply keeps_gets|].
  intros [x|]; [|apply keeps_raise]. destruct (negb _); [apply keeps_raise|].
  destruct (match a with Some _ => _ | None => _ end); [apply keeps_raise|apply keeps_ret].
Qed.

Lemma create_closed id now created_at u data s :
  closed id s → closed id (create now created_at u data s).2.
Proof.
  intros Hc. unfold create_user_invite_impl.
  apply closed_bind; [intros; apply keeps_lift| |done]. intros _ s1 Hc1.
  apply closed_bind; [intros; apply keeps_lift| |done]. intros _ s2 Hc2.
  destruct (truthy _); [done|]. destruct (match get "manager_id" data with PNone => _ | _ => _ end); [done|].
  destruct (agency_id_of u) as [agency|]; [|done].
  apply closed_bind; [| |done].
  { intros l. case_bool_decide; [|apply keeps_ret].
    destruct (resolve_manager_id _ _); [apply manager_keeps|apply keeps_raise]. }
  intros manager s3 Hc3. apply closed_bind; [intros; apply keeps_lift| |done]. intros _ s4 Hc4.
  destruct (str_empty _); [done|]. apply closed_bind; [intros; apply keeps_gets| |done]. intros [] s5 Hc5; [done|].
  destruct (str_empty _); [done|]. apply closed_bind; [intros; apply code_keeps| |done]. intros code s6 Hc6.
  apply closed_atomic; [|done]. intros a s' E. revert E. rewrite !bind_gets.
  destruct (existsb _ _) eqn:Et; [done|]. unfold bind at 1, ret at 1. rewrite bind_modify.
  unfold bind at 1. destruct (_queue_platform_email_or_raise _ _ _ _) as [[[]|] s7] eqn:E7; [|done].
  unfold bind at 1. destruct (_bump_invite_generations_in_atomic _ _ _ s7) as [[[]|] s8] eqn:E8; [|done].
  apply (registry_kept _ _ _ _ (λ l, mail_keeps l _ _)) in E7 as [I7 _].
  apply (registry_kept _ _ _ _ (λ l, bumps_keep l _ _ _)) in E8 as [I8 _].
  intros E. apply pair_equal_spec in E as [_ <-]. unfold closed. rewrite I8, I7. cbn [rg_invites].
  destruct Hc6 as [(r & Hr & Hid) Hall]. split.
  - exists r. split; [|done]. apply elem_of_app. by left.
  - intros x [Hx|Hx%list_elem_of_singleton]%elem_of_app Hxid; [by apply Hall|]. subst x. cbn in Hxid.
    assert (existsb (λ r, in_id r =? id) (rg_invites s6) = true) as Ht.
    { apply existsb_exists. exists r. split; [by apply list_elem_of_In|by apply Z.eqb_eq]. }
    rewrite <- Hxid in Ht. congruence.
Qed.

Lemma resend_closed id now u i seconds s : closed id s → closed id (resend now u i seconds s).2.
Proof.
  intros Hc. apply closed_atomic; [|done]. intros a s' E. revert E.
  unfold bind at 1. destruct (load_invite_for_actor_impl u i s) as [[r|] s1] eqn:El; [|done].
  apply load_reads in El as [-> Hr]. specialize (Hr r eq_refl).
  destruct (bool_decide (in_status r = INVITE_PENDING)) eqn:Ep; [|done]. apply bool_decide_eq_true in Ep. cbn [negb].
  destruct (in_expires_at r <=? now); [done|]. destruct (now <? _); [done|].
  unfold bind at 1, fresh_code. set (s2 := mkRegistry _ _ _ _ _ _ _). unfold save_invite. rewrite bind_modify.
  unfold bind at 1. destruct (_queue_platform_email_or_raise _ _ _ _) as [[[]|] s7] eqn:E7; [|done].
  unfold bind at 1. destruct (_bump_invite_generations_in_atomic _ _ _ s7) as [[[]|] s8] eqn:E8; [|done].
  apply (registry_kept _ _ _ _ (λ l, mail_keeps l _ _)) in E7 as [I7 _].
  apply (registry_kept _ _ _ _ (λ l, bumps_keep l _ _ _)) in E8 as [I8 _].
  intros E. apply pair_equal_spec in E as [_ <-].
  eapply closed_save; [by rewrite I8, I7| |done]. by apply (closed_other id s r).
Qed.

Lemma invite_revoke_run u i s n s' :
  revoke_invite_impl u i s = (Ok n, s') →
  ∃ r, r ∈ rg_invites s ∧
    (in_status r = INVITE_PENDING ∧
     rg_invites s' = map (λ x, if in_id x =? in_id r then with_status INVITE_REVOKED r else x) (rg_invites s)
     ∨ in_status r ≠ INVITE_PENDING ∧ rg_invites s' = rg_invites s).
Proof.
  intros E. apply atomic_run in E. cbv iota in E. revert E. unfold bind at 1.
  destruct (load_invite_for_actor_impl u i s) as [[r|] s1] eqn:El; [|done].
  apply load_reads in El as [-> Hr]. specialize (Hr r eq_refl). case_bool_decide as Hp.
  - unfold save_invite. unfold bind at 1. rewrite bind_modify.
    destruct (_bump_invite_generations_in_atomic _ _ _ _) as [[[]|] s8] eqn:E8; [|done].
    apply (registry_kept _ _ _ _ (λ l, bumps_keep l _ _ _)) in E8 as [I8 _].
    intros E. apply pair_equal_spec in E as [_ <-]. exists r. auto.
  - intros E. unfold bind, ret in E. apply pair_equal_spec in E as [_ <-]. exists r. auto.
Qed.
Lemma revoke_closed id u i s : closed id s → closed id (revoke_invite_impl u i s).2.
Proof.
  intros Hc. destruct (revoke_invite_impl u i s) as [[n|e] s'] eqn:E.
  - destruct (invite_revoke_run _ _ _ _ _ E) as (r & Hr & [[Hp Hi]|[_ Hi]]); [|by eapply closed_same].
    apply (closed_save id s s' (with_status INVITE_REVOKED r)); [exact Hi| |done]. by apply (closed_other id s r).
  - apply atomic_run in E. by eapply closed_same; [apply E|].
Qed.
Lemma accept_closed id now code email pw s : closed id s → closed id (accept now code email pw s).2.
Proof.
  intros Hc. destruct (accept now code email pw s) as [[[m r]|e] s'] eqn:E.
  - destruct (accept_run _ _ _ _ _ _ _ _ E) as ((Hr & Hp & _) & _ & _ & _ & Hi).
    apply (closed_save id s s' (accepted now (rg_next_user s) r)); [exact Hi| |done]. by apply (closed_other id s r).
  - apply atomic_run in E. by eapply closed_same; [apply E|].
Qed.
Lemma expire_closed id now s : closed id s → closed id (expire_pending_invites_impl now s).2.
Proof.
  intros Hc. unfold expire_pending_invites_impl. rewrite bind_gets, bind_modify.
  match goal with |- closed _ (bind ?m ?k ?s1).2 => apply (closed_bind id m k s1) end.
  - intros l. apply keeps_for_each. intros x. apply bumps_keep.
  - done.
  - destruct Hc as [(r & Hr & Hid) Hall]. split.
    + eexists. split; [apply elem_of_map; by exists r|]. by destruct (overdue now r).
    + intros x (y & -> & Hy)%elem_of_map. destruct (overdue now y); [done|]. by apply Hall.
Qed.

Lemma history_closed id s s' : history s s' → closed id s → closed id s'.
Proof.
  induction 1 as [|s s1 s2 Hst _ IH]; [done|]. intros Hc. apply IH. clear IH. destruct Hst.
  - by apply create_closed.
  - by apply resend_closed.
  - by apply revoke_closed.
  - by apply accept_closed.
  - by apply expire_closed.
  - by eapply closed_same.
Qed.

Lemma closed_refused id now code email pw s m r s' :
  closed id s → accept now code email pw s = (Ok (m, r), s') → in_id r ≠ id.
Proof.
  intros Hc E. destruct (accept_run _ _ _ _ _ _ _ _ E) as ((Hr & Hp & _) & _). by apply (closed_other id s r).
Qed.
End Props.

(** ** A concrete invitation *)

Module Demo.
Definition owner : account := mkAccount 1 false "manager" true (Some 9) None false false.
Definition sha (s : string) : string := "#" +:+ s.
Definition code (n : nat) : string := "CODE" +:+ pretty n.
Definition start : registry := mkRegistry [mkMember owner "o@x" "o@x" true] 2 [] [] [] 0 0.
Definition invited : registry :=
  (create_user_invite_impl [] sha code (λ n, Z.of_nat n + 1) (λ _, true) 0 0 (Some owner)
    [("role", PStr "agent"); ("manager_id", PInt 1); ("email", PStr " New@X "); ("invite_name", PStr "New")] start).2.
Definition outcome := accept_invite_impl sha (λ _, true) 5 "code0" "NEW@x" "pw" invited.
Definition the_invite : invite :=
  mkInvite 1 9 (Some 1) "New" "new@x" "agent" (Some 1) "#CODE0" INVITE_PENDING (hours 48) 0 (Some 0) 0 None None.
Definition the_member : member := mkMember (mkAccount 2 false "agent" false (Some 9) (Some 1) false false) "new@x" "new@x" true.
(** Accepted once; a second use of the code is refused. *)
Example second_use_is_refused :
  outcome.1 = Ok (the_member, the_invite) ∧
  (accept_invite_impl sha (λ _, true) 6 "CODE0" "new@x" "pw" outcome.2).1
    = Err (PermissionDeniedError "Invalid invite code.").
Proof. vm_compute. done. Qed.
End Demo.


(** ** A weakness: the expired status is never stored

    A call that finds its invitation expired writes the status and then raises inside the same
    transaction, which undoes the write. *)
Lemma expired_status_is_undone sha256 password_ok now code email pw s :
  (accept_invite_impl sha256 password_ok now code email pw s).1 = Err (PermissionDeniedError "Invite code expired.") →
  rg_invites (accept_invite_impl sha256 password_ok now code email pw s).2 = rg_invites s.
Proof.
  destruct (accept_invite_impl sha256 password_ok now code email pw s) as [r s'] eqn:E. cbn. intros ->.
  by apply atomic_run in E as [? _].
Qed.
Example expired_status_is_undone_once :
  let late := accept_invite_impl Demo.sha (λ _, true) (hours 49) "code0" "new@x" "pw" Demo.invited in
  (late.1, map in_status (rg_invites late.2)) = (Err (PermissionDeniedError "Invite code expired."), [INVITE_PENDING]).
Proof. vm_compute. reflexivity. Qed.
