(* ===== verification/InvitePages.v ===== *)
(** * The pages of pending invitations

    Keyset pagination: the pages follow each other in the order of the list, and the loop over them
    ends with every pending invitation once. *)

From S2P Require Import Prelude PyValue Elevation Invites.
Local Open Scope Z_scope.

Section Pages.
Context (now : Z) (u : actor) (agency_id : Z) (rows : list invite).
Hypothesis ids_unique : NoDup (map in_id rows).

(** The whole list, newest first. *)
Definition pending_list : list invite := ssort newer (List.filter (pending_for now u agency_id) rows).
(** What a page is taken from. *)
Definition rows_after (cursor : option (Z * Z)) : list invite :=
  ssort newer (List.filter (λ r, pending_for now u agency_id r && after_cursor cursor r) rows).
Definition key (r : invite) : Z * Z := (in_created_at r, in_id r).

Lemma newer_total x y : newer x y = false → newer y x = true.
Proof. unfold newer. lia. Qed.
Lemma newer_trans x y z : newer x y = true → newer y z = true → newer x z = true.
Proof. unfold newer. lia. Qed.
Lemma pending_sorted : StronglySorted (λ a b, newer a b = true) pending_list.
Proof. apply ssort_sorted; [apply newer_total|apply newer_trans]. Qed.
Lemma pending_in x : x ∈ pending_list → x ∈ rows.
Proof. unfold pending_list. rewrite (ssort_perm newer). by intros [_ ?]%elem_of_filter_b. Qed.
Lemma pending_NoDup : NoDup (map in_id pending_list).
Proof. unfold pending_list. rewrite (ssort_perm newer). by apply NoDup_map_filter. Qed.

Lemma sorted_app (R : relation invite) l1 x l2 :
  StronglySorted R (l1 ++ x :: l2) → Forall (λ a, R a x) l1 ∧ Forall (R x) l2 ∧ StronglySorted R l2.
Proof.
  induction l1 as [|y l1 IH]; intros Hs; inversion_clear Hs as [|?? Hs' Hy].
  - done.
  - destruct (IH Hs') as (H1 & H2 & H3). split; [|done]. constructor; [|done].
    rewrite Forall_forall in Hy. apply Hy, elem_of_app. right. by left.
Qed.

(** After the key of an element come exactly the elements behind it. *)
Lemma rows_after_key pre x rest : pending_list = pre ++ x :: rest → rows_after (Some (key x)) = rest.
Proof.
  intros HL. pose proof pending_sorted as Hs. pose proof pending_NoDup as Hnd.
  rewrite HL in Hs, Hnd. destruct (sorted_app _ _ _ _ Hs) as (Hpre & Hrest & Hsr).
  apply (sorted_unique newer).
  - intros a b Ha Hb Hab Hba. unfold rows_after in Ha, Hb. rewrite (ssort_perm newer) in Ha, Hb.
    apply elem_of_filter_b in Ha as [_ Ha], Hb as [_ Hb].
    apply (NoDup_map_inj_on in_id rows); [done..|]. unfold newer in *. lia.
  - apply ssort_sorted; [apply newer_total|apply newer_trans].
  - done.
  - unfold rows_after. rewrite (ssort_perm newer), <- filter_filter_b.
    rewrite <- (ssort_perm newer (List.filter (pending_for now u agency_id) rows)).
    fold pending_list. rewrite HL, List.filter_app. cbn [List.filter].
    rewrite (filter_none _ pre), (filter_all _ rest).
    + unfold after_cursor at 1, key. by rewrite Z.ltb_irrefl, Z.eqb_refl, Z.ltb_irrefl.
    + rewrite Forall_forall in Hrest |- *. intros b Hb. specialize (Hrest b Hb).
      assert (in_id b ≠ in_id x) as Hne.
      { rewrite map_app in Hnd. apply NoDup_app in Hnd as (_ & _ & Hnd). cbn in Hnd.
        apply NoDup_cons in Hnd as [Hnin _]. intros He. apply Hnin. rewrite <- He. apply elem_of_map. eauto. }
      unfold newer, after_cursor, key in *. cbn in *. lia.
    + rewrite Forall_forall in Hpre |- *. intros a Ha. specialize (Hpre a Ha).
      unfold newer, after_cursor, key in *. cbn in *. lia.
Qed.
Lemma rows_after_start : rows_after None = pending_list.
Proof.
  unfold rows_after, pending_list. f_equal. apply List.filter_ext. intros r. cbn. apply andb_true_r.
Qed.

(** ** One page *)

Lemma page_run limit cursor s n :
  rg_invites s = rows → require_manager u = Ok tt → agency_id_of u = Some agency_id →
  Z.to_nat (normalize_limit limit 50 1 200) = n → (0 < n)%nat →
  list_pending_invites_page_impl now u limit cursor s =
  (Ok (take n (rows_after cursor),
       if (n <? length (rows_after cursor))%nat then key <$> last (take n (rows_after cursor)) else None,
       (n <? length (rows_after cursor))%nat), s).
Proof.
  intros Hr Hm Ha Hn Hpos. unfold list_pending_invites_page_impl. rewrite Hm, Ha. unfold bind at 1, lift.
  rewrite bind_gets, Hr. fold (rows_after cursor). rewrite Hn.
  set (l := rows_after cursor).
  assert ((n <? length (take (S n) l))%nat = (n <? length l)%nat) as ->.
  { rewrite length_take. destruct (Nat.ltb_spec n (length l)); [apply Nat.ltb_lt|apply Nat.ltb_ge]; lia. }
  by rewrite take_take, Nat.min_l by lia.
Qed.

(** ** The loop *)

Lemma last_split (l : list invite) n :
  (0 < n)%nat → (n < length l)%nat → ∃ pre x, take n l = pre ++ [x] ∧ l = pre ++ x :: drop n l ∧ last (take n l) = Some x.
Proof.
  intros Hn Hl. destruct (List.exists_last (l := take n l)) as (pre & x & E).
  { intros E. apply (f_equal length) in E. rewrite length_take in E. cbn in E. lia. }
  exists pre, x. split; [done|]. split; [|by rewrite E, last_snoc].
  rewrite <- (take_drop n l) at 1. rewrite E, <- (assoc_L (++)). done.
Qed.

Lemma list_pages_run fuel items cursor pre rest s :
  rg_invites s = rows → require_manager u = Ok tt → agency_id_of u = Some agency_id →
  pending_list = pre ++ rest → rows_after cursor = rest → (length rest < 200 * fuel)%nat →
  list_pages fuel (λ _, now) u items cursor s = (Ok (items ++ rest), s).
Proof.
  intros Hr Hm Ha. revert items cursor pre rest.
  induction fuel as [|fuel IH]; intros items cursor pre rest HL Hc Hlen; [lia|]. cbn [list_pages].
  unfold bind. rewrite (page_run (PInt 200) cursor s 200) by (done || vm_compute; reflexivity || lia).
  rewrite Hc. destruct (Nat.ltb_spec 200 (length rest)) as [Hlt|Hge].
  - destruct (last_split rest 200) as (p & x & Htake & Hrest & ->); [lia|lia|]. cbn [fmap option_fmap option_map].
    change (Some (key x)) with (Some (key x)).
    rewrite (IH (items ++ take 200 rest) (Some (key x)) (pre ++ p ++ [x]) (drop 200 rest)).
    + by rewrite <- (assoc_L (++)), take_drop.
    + rewrite HL. rewrite Hrest at 1. by rewrite <- !(assoc_L (++)).
    + apply (rows_after_key (pre ++ p) x). rewrite HL. rewrite Hrest at 1. by rewrite (assoc_L (++)).
    + rewrite length_drop. lia.
  - by rewrite take_ge by lia.
Qed.
End Pages.

(** C40. The loop over the pages of pending invitations ends and misses nothing: with one turn for
    every two hundred rows and one more, it returns every pending, unexpired invitation that the
    actor may see, exactly once, newest first (and by id among those created together). *)
Theorem pages_cover_the_list now u agency_id fuel s :
  NoDup (map in_id (rg_invites s)) → require_manager u = Ok tt → agency_id_of u = Some agency_id →
  (length (rg_invites s) < 200 * fuel)%nat →
  ∃ l, list_pending_invites_impl fuel (λ _, now) u s = (Ok l, s) ∧
    NoDup l ∧ (∀ r, r ∈ l ↔ r ∈ rg_invites s ∧ pending_for now u agency_id r = true) ∧
    StronglySorted (λ a b, newer a b = true) l.
Proof.
  intros Hnd Hm Ha Hf. set (rows := rg_invites s). exists (pending_list now u agency_id rows). split; [|split; [|split]].
  - unfold list_pending_invites_impl.
    apply (list_pages_run now u agency_id rows Hnd fuel [] None [] (pending_list now u agency_id rows)); try done.
    + apply rows_after_start.
    + unfold pending_list. rewrite (Permutation_length (ssort_perm newer _)).
      pose proof (length_filter_le (pending_for now u agency_id) rows). unfold rows in *. lia.
  - eapply NoDup_of_map. apply pending_NoDup, Hnd.
  - intros r. unfold pending_list. rewrite (ssort_perm newer). rewrite elem_of_filter_b. tauto.
  - apply pending_sorted.
Qed.

(** ** Three invitations *)

Module Demo.
Definition owner : account := mkAccount 1 false "manager" true (Some 9) None false false.
Definition row (i created : Z) (st : invite_status) : invite :=
  mkInvite i 9 (Some 1) "n" "e@x" "manager" None "h" st 1000 created None 0 None None.
Definition reg : registry :=
  mkRegistry [] 1 [row 3 10 INVITE_PENDING; row 4 20 INVITE_REVOKED; row 5 30 INVITE_PENDING] [] [] 0 0.
Example two_pages :
  let '(r1, _) := list_pending_invites_page_impl 50 (Some owner) (PInt 1) None reg in
  let '(r2, _) := list_pending_invites_page_impl 50 (Some owner) (PInt 1) (Some (30, 5)) reg in
  (r1, r2) = (Ok ([row 5 30 INVITE_PENDING], Some (30, 5), true), Ok ([row 3 10 INVITE_PENDING], None, false)).
Proof. vm_compute. reflexivity. Qed.
End Demo.

Lemma pages_cover_the_list_witness :
  NoDup (map in_id (rg_invites Demo.reg)) ∧
  ∃ l, list_pending_invites_impl 1 (λ _, 50) (Some Demo.owner) Demo.reg = (Ok l, Demo.reg) ∧ NoDup l.
Proof.
  assert (NoDup (map in_id (rg_invites Demo.reg))) as Hnd by (apply (bool_decide_unpack _); vm_compute; exact I).
  split; [exact Hnd|].
  destruct (pages_cover_the_list 50 (Some Demo.owner) 9 1 Demo.reg Hnd eq_refl eq_refl) as (l & E & Hl & _).
  - cbn. lia.
  - exists l. split; [exact E|exact Hl].
Defined.
