(* ===== verification/Storage.v ===== *)
(** * Stored objects and the quota of an agency

    Models src/core/data/storage_objects.py and storage_events.py, and in src/server/services:
    storage_validation.py, storage_ops_upload_helpers.py, storage_ops_upload_presign.py,
    storage_ops_upload_bytes.py, storage_ops_maintenance.py and storage_ops_access.py: the tables
    [storage_objects], [storage_usage] and [storage_events].

    Times are microseconds; [now] is the time of the transaction.  The column [updated_at], which
    nothing reads, is left out, and [size_bytes] is never null, as every writer stores an integer.
    The answers of the object store and of the scanners are arguments; the objects it was told to
    delete are a list.  Row-level security hides the rows of other agencies, which is no more than
    a caller that does not find them. *)

From S2P Require Import Prelude PyValue.
Local Open Scope Z_scope.

Inductive storage_status : Type := OBJECT_PENDING | OBJECT_READY | OBJECT_FAILED | OBJECT_DELETED | OBJECT_PURGED.
#[export] Instance storage_status_eq_dec : EqDecision storage_status.
Proof. solve_decision. Defined.

Record storage_object := mkObject {
  so_id : string;
  so_agency : Z;
  so_user : Z;
  so_role : string;
  so_bucket : string;
  so_key : string;
  so_content_type : option string;
  so_size : Z;
  so_checksum : option string;
  so_purpose : string;
  so_status : storage_status;
  so_ip : option string;
  so_created_at : Z;
  so_deleted_at : option Z;
  so_version : Z
}.
(** Who makes a call, for the audit trail. *)
Record caller := mkCaller { ca_user : option Z; ca_role : option string; ca_ip : option string }.
Record storage_event := mkEvent { ev_storage : string; ev_type : string; ev_caller : caller; ev_details : pydict }.

Record storage := mkStorage {
  sg_objects : list storage_object;
  sg_usage : gmap Z Z;
  sg_events : list storage_event;
  sg_deletes : list (string * string)
}.
Abbreviation SM := (M storage).

(* src/server/services/storage_errors.py :: StorageError *)
Definition StorageError (msg : string) : exn := RuntimeError msg.
Definition ClientError : exn := OtherError "ClientError".
Definition UniqueViolation : exn := OtherError "UniqueViolation".
Definition CheckViolation : exn := OtherError "CheckViolation".
Definition ForeignKeyViolation : exn := OtherError "ForeignKeyViolation".

(** The settings of storage_config.py that the modelled code reads. *)
(* src/server/services/storage_config.py :: StorageConfig *)
Record storage_config := mkConfig {
  cf_bucket : string;
  cf_max_file_bytes : Z;
  cf_max_import_bytes : Z;
  cf_max_offer_photo_bytes : Z;
  cf_max_agency_media_bytes : Z;
  cf_agency_quota_bytes : option Z;
  cf_user_daily_max_files : option Z;
  cf_virus_scan : bool;
  cf_presign_default_seconds : Z
}.

Definition set_objects (f : list storage_object → list storage_object) (s : storage) : storage :=
  mkStorage (f (sg_objects s)) (sg_usage s) (sg_events s) (sg_deletes s).
Definition set_usage (f : gmap Z Z → gmap Z Z) (s : storage) : storage :=
  mkStorage (sg_objects s) (f (sg_usage s)) (sg_events s) (sg_deletes s).
(** [with get_uow().transaction()]: an exception undoes the writes. *)
Definition transaction {S A} (m : M S A) : M S A :=
  λ s, match m s with (Ok a, s') => (Ok a, s') | (Err e, _) => (Err e, s) end.

Definition with_status (st : storage_status) (deleted_at : option Z) (o : storage_object) : storage_object :=
  mkObject (so_id o) (so_agency o) (so_user o) (so_role o) (so_bucket o) (so_key o) (so_content_type o)
    (so_size o) (so_checksum o) (so_purpose o) st (so_ip o) (so_created_at o) deleted_at (so_version o + 1).
Definition completed (content_type : option string) (size : Z) (checksum : option string) (o : storage_object) : storage_object :=
  let or_else a b := match a with Some _ => a | None => b end in
  mkObject (so_id o) (so_agency o) (so_user o) (so_role o) (so_bucket o) (so_key o)
    (or_else content_type (so_content_type o)) size (or_else checksum (so_checksum o)) (so_purpose o)
    OBJECT_READY (so_ip o) (so_created_at o) (so_deleted_at o) (so_version o + 1).
Definition with_checksum (c : string) (o : storage_object) : storage_object :=
  mkObject (so_id o) (so_agency o) (so_user o) (so_role o) (so_bucket o) (so_key o) (so_content_type o)
    (so_size o) (Some c) (so_purpose o) (so_status o) (so_ip o) (so_created_at o) (so_deleted_at o) (so_version o).

Definition has_id (id : string) (o : storage_object) : bool := bool_decide (so_id o = id).
Definition find_object (id : string) (l : list storage_object) : option storage_object := List.find (has_id id) l.
(** [UPDATE storage_objects SET ... WHERE id = %s AND ...] *)
Definition update_objects (p : storage_object → bool) (f : storage_object → storage_object) : SM unit :=
  modify (set_objects (map (λ o, if p o then f o else o))).
Definition sizes (p : storage_object → bool) (l : list storage_object) : Z :=
  foldr Z.add 0 (map so_size (List.filter p l)).

(** ** The rows (src/core/data) *)

(* src/core/data/storage_objects.py :: create_storage_object *)
Definition create_storage_object (agency now : Z) (new_id bucket object_key : string) (user : Z) (role purpose : string)
    (content_type : option string) (size : Z) (checksum ip : option string) : SM string :=
  let! objects := gets sg_objects in
  if negb (bool_decide (role ∈ ["super_admin"; "manager"; "agent"])) then raise CheckViolation
  else if existsb (λ o, bool_decide (so_bucket o = bucket) && bool_decide (so_key o = object_key)) objects
  then raise UniqueViolation
  else
    do! modify (set_objects (λ l, l ++ [mkObject new_id agency user role bucket object_key content_type size
                                          checksum purpose OBJECT_PENDING ip now None 1])) in
    ret new_id.
(* src/core/data/storage_objects.py :: mark_storage_ready *)
Definition data_mark_storage_ready (id : string) (content_type : option string) (size : Z) (checksum : option string) : SM unit :=
  update_objects (has_id id) (completed content_type size checksum).
(* src/core/data/storage_objects.py :: mark_storage_failed *)
Definition data_mark_storage_failed (id : string) (message : string) : SM unit :=
  do! update_objects (has_id id) (λ o, with_status OBJECT_FAILED (so_deleted_at o) o) in
  if str_empty message then ret tt else update_objects (has_id id) (with_checksum (String.substring 0 512 message)).
(** The size of the row of [id], or 0: what [UPDATE ... RETURNING size_bytes] gives. *)
Definition returned_size (o : option storage_object) : Z := match o with Some o => so_size o | None => 0 end.
(* src/core/data/storage_objects.py :: mark_storage_deleted *)
Definition data_mark_storage_deleted (now : Z) (id : string) : SM Z :=
  let! row := gets (λ s, find_object id (sg_objects s)) in
  do! update_objects (has_id id) (with_status OBJECT_DELETED (Some now)) in
  ret (returned_size row).
Definition restorable (id : string) (o : storage_object) : bool :=
  has_id id o && bool_decide (so_status o = OBJECT_DELETED) && bool_decide (is_Some (so_deleted_at o)).
(* src/core/data/storage_objects.py :: restore_deleted_storage *)
Definition data_restore_deleted_storage (id : string) : SM Z :=
  let! row := gets (λ s, List.find (restorable id) (sg_objects s)) in
  do! update_objects (restorable id) (with_status OBJECT_READY None) in
  ret (returned_size row).
(* src/core/data/storage_objects.py :: mark_storage_purged *)
Definition mark_storage_purged (id : string) : SM unit :=
  update_objects (has_id id) (λ o, with_status OBJECT_PURGED (so_deleted_at o) o).
(** [referenced] says which objects rows of offer_photos refer to (ON DELETE RESTRICT); the events
    of the object go with it. *)
(* src/core/data/storage_objects.py :: delete_storage_object *)
Definition delete_storage_object (referenced : string → bool) (id : string) : SM Z :=
  let! row := gets (λ s, find_object id (sg_objects s)) in
  if referenced id then raise ForeignKeyViolation
  else
    do! modify (λ s, mkStorage (List.filter (λ o, negb (has_id id o)) (sg_objects s)) (sg_usage s)
                       (List.filter (λ e, negb (bool_decide (ev_storage e = id))) (sg_events s)) (sg_deletes s)) in
    ret (returned_size row).
(* src/core/data/storage_objects.py :: get_storage_object *)
Definition get_storage_object (id : string) : SM (option storage_object) := gets (λ s, find_object id (sg_objects s)).

Definition by_time (f : storage_object → Z) (a b : storage_object) : bool := f a <=? f b.
(* src/core/data/storage_objects.py :: list_deleted_storage_objects *)
Definition list_deleted_storage_objects (now older_than_days : Z) (limit : nat) : SM (list storage_object) :=
  gets (λ s, take limit (ssort (by_time (λ o, default 0 (so_deleted_at o)))
    (List.filter (λ o, bool_decide (so_status o = OBJECT_DELETED)
                       && match so_deleted_at o with
                          | Some d => d <? now - older_than_days * 86400000000
                          | None => false
                          end) (sg_objects s)))).
(* src/core/data/storage_objects.py :: list_pending_storage_objects *)
Definition list_pending_storage_objects (now older_than_hours : Z) (limit : nat) : SM (list storage_object) :=
  gets (λ s, take limit (ssort (by_time so_created_at)
    (List.filter (λ o, bool_decide (so_status o = OBJECT_PENDING)
                       && (so_created_at o <? now - older_than_hours * 3600000000)) (sg_objects s)))).
(* src/core/data/storage_objects.py :: get_total_usage_bytes *)
Definition get_total_usage_bytes (agency : option Z) (s : storage) : Z :=
  sizes (λ o, bool_decide (so_status o = OBJECT_READY)
              && match agency with Some a => so_agency o =? a | None => true end) (sg_objects s).
(** A row that falls to zero is removed. *)
(* src/core/data/storage_objects.py :: bump_storage_usage *)
Definition bump_storage_usage (agency delta : Z) : SM unit :=
  modify (set_usage (λ u,
    let total := match u !! agency with Some t => Z.max (t + delta) 0 | None => Z.max delta 0 end in
    if total <=? 0 then delete agency u else <[agency := total]> u)).
(* src/core/data/storage_objects.py :: get_usage_for_agency *)
Definition get_usage_for_agency (agency : Z) (s : storage) : Z := default 0 (sg_usage s !! agency).
Definition reserved (agency : Z) (o : storage_object) : bool :=
  (so_agency o =? agency) && bool_decide (so_status o ∈ [OBJECT_READY; OBJECT_PENDING]).
(* src/core/data/storage_objects.py :: get_reserved_usage_for_agency *)
Definition get_reserved_usage_for_agency (agency : Z) (s : storage) : Z := sizes (reserved agency) (sg_objects s).
(* src/core/data/storage_objects.py :: count_recent_uploads *)
Definition count_recent_uploads (now user since_hours : Z) (s : storage) : Z :=
  Z.of_nat (List.length (List.filter (λ o, (so_user o =? user) && (now - since_hours * 3600000000 <=? so_created_at o))
                           (sg_objects s))).

(* src/core/data/storage_events.py :: insert_storage_event *)
Definition insert_storage_event (id type : string) (who : caller) (details : pydict) : SM unit :=
  modify (λ s, mkStorage (sg_objects s) (sg_usage s) (sg_events s ++ [mkEvent id type who details]) (sg_deletes s)).

(** ** Limits *)

(** The parts of a path between slashes. *)
Fixpoint path_parts (acc s : string) : list string :=
  match s with
  | EmptyString => [acc]
  | String c s' => if (code c =? 47)%N then acc :: path_parts EmptyString s' else path_parts (acc +:+ String c EmptyString) s'
  end.
(** [Path(s).name] *)
Definition path_name (s : string) : string :=
  default EmptyString (last (List.filter (λ p, negb (str_empty p) && negb (bool_decide (p = "."))) (path_parts EmptyString s))).
Fixpoint from_last_dot (s : string) : option string :=
  match s with
  | EmptyString => None
  | String c s' => match from_last_dot s' with
                   | Some r => Some r
                   | None => if (code c =? 46)%N then Some s else None
                   end
  end.
Fixpoint lstrip_dots (s : string) : string :=
  match s with String c s' => if (code c =? 46)%N then lstrip_dots s' else s | EmptyString => EmptyString end.
(** [Path(s).suffix]: leading dots of the name do not start one. *)
Definition path_suffix (s : string) : string := default EmptyString (from_last_dot (lstrip_dots (path_name s))).

(* src/core/contracts/offer_photo_media.py :: OFFER_PHOTO_PURPOSE *)
Definition OFFER_PHOTO_PURPOSE : string := "offer_photo".
Definition image_rules : list string * list string :=
  ([".png"; ".jpg"; ".jpeg"; ".bmp"], ["image/png"; "image/jpeg"; "image/bmp"]).
(* src/server/services/storage_validation.py :: _ALLOWED_PURPOSES *)
Definition _ALLOWED_PURPOSES : list (string * (list string * list string)) :=
  [("import", ([".csv"; ".tsv"; ".txt"; ".xlsx"; ".ods"],
     ["text/csv"; "application/vnd.ms-excel"; "text/tab-separated-values"; "text/plain";
      "application/vnd.openxmlformats-officedocument.spreadsheetml.sheet";
      "application/vnd.oasis.opendocument.spreadsheet"]));
   ("import_artifact", ([".json"; ".jsonl"], ["application/json"; "application/x-ndjson"; "text/plain"]));
   ("agency_logo", image_rules); ("agency_signature", image_rules); (OFFER_PHOTO_PURPOSE, image_rules)].
(* src/server/services/storage_validation.py :: validate_purpose *)
Definition validate_purpose (purpose : string) (filename content_type : option string) : res unit :=
  match dget purpose _ALLOWED_PURPOSES with
  | None => Err (StorageError "Unsupported upload purpose.")
  | Some (exts, content_types) =>
      let ext := lower (path_suffix (default EmptyString filename)) in
      let ctype := default EmptyString content_type in
      if negb (str_empty ext) && negb (bool_decide (ext ∈ exts))
      then Err (StorageError "File type not allowed for this upload.")
      else if negb (str_empty ctype) && negb (bool_decide (ctype ∈ content_types))
      then Err (StorageError "Content type not allowed for this upload.")
      else Ok tt
  end.

Section Storage.
Variable config : storage_config.

(* src/server/services/storage_validation.py :: _max_bytes_for_purpose *)
Definition _max_bytes_for_purpose (purpose : string) (default_max : Z) : Z :=
  if bool_decide (purpose = "import") then Z.min (cf_max_import_bytes config) default_max
  else if bool_decide (purpose = "import_artifact") then Z.min (cf_max_import_bytes config) default_max
  else if bool_decide (purpose = OFFER_PHOTO_PURPOSE) then Z.min (cf_max_offer_photo_bytes config) default_max
  else if bool_decide (purpose ∈ ["agency_logo"; "agency_signature"]) then Z.min (cf_max_agency_media_bytes config) default_max
  else default_max.
(* src/server/services/storage_validation.py :: enforce_limits *)
Definition enforce_limits (now size agency : Z) (user : option Z) (purpose : string) : SM unit :=
  if size <=? 0 then raise (StorageError "File is empty.")
  else if _max_bytes_for_purpose purpose (cf_max_file_bytes config) <? size
  then raise (StorageError "File exceeds the maximum allowed size.")
  else
    let! used := gets (get_reserved_usage_for_agency agency) in
    if match cf_agency_quota_bytes config with Some q => q <? used + size | None => false end
    then raise (StorageError "Storage quota exceeded for agency.")
    else match cf_user_daily_max_files config, user with
         | Some m, Some u =>
             let! recent := gets (count_recent_uploads now u 24) in
             if m <=? recent then raise (StorageError "Daily upload limit reached for user.") else ret tt
         | _, _ => ret tt
         end.

(** ** Uploads *)

(** [import_artifact] objects leave no events. *)
Definition audited (purpose id type : string) (who : caller) (details : pydict) : SM unit :=
  if bool_decide (purpose = "import_artifact") then ret tt else insert_storage_event id type who details.

(* src/server/services/storage_ops_upload_helpers.py :: create_storage_record *)
Definition create_storage_record (agency now : Z) (new_id object_key : string) (who : caller) (purpose : string)
    (content_type : option string) (size : Z) (checksum : option string) : SM string :=
  match ca_user who with
  | None => raise (StorageError "user_id is required for storage ownership.")
  | Some user =>
      let role := default EmptyString (ca_role who) in
      if str_empty role then raise (StorageError "role is required for storage ownership.")
      else transaction (
        do! enforce_limits now size agency (Some user) purpose in
        let! id := create_storage_object agency now new_id (cf_bucket config) object_key user role purpose
                     content_type size checksum (ca_ip who) in
        do! audited purpose id "created" who [("purpose", PStr purpose); ("object_key", PStr object_key)] in
        ret id)
  end.
(* src/server/services/storage_ops_upload_helpers.py :: mark_storage_failed *)
Definition mark_storage_failed (id message : string) (who : caller) (purpose : string) (details : pydict) : SM unit :=
  transaction (
    do! data_mark_storage_failed id message in
    audited purpose id "failed" who (match details with [] => [("error", PStr message)] | _ => details end)).
(* src/server/services/storage_ops_upload_helpers.py :: mark_storage_ready *)
Definition mark_storage_ready (id : string) (content_type : option string) (size : Z) (checksum : option string)
    (agency : Z) (who : caller) (purpose : string) : SM unit :=
  transaction (
    do! data_mark_storage_ready id content_type size checksum in
    do! bump_storage_usage agency size in
    audited purpose id "ready" who [("size_bytes", PInt size)]).

(** [hex] is the text of a new uuid. *)
(* src/server/services/storage_ops_upload_utils.py :: build_object_key *)
Definition build_object_key (hex : string) (agency : Z) (purpose : string) (filename : option string) : string :=
  "agency/" +:+ pretty agency +:+ "/" +:+ purpose +:+ "/" +:+ hex +:+ "_"
    +:+ str_or (path_name (default EmptyString filename)) "blob".

(** The object store: [delete_object] answers whether the call succeeded; the call is recorded. *)
Variable delete_answer : string → string → bool.
Definition delete_object (o : storage_object) : SM bool :=
  do! modify (λ s, mkStorage (sg_objects s) (sg_usage s) (sg_events s) (sg_deletes s ++ [(so_bucket o, so_key o)])) in
  ret (delete_answer (so_bucket o) (so_key o)).

(** What the download, the validators and the scanner answer on an uploaded object: a refusal is a
    [StorageError], of the validator of images or of another. *)
Inductive inspection : Type := Accepted | Refused (image : bool) (msg : string) | Crashed (e : exn).

(** [record] is the row read before; [head] the answer of the object store (length, type, tag). *)
(* src/server/services/storage_ops_upload_presign.py :: complete_presigned_upload *)
Definition complete_presigned_upload (record : option storage_object) (head : option (Z * option string * option string))
    (inspect : inspection) (who : caller) : SM (string * Z * option string) :=
  match record with
  | None => raise (StorageError "Object not found.")
  | Some record =>
      match head with
      | None => raise (StorageError "Failed to confirm upload.")
      | Some (size, content_type, tag) =>
          let fail marker details :=
            mark_storage_failed (so_id record) marker who (so_purpose record) details in
          if size <=? 0 then raise (StorageError "Uploaded object is empty.")
          else if (cf_max_file_bytes config <? size) || (negb (so_size record =? 0) && (so_size record <? size)) then
            let! ok := delete_object record in
            if negb ok then raise ClientError
            else
              do! fail "size_limit" [("error", PStr "size_limit")] in
              raise (StorageError "Uploaded object exceeds allowed size.")
          else
            do! lift (validate_purpose (so_purpose record) (Some (so_key record)) content_type) in
            do! (if cf_virus_scan config || bool_decide (so_purpose record ∈ ["import"; OFFER_PHOTO_PURPOSE]) then
                   match inspect with
                   | Accepted => ret tt
                   | Crashed e => raise e
                   | Refused image msg =>
                       let marker := if image then "image_validation" else "virus_scan" in
                       let! _ := delete_object record in
                       do! fail marker [("error", PStr marker); ("message", PStr msg)] in
                       raise (StorageError msg)
                   end
                 else ret tt) in
            do! mark_storage_ready (so_id record) content_type size tag (so_agency record) who (so_purpose record) in
            ret (so_id record, size, content_type)
      end
  end.

(** The answer of the object store to a new object; the bucket may not be ready yet. *)
Inductive put_answer : Type := Stored | Rejected (msg : string) | NotReady (e : exn).
(** [scan] is the answer of the scanner, [put] that of the object store. *)
(* src/server/services/storage_ops_upload_bytes.py :: store_bytes *)
Definition store_bytes (agency now : Z) (new_id hex : string) (scan : res unit) (put : put_answer) (digest : string)
    (size : Z) (filename content_type : option string) (purpose : string) (who : caller) : SM string :=
  do! lift (validate_purpose purpose filename content_type) in
  do! lift scan in
  let object_key := build_object_key hex agency purpose filename in
  let! id := create_storage_record agency now new_id object_key who purpose content_type size None in
  match put with
  | NotReady e => raise e
  | Rejected msg =>
      do! mark_storage_failed id msg who purpose [] in
      raise (StorageError "Failed to store object.")
  | Stored =>
      do! mark_storage_ready id content_type size (Some digest) agency who purpose in
      ret id
  end.

(** ** Maintenance *)

Definition owner (o : storage_object) : caller := mkCaller (Some (so_user o)) (Some (so_role o)) (so_ip o).

(** One row of the purge, read before. *)
(* src/server/services/storage_ops_maintenance.py :: purge_deleted_objects [28-44] *)
Definition purge_one (row : storage_object) : SM bool :=
  let! ok := delete_object row in
  if negb ok then ret false
  else
    do! transaction (
      do! mark_storage_purged (so_id row) in
      insert_storage_event (so_id row) "purged" (owner row) []) in
    ret true.
Fixpoint purge_rows (rows : list storage_object) (deleted : Z) : SM Z :=
  match rows with
  | [] => ret deleted
  | row :: rest => let! ok := purge_one row in purge_rows rest (if ok then deleted + 1 else deleted)
  end.
(* src/server/services/storage_ops_maintenance.py :: purge_deleted_objects *)
Definition purge_deleted_objects (now older_than_days : Z) (limit : nat) : SM Z :=
  let! rows := list_deleted_storage_objects now older_than_days limit in
  purge_rows rows 0.

(* src/server/services/storage_ops_maintenance.py :: purge_pending_objects [58-76] *)
Definition expire_one (row : storage_object) : SM unit :=
  let! _ := delete_object row in
  transaction (
    do! data_mark_storage_failed (so_id row) "pending_timeout" in
    insert_storage_event (so_id row) "expired" (owner row) []).
(* src/server/services/storage_ops_maintenance.py :: purge_pending_objects *)
Definition purge_pending_objects (now older_than_hours : Z) (limit : nat) : SM Z :=
  let! rows := list_pending_storage_objects now older_than_hours limit in
  do! for_each expire_one rows in
  ret (Z.of_nat (List.length rows)).

Definition size_details (size : Z) : pydict := [("size_bytes", PInt size)].
(* src/server/services/storage_ops_maintenance.py :: mark_storage_deleted *)
Definition mark_storage_deleted (now : Z) (id : string) (who : caller) : SM Z :=
  transaction (
    let! record := get_storage_object id in
    match record with
    | None => raise (StorageError "Object not found.")
    | Some record =>
        if bool_decide (so_status record = OBJECT_DELETED) then ret 0
        else
          let! size := data_mark_storage_deleted now id in
          do! (if size =? 0 then ret tt else bump_storage_usage (so_agency record) (- size)) in
          do! insert_storage_event id "deleted" who (size_details size) in
          ret size
    end).
(* src/server/services/storage_ops_maintenance.py :: restore_deleted_storage *)
Definition restore_deleted_storage (id : string) (who : caller) : SM Z :=
  transaction (
    let! record := get_storage_object id in
    match record with
    | None => raise (StorageError "Object not found.")
    | Some record =>
        if negb (bool_decide (so_status record = OBJECT_DELETED)) then ret 0
        else
          let! size := data_restore_deleted_storage id in
          do! (if size =? 0 then ret tt else bump_storage_usage (so_agency record) size) in
          do! insert_storage_event id "restored" who (size_details size) in
          ret size
    end).
(** [record] is the row read before. *)
(* src/server/services/storage_ops_maintenance.py :: purge_storage_object_now *)
Definition purge_storage_object_now (referenced : string → bool) (record : option storage_object) : SM Z :=
  match record with
  | None => ret 0
  | Some record =>
      let! _ := delete_object record in
      transaction (
        let! bytes := delete_storage_object referenced (so_id record) in
        do! (if bool_decide (so_status record = OBJECT_READY) && negb (bytes =? 0)
             then bump_storage_usage (so_agency record) (- bytes) else ret tt) in
        ret bytes)
  end.

(** ** Access *)

(** The location, the lifetime and the name of a signed download link. *)
(* src/server/services/storage_ops_access.py :: generate_download_url *)
Definition generate_download_url (id : string) (expires_seconds : option Z) (filename : option string) :
    SM (string * string * Z * option string) :=
  let! record := get_storage_object id in
  match record with
  | None => raise (StorageError "Object not found.")
  | Some record =>
      if negb (bool_decide (so_status record = OBJECT_READY)) then raise (StorageError "Object not ready.")
      else
        let ttl := match expires_seconds with
                   | Some t => if t =? 0 then cf_presign_default_seconds config else t
                   | None => cf_presign_default_seconds config
                   end in
        ret (so_bucket record, so_key record, ttl,
             match filename with Some f => if str_empty f then None else Some f | None => None end)
  end.
(** [fetched]: the answer of the object store, with its announced length and its body. *)
(* src/server/services/storage_ops_access.py :: fetch_small_bytes *)
Definition fetch_small_bytes (id : string) (max_bytes : Z) (fetched : option (Z * list N * option string)) :
    SM (string * list N * option string) :=
  if max_bytes <=? 0 then raise (ValueError "max_bytes must be > 0")
  else
    let! record := get_storage_object id in
    match record with
    | None => raise (StorageError "Object not found.")
    | Some record =>
        if negb (bool_decide (so_status record = OBJECT_READY)) then raise (StorageError "Object not ready.")
        else if max_bytes <? so_size record then raise (StorageError "Object exceeds inline byte limit.")
        else match fetched with
             | None => raise (StorageError "Failed to load object.")
             | Some (content_length, body, content_type) =>
                 if max_bytes <? content_length then raise (StorageError "Object exceeds inline byte limit.")
                 else
                   let body := take (Z.to_nat (max_bytes + 1)) body in
                   if max_bytes <? Z.of_nat (List.length body)
                   then raise (StorageError "Object exceeds inline byte limit.")
                   else ret (so_key record, body, content_type)
             end
    end.
End Storage.
