(* ===== verification/StorageProps.v ===== *)
(** * The ledger of stored objects

    The usage counter of every agency is the size of its ready objects: what each operation on the
    tables does to that, and to the bytes reserved against the quota. *)

From S2P Require Import Prelude PyValue Storage.
Local Open Scope Z_scope.

(** ** Rows replaced by id *)

Definition replace (id : string) (f : storage_object → storage_object) (l : list storage_object) : list storage_object :=
  map (λ o, if has_id id o then f o else o) l.

Lemma has_object_id_true id o : has_id id o = true ↔ so_id o = id.
Proof. apply bool_decide_eq_true. Qed.
Lemma find_object_Some id l o : find_object id l = Some o → o ∈ l ∧ so_id o = id.
Proof. intros [? ?]%find_some. rewrite list_elem_of_In. by rewrite <- has_object_id_true. Qed.
Lemma find_object_elem id l o : NoDup (map so_id l) → o ∈ l → so_id o = id → find_object id l = Some o.
Proof.
  intros Hnd Ho Hid. unfold find_object. destruct (List.find (has_id id) l) as [o'|] eqn:E.
  - apply find_object_Some in E as [Ho' Hid']. f_equal. eapply (NoDup_map_inj_on so_id); eauto. congruence.
  - eapply find_none in E; [|by apply list_elem_of_In]. by apply has_object_id_true in Hid; rewrite Hid in E.
Qed.
Lemma find_object_None id l : find_object id l = None → id ∉ map so_id l.
Proof.
  intros E [o [-> Ho]]%elem_of_map. eapply find_none in E; [|by apply list_elem_of_In].
  by rewrite (proj2 (has_object_id_true _ _) eq_refl) in E.
Qed.

Section Replace.
Context (id : string) (f : storage_object → storage_object) (f_id : ∀ o, so_id (f o) = so_id o).

Lemma replace_ids l : map so_id (replace id f l) = map so_id l.
Proof. unfold replace. rewrite map_map. apply map_ext. intros o. by destruct (has_id id o). Qed.
Lemma replace_absent l : id ∉ map so_id l → replace id f l = l.
Proof.
  intros Hn. unfold replace. rewrite <- (map_id l) at 2. apply map_ext_in. intros o Ho%list_elem_of_In.
  destruct (has_id id o) eqn:E; [|done]. apply has_object_id_true in E. destruct Hn. apply elem_of_map. by exists o.
Qed.
Lemma elem_of_replace l o' :
  o' ∈ replace id f l ↔ ∃ o, o ∈ l ∧ o' = (if has_id id o then f o else o).
Proof. unfold replace. rewrite elem_of_map. firstorder. Qed.
Lemma find_replace l id' :
  find_object id' (replace id f l) =
    (if decide (id' = id) then f <$> find_object id' l else find_object id' l).
Proof.
  unfold find_object, replace. induction l as [|o l IH]; [by destruct (decide _)|]. cbn [map List.find].
  assert (has_id id' (if has_id id o then f o else o) = has_id id' o) as ->.
  { destruct (has_id id o); [|done]. unfold has_id. by rewrite f_id. }
  destruct (has_id id' o) eqn:E'; [|apply IH]. apply has_object_id_true in E'. destruct (decide (id' = id)) as [->|Hne].
  - by rewrite (proj2 (has_object_id_true id o) E').
  - destruct (has_id id o) eqn:E; [|done]. apply has_object_id_true in E. congruence.
Qed.
End Replace.

(** ** Sums over the rows *)

Definition total (w : storage_object → Z) (l : list storage_object) : Z := foldr (λ o acc, w o + acc) 0 l.
Definition ready_size (a : Z) (o : storage_object) : Z :=
  if bool_decide (so_status o = OBJECT_READY) && (so_agency o =? a) then so_size o else 0.
Definition reserved_size (a : Z) (o : storage_object) : Z := if reserved a o then so_size o else 0.

Lemma total_cons w o l : total w (o :: l) = w o + total w l.
Proof. done. Qed.
Lemma sizes_total p l : sizes p l = total (λ o, if p o then so_size o else 0) l.
Proof.
  unfold sizes. induction l as [|o l IH]; [done|]. rewrite total_cons, <- IH. cbn [List.filter].
  by destruct (p o).
Qed.
Lemma total_app w l l' : total w (l ++ l') = total w l + total w l'.
Proof. induction l as [|o l IH]; [done|]. rewrite <- app_comm_cons, !total_cons, IH. lia. Qed.
Lemma total_ext w w' l : (∀ o, o ∈ l → w o = w' o) → total w l = total w' l.
Proof.
  induction l as [|o l IH]; [done|]. intros H. rewrite !total_cons. f_equal; [apply H; left|]. apply IH. intros ? ?. apply H. by right.
Qed.
Lemma total_nonneg w l : (∀ o, o ∈ l → 0 <= w o) → 0 <= total w l.
Proof.
  induction l as [|o l IH]; [done|]. intros H. pose proof (H o (list_elem_of_here _ _)) as Ho.
  rewrite total_cons. assert (0 <= total w l); [|lia]. apply IH. intros ? ?. apply H. by right.
Qed.
Lemma total_replace w id f l o :
  NoDup (map so_id l) → find_object id l = Some o → total w (replace id f l) = total w l + (w (f o) - w o).
Proof.
  unfold replace, find_object. induction l as [|x l IH]; [done|]. cbn [map List.find]. rewrite !total_cons.
  intros [Hx Hnd]%NoDup_cons. destruct (has_id id x) eqn:E.
  - intros [= ->]. apply has_object_id_true in E. subst id. change (map _ l) with (replace (so_id o) f l).
    rewrite replace_absent by done. lia.
  - intros Ho. specialize (IH Hnd Ho). lia.
Qed.
Lemma total_filter_out w id l o :
  NoDup (map so_id l) → find_object id l = Some o → total w (List.filter (λ o, negb (has_id id o)) l) = total w l - w o.
Proof.
  unfold find_object. induction l as [|x l IH]; [done|]. cbn [map List.find List.filter].
  intros [Hx Hnd]%NoDup_cons. destruct (has_id id x) eqn:E; cbn [negb]; rewrite !total_cons.
  - intros [= ->]. apply has_object_id_true in E. rewrite filter_all; [lia|].
    apply Forall_forall. intros y Hy. apply negb_true_iff, not_true_iff_false. intros Hid%has_object_id_true.
    apply Hx, elem_of_map. exists y. split; [congruence|done].
  - intros Ho. specialize (IH Hnd Ho). lia.
Qed.

(** ** The ledger *)

Definition sound_object (o : storage_object) : Prop :=
  0 < so_size o ∧ (so_status o = OBJECT_DELETED → is_Some (so_deleted_at o)).
Record ledger_ok (s : storage) : Prop := mkLedger {
  lg_ids : NoDup (map so_id (sg_objects s));
  lg_sound : ∀ o, o ∈ sg_objects s → sound_object o;
  lg_usage : ∀ a, get_usage_for_agency a s = get_total_usage_bytes (Some a) s
}.

Lemma total_usage a s : get_total_usage_bytes (Some a) s = total (ready_size a) (sg_objects s).
Proof. apply sizes_total. Qed.
Lemma total_reserved a s : get_reserved_usage_for_agency a s = total (reserved_size a) (sg_objects s).
Proof. apply sizes_total. Qed.
Lemma ready_nonneg s a o : ledger_ok s → o ∈ sg_objects s → 0 <= ready_size a o.
Proof. intros H Ho. apply H in Ho as [? _]. unfold ready_size. destruct (_ && _); lia. Qed.

Definition bumped (agency delta : Z) (s : storage) : storage := (bump_storage_usage agency delta s).2.
Lemma bumped_usage agency delta a s :
  get_usage_for_agency a (bumped agency delta s) =
    if agency =? a then Z.max (get_usage_for_agency a s + delta) 0 else get_usage_for_agency a s.
Proof.
  unfold get_usage_for_agency, bumped. cbn.
  set (t := match sg_usage s !! agency with Some t => _ | None => _ end).
  assert (t = Z.max (default 0 (sg_usage s !! agency) + delta) 0) as Ht.
  { unfold t. destruct (sg_usage s !! agency); cbn; [done|]. by rewrite Z.add_0_l. }
  destruct (Z.eqb_spec agency a) as [->|Hne]; destruct (Z.leb_spec t 0).
  - rewrite lookup_delete_eq. cbn. lia.
  - by rewrite lookup_insert_eq, <- Ht.
  - by rewrite lookup_delete_ne.
  - by rewrite lookup_insert_ne.
Qed.
Lemma bumped_objects agency delta s : sg_objects (bumped agency delta s) = sg_objects s.
Proof. done. Qed.

(** Rows that do not count are free to change; otherwise the counter moves with them. *)
Lemma ledger_change s l' u' :
  ledger_ok s → NoDup (map so_id l') → (∀ o, o ∈ l' → sound_object o) →
  (∀ a, default 0 (u' !! a) = get_usage_for_agency a s + (total (ready_size a) l' - total (ready_size a) (sg_objects s))) →
  ∀ ev del, ledger_ok (mkStorage l' u' ev del).
Proof.
  intros H Hnd Hs Hu ev del. split; [done|done|]. intros a. rewrite total_usage.
  unfold get_usage_for_agency at 1. cbn [sg_usage sg_objects]. rewrite Hu, (lg_usage _ H), total_usage. lia.
Qed.

Lemma ledger_same s s' :
  sg_objects s' = sg_objects s → sg_usage s' = sg_usage s → ledger_ok s → ledger_ok s'.
Proof.
  intros Eo Eu [Hnd Hs Hu]. split; unfold get_usage_for_agency, get_total_usage_bytes in *; rewrite ?Eo, ?Eu; auto.
Qed.

Section Row.
Context (id : string) (f : storage_object → storage_object) (s : storage) (o : storage_object).
Context (H : ledger_ok s) (Ho : find_object id (sg_objects s) = Some o).
Context (f_id : ∀ x, so_id (f x) = so_id x) (f_agency : so_agency (f o) = so_agency o) (f_sound : sound_object (f o)).

Lemma replaced_sound x : x ∈ replace id f (sg_objects s) → sound_object x.
Proof.
  intros (y & Hy & ->)%elem_of_replace. destruct (has_id id y) eqn:E; [|by apply H].
  apply has_object_id_true in E. assert (Some y = Some o) as [= ->]; [|done].
  rewrite <- Ho. symmetry. apply find_object_elem; [apply H|done|done].
Qed.
Lemma replaced_total a :
  total (ready_size a) (replace id f (sg_objects s)) =
    total (ready_size a) (sg_objects s) + (ready_size a (f o) - ready_size a o).
Proof. apply total_replace; [apply H|done]. Qed.

(** The row stays ready, or stays out of the count. *)
Lemma ledger_replace :
  (∀ a, ready_size a (f o) = ready_size a o) → ledger_ok (set_objects (replace id f) s).
Proof.
  intros Hr. unfold set_objects. eapply ledger_change; [apply H| |apply replaced_sound|].
  - rewrite replace_ids by done. apply H.
  - intros a. rewrite replaced_total, Hr. unfold get_usage_for_agency. lia.
Qed.
(** The row enters or leaves the count, and the counter follows. *)
Lemma ledger_bump delta :
  delta = ready_size (so_agency o) (f o) - ready_size (so_agency o) o →
  ledger_ok (bumped (so_agency o) delta (set_objects (replace id f) s)).
Proof.
  intros ->. set (s' := bumped _ _ _).
  apply (ledger_same (mkStorage (replace id f (sg_objects s)) (sg_usage s') (sg_events s') (sg_deletes s'))); [done..|].
  eapply ledger_change; [apply H| |apply replaced_sound|].
  - rewrite replace_ids by done. apply H.
  - intros a. change (default 0 (sg_usage s' !! a)) with (get_usage_for_agency a s'). unfold s'.
    rewrite bumped_usage, replaced_total.
    assert (get_usage_for_agency a (set_objects (replace id f) s) = get_usage_for_agency a s) as -> by done.
    destruct (Z.eqb_spec (so_agency o) a) as [<-|Hne].
    + assert (0 <= total (ready_size (so_agency o)) (replace id f (sg_objects s))) as Hp.
      { apply total_nonneg. intros x Hx%replaced_sound. destruct Hx as [Hx _]. unfold ready_size. destruct (_ && _); lia. }
      rewrite replaced_total in Hp. rewrite (lg_usage _ H), total_usage. lia.
    + assert (∀ x, so_agency x = so_agency o → ready_size a x = 0) as Hz.
      { intros x Ex. unfold ready_size. rewrite Ex. apply Z.eqb_neq in Hne. by rewrite Hne, andb_false_r. }
      rewrite !Hz by done. lia.
Qed.
End Row.

(** ** The life of an object

    An upload is reserved, then completed or refused; a ready object may be deleted and come back
    until it is purged.  [move] is what the tables may do: the operations below do nothing else.
    With [restores] false nothing deleted comes back; only rows whose id is in [touches] change. *)

Inductive next_status : storage_status → storage_status → Prop :=
  | next_completed : next_status OBJECT_PENDING OBJECT_READY
  | next_refused : next_status OBJECT_PENDING OBJECT_FAILED
  | next_deleted : next_status OBJECT_READY OBJECT_DELETED
  | next_restored : next_status OBJECT_DELETED OBJECT_READY
  | next_purged : next_status OBJECT_DELETED OBJECT_PURGED.

(** The row [o] becomes [o']: a completed upload is no larger than its reservation. *)
Record row_moves (o o' : storage_object) : Prop := mkRowMoves {
  rm_status : next_status (so_status o) (so_status o');
  rm_id : so_id o' = so_id o;
  rm_agency : so_agency o' = so_agency o;
  rm_purpose : so_purpose o' = so_purpose o;
  rm_size : 0 < so_size o' <= so_size o;
  rm_kept : so_status o ≠ OBJECT_PENDING → so_size o' = so_size o;
  rm_dated : so_status o' = OBJECT_DELETED → is_Some (so_deleted_at o')
}.
Definition counter_moves (agency delta : Z) (s s' : storage) : Prop :=
  sg_usage s' = if delta =? 0 then sg_usage s else sg_usage (bumped agency delta s).

Section Moves.
Context (config : storage_config) (restores : bool) (touches : string → Prop).

Definition within_quota (bytes : Z) : Prop :=
  match cf_agency_quota_bytes config with Some q => bytes <= q | None => True end.

Inductive move (s s' : storage) : Prop :=
  | move_quiet : sg_objects s' = sg_objects s → sg_usage s' = sg_usage s → move s s'
  | move_create o :
      touches (so_id o) → so_status o = OBJECT_PENDING → 0 < so_size o → so_id o ∉ map so_id (sg_objects s) →
      within_quota (get_reserved_usage_for_agency (so_agency o) s + so_size o) →
      sg_objects s' = sg_objects s ++ [o] → sg_usage s' = sg_usage s → move s s'
  | move_row id f o :
      touches id → find_object id (sg_objects s) = Some o → (∀ x, so_id (f x) = so_id x) → row_moves o (f o) →
      (so_status o = OBJECT_DELETED → so_status (f o) = OBJECT_READY → restores = true) →
      sg_objects s' = replace id f (sg_objects s) →
      counter_moves (so_agency o) (ready_size (so_agency o) (f o) - ready_size (so_agency o) o) s s' → move s s'
  | move_drop id o :
      touches id → find_object id (sg_objects s) = Some o →
      sg_objects s' = List.filter (λ o, negb (has_id id o)) (sg_objects s) →
      counter_moves (so_agency o) (- ready_size (so_agency o) o) s s' → move s s'.

Lemma counter_moves_usage agency delta s s' a :
  counter_moves agency delta s s' →
  get_usage_for_agency a s' =
    if (agency =? a) && negb (delta =? 0) then Z.max (get_usage_for_agency a s + delta) 0 else get_usage_for_agency a s.
Proof.
  intros E. unfold get_usage_for_agency at 1. rewrite E. destruct (Z.eqb_spec delta 0); [by rewrite andb_false_r|].
  rewrite andb_true_r. apply (bumped_usage agency delta a s).
Qed.
(** The counter follows a change of the total that is confined to the agency. *)
Lemma ledger_moves agency delta s s' :
  ledger_ok s → NoDup (map so_id (sg_objects s')) → (∀ o, o ∈ sg_objects s' → sound_object o) →
  (∀ a, total (ready_size a) (sg_objects s') = total (ready_size a) (sg_objects s) + if agency =? a then delta else 0) →
  counter_moves agency delta s s' → ledger_ok s'.
Proof.
  intros H Hnd Hs Ht Hc. split; [done|done|]. intros a.
  rewrite total_usage, (counter_moves_usage _ _ _ _ _ Hc), (lg_usage _ H), total_usage, Ht.
  assert (0 <= total (ready_size a) (sg_objects s')) as Hp.
  { apply total_nonneg. intros x [Hx _]%Hs. unfold ready_size. destruct (_ && _); lia. }
  rewrite Ht in Hp. destruct (agency =? a); [|cbn; lia]. destruct (Z.eqb_spec delta 0); cbn; lia.
Qed.

Lemma row_moves_sound o o' : row_moves o o' → sound_object o'.
Proof. intros H. split; [apply H|apply H]. Qed.
Lemma ready_size_other a o : so_agency o ≠ a → ready_size a o = 0.
Proof. intros Hne. unfold ready_size. apply Z.eqb_neq in Hne. by rewrite Hne, andb_false_r. Qed.

Lemma move_ledger s s' : move s s' → ledger_ok s → ledger_ok s'.
Proof.
  intros [Eo Eu|o _ Hp Hz Hf _ Eo Eu|id f o _ Ho Hid Hm _ Eo Hc|id o _ Ho Eo Hc] H.
  - by apply (ledger_same s).
  - apply (ledger_moves (so_agency o) 0 s); [done| | | |done]; rewrite Eo.
    + rewrite map_app. apply NoDup_app. split; [apply H|]. split; [|apply NoDup_singleton].
      intros x Hx ->%list_elem_of_singleton. done.
    + intros x [Hx| ->%list_elem_of_singleton]%elem_of_app; [by apply H|]. split; [done|]. by rewrite Hp.
    + intros a. rewrite total_app, total_cons.
      assert (ready_size a o = 0) as -> by (unfold ready_size; by rewrite Hp). change (total (ready_size a) []) with 0.
      destruct (_ =? _); lia.
  - eapply ledger_moves; [done| | | |apply Hc]; rewrite Eo.
    + rewrite replace_ids by done. apply H.
    + eapply replaced_sound; eauto using row_moves_sound.
    + intros a. rewrite (total_replace _ _ _ _ o) by (done || apply H).
      destruct (Z.eqb_spec (so_agency o) a) as [<-|Hne]; [lia|].
      rewrite !ready_size_other; [lia|done|]. by rewrite (rm_agency _ _ Hm).
  - eapply ledger_moves; [done| | | |apply Hc]; rewrite Eo.
    + apply NoDup_map_filter, H.
    + intros x [_ Hx]%elem_of_filter_b. by apply H.
    + intros a. rewrite (total_filter_out _ _ _ o) by (done || apply H).
      destruct (Z.eqb_spec (so_agency o) a) as [<-|Hne]; [lia|]. rewrite ready_size_other by done. lia.
Qed.
Lemma moves_ledger s s' : rtc move s s' → ledger_ok s → ledger_ok s'.
Proof. induction 1; eauto using move_ledger. Qed.

(** Rows that are not touched stay. *)
Lemma find_app_other id l o : so_id o ≠ id → find_object id (l ++ [o]) = find_object id l.
Proof.
  intros Hne. unfold find_object. induction l as [|x l IH]; cbn.
  - destruct (has_id id o) eqn:E; [by apply has_object_id_true in E|done].
  - by destruct (has_id id x).
Qed.
Lemma find_filter_other id id' l :
  id ≠ id' → find_object id (List.filter (λ o, negb (has_id id' o)) l) = find_object id l.
Proof.
  intros Hne. unfold find_object. induction l as [|x l IH]; [done|]. cbn.
  destruct (has_id id' x) eqn:E'; cbn; [|by destruct (has_id id x)].
  destruct (has_id id x) eqn:E; [|done]. apply has_object_id_true in E, E'. congruence.
Qed.
Lemma moves_frame s s' id : rtc move s s' → ¬ touches id → find_object id (sg_objects s') = find_object id (sg_objects s).
Proof.
  intros Hm Hn. induction Hm as [|s s1 s' M _ IH]; [done|]. rewrite IH.
  destruct M as [Eo _|o Ht _ _ _ _ Eo _|i f o Ht _ Hf _ _ Eo _|i o Ht _ Eo _]; rewrite Eo; [done| | |].
  - apply find_app_other. by intros <-.
  - rewrite find_replace by done. rewrite decide_False; [done|by intros ->].
  - apply find_filter_other. by intros ->.
Qed.

(** ** The operations move

    A call that was given a row finds it as it was read; a new id is fresh. *)

Context (delete_answer : string → string → bool).

Lemma ledger_size s id o : ledger_ok s → find_object id (sg_objects s) = Some o → 0 < so_size o.
Proof. intros H [Ho _]%find_object_Some. by apply H in Ho as [? _]. Qed.
Lemma delete_object_run o s :
  ∃ s', delete_object delete_answer o s = (Ok (delete_answer (so_bucket o) (so_key o)), s')
    ∧ sg_objects s' = sg_objects s ∧ sg_usage s' = sg_usage s.
Proof. eexists. split; [done|by split]. Qed.
Lemma ready_size_of o f :
  so_agency (f o) = so_agency o →
  ready_size (so_agency o) (f o) - ready_size (so_agency o) o =
    (if bool_decide (so_status (f o) = OBJECT_READY) then so_size (f o) else 0)
    - (if bool_decide (so_status o = OBJECT_READY) then so_size o else 0).
Proof. intros Ea. unfold ready_size. by rewrite Ea, Z.eqb_refl, !andb_true_r. Qed.
Lemma replace_replace id f g l :
  (∀ x, so_id (f x) = so_id x) → replace id g (replace id f l) = replace id (λ x, g (f x)) l.
Proof.
  intros Hid. unfold replace. rewrite map_map. apply map_ext. intros x.
  destruct (has_id id x) eqn:E; [|by rewrite E]. apply has_object_id_true in E.
  assert (has_id id (f x) = true) as -> by (apply has_object_id_true; by rewrite Hid). done.
Qed.

(** Where a row goes when only its status and date change. *)
Lemma status_moves o st d :
  next_status (so_status o) st → 0 < so_size o → (st = OBJECT_DELETED → is_Some d) → row_moves o (with_status st d o).
Proof. intros Hn Hz Hd. split; cbn; auto with lia. Qed.
Lemma status_move id st d o s s' :
  touches id → find_object id (sg_objects s) = Some o → next_status (so_status o) st → 0 < so_size o →
  (st = OBJECT_DELETED → is_Some (d o)) → (so_status o = OBJECT_DELETED → st = OBJECT_READY → restores = true) →
  sg_objects s' = replace id (λ x, with_status st (d x) x) (sg_objects s) →
  counter_moves (so_agency o) ((if bool_decide (st = OBJECT_READY) then so_size o else 0)
                               - (if bool_decide (so_status o = OBJECT_READY) then so_size o else 0)) s s' →
  move s s'.
Proof.
  intros Ht Ho Hn Hz Hd Hr Eo Hc. eapply (move_row _ _ id (λ x, with_status st (d x) x)); [done|done|done| |done|done|].
  - by apply status_moves.
  - rewrite ready_size_of; done.
Qed.

Lemma failed_move id message who purpose details o s :
  touches id → ledger_ok s → find_object id (sg_objects s) = Some o → so_status o = OBJECT_PENDING →
  ∃ s', mark_storage_failed id message who purpose details s = (Ok tt, s') ∧ move s s'.
Proof.
  intros Ht H Ho Hp. pose proof (ledger_size _ _ _ H Ho) as Hz.
  set (f := λ x, with_status OBJECT_FAILED (so_deleted_at x) x).
  set (g := λ x, if str_empty message then f x else with_checksum (String.substring 0 512 message) (f x)).
  assert (∃ s', mark_storage_failed id message who purpose details s = (Ok tt, s')
    ∧ sg_objects s' = replace id g (sg_objects s) ∧ sg_usage s' = sg_usage s) as (s' & E & Eo & Eu).
  { unfold mark_storage_failed, transaction, data_mark_storage_failed, audited, g, update_objects.
    destruct (str_empty message), (bool_decide _); (eexists; split; [reflexivity|]); (split; [|done]); cbn;
      try (by apply (replace_replace id f)); done. }
  exists s'. split; [done|]. apply (move_row _ _ id g o); [done|done| | |by rewrite Hp|done|].
  - intros x. unfold g. by destruct (str_empty _).
  - unfold g. destruct (str_empty _); split; cbn; rewrite ?Hp; first [done|constructor|lia].
  - unfold counter_moves. rewrite ready_size_of by (unfold g; by destruct (str_empty _)). rewrite Hp.
    unfold g. by destruct (str_empty _).
Qed.

Lemma ready_move id content_type size tag who purpose o s :
  touches id → ledger_ok s → find_object id (sg_objects s) = Some o → so_status o = OBJECT_PENDING → 0 < size <= so_size o →
  ∃ s', mark_storage_ready id content_type size tag (so_agency o) who purpose s = (Ok tt, s') ∧ move s s'.
Proof.
  intros Ht H Ho Hp Hz. set (f := completed content_type size tag).
  assert (∃ s', mark_storage_ready id content_type size tag (so_agency o) who purpose s = (Ok tt, s')
    ∧ sg_objects s' = replace id f (sg_objects s) ∧ sg_usage s' = sg_usage (bumped (so_agency o) size s)) as (s' & E & Eo & Eu).
  { unfold mark_storage_ready, transaction, data_mark_storage_ready, audited, update_objects.
    destruct (bool_decide _); (eexists; split; [reflexivity|done]). }
  exists s'. split; [done|]. apply (move_row _ _ id f o); [done|done|done| |by rewrite Hp|done|].
  - split; cbn; rewrite ?Hp; first [done|constructor|lia].
  - rewrite ready_size_of by done. rewrite Hp. change (counter_moves (so_agency o) (size - 0) s s'). rewrite Z.sub_0_r.
    unfold counter_moves. rewrite Eu. destruct (Z.eqb_spec size 0); [lia|done].
Qed.

(** Every call, with what its caller knows of the rows. *)
Inductive call (s : storage) : storage → Prop :=
  | call_create agency now id key who purpose content_type size checksum :
      touches id → id ∉ map so_id (sg_objects s) →
      call s (create_storage_record config agency now id key who purpose content_type size checksum s).2
  | call_store agency now id hex scan put digest size filename content_type purpose who :
      touches id → id ∉ map so_id (sg_objects s) →
      call s (store_bytes config agency now id hex scan put digest size filename content_type purpose who s).2
  | call_complete o head inspect who :
      touches (so_id o) → find_object (so_id o) (sg_objects s) = Some o → so_status o = OBJECT_PENDING →
      call s (complete_presigned_upload config delete_answer (Some o) head inspect who s).2
  | call_purge o :
      touches (so_id o) → find_object (so_id o) (sg_objects s) = Some o → so_status o = OBJECT_DELETED →
      call s (purge_one delete_answer o s).2
  | call_expire o :
      touches (so_id o) → find_object (so_id o) (sg_objects s) = Some o → so_status o = OBJECT_PENDING →
      call s (expire_one delete_answer o s).2
  | call_delete now id who :
      touches id → (∀ o, find_object id (sg_objects s) = Some o → so_status o ∈ [OBJECT_READY; OBJECT_DELETED]) →
      call s (mark_storage_deleted now id who s).2
  | call_restore id who : touches id → restores = true → call s (restore_deleted_storage id who s).2
  | call_purge_now referenced o :
      touches (so_id o) → find_object (so_id o) (sg_objects s) = Some o →
      call s (purge_storage_object_now delete_answer referenced (Some o) s).2.

(** The limits read, and refuse what would pass the quota. *)
Lemma limits_run now size agency user purpose s :
  ∃ r, enforce_limits config now size agency user purpose s = (r, s)
    ∧ (r = Ok tt → 0 < size ∧ within_quota (get_reserved_usage_for_agency agency s + size)).
Proof.
  unfold enforce_limits, within_quota. destruct (Z.leb_spec size 0); [by eexists|]. destruct (_ <? size); [by eexists|].
  rewrite bind_gets. destruct (cf_agency_quota_bytes config) as [q|]; [destruct (Z.ltb_spec q (get_reserved_usage_for_agency agency s + size)); [by eexists|]|];
    (destruct (cf_user_daily_max_files config), user; [rewrite bind_gets; destruct (_ <=? _); by eexists|by eexists..]).
Qed.
(** A recorded upload is a new pending row within the quota. *)
Lemma create_run agency now id key who purpose content_type size checksum s r s' :
  create_storage_record config agency now id key who purpose content_type size checksum s = (r, s') →
  touches id → id ∉ map so_id (sg_objects s) →
  match r with
  | Err _ => s' = s
  | Ok i => i = id ∧ move s s' ∧
            ∃ o, sg_objects s' = sg_objects s ++ [o] ∧ so_id o = id ∧ so_status o = OBJECT_PENDING
                 ∧ so_agency o = agency ∧ so_size o = size ∧ so_purpose o = purpose
  end.
Proof.
  unfold create_storage_record. destruct (ca_user who) as [user|]; [|by intros [= <- <-]].
  destruct (str_empty _); [by intros [= <- <-]|]. unfold transaction.
  destruct (bind _ _ s) as [[i|e] s1] eqn:E; intros [= <- <-] Ht Hf; [|done]. revert E.
  destruct (limits_run now size agency (Some user) purpose s) as ([[]|e] & E & Hq); [|by rewrite (bind_err _ _ _ _ _ E)].
  rewrite (bind_ok _ _ _ _ _ E). destruct (Hq eq_refl) as [Hz Hq'].
  unfold create_storage_object, bind at 1. rewrite bind_gets. destruct (negb _); [done|]. destruct (existsb _ _); [done|].
  unfold audited. intros E1.
  assert (i = id ∧ sg_objects s1 = sg_objects s ++
      [mkObject id agency user (default EmptyString (ca_role who)) (cf_bucket config) key content_type size checksum purpose
         OBJECT_PENDING (ca_ip who) now None 1] ∧ sg_usage s1 = sg_usage s) as (-> & Eo & Eu).
  { revert E1. destruct (bool_decide _); by intros [= <- <-]. }
  split; [done|]. split; [|by eexists]. by eapply move_create; [| | | | |apply Eo|].
Qed.

Lemma find_app_fresh id l o :
  id ∉ map so_id l → so_id o = id → find_object id (l ++ [o]) = Some o.
Proof.
  intros Hn Hid. unfold find_object. induction l as [|x l IH]; cbn in *.
  - by rewrite (proj2 (has_object_id_true id o) Hid).
  - apply not_elem_of_cons in Hn as [Hx Hn]. destruct (has_id id x) eqn:E; [|by apply IH]. by apply has_object_id_true in E.
Qed.
Lemma delete_move o s : ∃ b s', delete_object delete_answer o s = (Ok b, s') ∧ move s s'
  ∧ sg_objects s' = sg_objects s ∧ sg_usage s' = sg_usage s.
Proof. eexists _, _. split; [reflexivity|]. split; [by apply move_quiet|done]. Qed.
Lemma move_moves s s' : move s s' → rtc move s s'.
Proof. apply rtc_once. Qed.

Lemma complete_moves o head inspect who s :
  touches (so_id o) → ledger_ok s → find_object (so_id o) (sg_objects s) = Some o → so_status o = OBJECT_PENDING →
  rtc move s (complete_presigned_upload config delete_answer (Some o) head inspect who s).2.
Proof.
  intros Ht H Ho Hp. unfold complete_presigned_upload. destruct head as [[[size ctype] tag]|]; [|apply rtc_refl].
  destruct (Z.leb_spec size 0) as [|Hz]; [apply rtc_refl|].
  pose proof (ledger_size _ _ _ H Ho) as Hzo.
  assert (∀ marker details, ∃ s1 s2, delete_object delete_answer o s = (Ok (delete_answer (so_bucket o) (so_key o)), s1)
    ∧ mark_storage_failed (so_id o) marker who (so_purpose o) details s1 = (Ok tt, s2) ∧ move s s1 ∧ move s1 s2) as Hfail.
  { intros marker details. destruct (delete_object_run o s) as (s1 & E1 & Eo1 & Eu1).
    destruct (failed_move (so_id o) marker who (so_purpose o) details o s1) as (s2 & E2 & M2);
      [done|by apply (ledger_same s)|by rewrite Eo1|done|]. exists s1, s2. split_and!; [done..|by apply move_quiet|done]. }
  destruct (_ || _) eqn:Esz.
  - destruct (Hfail "size_limit" [("error", PStr "size_limit")]) as (s1 & s2 & E1 & E2 & M1 & M2).
    rewrite (bind_ok _ _ _ _ _ E1). destruct (delete_answer _ _); cbn [negb]; [|exact (move_moves _ _ M1)].
    rewrite (bind_ok _ _ _ _ _ E2).
    exact (rtc_l _ _ _ _ M1 (move_moves _ _ M2)).
  - apply orb_false_iff in Esz as [_ Esz]. destruct (Z.eqb_spec (so_size o) 0) as [|_]; [lia|]. cbn in Esz.
    apply Z.ltb_ge in Esz. unfold bind at 1, lift. destruct (validate_purpose _ _ _) as [[]|e]; [|apply rtc_refl].
    destruct (ready_move (so_id o) ctype size tag who (so_purpose o) o s) as (s3 & E3 & M3); [done..|lia|].
    destruct (_ || _); [destruct inspect as [|image msg|e]|]; [| | |].
    + rewrite bind_ret, (bind_ok _ _ _ _ _ E3). exact (move_moves _ _ M3).
    + destruct (Hfail (if image then "image_validation" else "virus_scan")
        [("error", PStr (if image then "image_validation" else "virus_scan")); ("message", PStr msg)])
        as (s1 & s2 & E1 & E2 & M1 & M2).
      unfold bind at 1. rewrite (bind_ok _ _ _ _ _ E1), (bind_ok _ _ _ _ _ E2). exact (rtc_l _ _ _ _ M1 (move_moves _ _ M2)).
    + apply rtc_refl.
    + rewrite bind_ret, (bind_ok _ _ _ _ _ E3). exact (move_moves _ _ M3).
Qed.

Lemma store_moves agency now id hex scan put digest size filename content_type purpose who s :
  touches id → ledger_ok s → id ∉ map so_id (sg_objects s) →
  rtc move s (store_bytes config agency now id hex scan put digest size filename content_type purpose who s).2.
Proof.
  intros Ht H Hf. unfold store_bytes. unfold bind at 1, lift. destruct (validate_purpose _ _ _) as [[]|e]; [|apply rtc_refl].
  unfold bind at 1. destruct scan as [[]|e]; [|apply rtc_refl].
  set (key := build_object_key _ _ _ _).
  destruct (create_storage_record config agency now id key who purpose content_type size None s) as [r s1] eqn:E.
  pose proof (create_run _ _ _ _ _ _ _ _ _ _ _ _ E Ht Hf) as Hc.
  destruct r as [i|e]; [|rewrite (bind_err _ _ _ _ _ E), Hc; apply rtc_refl].
  destruct Hc as (-> & M1 & o & Eo & Hid & Hp & Ha & Hz & Hpu). rewrite (bind_ok _ _ _ _ _ E).
  pose proof (move_ledger _ _ M1 H) as H1.
  assert (find_object id (sg_objects s1) = Some o) as Ho by (rewrite Eo; by apply find_app_fresh).
  pose proof (ledger_size _ _ _ H1 Ho) as Hzo. destruct put as [|msg|e].
  - destruct (ready_move id content_type size (Some digest) who purpose o s1) as (s2 & E2 & M2); [done..|lia|].
    rewrite <- Ha, (bind_ok _ _ _ _ _ E2). exact (rtc_l _ _ _ _ M1 (move_moves _ _ M2)).
  - destruct (failed_move id msg who purpose [] o s1) as (s2 & E2 & M2); [done..|].
    rewrite (bind_ok _ _ _ _ _ E2). exact (rtc_l _ _ _ _ M1 (move_moves _ _ M2)).
  - exact (move_moves _ _ M1).
Qed.

Lemma purge_moves o s :
  touches (so_id o) → ledger_ok s → find_object (so_id o) (sg_objects s) = Some o → so_status o = OBJECT_DELETED →
  rtc move s (purge_one delete_answer o s).2.
Proof.
  intros Ht H Ho Hp. unfold purge_one. destruct (delete_object_run o s) as (s1 & E1 & Eo1 & Eu1).
  rewrite (bind_ok _ _ _ _ _ E1). assert (move s s1) as M1 by by apply move_quiet.
  destruct (delete_answer _ _); cbn [negb]; [|exact (move_moves _ _ M1)]. eapply rtc_l; [exact M1|]. apply move_moves.
  eapply (status_move (so_id o) OBJECT_PURGED so_deleted_at o); rewrite ?Eo1; [done|done| |by eapply ledger_size|done|done|..].
  - rewrite Hp. constructor.
  - cbn. by rewrite Eo1.
  - by rewrite Hp.
Qed.
Lemma expire_moves o s :
  touches (so_id o) → ledger_ok s → find_object (so_id o) (sg_objects s) = Some o → so_status o = OBJECT_PENDING →
  rtc move s (expire_one delete_answer o s).2.
Proof.
  intros Ht H Ho Hp. unfold expire_one. destruct (delete_object_run o s) as (s1 & E1 & Eo1 & Eu1).
  unfold bind at 1. rewrite E1. assert (move s s1) as M1 by by apply move_quiet.
  eapply rtc_l; [exact M1|]. apply move_moves. pose proof (ledger_size _ _ _ H Ho) as Hz.
  set (f := λ x, with_checksum "pending_timeout" (with_status OBJECT_FAILED (so_deleted_at x) x)).
  eapply (move_row _ _ (so_id o) f o); rewrite ?Eo1; [done|done|done| |by rewrite Hp| |].
  - split; cbn; rewrite ?Hp; first [done|constructor|lia].
  - cbn. rewrite Eo1. by apply (replace_replace (so_id o) (λ x, with_status OBJECT_FAILED (so_deleted_at x) x)).
  - rewrite ready_size_of by done. by rewrite Hp.
Qed.

(** Deleting a ready row. *)
Lemma deleted_move now id o s :
  touches id → find_object id (sg_objects s) = Some o → so_status o = OBJECT_READY → 0 < so_size o →
  ∃ s', (∀ A (k : Z → SM A),
           (let! size := data_mark_storage_deleted now id in
            do! (if size =? 0 then ret tt else bump_storage_usage (so_agency o) (- size)) in k size) s = k (so_size o) s')
    ∧ sg_objects s' = replace id (with_status OBJECT_DELETED (Some now)) (sg_objects s)
    ∧ move s s'.
Proof.
  intros Ht Ho Hr Hz. unfold data_mark_storage_deleted, bind at 1. 
  eexists. split.
  { intros A k. rewrite bind_gets, Ho. cbn [returned_size].
    cbv beta iota delta [bind update_objects modify ret]. rewrite (proj2 (Z.eqb_neq _ _)) by lia. reflexivity. } split; [done|].
  eapply (status_move id OBJECT_DELETED (λ _, Some now) o); [done|done|rewrite Hr; constructor|done|done|done|done|].
  rewrite Hr. match goal with |- counter_moves _ _ _ ?t => change (counter_moves (so_agency o) (- so_size o) s t) end.
  unfold counter_moves. by destruct (Z.eqb_spec (- so_size o) 0); [lia|].
Qed.
Lemma find_restorable id s o :
  ledger_ok s → find_object id (sg_objects s) = Some o → so_status o = OBJECT_DELETED →
  List.find (restorable id) (sg_objects s) = Some o
  ∧ map (λ x, if restorable id x then with_status OBJECT_READY None x else x) (sg_objects s)
    = replace id (with_status OBJECT_READY None) (sg_objects s).
Proof.
  intros H Ho Hd. pose proof (find_object_Some _ _ _ Ho) as [Hin Hid].
  assert (is_Some (so_deleted_at o)) as Hdt by (apply H in Hin as [_ Hdt]; auto).
  assert (∀ x, x ∈ sg_objects s → restorable id x = has_id id x) as Heq.
  { intros x Hx. unfold restorable. destruct (has_id id x) eqn:E; [|done]. apply has_object_id_true in E.
    assert (x = o) as -> by (eapply (NoDup_map_inj_on so_id); [apply H|done..|congruence]).
    rewrite !bool_decide_true by done. done. }
  split.
  - rewrite <- Ho. unfold find_object. clear Ho Hin. induction (sg_objects s) as [|x l IH]; [done|]. cbn.
    rewrite (Heq x) by left. rewrite IH; [done|]. intros y Hy. apply Heq. by right.
  - apply map_ext_in. intros x Hx%list_elem_of_In. by rewrite Heq.
Qed.
(** Restoring a deleted row. *)
Lemma restored_move id o s :
  touches id → restores = true → ledger_ok s → find_object id (sg_objects s) = Some o → so_status o = OBJECT_DELETED →
  ∃ s', (∀ A (k : Z → SM A),
           (let! size := data_restore_deleted_storage id in
            do! (if size =? 0 then ret tt else bump_storage_usage (so_agency o) size) in k size) s = k (so_size o) s')
    ∧ sg_objects s' = replace id (with_status OBJECT_READY None) (sg_objects s)
    ∧ move s s'.
Proof.
  intros Ht Hres H Ho Hd. pose proof (ledger_size _ _ _ H Ho) as Hz. destruct (find_restorable id s o) as [Hf Hm]; [done..|].
  unfold data_restore_deleted_storage, bind at 1. 
  eexists. split.
  { intros A k. rewrite bind_gets, Hf. cbn [returned_size].
    cbv beta iota delta [bind update_objects modify ret]. rewrite (proj2 (Z.eqb_neq _ _)) by lia. reflexivity. } split; [done|].
  eapply (status_move id OBJECT_READY (λ _, None) o); [done|done|rewrite Hd; constructor|done|done|done|done|].
  rewrite Hd. match goal with |- counter_moves _ _ _ ?t => change (counter_moves (so_agency o) (so_size o - 0) s t) end. unfold counter_moves.
  rewrite Z.sub_0_r. by destruct (Z.eqb_spec (so_size o) 0); [lia|].
Qed.

Lemma delete_moves now id who s :
  touches id → ledger_ok s → (∀ o, find_object id (sg_objects s) = Some o → so_status o ∈ [OBJECT_READY; OBJECT_DELETED]) →
  rtc move s (mark_storage_deleted now id who s).2.
Proof.
  intros Ht H Hs. unfold mark_storage_deleted, transaction, get_storage_object. rewrite bind_gets.
  destruct (find_object id (sg_objects s)) as [o|] eqn:Ho; [|apply rtc_refl].
  specialize (Hs o eq_refl). pose proof (ledger_size _ _ _ H Ho) as Hz.
  destruct (bool_decide_reflect (so_status o = OBJECT_DELETED)) as [Hd|Hd]; [apply rtc_refl|].
  assert (so_status o = OBJECT_READY) as Hr by (rewrite !elem_of_cons, elem_of_nil in Hs; tauto).
  destruct (deleted_move now id o s) as (s' & E & _ & M); [done..|]. rewrite E. eapply rtc_l; [exact M|].
  by apply move_moves, move_quiet.
Qed.
Lemma restore_moves id who s : touches id → restores = true → ledger_ok s → rtc move s (restore_deleted_storage id who s).2.
Proof.
  intros Ht Hres H. unfold restore_deleted_storage, transaction, get_storage_object. rewrite bind_gets.
  destruct (find_object id (sg_objects s)) as [o|] eqn:Ho; [|apply rtc_refl].
  destruct (bool_decide_reflect (so_status o = OBJECT_DELETED)) as [Hd|Hd]; [|apply rtc_refl].
  destruct (restored_move id o s) as (s' & E & _ & M); [done..|]. cbn [negb]. rewrite E. eapply rtc_l; [exact M|].
  by apply move_moves, move_quiet.
Qed.
Lemma purge_now_moves referenced o s :
  touches (so_id o) → ledger_ok s → find_object (so_id o) (sg_objects s) = Some o →
  rtc move s (purge_storage_object_now delete_answer referenced (Some o) s).2.
Proof.
  intros Ht H Ho. unfold purge_storage_object_now. destruct (delete_object_run o s) as (s1 & E1 & Eo1 & Eu1).
  unfold bind at 1. rewrite E1. assert (move s s1) as M1 by by apply move_quiet. eapply rtc_l; [exact M1|].
  unfold transaction, delete_storage_object, bind at 1. rewrite bind_gets, Eo1, Ho. cbn [returned_size].
  destruct (referenced _); [apply rtc_refl|]. pose proof (ledger_size _ _ _ H Ho) as Hz.
  apply move_moves. cbv beta iota delta [bind modify ret]. rewrite (proj2 (Z.eqb_neq _ _)) by lia.
  cbn [negb]. rewrite andb_true_r.
  apply (move_drop _ _ (so_id o) o); [done|by rewrite Eo1| |].
  - destruct (bool_decide _); cbn; by rewrite Eo1.
  - unfold counter_moves, ready_size. rewrite Z.eqb_refl, andb_true_r.
    destruct (bool_decide _); [|done]. by destruct (Z.eqb_spec (- so_size o) 0); [lia|].
Qed.

Lemma call_moves s s' : call s s' → ledger_ok s → rtc move s s'.
Proof.
  intros Hc H. destruct Hc as [????????? ? Hf|???????????? ? Hf|???????|????|????|?????|????|????].
  - destruct (create_storage_record config _ _ _ _ _ _ _ _ _ s) as [r s'] eqn:E.
    apply create_run in E; [|done..]. destruct r; [destruct E as (_ & M & _); by apply move_moves|]. rewrite E. apply rtc_refl.
  - by apply store_moves.
  - by apply complete_moves.
  - by apply purge_moves.
  - by apply expire_moves.
  - by apply delete_moves.
  - by apply restore_moves.
  - by apply purge_now_moves.
Qed.
End Moves.

(** ** What holds of every history *)

Section Histories.
Context (config : storage_config) (delete_answer : string → string → bool) (touches : string → Prop).

Lemma calls_moves restores s s' :
  rtc (call config restores touches delete_answer) s s' → ledger_ok s → rtc (move config restores touches) s s' ∧ ledger_ok s'.
Proof.
  induction 1 as [s|s s1 s' Hc _ IH]; intros H; [by split; [apply rtc_refl|]|].
  apply call_moves in Hc; [|done]. pose proof (moves_ledger _ _ _ _ _ Hc H) as H1.
  destruct (IH H1) as [Hm H']. split; [by etrans|done].
Qed.


Lemma reserved_change s id f o a :
  ledger_ok s → find_object id (sg_objects s) = Some o → so_agency (f o) = so_agency o →
  (reserved a (f o) = true → reserved a o = true) → 0 < so_size (f o) <= so_size o →
  total (reserved_size a) (replace id f (sg_objects s)) <= total (reserved_size a) (sg_objects s).
Proof.
  intros H Ho Ha Hr Hz. rewrite (total_replace _ _ _ _ o) by (done || apply H). unfold reserved_size.
  destruct (reserved a (f o)); [rewrite Hr by done; lia|]. destruct (reserved a o); lia.
Qed.
Lemma move_reserved s s' a :
  move config false touches s s' → ledger_ok s →
  get_reserved_usage_for_agency a s' <= get_reserved_usage_for_agency a s
  ∨ within_quota config (get_reserved_usage_for_agency a s').
Proof.
  intros M H. destruct M as [Eo _|o _ Hp Hz _ Hq Eo _|id f o _ Ho Hid Hm Hr Eo _|id o _ Ho Eo _];
    rewrite ?total_reserved in *; rewrite Eo.
  - by left.
  - rewrite total_app, total_cons. change (total (reserved_size a) []) with 0. unfold reserved_size at 2 5, reserved.
    rewrite Hp. destruct (Z.eqb_spec (so_agency o) a) as [<-|Hne]; [right|left; cbn; lia].
    rewrite bool_decide_true by set_solver. cbn. by rewrite Z.add_0_r.
  - left. apply (reserved_change _ _ _ o); [done..|apply Hm| |apply Hm]. unfold reserved. rewrite (rm_agency _ _ Hm).
    destruct (_ =? _); [|done]. cbn [andb]. pose proof (rm_status _ _ Hm) as Hn.
    destruct (so_status o), (so_status (f o)); inversion Hn; try done. by discriminate Hr.
  - left. rewrite (total_filter_out _ _ _ o) by (done || apply H).
    apply find_object_Some in Ho as [Ho _]. apply H in Ho as [Hz _]. unfold reserved_size at 2. destruct (reserved a o); lia.
Qed.
Lemma moves_quota s s' a :
  rtc (move config false touches) s s' → ledger_ok s →
  within_quota config (get_reserved_usage_for_agency a s) → within_quota config (get_reserved_usage_for_agency a s').
Proof.
  induction 1 as [|s s1 s' M _ IH]; [done|]. intros H Hq. apply IH; [by eapply move_ledger|].
  destruct (move_reserved s s1 a M H) as [Hle|?]; [|done].
  unfold within_quota in *. destruct (cf_agency_quota_bytes config); [lia|done].
Qed.
End Histories.

(** ** Concrete histories *)

Module Demo.
Definition config : storage_config := mkConfig "immoapp" 26214400 26214400 10485760 2097152 (Some 500) None false 900.
Definition yes (_ _ : string) : bool := true.
Definition ann : caller := mkCaller (Some 7) (Some "agent") None.
Definition start : storage := mkStorage [] ∅ [] [].
Definition create (id : string) (size : Z) (s : storage) : storage :=
  (create_storage_record config 1 0 id ("agency/1/offer_photo/" +:+ id) ann "offer_photo" None size None s).2.
Definition complete (id : string) (size : Z) (s : storage) : storage :=
  (complete_presigned_upload config yes (find_object id (sg_objects s)) (Some (size, Some "image/png", None)) Accepted ann s).2.
Definition uploaded : storage := complete "a" 300 (create "a" 300 start).

Lemma start_storage_ok : ledger_ok start.
Proof. split; [constructor|by intros ? ?%elem_of_nil|done]. Qed.
Lemma uploaded_calls restores : rtc (call config restores (λ _, True) yes) start uploaded.
Proof.
  apply (rtc_l _ _ (create "a" 300 start)); [by apply call_create; [|apply not_elem_of_nil]|]. apply rtc_once.
  unfold uploaded, complete. destruct (find_object "a" (sg_objects (create "a" 300 start))) as [o|] eqn:E; [|discriminate E].
  vm_compute in E. injection E as <-. by apply call_complete.
Qed.

(** An upload that is completed twice is counted twice: the completion does not look at the status. *)
Example completed_twice :
  let s := complete "a" 300 uploaded in
  (get_usage_for_agency 1 s, get_total_usage_bytes (Some 1) s) = (600, 300).
Proof. vm_compute. reflexivity. Qed.
(** Deleting an upload that was refused takes bytes off the counter that were never added. *)
Example refused_then_deleted :
  let s := (mark_storage_failed "b" "virus_scan" ann "offer_photo" [] (create "b" 200 uploaded)).2 in
  let s := (mark_storage_deleted 0 "b" ann s).2 in
  (get_usage_for_agency 1 s, get_total_usage_bytes (Some 1) s) = (100, 300).
Proof. vm_compute. reflexivity. Qed.
(** A restoration does not look at the quota. *)
Example restored_above_quota :
  let s := (mark_storage_deleted 0 "a" ann uploaded).2 in
  let s := complete "b" 400 (create "b" 400 s) in
  get_reserved_usage_for_agency 1 (restore_deleted_storage "a" ann s).2 = 700.
Proof. vm_compute. reflexivity. Qed.
End Demo.

