(* ===== verification/OfferPhotos.v ===== *)
(** * Photos of offers

    Models src/server/services/offer_photo_lifecycle.py and src/core/data/offer_photos_repository.py,
    with the deletion, restoration and purge of offers (src/server/services/offers.py,
    src/core/data/offer_repo_write.py) and of listings (src/server/services/listings.py,
    src/core/data/listing_repo_write.py) that call them: the tables [offer_photos], [offers] and
    [listings] over those of [Storage].

    A photo shows a stored object; several offers may show the same one.  Each function is one
    transaction, which holds the advisory locks of its objects and the rows it changes.  [now] is
    the time of the transaction, [wall] the reading of the clock by the process.  Columns that
    nothing here reads are left out.  What the handlers ask of other components (generations of the
    caches, dirty match caches, rebuilds, visits and contracts of a listing) is the list of
    effects. *)

From S2P Require Import Prelude PyValue Storage.
Local Open Scope Z_scope.

(** [delete_origin], [delete_parent_scope] and [delete_parent_id] of a deleted photo. *)
Abbreviation provenance := (string * option string * option Z)%type.
Record photo := mkPhoto {
  ph_id : Z;
  ph_offer : Z;
  ph_agency : Z;
  ph_storage : string;
  ph_position : Z;
  ph_deleted_at : option Z;
  ph_origin : option provenance;
  ph_version : Z
}.
Record offer_row := mkOffer { of_id : Z; of_agency : Z; of_listing : Z; of_wilaya : option Z; of_deleted_at : option Z }.
Record listing_row := mkListing { li_id : Z; li_agency : Z; li_deleted_at : option Z }.

Inductive effect : Type :=
  | BumpListings (agency : Z)
  | WilayaDirty (wilaya : Z)
  | RebuildWilaya (wilaya : Z)
  | RebuildOffer (offer : Z) (demandes : list Z)
  | DependentsDeleted (listing : Z)
  | DependentsRestored (listing : Z)
  | DependentsPurged (listing : Z).

(** [ga_next] is the next id of offer_photos. *)
Record gallery := mkGallery {
  ga_storage : storage;
  ga_listings : list listing_row;
  ga_offers : list offer_row;
  ga_photos : list photo;
  ga_next : Z;
  ga_effects : list effect
}.
Abbreviation GM := (M gallery).

Definition NotFoundError (msg : string) : exn := OtherError ("NotFoundError: " +:+ msg).

(* src/core/contracts/offer_photo_lifecycle.py :: PHOTO_DELETE_ORIGIN_MANUAL *)
Definition PHOTO_DELETE_ORIGIN_MANUAL : string := "manual".
(* src/core/contracts/offer_photo_lifecycle.py :: PHOTO_DELETE_ORIGIN_OFFER_DELETED *)
Definition PHOTO_DELETE_ORIGIN_OFFER_DELETED : string := "offer_deleted".
(* src/core/contracts/offer_photo_lifecycle.py :: PHOTO_DELETE_ORIGIN_LISTING_DELETED *)
Definition PHOTO_DELETE_ORIGIN_LISTING_DELETED : string := "listing_deleted".
(* src/core/contracts/offer_photo_lifecycle.py :: PHOTO_DELETE_ORIGIN_OFFER_PURGED *)
Definition PHOTO_DELETE_ORIGIN_OFFER_PURGED : string := "offer_purged".
(* src/core/contracts/offer_photo_lifecycle.py :: PHOTO_DELETE_ORIGIN_LISTING_PURGED *)
Definition PHOTO_DELETE_ORIGIN_LISTING_PURGED : string := "listing_purged".
(* src/core/contracts/offer_photo_lifecycle.py :: PHOTO_DELETE_PARENT_SCOPE_OFFER *)
Definition PHOTO_DELETE_PARENT_SCOPE_OFFER : string := "offer".
(* src/core/contracts/offer_photo_lifecycle.py :: PHOTO_DELETE_PARENT_SCOPE_LISTING *)
Definition PHOTO_DELETE_PARENT_SCOPE_LISTING : string := "listing".

Definition set_storage (st : storage) (s : gallery) : gallery :=
  mkGallery st (ga_listings s) (ga_offers s) (ga_photos s) (ga_next s) (ga_effects s).
Definition set_photos (f : list photo → list photo) (s : gallery) : gallery :=
  mkGallery (ga_storage s) (ga_listings s) (ga_offers s) (f (ga_photos s)) (ga_next s) (ga_effects s).
Definition set_offers (f : list offer_row → list offer_row) (s : gallery) : gallery :=
  mkGallery (ga_storage s) (ga_listings s) (f (ga_offers s)) (ga_photos s) (ga_next s) (ga_effects s).
Definition set_listings (f : list listing_row → list listing_row) (s : gallery) : gallery :=
  mkGallery (ga_storage s) (f (ga_listings s)) (ga_offers s) (ga_photos s) (ga_next s) (ga_effects s).
Definition emit (e : effect) : GM unit :=
  modify (λ s, mkGallery (ga_storage s) (ga_listings s) (ga_offers s) (ga_photos s) (ga_next s) (ga_effects s ++ [e])).
(** A statement on the tables of [Storage]. *)
Definition in_storage {A} (m : SM A) : GM A := λ s, let '(r, st) := m (ga_storage s) in (r, set_storage st s).
Definition objects (s : gallery) : list storage_object := sg_objects (ga_storage s).

Definition shown (p : photo) : bool := bool_decide (ph_deleted_at p = None).
Definition marked_deleted (wall : Z) (origin : provenance) (p : photo) : photo :=
  mkPhoto (ph_id p) (ph_offer p) (ph_agency p) (ph_storage p) (ph_position p)
    (Some (default wall (ph_deleted_at p))) (Some origin) (ph_version p + 1).
Definition undeleted (position : Z) (p : photo) : photo :=
  mkPhoto (ph_id p) (ph_offer p) (ph_agency p) (ph_storage p) position None None (ph_version p + 1).
Definition of_offer_and_storage (offer : Z) (storage_id : string) (p : photo) : bool :=
  (ph_offer p =? offer) && bool_decide (ph_storage p = storage_id).
Definition by_id (l : list photo) : list photo := ssort (λ a b, ph_id a <=? ph_id b) l.
Definition update_photos (q : photo → bool) (f : photo → photo) : GM unit :=
  modify (set_photos (map (λ p, if q p then f p else p))).
(** The unique index uq_offer_photos_offer_storage_active, on the rows a statement leaves. *)
Definition shown_key (p : photo) : Z * string := (ph_offer p, ph_storage p).
Definition index_ok (l : list photo) : bool := bool_decide (NoDup (map shown_key (List.filter shown l))).
Definition check_index : GM unit := λ s, if index_ok (ga_photos s) then (Ok tt, s) else (Err UniqueViolation, s).

(** ** The rows (src/core/data/offer_photos_repository.py) *)

Definition photo_place_leb (a b : photo) : bool :=
  (ph_position a <? ph_position b) || (ph_position a =? ph_position b) && (ph_id a <=? ph_id b).
(* src/core/data/offer_photos_repository.py :: list_offer_photos *)
Definition list_offer_photos (offer : Z) (include_deleted : bool) : GM (list photo) :=
  gets (λ s, ssort photo_place_leb
               (List.filter (λ p, (ph_offer p =? offer) && (include_deleted || shown p)) (ga_photos s))).
(* src/core/data/offer_photos_repository.py :: get_offer_photo_by_id *)
Definition get_offer_photo_by_id (id : Z) : GM (option photo) := gets (λ s, List.find (λ p, ph_id p =? id) (ga_photos s)).
(* src/core/data/offer_photos_repository.py :: lock_offer_photo_by_id *)
Definition lock_offer_photo_by_id (id : Z) : GM (option photo) := get_offer_photo_by_id id.
Definition live (o : offer_row) : bool := bool_decide (of_deleted_at o = None).
Definition find_live_offer (offer : Z) (s : gallery) : option offer_row :=
  List.find (λ o, (of_id o =? offer) && live o) (ga_offers s).
(* src/core/data/offer_photos_repository.py :: lock_active_offer *)
Definition lock_active_offer (offer : Z) : GM (option offer_row) := gets (find_live_offer offer).
(* src/core/data/offer_photos_repository.py :: lock_active_offer_photo_for_storage *)
Definition lock_active_offer_photo_for_storage (offer : Z) (storage_id : string) : GM (option photo) :=
  gets (λ s, head (by_id (List.filter (λ p, of_offer_and_storage offer storage_id p && shown p) (ga_photos s)))).
Definition object_for (st : storage_status) (p : photo) (l : list storage_object) : bool :=
  existsb (λ o, has_id (ph_storage p) o && bool_decide (so_status o = st)
                && bool_decide (so_purpose o = OFFER_PHOTO_PURPOSE) && (so_agency o =? ph_agency p)) l.
(* src/core/data/offer_photos_repository.py :: lock_deleted_offer_photo_for_storage *)
Definition lock_deleted_offer_photo_for_storage (offer : Z) (storage_id : string) : GM (option photo) :=
  gets (λ s, last (by_id (List.filter (λ p, of_offer_and_storage offer storage_id p && negb (shown p)
                                            && object_for OBJECT_DELETED p (objects s)) (ga_photos s)))).
(* src/core/data/offer_photos_repository.py :: restore_deleted_offer_photo_for_storage *)
Definition restore_deleted_offer_photo_for_storage (offer : Z) (storage_id : string) (position : Z) : GM (option Z) :=
  let! candidate := gets (λ s, last (by_id (List.filter (λ p,
    of_offer_and_storage offer storage_id p && negb (shown p)
    && bool_decide (is_Some (find_live_offer (ph_offer p) s))
    && object_for OBJECT_READY p (objects s)) (ga_photos s)))) in
  match candidate with
  | None => ret None
  | Some c =>
      do! update_photos (λ p, ph_id p =? ph_id c) (undeleted position) in
      do! check_index in
      ret (Some (ph_id c))
  end.
(* src/core/data/offer_photos_repository.py :: count_active_storage_refs *)
Definition count_active_storage_refs (storage_id : string) (s : gallery) : Z :=
  Z.of_nat (List.length (List.filter (λ p, bool_decide (ph_storage p = storage_id) && shown p) (ga_photos s))).
(* src/core/data/offer_photos_repository.py :: create_offer_photo *)
Definition create_offer_photo (offer : Z) (storage_id : string) (position : Z) : GM (Z * bool) :=
  let! o := gets (find_live_offer offer) in
  match o with
  | None => raise (NotFoundError "Offer not found")
  | Some o =>
      let! known := gets (λ s, existsb (has_id storage_id) (objects s)) in
      if negb known then raise ForeignKeyViolation
      else
        let! existing := gets (λ s, List.find (λ p, of_offer_and_storage offer storage_id p && shown p) (ga_photos s)) in
        match existing with
        | Some p => ret (ph_id p, false)
        | None =>
            let! n := gets ga_next in
            do! modify (λ s, mkGallery (ga_storage s) (ga_listings s) (ga_offers s)
                  (ga_photos s ++ [mkPhoto n offer (of_agency o) storage_id position None None 1]) (n + 1) (ga_effects s)) in
            ret (n, true)
        end
  end.
(* src/core/data/offer_photos_repository.py :: mark_offer_photo_deleted *)
Definition mark_offer_photo_deleted (wall id : Z) (origin : provenance) : GM bool :=
  let target p := (ph_id p =? id) && shown p in
  let! n := gets (λ s, List.length (List.filter target (ga_photos s))) in
  do! update_photos target (marked_deleted wall origin) in
  ret (0 <? Z.of_nat n).
Definition nonempty_ids (l : list photo) : list string :=
  List.filter (λ i, negb (str_empty i)) (map ph_storage l).
(* src/core/data/offer_photos_repository.py :: mark_offer_photos_deleted_for_offers *)
Definition data_mark_offer_photos_deleted_for_offers (wall : Z) (offer_ids : list Z) (origin : provenance)
    (include_deleted : bool) : GM (list string) :=
  match offer_ids with
  | [] => ret []
  | _ =>
      let target p := bool_decide (ph_offer p ∈ offer_ids) && (include_deleted || shown p) in
      let! rows := gets (λ s, List.filter target (ga_photos s)) in
      do! update_photos target (marked_deleted wall origin) in
      ret (nonempty_ids rows)
  end.
Definition restores (offer_ids : list Z) (origin : provenance) (l : list storage_object) (p : photo) : bool :=
  bool_decide (ph_offer p ∈ offer_ids) && negb (shown p) && bool_decide (ph_origin p = Some origin)
  && object_for OBJECT_READY p l.
(* src/core/data/offer_photos_repository.py :: restore_offer_photos_for_offers *)
Definition data_restore_offer_photos_for_offers (offer_ids : list Z) (origin : provenance) : GM Z :=
  match offer_ids with
  | [] => ret 0
  | _ =>
      let! l := gets objects in
      let target := restores offer_ids origin l in
      let! n := gets (λ s, List.length (List.filter target (ga_photos s))) in
      do! modify (set_photos (map (λ p, if target p then undeleted (ph_position p) p else p))) in
      do! check_index in
      ret (Z.of_nat n)
  end.
(* src/core/data/offer_photos_repository.py :: list_storage_ids_for_offer_ids *)
Definition list_storage_ids_for_offer_ids (offer_ids : list Z) (include_deleted : bool) (origin : option provenance) :
    GM (list string) :=
  match offer_ids with
  | [] => ret []
  | _ => gets (λ s, nonempty_ids (List.filter (λ p,
           bool_decide (ph_offer p ∈ offer_ids) && (include_deleted || shown p)
           && match origin with Some o => bool_decide (ph_origin p = Some o) | None => true end) (ga_photos s)))
  end.

(** ** The lifecycle (src/server/services/offer_photo_lifecycle.py) *)

(* src/server/services/offer_photo_lifecycle.py :: OfferPhotoAttachResult *)
Record attach_result := mkAttach { at_photo : Z; at_created : bool; at_restored : bool }.
(* src/server/services/offer_photo_lifecycle.py :: OfferPhotoAttachResult.status_code *)
Definition status_code (r : attach_result) : Z := if at_created r || at_restored r then 201 else 200.

(** [sorted({...})] without the empty id. *)
Definition ordered_ids (ids : list string) : list string :=
  ssort str_leb (remove_dups (List.filter (λ i, negb (str_empty i)) ids)).
(** The ids in the order their locks are taken. *)
(* src/server/services/offer_photo_lifecycle.py :: _lock_photo_storage_aggregates *)
Definition _lock_photo_storage_aggregates (ids : list string) : list string := ordered_ids ids.
(** The rows, as they are when they are locked. *)
(* src/server/services/offer_photo_lifecycle.py :: _lock_storage_rows *)
Definition _lock_storage_rows (ids : list string) : GM (list storage_object) :=
  gets (λ s, List.filter (λ o, bool_decide (so_id o ∈ ordered_ids ids)) (objects s)).

Definition size_event (id type : string) (who : caller) (size : Z) : SM unit :=
  insert_storage_event id type who [("size_bytes", PInt size)].
(* src/server/services/offer_photo_lifecycle.py :: _restore_storage_in_transaction *)
Definition _restore_storage_in_transaction (row : storage_object) (who : caller) : GM unit :=
  in_storage (
    let! size := data_restore_deleted_storage (so_id row) in
    do! (if size =? 0 then ret tt else bump_storage_usage (so_agency row) size) in
    size_event (so_id row) "restored" who size).
(* src/server/services/offer_photo_lifecycle.py :: _delete_storage_if_unreferenced_in_transaction *)
Definition _delete_storage_if_unreferenced_in_transaction (now : Z) (storage_id : string)
    (row : option storage_object) (who : caller) : GM unit :=
  match row with
  | None => ret tt
  | Some row =>
      if negb (bool_decide (so_status row = OBJECT_READY)) then ret tt
      else
        let! remaining := gets (count_active_storage_refs storage_id) in
        if 0 <? remaining then ret tt
        else in_storage (
          let! size := data_mark_storage_deleted now storage_id in
          do! (if size =? 0 then ret tt else bump_storage_usage (so_agency row) (- size)) in
          size_event storage_id "deleted" who size)
  end.

(* src/server/services/offer_photo_lifecycle.py :: add_offer_photo *)
Definition add_offer_photo (agency offer : Z) (storage_id : string) (position : Z) (who : caller) : GM attach_result :=
  transaction (
    let! rows := _lock_storage_rows (_lock_photo_storage_aggregates [storage_id]) in
    match find_object storage_id rows with
    | None => raise (ValueError "Storage object not found.")
    | Some row =>
        let! o := lock_active_offer offer in
        match o with
        | None => raise (NotFoundError "Offer not found")
        | Some o =>
            if negb (bool_decide (so_purpose row = OFFER_PHOTO_PURPOSE)) then raise (ValueError "Storage object purpose mismatch.")
            else if negb ((so_agency row =? agency) && (of_agency o =? agency))
            then raise (ValueError "Storage object does not belong to this agency.")
            else
              let! existing := lock_active_offer_photo_for_storage offer storage_id in
              match existing with
              | Some p => ret (mkAttach (ph_id p) false false)
              | None =>
                  if bool_decide (so_status row = OBJECT_DELETED) then
                    let! deleted := lock_deleted_offer_photo_for_storage offer storage_id in
                    match deleted with
                    | None => raise (ValueError "Storage object is not ready.")
                    | Some _ =>
                        do! _restore_storage_in_transaction row who in
                        let! restored := restore_deleted_offer_photo_for_storage offer storage_id position in
                        match restored with
                        | None => raise (StorageError "Storage object could not be restored.")
                        | Some id => ret (mkAttach id false true)
                        end
                    end
                  else if negb (bool_decide (so_status row = OBJECT_READY)) then raise (ValueError "Storage object is not ready.")
                  else
                    let! r := create_offer_photo offer storage_id position in
                    ret (mkAttach r.1 r.2 false)
              end
        end
    end).

(* src/server/services/offer_photo_lifecycle.py :: delete_offer_photo *)
Definition delete_offer_photo (now wall id : Z) (who : caller) : GM bool :=
  transaction (
    let! photo := get_offer_photo_by_id id in
    match photo with
    | None => ret false
    | Some photo =>
        let storage_id := ph_storage photo in
        let! rows := (if str_empty storage_id then ret []
                      else _lock_storage_rows (_lock_photo_storage_aggregates [storage_id])) in
        let! locked := lock_offer_photo_by_id id in
        match locked with
        | None => ret false
        | Some locked =>
            if negb (shown locked) then ret false
            else
              let! deleted := mark_offer_photo_deleted wall id (PHOTO_DELETE_ORIGIN_MANUAL, None, None) in
              do! (if deleted && negb (str_empty storage_id)
                   then _delete_storage_if_unreferenced_in_transaction now storage_id (find_object storage_id rows) who
                   else ret tt) in
              ret deleted
        end
    end).

(* src/server/services/offer_photo_lifecycle.py :: mark_offer_photos_deleted_for_offers *)
Definition mark_offer_photos_deleted_for_offers (now wall : Z) (offer_ids : list Z) (origin : provenance) (who : caller)
    (include_deleted_for_cleanup : bool) : GM Z :=
  let! candidates := list_storage_ids_for_offer_ids offer_ids include_deleted_for_cleanup None in
  let ordered := _lock_photo_storage_aggregates candidates in
  let! rows := _lock_storage_rows ordered in
  let! deleted := data_mark_offer_photos_deleted_for_offers wall offer_ids origin include_deleted_for_cleanup in
  let swept := if include_deleted_for_cleanup then deleted ++ candidates else deleted in
  do! for_each (λ id, _delete_storage_if_unreferenced_in_transaction now id (find_object id rows) who)
        (ssort str_leb (remove_dups swept)) in
  ret (Z.of_nat (List.length deleted)).

(* src/server/services/offer_photo_lifecycle.py :: restore_offer_photos_for_offers *)
Definition restore_offer_photos_for_offers (offer_ids : list Z) (origin : provenance) (who : caller) : GM Z :=
  let! ids := list_storage_ids_for_offer_ids offer_ids true (Some origin) in
  let ordered := _lock_photo_storage_aggregates ids in
  let! rows := _lock_storage_rows ordered in
  do! for_each (λ id,
        match find_object id rows with
        | None => ret tt
        | Some row =>
            if negb (bool_decide (so_status row = OBJECT_DELETED)) then ret tt
            else if negb (bool_decide (so_purpose row = OFFER_PHOTO_PURPOSE)) then ret tt
            else _restore_storage_in_transaction row who
        end) ordered in
  data_restore_offer_photos_for_offers offer_ids origin.

(** ** Offers and listings that are deleted and come back *)

Definition set_offer_deleted (at_ : option Z) (q : offer_row → bool) : GM unit :=
  modify (set_offers (map (λ o, if q o then mkOffer (of_id o) (of_agency o) (of_listing o) (of_wilaya o) at_ else o))).
Definition set_listing_deleted (at_ : option Z) (listing : Z) : GM unit :=
  modify (set_listings (map (λ l, if li_id l =? listing then mkListing (li_id l) (li_agency l) at_ else l))).
Definition find_offer (offer : Z) (s : gallery) : option offer_row := List.find (λ o, of_id o =? offer) (ga_offers s).
Definition find_listing (listing : Z) (s : gallery) : option listing_row := List.find (λ l, li_id l =? listing) (ga_listings s).
Definition bump_listings (agency : option Z) : GM unit :=
  match agency with Some a => if 0 <? a then emit (BumpListings a) else ret tt | None => ret tt end.

(* src/core/data/offer_repo_read.py :: get_offer_by_id *)
Definition get_offer_by_id (offer : Z) (include_deleted : bool) : GM (option offer_row) :=
  gets (λ s, List.find (λ o, (of_id o =? offer) && (include_deleted || live o)
                             && existsb (λ l, li_id l =? of_listing o) (ga_listings s)) (ga_offers s)).
Definition z_leb (a b : Z) : bool := a <=? b.
Definition of_listing_b (listing : Z) (include_deleted : bool) (o : offer_row) : bool :=
  (of_listing o =? listing) && (include_deleted || live o).
(* src/core/data/offer_repo_read.py :: get_offer_ids_for_listing *)
Definition get_offer_ids_for_listing (listing : Z) (include_deleted : bool) : GM (list Z) :=
  gets (λ s, ssort z_leb (map of_id (List.filter (of_listing_b listing include_deleted) (ga_offers s)))).
(** The set, in order. *)
(* src/core/data/offer_repo_read.py :: get_offer_wilaya_ids_for_listing *)
Definition get_offer_wilaya_ids_for_listing (listing : Z) (include_deleted : bool) : GM (list Z) :=
  gets (λ s, ssort z_leb (remove_dups (List.filter (λ w, 0 <? w)
    (omap of_wilaya (List.filter (of_listing_b listing include_deleted) (ga_offers s)))))).

(** [write.delete_offer], [write.restore_offer] and [write.purge_offer] *)
(* src/core/data/offer_repo_write.py :: delete_offer *)
Definition write_delete_offer (wall offer : Z) : GM unit :=
  do! set_offer_deleted (Some wall) (λ o, of_id o =? offer) in
  let! o := gets (find_offer offer) in
  bump_listings (of_agency <$> o).
(* src/core/data/offer_repo_write.py :: restore_offer *)
Definition write_restore_offer (offer : Z) : GM unit :=
  do! set_offer_deleted None (λ o, of_id o =? offer) in
  let! o := gets (find_offer offer) in
  bump_listings (of_agency <$> o).
(** The photos of a removed offer go with it (ON DELETE CASCADE). *)
Definition drop_offers (q : offer_row → bool) : GM unit :=
  modify (λ s, let gone := map of_id (List.filter q (ga_offers s)) in
    set_photos (List.filter (λ p, negb (bool_decide (ph_offer p ∈ gone))))
      (set_offers (List.filter (λ o, negb (q o))) s)).
(* src/core/data/offer_repo_write.py :: purge_offer *)
Definition write_purge_offer (offer : Z) : GM unit :=
  let! o := gets (find_offer offer) in
  do! drop_offers (λ o, of_id o =? offer) in
  bump_listings (of_agency <$> o).
(* src/core/data/listing_repo_write.py :: delete_listing *)
Definition write_delete_listing (wall listing : Z) : GM unit :=
  do! set_listing_deleted (Some wall) listing in
  do! set_offer_deleted (Some wall) (λ o, of_listing o =? listing) in
  do! emit (DependentsDeleted listing) in
  let! l := gets (find_listing listing) in
  bump_listings (li_agency <$> l).
(* src/core/data/listing_repo_write.py :: restore_listing *)
Definition write_restore_listing (listing : Z) : GM unit :=
  do! set_listing_deleted None listing in
  do! set_offer_deleted None (λ o, of_listing o =? listing) in
  do! emit (DependentsRestored listing) in
  let! l := gets (find_listing listing) in
  bump_listings (li_agency <$> l).
(* src/core/data/listing_repo_write.py :: purge_listing *)
Definition write_purge_listing (listing : Z) : GM unit :=
  let! l := gets (find_listing listing) in
  do! drop_offers (λ o, of_listing o =? listing) in
  do! emit (DependentsPurged listing) in
  do! modify (set_listings (List.filter (λ l, negb (li_id l =? listing)))) in
  bump_listings (li_agency <$> l).

Definition mark_wilaya_dirty (o : option offer_row) : GM unit :=
  match o with
  | Some o => match of_wilaya o with Some w => if w =? 0 then ret tt else emit (WilayaDirty w) | None => ret tt end
  | None => ret tt
  end.
(** The caller of the photos' lifecycle when the handlers give none. *)
Definition nobody : caller := mkCaller None None None.

(* src/server/services/offers.py :: delete_offer *)
Definition delete_offer (now wall offer : Z) : GM unit :=
  transaction (
    let! o := get_offer_by_id offer false in
    do! write_delete_offer wall offer in
    let! _ := mark_offer_photos_deleted_for_offers now wall [offer]
                (PHOTO_DELETE_ORIGIN_OFFER_DELETED, Some PHOTO_DELETE_PARENT_SCOPE_OFFER, Some offer) nobody false in
    do! mark_wilaya_dirty o in
    emit (RebuildOffer offer [])).
(* src/server/services/offers.py :: restore_offer *)
Definition restore_offer (offer : Z) : GM unit :=
  transaction (
    do! write_restore_offer offer in
    let! _ := restore_offer_photos_for_offers [offer]
                (PHOTO_DELETE_ORIGIN_OFFER_DELETED, Some PHOTO_DELETE_PARENT_SCOPE_OFFER, Some offer) nobody in
    let! o := get_offer_by_id offer false in
    do! mark_wilaya_dirty o in
    emit (RebuildOffer offer [])).
(* src/server/services/offers.py :: purge_offer *)
Definition purge_offer (now wall offer : Z) : GM unit :=
  transaction (
    let! o := get_offer_by_id offer true in
    let! _ := mark_offer_photos_deleted_for_offers now wall [offer]
                (PHOTO_DELETE_ORIGIN_OFFER_PURGED, Some PHOTO_DELETE_PARENT_SCOPE_OFFER, Some offer) nobody true in
    do! write_purge_offer offer in
    do! mark_wilaya_dirty o in
    emit (RebuildOffer offer [])).

(** [hints]: the demandes that match some of the offers (of other tables). *)
(* src/server/services/listings.py :: _run_listing_delete_or_purge_post_commit *)
Definition _run_listing_delete_or_purge_post_commit (wilayas : list Z) (hints : list (Z * list Z)) (offer_ids : list Z) : GM unit :=
  do! for_each (λ w, emit (RebuildWilaya w)) wilayas in
  do! for_each (λ h : Z * list Z, emit (RebuildOffer h.1 h.2)) hints in
  for_each (λ i, if bool_decide (i ∈ map fst hints) then ret tt else emit (RebuildOffer i [])) offer_ids.
(* src/server/services/listings.py :: _run_listing_restore_post_commit *)
Definition _run_listing_restore_post_commit (wilayas offer_ids : list Z) : GM unit :=
  do! for_each (λ w, emit (RebuildWilaya w)) wilayas in
  for_each (λ i, emit (RebuildOffer i [])) offer_ids.
(* src/server/services/listings.py :: delete_listing *)
Definition delete_listing (now wall : Z) (hints : list Z → list (Z * list Z)) (listing : Z) : GM unit :=
  transaction (
    let! wilayas := get_offer_wilaya_ids_for_listing listing false in
    let! offer_ids := get_offer_ids_for_listing listing false in
    do! write_delete_listing wall listing in
    let! _ := mark_offer_photos_deleted_for_offers now wall offer_ids
                (PHOTO_DELETE_ORIGIN_LISTING_DELETED, Some PHOTO_DELETE_PARENT_SCOPE_LISTING, Some listing) nobody false in
    do! for_each (λ w, emit (WilayaDirty w)) wilayas in
    _run_listing_delete_or_purge_post_commit wilayas (hints offer_ids) offer_ids).
(* src/server/services/listings.py :: restore_listing *)
Definition restore_listing (listing : Z) : GM unit :=
  transaction (
    do! write_restore_listing listing in
    let! wilayas := get_offer_wilaya_ids_for_listing listing false in
    let! offer_ids := get_offer_ids_for_listing listing false in
    let! _ := restore_offer_photos_for_offers offer_ids
                (PHOTO_DELETE_ORIGIN_LISTING_DELETED, Some PHOTO_DELETE_PARENT_SCOPE_LISTING, Some listing) nobody in
    do! for_each (λ w, emit (WilayaDirty w)) wilayas in
    _run_listing_restore_post_commit wilayas offer_ids).
(* src/server/services/listings.py :: purge_listing *)
Definition purge_listing (now wall : Z) (hints : list Z → list (Z * list Z)) (listing : Z) : GM unit :=
  transaction (
    let! wilayas := get_offer_wilaya_ids_for_listing listing true in
    let! offer_ids := get_offer_ids_for_listing listing true in
    let! _ := mark_offer_photos_deleted_for_offers now wall offer_ids
                (PHOTO_DELETE_ORIGIN_LISTING_PURGED, Some PHOTO_DELETE_PARENT_SCOPE_LISTING, Some listing) nobody true in
    do! write_purge_listing listing in
    do! for_each (λ w, emit (WilayaDirty w)) wilayas in
    _run_listing_delete_or_purge_post_commit wilayas (hints offer_ids) offer_ids).
