(* ===== verification/OfferPhotoProps.v ===== *)
(** * Photos show objects that are there, and no others are kept

    Over any history of attachments, deletions and restorations of photos, offers and listings. *)

From S2P Require Import Prelude PyValue Storage StorageProps OfferPhotos.
Local Open Scope Z_scope.

Definition ready (s : gallery) (id : string) : Prop :=
  ∃ o, find_object id (objects s) = Some o ∧ so_status o = OBJECT_READY.

(** The rows of offer_photos, but for the offers in [Y], whose photos are about to follow them. *)
Record photo_rows (Y : Z → Prop) (s : gallery) : Prop := mkPhotoRows {
  pr_ids : NoDup (map ph_id (ga_photos s));
  pr_next : ∀ p, p ∈ ga_photos s → ph_id p < ga_next s;
  pr_offers : NoDup (map of_id (ga_offers s));
  pr_offer : ∀ p, p ∈ ga_photos s →
    ∃ o, o ∈ ga_offers s ∧ of_id o = ph_offer p ∧ (shown p = true → live o = true ∨ Y (ph_offer p));
  pr_index : NoDup (map shown_key (List.filter shown (ga_photos s)));
  pr_origin : ∀ p, p ∈ ga_photos s → shown p = true → ph_origin p = None
}.
(** The objects behind them, but for those in [X], which are about to be settled. *)
Record photo_objects (X : string → Prop) (s : gallery) : Prop := mkPhotoObjects {
  po_ledger : ledger_ok (ga_storage s);
  po_object : ∀ p, p ∈ ga_photos s → ∃ o, find_object (ph_storage p) (objects s) = Some o
    ∧ so_agency o = ph_agency p ∧ so_purpose o = OFFER_PHOTO_PURPOSE ∧ so_status o ≠ OBJECT_PENDING;
  po_named : ∀ p, p ∈ ga_photos s → ph_storage p ≠ EmptyString;
  po_shown : ∀ p, p ∈ ga_photos s → shown p = true → ready s (ph_storage p);
  po_settled : ∀ p, p ∈ ga_photos s → ready s (ph_storage p) →
    X (ph_storage p) ∨ ∃ q, q ∈ ga_photos s ∧ shown q = true ∧ ph_storage q = ph_storage p
}.
Definition none {A} (_ : A) : Prop := False.
Definition consistent (s : gallery) : Prop := photo_rows none s ∧ photo_objects none s.

(** What is not in these tables does not matter. *)
Definition same_tables (s s' : gallery) : Prop :=
  ga_storage s' = ga_storage s ∧ ga_offers s' = ga_offers s ∧ ga_photos s' = ga_photos s ∧ ga_next s' = ga_next s.
Lemma rows_same Y s s' :
  ga_offers s' = ga_offers s → ga_photos s' = ga_photos s → ga_next s' = ga_next s → photo_rows Y s → photo_rows Y s'.
Proof. intros E1 E2 E3 []. split; rewrite ?E1, ?E2, ?E3; auto. Qed.
Lemma objects_same X s s' :
  ga_storage s' = ga_storage s → ga_photos s' = ga_photos s → photo_objects X s → photo_objects X s'.
Proof. intros E1 E2 []. split; unfold ready, objects in *; rewrite ?E1, ?E2; auto. Qed.
Lemma consistent_same s s' : same_tables s s' → consistent s → consistent s'.
Proof. intros (E1 & E2 & E3 & E4) [Hr Ho]. split; [by apply (rows_same _ s)|by apply (objects_same _ s)]. Qed.

Lemma rows_weaken (Y Y' : Z → Prop) s : (∀ o, Y o → Y' o) → photo_rows Y s → photo_rows Y' s.
Proof. intros Hi []. split; auto. intros p Hp. destruct (pr_offer0 p Hp) as (o & ? & ? & Hl). exists o. split_and!; [done..|]. intros Hs. destruct (Hl Hs); auto. Qed.
Lemma objects_weaken (X X' : string → Prop) s : (∀ i, X i → X' i) → photo_objects X s → photo_objects X' s.
Proof. intros Hi []. split; auto. intros p Hp Hr. destruct (po_settled0 p Hp Hr); auto. Qed.

(** ** Photos that change by a map *)

Section Mapped.
Context (f : photo → photo).
Context (f_id : ∀ p, ph_id (f p) = ph_id p) (f_offer : ∀ p, ph_offer (f p) = ph_offer p).
Context (f_storage : ∀ p, ph_storage (f p) = ph_storage p) (f_agency : ∀ p, ph_agency (f p) = ph_agency p).

Lemma mapped_rows Y Y' s :
  photo_rows Y s →
  (∀ p, p ∈ ga_photos s → shown (f p) = true →
     ph_origin (f p) = None ∧ ∀ o, o ∈ ga_offers s → of_id o = ph_offer p → live o = true ∨ Y' (ph_offer p)) →
  NoDup (map shown_key (List.filter shown (map f (ga_photos s)))) →
  photo_rows Y' (set_photos (map f) s).
Proof.
  intros H Hf Hi. split; cbn.
  - rewrite map_map. erewrite map_ext; [apply H|done].
  - intros p (q & -> & Hq)%elem_of_map. rewrite f_id. by apply H.
  - apply H.
  - intros p (q & -> & Hq)%elem_of_map. destruct (pr_offer _ _ H q Hq) as (o & Ho & Hoq & _).
    exists o. rewrite f_offer. split_and!; [done..|]. intros Hs. by eapply (Hf q).
  - done.
  - intros p (q & -> & Hq)%elem_of_map Hs. by apply (Hf q).
Qed.
Lemma mapped_objects X X' s :
  photo_objects X s →
  (∀ p, p ∈ ga_photos s → shown (f p) = true → ready s (ph_storage p)) →
  (∀ p, p ∈ ga_photos s → ready s (ph_storage p) →
     X' (ph_storage p) ∨ ∃ q, q ∈ ga_photos s ∧ shown (f q) = true ∧ ph_storage q = ph_storage p) →
  photo_objects X' (set_photos (map f) s).
Proof.
  intros H Hr Hs. split; cbn.
  - apply H.
  - intros p (q & -> & Hq)%elem_of_map. rewrite f_storage, f_agency. by apply H.
  - intros p (q & -> & Hq)%elem_of_map. rewrite f_storage. by eapply H.
  - intros p (q & -> & Hq)%elem_of_map. rewrite f_storage. by apply Hr.
  - intros p (q & -> & Hq)%elem_of_map. rewrite f_storage. intros Hready.
    destruct (Hs q Hq Hready) as [?|(x & Hx & Hsx & Ex)]; [by left|right]. exists (f x). rewrite f_storage.
    split_and!; [|done..]. apply elem_of_map. by exists x.
Qed.
End Mapped.

(** ** Photos marked deleted *)

Definition mark (wall : Z) (origin : provenance) (q : photo → bool) (p : photo) : photo :=
  if q p then marked_deleted wall origin p else p.
Lemma shown_marked wall origin q p : shown (mark wall origin q p) = shown p && negb (q p).
Proof. unfold mark. by destruct (q p); rewrite ?andb_false_r, ?andb_true_r. Qed.
Lemma mark_keys wall origin q l :
  map shown_key (List.filter shown (map (mark wall origin q) l)) = map shown_key (List.filter (λ p, negb (q p)) (List.filter shown l)).
Proof.
  rewrite filter_filter_b. induction l as [|p l IH]; [done|]. cbn [map List.filter]. rewrite shown_marked.
  destruct (shown p && negb (q p)) eqn:E; cbn [map]; [|done]. f_equal; [|done].
  unfold mark. by destruct (q p).
Qed.

Lemma marked_rows Y Y' wall origin q s :
  photo_rows Y s →
  (∀ p, p ∈ ga_photos s → shown p = true → q p = false → Y (ph_offer p) → Y' (ph_offer p)) →
  photo_rows Y' (set_photos (map (mark wall origin q)) s).
Proof.
  intros H HY. apply (mapped_rows (mark wall origin q)) with (Y := Y); try done; try (intros p; unfold mark; by destruct (q p)).
  - intros p Hp. rewrite shown_marked, andb_true_iff, negb_true_iff. intros [Hs Hq]. unfold mark. rewrite Hq.
    split; [by apply H|]. intros o Ho Hop. destruct (pr_offer _ _ H p Hp) as (o' & Ho' & Hop' & Hl).
    assert (o = o') as -> by (eapply (NoDup_map_inj_on of_id); [apply H|done..|congruence]).
    destruct (Hl Hs); eauto.
  - rewrite mark_keys. apply NoDup_map_filter, H.
Qed.
Lemma marked_objects X wall origin q s :
  photo_objects X s →
  photo_objects (λ i, X i ∨ ∃ p, p ∈ ga_photos s ∧ q p = true ∧ shown p = true ∧ ph_storage p = i)
    (set_photos (map (mark wall origin q)) s).
Proof.
  intros H. eapply mapped_objects; [unfold mark; intros p; by destruct (q p)..|exact H| |].
  - intros p Hp. rewrite shown_marked, andb_true_iff. intros [Hs _]. by apply H.
  - intros p Hp Hr. destruct (po_settled _ _ H p Hp Hr) as [?|(x & Hx & Hs & Ex)]; [by left; left|].
    destruct (q x) eqn:Eq; [left; right; by exists x|right]. exists x. by rewrite shown_marked, Hs, Eq.
Qed.

(** ** Sweeping: an object that no photo shows any more is deleted *)

Lemma refs_none i s :
  count_active_storage_refs i s = 0 ↔ ∀ p, p ∈ ga_photos s → ph_storage p = i → shown p = false.
Proof.
  unfold count_active_storage_refs. split.
  - intros H p Hp Hi. apply not_true_iff_false. intros Hs.
    assert (p ∈ List.filter (λ p, bool_decide (ph_storage p = i) && shown p) (ga_photos s)) as Hin.
    { apply elem_of_filter_b. by rewrite bool_decide_true, Hs. }
    destruct (List.filter _ _); [by apply elem_of_nil in Hin|done].
  - intros H. rewrite filter_none; [done|]. apply Forall_forall. intros p Hp.
    destruct (bool_decide_reflect (ph_storage p = i)); [|done]. by rewrite H.
Qed.

(** The tables of photos and offers stay. *)
Definition on_objects (s s' : gallery) : Prop :=
  ga_listings s' = ga_listings s ∧ ga_offers s' = ga_offers s ∧ ga_photos s' = ga_photos s
  ∧ ga_next s' = ga_next s ∧ ga_effects s' = ga_effects s.
#[export] Instance on_objects_preorder : PreOrder on_objects.
Proof. split; unfold on_objects; [done|]. intros ???. intuition congruence. Qed.

Definition any : string → Prop := λ _, True.
Section Lifecycle.
Context (config : storage_config).

Lemma in_storage_run {A} (m : SM A) s r st : m (ga_storage s) = (r, st) → in_storage m s = (r, set_storage st s).
Proof. unfold in_storage. by intros ->. Qed.

(** One object whose row changes to another status. *)
Lemma status_of_other i s st f o :
  find_object i (objects s) = Some o → (∀ x, so_id (f x) = so_id x) →
  sg_objects st = replace i f (objects s) →
  ∀ j, find_object j (sg_objects st) = if decide (j = i) then Some (f o) else find_object j (objects s).
Proof.
  intros Ho Hid E j. rewrite E, find_replace by done. destruct (decide (j = i)) as [->|]; [by rewrite Ho|done].
Qed.

Lemma objects_changed X X' s st i f o :
  photo_objects X s → ledger_ok st → find_object i (objects s) = Some o → sg_objects st = replace i f (objects s) →
  (∀ x, so_id (f x) = so_id x) → so_agency (f o) = so_agency o → so_purpose (f o) = so_purpose o →
  so_status (f o) ≠ OBJECT_PENDING →
  (∀ p, p ∈ ga_photos s → ph_storage p = i → shown p = true → so_status (f o) = OBJECT_READY) →
  (so_status (f o) = OBJECT_READY → X' i ∨ ∃ q, q ∈ ga_photos s ∧ shown q = true ∧ ph_storage q = i) →
  (∀ j, j ≠ i → X j → X' j) →
  photo_objects X' (set_storage st s).
Proof.
  intros H Hl Ho E Hid Ha Hp Hs Hshown Hsettled HX. pose proof (status_of_other i s st f o Ho Hid E) as Hf.
  assert (∀ j, ready (set_storage st s) j ↔ if decide (j = i) then so_status (f o) = OBJECT_READY else ready s j) as Hready.
  { intros j. unfold ready, objects at 1. cbn. rewrite Hf. destruct (decide (j = i)); [|done].
    split; [by intros (? & [= <-] & ?)|]. intros ?. by exists (f o). }
  split; cbn.
  - done.
  - intros p Hin. unfold objects. cbn. rewrite Hf. destruct (po_object _ _ H p Hin) as (o' & Ho' & ? & ? & ?).
    destruct (decide _) as [Ei|]; [|by exists o']. rewrite Ei, Ho in Ho'. injection Ho' as <-. exists (f o).
    split_and!; congruence.
  - apply H.
  - intros p Hin Hsh. apply Hready. destruct (decide _) as [Ei|]; [by apply (Hshown p)|by apply H].
  - intros p Hin Hr%Hready. destruct (decide _) as [->|Hne]; [by apply Hsettled|].
    destruct (po_settled _ _ H p Hin Hr); [left; by apply HX|by right].
Qed.

(** The rows of ready objects among [ids] that were deleted; the others stay. *)
Definition swept_row (now : Z) (ids : list string) (o o' : storage_object) : Prop :=
  o' = o ∨ so_id o ∈ ids ∧ so_status o = OBJECT_READY ∧ o' = with_status OBJECT_DELETED (Some now) o.
Definition swept (now : Z) (ids : list string) : list storage_object → list storage_object → Prop := Forall2 (swept_row now ids).
Lemma swept_refl now ids l : swept now ids l l.
Proof. unfold swept. induction l; constructor; [by left|done]. Qed.
Lemma swept_trans now ids l1 l2 l3 : swept now ids l1 l2 → swept now ids l2 l3 → swept now ids l1 l3.
Proof.
  unfold swept. intros H. revert l3. induction H as [|o1 o2 l1 l2 H12 _ IH]; intros l3 H3; [done|].
  inversion_clear H3 as [|? o3 ? l3' H23 Hl]. constructor; [|by apply IH].
  destruct H12 as [->|(H1 & H2 & ->)]; [done|]. destruct H23 as [->|(_ & H3 & _)]; [by right|done].
Qed.
Lemma swept_weaken now ids ids' l l' : ids ⊆ ids' → swept now ids l l' → swept now ids' l l'.
Proof. intros Hi H. eapply Forall2_impl; [exact H|]. intros o o' [->|(? & ? & ?)]; [by left|right; split_and!; auto]. Qed.
Lemma swept_replace now i o l :
  NoDup (map so_id l) → find_object i l = Some o → so_status o = OBJECT_READY →
  swept now [i] l (replace i (with_status OBJECT_DELETED (Some now)) l).
Proof.
  intros Hnd Ho Hr.
  assert (∀ l', (∀ x, x ∈ l' → x ∈ l) → swept now [i] l' (replace i (with_status OBJECT_DELETED (Some now)) l')) as H; [|by apply H].
  induction l' as [|x l' IH]; intros Hl'; constructor; [|apply IH; intros ? ?; apply Hl'; by right].
  specialize (Hl' x (list_elem_of_here _ _)) as Hx. destruct (has_id i x) eqn:E; [|by left]. apply has_object_id_true in E. right.
  assert (Some x = Some o) as [= ->] by (rewrite <- Ho; symmetry; by apply find_object_elem).
  by rewrite E, list_elem_of_singleton.
Qed.

Lemma sweep_one now i row who X s :
  photo_objects X s → row = find_object i (objects s) →
  ∃ s', _delete_storage_if_unreferenced_in_transaction now i row who s = (Ok tt, s')
    ∧ photo_objects (λ j, X j ∧ j ≠ i) s' ∧ on_objects s s' ∧ swept now [i] (objects s) (objects s')
    ∧ ∀ j, j ≠ i → find_object j (objects s') = find_object j (objects s).
Proof.
  intros H ->. unfold _delete_storage_if_unreferenced_in_transaction.
  assert (((∃ o, find_object i (objects s) = Some o ∧ so_status o = OBJECT_READY) →
            ∃ q, q ∈ ga_photos s ∧ shown q = true ∧ ph_storage q = i) →
          ∃ s', (ret tt : GM unit) s = (Ok tt, s') ∧ photo_objects (λ j, X j ∧ j ≠ i) s' ∧ on_objects s s'
            ∧ swept now [i] (objects s) (objects s') ∧ ∀ j, j ≠ i → find_object j (objects s') = find_object j (objects s)) as Hkeep.
  { intros Hq. exists s. split_and!; [done| |done|apply swept_refl|done]. destruct H. split; auto. intros p Hp Hr.
    destruct (decide (ph_storage p = i)) as [E|Hne]; [right; rewrite E in Hr |- *; by apply Hq|].
    destruct (po_settled0 p Hp Hr); [by left|by right]. }
  destruct (find_object i (objects s)) as [o|] eqn:Ho; [|apply Hkeep; by intros (? & ? & _)].
  destruct (bool_decide_reflect (so_status o = OBJECT_READY)) as [Hr|Hr]; cbn [negb];
    [|apply Hkeep; by intros (? & [= ->] & ?)].
  rewrite bind_gets. destruct (Z.ltb_spec 0 (count_active_storage_refs i s)) as [Hc|Hc].
  - apply Hkeep. intros _. destruct (List.filter (λ p, bool_decide (ph_storage p = i) && shown p) (ga_photos s)) as [|q l] eqn:E.
    { unfold count_active_storage_refs in Hc. rewrite E in Hc. done. }
    assert (q ∈ List.filter (λ p, bool_decide (ph_storage p = i) && shown p) (ga_photos s)) as Hq by (rewrite E; left).
    apply elem_of_filter_b in Hq as [[Hq1 Hq2]%andb_true_iff Hq]. apply bool_decide_eq_true in Hq1. by exists q.
  - assert (count_active_storage_refs i s = 0) as Hc0 by (unfold count_active_storage_refs in *; lia).
    rewrite refs_none in Hc0. pose proof (ledger_size _ _ _ (po_ledger _ _ H) Ho) as Hz.
    destruct (deleted_move config false any now i o (ga_storage s)) as (st & E & Eo & M); [done..|].
    set (st' := (size_event i "deleted" who (so_size o) st).2). exists (set_storage st' s).
    assert (ledger_ok st') as Hl by (apply (ledger_same st); [done..|]; by eapply move_ledger, po_ledger).
    split; [apply in_storage_run; by rewrite E|]. split; [|split; [done|split]].
    + eapply (objects_changed X); [done|done|done|exact Eo|done..|by intros p Hp ->%Hc0|done|done].
    + change (swept now [i] (objects s) (sg_objects st)). rewrite Eo. eapply swept_replace; [apply H|done|done].
    + intros j Hj. change (find_object j (sg_objects st) = find_object j (objects s)).
      rewrite Eo, find_replace by done. by rewrite decide_False.
Qed.

Lemma sweep_all now ids who rows X s :
  photo_objects X s → NoDup ids → (∀ i, i ∈ ids → find_object i rows = find_object i (objects s)) →
  ∃ s', for_each (λ i, _delete_storage_if_unreferenced_in_transaction now i (find_object i rows) who) ids s = (Ok tt, s')
    ∧ photo_objects (λ j, X j ∧ j ∉ ids) s' ∧ on_objects s s' ∧ swept now ids (objects s) (objects s').
Proof.
  revert X s. induction ids as [|i ids IH]; intros X s H Hnd Hrows; cbn [for_each].
  - exists s. split_and!; [done| |done|apply swept_refl]. eapply objects_weaken, H. intros i Hi. split; [done|apply not_elem_of_nil].
  - apply NoDup_cons in Hnd as [Hi Hnd].
    destruct (sweep_one now i (find_object i rows) who X s) as (s1 & E1 & H1 & S1 & W1 & F1); [done|by apply Hrows; left|].
    rewrite (bind_ok _ _ _ _ _ E1).
    destruct (IH _ s1 H1 Hnd) as (s' & E' & H' & S' & W').
    { intros j Hj. rewrite F1 by (intros ->; done). apply Hrows. by right. }
    exists s'. split_and!; [done| |by etrans|].
    + eapply objects_weaken, H'. cbn. intros j [[? ?] ?]. split; [done|]. by apply not_elem_of_cons.
    + eapply swept_trans; eapply swept_weaken; [|exact W1| |exact W']; [|by right].
      intros j ->%list_elem_of_singleton. left.
Qed.

Lemma elem_of_ordered i l : i ∈ ordered_ids l ↔ i ∈ l ∧ i ≠ EmptyString.
Proof.
  unfold ordered_ids. rewrite ssort_perm, elem_of_remove_dups, elem_of_filter_b, negb_true_iff.
  assert (str_empty i = false ↔ i ≠ EmptyString) as -> by (by destruct i). tauto.
Qed.
Lemma NoDup_ordered l : NoDup (ordered_ids l).
Proof. unfold ordered_ids. rewrite ssort_perm. apply NoDup_remove_dups. Qed.
Lemma find_filtered i (q : storage_object → bool) l :
  (∀ o, so_id o = i → q o = true) → find_object i (List.filter q l) = find_object i l.
Proof.
  intros Hq. unfold find_object. induction l as [|o l IH]; [done|]. cbn. destruct (has_id i o) eqn:E.
  - apply has_object_id_true in E. rewrite Hq by done. cbn. by rewrite (proj2 (has_object_id_true i o) E).
  - destruct (q o); cbn; [by rewrite E|done].
Qed.
(** The rows as they were locked are those of the table. *)
Lemma locked_rows ids i s :
  i ∈ ids → i ≠ EmptyString →
  find_object i (List.filter (λ o, bool_decide (so_id o ∈ ordered_ids ids)) (objects s)) = find_object i (objects s).
Proof. intros Hi Hne. apply find_filtered. intros o ->. apply bool_decide_eq_true. by apply elem_of_ordered. Qed.

Lemma elem_of_nonempty i l : i ∈ nonempty_ids l ↔ i ≠ EmptyString ∧ ∃ p, p ∈ l ∧ ph_storage p = i.
Proof.
  unfold nonempty_ids. rewrite elem_of_filter_b, elem_of_map, negb_true_iff.
  assert (str_empty i = false ↔ i ≠ EmptyString) as -> by (by destruct i).
  split; intros [He (p & Hp1 & Hp2)]; (split; [done|]); exists p; done.
Qed.

(** The photos of some offers are marked, and the objects nobody shows any more deleted. *)
Definition target (offer_ids : list Z) (all : bool) (p : photo) : bool :=
  bool_decide (ph_offer p ∈ offer_ids) && (all || shown p).
Lemma marked_run now wall offer_ids origin who all Y s :
  photo_rows Y s → photo_objects none s →
  ∃ n s', mark_offer_photos_deleted_for_offers now wall offer_ids origin who all s = (Ok n, s')
    ∧ ga_photos s' = map (mark wall origin (target offer_ids all)) (ga_photos s)
    ∧ ga_offers s' = ga_offers s ∧ ga_next s' = ga_next s ∧ ga_effects s' = ga_effects s ∧ ga_listings s' = ga_listings s
    ∧ photo_rows (λ o, Y o ∧ o ∉ offer_ids) s' ∧ photo_objects none s'
    ∧ swept now (nonempty_ids (List.filter (target offer_ids all) (ga_photos s))) (objects s) (objects s').
Proof.
  intros Hr Ho. set (q := target offer_ids all).
  assert (Hq : ∀ p, p ∈ ga_photos s → shown p = true → q p = false → Y (ph_offer p) → Y (ph_offer p) ∧ ph_offer p ∉ offer_ids).
  { intros p _ Hs Hqp HY. split; [done|]. intros Hin. unfold q, target in Hqp. rewrite Hs, bool_decide_true, orb_true_r in Hqp; done. }
  pose proof (marked_rows Y (λ o, Y o ∧ o ∉ offer_ids) wall origin q s Hr Hq) as Hr1. pose proof (marked_objects _ wall origin q s Ho) as Ho1.
  set (s1 := set_photos (map (mark wall origin q)) s) in *.
  assert (∃ cand deleted, list_storage_ids_for_offer_ids offer_ids all None s = (Ok cand, s)
    ∧ data_mark_offer_photos_deleted_for_offers wall offer_ids origin all s = (Ok deleted, s1)
    ∧ cand = nonempty_ids (List.filter q (ga_photos s)) ∧ deleted = nonempty_ids (List.filter q (ga_photos s)))
    as (cand & deleted & Ec & Ed & Hcand & Hdel).
  { unfold list_storage_ids_for_offer_ids, data_mark_offer_photos_deleted_for_offers. destruct offer_ids as [|x xs].
    - exists [], []. split_and!; [done| | |].
      + unfold s1, ret. f_equal. destruct s; cbn. unfold set_photos. cbn. f_equal.
        rewrite <- (map_id ga_photos) at 1. by apply map_ext.
      + rewrite filter_none; [done|]. by apply Forall_forall.
      + rewrite filter_none; [done|]. by apply Forall_forall.
    - eexists _, _. split_and!; [|reflexivity|done|reflexivity]. unfold gets, q, target. do 3 f_equal.
      apply List.filter_ext. intros p. by rewrite andb_true_r. }
  unfold mark_offer_photos_deleted_for_offers. rewrite (bind_ok _ _ _ _ _ Ec).
  unfold _lock_storage_rows. rewrite bind_gets. rewrite (bind_ok _ _ _ _ _ Ed).
  set (rows := List.filter _ (objects s)). set (swept := ssort str_leb _).
  assert (Hsw : ∀ i, i ∈ swept ↔ i ∈ nonempty_ids (List.filter q (ga_photos s))).
  { intros i. unfold swept. rewrite ssort_perm, elem_of_remove_dups. subst cand deleted. destruct all; [rewrite elem_of_app|]; tauto. }
  destruct (sweep_all now swept who rows _ s1 Ho1) as (s' & E' & Ho' & Hs' & Hw').
  { unfold swept. rewrite ssort_perm. apply NoDup_remove_dups. }
  { intros i Hi%Hsw. change (objects s1) with (objects s). unfold rows, _lock_photo_storage_aggregates. subst cand.
    apply locked_rows; [apply elem_of_ordered; split; [done|]|]; by apply elem_of_nonempty in Hi as [? _]. }
  rewrite (bind_ok _ _ _ _ _ E'). eexists _, s'. split; [done|]. destruct Hs' as (? & Hof & Hph & Hn & He).
  split_and!; [done..| | |].
  - by apply (rows_same _ s1).
  - eapply objects_weaken, Ho'. intros i [[[]|(p & Hp & Hqp & Hsp & <-)] Hn']. destruct Hn'. apply Hsw, elem_of_nonempty.
    split; [by apply Ho|]. exists p. split; [|done]. by apply elem_of_filter_b.
  - eapply swept_weaken, Hw'. by intros i ?%Hsw.
Qed.

(** ** Restoring *)

Lemma restore_one i row who X s :
  photo_objects X s → find_object i (objects s) = Some row → so_status row = OBJECT_DELETED →
  ∃ s', _restore_storage_in_transaction row who s = (Ok tt, s')
    ∧ photo_objects (λ j, X j ∨ j = i) s' ∧ on_objects s s'
    ∧ objects s' = replace i (with_status OBJECT_READY None) (objects s).
Proof.
  intros H Ho Hd. pose proof (find_object_Some _ _ _ Ho) as [_ <-]. unfold _restore_storage_in_transaction.
  destruct (restored_move config true any (so_id row) row (ga_storage s)) as (st & E & Eo & M); [done|done|by eapply po_ledger|done..|].
  set (st' := (size_event (so_id row) "restored" who (so_size row) st).2). exists (set_storage st' s).
  assert (ledger_ok st') as Hl by (apply (ledger_same st); [done..|]; by eapply move_ledger, po_ledger).
  split; [apply in_storage_run; by rewrite E|]. split; [|done].
  eapply (objects_changed X); [done|done|done|exact Eo|done..|by intros; left; right|by intros; left].
Qed.

Definition restoring (rows : list storage_object) (who : caller) (i : string) : GM unit :=
  match find_object i rows with
  | None => ret tt
  | Some row =>
      if negb (bool_decide (so_status row = OBJECT_DELETED)) then ret tt
      else if negb (bool_decide (so_purpose row = OFFER_PHOTO_PURPOSE)) then ret tt
      else _restore_storage_in_transaction row who
  end.
(** The deleted rows among [ids] are ready again; the others stay. *)
Definition brought_back (ids : list string) (o : storage_object) : storage_object :=
  if bool_decide (so_id o ∈ ids) && bool_decide (so_status o = OBJECT_DELETED) && bool_decide (so_purpose o = OFFER_PHOTO_PURPOSE)
  then with_status OBJECT_READY None o else o.
Lemma brought_back_id ids o : so_id (brought_back ids o) = so_id o.
Proof. unfold brought_back. by destruct (_ && _). Qed.

Lemma brought_back_other ids o : so_id o ∉ ids → brought_back ids o = o.
Proof. intros Hn. unfold brought_back. by rewrite (bool_decide_false _ Hn). Qed.
Lemma brought_back_cons i ids o : i ∉ ids → brought_back ids (brought_back [i] o) = brought_back (i :: ids) o.
Proof.
  intros Hi. destruct (decide (so_id o = i)) as [<-|Hne].
  - rewrite brought_back_other by (by rewrite brought_back_id). unfold brought_back.
    rewrite (bool_decide_true (so_id o ∈ [so_id o])) by left. by rewrite (bool_decide_true (so_id o ∈ so_id o :: ids)) by left.
  - rewrite (brought_back_other [i]) by (by rewrite list_elem_of_singleton). unfold brought_back.
    assert (bool_decide (so_id o ∈ i :: ids) = bool_decide (so_id o ∈ ids)) as ->; [|done].
    apply bool_decide_ext. rewrite elem_of_cons. tauto.
Qed.
Lemma find_brought_back j ids l : j ∉ ids → find_object j (map (brought_back ids) l) = find_object j l.
Proof.
  intros Hj. unfold find_object. induction l as [|o l IH]; [done|]. cbn.
  assert (has_id j (brought_back ids o) = has_id j o) as -> by (unfold has_id; by rewrite brought_back_id).
  destruct (has_id j o) eqn:E; [|done]. apply has_object_id_true in E as <-. by rewrite brought_back_other.
Qed.
Lemma brought_back_none ids l : (∀ o, o ∈ l → brought_back ids o = o) → map (brought_back ids) l = l.
Proof. intros H. rewrite <- (map_id l) at 2. apply map_ext_in. intros o Ho%list_elem_of_In. by apply H. Qed.

Lemma restoring_run i rows who X s :
  photo_objects X s → find_object i rows = find_object i (objects s) →
  ∃ s1, restoring rows who i s = (Ok tt, s1) ∧ photo_objects (λ j, X j ∨ j = i) s1 ∧ on_objects s s1
    ∧ objects s1 = map (brought_back [i]) (objects s).
Proof.
  intros H Hrows. pose proof (lg_ids _ (po_ledger _ _ H)) as Hids. unfold restoring. rewrite Hrows.
  assert ((∀ o, find_object i (objects s) = Some o → brought_back [i] o = o) →
    ∃ s1, (ret tt : GM unit) s = (Ok tt, s1) ∧ photo_objects (λ j, X j ∨ j = i) s1 ∧ on_objects s s1
      ∧ objects s1 = map (brought_back [i]) (objects s)) as Hskip.
  { intros Hsame. exists s. split_and!; [done| |done|]; [eapply objects_weaken, H; by left|].
    symmetry. apply brought_back_none. intros o Ho. destruct (decide (so_id o = i)) as [Hoi|Hne].
    - by apply Hsame, find_object_elem.
    - apply brought_back_other. by rewrite list_elem_of_singleton. }
  destruct (find_object i (objects s)) as [row|] eqn:Erow; [|by apply Hskip].
  destruct (bool_decide_reflect (so_status row = OBJECT_DELETED)) as [Hd|Hd]; cbn [negb]; cycle 1.
  { apply Hskip. intros o [= <-]. unfold brought_back. by rewrite (bool_decide_false _ Hd), andb_false_r. }
  destruct (bool_decide_reflect (so_purpose row = OFFER_PHOTO_PURPOSE)) as [Hp|Hp]; cbn [negb]; cycle 1.
  { apply Hskip. intros o [= <-]. unfold brought_back. by rewrite (bool_decide_false _ Hp), andb_false_r. }
  destruct (restore_one i row who X s H Erow Hd) as (s1 & E1 & H1 & S1 & O1). exists s1. split_and!; [done..|].
  rewrite O1. apply map_ext_in. intros o Ho%list_elem_of_In. unfold has_id.
  destruct (bool_decide_reflect (so_id o = i)) as [Hoi|Hoi].
  - assert (Some o = Some row) as [= ->] by (rewrite <- Erow; symmetry; by apply find_object_elem).
    unfold brought_back.
    rewrite (bool_decide_true (so_id row ∈ [i])) by (by apply list_elem_of_singleton). by rewrite !bool_decide_true.
  - by rewrite brought_back_other by (by rewrite list_elem_of_singleton).
Qed.

Lemma restore_all ids who rows X s :
  photo_objects X s → NoDup ids → (∀ i, i ∈ ids → find_object i rows = find_object i (objects s)) →
  ∃ s', for_each (restoring rows who) ids s = (Ok tt, s')
    ∧ photo_objects (λ j, X j ∨ j ∈ ids) s' ∧ on_objects s s'
    ∧ objects s' = map (brought_back ids) (objects s).
Proof.
  revert X s. induction ids as [|i ids IH]; intros X s H Hnd Hrows; cbn [for_each].
  { exists s. split_and!; [done| |done|]; [eapply objects_weaken, H; by left|].
    symmetry. by apply brought_back_none. }
  apply NoDup_cons in Hnd as [Hi Hnd].
  destruct (restoring_run i rows who X s H) as (s1 & E1 & H1 & S1 & O1); [apply Hrows; left|].
  rewrite (bind_ok _ _ _ _ _ E1). destruct (IH _ s1 H1 Hnd) as (s' & E' & H' & S' & O').
  { intros j Hj. rewrite Hrows by (by right). rewrite O1. symmetry. apply find_brought_back.
    rewrite list_elem_of_singleton. by intros ->. }
  exists s'. split_and!; [done| |by etrans|].
  - eapply objects_weaken, H'. cbn. intros j [[?| ->]|?]; [by left|right; left|by right; right].
  - rewrite O', O1, map_map. apply map_ext. intros o. by apply brought_back_cons.
Qed.

(** The photos deleted with [origin] are shown again, unless the index refuses one of them. *)
Definition undelete (q : photo → bool) (p : photo) : photo := if q p then undeleted (ph_position p) p else p.
Lemma shown_undelete q p : shown (undelete q p) = shown p || q p.
Proof. unfold undelete. by destruct (q p); rewrite ?orb_true_r, ?orb_false_r. Qed.
Lemma object_for_ready s p :
  NoDup (map so_id (objects s)) → object_for OBJECT_READY p (objects s) = true → ready s (ph_storage p).
Proof.
  intros Hnd (o & Ho%list_elem_of_In & Hb)%existsb_exists. rewrite !andb_true_iff, has_object_id_true, !bool_decide_eq_true in Hb.
  destruct Hb as [[[? ?] ?] ?]. exists o. split; [by apply find_object_elem|done].
Qed.
Lemma ready_object_for X s p :
  photo_objects X s → p ∈ ga_photos s → ready s (ph_storage p) → object_for OBJECT_READY p (objects s) = true.
Proof.
  intros H Hp (o & Ho & Hr). destruct (po_object _ _ H p Hp) as (o' & Ho' & Ha & Hpu & _).
  rewrite Ho in Ho'. injection Ho' as <-. apply find_object_Some in Ho as [Hin Hid].
  apply existsb_exists. exists o. split; [by apply list_elem_of_In|].
  by rewrite (proj2 (has_object_id_true _ _) Hid), !bool_decide_true, Ha, Z.eqb_refl.
Qed.
Lemma undeleted_ok offer_ids origin Y (ids : string → Prop) s (q := restores offer_ids origin (objects s)) :
  photo_rows Y s → photo_objects ids s →
  (∀ o, o ∈ ga_offers s → of_id o ∈ offer_ids → live o = true) →
  (∀ i, ids i → ∃ p, p ∈ ga_photos s ∧ ph_offer p ∈ offer_ids ∧ ph_origin p = Some origin ∧ ph_storage p = i) →
  index_ok (map (undelete q) (ga_photos s)) = true →
  photo_rows Y (set_photos (map (undelete q)) s) ∧ photo_objects none (set_photos (map (undelete q)) s).
Proof.
  intros Hr Ho Hlive Hids Hi.
  assert (Hq : ∀ p, q p = true → ph_offer p ∈ offer_ids ∧ ready s (ph_storage p)).
  { intros p. unfold q, restores. rewrite !andb_true_iff, bool_decide_eq_true. intros [[[? _] _] Hf]. split; [done|].
    apply object_for_ready; [apply Ho|done]. }
  split.
  - apply (mapped_rows (undelete q)) with (Y := Y); try (intros p; unfold undelete; by destruct (q p)); [done| |].
    + intros p Hp. rewrite shown_undelete. intros Hs. unfold undelete. destruct (q p) eqn:E.
      * split; [done|]. intros o Hof Hop. left. apply Hlive; [done|]. rewrite Hop. by apply Hq.
      * rewrite orb_false_r in Hs. split; [by apply Hr|]. intros o Hof Hop.
        destruct (pr_offer _ _ Hr p Hp) as (o' & Hof' & Hop' & Hl).
        assert (o = o') as -> by (eapply (NoDup_map_inj_on of_id); [apply Hr|done..|congruence]). by apply Hl.
    + by apply bool_decide_eq_true in Hi.
  - apply (mapped_objects (undelete q)) with (X := ids); try (intros p; unfold undelete; by destruct (q p)); [done| |].
    + intros p Hp. rewrite shown_undelete, orb_true_iff. intros [Hs|Hs]; [by apply Ho|by apply Hq].
    + intros p Hp Hready. right. destruct (po_settled _ _ Ho p Hp Hready) as [(x & Hx & Hxo & Hxp & Hxs)%Hids|(x & Hx & Hs & Hxs)];
        exists x; rewrite shown_undelete; split_and!; [done| |done|done|by rewrite Hs|done].
      apply orb_true_iff. right. unfold q, restores. rewrite !bool_decide_true by done. cbn [andb].
      assert (shown x = false) as -> by (apply not_true_iff_false; intros Hs; by rewrite (pr_origin _ _ Hr x Hx Hs) in Hxp).
      cbn [negb andb]. eapply ready_object_for; [done|done|by rewrite Hxs].
Qed.
Lemma restored_run offer_ids origin who Y s :
  photo_rows Y s → photo_objects none s →
  (∀ o, o ∈ ga_offers s → of_id o ∈ offer_ids → live o = true) →
  ∃ ids objs, (∀ i, i ∈ ids ↔ ∃ p, p ∈ ga_photos s ∧ ph_offer p ∈ offer_ids ∧ ph_origin p = Some origin ∧ ph_storage p = i)
  ∧ objs = map (brought_back ids) (objects s)
  ∧ match restore_offer_photos_for_offers offer_ids origin who s with
  | (Err e, _) => e = UniqueViolation ∧ index_ok (map (undelete (restores offer_ids origin objs)) (ga_photos s)) = false
  | (Ok n, s') =>
      objects s' = objs
      ∧ ga_photos s' = map (undelete (restores offer_ids origin objs)) (ga_photos s)
      ∧ ga_offers s' = ga_offers s ∧ ga_next s' = ga_next s ∧ ga_effects s' = ga_effects s ∧ ga_listings s' = ga_listings s
      ∧ photo_rows Y s' ∧ photo_objects none s'
  end.
Proof.
  intros Hr Ho Hlive. unfold restore_offer_photos_for_offers, data_restore_offer_photos_for_offers.
  set (cand := nonempty_ids (List.filter (λ p, bool_decide (ph_offer p ∈ offer_ids) && bool_decide (ph_origin p = Some origin)) (ga_photos s))).
  assert (list_storage_ids_for_offer_ids offer_ids true (Some origin) s = (Ok cand, s)) as Ec.
  { unfold list_storage_ids_for_offer_ids, cand. destruct offer_ids; [by rewrite filter_none by (by apply Forall_forall)|].
    unfold gets. do 3 f_equal. apply List.filter_ext. intros p. by rewrite andb_true_r. }
  unfold _lock_storage_rows, _lock_photo_storage_aggregates.
  set (ids := ordered_ids cand). set (rows := List.filter (λ o, bool_decide (so_id o ∈ ordered_ids ids)) (objects s)).
  assert (Hids : ∀ i, i ∈ ids ↔ ∃ p, p ∈ ga_photos s ∧ ph_offer p ∈ offer_ids ∧ ph_origin p = Some origin ∧ ph_storage p = i).
  { intros i. unfold ids. rewrite elem_of_ordered. unfold cand. rewrite elem_of_nonempty. setoid_rewrite elem_of_filter_b.
    setoid_rewrite andb_true_iff. setoid_rewrite bool_decide_eq_true. split.
    - intros [(_ & p & ((? & ?) & ?) & ?) _]. by exists p.
    - intros (p & Hp & ? & ? & <-). pose proof (po_named _ _ Ho p Hp). split; [split; [done|]|done]. by exists p. }
  destruct (restore_all ids who rows none s Ho) as (s1 & E1 & H1 & S1 & O1); [apply NoDup_ordered| |].
  { intros i Hi. unfold rows. apply locked_rows; [done|]. by apply elem_of_ordered in Hi as [_ ?]. }
  exists ids, (objects s1). split; [done|]. split; [done|]. rewrite (bind_ok _ _ _ _ _ Ec), bind_gets. cbv zeta. fold ids rows.
  change (for_each _ ids) with (for_each (restoring rows who) ids). rewrite (bind_ok _ _ _ _ _ E1).
  destruct S1 as (El & Ef & Ep & En & Ee). set (q := restores offer_ids origin (objects s1)).
  pose proof (undeleted_ok offer_ids origin Y (λ j, none j ∨ j ∈ ids) s1 (rows_same _ s s1 Ef Ep En Hr) H1) as Hok.
  rewrite Ef, Ep in Hok. fold q in Hok. specialize (Hok Hlive). ospecialize (Hok _); [intros i [[]|Hi]; by apply Hids|].
  destruct offer_ids as [|x xs].
  - assert (map (undelete q) (ga_photos s) = ga_photos s) as Eid.
    { rewrite <- (map_id (ga_photos s)) at 2. by apply map_ext. }
    cbn [ret]. rewrite Eid in Hok. destruct Hok as [Hr' Ho']; [by apply bool_decide_eq_true, Hr|].
    split_and!; [done| |done..| |].
    + fold q. by rewrite Ep, Eid.
    + by apply (rows_same _ s).
    + eapply objects_same, Ho'; [done|]. cbn. by rewrite Ep, Eid.
  - unfold check_index. cbv beta iota delta [bind gets modify]. cbn [ga_photos set_photos].
    change (map (λ p, if restores (x :: xs) origin (objects s1) p then undeleted (ph_position p) p else p)) with (map (undelete q)).
    rewrite Ep. fold q. destruct (index_ok _) eqn:Ei; [|done]. destruct (Hok eq_refl) as [Hr' Ho'].
    split_and!; [done| |done..]. cbn. by rewrite Ep.
Qed.

(** ** The handlers *)

Lemma transaction_keeps {A} (m : GM A) s :
  consistent s → (∀ a s', m s = (Ok a, s') → consistent s') → consistent (transaction m s).2.
Proof. intros Hs H. unfold transaction. destruct (m s) as [[a|e] s'] eqn:E; [by eapply H|done]. Qed.

Lemma find_elem_some {A} (q : A → bool) l x : List.find q l = Some x → x ∈ l ∧ q x = true.
Proof. intros [? ?]%find_some. by rewrite list_elem_of_In. Qed.
(** A new photo of a ready object. *)
Lemma created_ok offer i position s o row r s' :
  create_offer_photo offer i position s = (Ok r, s') →
  consistent s → find_object i (objects s) = Some row → so_status row = OBJECT_READY →
  so_purpose row = OFFER_PHOTO_PURPOSE → i ≠ EmptyString → find_live_offer offer s = Some o → of_agency o = so_agency row →
  consistent s'.
Proof.
  intros E [Hr Ho] Hrow Hready Hpurp Hne Hlive Hag. revert E. unfold create_offer_photo. rewrite bind_gets, Hlive, bind_gets.
  destruct (negb _); [done|]. rewrite bind_gets.
  destruct (List.find _ (ga_photos s)) as [p|] eqn:Ef; [by intros [= _ <-]|]. intros [= _ <-].
  apply find_elem_some in Hlive as [Hof [Hofc Hl]%andb_true_iff]. apply Z.eqb_eq in Hofc.
  set (p := mkPhoto _ _ _ _ _ _ _ _).
  assert (Hnew : ∀ q, q ∈ ga_photos s → shown q = true → shown_key q ≠ shown_key p).
  { intros q Hq Hs [= E1 E2]. eapply find_none in Ef; [|by apply list_elem_of_In].
    unfold of_offer_and_storage in Ef. by rewrite E1, E2, Hs, Z.eqb_refl, bool_decide_true in Ef. }
  split; split; cbn.
  - rewrite map_app. apply NoDup_app. split; [apply Hr|]. split; [|apply NoDup_singleton].
    intros x (q & -> & Hq)%elem_of_map Hx%list_elem_of_singleton. apply (pr_next _ _ Hr) in Hq. cbn in Hx. lia.
  - intros q [Hq| ->%list_elem_of_singleton]%elem_of_app; [|cbn; lia]. apply (pr_next _ _ Hr) in Hq. lia.
  - apply Hr.
  - intros q [Hq| ->%list_elem_of_singleton]%elem_of_app; [by apply Hr|]. exists o. split_and!; [done|done|by left].
  - rewrite List.filter_app, map_app. apply NoDup_app. split; [apply Hr|]. split; [|apply NoDup_singleton].
    intros x (q & -> & [Hs Hq]%elem_of_filter_b)%elem_of_map Hx%list_elem_of_singleton. by eapply Hnew.
  - intros q [Hq| ->%list_elem_of_singleton]%elem_of_app; [by apply Hr|done].
  - apply Ho.
  - intros q [Hq| ->%list_elem_of_singleton]%elem_of_app; [by apply Ho|]. exists row. split_and!; [done..|]. by rewrite Hready.
  - intros q [Hq| ->%list_elem_of_singleton]%elem_of_app; [by eapply Ho|done].
  - intros q [Hq| ->%list_elem_of_singleton]%elem_of_app Hs; [by apply Ho|by exists row].
  - intros q [Hq| ->%list_elem_of_singleton]%elem_of_app Hs; right.
    + destruct (po_settled _ _ Ho q Hq Hs) as [[]|(x & Hx & ? & ?)]. exists x. split; [|done]. apply elem_of_app. by left.
    + exists p. split; [|done]. apply elem_of_app. right. by apply list_elem_of_singleton.
Qed.

Lemma last_by_id l c : last (by_id l) = Some c → c ∈ l.
Proof.
  intros H. assert (c ∈ by_id l) as Hc; [|unfold by_id in Hc; by rewrite ssort_perm in Hc].
  by apply last_Some_elem_of.
Qed.
(** The deleted photo of an object that was brought back is shown again. *)
Lemma undeleted_one offer i position r s s' :
  restore_deleted_offer_photo_for_storage offer i position s = (Ok (Some r), s') →
  photo_rows none s → photo_objects (λ j, none j ∨ j = i) s → consistent s'.
Proof.
  unfold restore_deleted_offer_photo_for_storage. rewrite bind_gets. intros E Hr Ho. revert E.
  destruct (last _) as [c|] eqn:Ec; [|done]. apply last_by_id, elem_of_filter_b in Ec as [Hc Hcin].
  rewrite !andb_true_iff, bool_decide_eq_true in Hc. destruct Hc as [[[Hos Hns] Hlive] Hfor].
  unfold of_offer_and_storage in Hos. rewrite andb_true_iff, bool_decide_eq_true in Hos. destruct Hos as [_ Hci].
  destruct Hlive as [o Hlive]. apply find_elem_some in Hlive as [Hof [Hofc Hl]%andb_true_iff]. apply Z.eqb_eq in Hofc.
  unfold check_index. cbv beta iota delta [bind update_photos modify ret]. cbn [ga_photos set_photos].
  set (f := λ p, if ph_id p =? ph_id c then undeleted position p else p).
  destruct (index_ok _) eqn:Ei; intros [= _ <-]. apply bool_decide_eq_true in Ei.
  assert (Hone : ∀ p, p ∈ ga_photos s → (ph_id p =? ph_id c) = true → p = c).
  { intros p Hp E%Z.eqb_eq. eapply (NoDup_map_inj_on ph_id); [apply Hr|done..]. }
  assert (Hcr : ready s (ph_storage c)) by (apply object_for_ready; [apply Ho|done]).
  assert (Hs : ∀ p, p ∈ ga_photos s → shown (f p) = true → p = c ∨ f p = p ∧ shown p = true).
  { intros p Hp. unfold f. destruct (ph_id p =? ph_id c) eqn:E; [left; by apply Hone|by right]. }
  split.
  - apply (mapped_rows f) with (Y := none); try (intros p; unfold f; by destruct (_ =? _)); [done| |done].
    intros p Hp Hsp. destruct (Hs p Hp Hsp) as [->|[-> Hsh]].
    + unfold f. rewrite Z.eqb_refl. split; [done|]. intros o' Ho' Hoo. left.
      assert (o' = o) as -> by (eapply (NoDup_map_inj_on of_id); [apply Hr|done..|congruence]). done.
    + split; [by apply Hr|]. intros o' Ho' Hoo. destruct (pr_offer _ _ Hr p Hp) as (o2 & Ho2 & Hoo2 & Hl2).
      assert (o' = o2) as -> by (eapply (NoDup_map_inj_on of_id); [apply Hr|done..|congruence]). by apply Hl2.
  - apply (mapped_objects f) with (X := λ j, none j ∨ j = i); try (intros p; unfold f; by destruct (_ =? _)); [done| |].
    + intros p Hp Hsp. destruct (Hs p Hp Hsp) as [->|[_ Hsh]]; [done|by apply Ho].
    + intros p Hp Hready. right. destruct (po_settled _ _ Ho p Hp Hready) as [[[]|Hpi]|(x & Hx & Hsx & Hxs)].
      * exists c. unfold f. rewrite Z.eqb_refl. split_and!; [done|done|congruence].
      * exists x. split_and!; [done| |done]. unfold f. by destruct (_ =? _).
Qed.

Lemma add_ok agency offer i position who s :
  consistent s → consistent (add_offer_photo agency offer i position who s).2.
Proof.
  intros Hs. apply transaction_keeps; [done|]. intros r s'. unfold _lock_storage_rows, _lock_photo_storage_aggregates.
  rewrite bind_gets. destruct (find_object i _) as [row|] eqn:Erow; [|done].
  assert (i ≠ EmptyString ∧ find_object i (objects s) = Some row) as [Hne Hrow].
  { apply find_object_Some in Erow as [[Hin%bool_decide_eq_true Hro]%elem_of_filter_b Hid]. subst i.
    rewrite !elem_of_ordered in Hin. split; [tauto|]. apply find_object_elem; [apply Hs|done..]. }
  unfold lock_active_offer. rewrite bind_gets. destruct (find_live_offer offer s) as [o|] eqn:Eo; [|done].
  destruct (bool_decide_reflect (so_purpose row = OFFER_PHOTO_PURPOSE)) as [Hp|]; cbn [negb]; [|done].
  destruct ((so_agency row =? agency) && (of_agency o =? agency)) eqn:Ea; cbn [negb]; [|done].
  apply andb_true_iff in Ea as [Ea1%Z.eqb_eq Ea2%Z.eqb_eq].
  unfold lock_active_offer_photo_for_storage. rewrite bind_gets. destruct (head _) as [p|]; [by intros [= _ <-]|].
  destruct (bool_decide_reflect (so_status row = OBJECT_DELETED)) as [Hd|Hd].
  - unfold lock_deleted_offer_photo_for_storage. rewrite bind_gets. destruct (last _); [|done]. destruct Hs as [Hr Ho].
    destruct (restore_one i row who none s Ho Hrow Hd) as (s1 & E1 & H1 & (El & Ef & Ep & En & Ee) & O1).
    rewrite (bind_ok _ _ _ _ _ E1). unfold bind at 1.
    destruct (restore_deleted_offer_photo_for_storage offer i position s1) as [[[id|]|e] s2] eqn:E2; [|done..].
    intros [= _ <-]. eapply undeleted_one; [exact E2| |done]. by apply (rows_same _ s).
  - destruct (bool_decide_reflect (so_status row = OBJECT_READY)) as [Hrd|]; cbn [negb]; [|done].
    unfold bind at 1. destruct (create_offer_photo offer i position s) as [[r1|e] s1] eqn:E1; [|done].
    intros [= _ <-]. eapply created_ok; [exact E1|done..|by rewrite Ea1].
Qed.

Lemma delete_photo_ok now wall id who s : consistent s → consistent (delete_offer_photo now wall id who s).2.
Proof.
  intros Hs. apply transaction_keeps; [done|]. intros r s'. unfold get_offer_photo_by_id, lock_offer_photo_by_id.
  rewrite bind_gets. destruct (List.find _ (ga_photos s)) as [p|] eqn:Ep; [|by intros [= _ <-]].
  apply find_elem_some in Ep as Hp. destruct Hp as [Hp Hid%Z.eqb_eq]. destruct Hs as [Hr Ho].
  assert (str_empty (ph_storage p) = false) as -> by (pose proof (po_named _ _ Ho p Hp); by destruct (ph_storage p)).
  unfold _lock_storage_rows, _lock_photo_storage_aggregates, get_offer_photo_by_id. rewrite !bind_gets, Ep.
  destruct (shown p) eqn:Esh; cbn [negb]; [|by intros [= _ <-]].
  unfold mark_offer_photo_deleted. unfold bind at 1. rewrite bind_gets.
  set (q := λ p, (ph_id p =? id) && shown p). set (origin := (PHOTO_DELETE_ORIGIN_MANUAL, None, None)).
  set (s1 := set_photos (map (mark wall origin q)) s). set (n := List.length _).
  change (bind (update_photos q (marked_deleted wall origin)) _ s) with ((Ok (0 <? Z.of_nat n), s1) : res bool * gallery).
  cbv beta iota. assert ((0 <? Z.of_nat n) = true) as ->.
  { apply Z.ltb_lt. assert (p ∈ List.filter q (ga_photos s)) as Hin.
    { apply elem_of_filter_b. unfold q. by rewrite Hid, Z.eqb_refl, Esh. }
    unfold n. destruct (List.filter q (ga_photos s)); [by apply elem_of_nil in Hin|]. cbn. lia. }
  cbn [andb negb]. rewrite locked_rows; [| |by eapply po_named].
  2:{ apply elem_of_ordered. split; [by left|by eapply po_named]. }
  destruct (sweep_one now (ph_storage p) (find_object (ph_storage p) (objects s)) who _ s1 (marked_objects _ wall origin q s Ho))
    as (s2 & E2 & H2 & (El & Ef & Eph & En & Ee) & _ & _); [done|].
  rewrite (bind_ok _ _ _ _ _ E2). intros [= _ <-]. split.
  - apply (rows_same _ s1); [done..|]. by apply (marked_rows none).
  - eapply objects_weaken, H2. intros j [[[]|(x & Hx & Hq & _ & <-)] Hne]. destruct Hne. apply andb_true_iff in Hq as [Hxi _]. apply Z.eqb_eq in Hxi.
    assert (x = p) as -> by (eapply (NoDup_map_inj_on ph_id); [apply Hr|done..|congruence]). done.
Qed.

(** Calls that leave the tables as they are. *)
Definition quiet {A} (m : GM A) : Prop := ∀ s, same_tables s (m s).2 ∧ ga_listings (m s).2 = ga_listings s ∧ ∃ a, (m s).1 = Ok a.
Lemma quiet_ret {A} (a : A) : quiet (ret a).
Proof. intros s. split_and!; try done. by exists a. Qed.
Lemma quiet_bind {A B} (m : GM A) (k : A → GM B) : quiet m → (∀ a, quiet (k a)) → quiet (bind m k).
Proof.
  intros Hm Hk s. destruct (Hm s) as ((E1 & E2 & E3 & E4) & E5 & a & Ea). unfold bind.
  destruct (m s) as [r s1]. cbn in *. subst r. destruct (Hk a s1) as ((F1 & F2 & F3 & F4) & F5 & F6).
  split; [|split; [congruence|done]]. unfold same_tables. split_and!; congruence.
Qed.
Lemma quiet_emit e : quiet (emit e).
Proof. intros s. split_and!; try done. by exists tt. Qed.
Lemma quiet_gets {A} (f : gallery → A) : quiet (gets f).
Proof. intros s. split_and!; try done. by eexists. Qed.
Lemma quiet_for_each {A} (body : A → GM unit) l : (∀ x, quiet (body x)) → quiet (for_each body l).
Proof. intros Hb. induction l; cbn; [apply quiet_ret|]. by apply quiet_bind. Qed.
Lemma quiet_bump a : quiet (bump_listings a).
Proof. unfold bump_listings. destruct a as [a|]; [destruct (0 <? a)|]; auto using quiet_emit, quiet_ret. Qed.
Lemma quiet_dirty o : quiet (mark_wilaya_dirty o).
Proof. unfold mark_wilaya_dirty. repeat case_match; auto using quiet_emit, quiet_ret. Qed.
Lemma quiet_post_commit wilayas hints offer_ids : quiet (_run_listing_delete_or_purge_post_commit wilayas hints offer_ids).
Proof.
  unfold _run_listing_delete_or_purge_post_commit.
  repeat first [apply quiet_bind; [|intros []] | apply quiet_for_each; intros ?]; auto using quiet_emit.
  case_match; auto using quiet_emit, quiet_ret.
Qed.
Lemma quiet_restored_commit wilayas offer_ids : quiet (_run_listing_restore_post_commit wilayas offer_ids).
Proof.
  unfold _run_listing_restore_post_commit.
  repeat first [apply quiet_bind; [|intros []] | apply quiet_for_each; intros ?]; auto using quiet_emit.
Qed.
Lemma quiet_run {A} (m : GM A) s : quiet m → ∃ a s', m s = (Ok a, s') ∧ same_tables s s' ∧ ga_listings s' = ga_listings s.
Proof. intros Hq. destruct (Hq s) as (H1 & H2 & a & Ea). destruct (m s) as [r s']. cbn in *. subst r. by exists a, s'. Qed.
Lemma quiet_end {A} (m : GM A) s r s' : quiet m → m s = (r, s') → consistent s → consistent s'.
Proof. intros Hq E Hs. destruct (Hq s) as (H1 & _). rewrite E in H1. by eapply consistent_same. Qed.

Definition offer_at (at_ : option Z) (q : offer_row → bool) (o : offer_row) : offer_row :=
  if q o then mkOffer (of_id o) (of_agency o) (of_listing o) (of_wilaya o) at_ else o.
Lemma offers_rows Y at_ q s s' :
  photo_rows none s → ga_offers s' = map (offer_at at_ q) (ga_offers s) → ga_photos s' = ga_photos s → ga_next s' = ga_next s →
  (∀ o, o ∈ ga_offers s → q o = true → live o = true → at_ = None ∨ Y (of_id o)) →
  photo_rows Y s'.
Proof.
  intros H Eo Ep En HY. split; rewrite ?Ep, ?En, ?Eo; try apply H.
  - rewrite map_map. erewrite map_ext; [apply H|]. intros o. unfold offer_at. by destruct (q o).
  - intros p Hp. destruct (pr_offer _ _ H p Hp) as (o & Ho & Hop & Hl). exists (offer_at at_ q o).
    split_and!; [apply elem_of_map; by exists o|unfold offer_at; by destruct (q o)|].
    intros Hs. destruct (Hl Hs) as [Hlo|[]]. unfold offer_at. destruct (q o) eqn:Eq; [|by left].
    rewrite <- Hop. destruct (HY o Ho Eq Hlo) as [->|?]; [by left|by right].
Qed.
Lemma drop_ok q s r s' :
  drop_offers q s = (r, s') → consistent s →
  (∀ p o, p ∈ ga_photos s → o ∈ ga_offers s → of_id o = ph_offer p → q o = true → shown p = false) → consistent s'.
Proof.
  intros [= _ <-] [Hr Ho] Hq. set (gone := map of_id (List.filter q (ga_offers s))).
  assert (Hkeep : ∀ p, p ∈ List.filter (λ p, negb (bool_decide (ph_offer p ∈ gone))) (ga_photos s) ↔ p ∈ ga_photos s ∧ ph_offer p ∉ gone).
  { intros p. rewrite elem_of_filter_b, negb_true_iff, bool_decide_eq_false. tauto. }
  assert (Hgone : ∀ p, p ∈ ga_photos s → shown p = true → ph_offer p ∉ gone).
  { intros p Hp Hs (o & Eo & [Hqo Hof]%elem_of_filter_b)%elem_of_map. by rewrite (Hq p o) in Hs. }
  split; split; cbn; try setoid_rewrite Hkeep.
  - apply NoDup_map_filter, Hr.
  - intros p [Hp _]. by apply Hr.
  - apply NoDup_map_filter, Hr.
  - intros p [Hp Hn]. destruct (pr_offer _ _ Hr p Hp) as (o & Hof & Hop & Hl). exists o. split_and!; [|done|done].
    apply elem_of_filter_b. split; [|done]. apply negb_true_iff, not_true_iff_false. intros Hqo. apply Hn.
    apply elem_of_map. exists o. split; [done|]. by apply elem_of_filter_b.
  - assert (∀ l, List.filter shown (List.filter (λ p, negb (bool_decide (ph_offer p ∈ gone))) l)
             = List.filter (λ p, negb (bool_decide (ph_offer p ∈ gone))) (List.filter shown l)) as ->.
    { intros l. rewrite !filter_filter_b. apply List.filter_ext. intros p. apply andb_comm. }
    apply NoDup_map_filter, Hr.
  - intros p [Hp _]. by apply Hr.
  - apply Ho.
  - intros p [Hp _]. by apply Ho.
  - intros p [Hp _]. by eapply Ho.
  - intros p [Hp _]. by apply Ho.
  - intros p [Hp _] Hready. destruct (po_settled _ _ Ho p Hp Hready) as [[]|(x & Hx & Hs & Hxs)]. right. exists x.
    split; [split; [done|by apply Hgone]|done].
Qed.

(** The offers of [ids] are marked deleted, then their photos. *)
Lemma offers_deleted_ok now wall ids origin who s1 n s2 :
  photo_rows (λ o, o ∈ ids) s1 → photo_objects none s1 →
  mark_offer_photos_deleted_for_offers now wall ids origin who false s1 = (Ok n, s2) → consistent s2.
Proof.
  intros Hr Ho E. destruct (marked_run now wall ids origin who false _ s1 Hr Ho) as (n' & s' & E' & _ & _ & _ & _ & _ & Hr' & Ho' & _).
  rewrite E in E'. injection E' as <- <-. split; [|done]. eapply rows_weaken, Hr'. cbn. by intros o [].
Qed.
(** A deletion always succeeds. *)
Definition offer_origin (offer : Z) : provenance := (PHOTO_DELETE_ORIGIN_OFFER_DELETED, Some PHOTO_DELETE_PARENT_SCOPE_OFFER, Some offer).
Lemma delete_offer_run now wall offer s :
  consistent s →
  ∃ s', delete_offer now wall offer s = (Ok tt, s') ∧ consistent s'
    ∧ ga_photos s' = map (mark wall (offer_origin offer) (target [offer] false)) (ga_photos s)
    ∧ swept now (nonempty_ids (List.filter (target [offer] false) (ga_photos s))) (objects s) (objects s').
Proof.
  intros Hs. unfold delete_offer, transaction, get_offer_by_id. rewrite bind_gets. set (o := List.find _ (ga_offers s)).
  unfold write_delete_offer, bind at 1. unfold bind at 1. set (s1 := set_offers (map (offer_at (Some wall) (λ o, of_id o =? offer))) s).
  change (set_offer_deleted _ _ s) with ((Ok tt, s1) : res unit * gallery). cbv beta iota. rewrite bind_gets.
  destruct (quiet_run _ s1 (quiet_bump (of_agency <$> find_offer offer s1))) as ([] & s2 & -> & (Es & Ef & Ep & En) & _).
  assert (photo_rows (λ o, o ∈ [offer]) s2) as Hr2.
  { apply (rows_same _ s1); [done..|].
    apply (offers_rows _ (Some wall) (λ o, of_id o =? offer) s); [apply Hs|done..|].
    intros x _ Eo%Z.eqb_eq _. right. by apply list_elem_of_singleton. }
  assert (photo_objects none s2) as Ho2 by (apply (objects_same _ s); [done..|apply Hs]).
  destruct (marked_run now wall [offer] (offer_origin offer) nobody false _ s2 Hr2 Ho2)
    as (n & s3 & E3 & P3 & _ & _ & _ & _ & Hr3 & Ho3 & W3).
  unfold objects in W3. rewrite Ep in P3, W3. rewrite Es in W3.
  change ((PHOTO_DELETE_ORIGIN_OFFER_DELETED, Some PHOTO_DELETE_PARENT_SCOPE_OFFER, Some offer) : provenance) with (offer_origin offer).
  unfold bind at 1. rewrite E3.
  assert (quiet (do! mark_wilaya_dirty o in emit (RebuildOffer offer []))) as Hq
    by (apply quiet_bind; [apply quiet_dirty|intros []; apply quiet_emit]).
  destruct (quiet_run _ s3 Hq) as ([] & s4 & -> & S4 & _). exists s4. split; [done|].
  assert (consistent s3) as H3 by (split; [eapply rows_weaken, Hr3; by intros x []|done]).
  destruct S4 as (F1 & F2 & F3 & F4). split; [by apply (consistent_same s3)|]. split; [by rewrite F3|].
  unfold objects. by rewrite F1.
Qed.
(** A restoration succeeds unless the index refuses a photo. *)
Lemma restore_offer_run offer s :
  consistent s →
  ∃ ids objs, (∀ i, i ∈ ids ↔ ∃ p, p ∈ ga_photos s ∧ ph_offer p = offer ∧ ph_origin p = Some (offer_origin offer) ∧ ph_storage p = i)
    ∧ objs = map (brought_back ids) (objects s)
    ∧ let q := restores [offer] (offer_origin offer) objs in
      match restore_offer offer s with
      | (Err e, s') => e = UniqueViolation ∧ s' = s ∧ index_ok (map (undelete q) (ga_photos s)) = false
      | (Ok _, s') => consistent s' ∧ objects s' = objs ∧ ga_photos s' = map (undelete q) (ga_photos s)
      end.
Proof.
  intros Hs. unfold restore_offer, transaction.
  unfold write_restore_offer, bind at 1. unfold bind at 1. set (s1 := set_offers (map (offer_at None (λ o, of_id o =? offer))) s).
  change (set_offer_deleted _ _ s) with ((Ok tt, s1) : res unit * gallery). cbv beta iota. rewrite bind_gets.
  destruct (quiet_run _ s1 (quiet_bump (of_agency <$> find_offer offer s1))) as ([] & s2 & -> & S2 & _).
  assert (consistent s2) as H2.
  { apply (consistent_same s1); [done|]. split; [|apply (objects_same _ s); [done..|apply Hs]].
    apply (offers_rows _ None (λ o, of_id o =? offer) s); [apply Hs|done..|]. by left. }
  destruct S2 as (Es & Ef & Ep & En). cbn in Es, Ep.
  destruct (restored_run [offer] (offer_origin offer) nobody none s2 (proj1 H2) (proj2 H2)) as (ids & objs & Hids & Hobjs & Hrun).
  { rewrite Ef. intros o (x & -> & Hx)%elem_of_map. rewrite list_elem_of_singleton.
    unfold offer_at. destruct (of_id x =? offer) eqn:E; [done|]. intros Ex. by rewrite Ex, Z.eqb_refl in E. }
  setoid_rewrite list_elem_of_singleton in Hids. unfold objects in Hobjs. rewrite Ep in Hids, Hrun. rewrite Es in Hobjs.
  exists ids, objs. split; [done|]. split; [done|]. cbv zeta.
  change ((PHOTO_DELETE_ORIGIN_OFFER_DELETED, Some PHOTO_DELETE_PARENT_SCOPE_OFFER, Some offer) : provenance) with (offer_origin offer).
  unfold bind at 1. destruct (restore_offer_photos_for_offers _ _ _ s2) as [[n|e] s3]; [|by destruct Hrun].
  destruct Hrun as (O3 & P3 & _ & _ & _ & _ & Hr3 & Ho3).
  set (m := bind (get_offer_by_id offer false) _). assert (quiet m) as Hq.
  { unfold m. apply quiet_bind; [apply quiet_gets|]. intros o. apply quiet_bind; [apply quiet_dirty|intros []; apply quiet_emit]. }
  destruct (quiet_run m s3 Hq) as ([] & s4 & -> & (F1 & F2 & F3 & F4) & _).
  split; [by apply (consistent_same s3)|]. split; [unfold objects; by rewrite F1|by rewrite F3].
Qed.
(** After the cleanup of some offers, none of their photos is shown. *)
Lemma cleaned_up now wall ids origin who s n s' :
  consistent s → mark_offer_photos_deleted_for_offers now wall ids origin who true s = (Ok n, s') →
  consistent s' ∧ ga_offers s' = ga_offers s ∧ ga_listings s' = ga_listings s ∧ (∀ p, p ∈ ga_photos s' → ph_offer p ∈ ids → shown p = false).
Proof.
  intros [Hr Ho] E. destruct (marked_run now wall ids origin who true none s Hr Ho) as (n' & s2 & E' & Ep & Ef & _ & _ & El & Hr' & Ho' & _).
  rewrite E in E'. injection E' as <- <-. split_and!; [|done|done|].
  - split; [|done]. eapply rows_weaken, Hr'. by intros o [[] _].
  - rewrite Ep. intros p (x & -> & Hx)%elem_of_map. rewrite shown_marked. unfold mark, target. cbn [orb]. rewrite andb_true_r.
    destruct (bool_decide_reflect (ph_offer x ∈ ids)); cbn; [by rewrite andb_false_r|done].
Qed.
Lemma purge_offer_ok now wall offer s : consistent s → consistent (purge_offer now wall offer s).2.
Proof.
  intros Hs. apply transaction_keeps; [done|]. intros r s'. unfold get_offer_by_id. rewrite bind_gets.
  unfold bind at 1. destruct (mark_offer_photos_deleted_for_offers _ _ _ _ _ _ s) as [[n|e] s2] eqn:E2; [|done].
  apply cleaned_up in E2 as (H2 & _ & _ & Hsh); [|done]. unfold write_purge_offer, bind at 1. rewrite bind_gets. unfold bind at 1.
  destruct (drop_offers _ s2) as [rr s3] eqn:E3. pose proof E3 as E3'. injection E3' as <- _.
  apply drop_ok in E3; [|done|].
  2:{ intros p o Hp _ Hop Eo%Z.eqb_eq. apply Hsh; [done|]. rewrite <- Hop, Eo. by left. }
  destruct (quiet_run _ s3 (quiet_bump (of_agency <$> find_offer offer s2))) as ([] & s4 & -> & S4 & _).
  intros E. eapply quiet_end; [|exact E|by eapply consistent_same].
  apply quiet_bind; [apply quiet_dirty|intros []; apply quiet_emit].
Qed.

Lemma elem_of_listing_offers listing all s i :
  i ∈ ssort z_leb (map of_id (List.filter (of_listing_b listing all) (ga_offers s))) ↔
  ∃ o, o ∈ ga_offers s ∧ of_id o = i ∧ of_listing o = listing ∧ (all = true ∨ live o = true).
Proof.
  rewrite ssort_perm, elem_of_map. setoid_rewrite elem_of_filter_b. unfold of_listing_b.
  setoid_rewrite andb_true_iff. setoid_rewrite orb_true_iff. setoid_rewrite Z.eqb_eq.
  split; intros (o & H); exists o; intuition.
Qed.
Definition same_but_listing (s s' : gallery) (offers : list offer_row) : Prop :=
  ga_storage s' = ga_storage s ∧ ga_offers s' = offers ∧ ga_photos s' = ga_photos s ∧ ga_next s' = ga_next s.
Lemma listing_written at_ e listing s :
  ∃ s', (do! set_listing_deleted at_ listing in
         do! set_offer_deleted at_ (λ o, of_listing o =? listing) in
         do! emit e in
         let! l := gets (find_listing listing) in
         bump_listings (li_agency <$> l)) s = (Ok tt, s')
    ∧ same_but_listing s s' (map (offer_at at_ (λ o, of_listing o =? listing)) (ga_offers s)).
Proof.
  set (s1 := set_offers (map (offer_at at_ (λ o, of_listing o =? listing))) ((set_listing_deleted at_ listing s).2)).
  assert (quiet (do! emit e in let! l := gets (find_listing listing) in bump_listings (li_agency <$> l))) as Hq.
  { apply quiet_bind; [apply quiet_emit|]. intros []. apply quiet_bind; [apply quiet_gets|]. intros l. apply quiet_bump. }
  destruct (quiet_run _ s1 Hq) as ([] & s' & E & (E1 & E2 & E3 & E4) & _). exists s'. by split.
Qed.

Lemma delete_listing_ok now wall hints listing s : consistent s → consistent (delete_listing now wall hints listing s).2.
Proof.
  intros Hs. apply transaction_keeps; [done|]. intros r s'. unfold get_offer_wilaya_ids_for_listing, get_offer_ids_for_listing.
  rewrite !bind_gets. set (ids := ssort z_leb (map of_id _)). set (wilayas := ssort z_leb _).
  destruct (listing_written (Some wall) (DependentsDeleted listing) listing s) as (s1 & E1 & (Es & Ef & Ep & En)).
  unfold write_delete_listing. rewrite (bind_ok _ _ _ _ _ E1).
  assert (photo_rows (λ o, o ∈ ids) s1) as Hr1.
  { apply (offers_rows _ (Some wall) (λ o, of_listing o =? listing) s); [apply Hs|done..|].
    intros o Hof Eo%Z.eqb_eq Hl. right. apply elem_of_listing_offers. exists o. split_and!; auto. }
  assert (photo_objects none s1) as Ho1 by (apply (objects_same _ s); [done..|apply Hs]).
  unfold bind at 1. destruct (mark_offer_photos_deleted_for_offers _ _ _ _ _ _ s1) as [[n|e] s2] eqn:E2; [|done].
  apply offers_deleted_ok in E2; [|done..]. intros E. eapply quiet_end; [|exact E|done].
  apply quiet_bind; [apply quiet_for_each; intros ?; apply quiet_emit|intros []; apply quiet_post_commit].
Qed.
Lemma restore_listing_ok listing s : consistent s → consistent (restore_listing listing s).2.
Proof.
  intros Hs. apply transaction_keeps; [done|]. intros r s'.
  destruct (listing_written None (DependentsRestored listing) listing s) as (s1 & E1 & (Es & Ef & Ep & En)).
  unfold write_restore_listing. rewrite (bind_ok _ _ _ _ _ E1).
  unfold get_offer_wilaya_ids_for_listing, get_offer_ids_for_listing. rewrite !bind_gets.
  set (ids := ssort z_leb (map of_id _)). set (wilayas := ssort z_leb _). set (origin := (_, _, _)).
  assert (consistent s1) as H1.
  { split; [|apply (objects_same _ s); [done..|apply Hs]].
    apply (offers_rows _ None (λ o, of_listing o =? listing) s); [apply Hs|done..|]. by left. }
  destruct (restored_run ids origin nobody none s1 (proj1 H1) (proj2 H1)) as (? & ? & _ & _ & Hrun).
  { intros o Hof (o' & Hof' & Hid & _ & [?|Hl])%elem_of_listing_offers; [done|].
    assert (o = o') as -> by (eapply (NoDup_map_inj_on of_id); [apply H1|done..]). done. }
  unfold bind at 1. destruct (restore_offer_photos_for_offers _ _ _ s1) as [[n|e] s2]; [|done].
  destruct Hrun as (_ & _ & _ & _ & _ & _ & Hr2 & Ho2). intros E. eapply quiet_end; [|exact E|by split].
  apply quiet_bind; [apply quiet_for_each; intros ?; apply quiet_emit|intros []; apply quiet_restored_commit].
Qed.
Lemma purge_listing_ok now wall hints listing s : consistent s → consistent (purge_listing now wall hints listing s).2.
Proof.
  intros Hs. apply transaction_keeps; [done|]. intros r s'. unfold get_offer_wilaya_ids_for_listing, get_offer_ids_for_listing.
  rewrite !bind_gets. set (ids := ssort z_leb (map of_id _)). set (wilayas := ssort z_leb _).
  unfold bind at 1. destruct (mark_offer_photos_deleted_for_offers _ _ _ _ _ _ s) as [[n|e] s1] eqn:E1; [|done].
  apply cleaned_up in E1 as (H1 & Ef & _ & Hsh); [|done]. unfold write_purge_listing, bind at 1. rewrite bind_gets.
  unfold bind at 1. destruct (drop_offers _ s1) as [rr s2] eqn:E2. pose proof E2 as E2'. injection E2' as <- _.
  apply drop_ok in E2; [|done|].
  2:{ intros p o Hp Hof Hop Eo%Z.eqb_eq. apply Hsh; [done|]. rewrite <- Hop. apply elem_of_listing_offers.
      exists o. rewrite <- Ef. split_and!; auto. }
  set (m := bind (emit (DependentsPurged listing)) _). assert (quiet_m : ∃ s3, m s2 = (Ok tt, s3) ∧ same_tables s2 s3).
  { unfold m. set (s3 := set_listings (List.filter (λ l, negb (li_id l =? listing))) (emit (DependentsPurged listing) s2).2).
    destruct (quiet_run _ s3 (quiet_bump (li_agency <$> find_listing listing s1))) as ([] & s4 & E4 & S4 & _). by exists s4. }
  destruct quiet_m as (s3 & -> & S3). intros E. eapply quiet_end; [|exact E|by eapply consistent_same].
  apply quiet_bind; [apply quiet_for_each; intros ?; apply quiet_emit|intros []; apply quiet_post_commit].
Qed.

(** ** Histories *)

Definition attached (s : gallery) (i : string) : Prop := ∃ p, p ∈ ga_photos s ∧ ph_storage p = i.

Lemma storage_call_ok ans st s :
  consistent s → call config true (λ i, ¬ attached s i) ans (ga_storage s) st → consistent (set_storage st s).
Proof.
  intros [Hr Ho] Hc. apply call_moves in Hc; [|apply Ho]. split; [by apply (rows_same _ s)|].
  assert (Hf : ∀ p, p ∈ ga_photos s → find_object (ph_storage p) (sg_objects st) = find_object (ph_storage p) (objects s)).
  { intros p Hp. eapply moves_frame; [exact Hc|]. intros Hn. apply Hn. by exists p. }
  split; unfold ready, objects; cbn.
  - by eapply moves_ledger, Ho.
  - intros p Hp. rewrite Hf by done. by apply Ho.
  - by eapply Ho.
  - intros p Hp Hs. rewrite Hf by done. by apply Ho.
  - intros p Hp. rewrite Hf by done. by apply Ho.
Qed.
Lemma purge_ok ans o s :
  consistent s → find_object (so_id o) (objects s) = Some o → so_status o = OBJECT_DELETED →
  consistent (set_storage (purge_one ans o (ga_storage s)).2 s).
Proof.
  intros [Hr Ho] Hf Hd. split; [by apply (rows_same _ s)|].
  assert (ledger_ok (purge_one ans o (ga_storage s)).2) as Hl.
  { eapply (moves_ledger config true any); [|apply Ho]. apply purge_moves; [done|apply Ho|done..]. }
  assert (sg_objects (purge_one ans o (ga_storage s)).2 = objects s
    ∨ sg_objects (purge_one ans o (ga_storage s)).2 = replace (so_id o) (λ x, with_status OBJECT_PURGED (so_deleted_at x) x) (objects s)) as [E|E].
  { destruct (ans (so_bucket o) (so_key o)) eqn:Ea; [right|left];
      cbv beta iota delta [purge_one delete_object bind modify ret]; rewrite Ea; reflexivity. }
  - destruct Ho. split; unfold ready, objects in *; cbn [ga_storage ga_photos set_storage]; rewrite ?E; done.
  - eapply (objects_changed none); [done|done|exact Hf|exact E|done..| |done|done].
    intros p Hp Hi Hs. destruct (po_shown _ _ Ho p Hp Hs) as (x & Hx & Hxr). rewrite Hi, Hf in Hx. injection Hx as <-. congruence.
Qed.
Lemma new_offer_ok o s :
  consistent s → of_id o ∉ map of_id (ga_offers s) → consistent (set_offers (λ l, l ++ [o]) s).
Proof.
  intros [Hr Ho] Hn. split; [|by apply (objects_same _ s)]. split; cbn; try apply Hr.
  - rewrite map_app. apply NoDup_app. split; [apply Hr|]. split; [|apply NoDup_singleton]. by intros x Hx ->%list_elem_of_singleton.
  - intros p Hp. destruct (pr_offer _ _ Hr p Hp) as (x & Hx & ? & ?). exists x. split; [|done]. apply elem_of_app. by left.
Qed.

(** The calls of the handlers; new offers; the calls on the storage, which leave the objects of photos
    alone, except for the purge of a deleted one. *)
Inductive step (ans : string → string → bool) (s : gallery) : gallery → Prop :=
  | step_add agency offer i position who : step ans s (add_offer_photo agency offer i position who s).2
  | step_delete_photo now wall id who : step ans s (delete_offer_photo now wall id who s).2
  | step_delete_offer now wall offer : step ans s (delete_offer now wall offer s).2
  | step_restore_offer offer : step ans s (restore_offer offer s).2
  | step_purge_offer now wall offer : step ans s (purge_offer now wall offer s).2
  | step_delete_listing now wall hints listing : step ans s (delete_listing now wall hints listing s).2
  | step_restore_listing listing : step ans s (restore_listing listing s).2
  | step_purge_listing now wall hints listing : step ans s (purge_listing now wall hints listing s).2
  | step_new_offer o : of_id o ∉ map of_id (ga_offers s) → step ans s (set_offers (λ l, l ++ [o]) s)
  | step_storage st : call config true (λ i, ¬ attached s i) ans (ga_storage s) st → step ans s (set_storage st s)
  | step_purge o : find_object (so_id o) (objects s) = Some o → so_status o = OBJECT_DELETED →
      step ans s (set_storage (purge_one ans o (ga_storage s)).2 s).
Lemma step_consistent ans s s' : step ans s s' → consistent s → consistent s'.
Proof.
  intros Hst H; destruct Hst as [?????|????|now wall offer|offer|???|????|?|????|??|??|???].
  - by apply add_ok.
  - by apply delete_photo_ok.
  - destruct (delete_offer_run now wall offer s H) as (s1 & -> & ? & _). done.
  - destruct (restore_offer_run offer s H) as (ids & objs & _ & _ & Hrun). cbv zeta in Hrun.
    destruct (restore_offer offer s) as [[[]|e] s1]; [by destruct Hrun|by destruct Hrun as (_ & -> & _)].
  - by apply purge_offer_ok.
  - by apply delete_listing_ok.
  - by apply restore_listing_ok.
  - by apply purge_listing_ok.
  - by apply new_offer_ok.
  - by eapply storage_call_ok.
  - by apply purge_ok.
Qed.
Lemma steps_consistent ans s s' : rtc (step ans) s s' → consistent s → consistent s'.
Proof. induction 1; eauto using step_consistent. Qed.


(** ** Deleting an offer and restoring it *)

Definition photo_view (p : photo) := (ph_id p, ph_offer p, ph_agency p, ph_storage p, ph_position p, ph_deleted_at p, ph_origin p).
Definition object_view (o : storage_object) := (so_id o, so_agency o, so_size o, so_purpose o, so_status o).
Lemma views_shown l l' : map photo_view l = map photo_view l' →
  map shown_key (List.filter shown l) = map shown_key (List.filter shown l').
Proof.
  revert l'. induction l as [|p l IH]; intros [|p' l']; try done. intros [= E1 E2 E3 E4 E5 E6 E7 Hl].
  assert (shown p = shown p') as Es by (unfold shown; by rewrite E6). cbn [map List.filter]. rewrite Es.
  destruct (shown p'); [|by apply IH]. cbn. f_equal; [unfold shown_key; congruence|by apply IH].
Qed.
(** The statuses come back. *)
Lemma objects_come_back now ids ids' l l' :
  swept now ids l l' → (∀ i, i ∈ ids ↔ i ∈ ids') →
  (∀ o, o ∈ l → so_id o ∈ ids → so_status o = OBJECT_READY ∧ so_purpose o = OFFER_PHOTO_PURPOSE) →
  map object_view (map (brought_back ids') l') = map object_view l.
Proof.
  intros Hw Hi. induction Hw as [|o o' l l' Ho Hw IH]; [done|]. intros Hl. cbn. rewrite IH by (intros x Hx; apply Hl; by right). f_equal.
  specialize (Hl o (list_elem_of_here _ _)). destruct Ho as [->|(Hin & Hr & ->)].
  - destruct (decide (so_id o ∈ ids)) as [Hin|Hn]; [|by rewrite brought_back_other; [|by rewrite <- Hi]].
    destruct (Hl Hin) as [Hr _]. unfold brought_back. rewrite Hr, (bool_decide_false (OBJECT_READY = OBJECT_DELETED)) by done.
    by rewrite andb_false_r.
  - destruct (Hl Hin) as [_ Hp]. unfold brought_back. rewrite !bool_decide_true; [|done..|by apply Hi]. cbn. unfold object_view. cbn. by rewrite Hr.
Qed.
Lemma usage_of_views a s s' :
  map object_view (objects s) = map object_view (objects s') → consistent s → consistent s' →
  get_usage_for_agency a (ga_storage s) = get_usage_for_agency a (ga_storage s').
Proof.
  intros Hv [_ H] [_ H']. rewrite (lg_usage _ (po_ledger _ _ H)), (lg_usage _ (po_ledger _ _ H')), !total_usage.
  unfold objects in Hv. revert Hv. generalize (sg_objects (ga_storage s)) (sg_objects (ga_storage s')).
  intros l. induction l as [|o l IH]; intros [|o' l']; try done. intros [= _ E2 E3 _ E4 Hl].
  rewrite !total_cons, (IH l') by done. unfold ready_size. by rewrite E2, E3, E4.
Qed.

Lemma object_for_view st p l l' : map object_view l = map object_view l' → object_for st p l = object_for st p l'.
Proof.
  unfold object_for. revert l'. induction l as [|o l IH]; intros [|o' l']; try done. intros [= E1 E2 _ E3 E4 Hl]. cbn.
  rewrite (IH l') by done. unfold has_id. by rewrite E1, E2, E3, E4.
Qed.
(** A photo that was marked and shown again is what it was. *)
Lemma photos_come_back wall offer objs s :
  consistent s → (∀ p, p ∈ ga_photos s → ph_origin p ≠ Some (offer_origin offer)) →
  map object_view objs = map object_view (objects s) →
  map photo_view (map (undelete (restores [offer] (offer_origin offer) objs))
    (map (mark wall (offer_origin offer) (target [offer] false)) (ga_photos s))) = map photo_view (ga_photos s).
Proof.
  intros [Hr Ho] Hfresh Hv. rewrite !map_map. apply map_ext_in. intros p Hp%list_elem_of_In.
  unfold mark, undelete. destruct (target [offer] false p) eqn:Et.
  - apply andb_true_iff in Et as [Hof%bool_decide_eq_true Hs]. cbn [orb] in Hs.
    assert (restores [offer] (offer_origin offer) objs (marked_deleted wall (offer_origin offer) p) = true) as ->.
    { unfold restores. cbn [ph_offer ph_origin marked_deleted]. rewrite !bool_decide_true by done. cbn [andb].
      change (negb (shown (marked_deleted wall (offer_origin offer) p))) with true. cbn [andb].
      change (object_for OBJECT_READY p objs = true). rewrite (object_for_view _ _ _ _ Hv).
      eapply ready_object_for; [done|done|by apply Ho]. }
    unfold photo_view, undeleted, marked_deleted. cbn. rewrite (pr_origin _ _ Hr p Hp Hs).
    apply bool_decide_eq_true in Hs. by rewrite Hs.
  - assert (restores [offer] (offer_origin offer) objs p = false) as ->; [|done].
    unfold restores. rewrite (bool_decide_false (ph_origin p = _)) by (by apply Hfresh). by rewrite andb_false_r.
Qed.

(** C39. Restoring an offer undoes its deletion.  When an offer is deleted and restored, and no photo was
    left from an earlier deletion of it, both calls succeed; every photo is what it was (id, place,
    shown or deleted, and why), every object has its status back, and so has the usage counter. *)
Theorem restore_undoes_delete now wall offer s (s1 := (delete_offer now wall offer s).2) (s2 := (restore_offer offer s1).2) :
  consistent s →
  (∀ p, p ∈ ga_photos s → ph_origin p ≠ Some (offer_origin offer)) →
  (delete_offer now wall offer s).1 = Ok tt ∧ (restore_offer offer s1).1 = Ok tt
  ∧ map photo_view (ga_photos s2) = map photo_view (ga_photos s)
  ∧ map object_view (objects s2) = map object_view (objects s)
  ∧ ∀ a, get_usage_for_agency a (ga_storage s2) = get_usage_for_agency a (ga_storage s).
Proof.
  intros Hs Hfresh. destruct (delete_offer_run now wall offer s Hs) as (s1' & E1 & H1 & P1 & W1).
  assert (s1 = s1') as <- by (unfold s1; by rewrite E1).
  destruct (restore_offer_run offer s1 H1) as (ids & objs & Hids & Hobjs & Hrun). cbv zeta in Hrun. rewrite P1 in Hids, Hrun.
  pose proof Hs as [Hr Ho].
  assert (map object_view objs = map object_view (objects s)) as Hv.
  { rewrite Hobjs. eapply objects_come_back; [exact W1| |].
    - intros i. rewrite Hids, elem_of_nonempty. split.
      + intros [_ (p & [Ht Hp]%elem_of_filter_b & <-)]. exists (marked_deleted wall (offer_origin offer) p).
        apply andb_true_iff in Ht as Ht'. destruct Ht' as [Hof%bool_decide_eq_true _]. apply list_elem_of_singleton in Hof.
        split; [apply elem_of_map; exists p; unfold mark; by rewrite Ht|done].
      + intros (p' & (p & -> & Hp)%elem_of_map & _ & Hor & <-). unfold mark in *. destruct (target [offer] false p) eqn:Et.
        * split; [exact (po_named _ _ Ho p Hp)|]. exists p. split; [|done]. by apply elem_of_filter_b.
        * destruct (Hfresh p Hp Hor).
    - intros o Hin [_ (p & [Ht Hp]%elem_of_filter_b & Hps)]%elem_of_nonempty. apply andb_true_iff in Ht as [_ Hsh].
      destruct (po_object _ _ Ho p Hp) as (o' & Hf & _ & Hpu & _). destruct (po_shown _ _ Ho p Hp Hsh) as (o2 & Hf2 & Hrd).
      assert (find_object (ph_storage p) (objects s) = Some o) as Hf3 by (apply find_object_elem; [apply Ho|done|done]).
      rewrite Hf3 in Hf, Hf2. by simplify_eq. }
  pose proof (photos_come_back wall offer objs s Hs Hfresh Hv) as Hpv.
  split; [by rewrite E1|]. unfold s2. destruct (restore_offer offer s1) as [[[]|e] s2']; cbn [fst snd].
  - destruct Hrun as (H2 & O2 & P2). split_and!; [done|by rewrite P2|by rewrite O2|].
    intros a. apply usage_of_views; [by rewrite O2|done|done].
  - destruct Hrun as (_ & _ & Hi). apply bool_decide_eq_false in Hi. destruct Hi.
    rewrite (views_shown _ _ Hpv). apply Hr.
Qed.
End Lifecycle.

(** ** Concrete galleries *)

Module Demo.
Import StorageProps.Demo.
Definition house : listing_row := mkListing 5 1 None.
Definition flat : offer_row := mkOffer 10 1 5 (Some 16) None.
Definition other : offer_row := mkOffer 11 1 6 (Some 16) None.
Definition empty_gallery : gallery := mkGallery uploaded [house; mkListing 6 1 None] [flat; other] [] 1 [].
Definition add (offer : Z) (s : gallery) : gallery := (add_offer_photo 1 offer "a" 0 ann s).2.
Definition photos (s : gallery) : list (Z * Z * bool) := map (λ p, (ph_id p, ph_offer p, shown p)) (ga_photos s).
Definition statuses (s : gallery) : list storage_status := map so_status (objects s).
Definition no_hints (_ : list Z) : list (Z * list Z) := [].

Lemma uploaded_ok : ledger_ok uploaded.
Proof. exact (proj2 (calls_moves config yes (λ _, True) true _ _ (uploaded_calls true) start_storage_ok)). Qed.
Lemma empty_consistent : consistent empty_gallery.
Proof.
  split; split; try (by intros ? ?%elem_of_nil); [constructor| |constructor|exact uploaded_ok].
  apply (bool_decide_unpack _). vm_compute. exact I.
Qed.
Lemma added_steps : rtc (step config yes) empty_gallery (add 10 empty_gallery).
Proof. apply rtc_once, step_add. Qed.

(** The purge reads the deleted objects, then purges them one by one without looking at them again:
    a photo that is shown again in between loses its object. *)
Example purged_while_shown :
  let s := add 10 empty_gallery in
  let s := (delete_offer_photo 100 100 1 ann s).2 in
  let rows := objects s in
  let s := add 10 s in
  let s := set_storage (purge_rows yes rows 0 (ga_storage s)).2 s in
  (photos s, statuses s) = ([(1, 10, true)], [OBJECT_PURGED]).
Proof. vm_compute. reflexivity. Qed.
(** Deleting an object by its own endpoint does not look at the photos that show it. *)
Example deleted_while_shown :
  let s := add 10 empty_gallery in
  let s := set_storage (mark_storage_deleted 100 "a" ann (ga_storage s)).2 s in
  (photos s, statuses s) = ([(1, 10, true)], [OBJECT_DELETED]).
Proof. vm_compute. reflexivity. Qed.
(** Restoring a listing brings back an offer that was deleted before the listing was, without its photos. *)
Example restored_without_photos :
  let s := add 10 empty_gallery in
  let s := (delete_offer 100 100 10 s).2 in
  let s := (delete_listing 200 200 no_hints 5 s).2 in
  let s := (restore_listing 5 s).2 in
  (map live (ga_offers s), photos s, statuses s) = ([true; true], [(1, 10, false)], [OBJECT_DELETED]).
Proof. vm_compute. reflexivity. Qed.
(** Two deleted photos of one offer and object have the same provenance: the offer cannot be restored. *)
Example cannot_be_restored :
  let s := add 11 (add 10 empty_gallery) in
  let s := (delete_offer 100 100 10 s).2 in
  let s := (delete_listing 200 200 no_hints 5 s).2 in
  let s := add 10 (restore_listing 5 s).2 in
  let s := (delete_offer 300 300 10 s).2 in
  (photos s, (restore_offer 10 s).1) = ([(1, 10, false); (2, 11, true); (3, 10, false)], Err UniqueViolation).
Proof. vm_compute. reflexivity. Qed.
End Demo.

Lemma restore_undoes_delete_witness :
  (ga_photos (Demo.add 10 Demo.empty_gallery) ≠ []) ∧
  (restore_offer 10 (delete_offer 100 100 10 (Demo.add 10 Demo.empty_gallery)).2).1 = Ok tt.
Proof.
  split; [vm_compute; discriminate|].
  refine (proj1 (proj2 (restore_undoes_delete StorageProps.Demo.config 100 100 10 (Demo.add 10 Demo.empty_gallery) _ _))).
  - exact (steps_consistent StorageProps.Demo.config StorageProps.Demo.yes _ _ Demo.added_steps Demo.empty_consistent).
  - intros p Hp. vm_compute in Hp. apply list_elem_of_singleton in Hp as ->. discriminate.
Defined.
