(* ===== verification/Keyset.v ===== *)
(** * Lists in pieces, and loops that read a table by pages of ids

    [keyset] is the loop the code writes around a SELECT with [id > last ORDER BY id LIMIT n]: read a
    page, stop when it is empty, work on it, go on after its last id.  The SELECT sees what the
    work committed.  [keyset_chunks] says when that loop is a traversal, in order and in
    pieces, of the ids as they were at the start. *)

From S2P Require Import Prelude.
Local Open Scope Z_scope.

(** The lists from [l] in steps of [n] > 0 elements. *)
Fixpoint chunks_of {A} (fuel n : nat) (l : list A) : list (list A) :=
  match fuel, l with
  | _, [] => []
  | O, _ => []
  | S fuel', _ => take n l :: chunks_of fuel' n (drop n l)
  end.
(** [[body(x) for x in l]] *)
Fixpoint each {S A B} (body : A → M S B) (l : list A) : M S (list B) :=
  match l with
  | [] => ret []
  | x :: l' => let! y := body x in let! ys := each body l' in ret (y :: ys)
  end.

(** [WHERE id > last ORDER BY id LIMIT n] *)
Definition after (last : Z) (ids : list Z) : list Z := List.filter (λ i, last <? i) (ssort Z.leb ids).
Definition page_after (n : nat) (last : Z) (ids : list Z) : list Z := take n (after last ids).
(** The loop never runs out of the fuel its callers give it: [keyset_chunks]. *)
Definition OutOfFuel : exn := OtherError "OutOfFuel".
Fixpoint keyset {S B} (fuel : nat) (select : Z → M S (list Z)) (body : list Z → M S B) (last : Z) : M S (list B) :=
  match fuel with
  | O => raise OutOfFuel
  | Datatypes.S fuel' =>
      let! page := select last in
      match page with
      | [] => ret []
      | _ => let! y := body page in
             let! ys := keyset fuel' select body (List.last page last) in
             ret (y :: ys)
      end
  end.

(** ** Pieces *)

Section Chunks.
Context {A : Type} (n : nat) (Hn : (0 < n)%nat).

Lemma chunks_fuel fuel fuel' (l : list A) :
  (List.length l ≤ fuel)%nat → (List.length l ≤ fuel')%nat → chunks_of fuel n l = chunks_of fuel' n l.
Proof.
  revert fuel' l. induction fuel as [|fuel IH]; intros fuel' [|x l] H H'; cbn in H, H'; try lia; [by destruct fuel'..|].
  destruct fuel' as [|fuel']; [lia|]. cbn. f_equal.
  apply IH; rewrite length_skipn; cbn; lia.
Qed.
Lemma chunks_cons (l : list A) : l ≠ [] → chunks_of (List.length l) n l = take n l :: chunks_of (List.length (drop n l)) n (drop n l).
Proof.
  destruct l as [|x l]; [done|]. intros _. cbn [List.length chunks_of]. f_equal.
  apply chunks_fuel; rewrite ?length_skipn; cbn; lia.
Qed.
Lemma chunks_concat fuel (l : list A) : (List.length l ≤ fuel)%nat → concat (chunks_of fuel n l) = l.
Proof.
  revert l. induction fuel as [|fuel IH]; intros [|x l] H; cbn in H; [done|lia|done|]. cbn [chunks_of concat].
  rewrite IH; [apply take_drop|]. rewrite length_skipn. cbn. lia.
Qed.
Lemma chunks_ne fuel (l c : list A) : c ∈ chunks_of fuel n l → c ≠ [].
Proof.
  revert l. induction fuel as [|fuel IH]; intros [|x l]; cbn; try by intros ?%elem_of_nil.
  intros [->|H]%elem_of_cons; [|by eapply IH]. by destruct n; [lia|].
Qed.
Lemma chunks_sub fuel (l c : list A) x : c ∈ chunks_of fuel n l → x ∈ c → x ∈ l.
Proof.
  revert l. induction fuel as [|fuel IH]; intros [|y l]; cbn; try by intros ?%elem_of_nil.
  intros [->|H]%elem_of_cons Hx.
  - rewrite <- (take_drop n (y :: l)). apply elem_of_app. by left.
  - rewrite <- (take_drop n (y :: l)). apply elem_of_app. right. eauto.
Qed.
End Chunks.

(** ** Pages in order *)

Lemma Zleb_total x y : (x <=? y) = false → (y <=? x) = true.
Proof. lia. Qed.
Lemma Zleb_trans x y z : (x <=? y) = true → (y <=? z) = true → (x <=? z) = true.
Proof. lia. Qed.
Lemma sorted_ids l : StronglySorted (λ a b, (a <=? b) = true) (ssort Z.leb l).
Proof. apply ssort_sorted; [apply Zleb_total|apply Zleb_trans]. Qed.
Lemma last_default {A} (l : list A) a b : l ≠ [] → List.last l a = List.last l b.
Proof. intros H. destruct (exists_last H) as (p & m & ->). by rewrite !last_last. Qed.
Lemma after_elem last ids i : i ∈ after last ids ↔ i ∈ ids ∧ last < i.
Proof. unfold after. rewrite elem_of_filter_b, (ssort_perm Z.leb), Z.ltb_lt. tauto. Qed.
Lemma filter_sorted {A} (R : A → A → Prop) p l : StronglySorted R l → StronglySorted R (List.filter p l).
Proof.
  induction 1 as [|x l Hs IH Hx]; cbn; [constructor|]. destruct (p x); [|done]. constructor; [done|].
  apply Forall_forall. intros y [_ Hy]%elem_of_filter_b. by eapply Forall_forall in Hx.
Qed.
Lemma after_sorted last ids : StronglySorted (λ a b, (a <=? b) = true) (after last ids).
Proof. apply filter_sorted, sorted_ids. Qed.
Lemma after_NoDup last ids : NoDup ids → NoDup (after last ids).
Proof. intros H. unfold after. rewrite <- (ssort_perm Z.leb) in H. eapply sublist_NoDup; [exact H|apply filter_sublist]. Qed.
Lemma after_unique last ids last' ids' :
  NoDup ids → NoDup ids' → (∀ i, i ∈ ids ∧ last < i ↔ i ∈ ids' ∧ last' < i) → after last ids = after last' ids'.
Proof.
  intros H H' He. apply (sorted_unique Z.leb); [intros; lia|apply after_sorted..|].
  apply NoDup_Permutation; [by apply after_NoDup..|]. intros i. by rewrite !after_elem.
Qed.
(** What follows the first [n] of the ids is what is after the last of them. *)
Lemma after_drop n last ids :
  NoDup ids → (0 < n)%nat → after last ids ≠ [] →
  after (List.last (take n (after last ids)) last) ids = drop n (after last ids).
Proof.
  intros Hnd Hn Hne. set (l := after last ids) in *.
  assert (take n l ≠ []) as Hp by (destruct l, n; cbn; congruence || lia).
  destruct (exists_last Hp) as (p & m & Hpm). rewrite Hpm, last_last.
  pose proof (after_sorted last ids) as Hs. fold l in Hs.
  pose proof (after_NoDup last ids Hnd) as Hl. fold l in Hl.
  rewrite <- (take_drop n l), Hpm in Hs, Hl.
  apply StronglySorted_app in Hs as (Hcross & Hs1 & Hs2). apply NoDup_app in Hl as (_ & Hdis & Hl2).
  apply (sorted_unique Z.leb); [intros; lia|apply after_sorted|done|].
  apply NoDup_Permutation; [by apply after_NoDup|done|]. intros i. rewrite after_elem.
  assert (m ∈ l) as Hm by (rewrite <- (take_drop n l), Hpm; apply elem_of_app; left; apply elem_of_app; right; apply list_elem_of_here).
  apply after_elem in Hm as [_ Hm]. split.
  - intros [Hi Hlt]. assert (i ∈ l) as Hil by (apply after_elem; split; [done|lia]).
    rewrite <- (take_drop n l), Hpm in Hil. apply elem_of_app in Hil as [Hil|Hil]; [|done].
    apply StronglySorted_app in Hs1 as (Hc & _ & _). apply elem_of_app in Hil as [Hil|Hil%list_elem_of_singleton]; [|lia].
    specialize (Hc i m Hil ltac:(apply list_elem_of_here)). lia.
  - intros Hi. assert (i ∈ l) as Hil by (rewrite <- (take_drop n l); apply elem_of_app; by right).
    apply after_elem in Hil as [Hin _]. split; [done|].
    assert (m ∈ p ++ [m]) as Hmp by (apply elem_of_app; right; apply list_elem_of_here).
    specialize (Hcross m i Hmp Hi). cbn in Hcross. assert (m ≠ i) by (intros ->; by eapply Hdis). lia.
Qed.

Section Loop.
Context {S B : Type} (n : nat) (Hn : (0 < n)%nat) (ids : S → list Z) (body : list Z → M S B).
(** The invariant of the loop: the work on a page of ids leaves the ids after the page as they were. *)
Context (I : S → Prop) (I_ids : ∀ s, I s → NoDup (ids s)).
Context (I_body : ∀ s page b s', I s → NoDup page → page ⊆ ids s → (∀ i, i ∈ page → i <= List.last page i) → body page s = (Ok b, s') →
  I s' ∧ ∀ i, List.last page i < i → (i ∈ ids s' ↔ i ∈ ids s)).

Lemma page_NoDup m last l : NoDup l → NoDup (take m (after last l)).
Proof. intros H%(after_NoDup last). rewrite <- (take_drop m) in H. by apply NoDup_app in H as (? & _ & _). Qed.
Lemma page_sub m last l : take m (after last l) ⊆ l.
Proof. intros i Hi. assert (i ∈ after last l) as H%after_elem; [|by destruct H]. rewrite <- (take_drop m). apply elem_of_app. by left. Qed.
Lemma page_last m last l i : i ∈ take m (after last l) → i <= List.last (take m (after last l)) i.
Proof.
  pose proof (after_sorted last l) as Hs. rewrite <- (take_drop m (after last l)) in Hs. apply StronglySorted_app in Hs as (_ & Hs & _).
  generalize dependent (take m (after last l)). clear. intros l Hs Hi.
  assert (l ≠ []) as Hne by (by intros ->; apply elem_of_nil in Hi).
  destruct (exists_last Hne) as (p & x & ->). rewrite last_last. apply elem_of_app in Hi as [Hi|Hi%list_elem_of_singleton]; [|lia].
  apply StronglySorted_app in Hs as (Hc & _ & _). specialize (Hc i x Hi ltac:(apply list_elem_of_here)). lia.
Qed.

Lemma keyset_chunks fuel last s :
  I s → (List.length (after last (ids s)) < fuel)%nat →
  keyset fuel (λ last, gets (λ s, page_after n last (ids s))) body last s
  = each body (chunks_of (List.length (after last (ids s))) n (after last (ids s))) s.
Proof.
  revert last s. induction fuel as [|fuel IH]; intros last s HI Hf; [lia|]. cbn [keyset]. rewrite bind_gets.
  unfold page_after. destruct (after last (ids s)) as [|x l] eqn:E; [by destruct n|]. rewrite <- E in *.
  assert (after last (ids s) ≠ []) as Hne by (by rewrite E). rewrite chunks_cons by done. cbn [each].
  destruct (take n (after last (ids s))) as [|y page] eqn:Ep; [by rewrite E in Ep; destruct n; [lia|]|]. rewrite <- Ep.
  unfold bind at 1 3. destruct (body (take n (after last (ids s))) s) as [[b|e] s'] eqn:Eb; [|done].
  destruct (I_body _ _ _ _ HI (page_NoDup n last (ids s) (I_ids _ HI)) (page_sub n last (ids s)) (page_last n last (ids s)) Eb) as [HI' Hids].
  assert (after (List.last (take n (after last (ids s))) last) (ids s') = drop n (after last (ids s))) as Ha.
  { rewrite <- after_drop by auto. apply after_unique; [auto..|]. intros i.
    rewrite (last_default _ last i) by (rewrite Ep; done). split; intros [Hi Hlt]; (split; [|done]); by apply Hids. }
  unfold bind. rewrite IH; [by rewrite Ha|done|]. rewrite Ha, length_skipn. rewrite E in *. cbn in *. lia.
Qed.
End Loop.

Lemma keeps_each {S A B} (P : S → Prop) (body : A → M S B) l : (∀ x, x ∈ l → keeps P (body x)) → keeps P (each body l).
Proof.
  intros H. induction l as [|x l IH]; cbn; [apply keeps_ret|]. apply keeps_bind; [apply H; left|]. intros y.
  apply keeps_bind; [apply IH; intros; apply H; by right|]. intros ys. apply keeps_ret.
Qed.
Lemma keeps_keyset {S B} (P : S → Prop) select (body : list Z → M S B) fuel last :
  (∀ last, keeps P (select last)) → (∀ page, keeps P (body page)) → keeps P (keyset fuel select body last).
Proof.
  intros Hs Hb. revert last. induction fuel as [|fuel IH]; intros last; cbn; [apply keeps_raise|].
  apply keeps_bind; [apply Hs|]. intros [|x page]; [apply keeps_ret|]. apply keeps_bind; [apply Hb|]. intros y.
  apply keeps_bind; [apply IH|]. intros ys. apply keeps_ret.
Qed.
