(* ===== verification/Matching.v ===== *)
(** * Which offers match a demande

    Models src/core/matcher/: match_query_sql.py, match_query_cte.py, match_query_counts.py,
    match_counter_helpers.py, match_counter_batch.py, match_counter_demande.py and
    match_scoring_sql.py, over the tables of clients, demandes, listings and offers, the locations
    of both, and the stored matches [match_candidates], [match_pairs] and [match_counts_cache].

    The tables hold the rows of one agency, as row-level security shows them to the tasks, which run
    as its manager.  A NUMERIC column is a rational; a column that the migrations declare NOT NULL
    is not an option.  Ranges are closed, as every writer builds them ['[]'].  The columns that
    nothing here reads, and the time at which a match was stored, are left out. *)

From S2P Require Import Prelude Keyset PyFloat CanonicalJson.
From Stdlib Require Import QArith SpecFloat Ascii String.
Local Open Scope Z_scope.

(** ** Tables *)

(** Closed ranges; [None] is no bound. *)
Record range (A : Type) := mkRange { rg_lo : option A; rg_hi : option A }.
Arguments mkRange {A} _ _.
Arguments rg_lo {A} _.
Arguments rg_hi {A} _.

Record client := mkClient {
  c_id : Z;
  c_agency : Z;
  c_status : string;
  c_visibility : option string;
  c_owner : option Z;
  c_deleted_at : option Z
}.
Record demande := mkDemande {
  d_id : Z;
  d_client : Z;
  d_agency : Z;
  d_type : option string;
  d_type_id : Z;
  d_action_id : Z;
  d_wilaya_id : Z;
  d_beds_min : Z;
  d_surface_min : Q;
  d_budget_max : Q;
  d_budget_range : range Q;
  d_surface_range : range Q;
  d_beds_range : range Z;
  d_furnished : option string;
  d_floor_min : option Z;
  d_floor_max : option Z;
  d_elevator : option Z;
  d_accessibility : option Z;
  d_visibility : option string;
  d_owner : option Z;
  d_deleted_at : option Z
}.
Record listing := mkListing { l_id : Z; l_agency : Z; l_status : string; l_deleted_at : option Z }.
Record offer := mkOffer {
  o_id : Z;
  o_listing : Z;
  o_agency : Z;
  o_type : option string;
  o_type_id : Z;
  o_action_id : Z;
  o_status : string;
  o_wilaya_id : Z;
  o_beds : Z;
  o_surface : Q;
  o_budget : Q;
  o_price_range : option (range Q);
  o_furnished : option string;
  o_floor : Z;
  o_elevator : Z;
  o_accessibility : Z;
  o_visibility : option string;
  o_owner : option Z;
  o_deleted_at : option Z
}.

(** The columns of a stored match beside its key (demande, offer). *)
Record shadow := mkShadow {
  sh_demande_visibility : option string;
  sh_offer_visibility : option string;
  sh_demande_owner : option Z;
  sh_offer_owner : option Z
}.
Record candidate := mkCandidate { mc_agency : Z; mc_shadow : shadow }.
(** [mp_score] is the score in hundredths: a DOUBLE that [ROUND(..., 2)] produced. *)
Record pair_row := mkPair { mp_agency : Z; mp_shadow : shadow; mp_score : Z; mp_rank : Z }.
(** A row of match_counts_cache, by client. *)
Record count_row := mkCount { cc_count : Z; cc_visibility : option string; cc_owner : option Z; cc_dirty : bool }.

Record match_db := mkDb {
  db_clients : list client;
  db_demandes : list demande;
  db_listings : list listing;
  db_offers : list offer;
  db_demande_locations : list (Z * Z);
  db_offer_locations : list (Z * Z);
  db_candidates : gmap (Z * Z) candidate;
  db_pairs : gmap (Z * Z) pair_row;
  db_counts : gmap Z count_row
}.
Abbreviation DM := (M match_db).

(** ** Conditions in three-valued logic *)

Abbreviation truth := (option bool).
Definition and3 (a b : truth) : truth :=
  match a, b with
  | Some false, _ | _, Some false => Some false
  | Some true, Some true => Some true
  | _, _ => None
  end.
Definition or3 (a b : truth) : truth :=
  match a, b with
  | Some true, _ | _, Some true => Some true
  | Some false, Some false => Some false
  | _, _ => None
  end.
(** [WHERE] and [ON] keep a row only when the condition is true. *)
Definition holds (a : truth) : bool := match a with Some b => b | None => false end.
Definition all3 (l : list truth) : truth := foldr and3 (Some true) l.

Section Ranges.
Context {A : Type} (leb : A → A → bool).
Definition above (lo : option A) (x : A) : bool := match lo with Some l => leb l x | None => true end.
Definition below (hi : option A) (x : A) : bool := match hi with Some h => leb x h | None => true end.
(** [x <@ r] *)
Definition in_range (x : A) (r : range A) : bool := above (rg_lo r) x && below (rg_hi r) x.
Definition bound_leb (a b : option A) : bool :=
  match a, b with Some x, Some y => leb x y | _, _ => true end.
(** [r && s] *)
Definition overlaps (r s : range A) : bool := bound_leb (rg_lo r) (rg_hi s) && bound_leb (rg_lo s) (rg_hi r).
End Ranges.

Definition not_deleted (d : option Z) : bool := bool_decide (d = None).
(** ** The fragments (match_query_sql.py) *)

(* src/core/matcher/match_query_sql.py :: ACTION_ID_BUY *)
Definition ACTION_ID_BUY : Z := 1.
(* src/core/matcher/match_query_sql.py :: ACTION_ID_RENT *)
Definition ACTION_ID_RENT : Z := 2.
(* src/core/matcher/match_query_sql.py :: ACTION_ID_SELL *)
Definition ACTION_ID_SELL : Z := 3.
(* src/core/matcher/match_query_sql.py :: TYPE_MATCH_STRICT *)
Definition TYPE_MATCH_STRICT (d : demande) (o : offer) : truth := Some (d_type_id d =? o_type_id o).
(* src/core/matcher/match_query_sql.py :: ACTION_MATCH *)
Definition ACTION_MATCH (d : demande) (o : offer) : truth :=
  let wanted := if d_action_id d =? ACTION_ID_BUY then Some ACTION_ID_SELL
                else if d_action_id d =? ACTION_ID_RENT then Some ACTION_ID_RENT
                else None in
  (λ w, o_action_id o =? w) <$> wanted.
(* src/core/matcher/match_query_sql.py :: ACTIVE_CLIENT *)
Definition ACTIVE_CLIENT (c : client) : bool := bool_decide (c_status c = "active") && not_deleted (c_deleted_at c).
(* src/core/matcher/match_query_sql.py :: ACTIVE_LISTING *)
Definition ACTIVE_LISTING (l : listing) : bool := bool_decide (l_status l = "available") && not_deleted (l_deleted_at l).
(* src/core/matcher/match_query_sql.py :: ACTIVE_DEMANDE *)
Definition ACTIVE_DEMANDE (d : demande) : bool := not_deleted (d_deleted_at d).
(* src/core/matcher/match_query_sql.py :: ACTIVE_OFFER *)
Definition ACTIVE_OFFER (o : offer) : bool := bool_decide (o_status o = "available") && not_deleted (o_deleted_at o).
(** [x IS NULL OR y = 1] *)
Definition required (x : option Z) (y : Z) : truth := match x with None => Some true | Some _ => Some (y =? 1) end.
(* src/core/matcher/match_query_sql.py :: NUMERIC_MATCH *)
Definition NUMERIC_MATCH (d : demande) (o : offer) : truth :=
  all3 [(λ r, overlaps Qle_bool r (d_budget_range d)) <$> o_price_range o;
        Some (in_range Qle_bool (o_surface o) (d_surface_range d));
        Some (in_range Z.leb (o_beds o) (d_beds_range d));
        match d_floor_min d, d_floor_max d with
        | None, None => Some true
        | lo, hi => Some ((default 0 lo <=? o_floor o) && (o_floor o <=? default 100 hi))
        end;
        required (d_elevator d) (o_elevator o);
        required (d_accessibility d) (o_accessibility o)].
(* src/core/matcher/match_query_sql.py :: COMMON_MATCH *)
Definition COMMON_MATCH (d : demande) (o : offer) : truth :=
  and3 (and3 (TYPE_MATCH_STRICT d o) (ACTION_MATCH d o)) (NUMERIC_MATCH d o).

Definition has_locations (db : match_db) (demande_id : Z) : bool :=
  existsb (λ dl, dl.1 =? demande_id) (db_demande_locations db).
Definition shares_location (db : match_db) (demande_id offer_id : Z) : bool :=
  existsb (λ dl : Z * Z, (dl.1 =? demande_id)
    && existsb (λ ol : Z * Z, (ol.2 =? dl.2) && (ol.1 =? offer_id)) (db_offer_locations db)) (db_demande_locations db).
(* src/core/matcher/match_query_sql.py :: LOCATION_MATCH *)
Definition LOCATION_MATCH (db : match_db) (d : demande) (o : offer) : truth :=
  or3 (Some (shares_location db (d_id d) (o_id o)))
      (and3 (Some (negb (has_locations db (d_id d)))) (Some (o_wilaya_id o =? d_wilaya_id d))).

(** ** The pairs that match (match_query_cte.py) *)

(** [FROM l JOIN ... ON p]: the rows of [l] that satisfy [p], continued by [k]. *)
Definition join {A B} (l : list A) (p : A → bool) (k : A → list B) : list B :=
  flat_map k (List.filter p l).

(** What restricts a query. *)
Record restriction := mkRestriction {
  rs_client_ids : list Z;
  rs_demande_ids : list Z;
  rs_offer_ids : list Z;
  rs_listing_ids : list Z;
  rs_include_numeric : bool
}.
Definition is_in (x : Z) (l : list Z) : bool := bool_decide (x ∈ l).
(* src/core/matcher/match_query_cte.py :: _build_id_filter *)
Definition _build_id_filter (client_ids demande_ids : list Z) (d : demande) : bool :=
  match client_ids, demande_ids with
  | _ :: _, _ => is_in (d_client d) client_ids
  | [], _ :: _ => is_in (d_id d) demande_ids
  | [], [] => true
  end.
(* src/core/matcher/match_query_cte.py :: build_match_cte [113-121] *)
Definition offer_filter (r : restriction) (o : offer) : bool :=
  match rs_offer_ids r, rs_listing_ids r with
  | (_ :: _) as ids, _ => is_in (o_id o) ids
  | [], (_ :: _) as ids => is_in (o_listing o) ids
  | [], [] => true
  end.

Section Cte.
Context (db : match_db) (r : restriction).

(** The conditions both branches end with. *)
Definition where_common (d : demande) (o : offer) : truth :=
  all3 [ACTION_MATCH d o; (if rs_include_numeric r then NUMERIC_MATCH d o else Some true);
        Some (offer_filter r o); TYPE_MATCH_STRICT d o].
(** [FROM demandes d JOIN clients c ... WHERE id_filter AND ACTIVE_DEMANDE AND where] *)
Definition branch (where_ : demande → bool) (offers_of : demande → (offer → list (demande * offer)) → list (demande * offer)) :
    list (demande * offer) :=
  join (db_demandes db) (λ d, _build_id_filter (rs_client_ids r) (rs_demande_ids r) d && ACTIVE_DEMANDE d && where_ d) (λ d,
  join (db_clients db) (λ c, (c_id c =? d_client d) && (c_agency c =? d_agency d) && ACTIVE_CLIENT c) (λ _,
  offers_of d (λ o,
  join (db_listings db) (λ l, (l_id l =? o_listing o) && (l_agency l =? o_agency o) && ACTIVE_LISTING l) (λ _,
  if holds (where_common d o) then [(d, o)] else [])))).
(* src/core/matcher/match_query_cte.py :: _junction_branch *)
Definition _junction_branch : list (demande * offer) :=
  branch (λ _, true) (λ d k,
    join (db_demande_locations db) (λ dl, d_id d =? dl.1) (λ dl,
    join (db_offer_locations db) (λ ol, dl.2 =? ol.2) (λ ol,
    join (db_offers db) (λ o, (ol.1 =? o_id o) && (o_agency o =? d_agency d) && ACTIVE_OFFER o) k))).
(* src/core/matcher/match_query_cte.py :: _wilaya_branch *)
Definition _wilaya_branch : list (demande * offer) :=
  branch (λ d, negb (has_locations db (d_id d)) && negb (d_wilaya_id d =? 0)) (λ d k,
    join (db_offers db) (λ o, (d_wilaya_id d =? o_wilaya_id o) && (o_agency o =? d_agency d) && ACTIVE_OFFER o) k).
(** [matched_pairs], for the columns [select] of a pair. *)
(* src/core/matcher/match_query_cte.py :: build_match_cte *)
Definition build_match_cte {A} `{EqDecision A} (select : demande → offer → A) : list A :=
  remove_dups (map (λ p, select p.1 p.2) (_junction_branch ++ _wilaya_branch)).
End Cte.

(** ** Counts *)

(** [SELECT k, COUNT(DISTINCT x) ... GROUP BY k] over the pairs [(k, x)]. *)
Section Grouping.
Context {X : Type} `{EqDecision X}.
Definition group (k : Z) (l : list (Z * X)) : list X := map snd (List.filter (λ kx, kx.1 =? k) l).
Definition count_distinct (l : list X) : Z := Z.of_nat (List.length (remove_dups l)).
Definition grouped (l : list (Z * X)) : gmap Z Z :=
  list_to_map (map (λ k, (k, count_distinct (group k l))) (remove_dups (map fst l))).
End Grouping.
(** [dict.update], and a dict of zeros. *)
Definition update_counts (d d2 : gmap Z Z) : gmap Z Z := d2 ∪ d.
Definition zeros (ids : list Z) : gmap Z Z := list_to_map (map (λ i, (i, 0)) ids).

(* src/core/matcher/match_counter_helpers.py :: iter_id_chunks *)
Definition iter_id_chunks (ids : list Z) (chunk_size : nat) : list (list Z) := chunks_of (List.length ids) chunk_size ids.
(* src/core/matcher/match_counter_helpers.py :: _MAX_DIRECT_IDS *)
Definition _MAX_DIRECT_IDS : nat := 999.

(** [build_match_cte] with some of its arguments. *)
Definition for_demandes (ids : list Z) : restriction := mkRestriction [] ids [] [] true.
Definition for_clients (ids : list Z) : restriction := mkRestriction ids [] [] [] true.
Definition for_offers (ids : list Z) : restriction := mkRestriction [] [] ids [] true.
Definition for_listings (ids : list Z) : restriction := mkRestriction [] [] [] ids true.
Definition loosely (r : restriction) : restriction :=
  mkRestriction (rs_client_ids r) (rs_demande_ids r) (rs_offer_ids r) (rs_listing_ids r) false.

Section Counts.
Context (db : match_db).

(** The stored candidates with the rows they name. *)
Definition candidate_keys : list (Z * Z) := (map_to_list (db_candidates db)).*1.
Definition stored (p : demande → bool) (q : offer → bool) : list (demande * offer) :=
  flat_map (λ k : Z * Z,
    join (db_offers db) (λ o, (o_id o =? k.2) && ACTIVE_OFFER o && q o) (λ o,
    join (db_listings db) (λ l, (l_id l =? o_listing o) && ACTIVE_LISTING l) (λ _,
    join (db_demandes db) (λ d, (d_id d =? k.1) && p d) (λ d, [(d, o)])))) candidate_keys.
Definition has_active_client (d : demande) : bool :=
  existsb (λ c, (c_id c =? d_client d) && ACTIVE_CLIENT c) (db_clients db).
Definition per_client (l : list (demande * offer)) : gmap Z Z := grouped (map (λ p, (d_client p.1, o_id p.2)) l).
Definition per_demande (l : list (demande * offer)) : gmap Z Z := grouped (map (λ p, (d_id p.1, o_id p.2)) l).
(** Queries that do not join the demandes. *)
Definition stored_offers (q : offer → bool) : list (offer * Z) :=
  flat_map (λ k : Z * Z,
    join (db_offers db) (λ o, (o_id o =? k.2) && ACTIVE_OFFER o && q o) (λ o,
    join (db_listings db) (λ l, (l_id l =? o_listing o) && ACTIVE_LISTING l) (λ _, [(o, k.1)]))) candidate_keys.

(** Counts from the stored candidates (match_counter_helpers.py, match_counter_batch.py,
    match_counter_demande.py) *)
Definition by_chunks (ids : list Z) (query : list Z → gmap Z Z) : gmap Z Z :=
  foldl (λ counts chunk, update_counts counts (query chunk)) (zeros ids) (iter_id_chunks ids _MAX_DIRECT_IDS).
(* src/core/matcher/match_counter_helpers.py :: count_clients_for_ids *)
Definition count_clients_for_ids (client_ids : list Z) : gmap Z Z :=
  by_chunks client_ids (λ chunk,
    per_client (stored (λ d, has_active_client d && is_in (d_client d) chunk && ACTIVE_DEMANDE d) (λ _, true))).
(* src/core/matcher/match_counter_helpers.py :: count_demandes_for_ids *)
Definition count_demandes_for_ids (demande_ids : list Z) : gmap Z Z :=
  by_chunks demande_ids (λ chunk, per_demande (stored (λ d, is_in (d_id d) chunk && ACTIVE_DEMANDE d) (λ _, true))).
(* src/core/matcher/match_counter_helpers.py :: count_listings_for_ids *)
Definition count_listings_for_ids (listing_ids : list Z) : gmap Z Z :=
  by_chunks listing_ids (λ chunk,
    grouped (map (λ p, (o_listing p.1, p.2)) (stored_offers (λ o, is_in (o_listing o) chunk)))).
(* src/core/matcher/match_counter_helpers.py :: count_offers_for_ids *)
Definition count_offers_for_ids (offer_ids : list Z) : gmap Z Z :=
  by_chunks offer_ids (λ chunk,
    grouped (map (λ p, (o_id p.1, p.2)) (stored_offers (λ o, is_in (o_id o) chunk)))).
(* src/core/matcher/match_counter_batch.py :: batch_count_clients_paginated *)
Definition batch_count_clients_paginated (client_ids : list Z) : gmap Z Z :=
  match client_ids with [] => ∅ | _ => count_clients_for_ids client_ids end.
(* src/core/matcher/match_counter_batch.py :: batch_count_all_clients_cte *)
Definition batch_count_all_clients_cte : gmap Z Z :=
  per_client (stored (λ d, has_active_client d && ACTIVE_DEMANDE d) (λ _, true)).
(* src/core/matcher/match_counter_batch.py :: batch_count_listings_paginated *)
Definition batch_count_listings_paginated (listing_ids : list Z) : gmap Z Z :=
  match listing_ids with [] => ∅ | _ => count_listings_for_ids listing_ids end.
(** Every active listing, those without matches included. *)
(* src/core/matcher/match_counter_batch.py :: batch_count_all_listings_cte *)
Definition batch_count_all_listings_cte : gmap Z Z :=
  list_to_map (map (λ l, (l_id l,
    count_distinct (flat_map (λ o, map fst (List.filter (λ k : Z * Z, k.2 =? o_id o) candidate_keys))
      (List.filter (λ o, (o_listing o =? l_id l) && ACTIVE_OFFER o) (db_offers db)))))
    (List.filter ACTIVE_LISTING (db_listings db))).
(* src/core/matcher/match_counter_batch.py :: count_offers_by_ids *)
Definition count_offers_by_ids (offer_ids : list Z) : gmap Z Z :=
  match offer_ids with [] => ∅ | _ => count_offers_for_ids offer_ids end.
(* src/core/matcher/match_counter_batch.py :: batch_count_all_offers_cte *)
Definition batch_count_all_offers_cte : gmap Z Z :=
  list_to_map (map (λ o, (o_id o,
    if existsb (λ l, (l_id l =? o_listing o) && ACTIVE_LISTING l) (db_listings db)
    then count_distinct (map fst (List.filter (λ k : Z * Z, k.2 =? o_id o) candidate_keys)) else 0))
    (List.filter ACTIVE_OFFER (db_offers db))).
(* src/core/matcher/match_counter_batch.py :: count_single_client_cte *)
Definition count_single_client_cte (client_id : Z) : Z := default 0 (count_clients_for_ids [client_id] !! client_id).
(* src/core/matcher/match_counter_batch.py :: count_clients_in_wilaya_cte *)
Definition count_clients_in_wilaya_cte (wilaya_id : option Z) : gmap Z Z :=
  match wilaya_id with
  | None | Some 0 => ∅
  | Some w =>
      per_client (stored (λ d, has_active_client d && ACTIVE_DEMANDE d && (d_wilaya_id d =? w)) (λ _, true))
  end.
(* src/core/matcher/match_counter_batch.py :: batch_count_all_demandes_cte *)
Definition batch_count_all_demandes_cte : gmap Z Z := per_demande (stored ACTIVE_DEMANDE (λ _, true)).
(* src/core/matcher/match_counter_batch.py :: count_demandes_by_ids *)
Definition count_demandes_by_ids (demande_ids : list Z) : gmap Z Z :=
  match demande_ids with [] => ∅ | _ => count_demandes_for_ids demande_ids end.
(* src/core/matcher/match_counter_demande.py :: _count_for_demande_fast *)
Definition _count_for_demande_fast (demande_id : Z) : Z :=
  count_distinct (map (λ p, o_id p.2) (stored (λ d, (d_id d =? demande_id) && ACTIVE_DEMANDE d) (λ _, true))).
(* src/core/matcher/match_counter_demande.py :: count_matches_per_demande *)
Definition count_matches_per_demande (client_id : Z) : gmap Z Z :=
  list_to_map (map (λ d, (d_id d, _count_for_demande_fast (d_id d)))
    (List.filter (λ d, (d_client d =? client_id) && not_deleted (d_deleted_at d)) (db_demandes db))).

(** Counts by the matcher itself (match_query_counts.py) *)
(* src/core/matcher/match_query_counts.py :: build_client_counts_query *)
Definition build_client_counts_query (client_ids : option (list Z)) (agency_id : option Z) : gmap Z Z :=
  per_client (stored (λ d, has_active_client d && ACTIVE_DEMANDE d
    && match client_ids with Some ids => is_in (d_client d) ids | None => true end
    && match agency_id with Some a => d_agency d =? a | None => true end) (λ _, true)).
(* src/core/matcher/match_query_counts.py :: build_single_client_count_query *)
Definition build_single_client_count_query (client_id : Z) : Z :=
  count_distinct (build_match_cte db (for_clients [client_id]) (λ _ o, o_id o)).
(* src/core/matcher/match_query_counts.py :: build_demande_counts_query *)
Definition build_demande_counts_query (demande_ids : list Z) : gmap Z Z :=
  grouped (build_match_cte db (for_demandes demande_ids) (λ d o, (d_id d, o_id o))).
(* src/core/matcher/match_query_counts.py :: build_listing_counts_query *)
Definition build_listing_counts_query (listing_ids : list Z) : gmap Z Z :=
  grouped (build_match_cte db (for_listings listing_ids) (λ d o, (o_listing o, d_id d))).
(* src/core/matcher/match_query_counts.py :: build_offer_counts_query *)
Definition build_offer_counts_query (offer_ids : list Z) : gmap Z Z :=
  grouped (build_match_cte db (for_offers offer_ids) (λ d o, (o_id o, d_id d))).
(* src/core/matcher/match_query_counts.py :: build_demande_match_count_query *)
Definition build_demande_match_count_query (demande_id : Z) : Z :=
  count_distinct (build_match_cte db (for_demandes [demande_id]) (λ _ o, o_id o)).

(** The demandes an offer or a listing concerns (demande_repo_read.py) *)
(* src/core/data/demande_repo_read.py :: get_demande_ids_for_offer *)
Definition get_demande_ids_for_offer (offer_id : Z) : list Z :=
  remove_dups (build_match_cte db (loosely (for_offers [offer_id])) (λ d _, d_id d)).
(* src/core/data/demande_repo_read.py :: get_demande_ids_for_listing *)
Definition get_demande_ids_for_listing (listing_id : Z) : list Z :=
  remove_dups (build_match_cte db (loosely (for_listings [listing_id])) (λ d _, d_id d)).
(** Of both tables, in order. *)
Definition linked_demandes (offer_id : Z) : list Z :=
  map fst (List.filter (λ k : Z * Z, k.2 =? offer_id) ((map_to_list (db_pairs db)).*1 ++ candidate_keys)).
(* src/core/data/demande_repo_read.py :: get_demande_ids_from_precomputed_for_offer *)
Definition get_demande_ids_from_precomputed_for_offer (offer_id : Z) : list Z :=
  ssort Z.leb (remove_dups (linked_demandes offer_id)).
End Counts.
