(* ===== verification/MatchArtifacts.v ===== *)
(** * The stored matches and how they are rebuilt

    Models src/core/matcher/match_scoring_sql.py, and in src/core/data: match_candidates.py,
    match_pairs.py and match_artifact_pipeline.py, with match_pairs_compute.py of src/server/api.

    Candidates are the pairs that match; pairs are the best of them with their score and rank.  The
    two pipelines that rebuild both for a list of demandes are modelled statement by statement; a
    statement sees the tables as they are when it starts, the results of its own [WITH] parts
    included.  Timeouts of statements are left out. *)

From S2P Require Import Prelude Keyset PyValue PyFloat CanonicalJson RebuildState Matching.
From Stdlib Require Import QArith SpecFloat Ascii String.
Local Open Scope Z_scope.

Definition UniqueViolation : exn := OtherError "UniqueViolation".
Definition CardinalityViolation : exn := OtherError "CardinalityViolation".
Definition ForeignKeyViolation : exn := OtherError "ForeignKeyViolation".

(** ** The score (match_scoring_sql.py) *)

(** [numeric::double precision] *)
Definition double (q : Q) : spec_float :=
  match Qnum q with
  | Z0 => S754_zero false
  | Zpos n => of_ratio false n (Qden q)
  | Zneg n => of_ratio true n (Qden q)
  end.
(** [LEAST] and [GREATEST] with a constant: a NaN is above every number. *)
Definition least (a x : spec_float) : spec_float :=
  match x with S754_nan => a | _ => if flt x a then x else a end.
Definition greatest (a x : spec_float) : spec_float :=
  match x with S754_nan => x | _ => if flt a x then x else a end.
(** [ROUND(x::numeric, 2)] in hundredths: the cast keeps 15 digits, the rounding takes ties away from zero. *)
Definition hundredths (x : spec_float) : Z :=
  match x with
  | S754_finite s m e =>
      let n := if 0 <=? e then Z.pos m * 2 ^ e else Z.pos m in
      let d := if 0 <=? e then 1 else 2 ^ (- e) in
      let '(c, ex) := sig_digits n d in
      let k := ex - 12 in
      let v := if 0 <=? k then c * pow10 k else (2 * c + pow10 (- k)) / (2 * pow10 (- k)) in
      if s then - v else v
  | _ => 0
  end.

(** [BTRIM]: spaces only. *)
Fixpoint ltrim_spaces (s : string) : string :=
  match s with String " "%char r => ltrim_spaces r | _ => s end.
Fixpoint rev_onto (s acc : string) : string :=
  match s with EmptyString => acc | String c r => rev_onto r (String c acc) end.
Definition str_rev (s : string) : string := rev_onto s EmptyString.
Definition btrim (s : string) : string := str_rev (ltrim_spaces (str_rev (ltrim_spaces s))).

(** A row of [matched_pairs]: agency, key and shadow. *)
Abbreviation match_row := (Z * (Z * Z) * shadow)%type.
(** [LOWER] depends on the collation of the database. *)
Section Score.
Context (sql_lower : string → string).

Definition clean_text (s : option string) : string :=
  match s with Some s => btrim (sql_lower s) | None => EmptyString end.
Definition tenth_3 : spec_float := PyFloat.of_decimal false 3 (-1).

(* src/core/matcher/match_scoring_sql.py :: SCORE_RAW_SQL *)
Definition SCORE_RAW_SQL (db : match_db) (d : demande) (o : offer) : spec_float :=
  let type_ := clean_text (d_type d) in
  let type_part := if str_empty type_ || str_empty (clean_text (o_type o))
                      || bool_decide (type_ = clean_text (o_type o)) then 2 else 0 in
  let location_part := if has_locations db (d_id d)
                       then if shares_location db (d_id d) (o_id o) then 2 else 0
                       else 1 in
  let budget_part :=
    if negb (Qle_bool (d_budget_max d) 0) && Qle_bool (o_budget o) (d_budget_max d) then
      let m := double (d_budget_max d) in
      if SFeqb m (of_Z 0) then of_Z 2
      else least (of_Z 2) (fmul (fsub (of_Z 1) (SFdiv 53 1024 (double (o_budget o)) m)) (of_Z 4))
    else of_Z 0 in
  let surface_part :=
    if negb (Qle_bool (d_surface_min d) 0) && Qle_bool (d_surface_min d) (o_surface o) then
      let m := double (d_surface_min d) in
      least (of_Z 2) (fmul (SFdiv 53 1024 (fsub (double (o_surface o)) m) (greatest (of_Z 1) m)) (of_Z 2))
    else of_Z 0 in
  let beds_part :=
    if (0 <? d_beds_min d) && (d_beds_min d <=? o_beds o) then
      least (of_Z 1) (fmul (fsub (of_Z (o_beds o)) (of_Z (d_beds_min d))) tenth_3)
    else of_Z 0 in
  let furnished := clean_text (d_furnished d) in
  let furnished_part := if negb (bool_decide (furnished ∈ [EmptyString; "any"]))
                           && bool_decide (furnished = clean_text (Some (default EmptyString (o_furnished o))))
                        then 1 else 0 in
  fadd (fadd (fadd (fadd (of_Z (type_part + location_part)) budget_part) surface_part) beds_part) (of_Z furnished_part).
(** In hundredths. *)
(* src/core/matcher/match_scoring_sql.py :: SCORE_SQL *)
Definition SCORE_SQL (db : match_db) (d : demande) (o : offer) : Z :=
  hundredths (least (of_Z 10) (SCORE_RAW_SQL db d o)).

(** ** Statements on the stored matches *)

Definition set_candidates (f : gmap (Z * Z) candidate → gmap (Z * Z) candidate) (db : match_db) : match_db :=
  mkDb (db_clients db) (db_demandes db) (db_listings db) (db_offers db) (db_demande_locations db)
    (db_offer_locations db) (f (db_candidates db)) (db_pairs db) (db_counts db).
Definition set_pairs (f : gmap (Z * Z) pair_row → gmap (Z * Z) pair_row) (db : match_db) : match_db :=
  mkDb (db_clients db) (db_demandes db) (db_listings db) (db_offers db) (db_demande_locations db)
    (db_offer_locations db) (db_candidates db) (f (db_pairs db)) (db_counts db).
Definition find_demande (db : match_db) (i : Z) : option demande := List.find (λ d, d_id d =? i) (db_demandes db).
Definition find_offer (db : match_db) (i : Z) : option offer := List.find (λ o, o_id o =? i) (db_offers db).
Definition shadow_of (d : demande) (o : offer) : shadow :=
  mkShadow (d_visibility d) (o_visibility o) (d_owner d) (o_owner o).
Definition no_shadow : shadow := mkShadow None None None None.
#[export] Instance shadow_eq_dec : EqDecision shadow.
Proof. solve_decision. Defined.

(** [INSERT] without [ON CONFLICT] *)
Definition insert_rows {V} (rows : list ((Z * Z) * V)) (t : gmap (Z * Z) V) : res (gmap (Z * Z) V) :=
  foldl (λ r kv, res_bind r (λ t, match t !! kv.1 with Some _ => Err UniqueViolation | None => Ok (<[kv.1 := kv.2]> t) end))
    (Ok t) rows.
(** Rows by demande. *)
Definition drop_demandes {V} (ids : list Z) (t : gmap (Z * Z) V) : gmap (Z * Z) V :=
  filter (λ kv, is_in kv.1.1 ids = false) t.
Definition drop_offer {V} (offer_id : Z) (t : gmap (Z * Z) V) : gmap (Z * Z) V :=
  filter (λ kv, kv.1.2 ≠ offer_id) t.
(** [[int(v) for v in ids if int(v) > 0]] *)
Definition normalized (ids : list Z) : list Z := List.filter (λ i, 0 <? i) ids.
(** The rows [WHERE demande_id = ANY(ids)], [WHERE demande_id = %s], or all. *)
Definition chosen (demande_id : option Z) (demande_ids : list Z) (k : Z * Z) : bool :=
  match normalized demande_ids, demande_id with
  | (_ :: _) as ids, _ => is_in k.1 ids
  | [], Some i => k.1 =? i
  | [], None => true
  end.
(** [UPDATE ... SET ... FROM demandes d, offers o] *)
Definition refreshed {V} (put : shadow → V → V) (sel : Z * Z → bool) (db : match_db) (t : gmap (Z * Z) V) : gmap (Z * Z) V :=
  map_imap (λ k v, Some (if sel k then match find_demande db k.1, find_offer db k.2 with
                                       | Some d, Some o => put (shadow_of d o) v
                                       | _, _ => v
                                       end else v)) t.

(** *** match_candidates.py *)

(* src/core/data/match_candidates.py :: clear_candidates *)
Definition clear_candidates (demande_id : option Z) (demande_ids : list Z) : DM unit :=
  modify (set_candidates (filter (λ kv, chosen demande_id demande_ids kv.1 = false))).
(* src/core/data/match_candidates.py :: clear_candidates_for_offer *)
Definition clear_candidates_for_offer (offer_id : Z) : DM unit :=
  if offer_id <=? 0 then ret tt else modify (set_candidates (drop_offer offer_id)).
(* src/core/data/match_candidates.py :: update_visibility_cache *)
Definition candidates_update_visibility_cache (demande_id : option Z) (demande_ids : list Z) : DM unit :=
  modify (λ db, set_candidates (refreshed (λ sh c, mkCandidate (mc_agency c) sh) (chosen demande_id demande_ids) db) db).
(* src/core/data/match_candidates.py :: fetch_candidate_offer_ids *)
Definition fetch_candidate_offer_ids (demande_id : Z) : DM (list Z) :=
  gets (λ db, build_match_cte db (for_demandes [demande_id]) (λ _ o, o_id o)).
(** [INSERT ... ON CONFLICT (demande_id, offer_id) DO UPDATE SET agency_id]: a row that is new has no shadow. *)
Definition upsert_candidate (agency : Z) (k : Z * Z) (t : gmap (Z * Z) candidate) : gmap (Z * Z) candidate :=
  <[k := mkCandidate agency (default no_shadow (mc_shadow <$> t !! k))]> t.
(* src/core/data/match_cache_utils.py :: chunk_ids *)
Definition chunk_ids (ids : list Z) : list (list Z) := chunks_of (List.length ids) 900 ids.
(** One [INSERT] of a chunk; it may name a row only once. *)
(* src/core/data/match_candidates.py :: store_candidates [111-126] *)
Definition store_chunk (demande_id : Z) (chunk : list Z) : DM unit :=
  let! d := gets (λ db, find_demande db demande_id) in
  let! known := gets (λ db, forallb (λ o, is_in o (map o_id (db_offers db))) chunk) in
  match d with
  | None => ret tt
  | Some d =>
      if negb (bool_decide (NoDup chunk)) then raise CardinalityViolation
      else if negb known then raise ForeignKeyViolation
      else modify (set_candidates (λ t, foldl (λ t o, upsert_candidate (d_agency d) (demande_id, o) t) t chunk))
  end.
(* src/core/data/match_candidates.py :: store_candidates *)
Definition store_candidates (demande_id : Z) (offer_ids : list Z) : DM Z :=
  match offer_ids with
  | [] => ret 0
  | _ => do! for_each (store_chunk demande_id) (chunk_ids offer_ids) in ret (Z.of_nat (List.length offer_ids))
  end.
(* src/core/data/match_candidates.py :: replace_candidates *)
Definition replace_candidates (demande_id : Z) (offer_ids : list Z) : DM Z :=
  do! clear_candidates (Some demande_id) [] in
  let! stored := store_candidates demande_id offer_ids in
  do! (if stored =? 0 then ret tt else candidates_update_visibility_cache (Some demande_id) []) in
  ret stored.
(** How many rows of a list have each demande, over the ids of [ids]. *)
Definition totals (ids : list Z) (rows : list (Z * Z)) : gmap Z Z :=
  list_to_map (map (λ i, (i, Z.of_nat (List.length (List.filter (λ k : Z * Z, k.1 =? i) rows)))) ids).
Definition positive_totals (counts : gmap Z Z) : list Z := (filter (λ kv : Z * Z, 0 < kv.2) (map_to_list counts)).*1.
(* src/core/data/match_candidates.py :: replace_candidates_for_demandes_from_match_query *)
Definition replace_candidates_for_demandes_from_match_query (demande_ids : list Z) : DM (gmap Z Z) :=
  match normalized demande_ids with
  | [] => ret ∅
  | ids =>
      do! clear_candidates None ids in
      let! rows := gets (λ db, build_match_cte db (for_demandes ids) (λ d o, (d_agency d, (d_id d, o_id o)))) in
      do! modify (set_candidates (λ t, foldl (λ t r, upsert_candidate r.1 r.2 t) t rows)) in
      let counts := totals ids (map snd rows) in
      do! match positive_totals counts with
          | [] => ret tt
          | visible => candidates_update_visibility_cache None visible
          end in
      ret counts
  end.
(* src/core/data/match_candidates.py :: replace_candidates_from_match_query *)
Definition replace_candidates_from_match_query (demande_id : Z) : DM Z :=
  let! counts := replace_candidates_for_demandes_from_match_query [demande_id] in
  ret (default 0 (counts !! demande_id)).

(** *** match_pairs.py *)

(* src/core/data/match_pairs.py :: clear_pairs *)
Definition clear_pairs (demande_id : option Z) (demande_ids : list Z) : DM unit :=
  modify (set_pairs (filter (λ kv, chosen demande_id demande_ids kv.1 = false))).
(* src/core/data/match_pairs.py :: clear_pairs_for_offer *)
Definition clear_pairs_for_offer (offer_id : Z) : DM unit :=
  if offer_id <=? 0 then ret tt else modify (set_pairs (drop_offer offer_id)).
(* src/core/data/match_pairs.py :: update_visibility_cache *)
Definition pairs_update_visibility_cache (demande_id : option Z) (demande_ids : list Z) : DM unit :=
  modify (λ db, set_pairs (refreshed (λ sh p, mkPair (mp_agency p) sh (mp_score p) (mp_rank p))
                                     (chosen demande_id demande_ids) db) db).
Definition upsert_pair (agency score rank : Z) (k : Z * Z) (t : gmap (Z * Z) pair_row) : gmap (Z * Z) pair_row :=
  <[k := mkPair agency (default no_shadow (mp_shadow <$> t !! k)) score rank]> t.

(** [ROW_NUMBER() OVER (PARTITION BY demande_id ORDER BY score DESC, offer_id ASC)]: of the offers of
    one demande, (offer, score), and of the rows of many. *)
Definition better (a b : Z * Z) : bool := (b.2 <? a.2) || (a.2 =? b.2) && (a.1 <=? b.1).
Fixpoint numbered {A} (n : Z) (l : list A) : list (A * Z) :=
  match l with [] => [] | x :: l => (x, n) :: numbered (n + 1) l end.
(** (demande, offer, score) -> (demande, offer, score, rank) *)
Definition ranked (rows : list (Z * Z * Z)) : list (Z * Z * Z * Z) :=
  flat_map (λ d, map (λ x : (Z * Z) * Z, (d, x.1.1, x.1.2, x.2))
                   (numbered 1 (ssort better (map (λ r : Z * Z * Z, (r.1.2, r.2)) (List.filter (λ r, r.1.1 =? d) rows)))))
    (remove_dups (map (λ r : Z * Z * Z, r.1.1) rows)).
Definition within_limit (limit : option Z) (rows : list (Z * Z * Z * Z)) : list (Z * Z * Z * Z) :=
  match limit with Some n => List.filter (λ r, r.2 <=? n) rows | None => rows end.
(** (demande, offer) of a ranked row. *)
Definition pair_key (r : Z * Z * Z * Z) : Z * Z := r.1.1.

Definition active_listing_of (db : match_db) (o : offer) : bool :=
  existsb (λ l, (l_id l =? o_listing o) && ACTIVE_LISTING l) (db_listings db).
(** [scored]: the stored candidates of [ids] that are still active. *)
Definition scored_candidates (ids : list Z) (db : match_db) : list (Z * Z * Z) :=
  map (λ p, (d_id p.1, o_id p.2, SCORE_SQL db p.1 p.2)) (stored db (λ d, is_in (d_id d) ids) (λ _, true)).
(* src/core/data/match_pairs.py :: rebuild_pairs_for_demandes_from_candidates_sql *)
Definition rebuild_pairs_for_demandes_from_candidates_sql (demande_ids : list Z) (limit : option Z) :
    DM (Z * Z * gmap Z (Z * Z)) :=
  match normalized demande_ids with
  | [] => ret (0, 0, ∅)
  | ids =>
      do! clear_pairs None ids in
      let! rows := gets (λ db, ranked (scored_candidates ids db)) in
      let stored_rows := within_limit limit rows in
      do! modify (λ db, set_pairs (λ t, foldl (λ t r,
            match find_demande db r.1.1.1 with
            | Some d => upsert_pair (d_agency d) r.1.2 r.2 (pair_key r) t
            | None => t
            end) t stored_rows) db) in
      let ranked_counts := totals ids (map pair_key rows) in
      let stored_counts := totals ids (map pair_key stored_rows) in
      do! match positive_totals stored_counts with
          | [] => ret tt
          | visible => pairs_update_visibility_cache None visible
          end in
      ret (Z.of_nat (List.length stored_rows), Z.of_nat (List.length rows),
           list_to_map (map (λ i, (i, (default 0 (stored_counts !! i), default 0 (ranked_counts !! i)))) ids))
  end.
(* src/core/data/match_pairs.py :: rebuild_pairs_for_demande_from_candidates_sql *)
Definition rebuild_pairs_for_demande_from_candidates_sql (demande_id : Z) (limit : option Z) : DM (Z * Z) :=
  let! r := rebuild_pairs_for_demandes_from_candidates_sql [demande_id] limit in
  ret (default (0, 0) (r.2 !! demande_id)).
(* src/core/data/match_pairs.py :: store_pairs *)
Definition store_pairs (demande_id : Z) (pairs : list (Z * Z)) : DM Z :=
  match pairs with
  | [] => ret 0
  | _ =>
      let! d := gets (λ db, find_demande db demande_id) in
      do! for_each (λ r : (Z * Z) * Z,
            match d with
            | None => ret tt
            | Some d =>
                let! known := gets (λ db, is_in r.1.1 (map o_id (db_offers db))) in
                if negb known then raise ForeignKeyViolation
                else modify (set_pairs (upsert_pair (d_agency d) r.1.2 r.2 (demande_id, r.1.1)))
            end) (numbered 1 pairs) in
      ret (Z.of_nat (List.length pairs))
  end.
(* src/core/data/match_pairs.py :: replace_pairs *)
Definition replace_pairs (demande_id : Z) (pairs : list (Z * Z)) : DM Z :=
  do! clear_pairs (Some demande_id) [] in
  let! stored := store_pairs demande_id pairs in
  do! (if stored =? 0 then ret tt else pairs_update_visibility_cache (Some demande_id) []) in
  ret stored.
(** In no given order. *)
(* src/core/data/match_pairs.py :: find_demande_ids_missing_pairs *)
Definition find_demande_ids_missing_pairs (limit : nat) : DM (list Z) :=
  gets (λ db, take limit (List.filter (λ i, negb (is_in i (map fst ((map_to_list (db_pairs db)).*1))))
                           (remove_dups (map fst (candidate_keys db))))).
(** Best first. *)
Definition pairs_of (db : match_db) (demande_id : Z) : list (Z * pair_row) :=
  ssort (λ a b : Z * pair_row, better (a.1, mp_score a.2) (b.1, mp_score b.2))
    (map (λ kv : (Z * Z) * pair_row, (kv.1.2, kv.2))
       (List.filter (λ kv : (Z * Z) * pair_row, kv.1.1 =? demande_id) (map_to_list (db_pairs db)))).
Definition page {A} (limit offset : nat) (l : list A) : list A := take limit (drop offset l).
(* src/core/data/match_pairs.py :: fetch_pairs *)
Definition fetch_pairs (demande_id : Z) (limit offset : nat) : DM (list (Z * Z * Z)) :=
  gets (λ db, map (λ x : Z * pair_row, (x.1, mp_score x.2, mp_rank x.2)) (page limit offset (pairs_of db demande_id))).
(** The pairs whose offer is active, with it. *)
Definition active_pairs (db : match_db) (demande_id : Z) : list (offer * pair_row) :=
  omap (λ x : Z * pair_row, match find_offer db x.1 with
                            | Some o => if ACTIVE_OFFER o && active_listing_of db o then Some (o, x.2) else None
                            | None => None
                            end) (pairs_of db demande_id).
(* src/core/data/match_pairs.py :: fetch_pairs_with_offers *)
Definition fetch_pairs_with_offers (demande_id : Z) (limit offset : nat) : DM (list (offer * pair_row)) :=
  gets (λ db, page limit offset (active_pairs db demande_id)).
(* src/core/data/match_pairs.py :: count_pairs_for_demande *)
Definition count_pairs_for_demande (demande_id : Z) : DM Z :=
  gets (λ db, Z.of_nat (List.length (active_pairs db demande_id))).

(** ** The pipeline in one statement (match_artifact_pipeline.py) *)

(* src/core/data/match_artifact_pipeline.py :: MatchArtifactCounts *)
Record artifact_counts := mkCounts { candidate_total : Z; ranked_total : Z; pair_total : Z }.
(* src/core/data/match_artifact_pipeline.py :: MatchArtifactBatchResult *)
Record batch_result := mkBatch {
  br_candidate_total : Z;
  br_ranked_total : Z;
  br_pair_total : Z;
  per_demande_counts : gmap Z artifact_counts
}.
(* src/core/data/match_artifact_pipeline.py :: _normalize_demande_ids *)
Definition _normalize_demande_ids (demande_ids : list Z) : list Z := positive_ids demande_ids.
(* src/core/data/match_artifact_pipeline.py :: _delete_existing_artifacts *)
Definition _delete_existing_artifacts (demande_ids : list Z) : DM unit :=
  match _normalize_demande_ids demande_ids with
  | [] => ret tt
  | ids =>
      do! modify (set_candidates (drop_demandes ids)) in
      modify (set_pairs (drop_demandes ids))
  end.

Definition match_rows (db : match_db) (ids : list Z) : list match_row :=
  build_match_cte db (for_demandes ids) (λ d o, (d_agency d, (d_id d, o_id o), shadow_of d o)).
(** [scored]: joined with the rows of the keys, active or not. *)
Definition scored_matches (db : match_db) (rows : list match_row) : list (Z * Z * Z) :=
  flat_map (λ r : match_row,
    join (db_demandes db) (λ d, d_id d =? r.1.2.1) (λ d,
    join (db_offers db) (λ o, o_id o =? r.1.2.2) (λ o,
    join (db_listings db) (λ l, l_id l =? o_listing o) (λ _, [(d_id d, o_id o, SCORE_SQL db d o)])))) rows.
(** The columns [ranked] carries along with the key. *)
Definition row_of (rows : list match_row) (k : Z * Z) : option match_row :=
  List.find (λ r : match_row, bool_decide (r.1.2 = k)) rows.
(** The statement; its answer is the counts of each demande. *)
(* src/core/data/match_artifact_pipeline.py :: _artifact_insert_query *)
Definition _artifact_insert_query (demande_ids : list Z) (limit : option Z) : DM (list (Z * artifact_counts)) :=
  match _normalize_demande_ids demande_ids with
  | [] => ret []
  | ids =>
      let! rows := gets (λ db, match_rows db ids) in
      let! rank_rows := gets (λ db, ranked (scored_matches db rows)) in
      let stored_rows := within_limit limit rank_rows in
      let! cands := gets db_candidates in
      let! pairs := gets db_pairs in
      let! cands := lift (insert_rows (map (λ r : match_row, (r.1.2, mkCandidate r.1.1 r.2)) rows) cands) in
      let! pairs := lift (insert_rows (omap (λ r, (λ m : match_row, (pair_key r, mkPair m.1.1 m.2 r.1.2 r.2))
                                                    <$> row_of rows (pair_key r)) stored_rows) pairs) in
      do! modify (λ db, set_pairs (λ _, pairs) (set_candidates (λ _, cands) db)) in
      let of_demande {B} (key : B → Z * Z) (l : list B) (i : Z) :=
        Z.of_nat (List.length (List.filter (λ r, (key r).1 =? i) l)) in
      ret (map (λ i, (i, mkCounts (of_demande (λ r : match_row, r.1.2) rows i) (of_demande pair_key rank_rows i)
                           (of_demande pair_key stored_rows i))) ids)
  end.
Definition no_counts : artifact_counts := mkCounts 0 0 0.
Definition sum_over {A} (f : A → Z) (l : list A) : Z := foldr Z.add 0 (map f l).
(* src/core/data/match_artifact_pipeline.py :: rebuild_match_artifacts_for_demandes *)
Definition rebuild_match_artifacts_for_demandes (demande_ids : list Z) (limit : option Z) : DM batch_result :=
  match _normalize_demande_ids demande_ids with
  | [] => ret (mkBatch 0 0 0 ∅)
  | ids =>
      do! _delete_existing_artifacts ids in
      let! rows := _artifact_insert_query ids limit in
      let counted := List.filter (λ r : Z * artifact_counts, 0 <? r.1) rows in
      let zero := list_to_map (map (λ i, (i, no_counts)) ids) : gmap Z artifact_counts in
      ret (mkBatch (sum_over (λ r, candidate_total r.2) counted) (sum_over (λ r, ranked_total r.2) counted)
             (sum_over (λ r, pair_total r.2) counted)
             (foldl (λ m r, <[r.1 := r.2]> m) zero counted))
  end.

(** ** Both pipelines (match_pairs_compute.py) *)

(* src/server/api/match_pairs_compute.py :: DEFAULT_MATCH_PAIRS_LIMIT *)
Definition DEFAULT_MATCH_PAIRS_LIMIT : Z := 100.
Inductive pipeline : Type := Direct | Legacy.
(** [raw] is the environment variable. *)
(* src/server/api/match_pairs_compute.py :: _match_build_pipeline_mode *)
Definition _match_build_pipeline_mode (raw : option string) : pipeline :=
  if bool_decide (Prelude.lower (strip (default "direct" raw)) = "direct") then Direct else Legacy.
(* src/server/api/match_pairs_compute.py :: compute_match_artifacts_for_demandes *)
Definition compute_match_artifacts_for_demandes (mode : pipeline) (demande_ids : list Z) (limit : option Z) : DM batch_result :=
  match normalized demande_ids with
  | [] => ret (mkBatch 0 0 0 ∅)
  | ids =>
      match mode with
      | Direct => rebuild_match_artifacts_for_demandes ids limit
      | Legacy =>
          let! cands := replace_candidates_for_demandes_from_match_query ids in
          let! r := rebuild_pairs_for_demandes_from_candidates_sql ids limit in
          let per := list_to_map (map (λ i, (i, mkCounts (default 0 (cands !! i)) (default (0, 0) (r.2 !! i)).2
                                                  (default (0, 0) (r.2 !! i)).1)) ids) : gmap Z artifact_counts in
          ret (mkBatch (sum_over (λ kv : Z * artifact_counts, candidate_total kv.2) (map_to_list per)) r.1.2 r.1.1 per)
      end
  end.
(** (stored, candidates) *)
(* src/server/api/match_pairs_compute.py :: compute_match_pairs_for_demande *)
Definition compute_match_pairs_for_demande (mode : pipeline) (demande_id : Z) (limit : option Z) : DM (Z * Z) :=
  let clear := do! clear_candidates (Some demande_id) [] in clear_pairs (Some demande_id) [] in
  let! d := gets (λ db, List.find (λ d, (d_id d =? demande_id) && not_deleted (d_deleted_at d)) (db_demandes db)) in
  match d with
  | None => do! clear in ret (0, 0)
  | Some d =>
      let! result := compute_match_artifacts_for_demandes mode [d_id d] limit in
      let counts := default no_counts (per_demande_counts result !! d_id d) in
      if candidate_total counts =? 0 then do! clear in ret (0, 0)
      else ret (pair_total counts, candidate_total counts)
  end.
(* src/server/api/match_pairs_compute.py :: compute_match_pairs_for_demandes *)
Definition compute_match_pairs_for_demandes (mode : pipeline) (demande_ids : list Z) (limit : option Z) : DM (Z * Z) :=
  match normalized demande_ids with
  | [] => ret (0, 0)
  | ids =>
      let! result := compute_match_artifacts_for_demandes mode ids limit in
      ret (br_pair_total result, br_candidate_total result)
  end.
End Score.
