(* ===== verification/MatchingProps.v ===== *)
(** * The matcher decides one predicate

    The branches of the matching query, its filters and its grouped counts, against the predicate
    [matches] of a demande and an offer. *)

From S2P Require Import Prelude PyFloat Matching.
From Stdlib Require Import QArith String.
Local Open Scope Z_scope.

(** ** Relational lemmas *)

Lemma elem_of_join {A B} (l : list A) p (k : A → list B) y : y ∈ join l p k ↔ ∃ x, x ∈ l ∧ p x = true ∧ y ∈ k x.
Proof.
  unfold join. rewrite list_elem_of_In, in_flat_map. split.
  - intros (x & Hx%list_elem_of_In & Hy%list_elem_of_In). apply elem_of_filter_b in Hx as [? ?]. by exists x.
  - intros (x & ? & ? & ?). exists x. rewrite <- !list_elem_of_In. split; [by apply elem_of_filter_b|done].
Qed.
Lemma join_ext {A B} (l : list A) p p' (k : A → list B) : (∀ x, p x = p' x) → join l p k = join l p' k.
Proof. intros E. unfold join. f_equal. by apply List.filter_ext. Qed.
Lemma is_in_true x l : is_in x l = true ↔ x ∈ l.
Proof. apply bool_decide_eq_true. Qed.
Lemma existsb_elem {A} (p : A → bool) l : existsb p l = true ↔ ∃ x, x ∈ l ∧ p x = true.
Proof. rewrite existsb_exists. by setoid_rewrite list_elem_of_In. Qed.
Lemma holds_and3 a b : holds (and3 a b) = holds a && holds b.
Proof. by destruct a as [[]|], b as [[]|]. Qed.
Lemma holds_or3 a b : holds (or3 a b) = holds a || holds b.
Proof. by destruct a as [[]|], b as [[]|]. Qed.
Lemma holds_all3 l : holds (all3 l) = forallb holds l.
Proof. induction l as [|a l IH]; [done|]. cbn [all3 foldr forallb]. by rewrite holds_and3, <- IH. Qed.

(** ** The predicate *)

(** Keys are keys, and stored matches are of rows that are there. *)
Record tables_ok (db : match_db) : Prop := mkTables {
  tb_clients : NoDup (map c_id (db_clients db));
  tb_demandes : NoDup (map d_id (db_demandes db));
  tb_listings : NoDup (map l_id (db_listings db));
  tb_offers : NoDup (map o_id (db_offers db));
  tb_listing : ∀ o, o ∈ db_offers db → ∃ l, l ∈ db_listings db ∧ l_id l = o_listing o;
  tb_candidates : ∀ k, is_Some (db_candidates db !! k) → k.1 ∈ map d_id (db_demandes db) ∧ k.2 ∈ map o_id (db_offers db);
  tb_positive : ∀ d, d ∈ db_demandes db → 0 < d_id d
}.

Definition client_of (db : match_db) (d : demande) : bool :=
  existsb (λ c, (c_id c =? d_client d) && (c_agency c =? d_agency d) && ACTIVE_CLIENT c) (db_clients db).
Definition listing_of (db : match_db) (o : offer) : bool :=
  existsb (λ l, (l_id l =? o_listing o) && (l_agency l =? o_agency o) && ACTIVE_LISTING l) (db_listings db).
(** Both are active, with their client and listing, of one agency, and in the same place. *)
Definition meet (db : match_db) (d : demande) (o : offer) : bool :=
  ACTIVE_DEMANDE d && client_of db d && ACTIVE_OFFER o && (o_agency o =? d_agency d) && listing_of db o
  && holds (LOCATION_MATCH db d o) && (has_locations db (d_id d) || negb (d_wilaya_id d =? 0)).
Definition matches (db : match_db) (d : demande) (o : offer) : bool := meet db d o && holds (COMMON_MATCH d o).
(** Without the numeric conditions. *)
Definition resembles (db : match_db) (d : demande) (o : offer) : bool :=
  meet db d o && holds (and3 (TYPE_MATCH_STRICT d o) (ACTION_MATCH d o)).

Section Cte.
Context (db : match_db) (r : restriction).

Lemma elem_of_branch w f p :
  p ∈ branch db r w f ↔
  ∃ d, d ∈ db_demandes db ∧ _build_id_filter (rs_client_ids r) (rs_demande_ids r) d && ACTIVE_DEMANDE d && w d = true
     ∧ client_of db d = true
     ∧ p ∈ f d (λ o, join (db_listings db) (λ l, (l_id l =? o_listing o) && (l_agency l =? o_agency o) && ACTIVE_LISTING l)
                       (λ _, if holds (where_common r d o) then [(d, o)] else [])).
Proof.
  unfold branch. rewrite elem_of_join. f_equiv. intros d. unfold client_of. rewrite existsb_elem. split.
  - intros (? & ? & (c & ? & ? & ?)%elem_of_join). eauto 7.
  - intros (? & ? & (c & ? & ?) & ?). split_and!; [done..|]. apply elem_of_join. eauto.
Qed.
Lemma elem_of_tail d o p :
  p ∈ join (db_listings db) (λ l, (l_id l =? o_listing o) && (l_agency l =? o_agency o) && ACTIVE_LISTING l)
        (λ _, if holds (where_common r d o) then [(d, o)] else [])
  ↔ p = (d, o) ∧ listing_of db o = true ∧ holds (where_common r d o) = true.
Proof.
  unfold listing_of. rewrite elem_of_join, existsb_elem. destruct (holds _).
  - setoid_rewrite list_elem_of_singleton. naive_solver.
  - setoid_rewrite elem_of_nil. naive_solver.
Qed.
Lemma shares_iff i j : shares_location db i j = true ↔
  ∃ dl ol, dl ∈ db_demande_locations db ∧ dl.1 = i ∧ ol ∈ db_offer_locations db ∧ ol.2 = dl.2 ∧ ol.1 = j.
Proof.
  unfold shares_location. rewrite existsb_elem. setoid_rewrite andb_true_iff. setoid_rewrite existsb_elem.
  setoid_rewrite andb_true_iff. setoid_rewrite Z.eqb_eq. naive_solver.
Qed.

(** What a restriction asks of a pair beside its matching. *)
Definition selected (d : demande) (o : offer) : bool :=
  _build_id_filter (rs_client_ids r) (rs_demande_ids r) d && offer_filter r o.
Definition pairing (d : demande) (o : offer) : bool :=
  if rs_include_numeric r then matches db d o else resembles db d o.

Lemma pairing_unfold d o :
  pairing d o = true ↔ meet db d o = true ∧ holds (TYPE_MATCH_STRICT d o) = true ∧ holds (ACTION_MATCH d o) = true
                       ∧ holds (if rs_include_numeric r then NUMERIC_MATCH d o else Some true) = true.
Proof.
  unfold pairing, matches, resembles, COMMON_MATCH. destruct (rs_include_numeric r); rewrite !holds_and3, !andb_true_iff; cbn; naive_solver.
Qed.
Lemma where_unfold d o :
  holds (where_common r d o) = true ↔ holds (TYPE_MATCH_STRICT d o) = true ∧ holds (ACTION_MATCH d o) = true
    ∧ holds (if rs_include_numeric r then NUMERIC_MATCH d o else Some true) = true ∧ offer_filter r o = true.
Proof. unfold where_common. rewrite holds_all3. cbn [forallb]. rewrite !andb_true_iff. cbn [holds]. naive_solver. Qed.

Lemma cte_pairs d o :
  (d, o) ∈ _junction_branch db r ++ _wilaya_branch db r ↔
  d ∈ db_demandes db ∧ o ∈ db_offers db ∧ selected d o = true ∧ pairing d o = true.
Proof.
  rewrite elem_of_app, pairing_unfold. unfold selected, meet, LOCATION_MATCH. rewrite holds_or3, holds_and3.
  cbn [holds].
  split.
  - intros [(d' & Hd & Hw & Hc & Hj)%elem_of_branch|(d' & Hd & Hw & Hc & Hj)%elem_of_branch].
    + apply elem_of_join in Hj as (dl & Hdl & E1%Z.eqb_eq & Hj). apply elem_of_join in Hj as (ol & Hol & E2%Z.eqb_eq & Hj).
      apply elem_of_join in Hj as (o' & Ho & Hoo & Ht). apply elem_of_tail in Ht as ([= -> ->] & Hl & (T1 & T2 & T3 & T4)%where_unfold).
      rewrite !andb_true_iff in *. destruct Hoo as [[E3%Z.eqb_eq Hag] Hact].
      assert (has_locations db (d_id d') = true) as Hhas by (apply existsb_elem; exists dl; split; [done|by apply Z.eqb_eq]).
      rewrite Hhas, !orb_true_iff. split_and!; try naive_solver.
      left. apply shares_iff. exists dl, ol. by rewrite E1, E2, E3.
    + apply elem_of_join in Hj as (o' & Ho & Hoo & Ht). apply elem_of_tail in Ht as ([= -> ->] & Hl & (T1 & T2 & T3 & T4)%where_unfold).
      rewrite !andb_true_iff, ?orb_true_iff in *. destruct Hoo as [[E3%Z.eqb_eq Hag] Hact]. destruct Hw as [[? ?] [Hn Hw]].
      rewrite E3 in Hw |- *. rewrite Z.eqb_refl, Hn. split_and!; naive_solver.
  - intros (Hd & Ho & Hsel & Hm & T1 & T2 & T3). rewrite !andb_true_iff, ?orb_true_iff in *.
    destruct Hsel as [Hid Hof], Hm as [[[[[[Had Hcl] Hao] Hag] Hli] Hloc] Hwil].
    destruct Hloc as [(dl & ol & Hdl & E1 & Hol & E2 & E3)%shares_iff|[Hn Hw]%andb_true_iff].
    + left. apply elem_of_branch. exists d. rewrite !andb_true_iff. split_and!; try done.
      apply elem_of_join. exists dl. split_and!; [done|by apply Z.eqb_eq|]. apply elem_of_join. exists ol.
      split_and!; [done|by apply Z.eqb_eq|]. apply elem_of_join. exists o. rewrite !andb_true_iff. split_and!; [done|by apply Z.eqb_eq|done|done|].
      apply elem_of_tail. split_and!; [done..|]. by apply where_unfold.
    + right. rewrite negb_true_iff in Hn. rewrite Hn in Hwil. destruct Hwil as [?|Hwil]; [done|].
      apply elem_of_branch. exists d. rewrite !andb_true_iff, Hn. split_and!; try done.
      apply elem_of_join. exists o. rewrite !andb_true_iff, (Z.eqb_sym (d_wilaya_id d)). split_and!; try done.
      apply elem_of_tail. split_and!; [done..|]. by apply where_unfold.
Qed.

Lemma elem_of_cte {A} `{EqDecision A} (f : demande → offer → A) x :
  x ∈ build_match_cte db r f ↔
  ∃ d o, d ∈ db_demandes db ∧ o ∈ db_offers db ∧ selected d o = true ∧ pairing d o = true ∧ x = f d o.
Proof.
  unfold build_match_cte. rewrite elem_of_remove_dups, elem_of_map. split.
  - intros ([d o] & -> & Hp). apply cte_pairs in Hp as (? & ? & ? & ?). by exists d, o.
  - intros (d & o & ? & ? & ? & ? & ->). exists (d, o). split; [done|]. by apply cte_pairs.
Qed.
Lemma NoDup_cte {A} `{EqDecision A} (f : demande → offer → A) : NoDup (build_match_cte db r f).
Proof. apply NoDup_remove_dups. Qed.
End Cte.

(** ** Rows by key *)

Section Keyed.
Context {A : Type} (key : A → Z).
Definition by_key (i : Z) (l : list A) : option A := List.find (λ x, key x =? i) l.

Lemma by_key_Some i l x : by_key i l = Some x → x ∈ l ∧ key x = i.
Proof. intros [? ?%Z.eqb_eq]%find_some. by rewrite list_elem_of_In. Qed.
Lemma by_key_elem l x : NoDup (map key l) → x ∈ l → by_key (key x) l = Some x.
Proof.
  intros Hnd Hx. destruct (by_key (key x) l) as [y|] eqn:E.
  - apply by_key_Some in E as [Hy He]. f_equal. by eapply (NoDup_map_inj_on key).
  - eapply find_none in E; [|by apply list_elem_of_In]. by rewrite Z.eqb_refl in E.
Qed.
Lemma by_key_None i l : by_key i l = None ↔ i ∉ map key l.
Proof.
  split.
  - intros E (x & -> & Hx)%elem_of_map. eapply find_none in E; [|by apply list_elem_of_In]. by rewrite Z.eqb_refl in E.
  - intros Hi. destruct (by_key i l) as [x|] eqn:E; [|done]. apply by_key_Some in E as [? <-]. destruct Hi. apply elem_of_map. eauto.
Qed.
(** A join by key finds one row at most. *)
Lemma join_key {B} i q l (k : A → list B) :
  NoDup (map key l) →
  join l (λ x, (key x =? i) && q x) k = match by_key i l with Some x => if q x then k x else [] | None => [] end.
Proof.
  unfold join, by_key. induction l as [|x l IH]; [done|]. cbn [map List.filter List.find]. intros [Hx Hl]%NoDup_cons.
  destruct (Z.eqb_spec (key x) i) as [<-|Hne]; cbn [andb]; [|by apply IH].
  assert (List.filter (λ y, (key y =? key x) && q y) l = []) as Hnil.
  { apply filter_none, Forall_forall. intros y Hy. destruct (Z.eqb_spec (key y) (key x)) as [E|]; [|done].
    destruct Hx. apply elem_of_map. eauto. }
  destruct (q x); cbn [flat_map]; rewrite Hnil; cbn [flat_map]; [by rewrite app_nil_r|done].
Qed.
Lemma join_key_all {B} i l (k : A → list B) :
  NoDup (map key l) → join l (λ x, key x =? i) k = match by_key i l with Some x => k x | None => [] end.
Proof.
  intros H. transitivity (join l (λ x, (key x =? i) && true) k).
  - unfold join. f_equal. apply List.filter_ext. intros x. by rewrite andb_true_r.
  - by rewrite join_key.
Qed.
End Keyed.

(** Lists made of one part per tag. *)
Section Tagged.
Context {I B : Type} `{EqDecision I} (f : I → list B) (tag : B → I) (f_tag : ∀ i b, b ∈ f i → tag b = i).

Lemma tagged_elem l b : b ∈ flat_map f l ↔ tag b ∈ l ∧ b ∈ f (tag b).
Proof.
  rewrite list_elem_of_In, in_flat_map. setoid_rewrite <- list_elem_of_In. split.
  - intros (i & Hi & Hb). by rewrite (f_tag _ _ Hb).
  - intros [? ?]. eauto.
Qed.
Lemma tagged_filter l i : NoDup l → List.filter (λ b, bool_decide (tag b = i)) (flat_map f l) = if decide (i ∈ l) then f i else [].
Proof.
  induction l as [|j l IH]; cbn [flat_map]; [done|]. intros [Hj Hl]%NoDup_cons. rewrite List.filter_app, IH by done.
  destruct (decide (j = i)) as [->|Hne].
  - rewrite (decide_True (P := i ∈ i :: l)) by apply list_elem_of_here. rewrite (decide_False (P := i ∈ l)) by done.
    rewrite app_nil_r. apply filter_all, Forall_forall. intros b Hb. by apply bool_decide_eq_true, f_tag.
  - rewrite filter_none.
    + cbn [app]. apply decide_ext. rewrite elem_of_cons. naive_solver.
    + apply Forall_forall. intros b Hb. apply bool_decide_eq_false. by rewrite (f_tag _ _ Hb).
Qed.
Lemma tagged_NoDup {K} (key : B → K) l :
  NoDup l → (∀ i, i ∈ l → NoDup (map key (f i))) → (∀ b b', key b = key b' → tag b = tag b') → NoDup (map key (flat_map f l)).
Proof.
  intros Hl Hf Hk. induction l as [|j l IH]; cbn [flat_map]; [constructor|]. apply NoDup_cons in Hl as [Hj Hl].
  rewrite map_app. apply NoDup_app. split_and!.
  - apply Hf. by left.
  - intros k (b & -> & Hb)%elem_of_map (b' & E & Hb')%elem_of_map. apply tagged_elem in Hb' as [Hin Hb'].
    apply Hk in E. rewrite <- E, (f_tag _ _ Hb) in Hin. done.
  - apply IH; [done|]. intros i Hi. apply Hf. by right.
Qed.
End Tagged.

(** ** Stored candidates with their rows *)

Section Stored.
Context (db : match_db) (Hdb : tables_ok db).

Definition active_listing (o : offer) : bool :=
  match by_key l_id (o_listing o) (db_listings db) with Some l => ACTIVE_LISTING l | None => false end.
Lemma candidate_keys_NoDup : NoDup (candidate_keys db).
Proof. apply NoDup_fst_map_to_list. Qed.
Lemma elem_of_candidate_keys k : k ∈ candidate_keys db ↔ is_Some (db_candidates db !! k).
Proof.
  unfold candidate_keys. rewrite list_elem_of_fmap. split.
  - intros ([k' v] & -> & Hk%elem_of_map_to_list). by exists v.
  - intros [v Hv]. exists (k, v). split; [done|]. by apply elem_of_map_to_list.
Qed.
Definition one {A} (b : bool) (x : A) : list A := if b then [x] else [].
Lemma stored_unfold p q :
  stored db p q = flat_map (λ k : Z * Z,
    match by_key o_id k.2 (db_offers db), by_key d_id k.1 (db_demandes db) with
    | Some o, Some d => one (ACTIVE_OFFER o && q o && active_listing o && p d) (d, o)
    | _, _ => []
    end) (candidate_keys db).
Proof.
  unfold stored. apply flat_map_ext. intros k.
  rewrite (join_ext _ _ (λ o, (o_id o =? k.2) && (ACTIVE_OFFER o && q o))) by (intros o; by rewrite andb_assoc).
  rewrite (join_key o_id) by apply Hdb.
  destruct (by_key o_id k.2 (db_offers db)) as [o|] eqn:Eo; [|done].
  destruct (ACTIVE_OFFER o && q o) eqn:Eq; cbn [andb]; [|by destruct (by_key d_id k.1 _)].
  rewrite (join_key l_id (o_listing o) ACTIVE_LISTING) by apply Hdb. unfold active_listing.
  destruct (by_key l_id (o_listing o) (db_listings db)) as [l|]; [|by destruct (by_key d_id k.1 _)].
  destruct (ACTIVE_LISTING l); cbn [andb]; [|by destruct (by_key d_id k.1 _)].
  rewrite (join_key d_id k.1 p) by apply Hdb. destruct (by_key d_id k.1 (db_demandes db)) as [d|]; [|done]. by destruct (p d).
Qed.
Definition key_of (p : demande * offer) : Z * Z := (d_id p.1, o_id p.2).
Lemma stored_tag p q k x :
  x ∈ match by_key o_id k.2 (db_offers db), by_key d_id k.1 (db_demandes db) with
      | Some o, Some d => one (ACTIVE_OFFER o && q o && active_listing o && p d) (d, o)
      | _, _ => []
      end →
  key_of x = k ∧ x.1 ∈ db_demandes db ∧ x.2 ∈ db_offers db ∧ ACTIVE_OFFER x.2 && q x.2 && active_listing x.2 && p x.1 = true.
Proof.
  destruct (by_key o_id k.2 (db_offers db)) as [o|] eqn:Eo; [|by intros ?%elem_of_nil].
  destruct (by_key d_id k.1 (db_demandes db)) as [d|] eqn:Ed; [|by intros ?%elem_of_nil].
  apply by_key_Some in Eo as [? Eo], Ed as [? Ed]. unfold one. destruct (_ && p d) eqn:E; [|by intros ?%elem_of_nil].
  intros ->%list_elem_of_singleton. split_and!; try done. destruct k. by cbn in *; subst.
Qed.
Lemma stored_NoDup p q : NoDup (map key_of (stored db p q)).
Proof.
  rewrite stored_unfold. apply (tagged_NoDup _ key_of).
  - intros k x Hx. by apply stored_tag in Hx as [? _].
  - apply candidate_keys_NoDup.
  - intros k _. destruct (by_key o_id _ _) as [o|]; [|constructor]. destruct (by_key d_id _ _) as [d|]; [|constructor].
    unfold one. destruct (_ && _); [apply NoDup_singleton|constructor].
  - done.
Qed.
Lemma elem_of_stored p q d o :
  (d, o) ∈ stored db p q ↔
  d ∈ db_demandes db ∧ o ∈ db_offers db ∧ is_Some (db_candidates db !! (d_id d, o_id o))
  ∧ ACTIVE_OFFER o = true ∧ q o = true ∧ active_listing o = true ∧ p d = true.
Proof.
  rewrite stored_unfold, list_elem_of_In, in_flat_map. setoid_rewrite <- list_elem_of_In.
  setoid_rewrite elem_of_candidate_keys. split.
  - intros (k & Hk & Hx). apply stored_tag in Hx as (<- & Hd & Ho & Hx). rewrite !andb_true_iff in Hx. naive_solver.
  - intros (Hd & Ho & Hk & H1 & H2 & H3 & H4). exists (d_id d, o_id o). split; [done|]. cbn.
    rewrite (by_key_elem o_id), (by_key_elem d_id) by (done || apply Hdb). rewrite H1, H2, H3, H4. apply list_elem_of_here.
Qed.
Lemma listing_of_active o : listing_of db o = true → active_listing o = true.
Proof.
  unfold listing_of, active_listing. rewrite existsb_elem. intros (l & Hl & (E & Ha)%andb_true_iff).
  apply andb_true_iff in E as [E%Z.eqb_eq _]. by rewrite <- E, (by_key_elem l_id) by (done || apply Hdb).
Qed.
End Stored.
