(* ===== verification/MatchArtifactProps.v ===== *)
(** * Both pipelines store the matches and their ranking

    After a rebuild, by either pipeline, the candidates of the demandes are the offers that match
    and their pairs the best of these, ranked; nothing else has changed. *)

From S2P Require Import Prelude PyFloat RebuildState RebuildProps Matching MatchArtifacts MatchingProps.
From Stdlib Require Import QArith String.
Local Open Scope Z_scope.

(** ** Tables as finite maps *)

Lemma insert_rows_fail {V} rows e : foldl (λ (r : res (gmap (Z * Z) V)) kv,
    res_bind r (λ t, match t !! kv.1 with Some _ => Err UniqueViolation | None => Ok (<[kv.1 := kv.2]> t) end))
  (Err e) rows = Err e.
Proof. by induction rows. Qed.
Lemma insert_rows_ok {V} (rows : list ((Z * Z) * V)) t :
  NoDup rows.*1 → (∀ k, k ∈ rows.*1 → t !! k = None) → insert_rows rows t = Ok (list_to_map rows ∪ t).
Proof.
  unfold insert_rows. revert t. induction rows as [|[k v] rows IH]; intros t; cbn [foldl fst snd fmap list_fmap list_to_map foldr].
  { intros _ _. by rewrite (left_id_L ∅ (∪)). }
  intros [Hk Hn]%NoDup_cons Hd. unfold res_bind at 2. rewrite Hd by apply list_elem_of_here.
  rewrite IH; [|done|].
  - f_equal. rewrite <- insert_union_l. symmetry. apply insert_union_r, not_elem_of_list_to_map_1, Hk.
  - intros k' Hk'. rewrite lookup_insert_ne by (intros <-; done). apply Hd. by right.
Qed.
(** Updates of distinct keys, each depending on the old row of its key. *)
Lemma foldl_upsert {V R} (key : R → Z * Z) (new : R → option V → V) (rows : list R) (t : gmap (Z * Z) V) k :
  NoDup (map key rows) →
  foldl (λ t r, <[key r := new r (t !! key r)]> t) t rows !! k =
    match List.find (λ r, bool_decide (key r = k)) rows with Some r => Some (new r (t !! k)) | None => t !! k end.
Proof.
  revert t. induction rows as [|r rows IH]; intros t; [done|]. cbn [map foldl List.find]. intros [Hr Hn]%NoDup_cons.
  rewrite IH by done. destruct (decide (key r = k)) as [<-|Hne].
  - rewrite bool_decide_true by done. destruct (List.find _ rows) as [r'|] eqn:E.
    + apply find_some in E as [Hr' Hk%bool_decide_eq_true]. destruct Hr. apply elem_of_map. exists r'. by rewrite list_elem_of_In.
    + by rewrite lookup_insert_eq.
  - rewrite bool_decide_false, lookup_insert_ne by done. done.
Qed.
Section Finds.
Context {A K : Type} `{EqDecision K} (key : A → K).
Lemma find_key_Some k l x : List.find (λ y, bool_decide (key y = k)) l = Some x → x ∈ l ∧ key x = k.
Proof. intros [? ?%bool_decide_eq_true]%find_some. by rewrite list_elem_of_In. Qed.
Lemma find_key_elem l x : NoDup (map key l) → x ∈ l → List.find (λ y, bool_decide (key y = key x)) l = Some x.
Proof.
  intros Hnd Hx. destruct (List.find _ l) as [y|] eqn:E.
  - apply find_key_Some in E as [Hy He]. f_equal. by eapply (NoDup_map_inj_on key).
  - eapply find_none in E; [|by apply list_elem_of_In]. by rewrite bool_decide_true in E.
Qed.
Lemma find_key_None k l : List.find (λ y, bool_decide (key y = k)) l = None ↔ k ∉ map key l.
Proof.
  split.
  - intros E (x & -> & Hx)%elem_of_map. eapply find_none in E; [|by apply list_elem_of_In]. by rewrite bool_decide_true in E.
  - intros Hi. destruct (List.find _ l) as [x|] eqn:E; [|done]. apply find_key_Some in E as [? <-]. destruct Hi. apply elem_of_map. eauto.
Qed.
End Finds.

Lemma drop_demandes_lookup {V} (ids : list Z) (t : gmap (Z * Z) V) (k : Z * Z) : drop_demandes ids t !! k = if is_in k.1 ids then None else t !! k.
Proof.
  unfold drop_demandes. destruct (is_in k.1 ids) eqn:E.
  - apply map_lookup_filter_None. right. intros v _ H. cbn in H. by rewrite E in H.
  - destruct (t !! k) as [v|] eqn:Et; [by apply map_lookup_filter_Some|]. apply map_lookup_filter_None. by left.
Qed.

(** ** The order of a ranking *)

Lemma better_total a b : better a b = false → better b a = true.
Proof. unfold better. destruct a, b; cbn. rewrite !orb_false_iff, !orb_true_iff, !andb_true_iff, !andb_false_iff. lia. Qed.
Lemma better_trans a b c : better a b = true → better b c = true → better a c = true.
Proof. unfold better. destruct a, b, c; cbn. rewrite !orb_true_iff, !andb_true_iff. lia. Qed.
Lemma better_antisym a b : better a b = true → better b a = true → a = b.
Proof. unfold better. destruct a, b; cbn. rewrite !orb_true_iff, !andb_true_iff. intros. f_equal; lia. Qed.
Lemma ssort_better_perm l l' : l ≡ₚ l' → ssort better l = ssort better l'.
Proof.
  intros Hp. eapply sorted_unique; [intros x y _ _; apply better_antisym|..].
  - apply ssort_sorted; [exact better_total|exact better_trans].
  - apply ssort_sorted; [exact better_total|exact better_trans].
  - by rewrite !ssort_perm.
Qed.
Lemma numbered_fst {A} n (l : list A) : map fst (numbered n l) = l.
Proof. revert n. induction l as [|x l IH]; intros n; cbn; [done|]. by rewrite IH. Qed.
Lemma length_numbered {A} n (l : list A) : List.length (numbered n l) = List.length l.
Proof. revert n. induction l as [|x l IH]; intros n; cbn; [done|]. by rewrite IH. Qed.

(** The ranked rows of one demande, and of all. *)
Definition ranking_of (i : Z) (l : list (Z * Z)) : list (Z * Z * Z * Z) :=
  map (λ x : (Z * Z) * Z, (i, x.1.1, x.1.2, x.2)) (numbered 1 (ssort better l)).
Definition part_of (rows : list (Z * Z * Z)) (i : Z) : list (Z * Z) :=
  map (λ r : Z * Z * Z, (r.1.2, r.2)) (List.filter (λ r, r.1.1 =? i) rows).
Lemma ranked_unfold rows : ranked rows = flat_map (λ i, ranking_of i (part_of rows i)) (remove_dups (map (λ r : Z * Z * Z, r.1.1) rows)).
Proof. done. Qed.
Lemma ranking_of_tag i l r : r ∈ ranking_of i l → r.1.1.1 = i.
Proof. intros (x & -> & _)%elem_of_map. done. Qed.
Lemma ranking_of_perm i l l' : l ≡ₚ l' → ranking_of i l = ranking_of i l'.
Proof. intros H. unfold ranking_of. by rewrite (ssort_better_perm l l'). Qed.
Lemma filter_eqb_decide {A} (f : A → Z) i l : List.filter (λ x, f x =? i) l = List.filter (λ x, bool_decide (f x = i)) l.
Proof. apply List.filter_ext. intros x. apply eq_true_iff_eq. by rewrite Z.eqb_eq, bool_decide_eq_true. Qed.
Lemma ranked_part rows i : List.filter (λ r : Z * Z * Z * Z, r.1.1.1 =? i) (ranked rows) = ranking_of i (part_of rows i).
Proof.
  rewrite filter_eqb_decide, ranked_unfold, (tagged_filter _ (λ r : Z * Z * Z * Z, r.1.1.1)).
  - destruct (decide _) as [|Hn]; [done|]. assert (part_of rows i = []) as ->; [|done].
    unfold part_of. rewrite filter_none; [done|]. apply Forall_forall. intros r Hr.
    destruct (Z.eqb_spec r.1.1 i) as [<-|]; [|done]. destruct Hn. apply elem_of_remove_dups, elem_of_map. eauto.
  - intros j r. apply ranking_of_tag.
  - apply NoDup_remove_dups.
Qed.
Lemma ranked_elem rows r : r ∈ ranked rows ↔ r ∈ ranking_of r.1.1.1 (part_of rows r.1.1.1).
Proof. rewrite <- ranked_part, elem_of_filter_b. rewrite Z.eqb_eq. naive_solver. Qed.
Lemma pair_keys_of_ranking i l : map pair_key (ranking_of i l) ≡ₚ map (λ x : Z * Z, (i, x.1)) l.
Proof.
  unfold ranking_of. rewrite map_map. transitivity (map (λ x : Z * Z, (i, x.1)) (map fst (numbered 1 (ssort better l)))).
  - by rewrite map_map.
  - rewrite numbered_fst. apply Permutation_map, ssort_perm.
Qed.
Lemma ranked_NoDup rows : NoDup (map (λ r : Z * Z * Z, (r.1.1, r.1.2)) rows) → NoDup (map pair_key (ranked rows)).
Proof.
  intros Hr. rewrite ranked_unfold. apply (tagged_NoDup _ (λ r : Z * Z * Z * Z, r.1.1.1)).
  - intros j r. apply ranking_of_tag.
  - apply NoDup_remove_dups.
  - intros i _. rewrite pair_keys_of_ranking. unfold part_of. rewrite map_map. cbn.
    assert (map (λ r : Z * Z * Z, (i, r.1.2)) (List.filter (λ r, r.1.1 =? i) rows)
            = map (λ r : Z * Z * Z, (r.1.1, r.1.2)) (List.filter (λ r, r.1.1 =? i) rows)) as ->.
    { apply map_ext_in. intros r [_ <-%Z.eqb_eq]%list_elem_of_In%elem_of_filter_b%and_comm. done. }
    by apply NoDup_map_filter.
  - intros r r' E. unfold pair_key in E. by rewrite E.
Qed.

(** ** What is stored for a demande *)

Section Spec.
Context (sql_lower : string → string) (limit : option Z) (db : match_db).

Definition matching (d : demande) : list offer := List.filter (matches db d) (db_offers db).
Definition scored_offers (d : demande) : list (Z * Z) := map (λ o, (o_id o, SCORE_SQL sql_lower db d o)) (matching d).
Definition demande_of (i : Z) : option demande := by_key d_id i (db_demandes db).
Definition wanted (i : Z) : list (Z * Z) := match demande_of i with Some d => scored_offers d | None => [] end.
(** The ranked rows that are kept. *)
Definition ranking (i : Z) : list (Z * Z * Z * Z) := within_limit limit (ranking_of i (wanted i)).

Definition with_rows {A} (k : Z * Z) (f : demande → offer → option A) : option A :=
  match demande_of k.1, by_key o_id k.2 (db_offers db) with Some d, Some o => f d o | _, _ => None end.
Definition spec_candidate (k : Z * Z) : option candidate :=
  with_rows k (λ d o, if matches db d o then Some (mkCandidate (d_agency d) (shadow_of d o)) else None).
Definition spec_pair (k : Z * Z) : option pair_row :=
  with_rows k (λ d o, (λ r : Z * Z * Z * Z, mkPair (d_agency d) (shadow_of d o) r.1.2 r.2)
                      <$> List.find (λ r, bool_decide (pair_key r = k)) (ranking k.1)).
Definition spec_counts (i : Z) : artifact_counts :=
  let n := Z.of_nat (List.length (wanted i)) in mkCounts n n (Z.of_nat (List.length (ranking i))).
Definition expected (ids : list Z) : batch_result :=
  mkBatch (sum_over (λ i, candidate_total (spec_counts i)) ids) (sum_over (λ i, ranked_total (spec_counts i)) ids)
    (sum_over (λ i, pair_total (spec_counts i)) ids) (list_to_map (map (λ i, (i, spec_counts i)) ids)).
End Spec.

(** Only the stored matches differ. *)
Definition same_rows (db db' : match_db) : Prop :=
  db_clients db' = db_clients db ∧ db_demandes db' = db_demandes db ∧ db_listings db' = db_listings db
  ∧ db_offers db' = db_offers db ∧ db_demande_locations db' = db_demande_locations db
  ∧ db_offer_locations db' = db_offer_locations db.
(** [db'] is [db] with the matches of [ids] rebuilt. *)
Record rebuilt (sql_lower : string → string) (limit : option Z) (ids : list Z) (db db' : match_db) : Prop := mkRebuilt {
  rb_rows : same_rows db db';
  rb_counts : db_counts db' = db_counts db;
  rb_candidates : ∀ k, db_candidates db' !! k = if is_in k.1 ids then spec_candidate db k else db_candidates db !! k;
  rb_pairs : ∀ k, db_pairs db' !! k = if is_in k.1 ids then spec_pair sql_lower limit db k else db_pairs db !! k
}.

Section Rows.
Context (sql_lower : string → string) (limit : option Z) (db : match_db) (Hdb : tables_ok db).

Lemma demande_of_elem d : d ∈ db_demandes db → demande_of db (d_id d) = Some d.
Proof. apply by_key_elem, Hdb. Qed.
Lemma offer_of_elem o : o ∈ db_offers db → by_key o_id (o_id o) (db_offers db) = Some o.
Proof. apply by_key_elem, Hdb. Qed.
Lemma scored_offers_NoDup d : NoDup (map fst (scored_offers sql_lower db d)).
Proof. unfold scored_offers. rewrite map_map. cbn. apply NoDup_map_filter, Hdb. Qed.
Lemma elem_of_scored_offers d x :
  x ∈ scored_offers sql_lower db d ↔ ∃ o, o ∈ db_offers db ∧ matches db d o = true ∧ x = (o_id o, SCORE_SQL sql_lower db d o).
Proof. unfold scored_offers, matching. rewrite elem_of_map. setoid_rewrite elem_of_filter_b. naive_solver. Qed.

(** A list of the scored matches of [ids], in any order. *)
Record scores (ids : list Z) (rows : list (Z * Z * Z)) : Prop := mkScores {
  sr_keys : NoDup (map (λ r : Z * Z * Z, (r.1.1, r.1.2)) rows);
  sr_elem : ∀ x, x ∈ rows ↔ ∃ d o, d ∈ db_demandes db ∧ o ∈ db_offers db ∧ d_id d ∈ ids ∧ matches db d o = true
                                   ∧ x = (d_id d, o_id o, SCORE_SQL sql_lower db d o)
}.
Lemma part_of_scores ids rows i :
  scores ids rows → part_of rows i ≡ₚ if is_in i ids then wanted sql_lower db i else [].
Proof.
  intros [Hk He]. apply NoDup_Permutation.
  - apply (NoDup_of_map (λ x : Z * Z, (i, x.1))). unfold part_of. rewrite map_map. cbn.
    rewrite (map_ext_in _ (λ r : Z * Z * Z, (r.1.1, r.1.2))); [by apply NoDup_map_filter|].
    intros r [_ <-%Z.eqb_eq]%list_elem_of_In%elem_of_filter_b%and_comm. done.
  - destruct (is_in i ids); [|constructor]. unfold wanted. destruct (demande_of db i); [|constructor].
    eapply NoDup_of_map, scored_offers_NoDup.
  - intros x. unfold part_of. rewrite elem_of_map. setoid_rewrite elem_of_filter_b. setoid_rewrite Z.eqb_eq. setoid_rewrite He. split.
    + intros (r & -> & Hi & d & o & Hd & Ho & Hin & Hm & ->). cbn in *. subst i. rewrite (proj2 (is_in_true _ _) Hin).
      unfold wanted. rewrite demande_of_elem by done. apply elem_of_scored_offers. eauto.
    + destruct (is_in i ids) eqn:Ei; [|by intros ?%elem_of_nil]. apply is_in_true in Ei. unfold wanted, demande_of.
      destruct (by_key d_id i _) as [d|] eqn:Ed; [|by intros ?%elem_of_nil]. apply by_key_Some in Ed as [Hd <-].
      intros (o & Ho & Hm & ->)%elem_of_scored_offers. exists (d_id d, o_id o, SCORE_SQL sql_lower db d o).
      split_and!; [done..|]. exists d, o. done.
Qed.
Lemma filter_within (p : Z * Z * Z * Z → bool) rows : List.filter p (within_limit limit rows) = within_limit limit (List.filter p rows).
Proof. destruct limit; cbn; [|done]. rewrite !filter_filter_b. apply List.filter_ext. intros x. apply andb_comm. Qed.
Lemma kept_part ids rows i :
  scores ids rows →
  List.filter (λ r : Z * Z * Z * Z, r.1.1.1 =? i) (within_limit limit (ranked rows)) = if is_in i ids then ranking sql_lower limit db i else [].
Proof.
  intros H. rewrite filter_within, ranked_part, (ranking_of_perm _ _ _ (part_of_scores _ _ i H)). unfold ranking.
  destruct (is_in i ids); [done|]. by destruct limit.
Qed.
Lemma ranked_part_scores ids rows i :
  scores ids rows →
  List.filter (λ r : Z * Z * Z * Z, r.1.1.1 =? i) (ranked rows) = if is_in i ids then ranking_of i (wanted sql_lower db i) else [].
Proof. intros H. rewrite ranked_part, (ranking_of_perm _ _ _ (part_of_scores _ _ i H)). by destruct (is_in i ids). Qed.
Lemma within_sub rows r : r ∈ within_limit limit rows → r ∈ rows.
Proof. destruct limit; cbn; [by intros [_ ?]%elem_of_filter_b|done]. Qed.
Lemma within_NoDup {B} (f : Z * Z * Z * Z → B) rows : NoDup (map f rows) → NoDup (map f (within_limit limit rows)).
Proof. destruct limit; cbn; [apply NoDup_map_filter|done]. Qed.
Lemma scores_ranked_NoDup ids rows : scores ids rows → NoDup (map pair_key (within_limit limit (ranked rows))).
Proof. intros [H _]. by apply within_NoDup, ranked_NoDup. Qed.
(** Every ranked row is of a match. *)
Lemma ranked_match ids rows r :
  scores ids rows → r ∈ ranked rows →
  ∃ d o, d ∈ db_demandes db ∧ o ∈ db_offers db ∧ d_id d ∈ ids ∧ matches db d o = true ∧ pair_key r = (d_id d, o_id o).
Proof.
  intros H Hr. apply ranked_elem in Hr. rewrite (ranking_of_perm _ _ _ (part_of_scores _ _ _ H)) in Hr.
  destruct (is_in r.1.1.1 ids) eqn:Ei; [|by apply elem_of_nil in Hr]. apply is_in_true in Ei.
  apply (list_elem_of_fmap_2 pair_key) in Hr. change (pair_key <$> ?l) with (map pair_key l) in Hr.
  rewrite pair_keys_of_ranking in Hr. apply elem_of_map in Hr as (x & Hk & Hx). unfold wanted, demande_of in Hx.
  destruct (by_key d_id _ _) as [d|] eqn:Ed; [|by apply elem_of_nil in Hx]. apply by_key_Some in Ed as [Hd Ed].
  apply elem_of_scored_offers in Hx as (o & Ho & Hm & ->). exists d, o. rewrite Hk, <- Ed in *. done.
Qed.
Lemma find_filter_key k (l : list (Z * Z * Z * Z)) :
  List.find (λ r, bool_decide (pair_key r = k)) l
  = List.find (λ r, bool_decide (pair_key r = k)) (List.filter (λ r : Z * Z * Z * Z, r.1.1.1 =? k.1) l).
Proof.
  induction l as [|r l IH]; [done|]. cbn [List.find List.filter]. case_bool_decide as E.
  - rewrite <- E. cbn. rewrite Z.eqb_refl. cbn. by rewrite bool_decide_true.
  - destruct (_ =? _); [cbn [List.find]; by rewrite bool_decide_false|done].
Qed.
Lemma find_kept ids rows k :
  scores ids rows →
  List.find (λ r, bool_decide (pair_key r = k)) (within_limit limit (ranked rows))
  = if is_in k.1 ids then List.find (λ r, bool_decide (pair_key r = k)) (ranking sql_lower limit db k.1) else None.
Proof. intros H. rewrite find_filter_key, (kept_part _ _ _ H). by destruct (is_in _ _). Qed.
End Rows.

(** ** Counting by demande *)

Lemma sum_over_perm {A} (f : A → Z) l l' : l ≡ₚ l' → sum_over f l = sum_over f l'.
Proof. unfold sum_over. induction 1; cbn; lia. Qed.
Lemma sum_over_ext {A} (f g : A → Z) l : (∀ x, x ∈ l → f x = g x) → sum_over f l = sum_over g l.
Proof.
  unfold sum_over. induction l as [|x l IH]; intros H; [done|]. cbn.
  rewrite (H x) by apply list_elem_of_here. f_equal. apply IH. intros y Hy. apply H. by right.
Qed.
Lemma sum_over_map {A B} (f : B → Z) (g : A → B) l : sum_over f (map g l) = sum_over (λ x, f (g x)) l.
Proof. unfold sum_over. by rewrite map_map. Qed.
(** Rows whose tags are among [ids], counted tag by tag. *)
Lemma length_by_tag {A} (tag : A → Z) l ids :
  NoDup ids → (∀ x, x ∈ l → tag x ∈ ids) →
  Z.of_nat (List.length l) = sum_over (λ i, Z.of_nat (List.length (List.filter (λ x, tag x =? i) l))) ids.
Proof.
  intros Hids. induction l as [|x l IH]; intros Ht.
  { clear. unfold sum_over. induction ids as [|i ids IH]; [done|]. exact IH. }
  cbn [List.length]. rewrite Nat2Z.inj_succ, IH by (intros y Hy; apply Ht; by right).
  specialize (Ht x (list_elem_of_here _ _)). clear IH. cbn [List.filter]. revert Ht.
  induction Hids as [|i ids Hi Hn IHn]; [by intros ?%elem_of_nil|]. unfold sum_over. cbn [map foldr].
  intros [E|Hx]%elem_of_cons.
  - subst i. rewrite Z.eqb_refl. cbn [List.length].
    assert (∀ ids', tag x ∉ ids' →
      foldr Z.add 0 (map (λ i, Z.of_nat (List.length (if tag x =? i then x :: List.filter (λ y, tag y =? i) l else List.filter (λ y, tag y =? i) l))) ids')
      = foldr Z.add 0 (map (λ i, Z.of_nat (List.length (List.filter (λ y, tag y =? i) l))) ids')) as ->; [|lia|done].
    intros ids'. induction ids' as [|j ids' IH]; [done|]. intros [Hj Hj']%not_elem_of_cons. cbn. rewrite IH by done.
    by destruct (Z.eqb_spec (tag x) j).
  - specialize (IHn Hx). unfold sum_over in IHn. destruct (Z.eqb_spec (tag x) i) as [<-|]; [done|]. lia.
Qed.

Lemma normalized_elem ids i : i ∈ normalized ids ↔ i ∈ ids ∧ 0 < i.
Proof. unfold normalized. rewrite elem_of_filter_b, Z.ltb_lt. tauto. Qed.
Lemma normalized_positive ids : positive_ids (normalized ids) = positive_ids ids.
Proof. unfold positive_ids, normalized. f_equal. rewrite filter_filter_b. apply List.filter_ext. intros i. apply andb_diag. Qed.
Lemma normalized_idem ids : normalized (normalized ids) = normalized ids.
Proof. unfold normalized. rewrite filter_filter_b. apply List.filter_ext. intros i. apply andb_diag. Qed.
Lemma positive_positive ids : positive_ids (positive_ids ids) = positive_ids ids.
Proof.
  unfold positive_ids at 1, sorted_set. rewrite (filter_all _ (positive_ids ids)).
  - assert (remove_dups (positive_ids ids) = positive_ids ids) as -> by (apply remove_dups_id, positive_ids_NoDup).
    apply ssort_id. unfold positive_ids, sorted_set. apply ssort_sorted.
    { intros x y H%Z.leb_gt. apply Z.leb_le. lia. }
    intros x y z H1%Z.leb_le H2%Z.leb_le. apply Z.leb_le. lia.
  - apply Forall_forall. intros i [_ ?]%positive_ids_elem. by apply Z.ltb_lt.
Qed.
Lemma normalized_nil ids : normalized ids = [] ↔ positive_ids ids = [].
Proof.
  split; intros H.
  - unfold positive_ids, sorted_set. unfold normalized in H. by rewrite H.
  - destruct (normalized ids) as [|i l] eqn:E; [done|]. assert (i ∈ positive_ids ids) as Hi; [|by rewrite H in Hi; apply elem_of_nil in Hi].
    apply positive_ids_elem, normalized_elem. rewrite E. apply list_elem_of_here.
Qed.
Lemma list_to_map_lookup_fun {A} (f : Z → A) (ids : list Z) i :
  (list_to_map (map (λ i, (i, f i)) ids) : gmap Z A) !! i = if is_in i ids then Some (f i) else None.
Proof.
  induction ids as [|j ids IH]; cbn; [by rewrite lookup_empty|].
  destruct (decide (j = i)) as [->|Hne].
  - rewrite lookup_insert_eq. unfold is_in. by rewrite bool_decide_true by apply list_elem_of_here.
  - rewrite lookup_insert_ne, IH by done. unfold is_in. rewrite (bool_decide_ext (i ∈ j :: ids) (i ∈ ids)); [done|].
    rewrite elem_of_cons. naive_solver.
Qed.
Lemma map_to_list_fun {A} (f : Z → A) ids : NoDup ids → map_to_list (list_to_map (map (λ i, (i, f i)) ids) : gmap Z A) ≡ₚ map (λ i, (i, f i)) ids.
Proof.
  intros H. apply map_to_list_to_map. change ((map (λ i, (i, f i)) ids).*1) with (map fst (map (λ i, (i, f i)) ids)).
  rewrite map_map. cbn. by rewrite map_id.
Qed.
Lemma is_in_ext i l l' : (∀ x, x ∈ l ↔ x ∈ l') → is_in i l = is_in i l'.
Proof. intros H. unfold is_in. by apply bool_decide_ext. Qed.
Lemma is_in_normalized ids i : is_in i (normalized ids) = is_in i (positive_ids ids).
Proof. apply is_in_ext. intros x. by rewrite normalized_elem, positive_ids_elem. Qed.

(** ** The pipeline in one statement *)

Section Direct.
Context (sql_lower : string → string) (limit : option Z) (db : match_db) (Hdb : tables_ok db) (ids : list Z) (Hids : ids ≠ []).

Lemma selected_demandes d o : selected (for_demandes ids) d o = is_in (d_id d) ids.
Proof. unfold selected, for_demandes. cbn. destruct ids; [done|]. by rewrite andb_true_r. Qed.
Lemma elem_of_match_rows r :
  r ∈ match_rows db ids ↔ ∃ d o, d ∈ db_demandes db ∧ o ∈ db_offers db ∧ d_id d ∈ ids ∧ matches db d o = true
                                ∧ r = (d_agency d, (d_id d, o_id o), shadow_of d o).
Proof.
  unfold match_rows. rewrite elem_of_cte. setoid_rewrite selected_demandes. setoid_rewrite is_in_true.
  split; intros (d & o & ? & ? & ? & Hm & ->); exists d, o; split_and!; done.
Qed.
Lemma match_rows_NoDup : NoDup (map (λ r : match_row, r.1.2) (match_rows db ids)).
Proof.
  apply NoDup_fmap_2_strong; [|apply NoDup_cte].
  intros r r' (d & o & Hd & Ho & _ & _ & ->)%elem_of_match_rows (d' & o' & Hd' & Ho' & _ & _ & ->)%elem_of_match_rows. cbn.
  intros [= Ed Eo]. assert (d = d') as -> by (eapply (NoDup_map_inj_on d_id); eauto; apply Hdb).
  assert (o = o') as -> by (eapply (NoDup_map_inj_on o_id); eauto; apply Hdb). done.
Qed.
(** Both rows of a key. *)
Definition scored_key (k : Z * Z) : list (Z * Z * Z) :=
  join (db_demandes db) (λ d, d_id d =? k.1) (λ d,
  join (db_offers db) (λ o, o_id o =? k.2) (λ o,
  join (db_listings db) (λ l, l_id l =? o_listing o) (λ _, [(d_id d, o_id o, SCORE_SQL sql_lower db d o)]))).
Lemma scored_key_elem d o : d ∈ db_demandes db → o ∈ db_offers db → scored_key (d_id d, o_id o) = [(d_id d, o_id o, SCORE_SQL sql_lower db d o)].
Proof.
  intros Hd Ho. unfold scored_key. cbn. rewrite (join_key_all d_id), (by_key_elem d_id) by (done || apply Hdb).
  rewrite (join_key_all o_id), (by_key_elem o_id) by (done || apply Hdb).
  destruct (tb_listing _ Hdb o Ho) as (l & Hl & <-). by rewrite (join_key_all l_id), (by_key_elem l_id) by (done || apply Hdb).
Qed.
Lemma scored_key_tag k x : x ∈ scored_key k → (x.1.1, x.1.2) = k.
Proof.
  unfold scored_key. rewrite elem_of_join. intros (d & _ & Ed%Z.eqb_eq & Hx). apply elem_of_join in Hx as (o & _ & Eo%Z.eqb_eq & Hx).
  apply elem_of_join in Hx as (l & _ & _ & ->%list_elem_of_singleton). destruct k. by cbn in *; subst.
Qed.
Lemma scored_matches_keys rows : scored_matches sql_lower db rows = flat_map scored_key (map (λ r : match_row, r.1.2) rows).
Proof. unfold scored_matches. induction rows as [|r rows IH]; cbn; [done|]. by rewrite IH. Qed.
Lemma scored_matches_scores : scores sql_lower db ids (scored_matches sql_lower db (match_rows db ids)).
Proof.
  rewrite scored_matches_keys. split.
  - apply (tagged_NoDup _ (λ x : Z * Z * Z, (x.1.1, x.1.2))); [exact scored_key_tag|apply match_rows_NoDup| |done].
    intros k (r & -> & (d & o & Hd & Ho & _ & _ & ->)%elem_of_match_rows)%elem_of_map. cbn.
    rewrite scored_key_elem by done. apply NoDup_singleton.
  - intros x. rewrite (tagged_elem _ (λ x : Z * Z * Z, (x.1.1, x.1.2)) scored_key_tag), elem_of_map. setoid_rewrite elem_of_match_rows. split.
    + intros [(r & E & d & o & Hd & Ho & Hin & Hm & ->) Hx]. exists d, o. cbn in E. rewrite E, scored_key_elem in Hx by done.
      apply list_elem_of_singleton in Hx. done.
    + intros (d & o & Hd & Ho & Hin & Hm & ->). cbn. rewrite scored_key_elem by done. split; [|apply list_elem_of_here].
      exists (d_agency d, (d_id d, o_id o), shadow_of d o). split; [done|]. eauto 9.
Qed.
Lemma row_of_match d o :
  d ∈ db_demandes db → o ∈ db_offers db → d_id d ∈ ids → matches db d o = true →
  row_of (match_rows db ids) (d_id d, o_id o) = Some (d_agency d, (d_id d, o_id o), shadow_of d o).
Proof.
  intros Hd Ho Hin Hm. apply (find_key_elem (λ r : match_row, r.1.2) _ (d_agency d, (d_id d, o_id o), shadow_of d o)).
  - apply match_rows_NoDup.
  - apply elem_of_match_rows. eauto 9.
Qed.
Lemma row_of_lookup k :
  row_of (match_rows db ids) k
  = if is_in k.1 ids then with_rows db k (λ d o, if matches db d o then Some (d_agency d, k, shadow_of d o) else None) else None.
Proof.
  destruct (row_of (match_rows db ids) k) as [r|] eqn:E.
  - apply (find_key_Some (λ r : match_row, r.1.2)) in E as [(d & o & Hd & Ho & Hin & Hm & ->)%elem_of_match_rows <-]. cbn.
    rewrite (proj2 (is_in_true _ _) Hin). unfold with_rows. cbn. by rewrite (demande_of_elem db Hdb d Hd), (offer_of_elem db Hdb o Ho), Hm.
  - destruct (is_in k.1 ids) eqn:Ei; [|done]. apply is_in_true in Ei.
    unfold with_rows, demande_of. destruct (by_key d_id _ _) as [d|] eqn:Ed; [|done]. destruct (by_key o_id _ _) as [o|] eqn:Eo; [|done].
    destruct (matches db d o) eqn:Em; [|done]. apply by_key_Some in Ed as [Hd Ed], Eo as [Ho Eo].
    destruct k as [i j]. cbn in *. subst i j. by rewrite row_of_match in E.
Qed.
End Direct.

Lemma lookup_list_to_map_find {V} (l : list ((Z * Z) * V)) (k : Z * Z) :
  (list_to_map l : gmap (Z * Z) V) !! k = snd <$> List.find (λ kv, bool_decide (kv.1 = k)) l.
Proof.
  induction l as [|[k' v] l IH]; cbn; [by rewrite lookup_empty|]. destruct (decide (k' = k)) as [->|Hne].
  - by rewrite lookup_insert_eq, bool_decide_true.
  - by rewrite lookup_insert_ne, bool_decide_false.
Qed.
Lemma find_map {A B} (p : B → bool) (f : A → B) l : List.find p (map f l) = f <$> List.find (λ x, p (f x)) l.
Proof. induction l as [|x l IH]; [done|]. cbn. by destruct (p (f x)). Qed.
Lemma lookup_union_rows {V} (rows : list ((Z * Z) * V)) (t : gmap (Z * Z) V) k :
  (list_to_map rows ∪ t) !! k = match List.find (λ kv, bool_decide (kv.1 = k)) rows with Some kv => Some kv.2 | None => t !! k end.
Proof. rewrite lookup_union, lookup_list_to_map_find. destruct (List.find _ rows); cbn; destruct (t !! k); done. Qed.
Lemma omap_all {A B} (f : A → option B) (g : A → B) l : (∀ x, x ∈ l → f x = Some (g x)) → omap f l = map g l.
Proof.
  induction l as [|x l IH]; intros H; [done|]. cbn. rewrite (H x) by apply list_elem_of_here. f_equal.
  apply IH. intros y Hy. apply H. by right.
Qed.

Lemma length_filter_tag {A B} (f : A → B) (p : B → bool) l :
  List.length (List.filter p (map f l)) = List.length (List.filter (λ x, p (f x)) l).
Proof. induction l as [|x l IH]; cbn; [done|]. destruct (p (f x)); cbn; by rewrite IH. Qed.

Section Answers.
Context (sql_lower : string → string) (limit : option Z) (db : match_db) (Hdb : tables_ok db).

(** The keys of the matches of [ids], in any order, counted by demande. *)
Record match_keys (ids : list Z) (ks : list (Z * Z)) : Prop := mkKeys {
  mk_NoDup : NoDup ks;
  mk_elem : ∀ k, k ∈ ks ↔ ∃ d o, d ∈ db_demandes db ∧ o ∈ db_offers db ∧ d_id d ∈ ids ∧ matches db d o = true ∧ k = (d_id d, o_id o)
}.
Lemma count_keys ids ks i :
  match_keys ids ks → is_in i ids = true →
  Z.of_nat (List.length (List.filter (λ k : Z * Z, k.1 =? i) ks)) = candidate_total (spec_counts sql_lower limit db i).
Proof.
  intros [Hn He] Hi%is_in_true. cbn. f_equal.
  transitivity (List.length (map (λ x : Z * Z, (i, x.1)) (wanted sql_lower db i))); [|apply length_map].
  apply Permutation_length, NoDup_Permutation.
  - eapply NoDup_of_map. rewrite map_id. rewrite <- (map_id ks) in Hn. rewrite <- map_id. by apply NoDup_map_filter.
  - apply (NoDup_of_map snd). rewrite map_map. cbn. unfold wanted. destruct (demande_of db i); [|constructor].
    by apply scored_offers_NoDup.
  - intros k. rewrite elem_of_filter_b, Z.eqb_eq, He, elem_of_map. unfold wanted, demande_of. split.
    + intros (Hk & d & o & Hd & Ho & Hin & Hm & ->). cbn in Hk. subst i. rewrite (by_key_elem d_id) by (done || apply Hdb).
      exists (o_id o, SCORE_SQL sql_lower db d o). split; [done|]. apply elem_of_scored_offers. eauto.
    + intros (x & -> & Hx). destruct (by_key d_id i _) as [d|] eqn:Ed; [|by apply elem_of_nil in Hx].
      apply by_key_Some in Ed as [Hd <-]. apply elem_of_scored_offers in Hx as (o & Ho & Hm & ->). cbn. split; [done|]. eauto 8.
Qed.
Lemma count_ranked ids rows i :
  scores sql_lower db ids rows → is_in i ids = true →
  Z.of_nat (List.length (List.filter (λ r : Z * Z * Z * Z, r.1.1.1 =? i) (ranked rows))) = ranked_total (spec_counts sql_lower limit db i).
Proof.
  intros H Hi. rewrite (ranked_part_scores sql_lower db Hdb _ _ _ H), Hi. cbn. f_equal. unfold ranking_of.
  rewrite length_map, length_numbered. apply Permutation_length, ssort_perm.
Qed.
Lemma count_kept ids rows i :
  scores sql_lower db ids rows → is_in i ids = true →
  Z.of_nat (List.length (List.filter (λ r : Z * Z * Z * Z, r.1.1.1 =? i) (within_limit limit (ranked rows))))
  = pair_total (spec_counts sql_lower limit db i).
Proof. intros H Hi. by rewrite (kept_part sql_lower limit db Hdb _ _ _ H), Hi. Qed.
Lemma ranked_tags ids rows r : scores sql_lower db ids rows → r ∈ ranked rows → r.1.1.1 ∈ ids.
Proof. intros H Hr. destruct (ranked_match _ _ Hdb _ _ _ H Hr) as (d & o & _ & _ & Hin & _ & E). unfold pair_key in E. by rewrite E. Qed.
Lemma total_ranked ids rows :
  NoDup ids → scores sql_lower db ids rows →
  Z.of_nat (List.length (ranked rows)) = sum_over (λ i, ranked_total (spec_counts sql_lower limit db i)) ids
  ∧ Z.of_nat (List.length (within_limit limit (ranked rows))) = sum_over (λ i, pair_total (spec_counts sql_lower limit db i)) ids.
Proof.
  intros Hn H. split.
  - rewrite (length_by_tag (λ r : Z * Z * Z * Z, r.1.1.1) _ ids) by (done || (intros r; by apply ranked_tags)).
    apply sum_over_ext. intros i Hi. eapply count_ranked; [done|by apply is_in_true].
  - rewrite (length_by_tag (λ r : Z * Z * Z * Z, r.1.1.1) _ ids) by (done || (intros r Hr%within_sub; by eapply ranked_tags)).
    apply sum_over_ext. intros i Hi. eapply count_kept; [done|by apply is_in_true].
Qed.
End Answers.

Section DirectRun.
Context (sql_lower : string → string) (limit : option Z).

Lemma match_rows_keys db ids : tables_ok db → ids ≠ [] → match_keys db ids (map (λ r : match_row, r.1.2) (match_rows db ids)).
Proof.
  intros Hdb Hids. split; [by apply match_rows_NoDup|]. intros k. rewrite elem_of_map. setoid_rewrite elem_of_match_rows; [|done]. split.
  - intros (r & -> & d & o & ? & ? & ? & ? & ->). eauto 8.
  - intros (d & o & ? & ? & ? & ? & ->). exists (d_agency d, (d_id d, o_id o), shadow_of d o). split; [done|]. eauto 8.
Qed.
Definition row_of_pair (db : match_db) (r : Z * Z * Z * Z) : (Z * Z) * pair_row :=
  (pair_key r, default (mkPair 0 no_shadow r.1.2 r.2)
                 (with_rows db (pair_key r) (λ d o, Some (mkPair (d_agency d) (shadow_of d o) r.1.2 r.2)))).
Lemma pair_rows_of db ids rows :
  tables_ok db → ids ≠ [] → scores sql_lower db ids rows →
  omap (λ r, (λ m : match_row, (pair_key r, mkPair m.1.1 m.2 r.1.2 r.2)) <$> row_of (match_rows db ids) (pair_key r))
    (within_limit limit (ranked rows))
  = map (row_of_pair db) (within_limit limit (ranked rows)).
Proof.
  intros Hdb Hids H. apply omap_all. intros r Hr%within_sub.
  destruct (ranked_match _ _ Hdb _ _ _ H Hr) as (d & o & Hd & Ho & Hin & Hm & Hk).
  unfold row_of_pair, with_rows. rewrite Hk, row_of_match by done. cbn.
  by rewrite (demande_of_elem db Hdb d Hd), (offer_of_elem db Hdb o Ho).
Qed.
Lemma keys_fst (rows : list match_row) (f : match_row → candidate) : (map (λ r : match_row, (r.1.2, f r)) rows).*1 = map (λ r : match_row, r.1.2) rows.
Proof. change (?l.*1) with (map fst l). by rewrite map_map. Qed.
Lemma find_pair_row db ids rows k :
  tables_ok db → scores sql_lower db ids rows →
  match List.find (λ kv, bool_decide (kv.1 = k)) (map (row_of_pair db) (within_limit limit (ranked rows))) with
  | Some kv => Some kv.2 | None => None end = if is_in k.1 ids then spec_pair sql_lower limit db k else None.
Proof.
  intros Hdb H. rewrite find_map. cbn. rewrite (find_kept sql_lower limit db Hdb _ _ _ H).
  destruct (is_in k.1 ids) eqn:Ei; [|done]. unfold spec_pair, with_rows.
  destruct (List.find _ (ranking sql_lower limit db k.1)) as [r|] eqn:E; cbn.
  - assert (r ∈ within_limit limit (ranked rows)) as Hr.
    { pose proof (find_kept sql_lower limit db Hdb _ _ k H) as Hf. rewrite Ei, E in Hf. by apply (find_key_Some pair_key) in Hf as [? _]. }
    apply within_sub in Hr. destruct (ranked_match _ _ Hdb _ _ _ H Hr) as (d & o & Hd & Ho & _ & _ & Hk).
    apply (find_key_Some pair_key) in E as [_ E]. unfold with_rows. rewrite E in *. rewrite Hk. cbn.
    by rewrite (demande_of_elem db Hdb d Hd), (offer_of_elem db Hdb o Ho).
  - by destruct (demande_of db k.1), (by_key o_id k.2 (db_offers db)).
Qed.

Lemma artifact_query_run db ids :
  tables_ok db → ids ≠ [] → positive_ids ids = ids →
  (∀ k, is_in k.1 ids = true → db_candidates db !! k = None ∧ db_pairs db !! k = None) →
  ∃ db', _artifact_insert_query sql_lower ids limit db = (Ok (map (λ i, (i, spec_counts sql_lower limit db i)) ids), db')
    ∧ rebuilt sql_lower limit ids db db'.
Proof.
  intros Hdb Hids Hpos Hfree. unfold _artifact_insert_query, _normalize_demande_ids. rewrite Hpos.
  destruct ids as [|i0 ids0] eqn:Eids; [done|]. rewrite <- Eids in *. clear Eids i0 ids0.
  rewrite !bind_gets. pose proof (scored_matches_scores sql_lower db Hdb ids Hids) as Hs.
  set (rows := scored_matches sql_lower db (match_rows db ids)) in *.
  assert (∀ k, k ∈ map (λ r : match_row, r.1.2) (match_rows db ids) → is_in k.1 ids = true) as Hkeys.
  { intros k (d & o & _ & _ & Hin & _ & ->)%(match_rows_keys _ _ Hdb Hids). by apply is_in_true. }
  rewrite bind_lift_ok with (a := list_to_map (map (λ r : match_row, (r.1.2, mkCandidate r.1.1 r.2)) (match_rows db ids)) ∪ db_candidates db).
  2: { apply insert_rows_ok; rewrite keys_fst; [by apply match_rows_NoDup|]. intros k Hk. by apply Hfree, Hkeys. }
  rewrite (pair_rows_of _ _ _ Hdb Hids Hs).
  rewrite bind_lift_ok with (a := list_to_map (map (row_of_pair db) (within_limit limit (ranked rows))) ∪ db_pairs db).
  2: { assert ((map (row_of_pair db) (within_limit limit (ranked rows))).*1 = map pair_key (within_limit limit (ranked rows))) as E
         by (change (?l.*1) with (map fst l); by rewrite map_map).
       apply insert_rows_ok; rewrite E; [by eapply scores_ranked_NoDup|]. intros k (r & -> & Hr%within_sub)%elem_of_map.
       destruct (ranked_match _ _ Hdb _ _ _ Hs Hr) as (d & o & _ & _ & Hin & _ & ->). by apply Hfree, is_in_true. }
  rewrite bind_modify. eexists. split.
  - unfold ret. f_equal. f_equal. apply map_ext_in. intros i Hi%list_elem_of_In%is_in_true. f_equal.
    unfold spec_counts at 1. f_equal.
    + etransitivity; [|exact (count_keys sql_lower limit db Hdb ids _ i (match_rows_keys _ _ Hdb Hids) Hi)].
      f_equal. symmetry. apply (length_filter_tag (λ r : match_row, r.1.2) (λ k : Z * Z, k.1 =? i)).
    + exact (count_ranked sql_lower limit db Hdb ids rows i Hs Hi).
    + exact (count_kept sql_lower limit db Hdb ids rows i Hs Hi).
  - split; [done..| |]; intros k; cbn.
    + rewrite lookup_union_rows, find_map. cbn. change (List.find _ (match_rows db ids)) with (row_of (match_rows db ids) k).
      rewrite row_of_lookup by done. destruct (is_in k.1 ids) eqn:Ei; [|done]. unfold spec_candidate, with_rows.
      destruct (demande_of db k.1) as [d|]; [|cbn; by apply Hfree]. destruct (by_key o_id k.2 _) as [o|]; [|cbn; by apply Hfree].
      destruct (matches db d o); [done|]. cbn. by apply Hfree.
    + rewrite lookup_union_rows. pose proof (find_pair_row _ _ _ k Hdb Hs) as Hf.
      destruct (List.find _ _) as [kv|]; [by destruct (is_in k.1 ids)|]. destruct (is_in k.1 ids) eqn:Ei; [|done].
      rewrite <- Hf. by apply Hfree.
Qed.
End DirectRun.

Lemma same_rows_refl db : same_rows db db.
Proof. by split_and!. Qed.
(** Rebuilding does not depend on the stored matches. *)
Section Same.
Context (sql_lower : string → string) (limit : option Z) (db db' : match_db) (H : same_rows db db').

Lemma has_locations_same i : has_locations db' i = has_locations db i.
Proof. destruct H as (_ & _ & _ & _ & E & _). unfold has_locations. by rewrite E. Qed.
Lemma shares_location_same i j : shares_location db' i j = shares_location db i j.
Proof. destruct H as (_ & _ & _ & _ & E & E'). unfold shares_location. by rewrite E, E'. Qed.
Lemma matches_same d o : matches db' d o = matches db d o.
Proof.
  destruct H as (Ec & _ & El & _ & _ & _). unfold matches, meet, client_of, listing_of, LOCATION_MATCH.
  by rewrite Ec, El, has_locations_same, shares_location_same.
Qed.
Lemma score_same d o : SCORE_SQL sql_lower db' d o = SCORE_SQL sql_lower db d o.
Proof. unfold SCORE_SQL, SCORE_RAW_SQL. by rewrite has_locations_same, shares_location_same. Qed.
Lemma wanted_same i : wanted sql_lower db' i = wanted sql_lower db i.
Proof.
  destruct H as (_ & Ed & _ & Eo & _ & _). unfold wanted, demande_of. rewrite Ed. destruct (by_key _ _ _) as [d|]; [|done].
  unfold scored_offers, matching. rewrite Eo, (List.filter_ext _ _ (matches_same d)). apply map_ext. intros o. by rewrite score_same.
Qed.
Lemma with_rows_same {A} k (f : demande → offer → option A) : with_rows db' k f = with_rows db k f.
Proof. destruct H as (_ & Ed & _ & Eo & _ & _). unfold with_rows, demande_of. by rewrite Ed, Eo. Qed.
Lemma spec_same :
  (∀ k, spec_candidate db' k = spec_candidate db k) ∧ (∀ k, spec_pair sql_lower limit db' k = spec_pair sql_lower limit db k)
  ∧ (∀ i, spec_counts sql_lower limit db' i = spec_counts sql_lower limit db i).
Proof.
  split_and!.
  - intros k. unfold spec_candidate. rewrite with_rows_same. unfold with_rows. destruct (demande_of _ _) as [d|]; [|done].
    destruct (by_key _ _ _) as [o|]; [|done]. by rewrite matches_same.
  - intros k. unfold spec_pair. rewrite with_rows_same. unfold ranking. by rewrite wanted_same.
  - intros i. unfold spec_counts, ranking. by rewrite wanted_same.
Qed.
End Same.
Lemma tables_fewer db db' :
  same_rows db db' → (∀ k, is_Some (db_candidates db' !! k) → is_Some (db_candidates db !! k)) → tables_ok db → tables_ok db'.
Proof.
  intros (E1 & E2 & E3 & E4 & _) Hc [? ? ? ? ? H ?]. split; rewrite ?E1, ?E2, ?E3, ?E4; try done.
  intros k Hk. by apply H, Hc.
Qed.
Lemma tables_respec ids db db' :
  same_rows db db' → (∀ k, db_candidates db' !! k = if is_in k.1 ids then spec_candidate db k else db_candidates db !! k) →
  tables_ok db → tables_ok db'.
Proof.
  intros (E1 & E2 & E3 & E4 & _) Hc [? ? ? ? ? H ?].
  split; rewrite ?E1, ?E2, ?E3, ?E4; try done. intros k. rewrite Hc. destruct (is_in k.1 ids); [|apply H].
  unfold spec_candidate, with_rows, demande_of. destruct (by_key d_id _ _) as [d|] eqn:Ed; [|by intros [? ?]].
  destruct (by_key o_id _ _) as [o|] eqn:Eo; [|by intros [? ?]]. intros _.
  apply by_key_Some in Ed as [Hd <-], Eo as [Ho <-]. split; apply elem_of_map; eauto.
Qed.
Lemma tables_rebuilt sql_lower limit ids db db' : rebuilt sql_lower limit ids db db' → tables_ok db → tables_ok db'.
Proof. intros [Hr _ Hc _]. by apply (tables_respec ids). Qed.
Lemma rebuilt_nil sql_lower limit db : rebuilt sql_lower limit [] db db.
Proof. by split; [apply same_rows_refl| | |]. Qed.

Section Pipelines.
Context (sql_lower : string → string) (limit : option Z).

Lemma is_in_cons_ne i j l : j ≠ i → is_in i (j :: l) = is_in i l.
Proof. intros H. unfold is_in. apply bool_decide_ext. rewrite elem_of_cons. naive_solver. Qed.
Lemma sum_rows {B} (f : Z → B) (g : B → Z) ids : (∀ i, i ∈ ids → 0 < i) →
  sum_over (λ r, g r.2) (List.filter (λ r : Z * B, 0 <? r.1) (map (λ i, (i, f i)) ids)) = sum_over (λ i, g (f i)) ids.
Proof.
  intros H. rewrite filter_all; [by rewrite sum_over_map|]. apply Forall_forall. intros r (i & -> & Hi)%elem_of_map. by apply Z.ltb_lt, H.
Qed.
Lemma foldl_insert_fun {B} (f : Z → B) ids (m : gmap Z B) i :
  foldl (λ m (r : Z * B), <[r.1 := r.2]> m) m (map (λ i, (i, f i)) ids) !! i = if is_in i ids then Some (f i) else m !! i.
Proof.
  revert m. induction ids as [|j ids IH]; intros m; [done|]. cbn [map foldl fst snd]. rewrite IH.
  destruct (decide (j = i)) as [->|Hne].
  - rewrite lookup_insert_eq. unfold is_in. rewrite (bool_decide_true (i ∈ i :: ids)) by apply list_elem_of_here. by case_bool_decide.
  - rewrite lookup_insert_ne by done. rewrite (is_in_cons_ne _ _ _ Hne). done.
Qed.

Lemma direct_run db ids :
  tables_ok db →
  ∃ db', rebuild_match_artifacts_for_demandes sql_lower ids limit db = (Ok (expected sql_lower limit db (positive_ids ids)), db')
    ∧ rebuilt sql_lower limit (positive_ids ids) db db'.
Proof.
  intros Hdb. unfold rebuild_match_artifacts_for_demandes, _normalize_demande_ids.
  pose proof (positive_positive ids) as HP. pose proof (positive_ids_elem ids) as Hpos.
  destruct (positive_ids ids) as [|i0 l0] eqn:EP; [exists db; split; [done|apply rebuilt_nil]|].
  rewrite <- EP in *. set (P := positive_ids ids) in *. assert (P ≠ []) as HPn by (by rewrite EP).
  set (db1 := set_pairs (drop_demandes P) (set_candidates (drop_demandes P) db)).
  rewrite (bind_ok (_delete_existing_artifacts P) _ _ tt db1).
  2: { unfold _delete_existing_artifacts, _normalize_demande_ids. rewrite HP, EP. rewrite <- EP. by rewrite bind_modify. }
  assert (same_rows db db1) as Hsame by done.
  assert (∀ k, is_in k.1 P = true → db_candidates db1 !! k = None ∧ db_pairs db1 !! k = None) as Hfree.
  { intros k Hk. cbn. by rewrite !drop_demandes_lookup, Hk. }
  assert (tables_ok db1) as Hdb1.
  { eapply tables_fewer; [exact Hsame| |done]. intros k. cbn. rewrite drop_demandes_lookup. by destruct (is_in _ _); [intros [? ?]|]. }
  destruct (artifact_query_run sql_lower limit db1 P Hdb1 HPn HP Hfree) as (db2 & Hq & Hr).
  rewrite (bind_ok _ _ _ _ _ Hq). exists db2. split.
  - unfold ret, expected. f_equal. f_equal. destruct (spec_same sql_lower limit db db1 Hsame) as (Hsc & Hsp & Hst).
    rewrite (map_ext _ _ (λ i, f_equal (pair i) (Hst i))).
    assert (∀ i, i ∈ P → 0 < i) as Hp by (intros i Hi; by apply Hpos in Hi as [_ ?]).
    rewrite !sum_rows by done. f_equal. rewrite filter_all.
    + apply map_eq. intros i. rewrite foldl_insert_fun, !list_to_map_lookup_fun. by destruct (is_in i P).
    + apply Forall_forall. intros r (i & -> & Hi)%elem_of_map. by apply Z.ltb_lt, Hp.
  - destruct Hr as [Hr1 Hr2 Hr3 Hr4]. split; [done|done| |]; intros k; destruct (spec_same sql_lower limit db db1 Hsame) as (Hsc & Hsp & _);
      rewrite ?Hr3, ?Hr4, ?Hsc, ?Hsp; (destruct (is_in k.1 P) eqn:Ek; [done|]); cbn; by rewrite drop_demandes_lookup, Ek.
Qed.
End Pipelines.

(** ** The pipeline in several statements *)

Lemma chosen_ids ids k : normalized ids = ids → ids ≠ [] → chosen None ids k = is_in k.1 ids.
Proof. intros H Hn. unfold chosen. rewrite H. destruct ids; [by destruct Hn|reflexivity]. Qed.
Lemma refreshed_lookup {V} (put : shadow → V → V) (sel : Z * Z → bool) (db : match_db) (t : gmap (Z * Z) V) (k : Z * Z) :
  refreshed put sel db t !! k = (λ v, if sel k then match find_demande db k.1, find_offer db k.2 with
                                                   | Some d, Some o => put (shadow_of d o) v
                                                   | _, _ => v
                                                   end else v) <$> t !! k.
Proof. unfold refreshed. rewrite map_lookup_imap. by destruct (t !! k). Qed.
Lemma positive_totals_elem ids (f : Z → Z) i :
  i ∈ positive_totals (list_to_map (map (λ i, (i, f i)) ids)) ↔ i ∈ ids ∧ 0 < f i.
Proof.
  unfold positive_totals. rewrite list_elem_of_fmap. split.
  - intros ([j n] & -> & [Hn Hj]%list_elem_of_filter). apply elem_of_map_to_list in Hj. rewrite list_to_map_lookup_fun in Hj.
    cbn in *. destruct (is_in j ids) eqn:E; [|done]. apply is_in_true in E. injection Hj as <-. done.
  - intros [Hi Hp]. exists (i, f i). split; [done|]. apply list_elem_of_filter. split; [done|]. apply elem_of_map_to_list.
    by rewrite list_to_map_lookup_fun, (proj2 (is_in_true _ _) Hi).
Qed.
Lemma totals_fun ids (ks : list (Z * Z)) :
  totals ids ks = list_to_map (map (λ i, (i, Z.of_nat (List.length (List.filter (λ k : Z * Z, k.1 =? i) ks)))) ids).
Proof. done. Qed.
Lemma list_to_map_fun_ext {A} (f g : Z → A) ids : (∀ i, i ∈ ids → f i = g i) →
  (list_to_map (map (λ i, (i, f i)) ids) : gmap Z A) = list_to_map (map (λ i, (i, g i)) ids).
Proof. intros H. f_equal. apply map_ext_in. intros i Hi%list_elem_of_In. by rewrite H. Qed.
Lemma visible_chosen ids (f : Z → Z) k :
  normalized ids = ids →
  match positive_totals (list_to_map (map (λ i, (i, f i)) ids)) with [] => false | v => chosen None v k end
  = is_in k.1 ids && (0 <? f k.1).
Proof.
  intros H. set (v := positive_totals _). assert (∀ i, i ∈ v ↔ i ∈ ids ∧ 0 < f i) as Hv by (intros i; apply positive_totals_elem).
  assert (normalized v = v) as Hn.
  { apply filter_all, Forall_forall. intros i [Hi _]%Hv. rewrite <- H in Hi. apply normalized_elem in Hi as [_ ?]. by apply Z.ltb_lt. }
  transitivity (is_in k.1 v).
  { clearbody v. destruct v as [|i l]; [done|]. by apply chosen_ids. }
  apply eq_true_iff_eq. by rewrite is_in_true, Hv, andb_true_iff, is_in_true, Z.ltb_lt.
Qed.
Lemma count_positive {A} (tag : A → Z) l x : x ∈ l → 0 < Z.of_nat (List.length (List.filter (λ y, tag y =? tag x) l)).
Proof.
  intros Hx. assert (x ∈ List.filter (λ y, tag y =? tag x) l) as H by (apply elem_of_filter_b; by rewrite Z.eqb_refl).
  destruct (List.filter _ l); [by apply elem_of_nil in H|]. cbn. lia.
Qed.

Section Legacy.
Context (sql_lower : string → string) (limit : option Z).

Lemma candidates_run db ids :
  tables_ok db → normalized ids = ids → ids ≠ [] →
  ∃ db1, replace_candidates_for_demandes_from_match_query ids db
         = (Ok (list_to_map (map (λ i, (i, candidate_total (spec_counts sql_lower limit db i))) ids)), db1)
    ∧ same_rows db db1 ∧ db_counts db1 = db_counts db ∧ db_pairs db1 = db_pairs db
    ∧ ∀ k, db_candidates db1 !! k = if is_in k.1 ids then spec_candidate db k else db_candidates db !! k.
Proof.
  intros Hdb Hn Hne. unfold replace_candidates_for_demandes_from_match_query. rewrite Hn.
  destruct ids as [|i0 l0] eqn:Ei; [done|]. rewrite <- Ei in *. clear Ei i0 l0. unfold clear_candidates. rewrite bind_modify, bind_gets.
  set (db0 := set_candidates _ db).
  set (rows := build_match_cte db0 (for_demandes ids) (λ d o, (d_agency d, (d_id d, o_id o)))).
  assert (∀ r, r ∈ rows ↔ ∃ d o, d ∈ db_demandes db ∧ o ∈ db_offers db ∧ d_id d ∈ ids ∧ matches db d o = true
                                ∧ r = (d_agency d, (d_id d, o_id o))) as Hrows.
  { intros r. unfold rows. rewrite elem_of_cte. setoid_rewrite (selected_demandes ids Hne). setoid_rewrite is_in_true. done. }
  assert (match_keys db ids (map snd rows)) as Hkeys.
  { split.
    - apply NoDup_fmap_2_strong; [|apply NoDup_cte].
      intros r r' (d & o & Hd & Ho & _ & _ & ->)%Hrows (d' & o' & Hd' & Ho' & _ & _ & ->)%Hrows. cbn. intros [= Ed Eo].
      assert (d = d') as -> by (eapply (NoDup_map_inj_on d_id); eauto; apply Hdb). by rewrite Eo.
    - intros k. rewrite elem_of_map. setoid_rewrite Hrows. split.
      + intros (r & -> & d & o & ? & ? & ? & ? & ->). eauto 8.
      + intros (d & o & ? & ? & ? & ? & ->). exists (d_agency d, (d_id d, o_id o)). split; [done|]. eauto 8. }
  rewrite bind_modify.
  assert (totals ids (map snd rows) = list_to_map (map (λ i, (i, candidate_total (spec_counts sql_lower limit db i))) ids)) as Htot.
  { rewrite totals_fun. apply list_to_map_fun_ext. intros i Hi%is_in_true. by apply (count_keys sql_lower limit db Hdb ids). }
  rewrite Htot. set (counts := list_to_map _).
  set (db2 := set_candidates _ db0). set (t2 := foldl (λ t (r : Z * (Z * Z)), upsert_candidate r.1 r.2 t) (db_candidates db0) rows).
  set (sel := λ k, match positive_totals counts with [] => false | v => chosen None v k end).
  assert (∀ k, t2 !! k = if is_in k.1 ids then (λ r, mkCandidate r.1 no_shadow) <$> List.find (λ r, bool_decide (r.2 = k)) rows
                         else db_candidates db !! k) as Ht2.
  { intros k. unfold t2. etransitivity; [exact (foldl_upsert (λ r : Z * (Z * Z), r.2)
      (λ r old, mkCandidate r.1 (default no_shadow (mc_shadow <$> old))) rows (db_candidates db0) k (mk_NoDup _ _ _ Hkeys))|]. cbv beta.
    assert (db_candidates db0 !! k = if is_in k.1 ids then None else db_candidates db !! k) as E0.
    { unfold db0. cbn. destruct (is_in k.1 ids) eqn:Ek.
      - apply map_lookup_filter_None. right. intros v _. cbn. rewrite chosen_ids by done. by rewrite Ek.
      - destruct (db_candidates db !! k) as [v|] eqn:Ev; [|apply map_lookup_filter_None; by left].
        apply map_lookup_filter_Some. split; [done|]. cbn. by rewrite chosen_ids. }
    rewrite E0. destruct (is_in k.1 ids) eqn:Ek; [by destruct (List.find _ rows)|].
    destruct (List.find _ rows) as [r|] eqn:Er; [|done]. apply (find_key_Some snd) in Er as [(d & o & _ & _ & Hin & _ & ->)%Hrows <-].
    cbn in Ek. by rewrite (proj2 (is_in_true _ _) Hin) in Ek. }
  exists (set_candidates (λ _, refreshed (λ sh c, mkCandidate (mc_agency c) sh) sel db2 t2) db2). split_and!.
  - destruct (positive_totals counts) as [|v0 v1] eqn:Ev.
    + rewrite bind_ret. assert (refreshed (λ sh c, mkCandidate (mc_agency c) sh) sel db2 t2 = t2) as ->; [|done].
      apply map_eq. intros k. rewrite refreshed_lookup. unfold sel. by destruct (t2 !! k).
    + unfold sel. unfold candidates_update_visibility_cache. by rewrite bind_modify.
  - done.
  - done.
  - done.
  - intros k. cbn. rewrite refreshed_lookup, Ht2. unfold sel, counts. rewrite visible_chosen by done.
    destruct (is_in k.1 ids) eqn:Ek; cbn [andb]; [|by destruct (_ !! k)]. unfold spec_candidate, with_rows.
    change (find_demande db2 k.1) with (demande_of db k.1). change (find_offer db2 k.2) with (by_key o_id k.2 (db_offers db)).
    destruct (List.find _ rows) as [r|] eqn:Er; cbn [fmap option_fmap option_map].
    + apply (find_key_Some snd) in Er as [Hr <-]. pose proof Hr as (d & o & Hd & Ho & Hin & Hm & ->)%Hrows. cbn.
      rewrite (demande_of_elem db Hdb d Hd), (offer_of_elem db Hdb o Ho), Hm.
      assert (0 < candidate_total (spec_counts sql_lower limit db (d_id d))) as Hpos%Z.ltb_lt.
      { rewrite <- (count_keys sql_lower limit db Hdb ids _ (d_id d) Hkeys (proj2 (is_in_true _ _) Hin)).
        apply (count_positive (λ k : Z * Z, k.1) _ (d_id d, o_id o)), elem_of_map. exists (d_agency d, (d_id d, o_id o)). done. }
      cbn in Hpos. by rewrite Hpos.
    + unfold demande_of. destruct (by_key d_id _ _) as [d|] eqn:Ed; [|done]. destruct (by_key o_id _ _) as [o|] eqn:Eo; [|done].
      destruct (matches db d o) eqn:Em; [|done]. apply by_key_Some in Ed as [Hd Ed], Eo as [Ho Eo].
      apply (find_key_None snd) in Er. destruct Er. apply (mk_elem _ _ _ Hkeys). exists d, o. split_and!; try done.
      * rewrite Ed. by apply is_in_true.
      * destruct k. by cbn in *; subst.
Qed.

Lemma scores_ext db ids ids' rows : (∀ i, i ∈ ids ↔ i ∈ ids') → scores sql_lower db ids rows → scores sql_lower db ids' rows.
Proof. intros H [? He]. split; [done|]. intros x. rewrite He. by setoid_rewrite H. Qed.
Lemma matches_active db d o :
  tables_ok db → matches db d o = true → ACTIVE_OFFER o = true ∧ active_listing db o = true ∧ ACTIVE_DEMANDE d = true.
Proof.
  intros Hdb. unfold matches, meet. rewrite !andb_true_iff. intros [[[[[[[? ?] ?] ?] ?] ?] ?] ?].
  split_and!; [done| |done]. by apply listing_of_active.
Qed.
(** The candidates of [ids] are the matches. *)
Definition exact_for (ids : list Z) (db : match_db) : Prop :=
  ∀ k, is_in k.1 ids = true → db_candidates db !! k = spec_candidate db k.
Lemma spec_candidate_rows db d o :
  tables_ok db → d ∈ db_demandes db → o ∈ db_offers db →
  spec_candidate db (d_id d, o_id o) = if matches db d o then Some (mkCandidate (d_agency d) (shadow_of d o)) else None.
Proof. intros Hdb Hd Ho. unfold spec_candidate, with_rows. cbn. by rewrite (demande_of_elem db Hdb d Hd), (offer_of_elem db Hdb o Ho). Qed.
Lemma scored_candidates_scores db ids : tables_ok db → exact_for ids db → scores sql_lower db ids (scored_candidates sql_lower ids db).
Proof.
  intros Hdb Hex. unfold scored_candidates. split.
  - rewrite map_map. exact (stored_NoDup db Hdb _ _).
  - intros x. rewrite elem_of_map. split.
    + intros ([d o] & -> & (Hd & Ho & Hk & _ & _ & _ & Hin)%elem_of_stored); [|done]. exists d, o.
      rewrite Hex, spec_candidate_rows in Hk by done. destruct (matches db d o) eqn:Em; [|by destruct Hk].
      apply is_in_true in Hin. done.
    + intros (d & o & Hd & Ho & Hin%is_in_true & Hm & ->). exists (d, o). split; [done|]. apply elem_of_stored; [done|].
      destruct (matches_active _ _ _ Hdb Hm) as (? & ? & _). rewrite Hex, spec_candidate_rows, Hm by done. split_and!; done.
Qed.
Lemma foldl_ext_in {A B} (f g : A → B → A) l a : (∀ a x, x ∈ l → f a x = g a x) → foldl f a l = foldl g a l.
Proof.
  revert a. induction l as [|x l IH]; intros a H; [done|]. cbn. rewrite H by apply list_elem_of_here.
  apply IH. intros a' y Hy. apply H. by right.
Qed.
(** The pairs after the upserts of [kept], before the shadows are set. *)
Definition agency_of (db : match_db) (i : Z) : Z := default 0 (d_agency <$> demande_of db i).
Lemma upserts_lookup (db : match_db) (ids : list Z) (rows : list (Z * Z * Z)) (t : gmap (Z * Z) pair_row) (k : Z * Z) :
  tables_ok db → scores sql_lower db ids rows → (∀ k, is_in k.1 ids = true → t !! k = None) →
  foldl (λ t (r : Z * Z * Z * Z), match find_demande db r.1.1.1 with
                                  | Some d => upsert_pair (d_agency d) r.1.2 r.2 (pair_key r) t | None => t end)
    t (within_limit limit (ranked rows)) !! k
  = if is_in k.1 ids
    then (λ r : Z * Z * Z * Z, mkPair (agency_of db k.1) no_shadow r.1.2 r.2)
           <$> List.find (λ r, bool_decide (pair_key r = k)) (ranking sql_lower limit db k.1)
    else t !! k.
Proof.
  intros Hdb Hs Hfree.
  rewrite (foldl_ext_in _ (λ t r, <[pair_key r := mkPair (agency_of db r.1.1.1) (default no_shadow (mp_shadow <$> t !! pair_key r)) r.1.2 r.2]> t)).
  2: { intros t' r Hr%within_sub. destruct (ranked_match _ _ Hdb _ _ _ Hs Hr) as (d & o & Hd & _ & _ & _ & E).
       unfold pair_key in E. unfold agency_of. rewrite E. cbn. change (find_demande db (d_id d)) with (demande_of db (d_id d)).
       by rewrite (demande_of_elem db Hdb d Hd). }
  rewrite (foldl_upsert pair_key (λ r old, mkPair (agency_of db r.1.1.1) (default no_shadow (mp_shadow <$> old)) r.1.2 r.2))
    by (eapply scores_ranked_NoDup; eauto).
  rewrite (find_kept sql_lower limit db Hdb _ _ _ Hs). destruct (is_in k.1 ids) eqn:Ek; [|done]. rewrite Hfree by done.
  destruct (List.find _ _) as [r|] eqn:E; [|done]. apply (find_key_Some pair_key) in E as [_ <-]. done.
Qed.

Lemma cleared_lookup {V} (ids : list Z) (t : gmap (Z * Z) V) (k : Z * Z) :
  normalized ids = ids → ids ≠ [] →
  filter (λ kv : (Z * Z) * V, chosen None ids kv.1 = false) t !! k = if is_in k.1 ids then None else t !! k.
Proof.
  intros Hn Hne. destruct (is_in k.1 ids) eqn:Ek.
  - apply map_lookup_filter_None. right. intros v _. cbn. rewrite chosen_ids by done. by rewrite Ek.
  - destruct (t !! k) as [v|] eqn:Ev; [|apply map_lookup_filter_None; by left].
    apply map_lookup_filter_Some. split; [done|]. cbn. by rewrite chosen_ids.
Qed.
(** The shadows of the rows that were stored. *)
Lemma pairs_refresh_kept (db : match_db) (ids : list Z) (counts : gmap Z Z) (t : gmap (Z * Z) pair_row) (old : gmap (Z * Z) pair_row) :
  tables_ok db → normalized ids = ids →
  counts = list_to_map (map (λ i, (i, pair_total (spec_counts sql_lower limit db i))) ids) →
  (∀ k, t !! k = if is_in k.1 ids
     then (λ r : Z * Z * Z * Z, mkPair (agency_of db k.1) no_shadow r.1.2 r.2)
            <$> List.find (λ r, bool_decide (pair_key r = k)) (ranking sql_lower limit db k.1)
     else old !! k) →
  ∀ k, refreshed (λ sh p, mkPair (mp_agency p) sh (mp_score p) (mp_rank p))
         (λ k, match positive_totals counts with [] => false | v => chosen None v k end) db t !! k
       = if is_in k.1 ids then spec_pair sql_lower limit db k else old !! k.
Proof.
  intros Hdb Hn -> Ht k. rewrite refreshed_lookup, Ht, visible_chosen by done.
  destruct (is_in k.1 ids) eqn:Ek; cbn [andb]; [|by destruct (old !! k)]. unfold spec_pair, with_rows.
  destruct (List.find _ _) as [r|] eqn:Er; cbn [fmap option_fmap option_map];
    [|by destruct (demande_of db k.1), (by_key o_id k.2 (db_offers db))].
  apply (find_key_Some pair_key) in Er as [Hr Hk].
  assert (0 < pair_total (spec_counts sql_lower limit db k.1)) as Hpos%Z.ltb_lt.
  { cbn. destruct (ranking _ _ _ _); [by apply elem_of_nil in Hr|]. cbn. lia. }
  rewrite Hpos. apply within_sub in Hr. unfold agency_of.
  apply (list_elem_of_fmap_2 pair_key) in Hr. change (pair_key <$> ?l) with (map pair_key l) in Hr.
  rewrite pair_keys_of_ranking in Hr. apply elem_of_map in Hr as (x & Ek' & Hx). unfold wanted in Hx.
  change (find_demande db k.1) with (demande_of db k.1). change (find_offer db k.2) with (by_key o_id k.2 (db_offers db)).
  destruct (demande_of db k.1) as [d|]; [|by apply elem_of_nil in Hx].
  apply elem_of_scored_offers in Hx as (o & Ho & _ & ->). rewrite Hk in Ek'. rewrite Ek'. cbn.
  by rewrite (offer_of_elem db Hdb o Ho).
Qed.
Lemma scored_candidates_same db db' ids :
  same_rows db db' → db_candidates db' = db_candidates db → scored_candidates sql_lower ids db' = scored_candidates sql_lower ids db.
Proof.
  intros Hs Hc. unfold scored_candidates, stored, candidate_keys. rewrite Hc.
  pose proof Hs as (_ & -> & -> & -> & _ & _). apply map_ext. intros [d o]. by rewrite (score_same _ _ _ Hs).
Qed.
Lemma pairs_run db ids :
  tables_ok db → normalized ids = ids → ids ≠ [] → exact_for ids db →
  ∃ db2, rebuild_pairs_for_demandes_from_candidates_sql sql_lower ids limit db
         = (Ok (sum_over (λ i, pair_total (spec_counts sql_lower limit db i)) (positive_ids ids),
                sum_over (λ i, ranked_total (spec_counts sql_lower limit db i)) (positive_ids ids),
                list_to_map (map (λ i, (i, (pair_total (spec_counts sql_lower limit db i),
                                            ranked_total (spec_counts sql_lower limit db i)))) ids)), db2)
    ∧ same_rows db db2 ∧ db_counts db2 = db_counts db ∧ db_candidates db2 = db_candidates db
    ∧ ∀ k, db_pairs db2 !! k = if is_in k.1 ids then spec_pair sql_lower limit db k else db_pairs db !! k.
Proof.
  intros Hdb Hn Hne Hex. unfold rebuild_pairs_for_demandes_from_candidates_sql. rewrite Hn.
  destruct ids as [|i0 l0] eqn:Ei; [done|]. rewrite <- Ei in *. clear Ei i0 l0. unfold clear_pairs. rewrite bind_modify, bind_gets.
  set (db0 := set_pairs _ db). rewrite (scored_candidates_same db db0 ids) by done.
  pose proof (scored_candidates_scores db ids Hdb Hex) as Hs. set (rows := scored_candidates sql_lower ids db) in *.
  rewrite bind_modify. set (db2 := set_pairs _ db0).
  assert (totals ids (map pair_key (within_limit limit (ranked rows)))
          = list_to_map (map (λ i, (i, pair_total (spec_counts sql_lower limit db i))) ids)) as Hkept.
  { rewrite totals_fun. apply list_to_map_fun_ext. intros i Hi%is_in_true. rewrite length_filter_tag. by apply (count_kept _ _ _ Hdb ids). }
  assert (totals ids (map pair_key (ranked rows))
          = list_to_map (map (λ i, (i, ranked_total (spec_counts sql_lower limit db i))) ids)) as Hall.
  { rewrite totals_fun. apply list_to_map_fun_ext. intros i Hi%is_in_true. rewrite length_filter_tag. by apply (count_ranked _ _ _ Hdb ids). }
  destruct (total_ranked sql_lower limit db Hdb (positive_ids ids) rows) as [-> ->].
  { apply positive_ids_NoDup. }
  { eapply scores_ext; [|exact Hs]. intros i. rewrite <- Hn at 1. by rewrite normalized_elem, positive_ids_elem. }
  assert (∀ k, db_pairs db0 !! k = if is_in k.1 ids then None else db_pairs db !! k) as H0 by (intros k; by apply cleared_lookup).
  assert (∀ k, is_in k.1 ids = true → db_pairs db0 !! k = None) as Hfree by (intros k Hk; by rewrite H0, Hk).
  pose proof (λ k, upserts_lookup db ids rows (db_pairs db0) k Hdb Hs Hfree) as Ht.
  set (counts := totals ids (map pair_key (within_limit limit (ranked rows)))) in *.
  pose proof (pairs_refresh_kept db ids counts (db_pairs db2) (db_pairs db0) Hdb Hn Hkept Ht) as Hfin.
  set (t3 := refreshed _ _ _ _) in Hfin.
  exists (set_pairs (λ _, t3) db2). split_and!; [|done..|].
  - destruct (positive_totals counts) as [|v0 v1] eqn:Ev.
    + rewrite bind_ret. assert (t3 = db_pairs db2) as -> by (apply map_eq; intros k; unfold t3; rewrite refreshed_lookup; by destruct (db_pairs db2 !! k)).
      unfold ret. f_equal. f_equal. f_equal. apply list_to_map_fun_ext. intros i Hi%is_in_true.
      by rewrite Hkept, Hall, !list_to_map_lookup_fun, Hi.
    + unfold pairs_update_visibility_cache. rewrite bind_modify. unfold ret. f_equal. f_equal. f_equal.
      apply list_to_map_fun_ext. intros i Hi%is_in_true. by rewrite Hkept, Hall, !list_to_map_lookup_fun, Hi.
  - intros k. cbn. rewrite Hfin, H0. by destruct (is_in k.1 ids).
Qed.
End Legacy.

Section Both.
Context (sql_lower : string → string) (limit : option Z).

Lemma legacy_run db ids :
  tables_ok db → normalized ids = ids → ids ≠ [] →
  ∃ db', (let! cands := replace_candidates_for_demandes_from_match_query ids in
          let! r := rebuild_pairs_for_demandes_from_candidates_sql sql_lower ids limit in
          let per := list_to_map (map (λ i, (i, mkCounts (default 0 (cands !! i)) (default (0, 0) (r.2 !! i)).2
                                                  (default (0, 0) (r.2 !! i)).1)) ids) : gmap Z artifact_counts in
          ret (mkBatch (sum_over (λ kv : Z * artifact_counts, candidate_total kv.2) (map_to_list per)) r.1.2 r.1.1 per)) db
         = (Ok (expected sql_lower limit db (positive_ids ids)), db')
    ∧ rebuilt sql_lower limit (positive_ids ids) db db'.
Proof.
  intros Hdb Hn Hne. destruct (candidates_run sql_lower limit db ids Hdb Hn Hne) as (db1 & E1 & Hsame & Hcnt & Hpairs & Hc).
  rewrite (bind_ok _ _ _ _ _ E1). destruct (spec_same sql_lower limit _ _ Hsame) as (Sc & Sp & St).
  pose proof (tables_respec ids _ _ Hsame Hc Hdb) as Hdb1.
  destruct (pairs_run sql_lower limit db1 ids Hdb1 Hn Hne) as (db2 & E2 & Hsame2 & Hcnt2 & Hcand2 & Hp2).
  { intros k Hk. by rewrite Hc, Hk, Sc. }
  rewrite (bind_ok _ _ _ _ _ E2). exists db2.
  assert (∀ i, is_in i (positive_ids ids) = is_in i ids) as Hin by (intros i; by rewrite <- is_in_normalized, Hn).
  split.
  - unfold ret, expected. f_equal. f_equal. cbn [fst snd].
    match goal with |- mkBatch _ _ _ ?m = _ => assert (m = list_to_map (map (λ i, (i, spec_counts sql_lower limit db i)) (positive_ids ids))) as Hm end.
    { apply map_eq. intros i. rewrite !list_to_map_lookup_fun, Hin. destruct (is_in i ids); [|done]. by rewrite !St. }
    rewrite Hm. f_equal.
    + rewrite (sum_over_perm _ _ _ (map_to_list_fun _ _ (positive_ids_NoDup ids))). by rewrite sum_over_map.
    + apply sum_over_ext. intros i _. by rewrite St.
    + apply sum_over_ext. intros i _. by rewrite St.
  - split.
    + destruct Hsame as (? & ? & ? & ? & ? & ?), Hsame2 as (? & ? & ? & ? & ? & ?). split_and!; congruence.
    + congruence.
    + intros k. by rewrite Hcand2, Hc, Hin.
    + intros k. rewrite Hp2, Hin, Hpairs, Sp. done.
Qed.
Lemma compute_run mode db ids :
  tables_ok db →
  ∃ db', compute_match_artifacts_for_demandes sql_lower mode ids limit db = (Ok (expected sql_lower limit db (positive_ids ids)), db')
    ∧ rebuilt sql_lower limit (positive_ids ids) db db'.
Proof.
  intros Hdb. unfold compute_match_artifacts_for_demandes. pose proof (normalized_idem ids) as Hi. rewrite <- normalized_positive.
  destruct (normalized ids) as [|i l] eqn:E; [exists db; split; [done|apply rebuilt_nil]|]. rewrite <- E in *.
  destruct mode; [by apply direct_run|]. apply legacy_run; [done|done|by rewrite E].
Qed.

(** *** Ranks *)

(** [better] and not the same. *)
Definition beats (a b : Z * Z) : bool := better a b && negb (bool_decide (a = b)).
Lemma beats_irrefl a : beats a a = false.
Proof. unfold beats. rewrite bool_decide_true by done. apply andb_false_r. Qed.
Lemma numbered_sorted (l : list (Z * Z)) n x r :
  StronglySorted (λ a b, better a b = true) l → NoDup l →
  (x, r) ∈ numbered n l ↔ x ∈ l ∧ r = n + Z.of_nat (List.length (List.filter (λ y, beats y x) l)).
Proof.
  intros Hs. revert n. induction Hs as [|y l Hs IH Hy]; intros n; cbn [numbered List.filter].
  { intros _. split; [by intros ?%elem_of_nil|by intros [?%elem_of_nil _]]. }
  intros [Hny Hn]%NoDup_cons. rewrite Forall_forall in Hy. rewrite !elem_of_cons, (IH (n + 1) Hn).
  assert (∀ z, z ∈ l → beats z y = false) as Hhead.
  { intros z Hz. unfold beats. destruct (better z y) eqn:E; [|done]. rewrite (better_antisym y z) by auto. by rewrite bool_decide_true. }
  split.
  - intros [[= -> ->]|[Hx ->]].
    + split; [by left|]. rewrite beats_irrefl, filter_none; [cbn; lia|]. apply Forall_forall. auto.
    + split; [by right|]. assert (beats y x = true) as ->; [|cbn [List.length]; lia].
      unfold beats. rewrite Hy by done. rewrite bool_decide_false; [done|]. by intros ->.
  - intros [[->|Hx] ->].
    + left. rewrite beats_irrefl, filter_none; [f_equal; cbn; lia|]. apply Forall_forall. auto.
    + right. split; [done|]. assert (beats y x = true) as ->; [|cbn [List.length]; lia].
      unfold beats. rewrite Hy by done. rewrite bool_decide_false; [done|]. by intros ->.
Qed.
(** The rank of an offer among the matches of a demande. *)
Definition rank_of (db : match_db) (d : demande) (o : offer) : Z :=
  1 + Z.of_nat (List.length (List.filter (λ y, beats y (o_id o, SCORE_SQL sql_lower db d o)) (scored_offers sql_lower db d))).
Definition within (rank : Z) : bool := match limit with Some n => rank <=? n | None => true end.

Lemma filter_length_perm {A} (p : A → bool) l l' : l ≡ₚ l' → List.length (List.filter p l) = List.length (List.filter p l').
Proof.
  induction 1 as [|x l l' _ IH|x y l|l l' l'' _ IH1 _ IH2]; cbn; [done| | |by rewrite IH1].
  - destruct (p x); cbn; by rewrite IH.
  - by destruct (p x), (p y).
Qed.
Lemma ranking_elem db d i s r :
  tables_ok db → d ∈ db_demandes db →
  (d_id d, i, s, r) ∈ ranking sql_lower limit db (d_id d) ↔
  (i, s) ∈ scored_offers sql_lower db d ∧ r = 1 + Z.of_nat (List.length (List.filter (λ y, beats y (i, s)) (scored_offers sql_lower db d)))
  ∧ within r = true.
Proof.
  intros Hdb Hd. unfold ranking, wanted. rewrite (demande_of_elem db Hdb d Hd).
  assert ((d_id d, i, s, r) ∈ within_limit limit (ranking_of (d_id d) (scored_offers sql_lower db d))
          ↔ (d_id d, i, s, r) ∈ ranking_of (d_id d) (scored_offers sql_lower db d) ∧ within r = true) as ->.
  { unfold within, within_limit. destruct limit as [n|]; [|tauto]. rewrite elem_of_filter_b. cbn. tauto. }
  assert ((d_id d, i, s, r) ∈ ranking_of (d_id d) (scored_offers sql_lower db d)
          ↔ ((i, s), r) ∈ numbered 1 (ssort better (scored_offers sql_lower db d))) as ->.
  { unfold ranking_of. rewrite elem_of_map. split; [by intros ([[? ?] ?] & [= -> -> ->] & ?)|]. intros H. by exists ((i, s), r). }
  rewrite numbered_sorted.
  - rewrite (filter_length_perm _ _ _ (ssort_perm better (scored_offers sql_lower db d))), (ssort_perm better). tauto.
  - apply ssort_sorted; [exact better_total|exact better_trans].
  - rewrite ssort_perm. eapply NoDup_of_map, scored_offers_NoDup, Hdb.
Qed.
Lemma spec_pair_rank db d o :
  tables_ok db → d ∈ db_demandes db → o ∈ db_offers db →
  spec_pair sql_lower limit db (d_id d, o_id o)
  = if matches db d o && within (rank_of db d o)
    then Some (mkPair (d_agency d) (shadow_of d o) (SCORE_SQL sql_lower db d o) (rank_of db d o)) else None.
Proof.
  intros Hdb Hd Ho. unfold spec_pair, with_rows. cbn [fst snd]. rewrite (demande_of_elem db Hdb d Hd), (offer_of_elem db Hdb o Ho).
  assert (∀ s, (o_id o, s) ∈ scored_offers sql_lower db d ↔ matches db d o = true ∧ s = SCORE_SQL sql_lower db d o) as Hsc.
  { intros s. rewrite elem_of_scored_offers. split.
    - intros (o' & Ho' & Hm & [= E ->]). assert (o = o') as -> by (eapply (NoDup_map_inj_on o_id); eauto; apply Hdb). done.
    - intros [Hm ->]. eauto. }
  destruct (List.find _ _) as [r|] eqn:E; cbn.
  - apply (find_key_Some pair_key) in E as [Hr Hk]. destruct r as [[[di oi] s] r]. unfold pair_key in Hk. injection Hk as -> ->.
    apply ranking_elem in Hr as ([Hm ->]%Hsc & -> & Hw); [|done..]. cbn. unfold rank_of. by rewrite Hm, Hw.
  - destruct (matches db d o && within (rank_of db d o)) eqn:Em; [|done]. apply andb_true_iff in Em as [Hm Hw].
    apply (find_key_None pair_key) in E. destruct E. apply elem_of_map.
    exists (d_id d, o_id o, SCORE_SQL sql_lower db d o, rank_of db d o). split; [done|].
    apply ranking_elem; [done..|]. split_and!; [by apply Hsc|done|done].
Qed.
End Both.
