(* ===== verification/MatchPipelineProps.v ===== *)
(** * What a rebuild of the matches leaves

    The two pipelines are one function; what they store for a demande is what matches, ranked, and
    a page of stored matches is a page of the ranking. *)

From S2P Require Import Prelude Keyset PyValue PyFloat RebuildState RebuildProps Matching MatchArtifacts MatchingProps MatchArtifactProps.
From Stdlib Require Import QArith String.
Local Open Scope Z_scope.

Lemma rebuilt_unique sql_lower limit ids db db1 db2 :
  rebuilt sql_lower limit ids db db1 → rebuilt sql_lower limit ids db db2 → db1 = db2.
Proof.
  intros [(?&?&?&?&?&?) ? Hc1 Hp1] [(?&?&?&?&?&?) ? Hc2 Hp2].
  assert (db_candidates db1 = db_candidates db2) by (apply map_eq; intros k; by rewrite Hc1, Hc2).
  assert (db_pairs db1 = db_pairs db2) by (apply map_eq; intros k; by rewrite Hp1, Hp2).
  destruct db1, db2. cbn in *. by subst.
Qed.

(** C10. The pipeline in one statement and the pipeline in several are the same function: for any
    demandes and any limit they leave the same tables and return the same counts, and neither fails. *)
Theorem pipelines_agree sql_lower ids limit db :
  tables_ok db →
  compute_match_artifacts_for_demandes sql_lower Direct ids limit db
  = compute_match_artifacts_for_demandes sql_lower Legacy ids limit db
  ∧ ∃ result db', compute_match_artifacts_for_demandes sql_lower Direct ids limit db = (Ok result, db').
Proof.
  intros Hdb. destruct (compute_run sql_lower limit Direct db ids Hdb) as (db1 & E1 & H1).
  destruct (compute_run sql_lower limit Legacy db ids Hdb) as (db2 & E2 & H2).
  rewrite E1, E2, (rebuilt_unique _ _ _ _ _ _ H1 H2). eauto.
Qed.

(** C9. A rebuild is exact.  After it, a demande that was asked for has an offer among its candidates
    when the two match, and as a pair when moreover its rank, one more than the number of matching offers that
    score better or as well with a smaller id, is within the limit; both rows carry the agency of
    the demande, the owners and visibilities of the two, and the pair its score and rank.  The
    matches of other demandes have not changed. *)
Theorem rebuild_is_exact sql_lower mode ids limit db db' :
  tables_ok db →
  db' = (compute_match_artifacts_for_demandes sql_lower mode ids limit db).2 →
  (∀ d o, d ∈ db_demandes db → o ∈ db_offers db → d_id d ∈ ids →
    db_candidates db' !! (d_id d, o_id o)
    = (if matches db d o then Some (mkCandidate (d_agency d) (shadow_of d o)) else None)
    ∧ db_pairs db' !! (d_id d, o_id o)
      = if matches db d o && within limit (rank_of sql_lower db d o)
        then Some (mkPair (d_agency d) (shadow_of d o) (SCORE_SQL sql_lower db d o) (rank_of sql_lower db d o)) else None)
  ∧ (∀ k, k.1 ∉ ids → db_candidates db' !! k = db_candidates db !! k ∧ db_pairs db' !! k = db_pairs db !! k).
Proof.
  intros Hdb ->. destruct (compute_run sql_lower limit mode db ids Hdb) as (db1 & -> & [_ _ Hc Hp]). cbn [snd]. split.
  - intros d o Hd Ho Hin. rewrite Hc, Hp. cbn [fst].
    rewrite (proj2 (is_in_true (d_id d) (positive_ids ids))) by (apply positive_ids_elem; split; [done|by apply Hdb]).
    by rewrite spec_candidate_rows, spec_pair_rank.
  - intros k Hk. rewrite Hc, Hp. destruct (is_in k.1 (positive_ids ids)) eqn:E; [|done].
    apply is_in_true, positive_ids_elem in E as [? _]. done.
Qed.

(** ** Pages *)

Lemma map_ssort {A B} (f : A → B) (le : B → B → bool) l : map f (ssort (λ a b, le (f a) (f b)) l) = ssort le (map f l).
Proof.
  induction l as [|x l IH]; [done|]. cbn. fold (ssort (λ a b, le (f a) (f b)) l). fold (ssort le (map f l)). rewrite <- IH.
  generalize (ssort (λ a b, le (f a) (f b)) l). clear. intros l. induction l as [|y l IH]; [done|]. cbn.
  destruct (le (f x) (f y)); [done|]. cbn. by rewrite IH.
Qed.
Lemma sorted_map {A B} (f : A → B) (R : B → B → Prop) l :
  StronglySorted (λ a b, R (f a) (f b)) l → StronglySorted R (map f l).
Proof. induction 1 as [|x l Hs IH Hx]; cbn; constructor; [done|]. apply Forall_map. exact Hx. Qed.
Lemma sorted_numbered {A} (R : A → A → Prop) l n : StronglySorted R l → StronglySorted (λ a b : A * Z, R a.1 b.1) (numbered n l).
Proof.
  intros Hs. revert n. induction Hs as [|x l Hs IH Hx]; intros n; cbn; constructor; [apply IH|].
  apply Forall_forall. intros [y m] Hy. cbn. eapply Forall_forall in Hx; [exact Hx|]. rewrite <- (numbered_fst (n + 1) l). apply elem_of_map. by exists (y, m).
Qed.

(** What a page shows of a pair, and its order. *)
Definition shown (x : Z * pair_row) : Z * Z * Z := (x.1, mp_score x.2, mp_rank x.2).
Definition shown_rank (r : Z * Z * Z * Z) : Z * Z * Z := (r.1.1.2, r.1.2, r.2).
Definition earlier (a b : Z * Z * Z) : bool := better a.1 b.1.

Section Pages.
Context (sql_lower : string → string) (limit : option Z) (db : match_db) (Hdb : tables_ok db).

Lemma ranking_sorted i : StronglySorted (λ a b, earlier a b = true) (map shown_rank (ranking sql_lower limit db i)).
Proof.
  apply sorted_map. unfold ranking, within_limit, ranking_of.
  assert (StronglySorted (λ a b : Z * Z * Z * Z, earlier (shown_rank a) (shown_rank b) = true)
    (map (λ x : (Z * Z) * Z, (i, x.1.1, x.1.2, x.2)) (numbered 1 (ssort better (wanted sql_lower db i))))) as H.
  { apply sorted_map. unfold earlier, shown_rank. cbn.
    pose proof (sorted_numbered _ _ 1 (ssort_sorted better better_total better_trans (wanted sql_lower db i))) as H.
    exact H. }
  destruct limit; [by apply filter_sorted|done].
Qed.
Lemma ranking_shown_elem d x :
  d ∈ db_demandes db →
  x ∈ map shown_rank (ranking sql_lower limit db (d_id d)) ↔
  ∃ p, spec_pair sql_lower limit db (d_id d, x.1.1) = Some p ∧ x = shown (x.1.1, p).
Proof.
  intros Hd. rewrite elem_of_map. split.
  - intros ([[[i oi] s] r] & -> & Hr). assert (i = d_id d) as ->.
    { apply within_sub, ranking_of_tag in Hr. exact Hr. }
    apply ranking_elem in Hr as (Hs & Hr & Hw); [|done..]. apply elem_of_scored_offers in Hs as (o & Ho & Hm & [= -> ->]).
    cbn. rewrite spec_pair_rank by done. unfold rank_of. rewrite <- Hr, Hm, Hw. eauto.
  - intros (p & Hp & Hx). unfold spec_pair, with_rows in Hp. cbn in Hp. rewrite demande_of_elem in Hp by done.
    destruct (by_key o_id x.1.1 (db_offers db)) as [o|] eqn:Eo; [|done]. apply by_key_Some in Eo as [Ho Eo].
    destruct (List.find _ _) as [r|] eqn:Ef; [|done]. injection Hp as <-. apply (find_key_Some pair_key) in Ef as [Hr Hk].
    exists r. split; [|done]. rewrite Hx. unfold shown, shown_rank. cbn. unfold pair_key in Hk. by rewrite Hk.
Qed.
Lemma ranking_NoDup d : d ∈ db_demandes db → NoDup (map pair_key (ranking sql_lower limit db (d_id d))).
Proof.
  intros Hd. apply within_NoDup. rewrite pair_keys_of_ranking. unfold wanted. rewrite demande_of_elem by done.
  apply (NoDup_of_map snd). rewrite map_map. by apply scored_offers_NoDup.
Qed.
Lemma pairs_of_rebuilt ids db' d :
  rebuilt sql_lower limit ids db db' → d ∈ db_demandes db → d_id d ∈ ids →
  map shown (pairs_of db' (d_id d)) = map shown_rank (ranking sql_lower limit db (d_id d)).
Proof.
  intros [_ _ _ Hp] Hd Hin.
  assert (∀ j, db_pairs db' !! (d_id d, j) = spec_pair sql_lower limit db (d_id d, j)) as Hp'.
  { intros j. rewrite Hp. cbn. by rewrite (proj2 (is_in_true _ _) Hin). }
  unfold pairs_of. rewrite (map_ssort shown earlier).
  apply (sorted_unique earlier).
  - intros x y. rewrite !(ssort_perm earlier), !elem_of_map. intros (a & -> & Ha) (b & -> & Hb).
    apply elem_of_map in Ha as ([ka va] & -> & Ha), Hb as ([kb vb] & -> & Hb). unfold earlier. cbn.
    intros H1 H2. pose proof (better_antisym _ _ H1 H2) as [= E _].
    apply elem_of_filter_b in Ha as [Ea Ha], Hb as [Eb Hb]. cbn in Ea, Eb. apply Z.eqb_eq in Ea, Eb.
    apply elem_of_map_to_list in Ha, Hb. assert (ka = kb) as -> by (destruct ka, kb; cbn in *; congruence).
    congruence.
  - apply ssort_sorted; unfold earlier; intros; [by apply better_total|by eapply better_trans].
  - apply ranking_sorted.
  - rewrite (ssort_perm earlier). apply NoDup_Permutation; [| |intros x].
    + apply (NoDup_of_map (λ x : Z * Z * Z, (d_id d, x.1.1))). rewrite !map_map. cbn.
      rewrite (map_ext_in _ fst); [apply NoDup_map_filter; exact (NoDup_fst_map_to_list (db_pairs db'))|].
      intros [[i oi] p] [<-%Z.eqb_eq _]%list_elem_of_In%elem_of_filter_b. done.
    + apply (NoDup_of_map (λ x : Z * Z * Z, (d_id d, x.1.1))). rewrite map_map.
      rewrite (map_ext_in _ pair_key); [by apply ranking_NoDup|].
      intros [[[i oi] s] r] <-%list_elem_of_In%within_sub%ranking_of_tag. done.
    + rewrite ranking_shown_elem by done. rewrite map_map, elem_of_map.
      setoid_rewrite elem_of_filter_b. setoid_rewrite Z.eqb_eq. rewrite <- (Hp' x.1.1). split.
      * intros ([[i oi] p] & -> & <- & Hk%elem_of_map_to_list). cbn. by exists p.
      * intros (p & Hk & ->). exists ((d_id d, x.1.1), p). split_and!; [done..|]. by apply elem_of_map_to_list.
Qed.
End Pages.

(** The pages of the matches of a demande.  A page read after the rebuild is that page of the list
    of its matching offers, best score first and smallest id first among equals, cut at the
    limit: reading pages in order neither skips nor repeats an offer, and each shows its rank. *)
Theorem pages_follow_the_ranking sql_lower mode ids limit db d n k :
  tables_ok db → d ∈ db_demandes db → d_id d ∈ ids →
  (let! _ := compute_match_artifacts_for_demandes sql_lower mode ids limit in fetch_pairs (d_id d) n k : DM _) db
  = (Ok (page n k (map shown_rank (ranking sql_lower limit db (d_id d)))),
     (compute_match_artifacts_for_demandes sql_lower mode ids limit db).2).
Proof.
  intros Hdb Hd Hin. destruct (compute_run sql_lower limit mode db ids Hdb) as (db' & E & Hr).
  rewrite (bind_ok _ _ _ _ _ E), E. unfold fetch_pairs, gets. cbn [snd]. f_equal. f_equal.
  rewrite <- (pairs_of_rebuilt sql_lower limit db Hdb _ db' d Hr Hd) by (apply positive_ids_elem; split; [done|by apply Hdb]).
  unfold page. change (map shown) with (fmap (M := list) shown). by rewrite <- fmap_drop, <- fmap_take.
Qed.

(** ** An agency with two demandes *)

Module Demo.
Definition client1 : client := mkClient 1 7 "active" (Some "agency") (Some 3) None.
Definition q (z : Z) : Q := inject_Z z.
(** A purchase of a flat, in place 5. *)
Definition demande1 : demande :=
  mkDemande 1 1 7 (Some "Appartement ") 2 ACTION_ID_BUY 16 2 (q 60) (q 100) (mkRange None (Some (q 100)))
    (mkRange (Some (q 60)) None) (mkRange (Some 2) None) None None (Some 4) (Some 1) None (Some "agency") (Some 3) None.
(** The rent of a flat anywhere in wilaya 16. *)
Definition demande2 : demande :=
  mkDemande 2 1 7 None 2 ACTION_ID_RENT 16 0 (q 0) (q 0) (mkRange None None) (mkRange None None) (mkRange None None)
    None None None None None None None None.
Definition listing1 : listing := mkListing 1 7 "available" None.
Definition flat (id action : Z) (price surface : Z) : offer :=
  mkOffer id 1 7 (Some "appartement") 2 action "available" 16 3 (q surface) (q price)
    (Some (mkRange (Some (q price)) (Some (q price)))) None 2 1 0 (Some "agency") (Some 4) None.
Definition offer1 : offer := flat 1 ACTION_ID_SELL 90 70.
Definition offer2 : offer := flat 2 ACTION_ID_SELL 60 90.
Definition offer3 : offer := flat 3 ACTION_ID_RENT 40 80.
(** The stored matches are stale: offer 3 is no match of demande 1. *)
Definition db : match_db :=
  mkDb [client1] [demande1; demande2] [listing1] [offer1; offer2; offer3] [(1, 5)] [(1, 5); (2, 5); (2, 6)]
    {[(1, 3) := mkCandidate 7 (shadow_of demande1 offer3)]} {[(1, 3) := mkPair 7 (shadow_of demande1 offer3) 100 1]} ∅.

Lemma db_ok : tables_ok db.
Proof.
  split; try (apply (bool_decide_unpack _); vm_compute; exact I).
  - intros o Ho. exists listing1. split; [apply list_elem_of_here|]. cbn in Ho. by repeat (apply elem_of_cons in Ho as [->|Ho]); [..|apply elem_of_nil in Ho].
  - intros k [v Hk]. cbn in Hk. apply lookup_singleton_Some in Hk as [<- _]. split; apply (bool_decide_unpack _); vm_compute; exact I.
  - intros d Hd. cbn in Hd. by repeat (apply elem_of_cons in Hd as [->|Hd]); [..|apply elem_of_nil in Hd].
Qed.
End Demo.

Lemma pipelines_agree_witness :
  tables_ok Demo.db ∧
  compute_match_artifacts_for_demandes lower Direct [1; 2; -4] (Some 1) Demo.db
  = compute_match_artifacts_for_demandes lower Legacy [1; 2; -4] (Some 1) Demo.db.
Proof.
  split; [exact Demo.db_ok|]. exact (proj1 (pipelines_agree lower [1; 2; -4] (Some 1) Demo.db Demo.db_ok)).
Defined.
Lemma rebuild_is_exact_witness :
  let db' := (compute_match_artifacts_for_demandes lower Legacy [1] (Some 1) Demo.db).2 in
  db_pairs db' !! (1, 2) = Some (mkPair 7 (shadow_of Demo.demande1 Demo.offer2) 690 1)
  ∧ db_pairs db' !! (1, 1) = None ∧ is_Some (db_candidates db' !! (1, 1)) ∧ db_pairs db' !! (2, 3) = None.
Proof.
  intros db'. destruct (rebuild_is_exact lower Legacy [1] (Some 1) Demo.db db' Demo.db_ok eq_refl) as [H K].
  destruct (H Demo.demande1 Demo.offer2 ltac:(apply list_elem_of_here) ltac:(right; apply list_elem_of_here) ltac:(apply list_elem_of_here)) as [_ E2].
  destruct (H Demo.demande1 Demo.offer1 ltac:(apply list_elem_of_here) ltac:(apply list_elem_of_here) ltac:(apply list_elem_of_here)) as [E1 E1'].
  destruct (K (2, 3) ltac:(apply (bool_decide_unpack _); vm_compute; exact I)) as [_ E3].
  change (1, 2) with (d_id Demo.demande1, o_id Demo.offer2). change (1, 1) with (d_id Demo.demande1, o_id Demo.offer1).
  rewrite E2, E1, E1', E3. split_and!; [vm_compute; reflexivity|vm_compute; reflexivity|vm_compute; eauto|vm_compute; reflexivity].
Defined.
Lemma pages_follow_the_ranking_witness :
  ((let! _ := compute_match_artifacts_for_demandes lower Direct [1] None in fetch_pairs 1 1 1 : DM _) Demo.db).1 = Ok [(1, 503, 2)].
Proof.
  change 1 with (d_id Demo.demande1) at 2. rewrite (pages_follow_the_ranking lower Direct [1] None Demo.db Demo.demande1 1 1 Demo.db_ok).
  - vm_compute. reflexivity.
  - apply list_elem_of_here.
  - apply list_elem_of_here.
Defined.
