(* ===== verification/MatchCounts.v ===== *)
(** * The counts of matches of the clients

    Models the cache match_counts_cache, one row per client: src/core/data/match_cache_write.py,
    match_cache_read.py and the settings of src/core/config/match_cache.py; and the tasks that
    rebuild it, in src/server/api/tasks_match_cache.py, with the leases they hold
    (rebuild_leases.py) and [store_counts], [count_active_clients], [iter_active_client_batches]
    of tasks_core.py.

    A task reads pages of ids in one session and stores counts in transactions of its own; the
    sessions read what is committed.  The times at which a count was computed, the timeouts of the
    statements and the pauses between batches are left out, and so is the second form of the upsert,
    for a database where the first migration has not run. *)

From S2P Require Import Prelude Keyset PyValue PyFloat WorkLease RebuildLease RebuildState Matching MatchArtifacts.
Local Open Scope Z_scope.

(** ** Settings (core/config/match_cache.py) *)

(* src/core/config/match_cache.py :: _read_int *)
Definition _read_int (environ : list (string * string)) (name : string) (dflt minimum maximum : Z) : Z :=
  let raw := strip (default EmptyString (dget name environ)) in
  if str_empty raw then dflt
  else match parse_int raw with Some value => Z.max minimum (Z.min maximum value) | None => dflt end.

Class CountEnv := {
  count_environ : list (string * string);
  (** [resolve_hub_runtime_profile()]: limits.match_batch_size, and the batch size of
      [adaptive_batch_process]. *)
  hub_match_batch_size : Z;
  hub_default_batch_size : Z;
  (** [adaptive_chunk_size], of the memory that is free. *)
  adaptive_chunk : nat;
  hub_positive : 0 < hub_match_batch_size;
  adaptive_positive : (0 < adaptive_chunk)%nat
}.

Section Settings.
Context `{CountEnv}.
(* src/core/config/match_cache.py :: CACHE_BATCH_THRESHOLD *)
Definition CACHE_BATCH_THRESHOLD : Z := _read_int count_environ "CACHE_BATCH_THRESHOLD" 1000 100 50000.
(* src/core/config/match_cache.py :: CACHE_CHUNK_SIZE *)
Definition CACHE_CHUNK_SIZE : Z := _read_int count_environ "CACHE_CHUNK_SIZE" 5000 200 50000.
(* src/core/config/match_cache.py :: CACHE_DIRTY_MARK_CHUNK_SIZE *)
Definition CACHE_DIRTY_MARK_CHUNK_SIZE : Z := _read_int count_environ "CACHE_DIRTY_MARK_CHUNK_SIZE" 10000 1000 50000.
(* src/core/config/match_cache.py :: MATCH_CACHE_DB_BATCH_SIZE *)
Definition MATCH_CACHE_DB_BATCH_SIZE : Z :=
  Z.min (_read_int count_environ "MATCH_CACHE_DB_BATCH_SIZE" 1000 50 20000) hub_match_batch_size.
End Settings.

Definition set_counts (f : gmap Z count_row → gmap Z count_row) (db : match_db) : match_db :=
  mkDb (db_clients db) (db_demandes db) (db_listings db) (db_offers db) (db_demande_locations db)
    (db_offer_locations db) (db_candidates db) (db_pairs db) (f (db_counts db)).
Definition find_client (db : match_db) (i : Z) : option client := List.find (λ c, c_id c =? i) (db_clients db).

(** ** Writes (match_cache_write.py) *)

Section Writes.
Context `{CountEnv}.

Definition count_of_client (c : client) (count : Z) : count_row := mkCount count (c_visibility c) (c_owner c) false.
(* src/core/data/match_cache_write.py :: _upsert_count_rows *)
Definition _upsert_count_rows (rows : list (Z * count_row)) : DM unit :=
  for_each (λ r : Z * count_row, modify (set_counts <[r.1 := r.2]>)) rows.
Definition soil (r : count_row) : count_row := mkCount (cc_count r) (cc_visibility r) (cc_owner r) true.
(* src/core/data/match_cache_write.py :: _mark_rows_dirty *)
Definition _mark_rows_dirty (client_ids : list Z) : DM unit :=
  modify (set_counts (map_imap (λ i r, Some (if is_in i client_ids then soil r else r)))).
(* src/core/data/match_cache_write.py :: delete_client_cache *)
Definition delete_client_cache (client_id : Z) : DM unit := modify (set_counts (delete client_id)).
(* src/core/data/match_cache_write.py :: clear_all *)
Definition clear_all : DM unit := modify (set_counts (λ _, ∅)).

(* src/core/data/match_cache_write.py :: store_count *)
Definition store_count (client_id count : Z) : DM unit :=
  let! c := gets (λ db, find_client db client_id) in
  match c with
  | None => delete_client_cache client_id
  | Some c =>
      if negb (ACTIVE_CLIENT c) then delete_client_cache client_id
      else _upsert_count_rows [(client_id, count_of_client c count)]
  end.
(** The rows of the active clients of a chunk, by id. *)
Definition client_info (db : match_db) (chunk : list Z) : list client :=
  ssort (λ a b, c_id a <=? c_id b) (List.filter (λ c, ACTIVE_CLIENT c && is_in (c_id c) chunk) (db_clients db)).
(* src/core/data/match_cache_write.py :: store_counts_batch *)
Definition store_counts_batch (counts : gmap Z Z) : DM unit :=
  match positive_ids (map_to_list counts).*1 with
  | [] => ret tt
  | ids =>
      let! info := gets (λ db, flat_map (client_info db) (chunk_ids ids)) in
      let items := omap (λ i, (λ c, (i, count_of_client c (default 0 (counts !! i)))) <$> List.find (λ c, c_id c =? i) info) ids in
      if Z.of_nat (List.length items) <? CACHE_BATCH_THRESHOLD then _upsert_count_rows items
      else for_each _upsert_count_rows (chunks_of (List.length items) (Z.to_nat CACHE_CHUNK_SIZE) items)
  end.
(* src/core/data/match_cache_write.py :: mark_client_dirty *)
Definition mark_client_dirty (client_id : Z) : DM unit := _mark_rows_dirty [client_id].
(** [SELECT DISTINCT d.client_id FROM demandes d JOIN clients c ... WHERE p ORDER BY d.client_id] *)
Definition clients_of_demandes (p : demande → bool) (db : match_db) : list Z :=
  sorted_set (map d_client (List.filter (λ d, p d && ACTIVE_DEMANDE d && has_active_client db d) (db_demandes db))).
(* src/core/data/match_cache_write.py :: mark_clients_for_demande_ids_dirty *)
Definition mark_clients_for_demande_ids_dirty (demande_ids : list Z) : DM unit :=
  for_each (λ chunk, let! ids := gets (clients_of_demandes (λ d, is_in (d_id d) chunk)) in _mark_rows_dirty ids)
    (chunk_ids (positive_ids demande_ids)).
(** With the id of the wilaya, when it is known; [d.wilaya_id IS NULL] never holds. *)
(* src/core/data/match_cache_write.py :: mark_clients_in_wilaya_dirty *)
Definition mark_clients_in_wilaya_dirty (resolved_id : option Z) : DM unit :=
  match resolved_id with
  | None => ret tt
  | Some w =>
      let! fuel := gets (λ db, S (List.length (db_demandes db))) in
      let! _ := keyset fuel
        (λ last, gets (λ db, page_after (Z.to_nat CACHE_DIRTY_MARK_CHUNK_SIZE) last
                               (clients_of_demandes (λ d, d_wilaya_id d =? w) db)))
        _mark_rows_dirty 0 in
      ret tt
  end.
Definition count_ids (p : count_row → bool) (db : match_db) : list Z :=
  (List.filter (λ kv : Z * count_row, p kv.2) (map_to_list (db_counts db))).*1.
(* src/core/data/match_cache_write.py :: mark_all_dirty *)
Definition mark_all_dirty : DM unit :=
  let! fuel := gets (λ db, S (size (db_counts db))) in
  let! _ := keyset fuel
    (λ last, gets (λ db, page_after (Z.to_nat CACHE_DIRTY_MARK_CHUNK_SIZE) last (count_ids (λ r, negb (cc_dirty r)) db)))
    _mark_rows_dirty 0 in
  ret tt.
End Writes.

(** ** Reads (match_cache_read.py) *)

Section Reads.
Context `{CountEnv}.

Definition active_clients (db : match_db) : list client := List.filter ACTIVE_CLIENT (db_clients db).
Definition missing_ids (db : match_db) : list Z :=
  map c_id (List.filter (λ c, bool_decide (db_counts db !! c_id c = None)) (active_clients db)).
(* src/core/data/match_cache_read.py :: CountStatus *)
Inductive count_status : Type := fresh | stale | missing.
Definition status_of (r : count_row) : count_status := if cc_dirty r then stale else fresh.

(* src/core/data/match_cache_read.py :: is_cache_clean *)
Definition is_cache_clean : DM bool :=
  gets (λ db, bool_decide (count_ids cc_dirty db = [])
              && bool_decide (List.length (active_clients db) = List.length (count_ids (λ r, negb (cc_dirty r)) db))).
(* src/core/data/match_cache_read.py :: get_dirty_count *)
Definition get_dirty_count : DM Z := gets (λ db, Z.of_nat (List.length (count_ids cc_dirty db))).
(* src/core/data/match_cache_read.py :: get_cached_count *)
Definition get_cached_count (client_id : Z) : DM (option Z) := gets (λ db, cc_count <$> db_counts db !! client_id).
(* src/core/data/match_cache_read.py :: get_cached_count_with_status *)
Definition get_cached_count_with_status (client_id : Z) : DM (Z * count_status) :=
  gets (λ db, match db_counts db !! client_id with
              | None => (0, missing)
              | Some r => (cc_count r, status_of r)
              end).
(* src/core/data/match_cache_read.py :: get_cached_counts_with_meta_for_ids *)
Definition get_cached_counts_with_meta_for_ids (client_ids : list Z) : DM (gmap Z Z * gmap Z count_status) :=
  let ids := positive_ids client_ids in
  let! found := each (λ batch, gets (λ db, omap (λ i, pair i <$> db_counts db !! i) batch))
                  (chunks_of (List.length ids) adaptive_chunk ids) in
  let rows := concat found in
  let meta := foldl (λ m r, <[r.1 := status_of r.2]> m) ∅ rows : gmap Z count_status in
  ret (foldl (λ m r, <[r.1 := cc_count r.2]> m) ∅ rows,
       foldl (λ m i, match m !! i with Some _ => m | None => <[i := missing]> m end) meta ids).
(* src/core/data/match_cache_read.py :: get_cached_count_for_ids *)
Definition get_cached_count_for_ids (client_ids : list Z) : DM (gmap Z Z) :=
  let! r := get_cached_counts_with_meta_for_ids client_ids in ret r.1.
(* src/core/data/match_cache_read.py :: get_missing_client_count *)
Definition get_missing_client_count : DM Z := gets (λ db, Z.of_nat (List.length (missing_ids db))).
(* src/core/data/match_cache_read.py :: get_dirty_client_count *)
Definition get_dirty_client_count : DM Z :=
  let! dirty := get_dirty_count in let! absent := get_missing_client_count in ret (dirty + absent).
(* src/core/data/match_cache_read.py :: _bounded_page_limit *)
Definition _bounded_page_limit (limit : Z) : Z := Z.min 5000 (if 0 <? limit then limit else 100).
(** (ids, next cursor, whether there are more) of a list of ids *)
Definition id_page (limit after_id : Z) (ids : list Z) : list Z * option Z * bool :=
  let bounded := _bounded_page_limit limit in
  let found := page_after (Z.to_nat (bounded + 1)) (Z.max 0 after_id) ids in
  let has_more := bounded <? Z.of_nat (List.length found) in
  let ids := if has_more then take (Z.to_nat bounded) found else found in
  (ids, (if has_more then last ids else None), has_more).
(* src/core/data/match_cache_read.py :: get_missing_client_ids_page *)
Definition get_missing_client_ids_page (limit after_id : Z) : DM (list Z * option Z * bool) :=
  gets (λ db, id_page limit after_id (missing_ids db)).
(* src/core/data/match_cache_read.py :: get_dirty_client_ids_page *)
Definition get_dirty_client_ids_page (limit after_id : Z) : DM (list Z * option Z * bool) :=
  gets (λ db, id_page limit after_id (count_ids cc_dirty db ++ missing_ids db)).
End Reads.

(** ** Rebuilds (tasks_match_cache.py) *)

(** The tables, the leases, and whether another task holds the advisory lock of the agency. *)
Record cache_world := mkCache { cw_db : match_db; cw_leases : list jlease; cw_locked : bool }.
Abbreviation CW := (M cache_world).
Definition on_db {A} (m : DM A) : CW A := λ s, ((m (cw_db s)).1, mkCache (m (cw_db s)).2 (cw_leases s) (cw_locked s)).
Definition on_leases {A} (m : JM A) : CW A := λ s, ((m (cw_leases s)).1, mkCache (cw_db s) (m (cw_leases s)).2 (cw_locked s)).
(** [with get_uow().transaction()] *)
Definition transaction {S A} (m : M S A) : M S A := λ s, match m s with (Err e, _) => (Err e, s) | r => r end.

(** Items in batches; the pauses between batches are left out. *)
(* src/server/api/adaptive_batch.py :: adaptive_batch_process *)
Definition adaptive_batch_process {S A} `{CountEnv} (items : list A) (process_fn : A → M S unit) (batch_size : Z) : M S Z :=
  let batch_size := if batch_size =? 100 then hub_default_batch_size else batch_size in
  if batch_size <=? 0 then raise (ValueError "batch_size must be > 0")
  else
    do! for_each (for_each process_fn) (chunks_of (List.length items) (Z.to_nat batch_size) items) in
    ret (Z.of_nat (List.length items)).

(** What a rebuild answers: how many clients, and a second figure or none; or that it was skipped. *)
Inductive rebuild_answer : Type := Skipped | Rebuilt (clients : Z) (second : option Z).

Section Rebuilds.
Context `{CountEnv} `{LeaseEnv}.
(** The transaction of a batch may fail: a statement times out. *)
Context (fault : list Z → option exn) (describe : exn → string).

(* src/server/api/tasks_core.py :: store_counts *)
Definition store_counts (counts : gmap Z Z) : DM Z :=
  if bool_decide (counts = ∅) then ret 0
  else do! store_counts_batch counts in ret (Z.of_nat (size counts)).
(* src/server/api/tasks_core.py :: count_active_clients *)
Definition count_active_clients : DM Z := gets (λ db, Z.of_nat (List.length (active_clients db))).
(* src/server/api/tasks_match_cache.py :: _mark_rebuild_task_running *)
Definition _mark_rebuild_task_running (now : Z) (task_id : option string) : CW unit :=
  match task_id with Some t => if str_empty t then ret tt else on_leases (mark_rebuild_running now t) | None => ret tt end.
(* src/server/api/tasks_match_cache.py :: _mark_rebuild_task_done *)
Definition _mark_rebuild_task_done (now : Z) (task_id : option string) : CW unit :=
  match task_id with Some t => if str_empty t then ret tt else on_leases (mark_rebuild_done now t) | None => ret tt end.
(* src/server/api/tasks_match_cache.py :: _mark_rebuild_task_failed *)
Definition _mark_rebuild_task_failed (now : Z) (task_id : option string) (e : exn) : CW unit :=
  match task_id with
  | Some t => if str_empty t then ret tt else on_leases (mark_rebuild_failed now t (describe e))
  | None => ret tt
  end.
(* src/server/api/tasks_match_cache.py :: _resolve_rebuild_task_id *)
Definition _resolve_rebuild_task_id (request_id lease_task_id : option string) : option string :=
  match lease_task_id with
  | Some t => if str_empty t then (if str_empty (strip (default EmptyString request_id)) then None else strip <$> request_id) else Some t
  | None => if str_empty (strip (default EmptyString request_id)) then None else strip <$> request_id
  end.

(** The frame of the four tasks, which run at [times]: the lease is marked running, then done or
    failed; [work] runs when the lock is free. *)
Definition rebuild_task (times : Z * Z) (task_id : option string) (agency_id : option Z) (work : CW rebuild_answer) :
    CW rebuild_answer :=
  match agency_id with
  | None => raise (ValueError "agency_id is required (tenant-scoped task)")
  | Some _ =>
      catch
        (do! _mark_rebuild_task_running times.1 task_id in
         let! held := gets cw_locked in
         if held then do! _mark_rebuild_task_done times.2 task_id in ret Skipped
         else let! answer := work in
              do! _mark_rebuild_task_done times.2 task_id in ret answer)
        (λ e, Some (do! _mark_rebuild_task_failed times.2 task_id e in raise e))
  end.

(* src/server/api/tasks_match_cache.py :: rebuild_match_cache_dirty [260-270] *)
Definition process_batch (batch : list Z) : CW Z :=
  transaction
    (let! counts := on_db (gets (λ db, batch_count_clients_paginated db batch)) in
     match fault batch with
     | Some e => raise e
     | None => on_db (store_counts counts)
     end).
(** A page in batches of 100; its counts stored, and its ids. *)
Definition process_page (page : list Z) : CW (Z * Z) :=
  let! stored := each process_batch (chunks_of (List.length page) 100 page) in
  ret (foldr Z.add 0 stored, Z.of_nat (List.length page)).
Definition db_page (ids : match_db → list Z) (last : Z) : CW (list Z) :=
  gets (λ s, page_after (Z.to_nat MATCH_CACHE_DB_BATCH_SIZE) last (ids (cw_db s))).
Definition sum_fst (l : list (Z * Z)) : Z := foldr Z.add 0 (map fst l).
Definition sum_snd (l : list (Z * Z)) : Z := foldr Z.add 0 (map snd l).

(* src/server/api/tasks_match_cache.py :: rebuild_match_cache_dirty *)
Definition rebuild_match_cache_dirty (times : Z * Z) (task_id : option string) (agency_id : option Z) : CW rebuild_answer :=
  rebuild_task times task_id agency_id
    (let! fuel := gets (λ s, S (size (db_counts (cw_db s)))) in
     let! dirty := keyset fuel (db_page (count_ids cc_dirty)) process_page 0 in
     let! fuel := gets (λ s, S (List.length (db_clients (cw_db s)))) in
     let! absent := keyset fuel (db_page missing_ids) process_page 0 in
     ret (Rebuilt (sum_fst dirty + sum_fst absent) (Some (sum_snd dirty + sum_snd absent)))).
(** The pages are those of [iter_active_client_batches]. *)
(* src/server/api/tasks_match_cache.py :: rebuild_match_cache_all *)
Definition rebuild_match_cache_all (times : Z * Z) (task_id : option string) (agency_id : option Z) : CW rebuild_answer :=
  rebuild_task times task_id agency_id
    (let! total := on_db count_active_clients in
     let! fuel := gets (λ s, S (List.length (db_clients (cw_db s)))) in
     let! pages := keyset fuel (db_page (λ db, map c_id (active_clients db))) process_page 0 in
     ret (Rebuilt (sum_fst pages) (Some total))).
(* src/server/api/tasks_match_cache.py :: rebuild_match_cache_client *)
Definition rebuild_match_cache_client (times : Z * Z) (task_id : option string) (agency_id : option Z) (client_id : Z) :
    CW rebuild_answer :=
  rebuild_task times task_id agency_id
    (let! count := on_db (let! count := gets (λ db, count_single_client_cte db client_id) in
                          do! store_count client_id count in ret count) in
     ret (Rebuilt count None)).
(** With the id of the wilaya, when the database knows it. *)
(* src/server/api/tasks_match_cache.py :: rebuild_match_cache_wilaya *)
Definition rebuild_match_cache_wilaya (times : Z * Z) (task_id : option string) (agency_id : option Z) (resolved_id : option Z) :
    CW rebuild_answer :=
  rebuild_task times task_id agency_id
    match resolved_id with
    | None | Some 0 => ret Skipped
    | Some w =>
        let! stored := on_db (let! counts := gets (λ db, count_clients_in_wilaya_cte db (Some w)) in store_counts counts) in
        ret (Rebuilt stored None)
    end.
End Rebuilds.
