(* ===== verification/MatchCountProps.v ===== *)
(** * The cached counts are the counts

    What the counters return, what storing them leaves in the cache, and what each rebuild of the
    cache does, failures included. *)

From S2P Require Import Prelude Keyset PyValue PyFloat WorkLease RebuildLease RebuildState RebuildProps.
From S2P Require Import Matching MatchArtifacts MatchingProps MatchArtifactProps MatchPipelineProps MatchCounts.
From Stdlib Require Import QArith.
Local Open Scope Z_scope.

(** ** Grouped counts *)

Section Grouped.
Context {X : Type} `{EqDecision X}.
Lemma grouped_lookup (l : list (Z * X)) k :
  grouped l !! k = match group k l with [] => None | g => Some (count_distinct g) end.
Proof.
  unfold grouped. rewrite (list_to_map_lookup_fun (λ k, count_distinct (group k l))).
  assert (is_in k (remove_dups (map fst l)) = true ↔ group k l ≠ []) as Hin.
  { rewrite is_in_true, elem_of_remove_dups, elem_of_map. unfold group. split.
    - intros ([i x] & -> & Hx) E%map_eq_nil. assert ((i, x) ∈ List.filter (λ kx : Z * X, kx.1 =? i) l) as Hf.
      { apply elem_of_filter_b. cbn. split; [lia|done]. }
      cbn in E. rewrite E in Hf. by apply elem_of_nil in Hf.
    - destruct (List.filter _ l) as [|x g] eqn:E; [done|]. intros _.
      assert (x ∈ x :: g) as Hx by apply list_elem_of_here. rewrite <- E in Hx. apply elem_of_filter_b in Hx as [? ?]. exists x. split; [lia|done]. }
  destruct (is_in _ _) eqn:Ei; destruct (group k l) eqn:Eg; try done.
  - by destruct (proj1 Hin eq_refl).
  - assert (false = true) by (by apply Hin). done.
Qed.
Lemma count_distinct_nil : count_distinct ([] : list X) = 0.
Proof. done. Qed.
Lemma count_distinct_ext (l l' : list X) : (∀ x, x ∈ l ↔ x ∈ l') → count_distinct l = count_distinct l'.
Proof.
  intros H. unfold count_distinct. f_equal. apply Permutation_length, NoDup_Permutation; [apply NoDup_remove_dups..|].
  intros x. by rewrite !elem_of_remove_dups.
Qed.
End Grouped.

(** A query by chunks is the query of all. *)
Lemma by_chunks_lookup ids query (f : Z → option Z) i :
  (∀ chunk j, query chunk !! j = if is_in j chunk then f j else None) →
  by_chunks ids query !! i = if is_in i ids then Some (default 0 (f i)) else None.
Proof.
  intros Hq. unfold by_chunks.
  assert (∀ cs acc, foldl (λ counts chunk, update_counts counts (query chunk)) acc cs !! i
                    = if is_in i (concat cs) then (match f i with Some n => Some n | None => acc !! i end) else acc !! i) as Hf.
  { induction cs as [|c cs IH]; intros acc; [done|]. cbn [foldl concat]. rewrite IH. unfold update_counts.
    assert (is_in i (c ++ concat cs) = is_in i c || is_in i (concat cs)) as ->.
    { unfold is_in. apply eq_true_iff_eq. rewrite orb_true_iff, !bool_decide_eq_true. apply elem_of_app. }
    rewrite lookup_union, Hq. destruct (is_in i c), (is_in i (concat cs)), (f i), (acc !! i); done. }
  rewrite Hf. unfold iter_id_chunks, zeros. rewrite chunks_concat by (unfold _MAX_DIRECT_IDS; lia).
  rewrite list_to_map_lookup_fun. destruct (is_in i ids); [by destruct (f i)|done].
Qed.

(** ** The matches of a client *)

Lemma filter_flat_map {A B} (f : B → bool) (g : A → list B) l : List.filter f (flat_map g l) = flat_map (λ x, List.filter f (g x)) l.
Proof. induction l as [|x l IH]; cbn; [done|]. by rewrite List.filter_app, IH. Qed.
Lemma filter_join {A B} (f : B → bool) (l : list A) p k : List.filter f (join l p k) = join l p (λ x, List.filter f (k x)).
Proof. apply filter_flat_map. Qed.
Lemma join_if {A B} (l : list A) (p r : A → bool) (k : A → list B) : join l p (λ x, if r x then k x else []) = join l (λ x, p x && r x) k.
Proof. unfold join. induction l as [|x l IH]; cbn; [done|]. destruct (p x); cbn; [|done]. destruct (r x); cbn; by rewrite IH. Qed.
Lemma join_cong {A B} (l : list A) p (k k' : A → list B) : (∀ x, k x = k' x) → join l p k = join l p k'.
Proof. intros H. by apply flat_map_ext. Qed.

Section ClientCounts.
Context (db : match_db).

Lemma stored_filter (p r : demande → bool) q : List.filter (λ x : demande * offer, r x.1) (stored db p q) = stored db (λ d, p d && r d) q.
Proof.
  unfold stored. rewrite filter_flat_map. apply flat_map_ext. intros k. rewrite filter_join. apply join_cong. intros o.
  rewrite filter_join. apply join_cong. intros _. rewrite filter_join. cbn.
  rewrite (join_if _ _ r). apply join_ext. intros d. by rewrite andb_assoc.
Qed.
Lemma stored_ext (p p' : demande → bool) q : (∀ d, p d = p' d) → stored db p q = stored db p' q.
Proof.
  intros H. unfold stored. apply flat_map_ext. intros k. apply join_cong. intros o. apply join_cong. intros _.
  apply join_ext. intros d. by rewrite H.
Qed.

(** The offers stored as candidates of the active demandes of an active client. *)
Definition client_offers (i : Z) : list Z :=
  map (λ p, o_id p.2) (stored db (λ d, has_active_client db d && ACTIVE_DEMANDE d && (d_client d =? i)) (λ _, true)).
Definition client_count (i : Z) : Z := count_distinct (client_offers i).

Lemma group_by_key (key : demande → Z) p q i :
  group i (map (λ x : demande * offer, (key x.1, o_id x.2)) (stored db p q))
  = map (λ x, o_id x.2) (stored db (λ d, p d && (key d =? i)) q).
Proof.
  unfold group. rewrite <- stored_filter. induction (stored db p q) as [|x l IH]; [done|]. cbn.
  destruct (_ =? i); cbn; [by f_equal|done].
Qed.
Lemma stored_none q : stored db (λ _, false) q = [].
Proof.
  unfold stored. induction (candidate_keys db) as [|k l IH]; cbn; [done|]. rewrite IH, app_nil_r.
  unfold join at 1. induction (List.filter _ (db_offers db)) as [|o lo IHo]; cbn; [done|]. rewrite IHo, app_nil_r.
  unfold join at 1. induction (List.filter _ (db_listings db)) as [|x ll IHl]; cbn; [done|]. rewrite IHl, app_nil_r.
  unfold join. by rewrite filter_none by (apply Forall_forall; intros; by rewrite andb_false_r).
Qed.
(** A counter by chunks of keys. *)
Lemma count_by_key (key : demande → Z) (base : demande → bool) (p : list Z → demande → bool) ids i :
  (∀ chunk d, p chunk d = base d && is_in (key d) chunk) →
  by_chunks ids (λ chunk, grouped (map (λ x : demande * offer, (key x.1, o_id x.2)) (stored db (p chunk) (λ _, true)))) !! i
  = if is_in i ids then Some (count_distinct (map (λ x, o_id x.2) (stored db (λ d, base d && (key d =? i)) (λ _, true)))) else None.
Proof.
  intros Hp. set (offers := map _ (stored db (λ d, base d && _) _)).
  rewrite (by_chunks_lookup _ _ (λ j, match map (λ x, o_id x.2) (stored db (λ d, base d && (key d =? j)) (λ _, true)) with
                                       [] => None | g => Some (count_distinct g) end)).
  - fold offers. destruct (is_in i ids); [|done]. by destruct offers.
  - intros chunk j. rewrite grouped_lookup, group_by_key. destruct (is_in j chunk) eqn:Ej.
    + rewrite (stored_ext _ (λ d, base d && (key d =? j))); [done|]. intros d. rewrite Hp.
      destruct (Z.eqb_spec (key d) j) as [->|]; [|by rewrite !andb_false_r]. by rewrite Ej, !andb_true_r.
    + rewrite (stored_ext _ (λ _, false)); [by rewrite stored_none|]. intros d. rewrite Hp.
      destruct (Z.eqb_spec (key d) j) as [->|]; [|by rewrite !andb_false_r]. by rewrite Ej, !andb_false_r.
Qed.
Lemma count_clients_lookup ids i : count_clients_for_ids db ids !! i = if is_in i ids then Some (client_count i) else None.
Proof.
  unfold count_clients_for_ids, per_client. rewrite (count_by_key d_client (λ d, has_active_client db d && ACTIVE_DEMANDE d)); [done|].
  intros chunk d. by destruct (has_active_client db d), (ACTIVE_DEMANDE d), (is_in _ _).
Qed.
Lemma count_single_lookup i : count_single_client_cte db i = client_count i.
Proof. unfold count_single_client_cte. rewrite count_clients_lookup. unfold is_in. by rewrite bool_decide_true by apply list_elem_of_here. Qed.
End ClientCounts.

(** ** Storing counts *)

(** The row a client has when it is active. *)
Definition active_client (db : match_db) (i : Z) : option client :=
  match find_client db i with Some c => if ACTIVE_CLIENT c then Some c else None | None => None end.
Lemma for_each_concat {S A} (body : A → M S unit) (ls : list (list A)) s :
  for_each (for_each body) ls s = for_each body (concat ls) s.
Proof.
  revert s. induction ls as [|l ls IH]; intros s; [done|]. cbn [for_each concat].
  assert (∀ s, for_each body (l ++ concat ls) s = bind (for_each body l) (λ _, for_each body (concat ls)) s) as ->.
  { clear IH s. induction l as [|x l IH]; intros s; [done|]. cbn. unfold bind. destruct (body x s) as [[[]|e] s']; [|done].
    rewrite IH. done. }
  unfold bind. by destruct (for_each body l s) as [[[]|e] s'].
Qed.
Lemma upsert_run rows db :
  _upsert_count_rows rows db = (Ok tt, set_counts (λ t, foldl (λ t r, <[r.1 := r.2]> t) t rows) db).
Proof.
  unfold _upsert_count_rows. revert db. induction rows as [|r rows IH]; intros db; cbn [for_each foldl]; [by destruct db|].
  rewrite bind_modify, IH. done.
Qed.
Lemma foldl_insert_omap {B} (g : Z → option B) ids (t : gmap Z B) i :
  foldl (λ (t : gmap Z B) (r : Z * B), <[r.1 := r.2]> t) t (omap (λ i, pair i <$> g i) ids) !! i
  = if is_in i ids then match g i with Some v => Some v | None => t !! i end else t !! i.
Proof.
  revert t. induction ids as [|j ids IH]; intros t; [done|]. cbn. destruct (decide (j = i)) as [->|Hne].
  - unfold is_in at 1. rewrite bool_decide_true by apply list_elem_of_here.
    destruct (g i) as [v|]; cbn; rewrite IH; [rewrite lookup_insert_eq|]; by destruct (is_in i ids).
  - rewrite (is_in_cons_ne _ _ _ Hne). destruct (g j) as [v|]; cbn; rewrite IH; [by rewrite lookup_insert_ne|done].
Qed.

Lemma read_int_min env name d lo hi : lo <= d → lo <= _read_int env name d lo hi.
Proof. intros H. unfold _read_int. destruct (str_empty _); [done|]. destruct (parse_int _); lia. Qed.
Lemma chunk_size_pos `{CountEnv} : (0 < Z.to_nat CACHE_CHUNK_SIZE)%nat.
Proof. pose proof (read_int_min count_environ "CACHE_CHUNK_SIZE" 5000 200 50000). unfold CACHE_CHUNK_SIZE. lia. Qed.
Lemma batch_size_pos `{CountEnv} : (0 < Z.to_nat MATCH_CACHE_DB_BATCH_SIZE)%nat.
Proof.
  pose proof (read_int_min count_environ "MATCH_CACHE_DB_BATCH_SIZE" 1000 50 20000). pose proof hub_positive. unfold MATCH_CACHE_DB_BATCH_SIZE. lia.
Qed.
Lemma omap_cong {A B} (f g : A → option B) (l : list A) : (∀ x, x ∈ l → f x = g x) → omap f l = omap g l.
Proof.
  intros H. induction l as [|x l IH]; [done|]. cbn. rewrite H by apply list_elem_of_here.
  rewrite IH; [done|]. intros y Hy. apply H. by right.
Qed.
Section Store.
Context `{CountEnv} (db : match_db) (Hdb : NoDup (map c_id (db_clients db))).

Lemma client_info_elem chunk c : c ∈ client_info db chunk ↔ c ∈ db_clients db ∧ ACTIVE_CLIENT c = true ∧ c_id c ∈ chunk.
Proof.
  unfold client_info. rewrite (ssort_perm (λ a b, c_id a <=? c_id b)), elem_of_filter_b, andb_true_iff, is_in_true. tauto.
Qed.
Lemma info_find ids i :
  i ∈ ids → List.find (λ c, c_id c =? i) (flat_map (client_info db) (chunk_ids ids)) = active_client db i.
Proof.
  intros Hi. assert (∀ c, c ∈ flat_map (client_info db) (chunk_ids ids) ↔ c ∈ db_clients db ∧ ACTIVE_CLIENT c = true ∧ c_id c ∈ ids) as He.
  { intros c. rewrite list_elem_of_In, in_flat_map. setoid_rewrite <- list_elem_of_In. setoid_rewrite client_info_elem.
    transitivity (c ∈ db_clients db ∧ ACTIVE_CLIENT c = true ∧ c_id c ∈ concat (chunk_ids ids)).
    - rewrite (list_elem_of_In (concat _) (c_id c)), in_concat. setoid_rewrite <- list_elem_of_In. naive_solver.
    - unfold chunk_ids. by rewrite chunks_concat by lia. }
  change (by_key c_id i (flat_map (client_info db) (chunk_ids ids)) = active_client db i).
  unfold active_client. change (find_client db i) with (by_key c_id i (db_clients db)).
  destruct (by_key c_id i (flat_map _ _)) as [c|] eqn:E.
  - apply by_key_Some in E as [(Hc & Ha & _)%He <-]. by rewrite (by_key_elem c_id), Ha.
  - destruct (by_key c_id i (db_clients db)) as [c|] eqn:Ec; [|done]. destruct (ACTIVE_CLIENT c) eqn:Ea; [|done].
    apply by_key_None in E. destruct E. apply by_key_Some in Ec as [Hc <-]. apply elem_of_map. exists c. split; [done|]. by apply He.
Qed.
Lemma store_counts_batch_run counts :
  ∃ t, store_counts_batch counts db = (Ok tt, set_counts (λ _, t) db)
    ∧ ∀ i, t !! i = match counts !! i, active_client db i with
                    | Some n, Some c => if 0 <? i then Some (count_of_client c n) else db_counts db !! i
                    | _, _ => db_counts db !! i
                    end.
Proof.
  unfold store_counts_batch. assert (∀ i, i ∈ positive_ids (map_to_list counts).*1 ↔ is_Some (counts !! i) ∧ 0 < i) as Hids.
  { intros i. rewrite positive_ids_elem, list_elem_of_fmap. split.
    - intros [([j n] & -> & Hn%elem_of_map_to_list) ?]. split; [by exists n|done].
    - intros [[n Hn] ?]. split; [|done]. exists (i, n). split; [done|]. by apply elem_of_map_to_list. }
  destruct (positive_ids (map_to_list counts).*1) as [|i0 l0] eqn:Ei.
  { exists (db_counts db). split; [by destruct db|]. intros i. specialize (Hids i). destruct (counts !! i) eqn:En, (active_client db i), (0 <? i) eqn:E; try done.
    assert (i ∈ []) as Hi by (apply Hids; split; [by eexists|lia]). by apply elem_of_nil in Hi. }
  rewrite <- Ei in *. set (ids := positive_ids (map_to_list counts).*1) in *. clearbody ids. rewrite bind_gets.
  set (items := omap _ ids).
  assert (items = omap (λ i, pair i <$> ((λ c, count_of_client c (default 0 (counts !! i))) <$> active_client db i)) ids) as Hitems.
  { apply omap_cong. intros i Hi. rewrite (info_find ids i Hi). by destruct (active_client db i). }
  exists (foldl (λ t r, <[r.1 := r.2]> t) (db_counts db) items). split.
  - destruct (_ <? _); [|fold (_upsert_count_rows); unfold _upsert_count_rows; rewrite for_each_concat, chunks_concat by (apply chunk_size_pos || lia)];
      rewrite upsert_run || (change (for_each _ items db) with (_upsert_count_rows items db); rewrite upsert_run); by destruct db.
  - intros i. rewrite Hitems, foldl_insert_omap. specialize (Hids i). rewrite <- is_in_true in Hids.
    destruct (is_in i ids) eqn:E.
    + destruct (proj1 Hids eq_refl) as [[n Hn] Hp]. rewrite Hn. destruct (active_client db i); cbn; [|done].
      by rewrite (proj2 (Z.ltb_lt 0 i) Hp).
    + destruct (counts !! i) eqn:En, (active_client db i), (0 <? i) eqn:E0; try done.
      assert (false = true) by (apply Hids; split; [by eexists|lia]). done.
Qed.
End Store.

(** ** Batches, pages and loops *)

(** Ids are keys and positive, as the sequences of the database give them. *)
Record counts_ok (db : match_db) : Prop := mkCountsOk {
  co_clients : NoDup (map c_id (db_clients db));
  co_positive : ∀ c, c ∈ db_clients db → 0 < c_id c;
  co_rows : ∀ i, is_Some (db_counts db !! i) → 0 < i
}.
(** The row of a client once it is counted again. *)
Definition recount (db : match_db) (i : Z) : option count_row :=
  match active_client db i with Some c => Some (count_of_client c (client_count db i)) | None => db_counts db !! i end.
Record counted (ids : list Z) (db db' : match_db) : Prop := mkCounted {
  ct_same : db' = set_counts (λ _, db_counts db') db;
  ct_rows : ∀ i, db_counts db' !! i = if is_in i ids then recount db i else db_counts db !! i
}.
Lemma active_client_Some db i c : active_client db i = Some c → c ∈ db_clients db ∧ c_id c = i ∧ ACTIVE_CLIENT c = true.
Proof.
  unfold active_client. destruct (find_client db i) as [c'|] eqn:E; [|done]. apply (by_key_Some c_id) in E as [? ?].
  destruct (ACTIVE_CLIENT c') eqn:Ea; [|done]. by intros [= ->].
Qed.
Lemma counted_nil db : counted [] db db.
Proof. split; [by destruct db|done]. Qed.
Lemma is_in_app i l l' : is_in i (l ++ l') = is_in i l || is_in i l'.
Proof. unfold is_in. apply eq_true_iff_eq. rewrite orb_true_iff, !bool_decide_eq_true. apply elem_of_app. Qed.
Lemma recount_set f db i :
  recount (set_counts f db) i = match active_client db i with Some c => Some (count_of_client c (client_count db i)) | None => f (db_counts db) !! i end.
Proof. reflexivity. Qed.
Lemma counted_app a b db db1 db2 : counted a db db1 → counted b db1 db2 → counted (a ++ b) db db2.
Proof.
  intros [S1 R1] [S2 R2]. split; [by rewrite S2, S1|]. intros i. rewrite R2, is_in_app, R1. rewrite S1, recount_set.
  cbn. rewrite R1. unfold recount. by destruct (is_in i a), (is_in i b), (active_client db i).
Qed.
Lemma counted_ok ids db db' : counts_ok db → counted ids db db' → counts_ok db'.
Proof.
  intros [Hn Hp Hr] [S R]. split; [by rewrite S..|]. intros i. rewrite R. destruct (is_in i ids); [|apply Hr]. unfold recount.
  destruct (active_client db i) as [c|] eqn:E; [|apply Hr]. apply active_client_Some in E as (Hc & <- & _). intros _. by apply Hp.
Qed.

Definition ran (ids : list Z) (s s' : cache_world) : Prop :=
  counted ids (cw_db s) (cw_db s') ∧ cw_leases s' = cw_leases s ∧ cw_locked s' = cw_locked s.
Lemma each_ran {X B} (body : X → CW B) (g : X → list Z) (f : X → B) l s :
  (∀ x s, x ∈ l → counts_ok (cw_db s) → ∃ s', body x s = (Ok (f x), s') ∧ ran (g x) s s') →
  counts_ok (cw_db s) → ∃ s', each body l s = (Ok (map f l), s') ∧ ran (flat_map g l) s s'.
Proof.
  revert s. induction l as [|x l IH]; intros s Hb Hs.
  { exists s. split; [done|]. split; [apply counted_nil|done]. }
  cbn [each map flat_map]. destruct (Hb x s ltac:(apply list_elem_of_here) Hs) as (s1 & E1 & R1 & L1 & K1). rewrite (bind_ok _ _ _ _ _ E1).
  destruct (IH s1) as (s2 & E2 & R2 & L2 & K2).
  { intros y s' Hy. apply Hb. by right. }
  { by eapply counted_ok. }
  rewrite (bind_ok _ _ _ _ _ E2). exists s2. split; [done|]. split; [by eapply counted_app|]. split; congruence.
Qed.
Lemma flat_map_id {A} (l : list (list A)) : flat_map (λ x, x) l = concat l.
Proof. induction l as [|x l IH]; cbn; [done|]. by rewrite IH. Qed.
Lemma size_of_keys {V} (m : gmap Z V) ids : NoDup ids → (∀ i, is_Some (m !! i) ↔ i ∈ ids) → size m = List.length ids.
Proof.
  intros Hn He. rewrite <- length_map_to_list, <- (length_fmap fst). apply Permutation_length, NoDup_Permutation; [|done|].
  - apply NoDup_fst_map_to_list.
  - intros i. rewrite <- He, list_elem_of_fmap. split.
    + intros ([j v] & -> & Hv%elem_of_map_to_list). by exists v.
    + intros [v Hv]. exists (i, v). split; [done|]. by apply elem_of_map_to_list.
Qed.
Lemma chunks_NoDup {A} fuel n (l : list A) c : NoDup l → c ∈ chunks_of fuel n l → NoDup c.
Proof.
  revert l. induction fuel as [|fuel IH]; intros [|x l] Hl; cbn; try by intros ?%elem_of_nil.
  intros [->|H]%elem_of_cons.
  - rewrite <- (take_drop n (x :: l)) in Hl. by apply NoDup_app in Hl as (? & _ & _).
  - apply (IH (drop n (x :: l))); [|done]. rewrite <- (take_drop n (x :: l)) in Hl. by apply NoDup_app in Hl as (_ & _ & ?).
Qed.

Lemma sum_lengths {A} (cs : list (list A)) : foldr Z.add 0 (map (λ c, Z.of_nat (List.length c)) cs) = Z.of_nat (List.length (concat cs)).
Proof. induction cs as [|c cs IH]; [done|]. cbn [map foldr concat]. rewrite length_app, IH. lia. Qed.

Section Loops.
Context `{CountEnv} (fault : list Z → option exn) (no_fault : ∀ batch, fault batch = None).

Lemma process_batch_run batch s :
  NoDup batch → (∀ i, i ∈ batch → 0 < i) → batch ≠ [] → counts_ok (cw_db s) →
  ∃ s', process_batch fault batch s = (Ok (Z.of_nat (List.length batch)), s') ∧ ran batch s s'.
Proof.
  intros Hn Hp Hne Hs. unfold process_batch. rewrite no_fault. unfold transaction, on_db at 1, gets. cbn [fst snd].
  set (counts := batch_count_clients_paginated (cw_db s) batch).
  assert (∀ i, counts !! i = if is_in i batch then Some (client_count (cw_db s) i) else None) as Hc.
  { intros i. unfold counts, batch_count_clients_paginated. destruct batch; [done|]. apply count_clients_lookup. }
  assert (size counts = List.length batch) as Hsz.
  { apply size_of_keys; [done|]. intros i. rewrite Hc, <- is_in_true. destruct (is_in i batch); split; (done || by intros [? ?]). }
  destruct (store_counts_batch_run (cw_db s) (co_clients _ Hs) counts) as (t & Et & Ht).
  exists (mkCache (set_counts (λ _, t) (cw_db s)) (cw_leases s) (cw_locked s)). split.
  - unfold bind at 1. cbn [fst snd cw_db cw_leases cw_locked]. unfold on_db. cbn [cw_db cw_leases cw_locked].
    change (batch_count_clients_paginated (cw_db s) batch) with counts. unfold store_counts. rewrite bool_decide_false.
    + rewrite (bind_ok _ _ _ _ _ Et). unfold ret. cbn [fst snd]. by rewrite Hsz.
    + intros E. rewrite E in Hsz. destruct batch; [done|]. by rewrite map_size_empty in Hsz.
  - split; [|done]. split; [done|]. intros i. cbn. rewrite Ht, Hc. unfold recount. destruct (is_in i batch) eqn:Ei; [|done].
    apply is_in_true, Hp in Ei. by rewrite (proj2 (Z.ltb_lt 0 i) Ei).
Qed.
Lemma process_page_run page s :
  NoDup page → (∀ i, i ∈ page → 0 < i) → counts_ok (cw_db s) →
  ∃ s', process_page fault page s = (Ok (Z.of_nat (List.length page), Z.of_nat (List.length page)), s') ∧ ran page s s'.
Proof.
  intros Hn Hp Hs. unfold process_page.
  destruct (each_ran (process_batch fault) (λ c, c) (λ c, Z.of_nat (List.length c)) (chunks_of (List.length page) 100 page) s) as (s' & E & R); [|done|].
  { intros c s1 Hc Hs1. apply process_batch_run; [by eapply chunks_NoDup| | |done].
    - intros i Hi. apply Hp. by eapply chunks_sub.
    - eapply chunks_ne; [|done]. lia. }
  rewrite (bind_ok _ _ _ _ _ E). exists s'. rewrite flat_map_id, chunks_concat in R by lia. split; [|done]. unfold ret. f_equal. f_equal. f_equal.
  exact (eq_trans (sum_lengths _) (f_equal (λ l, Z.of_nat (List.length l)) (chunks_concat 100 ltac:(lia) _ page (le_n _)))).
Qed.
End Loops.

Section Pages.
Context `{CountEnv} (fault : list Z → option exn) (no_fault : ∀ batch, fault batch = None).
Context (ids : match_db → list Z).
Context (ids_ok : ∀ db, counts_ok db → NoDup (ids db) ∧ ∀ i, i ∈ ids db → 0 < i).
(** Counting some clients leaves the others as they were. *)
Context (ids_rest : ∀ page db db', counted page db db' → ∀ i, i ∉ page → i ∈ ids db' ↔ i ∈ ids db).

Lemma pages_run fuel s :
  counts_ok (cw_db s) → (List.length (ids (cw_db s)) < fuel)%nat →
  ∃ rs s', keyset fuel (db_page ids) (process_page fault) 0 s = (Ok rs, s')
    ∧ ran (after 0 (ids (cw_db s))) s s'
    ∧ sum_fst rs = Z.of_nat (List.length (ids (cw_db s))) ∧ sum_snd rs = Z.of_nat (List.length (ids (cw_db s))).
Proof.
  intros Hs Hf. destruct (ids_ok _ Hs) as [Hn Hp].
  assert (List.length (after 0 (ids (cw_db s))) = List.length (ids (cw_db s))) as Hlen.
  { apply Permutation_length, NoDup_Permutation; [by apply after_NoDup|done|]. intros i. rewrite after_elem. naive_solver. }
  unfold db_page.
  rewrite (keyset_chunks _ batch_size_pos (λ s, ids (cw_db s)) _ (λ s, counts_ok (cw_db s)));
    [|intros s1 H1; by apply ids_ok| |done|by rewrite Hlen].
  2: { intros s1 page b s2 H1 Hnp Hsub Hlast E. destruct (process_page_run fault no_fault page s1) as (s2' & E' & R & _); [done| |done|].
       { intros i Hi. by apply (ids_ok _ H1), Hsub. }
       rewrite E in E'. injection E' as -> ->. split; [by eapply counted_ok|]. intros i Hi. eapply ids_rest; [done|].
       intros Hin. specialize (Hlast i Hin). lia. }
  set (l := after 0 (ids (cw_db s))) in *.
  destruct (each_ran (process_page fault) (λ c, c) (λ c, (Z.of_nat (List.length c), Z.of_nat (List.length c)))
    (chunks_of (List.length l) (Z.to_nat MATCH_CACHE_DB_BATCH_SIZE) l) s) as (s' & E & R); [|done|].
  { intros c s1 Hc Hs1. apply process_page_run; [done| | |done].
    - eapply chunks_NoDup; [by apply after_NoDup|done].
    - intros i Hi. assert (i ∈ l) as Hil by (by eapply chunks_sub). by apply after_elem in Hil as [_ ?]. }
  pose proof batch_size_pos as Hb. rewrite flat_map_id, chunks_concat in R by lia.
  exists (map (λ c, (Z.of_nat (List.length c), Z.of_nat (List.length c))) (chunks_of (List.length l) (Z.to_nat MATCH_CACHE_DB_BATCH_SIZE) l)), s'.
  split; [done|]. split; [done|]. rewrite <- Hlen. unfold sum_fst, sum_snd. rewrite !map_map. cbn.
  by rewrite sum_lengths, chunks_concat by (done || lia).
Qed.
End Pages.

Lemma count_ids_elem p db i : i ∈ count_ids p db ↔ ∃ r, db_counts db !! i = Some r ∧ p r = true.
Proof.
  unfold count_ids. rewrite list_elem_of_fmap. setoid_rewrite elem_of_filter_b. split.
  - intros ([j r] & -> & Hr & Hm%elem_of_map_to_list). by exists r.
  - intros (r & Hr & Hp). exists (i, r). split; [done|]. split; [done|]. by apply elem_of_map_to_list.
Qed.
Lemma count_ids_NoDup p db : NoDup (count_ids p db).
Proof. unfold count_ids. change (?l.*1) with (map fst l). apply NoDup_map_filter, NoDup_fst_map_to_list. Qed.
Lemma missing_ids_elem db i :
  i ∈ missing_ids db ↔ db_counts db !! i = None ∧ ∃ c, c ∈ db_clients db ∧ ACTIVE_CLIENT c = true ∧ c_id c = i.
Proof.
  unfold missing_ids, active_clients. rewrite elem_of_map. setoid_rewrite elem_of_filter_b. setoid_rewrite elem_of_filter_b.
  setoid_rewrite bool_decide_eq_true. naive_solver.
Qed.
Lemma missing_ids_NoDup db : NoDup (map c_id (db_clients db)) → NoDup (missing_ids db).
Proof. intros H. unfold missing_ids, active_clients. by do 2 apply NoDup_map_filter. Qed.

(** ** The frame of a rebuild *)

Section Frame.
Context `{CountEnv} `{LeaseEnv} (describe : exn → string) (times : Z * Z) (task_id : option string).

(** The lease of the task has a status, where there are leases. *)
Definition lease_is (st : job_status) (s : cache_world) : Prop :=
  ∀ t l, task_id = Some t → str_empty t = false → table_exists = true → l ∈ cw_leases s → jl_task l = t → jl_status l = st.
Definition started (s : cache_world) : cache_world := (_mark_rebuild_task_running times.1 task_id s).2.

Lemma mark_run (mark : Z → string → JM unit) st text now s :
  (∀ t leases, mark now t leases = if table_exists then _mark_status now t st text leases else (Ok tt, leases)) →
  ∃ s', match task_id with Some t => if str_empty t then ret tt else on_leases (mark now t) | None => ret tt end s = (Ok tt, s')
    ∧ cw_db s' = cw_db s ∧ cw_locked s' = cw_locked s ∧ lease_is st s'.
Proof.
  intros Hm. unfold lease_is. destruct task_id as [t|]; [|by exists s; split_and!; try done; intros ? ? ?]. destruct (str_empty t) eqn:E.
  { exists s. split_and!; [done..|]. intros t' l [= ->] E'. congruence. }
  unfold on_leases. rewrite Hm. destruct table_exists eqn:Et.
  - eexists. split; [done|]. split_and!; [done..|]. cbn [cw_leases].
    intros t' l [= ->] _ _. cbn. intros (l' & -> & Hl)%elem_of_map. case_bool_decide; [done|]. by intros ?.
  - eexists. split; [done|]. split_and!; [done..|]. by intros ? ? ? ? ?.
Qed.
Lemma running_run s : ∃ s', _mark_rebuild_task_running times.1 task_id s = (Ok tt, s') ∧ cw_db s' = cw_db s ∧ cw_locked s' = cw_locked s.
Proof.
  destruct (mark_run mark_rebuild_running Running EmptyString times.1 s) as (s' & E & ? & ? & _).
  { intros t leases. unfold mark_rebuild_running. by destruct table_exists. }
  by exists s'.
Qed.
Lemma started_db s : cw_db (started s) = cw_db s.
Proof. unfold started. by destruct (running_run s) as (s' & -> & ? & _). Qed.
Lemma rebuild_task_ok agency work s answer s2 :
  cw_locked s = false → work (started s) = (Ok answer, s2) →
  ∃ s3, rebuild_task describe times task_id (Some agency) work s = (Ok answer, s3) ∧ cw_db s3 = cw_db s2 ∧ lease_is Done s3.
Proof.
  unfold started. intros Hl Hw. destruct (running_run s) as (s1 & E1 & D1 & L1). rewrite E1 in Hw. cbn [snd] in Hw.
  destruct (mark_run mark_rebuild_done Done EmptyString times.2 s2) as (s3 & E3 & D3 & _ & Hd).
  { intros t leases. unfold mark_rebuild_done. by destruct table_exists. }
  exists s3. split; [|done]. unfold rebuild_task, catch. rewrite (bind_ok _ _ _ _ _ E1), bind_gets, L1, Hl, (bind_ok _ _ _ _ _ Hw).
  unfold _mark_rebuild_task_done. by rewrite (bind_ok _ _ _ _ _ E3).
Qed.
Lemma rebuild_task_err agency work s e s2 :
  cw_locked s = false → work (started s) = (Err e, s2) →
  ∃ s3, rebuild_task describe times task_id (Some agency) work s = (Err e, s3) ∧ cw_db s3 = cw_db s2 ∧ lease_is Failed s3.
Proof.
  unfold started. intros Hl Hw. destruct (running_run s) as (s1 & E1 & D1 & L1). rewrite E1 in Hw. cbn [snd] in Hw.
  destruct (mark_run (λ now t, mark_rebuild_failed now t (describe e)) Failed (describe e) times.2 s2) as (s3 & E3 & D3 & _ & Hd).
  { intros t leases. unfold mark_rebuild_failed. by destruct table_exists. }
  exists s3. split; [|done]. unfold rebuild_task, catch. rewrite (bind_ok _ _ _ _ _ E1), bind_gets, L1, Hl, (bind_err _ _ _ _ _ Hw).
  unfold _mark_rebuild_task_failed. by rewrite (bind_ok _ _ _ _ _ E3).
Qed.
End Frame.

(** ** The rebuild of what is dirty or missing *)

Definition dirty_or_missing (db : match_db) (i : Z) : bool :=
  match db_counts db !! i with Some r => cc_dirty r | None => true end.
(** The row of a client after that rebuild: a row is counted again when the client is active. *)
Definition settled (db : match_db) (i : Z) : option count_row := if dirty_or_missing db i then recount db i else db_counts db !! i.

Section Dirty.
Context `{CountEnv} `{LeaseEnv} (describe : exn → string) (fault : list Z → option exn).

Lemma dirty_ok db : counts_ok db → NoDup (count_ids cc_dirty db) ∧ ∀ i, i ∈ count_ids cc_dirty db → 0 < i.
Proof. intros Hs. split; [apply count_ids_NoDup|]. intros i (r & Hr & _)%count_ids_elem. by eapply co_rows. Qed.
Lemma dirty_rest page db db' : counted page db db' → ∀ i, i ∉ page → i ∈ count_ids cc_dirty db' ↔ i ∈ count_ids cc_dirty db.
Proof.
  intros [_ R] i Hi. rewrite !count_ids_elem, R. destruct (is_in i page) eqn:E; [by apply is_in_true in E|done].
Qed.
Lemma missing_ok db : counts_ok db → NoDup (missing_ids db) ∧ ∀ i, i ∈ missing_ids db → 0 < i.
Proof. intros Hs. split; [apply missing_ids_NoDup, Hs|]. intros i (_ & c & Hc & _ & <-)%missing_ids_elem. by apply Hs. Qed.
Lemma missing_rest page db db' : counted page db db' → ∀ i, i ∉ page → i ∈ missing_ids db' ↔ i ∈ missing_ids db.
Proof.
  intros [S R] i Hi. rewrite !missing_ids_elem, R. destruct (is_in i page) eqn:E; [by apply is_in_true in E|].
  by rewrite S.
Qed.

Lemma missing_after page db db' :
  counted page db db' → (∀ i, i ∈ page → is_Some (db_counts db !! i)) → ∀ i, i ∈ missing_ids db' ↔ i ∈ missing_ids db.
Proof.
  intros Hc Hp i. destruct (decide (i ∈ page)) as [Hi|Hi]; [|by eapply missing_rest]. rewrite !missing_ids_elem.
  destruct (Hp i Hi) as [r Hr]. rewrite Hr. destruct Hc as [_ R]. rewrite R, (proj2 (is_in_true _ _) Hi). unfold recount. rewrite Hr.
  split; [|by intros [? _]]. destruct (active_client db i); by intros [? _].
Qed.
Lemma settled_counted page absent db db1 db2 :
  counted page db db1 → counted absent db1 db2 →
  (∀ i, i ∈ page ↔ i ∈ count_ids cc_dirty db) → (∀ i, i ∈ absent ↔ i ∈ missing_ids db) →
  (∀ i, db_counts db2 !! i = settled db i) ∧ db2 = set_counts (λ _, db_counts db2) db.
Proof.
  intros H1 H2 Hd Hm. destruct (counted_app _ _ _ _ _ H1 H2) as [S R]. split; [|done]. intros i. rewrite R. clear S R H1 H2.
  unfold settled, dirty_or_missing. specialize (Hd i). specialize (Hm i). rewrite count_ids_elem in Hd. rewrite missing_ids_elem in Hm.
  destruct (is_in i (page ++ absent)) eqn:E.
  - apply is_in_true, elem_of_app in E as [(r & Hr & Hc)%Hd|[Hn _]%Hm]; [by rewrite Hr, Hc|by rewrite Hn].
  - assert ((i ∉ page) ∧ (i ∉ absent)) as [Hnp Hna].
    { split; intros Hi; (assert (is_in i (page ++ absent) = true) by (apply is_in_true, elem_of_app; tauto)); congruence. }
    destruct (db_counts db !! i) as [r|] eqn:Er.
    + destruct (cc_dirty r) eqn:Ec; [|done]. destruct Hnp. apply Hd. by exists r.
    + unfold recount. rewrite Er. destruct (active_client db i) as [c|] eqn:Ea; [|done]. destruct Hna. apply Hm. split; [done|].
      apply active_client_Some in Ea as (? & ? & ?). by exists c.
Qed.
Lemma after0_elem l i : (∀ j, j ∈ l → 0 < j) → i ∈ after 0 l ↔ i ∈ l.
Proof. intros Hp. rewrite after_elem. split; [by intros [? _]|]. intros Hi. split; [done|by apply Hp]. Qed.
Lemma dirty_work s :
  counts_ok (cw_db s) → (∀ batch, fault batch = None) →
  let n := Z.of_nat (List.length (count_ids cc_dirty (cw_db s)) + List.length (missing_ids (cw_db s))) in
  ∃ s',
    (let! fuel := gets (λ s, S (size (db_counts (cw_db s)))) in
     let! dirty := keyset fuel (db_page (count_ids cc_dirty)) (process_page fault) 0 in
     let! fuel := gets (λ s, S (List.length (db_clients (cw_db s)))) in
     let! absent := keyset fuel (db_page missing_ids) (process_page fault) 0 in
     ret (Rebuilt (sum_fst dirty + sum_fst absent) (Some (sum_snd dirty + sum_snd absent)))) s = (Ok (Rebuilt n (Some n)), s')
    ∧ (∀ i, db_counts (cw_db s') !! i = settled (cw_db s) i) ∧ cw_db s' = set_counts (λ _, db_counts (cw_db s')) (cw_db s).
Proof.
  intros Hs Hf n. rewrite bind_gets.
  destruct (pages_run fault Hf _ dirty_ok dirty_rest (S (size (db_counts (cw_db s)))) s Hs) as (rs & s1 & E1 & R1 & F1 & N1).
  { unfold count_ids. rewrite length_fmap. pose proof (List.filter_length_le (λ kv : Z * count_row, cc_dirty kv.2) (map_to_list (db_counts (cw_db s)))).
    rewrite length_map_to_list in *. lia. }
  rewrite (bind_ok _ _ _ _ _ E1), bind_gets. destruct R1 as (R1 & _ & _).
  pose proof (counted_ok _ _ _ Hs R1) as Hs1. destruct (dirty_ok _ Hs) as [Hdn Hdp].
  destruct (pages_run fault Hf _ missing_ok missing_rest (S (List.length (db_clients (cw_db s1)))) s1 Hs1) as (rs' & s2 & E2 & R2 & F2 & N2).
  { unfold missing_ids, active_clients. rewrite length_map.
    match goal with |- (List.length (List.filter ?p (List.filter ?q ?l)) < _)%nat =>
      pose proof (List.filter_length_le p (List.filter q l)); pose proof (List.filter_length_le q l) end. lia. }
  rewrite (bind_ok _ _ _ _ _ E2). exists s2. destruct R2 as (R2 & _ & _).
  assert (∀ i, i ∈ missing_ids (cw_db s1) ↔ i ∈ missing_ids (cw_db s)) as Hm.
  { eapply missing_after; [done|]. intros i Hi. rewrite after0_elem in Hi by done.
    apply count_ids_elem in Hi as (r & Hr & _). by exists r. }
  destruct (missing_ok _ Hs) as [Hmn Hmp], (missing_ok _ Hs1) as [Hmn1 Hmp1]. split.
  - unfold ret. rewrite F1, F2, N1, N2. assert (List.length (missing_ids (cw_db s1)) = List.length (missing_ids (cw_db s))) as ->.
    { by apply Permutation_length, NoDup_Permutation. }
    unfold n. rewrite Nat2Z.inj_add. done.
  - eapply settled_counted; [done..| |].
    + intros i. by apply after0_elem.
    + intros i. rewrite <- Hm. by apply after0_elem.
Qed.
End Dirty.

(** ** A rebuild that fails *)

(** Each row is as it was, or settled. *)
Record between (db db' : match_db) : Prop := mkBetween {
  bw_same : db' = set_counts (λ _, db_counts db') db;
  bw_rows : ∀ i, db_counts db' !! i = db_counts db !! i ∨ db_counts db' !! i = settled db i
}.
Lemma between_refl db : between db db.
Proof. split; [by destruct db|auto]. Qed.
Lemma settled_unfold db i :
  settled db i = match active_client db i with
                 | Some c => if dirty_or_missing db i then Some (count_of_client c (client_count db i)) else db_counts db !! i
                 | None => db_counts db !! i
                 end.
Proof. unfold settled, recount. by destruct (dirty_or_missing db i), (active_client db i). Qed.
Lemma settled_between db db' i : between db db' → settled db' i = settled db i.
Proof.
  intros [S R]. specialize (R i). rewrite !settled_unfold in *. unfold dirty_or_missing in *. rewrite S.
  change (active_client (set_counts _ db) i) with (active_client db i). change (client_count (set_counts _ db) i) with (client_count db i). cbn.
  destruct (active_client db i); [|naive_solver]. destruct R as [->|R]; [done|]. rewrite R.
  destruct (db_counts db !! i) as [r|]; [|done]. by destruct (cc_dirty r) eqn:E; cbn; rewrite ?E.
Qed.
Lemma between_dirty db db' i : between db db' → dirty_or_missing db' i = true → dirty_or_missing db i = true.
Proof.
  intros [_ R] H. specialize (R i). rewrite settled_unfold in R. unfold dirty_or_missing in *.
  destruct R as [R|R]; rewrite R in H; [done|]. destruct (active_client db i); [|done].
  destruct (db_counts db !! i) as [r|]; [|done]. destruct (cc_dirty r) eqn:E; [done|]. cbn in H. congruence.
Qed.
Lemma between_counted batch db db1 db2 :
  between db db1 → counted batch db1 db2 → (∀ i, i ∈ batch → dirty_or_missing db i = true) → between db db2.
Proof.
  intros [S1 R1] [S2 R2] Hd. split; [by rewrite S2, S1|]. intros i. rewrite R2. destruct (is_in i batch) eqn:E; [|apply R1].
  apply is_in_true, Hd in E. specialize (R1 i). rewrite S1, recount_set. rewrite settled_unfold, E in *.
  destruct (active_client db i); [by right|]. left. by destruct R1.
Qed.

Lemma keyset_inv {S B} (P : S → Prop) (select : Z → M S (list Z)) (body : list Z → M S B) fuel last :
  (∀ last s, P s → match select last s with (Ok page, s') => P s' ∧ P (body page s').2 | (Err _, s') => P s' end) →
  keeps P (keyset fuel select body last).
Proof.
  intros H. revert last. induction fuel as [|fuel IH]; intros last s Hs; [done|]. cbn. specialize (H last s Hs). unfold bind.
  destruct (select last s) as [[page|e] s']; [|done]. destruct H as [H1 H2]. destruct page as [|x page]; [done|].
  destruct (body (x :: page) s') as [[y|e] s2]; [|done]. specialize (IH (List.last (x :: page) last) s2 H2).
  by destruct (keyset fuel select body _ s2) as [[ys|e] s3].
Qed.

Section Failure.
Context `{CountEnv} `{LeaseEnv} (describe : exn → string) (fault : list Z → option exn) (db0 : match_db).
Definition resumable (s : cache_world) : Prop := between db0 (cw_db s) ∧ counts_ok (cw_db s).

Lemma batch_resumable batch :
  NoDup batch → batch ≠ [] → (∀ i, i ∈ batch → 0 < i ∧ dirty_or_missing db0 i = true) → keeps resumable (process_batch fault batch).
Proof.
  intros Hn Hne Hb s [Hbw Hok]. destruct (fault batch) as [e|] eqn:Ef.
  - unfold process_batch, transaction. rewrite Ef. done.
  - destruct (process_batch_run (λ _, None) ltac:(done) batch s Hn ltac:(intros; by apply Hb) Hne Hok) as (s' & E & R & _).
    unfold process_batch in *. rewrite Ef, E. cbn. split; [|by eapply counted_ok]. eapply between_counted; [done|done|]. intros i Hi. by apply Hb.
Qed.
Lemma page_resumable page :
  NoDup page → (∀ i, i ∈ page → 0 < i ∧ dirty_or_missing db0 i = true) → keeps resumable (process_page fault page).
Proof.
  intros Hn Hp. unfold process_page. apply keeps_bind; [|intros; apply keeps_ret]. apply keeps_each. intros c Hc. apply batch_resumable.
  - by eapply chunks_NoDup.
  - eapply chunks_ne; [|done]. lia.
  - intros i Hi. apply Hp. by eapply chunks_sub.
Qed.
Lemma loop_resumable ids fuel :
  (∀ db, counts_ok db → NoDup (ids db) ∧ ∀ i, i ∈ ids db → 0 < i) →
  (∀ db i, counts_ok db → i ∈ ids db → dirty_or_missing db i = true) →
  keeps resumable (keyset fuel (db_page ids) (process_page fault) 0).
Proof.
  intros Hids Hd. apply keyset_inv. intros last s Hs. cbn. split; [done|]. destruct Hs as [Hbw Hok]. apply page_resumable; [|..].
  - by apply page_NoDup, Hids.
  - intros i Hi%page_sub. split; [by apply (Hids _ Hok)|]. eapply between_dirty; [done|]. by apply Hd.
  - by split.
Qed.
End Failure.

Lemma work_resumable `{CountEnv} fault db0 :
  keeps (resumable db0)
    (let! fuel := gets (λ s, S (size (db_counts (cw_db s)))) in
     let! dirty := keyset fuel (db_page (count_ids cc_dirty)) (process_page fault) 0 in
     let! fuel := gets (λ s, S (List.length (db_clients (cw_db s)))) in
     let! absent := keyset fuel (db_page missing_ids) (process_page fault) 0 in
     ret (Rebuilt (sum_fst dirty + sum_fst absent) (Some (sum_snd dirty + sum_snd absent)))).
Proof.
  apply keeps_bind; [apply keeps_gets|]. intros fuel. apply keeps_bind.
  { apply loop_resumable; [apply dirty_ok|]. intros db i _ (r & Hr & Hc)%count_ids_elem. unfold dirty_or_missing. by rewrite Hr. }
  intros dirty. apply keeps_bind; [apply keeps_gets|]. intros fuel'. apply keeps_bind; [|intros; apply keeps_ret].
  apply loop_resumable; [apply missing_ok|]. intros db i _ (Hn & _)%missing_ids_elem. unfold dirty_or_missing. by rewrite Hn.
Qed.

(** ** The properties *)

(** The refresh of the cached counts.  A rebuild of what is dirty or missing returns, whatever the number of
    clients and the sizes of pages and batches, having counted every such client once.  After it every
    active client that had a dirty row or none has a clean one with the number of offers that are
    stored as its matches and its present visibility and owner; a clean row, and the row of a
    client that is not active, are as they were; and the lease of the task is done. *)
Theorem dirty_counts_are_refreshed `{CountEnv} `{LeaseEnv} fault describe times task_id agency s :
  counts_ok (cw_db s) → cw_locked s = false → (∀ batch, fault batch = None) →
  let n := Z.of_nat (List.length (count_ids cc_dirty (cw_db s)) + List.length (missing_ids (cw_db s))) in
  ∃ s', rebuild_match_cache_dirty fault describe times task_id (Some agency) s = (Ok (Rebuilt n (Some n)), s')
    ∧ (∀ i, db_counts (cw_db s') !! i
            = match active_client (cw_db s) i with
              | Some c => if dirty_or_missing (cw_db s) i then Some (count_of_client c (client_count (cw_db s) i))
                          else db_counts (cw_db s) !! i
              | None => db_counts (cw_db s) !! i
              end)
    ∧ lease_is task_id Done s'.
Proof.
  intros Hs Hl Hf n. destruct (dirty_work fault (started times task_id s)) as (s2 & E & R & _); [by rewrite started_db|done|].
  destruct (rebuild_task_ok describe times task_id agency _ s _ s2 Hl E) as (s3 & E3 & D3 & L3).
  rewrite started_db in E3, R. exists s3. split; [exact E3|]. split; [|done]. intros i. by rewrite D3, R, settled_unfold.
Qed.

(** A rebuild of the counts that fails.  When the transaction of some batch fails, the task fails with its
    lease marked failed, each row is as it was or as the rebuild would leave it, and any later
    rebuild that does not fail reaches the very state the first would have reached. *)
Theorem failed_rebuild_is_resumed `{CountEnv} `{LeaseEnv} fault describe times task_id agency s e s1 :
  counts_ok (cw_db s) → cw_locked s = false →
  rebuild_match_cache_dirty fault describe times task_id (Some agency) s = (Err e, s1) →
  lease_is task_id Failed s1
  ∧ (∀ i, db_counts (cw_db s1) !! i = db_counts (cw_db s) !! i ∨ db_counts (cw_db s1) !! i = settled (cw_db s) i)
  ∧ ∀ times' task_id' s2, cw_db s2 = cw_db s1 → cw_locked s2 = false →
    ∃ a s3, rebuild_match_cache_dirty (λ _, None) describe times' task_id' (Some agency) s2 = (Ok a, s3)
      ∧ ∀ i, db_counts (cw_db s3) !! i = settled (cw_db s) i.
Proof.
  intros Hs Hl E. unfold rebuild_match_cache_dirty in E.
  match type of E with rebuild_task _ _ _ _ ?work _ = _ => pose proof (work_resumable fault (cw_db s) (started times task_id s)) as Hr end.
  destruct ((let! fuel := _ in _) (started times task_id s)) as [[a|e'] s'] eqn:Ew in Hr.
  { destruct (rebuild_task_ok describe times task_id agency _ s _ _ Hl Ew) as (s3 & E3 & _). congruence. }
  destruct (rebuild_task_err describe times task_id agency _ s _ _ Hl Ew) as (s3 & E3 & D3 & L3).
  rewrite E in E3. injection E3 as -> ->. destruct Hr as [Hbw Hok]; [unfold resumable; rewrite started_db; split; [apply between_refl|done]|].
  cbn [snd] in Hbw, Hok. split; [done|]. rewrite D3. split; [intros i; apply Hbw|].
  intros times' task_id' s2 D2 L2.
  destruct (dirty_work (λ _, None) (started times' task_id' s2)) as (s4 & E4 & R4 & _); [by rewrite started_db, D2|done|].
  destruct (rebuild_task_ok describe times' task_id' agency _ s2 _ _ L2 E4) as (s5 & E5 & D5 & _).
  eexists _, s5. split; [exact E5|]. intros i. rewrite D5, R4, started_db, D2. by apply settled_between.
Qed.

(** ** The counters and the matcher *)

(** The stored candidates are what matches. *)
Definition exact (db : match_db) : Prop := ∀ k, db_candidates db !! k = spec_candidate db k.
Lemma exact_stored db d o :
  tables_ok db → exact db → d ∈ db_demandes db → o ∈ db_offers db → is_Some (db_candidates db !! (d_id d, o_id o)) ↔ matches db d o = true.
Proof.
  intros Hdb He Hd Ho. rewrite He, spec_candidate_rows by done. destruct (matches db d o); [naive_solver|]. split; [by intros [? ?]|done].
Qed.
Lemma match_is_active db d o :
  tables_ok db → matches db d o = true →
  ACTIVE_OFFER o = true ∧ active_listing db o = true ∧ ACTIVE_DEMANDE d = true ∧ has_active_client db d = true.
Proof.
  intros Hdb. unfold matches, meet. rewrite !andb_true_iff. intros (((((((Ha & Hc) & Ho) & _) & Hl) & _) & _) & _).
  split_and!; [done|by apply listing_of_active|done|]. unfold client_of in Hc. unfold has_active_client. apply existsb_elem in Hc as (c & Hin & Hc).
  apply existsb_elem. exists c. split; [done|]. rewrite !andb_true_iff in *. tauto.
Qed.
Lemma exact_offers db p q x :
  tables_ok db → exact db →
  x ∈ map (λ p, o_id p.2) (stored db p q) ↔
  ∃ d o, d ∈ db_demandes db ∧ o ∈ db_offers db ∧ matches db d o = true ∧ q o = true ∧ p d = true ∧ x = o_id o.
Proof.
  intros Hdb He. rewrite elem_of_map. split.
  - intros ([d o] & -> & (Hd & Ho & Hm & _ & Hq & _ & Hp)%elem_of_stored); [|done]. exists d, o. split_and!; try done. by apply exact_stored.
  - intros (d & o & Hd & Ho & Hm & Hq & Hp & ->). exists (d, o). split; [done|].
    destruct (match_is_active db d o Hdb Hm) as (Ha & Hl & _ & _). apply elem_of_stored; [done|]. split_and!; try done. by apply exact_stored.
Qed.

Lemma existsb_cong {A} (f g : A → bool) l : (∀ x, f x = g x) → existsb f l = existsb g l.
Proof. intros H. induction l as [|x l IH]; [done|]. cbn. by rewrite H, IH. Qed.
(** The offers that match some demande of a client. *)
Definition client_matches (db : match_db) (i : Z) : list offer :=
  List.filter (λ o, existsb (λ d, (d_client d =? i) && matches db d o) (db_demandes db)) (db_offers db).
Lemma count_offers_with db (sel : demande → bool) (l : list Z) :
  tables_ok db →
  (∀ x, x ∈ l ↔ ∃ d o, d ∈ db_demandes db ∧ o ∈ db_offers db ∧ matches db d o = true ∧ sel d = true ∧ x = o_id o) →
  count_distinct l = Z.of_nat (List.length (List.filter (λ o, existsb (λ d, sel d && matches db d o) (db_demandes db)) (db_offers db))).
Proof.
  intros Hdb Hl. rewrite <- (length_map o_id).
  rewrite (count_distinct_ext _ (map o_id (List.filter (λ o, existsb (λ d, sel d && matches db d o) (db_demandes db)) (db_offers db)))).
  - unfold count_distinct. rewrite remove_dups_id; [done|]. apply NoDup_map_filter, Hdb.
  - intros x. rewrite Hl, elem_of_map. split.
    + intros (d & o & Hd & Ho & Hm & Hs & ->). exists o. split; [done|]. apply elem_of_filter_b. split; [|done].
      apply existsb_elem. exists d. split; [done|]. by rewrite Hs, Hm.
    + intros (o & -> & (Hex & Ho)%elem_of_filter_b). apply existsb_elem in Hex as (d & Hd & [Hs Hm]%andb_true_iff). by exists d, o.
Qed.

Lemma is_in_one i j : is_in i [j] = (i =? j).
Proof. apply eq_true_iff_eq. rewrite is_in_true, list_elem_of_singleton. lia. Qed.
Lemma cte_count db r (sel : demande → bool) :
  tables_ok db → rs_include_numeric r = true → (∀ d o, selected r d o = sel d) →
  count_distinct (build_match_cte db r (λ _ o, o_id o))
  = Z.of_nat (List.length (List.filter (λ o, existsb (λ d, sel d && matches db d o) (db_demandes db)) (db_offers db))).
Proof.
  intros Hdb Hr Hs. apply count_offers_with; [done|]. intros x. rewrite elem_of_cte. unfold pairing. rewrite Hr. split.
  - intros (d & o & ? & ? & Hsel & ? & ->). rewrite Hs in Hsel. by exists d, o.
  - intros (d & o & ? & ? & ? & Hsel & ->). exists d, o. by rewrite Hs.
Qed.
Lemma matching_of_one db (Hdb : tables_ok db) d :
  d ∈ db_demandes db →
  List.filter (λ o, existsb (λ d', (d_id d' =? d_id d) && matches db d' o) (db_demandes db)) (db_offers db) = matching db d.
Proof.
  intros Hd. apply List.filter_ext. intros o. apply eq_true_iff_eq. rewrite existsb_elem. split.
  - intros (d' & Hd' & [E%Z.eqb_eq Hm]%andb_true_iff). assert (d' = d) as -> by (eapply (NoDup_map_inj_on d_id); eauto; apply Hdb). done.
  - intros Hm. exists d. split; [done|]. by rewrite Hm, Z.eqb_refl.
Qed.

Lemma exact_selected db (sel p : demande → bool) x :
  tables_ok db → exact db →
  (∀ d, p d = (has_active_client db d && ACTIVE_DEMANDE d && sel d) ∨ p d = (ACTIVE_DEMANDE d && sel d) ∨ p d = (sel d && ACTIVE_DEMANDE d)) →
  x ∈ map (λ p, o_id p.2) (stored db p (λ _, true)) ↔
  ∃ d o, d ∈ db_demandes db ∧ o ∈ db_offers db ∧ matches db d o = true ∧ sel d = true ∧ x = o_id o.
Proof.
  intros Hdb He Hp. rewrite exact_offers by done.
  split; [intros (d & o & Hd & Ho & Hm & _ & Hs & ->)|intros (d & o & Hd & Ho & Hm & Hs & ->)]; exists d, o;
    destruct (match_is_active db d o Hdb Hm) as (_ & _ & H2 & H1); specialize (Hp d); rewrite H1, H2 in Hp; cbn in Hp;
    rewrite andb_true_r in Hp; naive_solver.
Qed.
Lemma client_count_exact db i : tables_ok db → exact db → client_count db i = Z.of_nat (List.length (client_matches db i)).
Proof.
  intros Hdb He. apply (count_offers_with db (λ d, d_client d =? i)); [done|]. intros x.
  apply (exact_selected db (λ d, d_client d =? i)); auto.
Qed.

(** C37. The counters count matches.  When the stored candidates are what matches, the counter the cache is filled from, the
    count query of the matcher itself and the number of offers that match a demande of the client
    are one number; so are, for a demande, its fast counter, its batch counter and its query. *)
Theorem counters_agree db :
  tables_ok db → exact db →
  (∀ i, count_single_client_cte db i = Z.of_nat (List.length (client_matches db i))
        ∧ build_single_client_count_query db i = Z.of_nat (List.length (client_matches db i)))
  ∧ (∀ d, d ∈ db_demandes db →
        _count_for_demande_fast db (d_id d) = Z.of_nat (List.length (matching db d))
        ∧ build_demande_match_count_query db (d_id d) = Z.of_nat (List.length (matching db d))
        ∧ count_demandes_by_ids db [d_id d] !! d_id d = Some (Z.of_nat (List.length (matching db d)))).
Proof.
  intros Hdb He.
  split.
  - intros i. rewrite count_single_lookup. split.
    + by apply client_count_exact.
    + apply (cte_count db (for_clients [i]) (λ d, d_client d =? i)); [done|done|]. intros d o. unfold selected. cbn. by rewrite andb_true_r, is_in_one.
  - intros d Hd. rewrite <- (matching_of_one db Hdb d Hd). split_and!.
    + apply (count_offers_with db (λ d', d_id d' =? d_id d)); [done|]. intros x. apply (exact_selected db (λ d', d_id d' =? d_id d)); auto.
    + apply (cte_count db (for_demandes [d_id d]) (λ d', d_id d' =? d_id d)); [done|done|]. intros d' o. unfold selected. cbn. by rewrite andb_true_r, is_in_one.
    + unfold count_demandes_by_ids, count_demandes_for_ids, per_demande.
      rewrite (count_by_key db d_id ACTIVE_DEMANDE) by (intros chunk d'; apply andb_comm).
      rewrite is_in_one, Z.eqb_refl. f_equal. apply (count_offers_with db (λ d', d_id d' =? d_id d)); [done|]. intros x.
      apply (exact_selected db (λ d', d_id d' =? d_id d)); auto.
Qed.

Lemma rebuilt_exact sql_lower limit ids db db' :
  tables_ok db → rebuilt sql_lower limit ids db db' → (∀ d, d ∈ db_demandes db → d_id d ∈ ids) → exact db'.
Proof.
  intros Hdb [Hs _ Hc _] Hall k. rewrite (proj1 (spec_same sql_lower limit _ _ Hs) k), Hc.
  destruct (is_in k.1 ids) eqn:E; [done|]. unfold spec_candidate, with_rows, demande_of.
  destruct (by_key d_id k.1 (db_demandes db)) as [d|] eqn:Ed.
  - apply by_key_Some in Ed as [Hd Ek]. assert (is_in k.1 ids = true) by (apply is_in_true; rewrite <- Ek; by apply Hall). congruence.
  - destruct (db_candidates db !! k) eqn:Ec; [|done]. apply by_key_None in Ed. destruct Ed.
    by destruct (tb_candidates _ Hdb k) as [? _].
Qed.
Lemma rebuilt_counts_ok sql_lower limit ids db db' : rebuilt sql_lower limit ids db db' → counts_ok db → counts_ok db'.
Proof. intros [(Ec & _) En _ _] [? ? ?]. by split; rewrite ?Ec, ?En. Qed.

(** C11. From the demandes to the counts.  Once the matches of every demande have been rebuilt, by either pipeline, a refresh
    gives each active client that had a dirty count or none the number of offers that match one of
    its demandes. *)
Theorem counts_follow_the_matches `{CountEnv} `{LeaseEnv} sql_lower mode ids limit fault describe times task_id agency db s :
  tables_ok db → counts_ok db → (∀ d, d ∈ db_demandes db → d_id d ∈ ids) →
  cw_db s = (compute_match_artifacts_for_demandes sql_lower mode ids limit db).2 → cw_locked s = false → (∀ batch, fault batch = None) →
  ∃ a s', rebuild_match_cache_dirty fault describe times task_id (Some agency) s = (Ok a, s')
    ∧ ∀ i c, active_client db i = Some c → dirty_or_missing db i = true →
        cc_count <$> db_counts (cw_db s') !! i = Some (Z.of_nat (List.length (client_matches db i))).
Proof.
  intros Hdb Hco Hall Es Hl Hf. destruct (compute_run sql_lower limit mode db ids Hdb) as (db' & E & Hr). rewrite E in Es. cbn in Es.
  assert (counts_ok (cw_db s)) as Hco' by (rewrite Es; by eapply rebuilt_counts_ok).
  destruct (dirty_work fault (started times task_id s)) as (s2 & E2 & R & _); [by rewrite started_db|done|].
  destruct (rebuild_task_ok describe times task_id agency _ s _ s2 Hl E2) as (s3 & E3 & D3 & _).
  eexists _, s3. split; [exact E3|]. intros i c Hc Hd. rewrite D3, R, started_db, Es, settled_unfold.
  pose proof (rb_rows _ _ _ _ _ Hr) as Hs. pose proof (rb_counts _ _ _ _ _ Hr) as Hn.
  assert (active_client db' i = Some c) as -> by (unfold active_client, find_client in *; by rewrite (proj1 Hs)).
  unfold dirty_or_missing in *. rewrite Hn, Hd. cbn. f_equal.
  assert (exact db') as Hex. { eapply rebuilt_exact; [done|done|]. intros d Hd'. apply positive_ids_elem. split; [by apply Hall|by apply Hdb]. }
  assert (tables_ok db') as Hdb'. { eapply tables_respec; [exact Hs|exact (rb_candidates _ _ _ _ _ Hr)|done]. }
  rewrite client_count_exact by done. f_equal. f_equal. unfold client_matches.
  rewrite (proj1 (proj2 Hs)), (proj1 (proj2 (proj2 (proj2 Hs)))). apply List.filter_ext. intros o. apply existsb_cong. intros d. by rewrite (matches_same _ _ Hs).
Qed.

(** ** An agency with a client to count and a client that left *)

Module CountDemo.
#[local] Instance env : CountEnv :=
  {| count_environ := []; hub_match_batch_size := 1; hub_default_batch_size := 100; adaptive_chunk := 100;
     hub_positive := eq_refl; adaptive_positive := le_n_S _ _ (Nat.le_0_l 99) |}.
#[local] Instance leases : LeaseEnv := {| lease_environ := []; table_exists := true |}.
Definition left_client : client := mkClient 2 7 "active" None None (Some 50).
Definition new_client : client := mkClient 3 7 "active" None (Some 3) None.
(** A purchase of a flat in wilaya 31, by client 1 as well. *)
Definition demande3 : demande :=
  mkDemande 3 1 7 None 2 ACTION_ID_BUY 31 0 0 0 (mkRange None None) (mkRange None None) (mkRange None None)
    None None None None None None None None.
Definition offer4 : offer :=
  mkOffer 4 1 7 None 2 ACTION_ID_SELL "available" 31 3 80 50 (Some (mkRange (Some 50%Q) (Some 50%Q))) None 0 0 0 None None None.
Definition tables : match_db :=
  mkDb [Demo.client1; left_client; new_client] [Demo.demande1; Demo.demande2; demande3] [Demo.listing1]
    [Demo.offer1; Demo.offer2; Demo.offer3; offer4] [(1, 5)] [(1, 5); (2, 5); (2, 6)] ∅ ∅
    {[1 := mkCount 9 None None true; 2 := mkCount 5 None None true]}.
Definition db : match_db := (compute_match_artifacts_for_demandes lower Direct [1; 2; 3] (Some 100) tables).2.
Definition job : jlease := mkJLease 7 "dirty" "_" "t1" Queued EmptyString 0 0 100.
Definition world : cache_world := mkCache db [job] false.
Definition first_page_fails (batch : list Z) : option exn :=
  if bool_decide (batch = [2]) then Some (OtherError "statement timeout") else None.

Lemma tables_are_ok : tables_ok tables.
Proof.
  split; try (apply (bool_decide_unpack _); vm_compute; exact I).
  - intros o Ho. exists Demo.listing1. split; [apply list_elem_of_here|]. cbn in Ho. by repeat (apply elem_of_cons in Ho as [->|Ho]); [..|apply elem_of_nil in Ho].
  - intros k [v Hk]. cbn in Hk. by rewrite lookup_empty in Hk.
  - intros d Hd. cbn in Hd. by repeat (apply elem_of_cons in Hd as [->|Hd]); [..|apply elem_of_nil in Hd].
Qed.
Lemma counts_are_ok : counts_ok tables.
Proof.
  split.
  - apply (bool_decide_unpack _); vm_compute; exact I.
  - intros c Hc. cbn in Hc. by repeat (apply elem_of_cons in Hc as [->|Hc]); [..|apply elem_of_nil in Hc].
  - intros i. cbn. destruct (decide (i = 1)) as [->|]; [done|]. destruct (decide (i = 2)) as [->|]; [done|].
    rewrite lookup_insert_ne, lookup_singleton_ne by done. by intros [? ?].
Qed.
Lemma db_rebuilt : rebuilt lower (Some 100) (positive_ids [1; 2; 3]) tables db.
Proof. unfold db. by destruct (compute_run lower (Some 100) Direct tables [1; 2; 3] tables_are_ok) as (db' & -> & H). Qed.
Lemma world_ok : counts_ok (cw_db world).
Proof. exact (rebuilt_counts_ok _ _ _ _ _ db_rebuilt counts_are_ok). Qed.
Lemma all_rebuilt d : d ∈ db_demandes tables → d_id d ∈ [1; 2; 3].
Proof. intros Hd. cbn in Hd. by repeat (apply elem_of_cons in Hd as [->|Hd]); [apply (bool_decide_unpack _); vm_compute; exact I..|apply elem_of_nil in Hd]. Qed.
Lemma db_exact : exact db.
Proof.
  eapply rebuilt_exact; [exact tables_are_ok|exact db_rebuilt|]. intros d Hd%all_rebuilt.
  revert Hd. generalize (d_id d). intros i Hi. by repeat (apply elem_of_cons in Hi as [->|Hi]); [apply (bool_decide_unpack _); vm_compute; exact I..|apply elem_of_nil in Hi].
Qed.
Lemma db_tables_ok : tables_ok db.
Proof. eapply tables_respec; [exact (rb_rows _ _ _ _ _ db_rebuilt)|exact (rb_candidates _ _ _ _ _ db_rebuilt)|exact tables_are_ok]. Qed.

(** The rebuild of the counts of a wilaya stores, as the count of a client, the matches of its
    demandes in that wilaya alone, and marks it clean. *)
Example wilaya_rebuild_forgets_the_rest :
  let s := (rebuild_match_cache_wilaya (λ _, EmptyString) (0, 1) None (Some 7) (Some 31) world).2 in
  cc_count <$> db_counts (cw_db s) !! 1 = Some 1 ∧ cc_dirty <$> db_counts (cw_db s) !! 1 = Some false
  ∧ count_single_client_cte (cw_db s) 1 = 4.
Proof. vm_compute. done. Qed.
(** The dirty row of a client that left is read by every refresh and never cleaned or removed. *)
Example dirty_row_of_a_client_that_left :
  let s := (rebuild_match_cache_dirty (λ _, None) (λ _, EmptyString) (0, 1) None (Some 7) world).2 in
  (get_dirty_client_count (cw_db s)).1 = Ok 1 ∧ (is_cache_clean (cw_db s)).1 = Ok false.
Proof. vm_compute. done. Qed.
End CountDemo.
#[local] Existing Instance CountDemo.env.
#[local] Existing Instance CountDemo.leases.

Lemma dirty_counts_are_refreshed_witness :
  ∃ s', rebuild_match_cache_dirty (λ _, None) (λ _, EmptyString) (10, 20) (Some "t1") (Some 7) CountDemo.world
        = (Ok (Rebuilt 3 (Some 3)), s')
    ∧ db_counts (cw_db s') !! 1 = Some (mkCount 4 (Some "agency") (Some 3) false)
    ∧ db_counts (cw_db s') !! 3 = Some (mkCount 0 None (Some 3) false) ∧ lease_is (Some "t1") Done s'.
Proof.
  destruct (dirty_counts_are_refreshed (λ _, None) (λ _, EmptyString) (10, 20) (Some "t1") 7 CountDemo.world
              CountDemo.world_ok eq_refl (λ _, eq_refl)) as (s' & E & R & L).
  exists s'. split; [rewrite E; vm_compute; reflexivity|]. split; [|split; [|exact L]].
  - rewrite (R 1). vm_compute. reflexivity.
  - rewrite (R 3). vm_compute. reflexivity.
Defined.
Lemma failed_rebuild_is_resumed_witness :
  let r := rebuild_match_cache_dirty CountDemo.first_page_fails (λ _, "timeout") (10, 20) (Some "t1") (Some 7) CountDemo.world in
  r.1 = Err (OtherError "statement timeout") ∧ lease_is (Some "t1") Failed r.2
  ∧ ∃ a s3, rebuild_match_cache_dirty (λ _, None) (λ _, "timeout") (30, 40) None (Some 7) (mkCache (cw_db r.2) [] false) = (Ok a, s3)
      ∧ db_counts (cw_db s3) !! 3 = Some (mkCount 0 None (Some 3) false).
Proof.
  intros r. assert (r = (Err (OtherError "statement timeout"), r.2)) as E by (vm_compute; reflexivity).
  destruct (failed_rebuild_is_resumed CountDemo.first_page_fails (λ _, "timeout") (10, 20) (Some "t1") 7 CountDemo.world
              (OtherError "statement timeout") r.2 CountDemo.world_ok eq_refl E) as (L & _ & R).
  split; [exact (f_equal fst E)|]. split; [exact L|].
  destruct (R (30, 40) None (mkCache (cw_db r.2) [] false) eq_refl eq_refl) as (a & s3 & E3 & R3).
  exists a, s3. split; [exact E3|]. rewrite (R3 3). vm_compute. reflexivity.
Defined.
Lemma counters_agree_witness :
  count_single_client_cte CountDemo.db 1 = build_single_client_count_query CountDemo.db 1
  ∧ _count_for_demande_fast CountDemo.db 1 = 2.
Proof.
  destruct (counters_agree CountDemo.db CountDemo.db_tables_ok CountDemo.db_exact) as [Hc Hd]. split.
  - destruct (Hc 1) as [-> ->]. reflexivity.
  - destruct (Hd Demo.demande1) as (E & _ & _).
    { rewrite (proj1 (proj2 (rb_rows _ _ _ _ _ CountDemo.db_rebuilt))). apply list_elem_of_here. }
    refine (eq_trans E _). vm_compute. reflexivity.
Defined.
Lemma counts_follow_the_matches_witness :
  ∃ a s', rebuild_match_cache_dirty (λ _, None) (λ _, EmptyString) (10, 20) None (Some 7) CountDemo.world = (Ok a, s')
    ∧ cc_count <$> db_counts (cw_db s') !! 1 = Some 4.
Proof.
  destruct (counts_follow_the_matches lower Direct [1; 2; 3] (Some 100) (λ _, None) (λ _, EmptyString) (10, 20) None 7
              CountDemo.tables CountDemo.world CountDemo.tables_are_ok CountDemo.counts_are_ok CountDemo.all_rebuilt eq_refl eq_refl (λ _, eq_refl))
    as (a & s' & E & R).
  exists a, s'. split; [exact E|]. rewrite (R 1 Demo.client1 eq_refl eq_refl). vm_compute. reflexivity.
Defined.
