(* ===== verification/MatchTasks.v ===== *)
(** * The tasks that rebuild matches

    Models src/server/services/match_jobs.py, which records a request and hands it to a worker, and
    the tasks of src/server/api/tasks_match_pairs.py, over the tables of Matching and the rebuild
    state of RebuildState.

    A task runs several transactions.  What others commit while it runs is [meanwhile], given to
    the task: it is applied after the generation is read, before the matches are computed, and once
    more between the computation and its completion.  The time of day does not advance within a
    call.  Sleeps between batches, spans, log lines and the tripwires of the runtime profile are left
    out; the numbers of the effective profile are parameters. *)

From S2P Require Import Prelude Keyset PyValue PyFloat RebuildState WorkLease Matching MatchArtifacts MatchCounts.
Local Open Scope Z_scope.

(** ** Settings *)

Class PairEnv := {
  pair_environ : list (string * string);
  (** [match_runtime_profile.resolve_effective_profile()] *)
  profile_demande_batch_size : nat;
  profile_task_chunk_size : nat;
  profile_full_sql_threshold : Z;
  profile_batch_pos : (0 < profile_demande_batch_size)%nat;
  profile_chunk_pos : (0 < profile_task_chunk_size)%nat
}.
(** [max(lo, min(int(environ.get(name, default).strip()), hi))], or the default clamped the same way. *)
Definition clamped_env (environ : list (string * string)) (name : string) (dflt lo hi : Z) : Z :=
  let value := match dget name environ with
               | Some raw => default dflt (parse_int (strip raw))
               | None => dflt
               end in
  Z.max lo (Z.min value hi).

Section Settings.
Context `{PairEnv}.
(* src/server/api/tasks_match_pairs.py :: _demande_stream_page_size *)
Definition _demande_stream_page_size : Z := clamped_env pair_environ "IMMOAPP_MATCH_PAIRS_DEMANDE_STREAM_PAGE_SIZE" 500 50 5000.
(* src/server/api/tasks_match_pairs.py :: _demande_enqueue_task_batch_size *)
Definition _demande_enqueue_task_batch_size : Z := clamped_env pair_environ "IMMOAPP_MATCH_PAIRS_ENQUEUE_BATCH_SIZE" 200 1 1000.
(* src/server/api/tasks_match_pairs.py :: _demande_flush_max_batches *)
Definition _demande_flush_max_batches : Z := clamped_env pair_environ "IMMOAPP_MATCH_PAIRS_FLUSH_MAX_BATCHES" 8 1 64.
(* src/server/services/match_jobs.py :: _demande_task_chunk_size *)
Definition jobs_task_chunk_size : Z := clamped_env pair_environ "IMMOAPP_MATCH_PAIRS_TASK_CHUNK_SIZE" 1000 50 5000.
(* src/server/services/match_jobs.py :: _demande_enqueue_debounce_seconds *)
Definition _demande_enqueue_debounce_seconds : Z := clamped_env pair_environ "IMMOAPP_MATCH_PAIRS_ENQUEUE_DEBOUNCE_SECONDS" 1 0 30.
(* src/server/services/match_jobs.py :: _demande_enqueue_queue_ttl_seconds *)
Definition _demande_enqueue_queue_ttl_seconds : Z := clamped_env pair_environ "IMMOAPP_MATCH_PAIRS_ENQUEUE_QUEUE_TTL_SECONDS" 300 30 3600.
End Settings.

(* src/server/api/tasks_core.py :: normalize_pairs_limit *)
Definition normalize_pairs_limit (limit : option Z) : option Z :=
  match limit with Some n => if n <=? 0 then None else Some n | None => None end.

(** ** The world of an agency *)

Inductive match_task : Type :=
  | t_demande (id : Z) (limit : option Z)
  | t_demandes (ids : list Z) (limit : option Z)
  | t_flush
  | t_client (id : Z) (include_deleted : bool)
  | t_wilaya (id : Z)
  | t_offer (id : Z) (hint : list Z)
  | t_offers (ids : list Z)
  | t_counts.
#[export] Instance match_task_eq_dec : EqDecision match_task.
Proof. solve_decision. Defined.

Record match_world := mkWorld {
  mw_now : Z;
  mw_db : match_db;
  mw_rebuild : rtable;
  (** Messages the broker took, with their delay; and whether it takes any. *)
  mw_sent : list (match_task * Z);
  mw_broker : bool;
  (** Two keys of the cache, until when. *)
  mw_flush_lock : option Z;
  mw_flush_requested : option Z;
  (** Scopes whose advisory lock another task holds. *)
  mw_held : list string
}.
Abbreviation MW := (M match_world).
Definition on_tables {A} (m : DM A) : MW A := λ s,
  ((m (mw_db s)).1, mkWorld (mw_now s) (m (mw_db s)).2 (mw_rebuild s) (mw_sent s) (mw_broker s) (mw_flush_lock s)
                      (mw_flush_requested s) (mw_held s)).
Definition on_rebuild {A} (m : Z → RM A) : MW A := λ s,
  ((m (mw_now s) (mw_rebuild s)).1, mkWorld (mw_now s) (mw_db s) (m (mw_now s) (mw_rebuild s)).2 (mw_sent s) (mw_broker s)
                      (mw_flush_lock s) (mw_flush_requested s) (mw_held s)).
Definition set_flush_lock (v : option Z) (s : match_world) : match_world :=
  mkWorld (mw_now s) (mw_db s) (mw_rebuild s) (mw_sent s) (mw_broker s) v (mw_flush_requested s) (mw_held s).
Definition set_flush_requested (v : option Z) (s : match_world) : match_world :=
  mkWorld (mw_now s) (mw_db s) (mw_rebuild s) (mw_sent s) (mw_broker s) (mw_flush_lock s) v (mw_held s).
Definition OperationalError : exn := OtherError "OperationalError".
(** [task.apply_async(..., countdown)]; [delay] has none. *)
Definition send (t : match_task) (countdown : Z) : MW unit :=
  let! up := gets mw_broker in
  if up then modify (λ s, mkWorld (mw_now s) (mw_db s) (mw_rebuild s) (mw_sent s ++ [(t, countdown)]) (mw_broker s)
                            (mw_flush_lock s) (mw_flush_requested s) (mw_held s))
  else raise OperationalError.
(** Whether a key of the cache is there. *)
Definition live (now : Z) (key : option Z) : bool := match key with Some until => now <? until | None => false end.
(** [except Exception: logger.warning(...)] *)
Definition swallow {A} (d : A) (m : MW A) : MW A := catch m (λ _, Some (ret d)).

Section Jobs.
Context `{PairEnv} `{RebuildConfig}.

(** ** Requests (match_jobs.py) *)

(* src/server/services/match_jobs.py :: schedule_demande_rebuild_flush *)
Definition schedule_demande_rebuild_flush : MW bool :=
  let delay_seconds := _demande_enqueue_debounce_seconds in
  let lock_timeout := Z.max _demande_enqueue_queue_ttl_seconds (delay_seconds + 30) in
  let! now := gets mw_now in
  let! locked := gets (λ s, live (mw_now s) (mw_flush_lock s)) in
  if locked then do! modify (set_flush_requested (Some (now + lock_timeout))) in ret false
  else
    do! modify (set_flush_lock (Some (now + lock_timeout))) in
    catch (do! send t_flush delay_seconds in ret true)
      (λ e, Some (do! modify (set_flush_lock None) in raise e)).
(* src/server/services/match_jobs.py :: pop_demande_rebuild_flush_requested *)
Definition pop_demande_rebuild_flush_requested : MW bool :=
  let! requested := gets (λ s, live (mw_now s) (mw_flush_requested s)) in
  do! modify (set_flush_requested None) in ret requested.
(* src/server/services/match_jobs.py :: clear_demande_rebuild_flush *)
Definition clear_demande_rebuild_flush : MW unit := modify (set_flush_lock None).
(* src/server/services/match_jobs.py :: count_pending_demande_rebuilds *)
Definition count_pending_demande_rebuilds : MW Z :=
  let! n := on_rebuild (λ now, count_dispatchable now "demande") in ret (Z.max 0 n).
(** [locked] are the rows another transaction holds, [token] a fresh uuid. *)
(* src/server/services/match_jobs.py :: dequeue_demande_rebuild_batch *)
Definition dequeue_demande_rebuild_batch (locked : list Z) (token : string) (batch_size : Z) : MW (list Z) :=
  on_rebuild (λ now, claim_dispatchable_scope_ids now "demande" (Z.to_nat (Z.max 1 batch_size)) locked token None).
(* src/server/services/match_jobs.py :: _queue_demande_rebuild_requests *)
Definition _queue_demande_rebuild_requests (demande_ids : list Z) : MW bool :=
  match positive_ids demande_ids with
  | [] => ret true
  | _ => swallow false (let! _ := schedule_demande_rebuild_flush in ret true)
  end.
(* src/server/services/match_jobs.py :: enqueue_rebuild_demande_pairs *)
Definition enqueue_rebuild_demande_pairs (demande_id : Z) : MW unit :=
  swallow tt
    (let! should := on_rebuild (λ now, request_rebuild now now "demande" demande_id _demande_enqueue_debounce_seconds) in
     if should then let! _ := _queue_demande_rebuild_requests [demande_id] in ret tt else ret tt).
(* src/server/services/match_jobs.py :: enqueue_rebuild_demande_pairs_batch *)
Definition enqueue_rebuild_demande_pairs_batch (demande_ids : list Z) : MW unit :=
  match positive_ids demande_ids with
  | [] => ret tt
  | ids =>
      swallow tt
        (let! to_enqueue := on_rebuild (λ now, request_rebuild_batch now now "demande" ids _demande_enqueue_debounce_seconds) in
         match to_enqueue with [] => ret tt | _ => let! _ := _queue_demande_rebuild_requests to_enqueue in ret tt end)
  end.
(* src/server/services/match_jobs.py :: _record_rebuild_request *)
Definition _record_rebuild_request (scope : string) (scope_id : Z) : MW bool :=
  on_rebuild (λ now, request_rebuild now now scope scope_id 0).
Definition request_and_send (scope : string) (scope_id : Z) (t : match_task) : MW unit :=
  swallow tt (let! should := _record_rebuild_request scope scope_id in if should then send t 0 else ret tt).
(* src/server/services/match_jobs.py :: enqueue_rebuild_client_pairs *)
Definition enqueue_rebuild_client_pairs (client_id : Z) (include_deleted : bool) : MW unit :=
  request_and_send "client" client_id (t_client client_id include_deleted).
(* src/server/services/match_jobs.py :: enqueue_rebuild_offer_pairs *)
Definition enqueue_rebuild_offer_pairs (offer_id : Z) (demande_ids_hint : list Z) : MW unit :=
  request_and_send "offer" offer_id (t_offer offer_id demande_ids_hint).
(* src/server/services/match_jobs.py :: enqueue_rebuild_offer_pairs_batch *)
Definition enqueue_rebuild_offer_pairs_batch (offer_ids : list Z) : MW unit :=
  match positive_ids offer_ids with
  | [] => ret tt
  | ids =>
      swallow tt
        (let! to_enqueue := on_rebuild (λ now, request_rebuild_batch now now "offer" ids 0) in
         for_each (λ chunk, send (t_offers chunk) 0)
           (chunks_of (List.length to_enqueue) (Z.to_nat jobs_task_chunk_size) to_enqueue))
  end.
(* src/server/services/match_jobs.py :: enqueue_rebuild_wilaya_pairs *)
Definition enqueue_rebuild_wilaya_pairs (wilaya_id : Z) : MW unit :=
  if wilaya_id <=? 0 then ret tt else request_and_send "wilaya" wilaya_id (t_wilaya wilaya_id).

(** ** Tasks (tasks_match_pairs.py) *)

(** What a task answers: that another holds its lock, or the pairs it stored, the candidates it found
    and how many demandes it saw. *)
Inductive task_answer : Type := Not_run | Done_with (stored total demandes : Z).

Context (sql_lower : string → string) (mode : pipeline).
Context (meanwhile : match_world → match_world).

(** [with match_pairs_rebuild_lock(schema, agency_id, scope) as locked] *)
(* src/server/api/tasks_core.py :: match_pairs_rebuild_lock *)
Definition match_pairs_rebuild_lock {A} (scope : string) (body : bool → MW A) : MW A :=
  let! taken := gets (λ s, bool_decide (scope ∈ mw_held s)) in body (negb taken).
(* src/server/api/tasks_match_pairs.py :: _cascade_count_cache_refresh *)
Definition _cascade_count_cache_refresh : MW unit := swallow tt (send t_counts 0).
(* src/server/api/tasks_match_pairs.py :: _demande_batches *)
Definition _demande_batches (demande_ids : list Z) (batch_size : nat) : list (list Z) :=
  chunks_of (List.length demande_ids) batch_size demande_ids.
(** The batches go one by one through [adaptive_batch_process]. *)
(* src/server/api/tasks_match_pairs.py :: _compute_demande_chunks *)
Definition _compute_demande_chunks (demande_ids : list Z) (limit : option Z) : MW (Z * Z) :=
  match positive_ids demande_ids with
  | [] => ret (0, 0)
  | ids =>
      if Z.of_nat (List.length ids) <=? profile_full_sql_threshold
      then on_tables (compute_match_pairs_for_demandes sql_lower mode ids limit)
      else
        let! parts := each (λ b, on_tables (compute_match_pairs_for_demandes sql_lower mode b limit))
                        (_demande_batches ids profile_demande_batch_size) in
        ret (sum_fst parts, sum_snd parts)
  end.
Definition task_limit (limit : option Z) : option Z :=
  (λ n, Z.max 1 (Z.min n DEFAULT_MATCH_PAIRS_LIMIT)) <$> normalize_pairs_limit limit.
Definition start_of_scope (scope : string) (scope_id : Z) : MW Z := on_rebuild (λ _, get_generation scope scope_id).
Definition complete_scope (scope : string) (scope_id start : Z) : MW bool :=
  on_rebuild (λ now, complete_rebuild now scope scope_id start).

(* src/server/api/tasks_match_pairs.py :: rebuild_match_pairs_for_demande *)
Definition rebuild_match_pairs_for_demande (demande_id : Z) (limit : option Z) : MW task_answer :=
  match_pairs_rebuild_lock (pretty demande_id) (λ locked,
    if negb locked then ret Not_run
    else
      let! start_gen := start_of_scope "demande" demande_id in
      do! modify meanwhile in
      let! r := on_tables (compute_match_pairs_for_demande sql_lower mode demande_id (task_limit limit)) in
      do! modify meanwhile in
      let! needs_rerun := complete_scope "demande" demande_id start_gen in
      do! (if needs_rerun then send (t_demande demande_id limit) 5 else ret tt) in
      do! _cascade_count_cache_refresh in
      ret (Done_with r.1 r.2 1)).
(* src/server/api/tasks_match_pairs.py :: rebuild_match_pairs_for_demandes_batch *)
Definition rebuild_match_pairs_for_demandes_batch (demande_ids : list Z) (limit : option Z) : MW task_answer :=
  match positive_ids demande_ids with
  | [] => ret (Done_with 0 0 0)
  | (i0 :: _) as ids =>
      match_pairs_rebuild_lock
        ("demande_batch:" +:+ pretty i0 +:+ ":" +:+ pretty (List.last ids i0) +:+ ":" +:+ pretty (Z.of_nat (List.length ids)))
        (λ locked,
          if negb locked then ret Not_run
          else
            let! rows := on_rebuild (λ _, gets (select_ids "demande" ids)) in
            let start_generations := map (λ r : Z * rrow, (r.1, rr_generation r.2)) rows in
            do! modify meanwhile in
            let! r := _compute_demande_chunks ids (task_limit limit) in
            do! modify meanwhile in
            let! rerun_ids := on_rebuild (λ now, complete_rebuild_batch now "demande"
                                            (map (λ i, (i, start_of start_generations i)) ids)) in
            do! match rerun_ids with [] => ret tt | _ => send (t_demandes (sorted_set rerun_ids) limit) 5 end in
            do! _cascade_count_cache_refresh in
            ret (Done_with r.1 r.2 (Z.of_nat (List.length ids))))
  end.

(** The rounds of a flush: batches are claimed until there is none or the rounds are over. *)
Fixpoint claim_rounds (locked : list Z) (token : nat → string) (n : nat) : MW (list Z) :=
  match n with
  | O => ret []
  | S n' =>
      let! batch := dequeue_demande_rebuild_batch locked (token n) _demande_enqueue_task_batch_size in
      match batch with
      | [] => ret []
      | _ => let! rest := claim_rounds locked token n' in ret (batch ++ rest)
      end
  end.
(** [try: body finally: final] *)
Definition finally {A} (body : MW A) (final : MW unit) : MW A := λ s,
  match body s with
  | (Ok a, s') => (do! final in ret a) s'
  | (Err e, s') => (do! final in raise e) s'
  end.
(** The demandes handed over, in how many tasks; and whether another flush follows. *)
(* src/server/api/tasks_match_pairs.py :: flush_rebuild_demande_pairs_queue *)
Definition flush_rebuild_demande_pairs_queue (locked_rows : list Z) (token : nat → string) : MW (option (Z * Z * bool)) :=
  let! done :=
    finally
      (match_pairs_rebuild_lock "demande_flush_queue" (λ locked,
        if negb locked then ret None
        else
          let! queued := claim_rounds locked_rows token (Z.to_nat _demande_flush_max_batches) in
          let ids := positive_ids queued in
          let batches := _demande_batches ids profile_task_chunk_size in
          do! for_each (λ b, send (t_demandes b (Some 100)) 0) batches in
          ret (Some (Z.of_nat (List.length ids), Z.of_nat (List.length batches)))))
      clear_demande_rebuild_flush in
  match done with
  | None => ret None
  | Some d =>
      let! follow_up := pop_demande_rebuild_flush_requested in
      let! remaining := count_pending_demande_rebuilds in
      if (0 <? remaining) || follow_up then let! _ := schedule_demande_rebuild_flush in ret (Some (d, true))
      else ret (Some (d, false))
  end.

(* src/server/api/tasks_match_pairs.py :: expand_match_pairs_for_demande *)
Definition expand_match_pairs_for_demande (demande_id : Z) : MW task_answer :=
  match_pairs_rebuild_lock ("expand:" +:+ pretty demande_id) (λ locked,
    if negb locked then ret Not_run
    else
      let! r := on_tables (compute_match_pairs_for_demande sql_lower mode demande_id None) in
      do! _cascade_count_cache_refresh in
      ret (Done_with r.1 r.2 1)).

(** The demandes of a page of [iter_demande_ids_for_wilaya] or [iter_demande_ids_for_client]. *)
Definition demande_ids_where (p : demande → bool) (db : match_db) : list Z := map d_id (List.filter p (db_demandes db)).
Definition demande_page (p : demande → bool) (last : Z) : MW (list Z) :=
  gets (λ s, page_after (Z.to_nat _demande_stream_page_size) last (demande_ids_where p (mw_db s))).
(* src/core/data/demande_repo_read.py :: iter_demande_ids_for_wilaya *)
Definition of_wilaya (wilaya_id : Z) (d : demande) : bool := not_deleted (d_deleted_at d) && (d_wilaya_id d =? wilaya_id).
(* src/core/data/demande_repo_read.py :: iter_demande_ids_for_client *)
Definition of_client (client_id : Z) (include_deleted : bool) (d : demande) : bool :=
  (d_client d =? client_id) && (include_deleted || not_deleted (d_deleted_at d)).
(** The two tasks that go through the demandes of a scope: (stored, how many demandes). *)
Definition rebuild_pages (p : demande → bool) : MW (Z * Z) :=
  let! fuel := gets (λ s, S (List.length (db_demandes (mw_db s)))) in
  let! parts := keyset fuel (demande_page p)
    (λ page, let! r := _compute_demande_chunks page (Some DEFAULT_MATCH_PAIRS_LIMIT) in ret (r.1, Z.of_nat (List.length page))) 0 in
  ret (sum_fst parts, sum_snd parts).
Definition rebuild_scope (scope : string) (scope_id : Z) (p : demande → bool) (again : match_task) : MW task_answer :=
  match_pairs_rebuild_lock (scope +:+ ":" +:+ pretty scope_id) (λ locked,
    if negb locked then ret Not_run
    else
      let! start_gen := start_of_scope scope scope_id in
      do! modify meanwhile in
      let! r := rebuild_pages p in
      do! modify meanwhile in
      let! needs_rerun := complete_scope scope scope_id start_gen in
      do! (if needs_rerun then send again 5 else ret tt) in
      do! _cascade_count_cache_refresh in
      ret (Done_with r.1 0 r.2)).
(** With the id of the wilaya, when the database knows it. *)
(* src/server/api/tasks_match_pairs.py :: rebuild_match_pairs_for_wilaya *)
Definition rebuild_match_pairs_for_wilaya (resolved_id : option Z) : MW task_answer :=
  match resolved_id with
  | None | Some 0 => ret Not_run
  | Some w => rebuild_scope "wilaya" w (of_wilaya w) (t_wilaya w)
  end.
(* src/server/api/tasks_match_pairs.py :: rebuild_match_pairs_for_client *)
Definition rebuild_match_pairs_for_client (client_id : Z) (include_deleted : bool) : MW task_answer :=
  rebuild_scope "client" client_id (of_client client_id include_deleted) (t_client client_id include_deleted).

(* src/server/api/tasks_match_pairs.py :: rebuild_match_pairs_for_offer *)
Definition rebuild_match_pairs_for_offer (offer_id : Z) (demande_ids_hint : list Z) : MW task_answer :=
  let! found := gets (λ s, get_demande_ids_for_offer (mw_db s) offer_id) in
  let hinted := normalized demande_ids_hint in
  let demande_ids := match hinted with [] => found | _ => sorted_set (found ++ hinted) end in
  match_pairs_rebuild_lock ("offer:" +:+ pretty offer_id) (λ locked,
    if negb locked then ret Not_run
    else
      let! start_gen := start_of_scope "offer" offer_id in
      do! on_tables (do! clear_candidates_for_offer offer_id in clear_pairs_for_offer offer_id) in
      do! modify meanwhile in
      let! r := _compute_demande_chunks demande_ids (Some DEFAULT_MATCH_PAIRS_LIMIT) in
      do! modify meanwhile in
      let! needs_rerun := complete_scope "offer" offer_id start_gen in
      do! (if needs_rerun then send (t_offer offer_id demande_ids) 5 else ret tt) in
      do! _cascade_count_cache_refresh in
      ret (Done_with r.1 0 (Z.of_nat (List.length demande_ids)))).
(* src/server/api/tasks_match_pairs.py :: rebuild_match_pairs_for_offers_batch *)
Definition rebuild_match_pairs_for_offers_batch (offer_ids : list Z) : MW (Z * Z * Z) :=
  let ids := positive_ids offer_ids in
  let! answers := each (λ i, rebuild_match_pairs_for_offer i []) ids in
  ret (Z.of_nat (List.length ids),
       sum_over (λ a, match a with Not_run => 0 | Done_with stored _ _ => stored end) answers,
       sum_over (λ a, match a with Not_run => 0 | Done_with _ _ n => n end) answers).
End Jobs.
