(* ===== verification/MatchTaskProps.v ===== *)
(** * What the tasks leave of the matches

    Rebuilding in batches is rebuilding at once; the tasks of a client and of a wilaya go through
    all their demandes; and the task of an offer, given the demandes it was stored with, leaves what a
    rebuild of everything would leave. *)

From S2P Require Import Prelude Keyset PyValue PyFloat RebuildState RebuildProps WorkLease Matching MatchArtifacts MatchingProps MatchArtifactProps.
From S2P Require Import MatchPipelineProps MatchCounts MatchCountProps MatchTasks.
From Stdlib Require Import QArith.
Local Open Scope Z_scope.

(** ** Rebuilding in pieces *)

Section Pieces.
Context (sql_lower : string → string) (limit : option Z).

Lemma rebuilt_ext ids ids' db db' :
  (∀ i, i ∈ ids ↔ i ∈ ids') → rebuilt sql_lower limit ids db db' → rebuilt sql_lower limit ids' db db'.
Proof. intros Hi [? ? Hc Hp]. split; try done; intros k; by rewrite <- (is_in_ext _ _ _ Hi). Qed.
Lemma same_rows_trans db db1 db2 : same_rows db db1 → same_rows db1 db2 → same_rows db db2.
Proof. intros (? & ? & ? & ? & ? & ?) (? & ? & ? & ? & ? & ?). split_and!; congruence. Qed.
Lemma rebuilt_app a b db db1 db2 :
  rebuilt sql_lower limit a db db1 → rebuilt sql_lower limit b db1 db2 → rebuilt sql_lower limit (a ++ b) db db2.
Proof.
  intros [S1 N1 C1 P1] [S2 N2 C2 P2]. destruct (spec_same sql_lower limit _ _ S1) as (Sc & Sp & _).
  split; [by eapply same_rows_trans|congruence| |]; intros k.
  - rewrite C2, C1, Sc, is_in_app. by destruct (is_in k.1 a), (is_in k.1 b).
  - rewrite P2, P1, Sp, is_in_app. by destruct (is_in k.1 a), (is_in k.1 b).
Qed.
Lemma rebuilt_tables ids db db' : tables_ok db → rebuilt sql_lower limit ids db db' → tables_ok db'.
Proof. intros H [S _ C _]. eapply tables_respec; eauto. Qed.

Definition pair_sum (db : match_db) (ids : list Z) : Z := sum_over (λ i, pair_total (spec_counts sql_lower limit db i)) ids.
Definition candidate_sum (db : match_db) (ids : list Z) : Z := sum_over (λ i, candidate_total (spec_counts sql_lower limit db i)) ids.
Lemma compute_pairs_run mode ids db :
  tables_ok db →
  ∃ db', compute_match_pairs_for_demandes sql_lower mode ids limit db
         = (Ok (pair_sum db (positive_ids ids), candidate_sum db (positive_ids ids)), db')
    ∧ rebuilt sql_lower limit (positive_ids ids) db db'.
Proof.
  intros Hdb. unfold compute_match_pairs_for_demandes. pose proof (normalized_idem ids) as Hi. rewrite <- normalized_positive.
  destruct (normalized ids) as [|i l] eqn:E; [exists db; split; [done|apply rebuilt_nil]|]. rewrite <- E.
  destruct (compute_run sql_lower limit mode db (normalized ids) Hdb) as (db' & Er & Hr). rewrite (bind_ok _ _ _ _ _ Er).
  exists db'. by split.
Qed.
End Pieces.

(** A world with other tables. *)
Definition with_tables (db : match_db) (s : match_world) : match_world :=
  mkWorld (mw_now s) db (mw_rebuild s) (mw_sent s) (mw_broker s) (mw_flush_lock s) (mw_flush_requested s) (mw_held s).

Section Chunks.
Context `{PairEnv} (sql_lower : string → string) (limit : option Z) (mode : pipeline).

Lemma on_tables_ok {A} (m : DM A) s a db' : m (mw_db s) = (Ok a, db') → on_tables m s = (Ok a, with_tables db' s).
Proof. intros E. unfold on_tables. by rewrite E. Qed.
Lemma with_tables_id s : with_tables (mw_db s) s = s.
Proof. by destruct s. Qed.

Lemma each_chunk_run cs s :
  tables_ok (mw_db s) →
  ∃ db', each (λ b, on_tables (compute_match_pairs_for_demandes sql_lower mode b limit)) cs s
         = (Ok (map (λ b, (pair_sum sql_lower limit (mw_db s) (positive_ids b), candidate_sum sql_lower limit (mw_db s) (positive_ids b))) cs),
            with_tables db' s)
    ∧ rebuilt sql_lower limit (flat_map positive_ids cs) (mw_db s) db'.
Proof.
  revert s. induction cs as [|b cs IH]; intros s Hs.
  { exists (mw_db s). rewrite with_tables_id. split; [done|apply rebuilt_nil]. }
  cbn [each map flat_map]. destruct (compute_pairs_run sql_lower limit mode b (mw_db s) Hs) as (db1 & E1 & R1).
  rewrite (bind_ok _ _ _ _ _ (on_tables_ok _ _ _ _ E1)). set (s1 := with_tables db1 s).
  destruct (IH s1) as (db2 & E2 & R2); [by eapply rebuilt_tables|]. rewrite (bind_ok _ _ _ _ _ E2). exists db2.
  split; [|by eapply rebuilt_app]. unfold ret. f_equal. f_equal. f_equal.
  destruct (spec_same sql_lower limit _ _ (rb_rows _ _ _ _ _ R1)) as (_ & _ & St).
  apply map_ext. intros c. unfold pair_sum, candidate_sum. f_equal; apply sum_over_ext; intros i _; by rewrite St.
Qed.
Lemma positive_ids_perm ids : NoDup ids → (∀ i, i ∈ ids → 0 < i) → positive_ids ids ≡ₚ ids.
Proof.
  intros Hn Hp. apply NoDup_Permutation; [apply positive_ids_NoDup|done|]. intros i. rewrite positive_ids_elem. naive_solver.
Qed.
Lemma sum_over_concat {A} (f : A → Z) ls : foldr Z.add 0 (map (sum_over f) ls) = sum_over f (concat ls).
Proof.
  induction ls as [|l ls IH]; [done|]. cbn [map foldr concat]. rewrite IH. unfold sum_over. rewrite map_app, foldr_app.
  generalize (foldr Z.add 0 (map f (concat ls))). clear. intros z. induction (map f l) as [|x m IH]; cbn; lia.
Qed.
Lemma sum_of_chunks (f : Z → Z) ids n :
  (0 < n)%nat → NoDup ids → (∀ i, i ∈ ids → 0 < i) →
  foldr Z.add 0 (map (λ b, sum_over f (positive_ids b)) (chunks_of (List.length ids) n ids)) = sum_over f ids.
Proof.
  intros Hn Hnd Hp. rewrite (map_ext_in _ (sum_over f)).
  - by rewrite sum_over_concat, chunks_concat.
  - intros b Hb%list_elem_of_In. apply sum_over_perm, positive_ids_perm; [by eapply chunks_NoDup|].
    intros i Hi. apply Hp. by eapply chunks_sub.
Qed.
Lemma chunks_run ids s :
  tables_ok (mw_db s) →
  ∃ db', _compute_demande_chunks sql_lower mode ids limit s
         = (Ok (pair_sum sql_lower limit (mw_db s) (positive_ids ids), candidate_sum sql_lower limit (mw_db s) (positive_ids ids)), with_tables db' s)
    ∧ rebuilt sql_lower limit (positive_ids ids) (mw_db s) db'.
Proof.
  intros Hs. unfold _compute_demande_chunks. pose proof (positive_ids_NoDup ids) as Hn.
  assert (∀ i, i ∈ positive_ids ids → 0 < i) as Hp by (by intros i [_ Hi]%positive_ids_elem).
  pose proof (positive_positive ids) as HP.
  destruct (positive_ids ids) as [|i0 l0] eqn:E; [exists (mw_db s); rewrite with_tables_id; split; [done|apply rebuilt_nil]|].
  rewrite <- E in *. clear E i0 l0. set (P := positive_ids ids) in *. clearbody P. destruct (_ <=? _).
  - destruct (compute_pairs_run sql_lower limit mode P (mw_db s) Hs) as (db' & E & R). rewrite HP in *. exists db'.
    split; [by apply on_tables_ok|done].
  - unfold _demande_batches. destruct (each_chunk_run (chunks_of (List.length P) profile_demande_batch_size P) s Hs) as (db' & E & R).
    rewrite (bind_ok _ _ _ _ _ E). exists db'. split.
    + unfold ret, sum_fst, sum_snd. rewrite !map_map. cbn [fst snd]. unfold pair_sum, candidate_sum.
      by rewrite !sum_of_chunks by (done || exact profile_batch_pos).
    + eapply rebuilt_ext; [|exact R]. intros i. rewrite list_elem_of_In, in_flat_map. setoid_rewrite <- list_elem_of_In.
      setoid_rewrite positive_ids_elem. transitivity (i ∈ concat (chunks_of (List.length P) profile_demande_batch_size P));
        [|by rewrite chunks_concat by (done || exact profile_batch_pos)].
      rewrite (list_elem_of_In (concat _) i), in_concat. setoid_rewrite <- list_elem_of_In. split.
      * intros (c & Hc & Hi & _). by exists c.
      * intros (c & Hc & Hi). exists c. split_and!; [done..|]. apply Hp. by eapply chunks_sub.
Qed.
End Chunks.

(** ** An offer is edited *)

Definition pairs_limit : option Z := Some DEFAULT_MATCH_PAIRS_LIMIT.
(** The stored matches are what a rebuild of everything would store. *)
Record maintained (sql_lower : string → string) (db : match_db) : Prop := mkMaintained {
  mt_candidates : exact db;
  mt_pairs : ∀ k, db_pairs db !! k = spec_pair sql_lower pairs_limit db k
}.
(** Only the offer [i], its places included, differs: it may be new, changed or gone. *)
Record offer_edited (i : Z) (db0 db : match_db) : Prop := mkEdited {
  ed_clients : db_clients db = db_clients db0;
  ed_demandes : db_demandes db = db_demandes db0;
  ed_listings : db_listings db = db_listings db0;
  ed_demande_locations : db_demande_locations db = db_demande_locations db0;
  ed_offers : ∀ o, o_id o ≠ i → o ∈ db_offers db ↔ o ∈ db_offers db0;
  ed_offer_locations : ∀ p : Z * Z, p.1 ≠ i → p ∈ db_offer_locations db ↔ p ∈ db_offer_locations db0;
  ed_candidates : db_candidates db = db_candidates db0;
  ed_pairs : db_pairs db = db_pairs db0
}.

Section Edited.
Context (sql_lower : string → string) (i : Z) (db0 db : match_db).
Context (Hdb0 : tables_ok db0) (Hdb : tables_ok db) (He : offer_edited i db0 db).

Lemma edited_has_locations j : has_locations db j = has_locations db0 j.
Proof. unfold has_locations. by rewrite (ed_demande_locations _ _ _ He). Qed.
Lemma edited_shares d o : o_id o ≠ i → shares_location db (d_id d) (o_id o) = shares_location db0 (d_id d) (o_id o).
Proof.
  intros Ho. apply eq_true_iff_eq. rewrite !shares_iff, (ed_demande_locations _ _ _ He).
  split; intros (dl & ol & Hdl & E & Hol & E2 & E3); exists dl, ol; split_and!; try done; apply (ed_offer_locations _ _ _ He); congruence.
Qed.
Lemma edited_matches d o : o_id o ≠ i → matches db d o = matches db0 d o.
Proof.
  intros Ho. unfold matches, meet, client_of, listing_of, LOCATION_MATCH.
  by rewrite edited_has_locations, (edited_shares d o Ho), (ed_clients _ _ _ He), (ed_listings _ _ _ He).
Qed.
Lemma edited_score d o : o_id o ≠ i → SCORE_SQL sql_lower db d o = SCORE_SQL sql_lower db0 d o.
Proof. intros Ho. unfold SCORE_SQL, SCORE_RAW_SQL. by rewrite edited_has_locations, (edited_shares d o Ho). Qed.
Lemma edited_offer j : j ≠ i → by_key o_id j (db_offers db) = by_key o_id j (db_offers db0).
Proof.
  intros Hj. destruct (by_key o_id j (db_offers db)) as [o|] eqn:E.
  - apply by_key_Some in E as [Ho <-]. symmetry. apply by_key_elem; [apply Hdb0|]. by apply (ed_offers _ _ _ He).
  - destruct (by_key o_id j (db_offers db0)) as [o|] eqn:E0; [|done]. apply by_key_Some in E0 as [Ho <-].
    apply by_key_None in E. destruct E. apply elem_of_map. exists o. split; [done|]. by apply (ed_offers _ _ _ He).
Qed.
Lemma edited_demande j : demande_of db j = demande_of db0 j.
Proof. unfold demande_of. by rewrite (ed_demandes _ _ _ He). Qed.
Lemma edited_candidate k : k.2 ≠ i → spec_candidate db k = spec_candidate db0 k.
Proof.
  intros Hk. unfold spec_candidate, with_rows. rewrite edited_demande, edited_offer by done.
  destruct (demande_of db0 k.1) as [d|]; [|done]. destruct (by_key o_id k.2 _) as [o|] eqn:Eo; [|done].
  apply by_key_Some in Eo as [_ Eo]. by rewrite edited_matches by congruence.
Qed.
(** The demandes that [i] did not match and does not match are ranked as before. *)
Definition unrelated (d : demande) : Prop :=
  (∀ o, o ∈ db_offers db → matches db d o = true → o_id o ≠ i) ∧ (∀ o, o ∈ db_offers db0 → matches db0 d o = true → o_id o ≠ i).
Lemma edited_scored d : unrelated d → scored_offers sql_lower db d ≡ₚ scored_offers sql_lower db0 d.
Proof.
  intros [H H0]. apply NoDup_Permutation; [eapply NoDup_of_map, scored_offers_NoDup; [exact Hdb]|eapply NoDup_of_map, scored_offers_NoDup; [exact Hdb0]|].
  intros x. rewrite !elem_of_scored_offers. split; intros (o & Ho & Hm & ->); exists o.
  - assert (o_id o ≠ i) as Hne by by apply H. rewrite <- edited_matches, <- edited_score by done. split_and!; [by apply (ed_offers _ _ _ He)|done|done].
  - assert (o_id o ≠ i) as Hne by by apply H0. rewrite edited_matches, edited_score by done. split_and!; [by apply (ed_offers _ _ _ He)|done|done].
Qed.
Lemma edited_ranking limit d : d ∈ db_demandes db0 → unrelated d → ranking sql_lower limit db (d_id d) = ranking sql_lower limit db0 (d_id d).
Proof.
  intros Hd Hu. unfold ranking, wanted. rewrite edited_demande, (demande_of_elem db0 Hdb0 d Hd).
  by rewrite (ranking_of_perm _ _ _ (edited_scored d Hu)).
Qed.
Lemma edited_pair limit k :
  (∀ d, demande_of db0 k.1 = Some d → unrelated d) → spec_pair sql_lower limit db k = spec_pair sql_lower limit db0 k.
Proof.
  intros Hu. destruct k as [ki kj]. cbn in Hu. destruct (decide (kj = i)) as [->|Hj].
  - destruct (demande_of db0 ki) as [d|] eqn:Ed; [|unfold spec_pair, with_rows; cbn; by rewrite edited_demande, Ed].
    destruct (Hu d eq_refl) as [H H0]. apply by_key_Some in Ed as [Hd <-].
    assert (d ∈ db_demandes db) as Hd' by by rewrite (ed_demandes _ _ _ He).
    transitivity (None : option pair_row); [|symmetry].
    + destruct (by_key o_id i (db_offers db)) as [o|] eqn:Eo.
      * apply by_key_Some in Eo as [Ho <-]. rewrite spec_pair_rank by done. destruct (matches db d o) eqn:Em; [|done]. by destruct (H o Ho Em).
      * unfold spec_pair, with_rows. cbn. rewrite Eo. by destruct (demande_of _ _).
    + destruct (by_key o_id i (db_offers db0)) as [o|] eqn:Eo.
      * apply by_key_Some in Eo as [Ho <-]. rewrite spec_pair_rank by done. destruct (matches db0 d o) eqn:Em; [|done]. by destruct (H0 o Ho Em).
      * unfold spec_pair, with_rows. cbn. rewrite Eo. by destruct (demande_of _ _).
  - unfold spec_pair, with_rows. cbn. rewrite edited_demande, edited_offer by done.
    destruct (demande_of db0 ki) as [d|] eqn:Ed; [|done]. pose proof (Hu d eq_refl) as Hd. apply by_key_Some in Ed as [Hin <-].
    by rewrite (edited_ranking limit d Hin Hd).
Qed.
End Edited.

Lemma found_demandes db i j :
  j ∈ get_demande_ids_for_offer db i ↔ ∃ d o, d ∈ db_demandes db ∧ o ∈ db_offers db ∧ o_id o = i ∧ resembles db d o = true ∧ j = d_id d.
Proof.
  unfold get_demande_ids_for_offer. rewrite elem_of_remove_dups, elem_of_cte. unfold pairing, selected. cbn.
  split; intros (d & o & Hd & Ho & Hs & Hm & ->); exists d, o; split_and!; try done.
  - rewrite is_in_one in Hs. lia.
  - rewrite is_in_one. lia.
Qed.
Lemma matches_resembles db d o : matches db d o = true → resembles db d o = true.
Proof. unfold matches, resembles, COMMON_MATCH. rewrite !andb_true_iff, !holds_and3, !andb_true_iff. tauto. Qed.
Lemma linked_elem db i j :
  j ∈ get_demande_ids_from_precomputed_for_offer db i ↔ is_Some (db_candidates db !! (j, i)) ∨ is_Some (db_pairs db !! (j, i)).
Proof.
  unfold get_demande_ids_from_precomputed_for_offer, linked_demandes.
  rewrite (ssort_perm Z.leb), elem_of_remove_dups, elem_of_map. setoid_rewrite elem_of_filter_b. setoid_rewrite elem_of_app.
  setoid_rewrite elem_of_candidate_keys. setoid_rewrite list_elem_of_fmap.
  split.
  - intros ([kj ki] & -> & E%Z.eqb_eq & [([k p] & Ek & Hp%elem_of_map_to_list)|Hc]); cbn in *; subst; [right; by exists p|by left].
  - intros [Hc|[p Hp]]; exists (j, i); cbn; rewrite Z.eqb_refl; split_and!; try done; [by right|left].
    exists ((j, i), p). split; [done|]. by apply elem_of_map_to_list.
Qed.
Lemma drop_offer_lookup {V} (i : Z) (t : gmap (Z * Z) V) (k : Z * Z) : drop_offer i t !! k = if decide (k.2 = i) then None else t !! k.
Proof.
  unfold drop_offer. destruct (decide (k.2 = i)) as [E|E].
  - apply map_lookup_filter_None. right. intros v _ H. by apply H.
  - destruct (t !! k) as [v|] eqn:Et; [by apply map_lookup_filter_Some|]. apply map_lookup_filter_None. by left.
Qed.

Section OfferTask.
Context `{PairEnv} `{RebuildConfig} (sql_lower : string → string) (mode : pipeline) (i : Z) (db0 db : match_db).
Context (Hi : 0 < i) (Hdb0 : tables_ok db0) (Hdb : tables_ok db) (He : offer_edited i db0 db) (Hm : maintained sql_lower db0).

(** What is left when the demandes of a list that has all concerned ones are rebuilt. *)
Lemma rebuilt_maintained P db2 :
  (∀ j, j ∈ get_demande_ids_for_offer db i → j ∈ P) → (∀ j, j ∈ get_demande_ids_from_precomputed_for_offer db0 i → j ∈ P) →
  rebuilt sql_lower pairs_limit P (set_pairs (drop_offer i) (set_candidates (drop_offer i) db)) db2 → maintained sql_lower db2.
Proof.
  intros Hfound Hlinked Hr. set (db1 := set_pairs _ _) in Hr.
  assert (same_rows db db1) as Hs1 by done. destruct Hr as [Hs2 _ Hc Hp].
  destruct (spec_same sql_lower pairs_limit _ _ Hs1) as (C1 & P1 & _), (spec_same sql_lower pairs_limit _ _ Hs2) as (C2 & P2 & _).
  assert (∀ j, j ∉ P → db_candidates db0 !! (j, i) = None ∧ db_pairs db0 !! (j, i) = None) as Hnone.
  { intros j Hj. split; apply eq_None_not_Some; intros Hsome; apply Hj, Hlinked, linked_elem; [by left|by right]. }
  assert (∀ (k : Z * Z) d, k.1 ∉ P → demande_of db0 k.1 = Some d → unrelated i db0 db d) as Hun.
  { intros [kj ko] d Hk Ed. cbn in *. apply by_key_Some in Ed as [Hd <-]. split; intros o Ho Hma E.
    - apply Hk, Hfound, found_demandes. exists d, o. split_and!; try done; [by rewrite (ed_demandes _ _ _ He)|by apply matches_resembles].
    - destruct (Hnone _ Hk) as [Hn _]. rewrite (mt_candidates _ _ Hm), <- E, spec_candidate_rows, Hma in Hn by done. done. }
  split; intros k.
  - rewrite C2, Hc. destruct (is_in k.1 P) eqn:Ek; [done|]. assert (k.1 ∉ P) as Hk by (intros Hk%is_in_true; congruence).
    rewrite C1. cbn. rewrite drop_offer_lookup. destruct (decide (k.2 = i)) as [E|E].
    + unfold spec_candidate, with_rows. destruct (demande_of db k.1) as [d|] eqn:Ed; [|done]. rewrite E.
      destruct (by_key o_id i (db_offers db)) as [o|] eqn:Eo; [|done]. apply by_key_Some in Eo as [Ho Eo].
      rewrite (edited_demande i db0 db He) in Ed. destruct (Hun k d Hk Ed) as [Hu _]. destruct (matches db d o) eqn:Ema; [|done]. by destruct (Hu o Ho Ema).
    + by rewrite (ed_candidates _ _ _ He), (edited_candidate i db0 db Hdb0 He k E), (mt_candidates _ _ Hm).
  - rewrite P2, Hp. destruct (is_in k.1 P) eqn:Ek; [done|]. assert (k.1 ∉ P) as Hk by (intros Hk%is_in_true; congruence).
    rewrite P1, (edited_pair sql_lower i db0 db Hdb0 Hdb He pairs_limit k (λ d, Hun k d Hk)), <- (mt_pairs _ _ Hm).
    cbn. rewrite drop_offer_lookup, (ed_pairs _ _ _ He). destruct (decide (k.2 = i)) as [E|E]; [|done].
    destruct k as [kj ko]. cbn in *. subst. by destruct (Hnone _ Hk) as [_ ->].
Qed.
End OfferTask.

(** ** Runs of the tasks *)

Section Runs.
Context `{PairEnv} `{RebuildConfig}.

Lemma start_run scope j s : start_of_scope scope j s = ((get_generation scope j (mw_rebuild s)).1, s).
Proof. unfold start_of_scope, on_rebuild. by destruct s. Qed.
(** Nothing was requested meanwhile. *)
Lemma complete_scope_run scope j g s s' :
  (get_generation scope j (mw_rebuild s)).1 = Ok g → mw_rebuild s' = mw_rebuild s →
  ∃ t, complete_scope scope j g s' = (Ok false, mkWorld (mw_now s') (mw_db s') t (mw_sent s') (mw_broker s') (mw_flush_lock s') (mw_flush_requested s') (mw_held s')).
Proof.
  unfold get_generation, gets. cbn [fst]. intros Hg Hs. unfold complete_scope, on_rebuild. rewrite Hs.
  unfold complete_rebuild. rewrite bind_gets. destruct (mw_rebuild s !! (scope, j)) as [r|]; injection Hg as <-.
  - rewrite Z.ltb_irrefl. eexists. unfold update_ids. rewrite bind_modify. reflexivity.
  - eexists. reflexivity.
Qed.
Lemma cascade_run s : ∃ sent, _cascade_count_cache_refresh s
  = (Ok tt, mkWorld (mw_now s) (mw_db s) (mw_rebuild s) sent (mw_broker s) (mw_flush_lock s) (mw_flush_requested s) (mw_held s)).
Proof.
  unfold _cascade_count_cache_refresh, swallow, catch, send. rewrite bind_gets. destruct s as [? ? ? ? up ? ? ?]. cbn.
  destruct up; eexists; reflexivity.
Qed.
End Runs.

Lemma bind_start {B} `{PairEnv} `{RebuildConfig} scope j s (k : Z → MW B) :
  ∃ g, (get_generation scope j (mw_rebuild s)).1 = Ok g ∧ bind (start_of_scope scope j) k s = k g s.
Proof. eexists. split; [reflexivity|]. unfold bind. rewrite start_run. reflexivity. Qed.
Lemma free_lock {A} scope (body : bool → MW A) s : scope ∉ mw_held s → match_pairs_rebuild_lock scope body s = body true s.
Proof. intros Hs. unfold match_pairs_rebuild_lock. rewrite bind_gets, bool_decide_false by done. done. Qed.
(** The end of a task during which nothing was requested. *)
Lemma finish_run `{PairEnv} `{RebuildConfig} scope j g again (answer : task_answer) s s' :
  (get_generation scope j (mw_rebuild s)).1 = Ok g → mw_rebuild s' = mw_rebuild s →
  ∃ s2, (let! needs_rerun := complete_scope scope j g in
         do! (if needs_rerun then send again 5 else ret tt) in
         do! _cascade_count_cache_refresh in
         ret answer : MW _) s' = (Ok answer, s2) ∧ mw_db s2 = mw_db s'.
Proof.
  intros Hg Hs. destruct (complete_scope_run scope j g s s' Hg Hs) as (t & Et). rewrite (bind_ok _ _ _ _ _ Et), bind_ret.
  destruct (cascade_run (mkWorld (mw_now s') (mw_db s') t (mw_sent s') (mw_broker s') (mw_flush_lock s') (mw_flush_requested s') (mw_held s'))) as (sent & Es).
  rewrite (bind_ok _ _ _ _ _ Es). eexists. split; reflexivity.
Qed.

(** C12. An edit of an offer.  Let the stored matches be what a rebuild of everything would store, and let one offer
    then be added, changed, moved, withdrawn or removed.  The task of that offer, given the demandes the
    offer was stored with before the edit and whatever else, makes the stored matches what a
    rebuild of everything would store now, ranks included, although it only rebuilds those demandes and the ones
    that resemble the offer. *)
Theorem offer_edit_is_maintained `{PairEnv} `{RebuildConfig} sql_lower mode i hint db0 s :
  0 < i → tables_ok db0 → tables_ok (mw_db s) → maintained sql_lower db0 → offer_edited i db0 (mw_db s) →
  (∀ j, j ∈ get_demande_ids_from_precomputed_for_offer db0 i → j ∈ hint) →
  ("offer:" +:+ pretty i) ∉ mw_held s →
  ∃ answer s', rebuild_match_pairs_for_offer sql_lower mode (λ s, s) i hint s = (Ok answer, s')
    ∧ same_rows (mw_db s) (mw_db s') ∧ maintained sql_lower (mw_db s').
Proof.
  intros Hi Hdb0 Hdb Hm He Hhint Hfree. unfold rebuild_match_pairs_for_offer. rewrite bind_gets.
  set (ids := match normalized hint with [] => _ | _ => _ end). rewrite free_lock by done. cbn [negb].
  match goal with |- context [bind (start_of_scope "offer" i) ?k s] => destruct (bind_start "offer" i s k) as (g & Hg & ->) end.
  set (db1 := set_pairs (drop_offer i) (set_candidates (drop_offer i) (mw_db s))).
  rewrite (bind_ok _ _ s tt (with_tables db1 s)).
  2: { apply on_tables_ok. unfold clear_candidates_for_offer, clear_pairs_for_offer. destruct (Z.leb_spec i 0); [lia|]. by rewrite bind_modify. }
  rewrite bind_modify.
  assert (same_rows (mw_db s) db1) as Hs1 by done.
  assert (tables_ok db1) as Hdb1.
  { eapply tables_fewer; [exact Hs1| |done]. intros k. cbn. rewrite drop_offer_lookup. destruct (decide _); [by intros [? ?]|done]. }
  destruct (chunks_run sql_lower pairs_limit mode ids (with_tables db1 s) Hdb1) as (db2 & E2 & R2).
  rewrite (bind_ok _ _ _ _ _ E2), bind_modify.
  match goal with |- context [bind (complete_scope "offer" i g) ?k ?s'] =>
    match goal with |- context [Done_with ?a ?b ?c] =>
      destruct (finish_run "offer" i g (t_offer i ids) (Done_with a b c) s s' Hg eq_refl) as (s2 & E3 & D3) end end.
  eexists _, s2. split; [exact E3|]. rewrite D3. cbn [mw_db with_tables]. split.
  - exact (same_rows_trans _ _ _ Hs1 (rb_rows _ _ _ _ _ R2)).
  - assert (∀ j, j ∈ get_demande_ids_for_offer (mw_db s) i ∨ 0 < j ∧ j ∈ hint → j ∈ ids) as Hids.
    { intros j Hj. unfold ids. destruct (normalized hint) as [|x l] eqn:El.
      - destruct Hj as [Hj|[Hp Hj]]; [done|]. assert (j ∈ normalized hint) as Hn by (by apply normalized_elem). rewrite El in Hn. by apply elem_of_nil in Hn.
      - rewrite <- El. unfold sorted_set. rewrite (ssort_perm Z.leb), elem_of_remove_dups, elem_of_app, normalized_elem. tauto. }
    eapply (rebuilt_maintained sql_lower i db0 (mw_db s)); [done..| | |exact R2].
    + intros j Hj. apply positive_ids_elem. split; [apply Hids; by left|]. apply found_demandes in Hj as (d & _ & Hd & _ & _ & _ & ->). by apply Hdb.
    + intros j Hj. assert (0 < j) as Hp.
      { apply linked_elem in Hj. rewrite (mt_candidates _ _ Hm), (mt_pairs _ _ Hm) in Hj. unfold spec_candidate, spec_pair, with_rows in Hj. cbn in Hj.
        destruct (demande_of db0 j) as [d|] eqn:Ed; [|by destruct Hj as [[? ?]|[? ?]]]. apply by_key_Some in Ed as [Hd <-]. by apply Hdb0. }
      apply positive_ids_elem. split; [|done]. apply Hids. right. split; [done|by apply Hhint].
Qed.

(** ** The demandes of a client or of a wilaya *)

Section Pages.
Context `{PairEnv} `{RebuildConfig} (sql_lower : string → string) (mode : pipeline) (p : demande → bool).

Definition page_work (page : list Z) : MW (Z * Z) :=
  let! r := _compute_demande_chunks sql_lower mode page pairs_limit in ret (r.1, Z.of_nat (List.length page)).
Lemma page_work_run page s :
  tables_ok (mw_db s) →
  ∃ n db', page_work page s = (Ok (n, Z.of_nat (List.length page)), with_tables db' s)
    ∧ rebuilt sql_lower pairs_limit (positive_ids page) (mw_db s) db'.
Proof.
  intros Hs. destruct (chunks_run sql_lower pairs_limit mode page s Hs) as (db' & E & R). unfold page_work.
  rewrite (bind_ok _ _ _ _ _ E). by eexists _, db'.
Qed.
Lemma pages_work_run cs s :
  tables_ok (mw_db s) →
  ∃ parts db', each page_work cs s = (Ok parts, with_tables db' s)
    ∧ rebuilt sql_lower pairs_limit (flat_map positive_ids cs) (mw_db s) db' ∧ sum_snd parts = Z.of_nat (List.length (concat cs)).
Proof.
  revert s. induction cs as [|c cs IH]; intros s Hs.
  { exists [], (mw_db s). rewrite with_tables_id. split_and!; [done|apply rebuilt_nil|done]. }
  cbn [each flat_map concat]. destruct (page_work_run c s Hs) as (n & db1 & E1 & R1). rewrite (bind_ok _ _ _ _ _ E1).
  destruct (IH (with_tables db1 s)) as (parts & db2 & E2 & R2 & N2); [by eapply rebuilt_tables|]. rewrite (bind_ok _ _ _ _ _ E2).
  eexists _, db2. split; [reflexivity|]. split; [by eapply rebuilt_app|]. unfold sum_snd in *. cbn [map foldr snd]. rewrite N2, length_app. lia.
Qed.
Lemma stream_page_pos : (0 < Z.to_nat _demande_stream_page_size)%nat.
Proof. unfold _demande_stream_page_size, clamped_env. lia. Qed.
Lemma rebuild_pages_run s :
  tables_ok (mw_db s) →
  ∃ n db', rebuild_pages sql_lower mode p s = (Ok (n, Z.of_nat (List.length (demande_ids_where p (mw_db s)))), with_tables db' s)
    ∧ rebuilt sql_lower pairs_limit (demande_ids_where p (mw_db s)) (mw_db s) db'.
Proof.
  intros Hs. unfold rebuild_pages. rewrite bind_gets. set (ids := demande_ids_where p (mw_db s)).
  assert (∀ s, tables_ok (mw_db s) → NoDup (demande_ids_where p (mw_db s)) ∧ ∀ i, i ∈ demande_ids_where p (mw_db s) → 0 < i) as Hids.
  { intros s' H'. split; [apply NoDup_map_filter, H'|]. intros i (d & -> & Hd)%elem_of_map. apply elem_of_filter_b in Hd as [_ Hd]. by apply H'. }
  destruct (Hids s Hs) as [Hn Hp]. fold ids in Hn, Hp.
  assert (List.length (after 0 ids) = List.length ids) as Hlen.
  { apply Permutation_length, NoDup_Permutation; [by apply after_NoDup|done|]. intros i. by apply after0_elem. }
  unfold demande_page.
  change (λ page : list Z, let! r := _compute_demande_chunks sql_lower mode page (Some DEFAULT_MATCH_PAIRS_LIMIT) in ret (r.1, Z.of_nat (List.length page)))
    with page_work.
  unfold bind at 1. rewrite (keyset_chunks _ stream_page_pos (λ s, demande_ids_where p (mw_db s)) _ (λ s, tables_ok (mw_db s)));
    [|intros s1 H1; by apply Hids| |done|].
  2: { intros s1 page b s2 H1 _ _ _ E. destruct (page_work_run page s1 H1) as (n & db' & E' & R). rewrite E in E'. injection E' as -> ->.
       split; [by eapply rebuilt_tables|]. intros i _. unfold demande_ids_where. cbn. by rewrite (proj1 (proj2 (rb_rows _ _ _ _ _ R))). }
  2: { fold ids. rewrite Hlen. unfold ids, demande_ids_where. rewrite length_map. pose proof (List.filter_length_le p (db_demandes (mw_db s))). lia. }
  fold ids. destruct (pages_work_run (chunks_of (List.length (after 0 ids)) (Z.to_nat _demande_stream_page_size) (after 0 ids)) s Hs) as (parts & db' & E & R & N).
  rewrite E. pose proof stream_page_pos as Hpos. rewrite chunks_concat in N by lia. eexists _, db'. split.
  - unfold ret. rewrite N, Hlen. reflexivity.
  - eapply rebuilt_ext; [|exact R]. intros i. rewrite list_elem_of_In, in_flat_map. setoid_rewrite <- list_elem_of_In.
    setoid_rewrite positive_ids_elem. transitivity (i ∈ concat (chunks_of (List.length (after 0 ids)) (Z.to_nat _demande_stream_page_size) (after 0 ids)));
      [|rewrite chunks_concat by lia; by apply after0_elem].
    rewrite (list_elem_of_In (concat _) i), in_concat. setoid_rewrite <- list_elem_of_In. split.
    + intros (c & Hc & Hi & _). by exists c.
    + intros (c & Hc & Hi). exists c. split_and!; [done..|]. assert (i ∈ after 0 ids) as Ha by (by eapply chunks_sub). by apply after_elem in Ha as [_ ?].
Qed.
Lemma rebuild_scope_run scope j again s :
  tables_ok (mw_db s) → (scope +:+ ":" +:+ pretty j) ∉ mw_held s →
  ∃ n s', rebuild_scope sql_lower mode (λ s, s) scope j p again s = (Ok (Done_with n 0 (Z.of_nat (List.length (demande_ids_where p (mw_db s))))), s')
    ∧ rebuilt sql_lower pairs_limit (demande_ids_where p (mw_db s)) (mw_db s) (mw_db s').
Proof.
  intros Hs Hfree. unfold rebuild_scope. rewrite free_lock by done. cbn [negb].
  match goal with |- context [bind (start_of_scope scope j) ?k s] => destruct (bind_start scope j s k) as (g & Hg & ->) end.
  rewrite bind_modify. destruct (rebuild_pages_run s Hs) as (n & db' & E & R). rewrite (bind_ok _ _ _ _ _ E), bind_modify.
  destruct (finish_run scope j g again (Done_with n 0 (Z.of_nat (List.length (demande_ids_where p (mw_db s))))) s (with_tables db' s) Hg eq_refl) as (s2 & E2 & D2).
  exists n, s2. split; [exact E2|]. by rewrite D2.
Qed.
End Pages.

Lemma demandes_where p (live : demande → Prop) s :
  tables_ok (mw_db s) → (∀ d, p d = true ↔ live d) →
  NoDup (demande_ids_where p (mw_db s)) ∧ ∀ i, i ∈ demande_ids_where p (mw_db s) ↔ ∃ d, d ∈ db_demandes (mw_db s) ∧ d_id d = i ∧ live d.
Proof.
  intros Hs Hp. split; [apply NoDup_map_filter, Hs|]. intros i. unfold demande_ids_where. rewrite elem_of_map.
  setoid_rewrite elem_of_filter_b. setoid_rewrite Hp. naive_solver.
Qed.

(** The tasks of a client and of a wilaya.  Whatever the page and batch sizes, the task returns, and the
    matches of exactly the demandes of the client (the live demandes of the wilaya) are rebuilt, those
    of the others untouched; the answer counts those demandes. *)
Theorem scope_tasks_are_complete `{PairEnv} `{RebuildConfig} sql_lower mode j include_deleted s :
  tables_ok (mw_db s) → ("client:" +:+ pretty j) ∉ mw_held s → ("wilaya:" +:+ pretty j) ∉ mw_held s → j ≠ 0 →
  (∃ n ids s', rebuild_match_pairs_for_client sql_lower mode (λ s, s) j include_deleted s = (Ok (Done_with n 0 (Z.of_nat (List.length ids))), s')
     ∧ NoDup ids
     ∧ (∀ i, i ∈ ids ↔ ∃ d, d ∈ db_demandes (mw_db s) ∧ d_id d = i ∧ d_client d = j ∧ (include_deleted = true ∨ d_deleted_at d = None))
     ∧ rebuilt sql_lower pairs_limit ids (mw_db s) (mw_db s'))
  ∧ (∃ n ids s', rebuild_match_pairs_for_wilaya sql_lower mode (λ s, s) (Some j) s = (Ok (Done_with n 0 (Z.of_nat (List.length ids))), s')
     ∧ NoDup ids
     ∧ (∀ i, i ∈ ids ↔ ∃ d, d ∈ db_demandes (mw_db s) ∧ d_id d = i ∧ d_wilaya_id d = j ∧ d_deleted_at d = None)
     ∧ rebuilt sql_lower pairs_limit ids (mw_db s) (mw_db s')).
Proof.
  intros Hs Hc Hw Hj. split.
  - destruct (rebuild_scope_run sql_lower mode (of_client j include_deleted) "client" j (t_client j include_deleted) s Hs Hc) as (n & s' & E & R).
    destruct (demandes_where (of_client j include_deleted) (λ d, d_client d = j ∧ (include_deleted = true ∨ d_deleted_at d = None)) s Hs) as [Hn He].
    { intros d. unfold of_client, not_deleted. by rewrite andb_true_iff, orb_true_iff, Z.eqb_eq, bool_decide_eq_true. }
    by exists n, (demande_ids_where (of_client j include_deleted) (mw_db s)), s'.
  - destruct (rebuild_scope_run sql_lower mode (of_wilaya j) "wilaya" j (t_wilaya j) s Hs Hw) as (n & s' & E & R).
    destruct (demandes_where (of_wilaya j) (λ d, d_wilaya_id d = j ∧ d_deleted_at d = None) s Hs) as [Hn He].
    { intros d. unfold of_wilaya, not_deleted. rewrite andb_true_iff, Z.eqb_eq, bool_decide_eq_true. tauto. }
    exists n, (demande_ids_where (of_wilaya j) (mw_db s)), s'. unfold rebuild_match_pairs_for_wilaya. by destruct j.
Qed.

(** ** A flush of the queue *)

Section Flush.
Context `{PairEnv} `{RebuildConfig} (locked : list Z) (token : nat → string).
Definition with_rebuild (t : rtable) (s : match_world) : match_world :=
  mkWorld (mw_now s) (mw_db s) t (mw_sent s) (mw_broker s) (mw_flush_lock s) (mw_flush_requested s) (mw_held s).

Lemma dequeue_run tok n s :
  ∃ batch t, dequeue_demande_rebuild_batch locked tok n s = (Ok batch, with_rebuild t s)
    ∧ ∀ j, 0 < j → j ∈ batch ∨ t !! ("demande", j) = mw_rebuild s !! ("demande", j).
Proof.
  set (ids := map fst (candidates (mw_now s) "demande" (Z.to_nat (Z.max 1 n)) locked (mw_rebuild s))).
  destruct (update_ids_run "demande" ids (claimed (mw_now s) (claim_ttl None) tok) (mw_rebuild s)) as (t & Et & Ht).
  exists (sorted_set (List.filter (λ i, 0 <? i) ids)), t. split.
  - unfold dequeue_demande_rebuild_batch, on_rebuild, claim_dispatchable_scope_ids. rewrite bind_gets. fold ids.
    rewrite (bind_ok _ _ _ _ _ Et). reflexivity.
  - intros j Hj. destruct (decide (j ∈ ids)) as [Hin|Hin].
    + left. apply sorted_set_elem, elem_of_filter_b. split; [lia|done].
    + right. rewrite Ht. rewrite decide_False by (by intros [_ ?]). apply option_fmap_id.
Qed.
Lemma rounds_run n s :
  ∃ queued t, claim_rounds locked token n s = (Ok queued, with_rebuild t s)
    ∧ ∀ j, 0 < j → j ∈ queued ∨ t !! ("demande", j) = mw_rebuild s !! ("demande", j).
Proof.
  revert s. induction n as [|n IH]; intros s; cbn [claim_rounds].
  { exists [], (mw_rebuild s). split; [by destruct s|auto]. }
  destruct (dequeue_run (token (S n)) _demande_enqueue_task_batch_size s) as (batch & t & E & Hb). rewrite (bind_ok _ _ _ _ _ E).
  destruct batch as [|x l] eqn:El; [exists [], t; by split|]. rewrite <- El in *.
  destruct (IH (with_rebuild t s)) as (rest & t' & E' & Hr). rewrite (bind_ok _ _ _ _ _ E'). exists (batch ++ rest), t'. split; [reflexivity|].
  intros j Hj. destruct (Hb j Hj) as [Hin|Hs]; [left; apply elem_of_app; by left|]. destruct (Hr j Hj) as [Hin|Hs']; [left; apply elem_of_app; by right|].
  right. rewrite Hs'. exact Hs.
Qed.
Definition with_sent (sent : list (match_task * Z)) (s : match_world) : match_world :=
  mkWorld (mw_now s) (mw_db s) (mw_rebuild s) sent (mw_broker s) (mw_flush_lock s) (mw_flush_requested s) (mw_held s).
Lemma send_run t c s : mw_broker s = true → send t c s = (Ok tt, with_sent (mw_sent s ++ [(t, c)]) s).
Proof. intros Hb. unfold send. rewrite bind_gets, Hb. reflexivity. Qed.
Lemma send_each_run {A} (f : A → match_task) c l s :
  mw_broker s = true → for_each (λ b, send (f b) c) l s = (Ok tt, with_sent (mw_sent s ++ map (λ b, (f b, c)) l) s).
Proof.
  revert s. induction l as [|b l IH]; intros s Hb; cbn [for_each map].
  { rewrite app_nil_r. by destruct s. }
  rewrite (bind_ok _ _ _ _ _ (send_run (f b) c s Hb)), IH by done. cbn. by rewrite <- (assoc_L (++)).
Qed.
End Flush.

(** C13. A flush of the queue.  Its tasks name each demande once, and every demande whose rebuild was asked for
    and was due is in one of them, or is still due and another flush is on its way.  This holds
    however many are waiting, in whatever batches, and whichever rows other transactions hold. *)
Theorem flush_loses_no_request `{PairEnv} `{RebuildConfig} locked token s :
  mw_broker s = true → "demande_flush_queue" ∉ mw_held s →
  ∃ done_ batches s',
    flush_rebuild_demande_pairs_queue locked token s = (Ok (Some done_), s')
    ∧ mw_sent s' = mw_sent s ++ map (λ b, (t_demandes b (Some 100), 0)) batches
                   ++ (if done_.2 then [(t_flush, _demande_enqueue_debounce_seconds)] else [])
    ∧ NoDup (concat batches)
    ∧ ∀ j r, 0 < j → mw_rebuild s !! ("demande", j) = Some r → dispatchable (mw_now s) r = true →
        j ∈ concat batches ∨ done_.2 = true ∧ mw_rebuild s' !! ("demande", j) = Some r.
Proof.
  intros Hb Hl. unfold flush_rebuild_demande_pairs_queue.
  destruct (rounds_run locked token (Z.to_nat _demande_flush_max_batches) s) as (queued & t & Eq & Hq).
  set (ids := positive_ids queued). set (batches := _demande_batches ids profile_task_chunk_size).
  assert (concat batches = ids) as Hcat by (apply chunks_concat; [exact profile_chunk_pos|lia]).
  set (s1 := with_sent (mw_sent s ++ map (λ b, (t_demandes b (Some 100), 0)) batches) (with_rebuild t s)).
  rewrite (bind_ok _ _ _ (Some (Z.of_nat (List.length ids), Z.of_nat (List.length batches))) (set_flush_lock None s1)).
  2: { unfold finally. rewrite free_lock by done. cbn [negb]. rewrite (bind_ok _ _ _ _ _ Eq). cbv zeta. fold ids batches.
       rewrite (bind_ok _ _ _ _ _ (send_each_run (λ b, t_demandes b (Some 100)) 0 batches (with_rebuild t s) Hb)). reflexivity. }
  set (follow := live (mw_now s) (mw_flush_requested s)).
  set (remaining := Z.max 0 (Z.of_nat (List.length (select_where "demande" (dispatchable (mw_now s)) t)))).
  set (s2 := set_flush_requested None (set_flush_lock None s1)).
  unfold pop_demande_rebuild_flush_requested. rewrite (bind_ok _ _ _ follow s2) by reflexivity.
  rewrite (bind_ok count_pending_demande_rebuilds _ _ remaining s2) by reflexivity.
  assert (∀ j r, 0 < j → mw_rebuild s !! ("demande", j) = Some r → dispatchable (mw_now s) r = true →
    j ∈ concat batches ∨ 0 < remaining ∧ t !! ("demande", j) = Some r) as Hj.
  { intros j r Hp Hr Hd. destruct (Hq j Hp) as [Hin|Hsame].
    - left. rewrite Hcat. apply positive_ids_elem. by split.
    - right. rewrite Hr in Hsame. split; [|done]. unfold remaining.
      assert ((j, r) ∈ select_where "demande" (dispatchable (mw_now s)) t) as Hin by by apply select_where_elem.
      destruct (select_where _ _ t); [by apply elem_of_nil in Hin|]. cbn. lia. }
  destruct ((0 <? remaining) || follow) eqn:Ea.
  - set (timeout := Z.max _demande_enqueue_queue_ttl_seconds (_demande_enqueue_debounce_seconds + 30)).
    set (s3 := set_flush_lock (Some (mw_now s + timeout)) s2).
    exists (Z.of_nat (List.length ids), Z.of_nat (List.length batches), true), batches, (with_sent (mw_sent s3 ++ [(t_flush, _demande_enqueue_debounce_seconds)]) s3).
    assert (schedule_demande_rebuild_flush s2 = (Ok true, with_sent (mw_sent s3 ++ [(t_flush, _demande_enqueue_debounce_seconds)]) s3)) as Es.
    { unfold schedule_demande_rebuild_flush. rewrite !bind_gets. cbn [live mw_flush_lock mw_now s2 set_flush_requested set_flush_lock].
      rewrite bind_modify. unfold catch. fold timeout. change (set_flush_lock (Some (mw_now s2 + timeout)) s2) with s3.
      rewrite (bind_ok _ _ _ _ _ (send_run t_flush _demande_enqueue_debounce_seconds s3 Hb)). reflexivity. }
    rewrite (bind_ok _ _ _ _ _ Es). split; [reflexivity|]. split; [|split].
    + cbn. by rewrite <- (assoc_L (++)).
    + rewrite Hcat. apply positive_ids_NoDup.
    + intros j r Hp Hr Hd. destruct (Hj j r Hp Hr Hd) as [?|[_ ?]]; [by left|right]. by split.
  - exists (Z.of_nat (List.length ids), Z.of_nat (List.length batches), false), batches, s2. split; [reflexivity|]. split; [|split].
    + cbn. by rewrite app_nil_r.
    + rewrite Hcat. apply positive_ids_NoDup.
    + intros j r Hp Hr Hd. destruct (Hj j r Hp Hr Hd) as [?|[Hrem _]]; [by left|]. apply orb_false_iff in Ea as [Ea _]. lia.
Qed.

(** ** Requests during a rebuild *)

Section Single.
Context (sql_lower : string → string) (mode : pipeline) (limit : option Z).
Lemma compute_pair_run i db :
  tables_ok db → ∃ r db', compute_match_pairs_for_demande sql_lower mode i limit db = (Ok r, db').
Proof.
  intros Hdb. unfold compute_match_pairs_for_demande. rewrite bind_gets. destruct (List.find _ _) as [d|].
  - destruct (compute_run sql_lower limit mode db [d_id d] Hdb) as (db' & E & _). rewrite (bind_ok _ _ _ _ _ E).
    destruct (_ =? 0); by eexists _, _.
  - by eexists _, _.
Qed.
End Single.
Definition generation (scope : string) (j : Z) (t : rtable) : Z :=
  match t !! (scope, j) with Some r => rr_generation r | None => 0 end.
Lemma complete_again `{RebuildConfig} scope j g s :
  0 <= g → g < generation scope j (mw_rebuild s) →
  ∃ t r, complete_scope scope j g s = (Ok true, with_rebuild t s)
    ∧ t !! (scope, j) = Some r ∧ rr_pending r = true ∧ rr_generation r = generation scope j (mw_rebuild s).
Proof.
  unfold generation, complete_scope, on_rebuild, complete_rebuild. rewrite bind_gets. destruct (mw_rebuild s !! (scope, j)) as [r|] eqn:E.
  - intros _ Hg. rewrite (proj2 (Z.ltb_lt _ _) Hg).
    destruct (update_ids_run scope [j] (finished (mw_now s) true) (mw_rebuild s)) as (t & Et & Ht). rewrite (bind_ok _ _ _ _ _ Et).
    exists t, (finished (mw_now s) true r). split; [reflexivity|]. rewrite Ht, E. cbn. rewrite decide_True; [done|]. split; [done|apply list_elem_of_here].
  - lia.
Qed.

(** C14. A request while the matches of a demande are rebuilt.  Let others commit anything that keeps the tables
    well formed between the steps of the task, requests for the same demande among it: then the task
    sends itself again, and the request is still pending, so that it is answered by a
    run that started after it. *)
Theorem request_during_a_rebuild_is_rerun `{PairEnv} `{RebuildConfig} sql_lower mode meanwhile change j limit s :
  tables_ok (mw_db s) → pretty j ∉ mw_held s → mw_broker s = true →
  (∀ s, tables_ok (mw_db s) → tables_ok (mw_db (meanwhile s))) →
  (∀ s, mw_rebuild (meanwhile s) = change (mw_rebuild s)) → (∀ s, mw_broker (meanwhile s) = mw_broker s) →
  0 <= generation "demande" j (mw_rebuild s) < generation "demande" j (change (change (mw_rebuild s))) →
  ∃ answer s' r, rebuild_match_pairs_for_demande sql_lower mode meanwhile j limit s = (Ok answer, s')
    ∧ (t_demande j limit, 5) ∈ mw_sent s'
    ∧ mw_rebuild s' !! ("demande", j) = Some r ∧ rr_pending r = true
    ∧ rr_generation r = generation "demande" j (change (change (mw_rebuild s))).
Proof.
  intros Hs Hl Hb Ht Hc Hbr Hg. unfold rebuild_match_pairs_for_demande. rewrite free_lock by done. cbn [negb].
  match goal with |- context [bind (start_of_scope "demande" j) ?k s] => destruct (bind_start "demande" j s k) as (g & Eg & ->) end.
  assert (g = generation "demande" j (mw_rebuild s)) as -> by (by injection Eg as <-). rewrite bind_modify.
  destruct (compute_pair_run sql_lower mode (task_limit limit) j (mw_db (meanwhile s)) (Ht s Hs)) as (r & db' & E).
  rewrite (bind_ok _ _ _ _ _ (on_tables_ok _ _ _ _ E)), bind_modify. set (s1 := meanwhile (with_tables db' (meanwhile s))).
  assert (mw_rebuild s1 = change (change (mw_rebuild s))) as Hr by (unfold s1; by rewrite Hc; cbn; rewrite Hc).
  destruct (complete_again "demande" j (generation "demande" j (mw_rebuild s)) s1) as (t & row & Ec & Hrow & Hp & Hgen); [lia|rewrite Hr; lia|].
  rewrite (bind_ok _ _ _ _ _ Ec).
  assert (mw_broker (with_rebuild t s1) = true) as Hb1 by (unfold s1; cbn; rewrite Hbr; cbn; by rewrite Hbr).
  rewrite (bind_ok _ _ _ _ _ (send_run (t_demande j limit) 5 (with_rebuild t s1) Hb1)).
  set (s2 := with_sent _ _). unfold _cascade_count_cache_refresh, swallow, catch.
  unfold bind at 1. rewrite (send_run t_counts 0 s2 Hb1). eexists _, _, row. split; [reflexivity|]. rewrite <- Hr. split_and!; try done.
  cbn. apply elem_of_app. left. apply elem_of_app. right. apply list_elem_of_here.
Qed.

(** ** Examples *)

Lemma rebuilt_all_maintained sql_lower ids db db' :
  tables_ok db → rebuilt sql_lower pairs_limit ids db db' → (∀ d, d ∈ db_demandes db → d_id d ∈ ids) → db_pairs db = ∅ →
  maintained sql_lower db'.
Proof.
  intros Hdb Hr Hall Hp. split; [by eapply rebuilt_exact|]. intros k.
  destruct (spec_same sql_lower pairs_limit _ _ (rb_rows _ _ _ _ _ Hr)) as (_ & Sp & _). rewrite Sp, (rb_pairs _ _ _ _ _ Hr).
  destruct (is_in k.1 ids) eqn:E; [done|]. rewrite Hp, lookup_empty. unfold spec_pair, with_rows, demande_of.
  destruct (by_key d_id k.1 (db_demandes db)) as [d|] eqn:Ed; [|done]. apply by_key_Some in Ed as [Hd Ek].
  assert (is_in k.1 ids = true) by (apply is_in_true; rewrite <- Ek; by apply Hall). congruence.
Qed.

Module TaskDemo.
#[local] Instance env : PairEnv :=
  {| pair_environ := []; profile_demande_batch_size := 1; profile_task_chunk_size := 2; profile_full_sql_threshold := 1;
     profile_batch_pos := le_n 1; profile_chunk_pos := le_S _ _ (le_n 1) |}.
#[local] Instance rebuild_env : RebuildConfig := {| _PENDING_STALE_SEC := 300; _DISPATCH_CLAIM_TTL_SEC := 60 |}.
Definition edited (status : string) (deleted_at : option Z) (o : offer) : offer :=
  mkOffer (o_id o) (o_listing o) (o_agency o) (o_type o) (o_type_id o) (o_action_id o) status (o_wilaya_id o) (o_beds o) (o_surface o)
    (o_budget o) (o_price_range o) (o_furnished o) (o_floor o) (o_elevator o) (o_accessibility o) (o_visibility o) (o_owner o) deleted_at.
Definition set_offers (offers : list offer) (db : match_db) : match_db :=
  mkDb (db_clients db) (db_demandes db) (db_listings db) offers (db_demande_locations db) (db_offer_locations db)
    (db_candidates db) (db_pairs db) (db_counts db).
(** Offer 2, the best match of demande 1, is sold. *)
Definition sold : match_db :=
  set_offers [Demo.offer1; edited "sold" None Demo.offer2; Demo.offer3; CountDemo.offer4] CountDemo.db.
Definition idle (db : match_db) : match_world := mkWorld 1000 db ∅ [] true None None [].

Lemma db_maintained : maintained lower CountDemo.db.
Proof.
  eapply (rebuilt_all_maintained lower); [exact CountDemo.tables_are_ok|exact CountDemo.db_rebuilt| |reflexivity].
  intros d Hd%CountDemo.all_rebuilt. apply positive_ids_elem. split; [done|].
  revert Hd. generalize (d_id d). intros i Hi. by repeat (apply elem_of_cons in Hi as [->|Hi]); [..|apply elem_of_nil in Hi].
Qed.
Lemma db_rows : same_rows CountDemo.tables CountDemo.db.
Proof. exact (rb_rows _ _ _ _ _ CountDemo.db_rebuilt). Qed.
Lemma sold_edited : offer_edited 2 CountDemo.db sold.
Proof.
  destruct db_rows as (_ & _ & _ & Eo & _). split; try reflexivity. intros o Ho. rewrite Eo. cbn -[Demo.offer1 Demo.offer3 CountDemo.offer4].
  rewrite !elem_of_cons. split; intros Hin; repeat destruct Hin as [->|Hin]; try tauto; by destruct Ho.
Qed.
Lemma sold_demande : Demo.demande1 ∈ db_demandes sold.
Proof. destruct db_rows as (_ & Ed & _). change (db_demandes sold) with (db_demandes CountDemo.db). rewrite Ed. apply list_elem_of_here. Qed.
Lemma sold_ok : tables_ok sold.
Proof.
  destruct db_rows as (Ec & Ed & El & Eo & _). pose proof CountDemo.db_tables_ok as Hdb. pose proof CountDemo.tables_are_ok as Ht.
  split; cbn [sold set_offers db_clients db_demandes db_listings db_offers db_candidates]; rewrite ?Ec, ?Ed, ?El.
  - apply Ht.
  - apply Ht.
  - apply Ht.
  - apply (bool_decide_unpack _); vm_compute; exact I.
  - intros o Ho. exists Demo.listing1. split; [apply list_elem_of_here|]. clear -Ho.
    repeat (apply elem_of_cons in Ho as [->|Ho]; [reflexivity|]). by apply elem_of_nil in Ho.
  - intros k Hk. destruct (tb_candidates _ Hdb k Hk) as [H1 H2]. rewrite Ed in H1. rewrite Eo in H2. split; [done|]. exact H2.
  - apply Ht.
Qed.

(** A deletion hands no demandes to the task: the demandes the offer was stored with keep the ranks they had. *)
Definition deleted : match_db :=
  set_offers [Demo.offer1; edited "available" (Some 900) Demo.offer2; Demo.offer3; CountDemo.offer4] CountDemo.db.
Example ranks_with_a_hole :
  let s := (rebuild_match_pairs_for_offer lower Direct (λ s, s) 2 [] (idle deleted)).2 in
  mp_rank <$> db_pairs (mw_db s) !! (1, 1) = Some 2 ∧ rank_of lower (mw_db s) Demo.demande1 Demo.offer1 = 1.
Proof. vm_compute. done. Qed.

(** An offer is created in wilaya 31, and its clients are marked; a refresh of the counts that runs before the task
    of the offer leaves a clean count, which the refresh that follows the task does not look at. *)
#[local] Existing Instance CountDemo.env.
#[local] Existing Instance CountDemo.leases.
Definition refresh (db : match_db) : match_db :=
  cw_db (rebuild_match_cache_dirty (λ _, None) (λ _, EmptyString) (0, 1) None (Some 7) (mkCache db [] false)).2.
Definition before : match_db :=
  (compute_match_artifacts_for_demandes lower Direct [1; 2; 3] pairs_limit
    (set_offers [Demo.offer1; Demo.offer2; Demo.offer3] CountDemo.tables)).2.
Definition created : match_db := set_offers [Demo.offer1; Demo.offer2; Demo.offer3; CountDemo.offer4] before.
Example clean_count_of_old_matches :
  let marked := (mark_clients_in_wilaya_dirty (Some 31) created).2 in
  let s := (rebuild_match_pairs_for_offer lower Direct (λ s, s) 4 [] (idle (refresh marked))).2 in
  let db := refresh (mw_db s) in
  db_counts db !! 1 = Some (mkCount 3 (Some "agency") (Some 3) false) ∧ count_single_client_cte db 1 = 4.
Proof. vm_compute. done. Qed.

(** Three requests are due, one is not. *)
Definition due : rrow := mkRRow true 1 900 900 None None 900.
Definition queue : rtable := {[("demande", 1) := due; ("demande", 2) := due; ("demande", 3) := due]}.
Definition queued : match_world := mkWorld 1000 CountDemo.db queue [] true (Some 1200) None [].
(** Another request for demande 1. *)
Definition ask (t : rtable) : rtable := (request_rebuild 1000 1000 "demande" 1 1 t).2.
Definition asked (s : match_world) : match_world := with_rebuild (ask (mw_rebuild s)) s.
End TaskDemo.
#[local] Existing Instance TaskDemo.env.
#[local] Existing Instance TaskDemo.rebuild_env.

Lemma offer_edit_is_maintained_witness :
  ∃ answer s', rebuild_match_pairs_for_offer lower Legacy (λ s, s) 2 [1] (TaskDemo.idle TaskDemo.sold) = (Ok answer, s')
    ∧ db_pairs (mw_db s') !! (1, 2) = None ∧ mp_rank <$> db_pairs (mw_db s') !! (1, 1) = Some 1.
Proof.
  destruct (offer_edit_is_maintained lower Legacy 2 [1] CountDemo.db (TaskDemo.idle TaskDemo.sold) eq_refl CountDemo.db_tables_ok
              TaskDemo.sold_ok TaskDemo.db_maintained TaskDemo.sold_edited) as (answer & s' & E & S & M).
  - assert (get_demande_ids_from_precomputed_for_offer CountDemo.db 2 = [1]) as -> by (vm_compute; reflexivity). done.
  - apply not_elem_of_nil.
  - exists answer, s'. split; [exact E|]. rewrite !(mt_pairs _ _ M). destruct (spec_same lower pairs_limit _ _ S) as (_ & Sp & _).
    rewrite !Sp. split; vm_compute; reflexivity.
Defined.
Lemma scope_tasks_are_complete_witness :
  ∃ n ids s', rebuild_match_pairs_for_client lower Direct (λ s, s) 1 false (TaskDemo.idle TaskDemo.sold) = (Ok (Done_with n 0 (Z.of_nat (List.length ids))), s')
    ∧ 1 ∈ ids ∧ mp_rank <$> db_pairs (mw_db s') !! (1, 1) = Some 1.
Proof.
  destruct (scope_tasks_are_complete lower Direct 1 false (TaskDemo.idle TaskDemo.sold) TaskDemo.sold_ok
              ltac:(apply not_elem_of_nil) ltac:(apply not_elem_of_nil) ltac:(done)) as [(n & ids & s' & E & _ & He & R) _].
  exists n, ids, s'. split; [exact E|].
  assert (1 ∈ ids) as H1.
  { apply He. exists Demo.demande1. split; [|vm_compute; auto].
    exact TaskDemo.sold_demande. }
  split; [exact H1|]. rewrite (rb_pairs _ _ _ _ _ R). cbn [fst]. rewrite (proj2 (is_in_true _ _) H1). vm_compute. reflexivity.
Defined.
Lemma flush_loses_no_request_witness :
  ∃ done_ s', flush_rebuild_demande_pairs_queue [3] (λ _, "token") TaskDemo.queued = (Ok (Some done_), s')
    ∧ done_.2 = true ∧ mw_rebuild s' !! ("demande", 3) = Some TaskDemo.due.
Proof.
  destruct (flush_loses_no_request [3] (λ _, "token") TaskDemo.queued eq_refl ltac:(apply not_elem_of_nil))
    as (done_ & batches & s' & E & Es & _ & H).
  exists done_, s'. split; [exact E|]. destruct (H 3 TaskDemo.due eq_refl eq_refl eq_refl) as [Hin|[H1 H2]]; [|by split].
  exfalso.
  assert (mw_sent s' = mw_sent (flush_rebuild_demande_pairs_queue [3] (λ _, "token") TaskDemo.queued).2) as Hs by (by rewrite E).
  assert (mw_sent (flush_rebuild_demande_pairs_queue [3] (λ _, "token") TaskDemo.queued).2 = [(t_demandes [1; 2] (Some 100), 0); (t_flush, 1)]) as Hv
    by (vm_compute; reflexivity).
  rewrite Hs, Hv in Es. cbn in Es. destruct batches as [|b [|b' l]]; cbn in *.
  - clear -Hin. by apply elem_of_nil in Hin.
  - injection Es as <- _. clear -Hin. rewrite app_nil_r in Hin.
    repeat (apply elem_of_cons in Hin as [Hin|Hin]; [discriminate Hin|]). by apply elem_of_nil in Hin.
  - clear -Es. discriminate Es.
Defined.
Lemma request_during_a_rebuild_is_rerun_witness :
  ∃ answer s', rebuild_match_pairs_for_demande lower Direct TaskDemo.asked 1 (Some 100) TaskDemo.queued = (Ok answer, s')
    ∧ (t_demande 1 (Some 100), 5) ∈ mw_sent s'.
Proof.
  destruct (request_during_a_rebuild_is_rerun lower Direct TaskDemo.asked TaskDemo.ask 1 (Some 100) TaskDemo.queued
              CountDemo.db_tables_ok ltac:(apply not_elem_of_nil) eq_refl (λ _ H, H) (λ _, eq_refl) (λ _, eq_refl))
    as (answer & s' & r & E & Hin & _); [vm_compute; by split|].
  exists answer, s'. exact (conj E Hin).
Defined.
