(* ===== verification/PyText.v ===== *)
(** * Python texts as code points

    [str] as a list of code points, the methods the importer calls on it, and what it relies on of the
    Unicode tables of the interpreter ([Unicode]).  Literals are UTF-8: [u "é"] is one code point. *)

From S2P Require Import Prelude PyValue PyFloat.
From Stdlib Require Import Ascii String SpecFloat.
Local Open Scope Z_scope.

Abbreviation text := (list Z).

(** ** Literals *)

Definition code_point (a : ascii) : Z := Z.of_N (N_of_ascii a).
(** Decoding by the leading byte; the literals of the development are well formed. *)
Fixpoint u (s : string) : text :=
  match s with
  | EmptyString => []
  | String a s1 =>
      let b := code_point a in
      if b <? 128 then b :: u s1
      else match s1 with
      | EmptyString => [b]
      | String a2 s2 =>
          let b2 := code_point a2 - 128 in
          if b <? 224 then (b - 192) * 64 + b2 :: u s2
          else match s2 with
          | EmptyString => [b]
          | String a3 s3 =>
              let b3 := code_point a3 - 128 in
              if b <? 240 then ((b - 224) * 64 + b2) * 64 + b3 :: u s3
              else match s3 with
              | EmptyString => [b]
              | String a4 s4 => (((b - 240) * 64 + b2) * 64 + b3) * 64 + (code_point a4 - 128) :: u s4
              end
          end
      end
  end.

(** ** Characters *)

Definition in_range (lo hi c : Z) : bool := (lo <=? c) && (c <=? hi).
Definition is_one_of (cs : text) (c : Z) : bool := existsb (Z.eqb c) cs.
(** [str.isspace] and [\s], the same set. *)
Definition is_space (c : Z) : bool :=
  in_range 9 13 c || in_range 28 32 c || in_range 8192 8202 c
  || is_one_of [133; 160; 5760; 8232; 8233; 8239; 8287; 12288] c.
Definition is_ascii (c : Z) : bool := in_range 0 127 c.
Definition ascii_lower (c : Z) : Z := if in_range 65 90 c then c + 32 else c.

(** What the program relies on of the Unicode tables: [str.lower], the decimal value of a digit ([\d],
    [int], [float]), [str.isdigit] and [\w].  The laws are facts of the tables since Unicode 6.3. *)
Class Unicode := {
  tlower : text → text;
  decimal : Z → option Z;
  digit_char : Z → bool;
  word : Z → bool;
  lower_ascii t : forallb is_ascii t = true → tlower t = map ascii_lower t;
  (** Lowering once is enough. *)
  lower_stable t : (∀ c, c ∈ t → tlower [c] = [c]) → tlower t = t;
  lower_lowered t c : c ∈ tlower t → tlower [c] = [c];
  (** A character comes from one of the text, save the final sigma. *)
  lower_from t c : c ∈ tlower t → c = 962 ∨ ∃ d, d ∈ t ∧ c ∈ tlower [d];
  (** Where the characters of ASCII and Latin-1 come from: capitals, the dotted I, the Kelvin and the Angstrom signs. *)
  lower_to_latin d c : c ∈ tlower [d] → in_range 0 255 c = true →
    d = c ∨ d = c - 32 ∧ (in_range 97 122 c || in_range 224 254 c) = true
    ∨ d = 304 ∧ c = 105 ∨ d = 8490 ∧ c = 107 ∨ d = 8491 ∧ c = 229;
  (** Spaces, punctuation and digits have no case. *)
  lower_caseless d c : c ∈ tlower [d] →
    (in_range 1632 1641 c || in_range 1776 1785 c || in_range 8192 8303 c || in_range 8722 8722 c
     || in_range 65279 65279 c || is_space c) = true → d = c;
  decimal_ascii c : is_ascii c = true → decimal c = if in_range 48 57 c then Some (c - 48) else None;
  decimal_arabic c : in_range 1632 1641 c = true → decimal c = Some (c - 1632);
  decimal_value c d : decimal c = Some d → 0 <= d <= 9;
  decimal_space c d : decimal c = Some d → is_space c = false;
  digit_decimal c d : decimal c = Some d → digit_char c = true;
  word_ascii c : is_ascii c = true →
    word c = in_range 48 57 c || in_range 65 90 c || in_range 97 122 c || (c =? 95)
}.
Definition is_decimal `{Unicode} (c : Z) : bool := bool_decide (is_Some (decimal c)).

(** ** Methods *)

Fixpoint drop_space (t : text) : text :=
  match t with [] => [] | c :: t' => if is_space c then drop_space t' else t end.
(** [str.strip()] *)
Definition tstrip (t : text) : text := rev (drop_space (rev (drop_space t))).

(** The rest of a text after a prefix. *)
Fixpoint after_prefix (p t : text) : option text :=
  match p, t with
  | [], _ => Some t
  | c :: p', d :: t' => if c =? d then after_prefix p' t' else None
  | _, [] => None
  end.
Definition startswith (p t : text) : bool := bool_decide (is_Some (after_prefix p t)).
(** [p in t] *)
Fixpoint contains (p t : text) : bool :=
  startswith p t || match t with [] => false | _ :: t' => contains p t' end.
Definition has (c : Z) (t : text) : bool := existsb (Z.eqb c) t.

(** [t.replace(old, new)] of a non-empty [old]: from the left, occurrences that do not overlap. *)
Fixpoint replace_from (fuel : nat) (old new t : text) : text :=
  match fuel with
  | O => t
  | S n =>
      match t with
      | [] => []
      | c :: t' => match after_prefix old t with
                   | Some rest => new ++ replace_from n old new rest
                   | None => c :: replace_from n old new t'
                   end
      end
  end.
Definition treplace (old new t : text) : text := replace_from (List.length t) old new t.
(** Replacing or removing one character. *)
Definition replace1 (c : Z) (new t : text) : text := flat_map (λ d, if d =? c then new else [d]) t.

(** [t.split(c)] *)
Fixpoint split_at (c : Z) (t : text) : list text :=
  match t with
  | [] => [[]]
  | d :: t' => if d =? c then [] :: split_at c t'
               else match split_at c t' with w :: ws => (d :: w) :: ws | [] => [[d]] end
  end.
(** [t.split()]: the words between white space. *)
Fixpoint words_from (w : text) (t : text) : list text :=
  match t with
  | [] => match w with [] => [] | _ => [rev w] end
  | c :: t' => if is_space c then match w with [] => words_from [] t' | _ => rev w :: words_from [] t' end
               else words_from (c :: w) t'
  end.
Definition words (t : text) : list text := words_from [] t.
Fixpoint join_texts (sep : text) (ts : list text) : text :=
  match ts with [] => [] | [t] => t | t :: ts' => t ++ sep ++ join_texts sep ts' end.

(** The last position of a character, from 0; -1 if there is none ([str.rfind]). *)
Fixpoint rfind_from (i found : Z) (c : Z) (t : text) : Z :=
  match t with [] => found | d :: t' => rfind_from (i + 1) (if d =? c then i else found) c t' end.
Definition rfind (c : Z) (t : text) : Z := rfind_from 0 (-1) c t.

Fixpoint is_prefix_len (n : nat) (t : text) : bool :=
  match n, t with O, _ => true | S n', _ :: t' => is_prefix_len n' t' | _, _ => false end.

(** ** Numbers of a text *)

(** The ASCII text [int] and [float] read: decimals as digits, white space as spaces, and a character
    they refuse for any other that is not ASCII. *)
Definition to_ascii `{Unicode} (c : Z) : ascii :=
  match decimal c with
  | Some d => ascii_of_N (Z.to_N (48 + d))
  | None => if is_ascii c then ascii_of_N (Z.to_N c) else if is_space c then " "%char else "?"%char
  end.
Fixpoint ascii_text `{Unicode} (t : text) : string :=
  match t with [] => EmptyString | c :: t' => String (to_ascii c) (ascii_text t') end.
Definition non_ascii_space (c : Z) : bool := is_space c && negb (is_ascii c).
(** [float(t)] *)
Definition float_of_text `{Unicode} (t : text) : option spec_float := py_float (ascii_text t).
(** [int(t)]: [None] for the ValueError, also raised for more than 4300 digits. *)
Definition max_str_digits : Z := 4300.
Definition int_of_text `{Unicode} (t : text) : option Z :=
  if max_str_digits <? Z.of_nat (List.length (List.filter is_decimal t)) then None else parse_int (ascii_text t).
(** [str(z)] *)
Definition text_of_Z (z : Z) : text := u (pretty z).

(** ** A table for the examples: ASCII, Latin-1 and the two rows of Arabic digits *)

Definition demo_lower1 (c : Z) : text :=
  if in_range 65 90 c || in_range 192 214 c || in_range 216 222 c then [c + 32]
  else if c =? 304 then [105; 775] else if c =? 8490 then [107] else if c =? 8491 then [229] else [c].
Definition demo_decimal (c : Z) : option Z :=
  if in_range 48 57 c then Some (c - 48) else if in_range 1632 1641 c then Some (c - 1632)
  else if in_range 1776 1785 c then Some (c - 1776) else if in_range 2406 2415 c then Some (c - 2406) else None.
Lemma in_range_true lo hi c : in_range lo hi c = true ↔ lo <= c <= hi.
Proof. unfold in_range. rewrite andb_true_iff. lia. Qed.
Ltac by_cases := repeat match goal with |- context [if ?b then _ else _] => destruct b eqn:? end; cbn in *.
Lemma demo_lowered c d : d ∈ demo_lower1 c → demo_lower1 d = [d].
Proof.
  unfold demo_lower1, in_range. intros Hd. destruct (_ || _ || _) eqn:E1 in Hd.
  { apply list_elem_of_singleton in Hd as ->. by_cases; by (done || (exfalso; lia)). }
  destruct (c =? 304) eqn:E2 in Hd.
  { apply elem_of_cons in Hd as [->|Hd%list_elem_of_singleton]; [done|by subst]. }
  destruct (c =? 8490) eqn:E3 in Hd; [by apply list_elem_of_singleton in Hd as ->|].
  destruct (c =? 8491) eqn:E4 in Hd; [by apply list_elem_of_singleton in Hd as ->|].
  apply list_elem_of_singleton in Hd as ->. by rewrite E1, E2, E3, E4.
Qed.
Definition demo_lower (t : text) : text := flat_map demo_lower1 t.
Lemma demo_lower_elem t c : c ∈ demo_lower t ↔ ∃ d, d ∈ t ∧ c ∈ demo_lower1 d.
Proof. unfold demo_lower. rewrite list_elem_of_In, in_flat_map. setoid_rewrite <- list_elem_of_In. done. Qed.
Lemma demo_lower_one c : demo_lower [c] = demo_lower1 c.
Proof. apply app_nil_r. Qed.
#[refine] Instance demo_unicode : Unicode := {|
  tlower := demo_lower;
  decimal := demo_decimal;
  digit_char c := bool_decide (is_Some (demo_decimal c)) || is_one_of [178; 179; 185] c;
  word c := in_range 48 57 c || in_range 65 90 c || in_range 97 122 c || (c =? 95) || (191 <? c)
|}.
Proof.
  - intros t Ht. induction t as [|c t IH]; [done|]. cbn in Ht. apply andb_true_iff in Ht as [Hc Ht].
    change (demo_lower1 c ++ demo_lower t = ascii_lower c :: map ascii_lower t). rewrite IH by done.
    unfold demo_lower1, is_ascii, ascii_lower, in_range in *. by_cases; by (done || (exfalso; lia)).
  - intros t Ht. induction t as [|c t IH]; [done|]. change (demo_lower1 c ++ demo_lower t = c :: t).
    rewrite <- demo_lower_one, Ht by apply list_elem_of_here. cbn. f_equal. apply IH. intros d Hd. apply Ht. by apply list_elem_of_further.
  - intros t c (d & _ & Hc)%demo_lower_elem. rewrite demo_lower_one. by eapply demo_lowered.
  - intros t c (d & Hd & Hc)%demo_lower_elem. right. exists d. by rewrite demo_lower_one.
  - intros d c. rewrite demo_lower_one. unfold demo_lower1, in_range. intros Hc Hl.
    repeat match type of Hc with context [if ?b then _ else _] => destruct b eqn:? end;
      repeat (apply elem_of_cons in Hc as [->|Hc]; [lia|]); by apply elem_of_nil in Hc.
  - intros d c. rewrite demo_lower_one. unfold demo_lower1, is_space, is_one_of, existsb, in_range. intros Hc Hl.
    repeat match type of Hc with context [if ?b then _ else _] => destruct b eqn:? end;
      repeat (apply elem_of_cons in Hc as [->|Hc]; [lia|]); by apply elem_of_nil in Hc.
  - intros c. unfold is_ascii, demo_decimal, in_range. intros Hc. by_cases; by (done || (exfalso; lia)).
  - intros c. unfold demo_decimal, in_range. intros Hc. by_cases; by (done || (exfalso; lia)).
  - intros c d. unfold demo_decimal, in_range. by_cases; intros [= <-]; lia.
  - intros c d. unfold demo_decimal, is_space, is_one_of, existsb, in_range. by_cases; intros [= <-]; lia.
  - intros c d Hd. rewrite Hd. done.
  - intros c Hc. unfold is_ascii, in_range in *. lia.
Defined.
Example literal_arabic : u "نعم é" = [1606; 1593; 1605; 32; 233].
Proof. vm_compute. reflexivity. Qed.
Example int_of_arabic : int_of_text (u " ٤٢") = Some 42.
Proof. vm_compute. reflexivity. Qed.
