(* ===== verification/PyRegex.v ===== *)
(** * Python's regular expressions

    The patterns of the importer are data ([regex]); [run] is the backtracking matcher of [re]:
    alternatives from the left, repetitions greedy or lazy, groups remembered, no repetition of an empty
    match.  [mat] says declaratively which texts a pattern spans; the matcher finds a
    match exactly when there is one ([run_sound], [run_complete]). *)

From S2P Require Import Prelude PyText.
From Stdlib Require Import Ascii String.
Local Open Scope Z_scope.

Inductive regex : Type :=
  | Cls (p : Z → bool)
  | Eps
  | Seq (a b : regex)
  | Alt (a b : regex)
  | Star (greedy : bool) (a : regex)
  | Grp (n : nat) (a : regex)
  | Bol
  | Eol
  | Wordb.

(** ** Notation of the patterns *)

Declare Scope regex_scope.
Delimit Scope regex_scope with regex.
Bind Scope regex_scope with regex.
Infix "⋅" := Seq (at level 41, right associativity) : regex_scope.
Infix "∥" := Alt (at level 51, right associativity) : regex_scope.
Local Open Scope regex_scope.

Definition Plus (a : regex) : regex := a ⋅ Star true a.
Definition Opt (a : regex) : regex := a ∥ Eps.
(** [a{n}] and [a{n,m}] *)
Fixpoint Times (n : nat) (a : regex) : regex := match n with O => Eps | S n' => a ⋅ Times n' a end.
Fixpoint UpTo (n : nat) (a : regex) : regex := match n with O => Eps | S n' => Opt (a ⋅ UpTo n' a) end.
Definition Between (n m : nat) (a : regex) : regex := Times n a ⋅ UpTo (m - n) a.
Definition chr (c : Z) : regex := Cls (Z.eqb c).
Fixpoint lit (t : text) : regex := match t with [] => Eps | [c] => chr c | c :: t' => chr c ⋅ lit t' end.
Fixpoint any_of (rs : list regex) : regex := match rs with [] => Cls (λ _, false) | [r] => r | r :: rs' => r ∥ any_of rs' end.
(** Under IGNORECASE a letter also matches its other case, and some letters a special form. *)
Definition same_letter (c d : Z) : bool :=
  (ascii_lower c =? ascii_lower d)
  || (in_range 224 254 c && negb (c =? 247) && (d =? c - 32)) || (in_range 192 222 c && negb (c =? 215) && (d =? c + 32))
  || is_one_of [105; 73] c && is_one_of [304; 305] d
  || is_one_of [107; 75] c && (d =? 8490)
  || is_one_of [115; 83] c && (d =? 383).
Fixpoint lit_i (t : text) : regex :=
  match t with [] => Eps | [c] => Cls (same_letter c) | c :: t' => Cls (same_letter c) ⋅ lit_i t' end.
Definition words_of (t : string) : list text := words (u t).
Definition lits (t : string) : regex := any_of (map lit (words_of t)).
Definition lits_i (t : string) : regex := any_of (map lit_i (words_of t)).
Definition space : regex := Cls is_space.
Definition spaces : regex := Star true space.
Definition digit `{Unicode} : regex := Cls is_decimal.
Definition digits `{Unicode} : regex := Plus digit.
(** [\d+(?:\[.,\]\d+)?] *)
Definition dot_or_comma (c : Z) : bool := (c =? 46) || (c =? 44).
Definition decimal_number `{Unicode} : regex := digits ⋅ Opt (Cls dot_or_comma ⋅ digits).

(** ** Matching *)

(** What was read, backwards, what is left, and the groups, the latest first. *)
Record pos := At { behind : text; ahead : text; groups : list (nat * text) }.
Definition start (t : text) : pos := At [] t [].
(** What was read between two positions. *)
Definition between (p q : pos) : text := rev (take (List.length (behind q) - List.length (behind p)) (behind q)).
Definition group (n : nat) (p : pos) : option text := snd <$> List.find (λ g, Nat.eqb g.1 n) (groups p).
Definition shorter (q p : pos) : bool := Nat.ltb (List.length (ahead q)) (List.length (ahead p)).

Section Matcher.
Context `{Unicode}.

(** [$]: at the end, or before a last line feed. *)
Definition at_end (p : pos) : bool := match ahead p with [] => true | [c] => c =? 10 | _ => false end.
Definition word_before (p : pos) : bool := match behind p with c :: _ => word c | [] => false end.
Definition word_after (p : pos) : bool := match ahead p with c :: _ => word c | [] => false end.

Section Loop.
Context {A : Type} (greedy : bool) (step : (pos → option A) → pos → option A) (k : pos → option A).
Definition or_else (x y : option A) : option A := match x with Some _ => x | None => y end.
Fixpoint loop (n : nat) (p : pos) : option A :=
  match n with
  | O => k p
  | S n' =>
      let again := step (λ q, if shorter q p then loop n' q else None) p in
      if greedy then or_else again (k p) else or_else (k p) again
  end.
End Loop.

Fixpoint run {A} (r : regex) (k : pos → option A) (p : pos) : option A :=
  match r with
  | Cls f =>
      match ahead p with
      | c :: t => if f c then k (At (c :: behind p) t (groups p)) else None
      | [] => None
      end
  | Eps => k p
  | Seq a b => run a (run b k) p
  | Alt a b => or_else (run a k p) (run b k p)
  | Star greedy a => loop greedy (run a) k (List.length (ahead p)) p
  | Grp n a => run a (λ q, k (At (behind q) (ahead q) ((n, between p q) :: groups q))) p
  | Bol => match behind p with [] => k p | _ => None end
  | Eol => if at_end p then k p else None
  | Wordb => if bool_decide (word_before p = word_after p) then None else k p
  end.

(** [re.match], [re.fullmatch] and [re.search] *)
Definition re_match (r : regex) (t : text) : option pos := run r Some (start t).
Definition re_fullmatch (r : regex) (t : text) : option pos :=
  run r (λ q, match ahead q with [] => Some q | _ => None end) (start t).
Fixpoint search_from (r : regex) (back t : text) : option (pos * pos) :=
  or_else ((λ q, (At back t [], q)) <$> run r Some (At back t []))
    (match t with [] => None | c :: t' => search_from r (c :: back) t' end).
Definition re_search (r : regex) (t : text) : option pos := snd <$> search_from r [] t.
Definition matches_some (r : regex) (t : text) : bool := bool_decide (is_Some (re_match r t)).
Definition found (r : regex) (t : text) : bool := bool_decide (is_Some (re_search r t)).

(** [re.sub] and [re.findall], for patterns that do not match the empty text. *)
Fixpoint sub_from (fuel : nat) (r : regex) (new back t : text) : text :=
  match fuel with
  | O => t
  | S n =>
      match t with
      | [] => []
      | c :: t' =>
          match run r Some (At back t []) with
          | Some q => if shorter q (At back t []) then new ++ sub_from n r new (behind q) (ahead q)
                      else c :: sub_from n r new (c :: back) t'
          | None => c :: sub_from n r new (c :: back) t'
          end
      end
  end.
Definition re_sub (r : regex) (new t : text) : text := sub_from (List.length t) r new [] t.
Fixpoint findall_from (fuel : nat) (r : regex) (back t : text) : list text :=
  match fuel with
  | O => []
  | S n =>
      match t with
      | [] => []
      | c :: t' =>
          match run r Some (At back t []) with
          | Some q => if shorter q (At back t []) then between (At back t []) q :: findall_from n r (behind q) (ahead q)
                      else findall_from n r (c :: back) t'
          | None => findall_from n r (c :: back) t'
          end
      end
  end.
Definition re_findall (r : regex) (t : text) : list text := findall_from (List.length t) r [] t.

(** ** What a pattern spans *)

Inductive mat : regex → pos → pos → Prop :=
  | mat_cls f l c t g : f c = true → mat (Cls f) (At l (c :: t) g) (At (c :: l) t g)
  | mat_eps p : mat Eps p p
  | mat_seq a b p q r : mat a p q → mat b q r → mat (Seq a b) p r
  | mat_alt_l a b p q : mat a p q → mat (Alt a b) p q
  | mat_alt_r a b p q : mat b p q → mat (Alt a b) p q
  | mat_star_stop greedy a p : mat (Star greedy a) p p
  | mat_star_more greedy a p q r : mat a p q → shorter q p = true → mat (Star greedy a) q r → mat (Star greedy a) p r
  | mat_grp n a p q : mat a p q → mat (Grp n a) p (At (behind q) (ahead q) ((n, between p q) :: groups q))
  | mat_bol t g : mat Bol (At [] t g) (At [] t g)
  | mat_eol p : at_end p = true → mat Eol p p
  | mat_wordb p : word_before p ≠ word_after p → mat Wordb p p.

Lemma or_else_Some {A} (x y : option A) a : or_else x y = Some a → x = Some a ∨ y = Some a.
Proof. destruct x; cbn; auto. Qed.
Lemma or_else_is_Some {A} (x y : option A) : is_Some x ∨ is_Some y → is_Some (or_else x y).
Proof. destruct x; cbn; [by eauto|]. by intros [[? ?]|?]. Qed.

(** A result of the matcher is the result of what follows one of the matches. *)
Lemma run_sound {A} r (k : pos → option A) p a : run r k p = Some a → ∃ q, mat r p q ∧ k q = Some a.
Proof.
  revert k p. induction r as [f| |r1 IH1 r2 IH2|r1 IH1 r2 IH2|greedy r IH|n r IH| | |]; intros k [l t g]; cbn -[Nat.ltb].
  - destruct t as [|c t]; [done|]. destruct (f c) eqn:E; [|done]. intros Hk. by eexists; split; [constructor|].
  - intros Hk. by eexists; split; [constructor|].
  - intros (q & Hq & (q' & Hq' & Hk)%IH2)%IH1. by eexists; split; [econstructor|].
  - intros [(q & Hq & Hk)%IH1|(q & Hq & Hk)%IH2]%or_else_Some; by eexists; split; [econstructor; eassumption|].
  - generalize (At l t g) as p, (List.length t) as n. intros p n. revert p. induction n as [|n IHn]; intros p; cbn [loop].
    { intros Hk. by eexists; split; [constructor|]. }
    set (again := run r _ p). intros E.
    assert (again = Some a ∨ k p = Some a) as [Ha|Hk] by (destruct greedy; apply or_else_Some in E; tauto).
    + apply IH in Ha as (q & Hq & Ha). destruct (shorter q p) eqn:Es; [|done]. apply IHn in Ha as (q' & Hq' & Hk).
      eexists. split; [by eapply mat_star_more|done].
    + by eexists; split; [constructor|].
  - intros (q & Hq & Hk)%IH. by eexists; split; [constructor|].
  - destruct l; [|done]. intros Hk. by eexists; split; [constructor|].
  - case_match eqn:E; [|done]. intros Hk. by eexists; split; [constructor|].
  - case_bool_decide as E; [done|]. intros Hk. by eexists; split; [constructor|].
Qed.
Lemma mat_shrinks r p q : mat r p q → (List.length (ahead q) <= List.length (ahead p))%nat.
Proof. induction 1; cbn in *; lia. Qed.
(** If what follows accepts one of the matches, the matcher finds a result. *)
Lemma run_complete_loop {A} r p q : mat r p q → ∀ k : pos → option A, is_Some (k q) →
  is_Some (run r k p)
  ∧ ∀ greedy a, r = Star greedy a → ∀ n, (List.length (ahead p) <= n)%nat → is_Some (loop greedy (run a) k n p).
Proof.
  induction 1 as [f l c t g Hc|p|a b p q r Ha IHa Hb IHb|a b p q _ IH|a b p q _ IH|greedy a p|greedy a p q r Ha IHa Hs Hb IHb
    |n a p q _ IH|t g|p Hp|p Hp]; intros k Hk; (split; [|try discriminate]); cbn -[Nat.ltb].
  - by rewrite Hc.
  - done.
  - apply IHa. by apply IHb.
  - apply or_else_is_Some. left. by apply IH.
  - apply or_else_is_Some. right. by apply IH.
  - destruct (List.length (ahead p)); [done|]. cbn [loop]. destruct greedy; apply or_else_is_Some; auto.
  - intros greedy' a' [= <- <-] [|n] _; [done|]. cbn [loop]. destruct greedy; apply or_else_is_Some; auto.
  - assert (∃ n, List.length (ahead p) = S n ∧ (List.length (ahead q) <= n)%nat) as (n & -> & Hn).
    { unfold shorter in Hs. apply Nat.ltb_lt in Hs. exists (pred (List.length (ahead p))). lia. }
    cbn [loop]. assert (is_Some (run a (λ q, if shorter q p then loop greedy (run a) k n q else None) p)) as H1.
    { apply IHa. rewrite Hs. by apply (proj2 (IHb k Hk)). }
    destruct greedy; apply or_else_is_Some; auto.
  - intros greedy' a' [= <- <-] n Hn. apply Nat.ltb_lt in Hs as Hs'. destruct n as [|n]; [lia|].
    cbn [loop]. assert (is_Some (run a (λ q, if shorter q p then loop greedy (run a) k n q else None) p)) as H1.
    { apply IHa. rewrite Hs. apply (proj2 (IHb k Hk)); [done|lia]. }
    destruct greedy; apply or_else_is_Some; auto.
  - by apply IH.
  - done.
  - by rewrite Hp.
  - by rewrite bool_decide_false.
Qed.
Lemma run_complete {A} r (k : pos → option A) p q : mat r p q → is_Some (k q) → is_Some (run r k p).
Proof. intros Hm Hk. by apply (run_complete_loop r p q Hm k Hk). Qed.

Lemma re_match_sound r t q : re_match r t = Some q → mat r (start t) q.
Proof. intros (q' & Hq & [= ->])%run_sound. done. Qed.
Lemma re_match_complete r t q : mat r (start t) q → is_Some (re_match r t).
Proof. intros Hq. by eapply run_complete. Qed.
Lemma matches_some_spec r t : matches_some r t = true ↔ ∃ q, mat r (start t) q.
Proof.
  unfold matches_some. rewrite bool_decide_eq_true. split.
  - intros (q & Hq). exists q. by apply re_match_sound.
  - intros (q & Hq). by eapply re_match_complete.
Qed.
(** [re.fullmatch] finds exactly the texts a pattern spans. *)
Lemma re_fullmatch_spec r t : is_Some (re_fullmatch r t) ↔ ∃ q, mat r (start t) q ∧ ahead q = [].
Proof.
  unfold re_fullmatch. split.
  - intros (a & (q & Hq & Ha)%run_sound). exists q. split; [done|]. by destruct (ahead q).
  - intros (q & Hq & Ha). eapply run_complete; [done|]. by rewrite Ha.
Qed.
End Matcher.

(** What is read is what was ahead. *)
Lemma mat_behind `{Unicode} r p q :
  mat r p q → ∃ w, ahead p = w ++ ahead q ∧ behind q = rev w ++ behind p.
Proof.
  induction 1 as [f l c t g|p|a b p q r _ (w & E1 & E2) _ (w' & E1' & E2')|a b p q _ IH|a b p q _ IH|gr a p
    |gr a p q r _ (w & E1 & E2) _ _ (w' & E1' & E2')|n a p q _ IH|t g|p|p]; try done; try by (exists []).
  - by exists [c].
  - exists (w ++ w'). rewrite E1, E1', E2', E2, rev_app_distr, <- !app_assoc. done.
  - exists (w ++ w'). rewrite E1, E1', E2', E2, rev_app_distr, <- !app_assoc. done.
Qed.
Lemma between_read `{Unicode} r p q w : mat r p q → behind q = rev w ++ behind p → between p q = w.
Proof.
  intros _ E. unfold between. rewrite E, length_app, length_rev, Nat.add_sub, take_app_length' by by rewrite length_rev. apply rev_involutive.
Qed.

Lemma mat_seq_inv `{Unicode} a b p r : mat (Seq a b) p r → ∃ q, mat a p q ∧ mat b q r.
Proof. inversion 1; subst. eauto. Qed.
Lemma mat_grp_inv `{Unicode} n a p q :
  mat (Grp n a) p q → ∃ q', mat a p q' ∧ behind q = behind q' ∧ ahead q = ahead q' ∧ groups q = (n, between p q') :: groups q'.
Proof. inversion 1; subst. eauto. Qed.
(** Patterns without groups keep those of what came before. *)
Fixpoint group_free (r : regex) : bool :=
  match r with
  | Grp _ _ => false
  | Seq a b | Alt a b => group_free a && group_free b
  | Star _ a => group_free a
  | _ => true
  end.
Lemma mat_group_free `{Unicode} r p q : mat r p q → group_free r = true → groups q = groups p.
Proof.
  induction 1 as [f l c t g|p|a b p q r _ IH1 _ IH2|a b p q _ IH|a b p q _ IH|gr a p|gr a p q r _ IH1 _ _ IH2|n a p q _ IH|t g|p|p];
    cbn; rewrite ?andb_true_iff; try done.
  - intros [Ha Hb]. by rewrite IH2, IH1.
  - intros [Ha Hb]. by apply IH.
  - intros [Ha Hb]. by apply IH.
  - intros Ha. by rewrite IH2, IH1.
Qed.
Lemma mat_elem `{Unicode} r p q c : mat r p q → c ∈ between p q → c ∈ ahead p.
Proof.
  intros Hm Hc. destruct (mat_behind _ _ _ Hm) as (w & Ha & Hb). rewrite (between_read _ _ _ w Hm Hb) in Hc. rewrite Ha. by apply elem_of_app; left.
Qed.
Lemma mat_ahead_elem `{Unicode} r p q c : mat r p q → c ∈ ahead q → c ∈ ahead p.
Proof. intros (w & -> & _)%mat_behind Hc. by apply elem_of_app; right. Qed.

(** What a pattern can read, character by character. *)
Fixpoint reads (P : Z → Prop) (r : regex) : Prop :=
  match r with
  | Cls f => ∀ c, f c = true → P c
  | Seq a b | Alt a b => reads P a ∧ reads P b
  | Star _ a | Grp _ a => reads P a
  | _ => True
  end.
Lemma mat_reads `{Unicode} P r p q :
  mat r p q → reads P r → ∃ w, ahead p = w ++ ahead q ∧ behind q = rev w ++ behind p ∧ ∀ c, c ∈ w → P c.
Proof.
  induction 1 as [f l c t g Hf|p|a b p q r _ IH1 _ IH2|a b p q _ IH|a b p q _ IH|gr a p|gr a p q r _ IH1 _ _ IH2|n a p q _ IH|t g|p|p];
    cbn; try by (intros _; exists []; split_and!; [done..|]; intros ? ?%elem_of_nil).
  - intros HP. exists [c]. split_and!; [done..|]. intros d ->%list_elem_of_singleton. by apply HP.
  - intros [Ha Hb]. destruct (IH1 Ha) as (w & E1 & E2 & Hw), (IH2 Hb) as (w' & E1' & E2' & Hw'). exists (w ++ w').
    rewrite E1, E1', E2', E2, rev_app_distr, <- !app_assoc. split_and!; [done..|]. intros c [?|?]%elem_of_app; auto.
  - intros [Ha _]. by apply IH.
  - intros [_ Hb]. by apply IH.
  - intros Ha. destruct (IH1 Ha) as (w & E1 & E2 & Hw), (IH2 Ha) as (w' & E1' & E2' & Hw'). exists (w ++ w').
    rewrite E1, E1', E2', E2, rev_app_distr, <- !app_assoc. split_and!; [done..|]. intros c [?|?]%elem_of_app; auto.
  - done.
Qed.
Lemma between_reads `{Unicode} P r p q : mat r p q → reads P r → ∀ c, c ∈ between p q → P c.
Proof. intros Hm Hr. destruct (mat_reads P r p q Hm Hr) as (w & _ & E & Hw). by rewrite (between_read r p q w Hm E). Qed.
Lemma reads_ahead `{Unicode} P r p q : mat r p q → reads P r → ahead q = [] → ∀ c, c ∈ ahead p → P c.
Proof. intros Hm Hr Hq. destruct (mat_reads P r p q Hm Hr) as (w & -> & _ & Hw). by rewrite Hq, app_nil_r. Qed.

(** ** Runs of one class *)

Fixpoint run_of (f : Z → bool) (t : text) : text :=
  match t with [] => [] | c :: t' => if f c then c :: run_of f t' else [] end.
Fixpoint past_run (f : Z → bool) (t : text) : text :=
  match t with [] => [] | c :: t' => if f c then past_run f t' else t end.
(** The runs of a class replaced, each by one text. *)
Fixpoint squeeze (f : Z → bool) (new : text) (inside : bool) (t : text) : text :=
  match t with
  | [] => []
  | c :: t' => if f c then (if inside then [] else new) ++ squeeze f new true t' else c :: squeeze f new false t'
  end.
Lemma squeeze_past f (new t : text) : squeeze f new true (past_run f t) = squeeze f new true t.
Proof. induction t as [|c t IH]; [done|]. cbn. destruct (f c) eqn:E; [done|]. cbn. by rewrite E. Qed.
Lemma past_run_length f (t : text) : (List.length (past_run f t) <= List.length t)%nat.
Proof. induction t as [|c t IH]; [done|]. cbn. destruct (f c); cbn; lia. Qed.
Lemma squeeze_inside f (t : text) : match past_run f t with c :: _ => f c = false | [] => True end.
Proof. induction t as [|c t IH]; [done|]. cbn. destruct (f c) eqn:E; [done|by cbn]. Qed.

Section Runs.
Context `{Unicode} (f : Z → bool).
Lemma star_run l t g n :
  (List.length t <= n)%nat → loop true (run (Cls f)) Some n (At l t g) = Some (At (rev (run_of f t) ++ l) (past_run f t) g).
Proof.
  revert l n. induction t as [|c t IH]; intros l n Hn.
  - destruct n; [done|]. done.
  - destruct n as [|n]; [cbn in Hn; lia|]. cbn [loop run ahead behind groups run_of past_run]. destruct (f c) eqn:E; [|done].
    unfold shorter. cbn [ahead List.length]. rewrite (proj2 (Nat.ltb_lt _ _)) by lia. rewrite IH by (cbn in Hn; lia).
    cbn. by rewrite <- app_assoc.
Qed.
Lemma plus_run l c t g :
  run (Plus (Cls f)) Some (At l (c :: t) g)
  = if f c then Some (At (rev (run_of f t) ++ c :: l) (past_run f t) g) else None.
Proof. cbn [Plus run ahead behind groups]. destruct (f c); [|done]. by apply star_run. Qed.
Lemma sub_squeeze_from (new : text) n l t :
  (List.length t <= n)%nat → sub_from n (Plus (Cls f)) new l t = squeeze f new false t.
Proof.
  revert l t. induction n as [|n IH]; intros l t Hn; [by destruct t; [|cbn in Hn; lia]|].
  destruct t as [|c t]; [done|]. cbn [sub_from squeeze]. rewrite plus_run. destruct (f c) eqn:E.
  - unfold shorter. cbn [ahead behind]. pose proof (past_run_length f t) as Hl. rewrite (proj2 (Nat.ltb_lt _ _)) by (cbn; lia).
    rewrite IH by (cbn in Hn; lia). f_equal. rewrite <- squeeze_past. pose proof (squeeze_inside f t) as Hp.
    destruct (past_run f t) as [|d t']; [done|]. cbn. by rewrite Hp.
  - f_equal. apply IH. cbn in Hn. lia.
Qed.
(** [re.sub] of a run of one class. *)
Lemma re_sub_squeeze (new t : text) : re_sub (Plus (Cls f)) new t = squeeze f new false t.
Proof. by apply sub_squeeze_from. Qed.
Lemma squeeze_nothing b (t : text) : squeeze f [] b t = List.filter (λ c, negb (f c)) t.
Proof. revert b. induction t as [|c t IH]; intros b; [done|]. cbn. destruct (f c); cbn; [destruct b; apply IH|by f_equal]. Qed.
Lemma re_sub_removes (t : text) : re_sub (Plus (Cls f)) [] t = List.filter (λ c, negb (f c)) t.
Proof. by rewrite re_sub_squeeze, squeeze_nothing. Qed.
(** [re.sub] of single characters of a class. *)
Lemma sub_one_from n l (t : text) :
  (List.length t <= n)%nat → sub_from n (Cls f) [] l t = List.filter (λ c, negb (f c)) t.
Proof.
  revert l t. induction n as [|n IH]; intros l t Hn; [by destruct t; [|cbn in Hn; lia]|].
  destruct t as [|c t]; [done|]. cbn [sub_from run ahead behind groups List.filter]. cbn in Hn. destruct (f c); cbn [negb].
  - unfold shorter. cbn [ahead behind List.length]. rewrite (proj2 (Nat.ltb_lt _ _)) by lia. apply IH. lia.
  - f_equal. apply IH. lia.
Qed.
Lemma re_sub_filter (t : text) : re_sub (Cls f) [] t = List.filter (λ c, negb (f c)) t.
Proof. by apply sub_one_from. Qed.
End Runs.
