(* ===== verification/ImportText.v ===== *)
(** * Texts of imported cells

    src/core/importer/normalizers/text_utils.py and location_text.py: the canonical form of a cell, labels, and
    the candidates of a location. *)

From S2P Require Import Prelude PyText PyRegex.
From Stdlib Require Import Ascii String.
Local Open Scope Z_scope.

(** ** Translations: [str.translate] with a table of single characters *)

Fixpoint image (table : list (Z * text)) (c : Z) : text :=
  match table with [] => [c] | (d, t) :: table' => if c =? d then t else image table' c end.
Definition translate (table : list (Z * text)) (t : text) : text := flat_map (image table) t.
(** The characters of the first text to those of the second, one to one. *)
Definition pairing (from to : string) : list (Z * text) := zip_with (λ c d, (c, [d])) (u from) (u to).
Definition each_to (from : text) (to : text) : list (Z * text) := map (λ c, (c, to)) from.

(* src/core/importer/normalizers/text_utils.py :: ARABIC_DIGITS *)
Definition ARABIC_DIGITS : list (Z * text) :=
  pairing "٠١٢٣٤٥٦٧٨٩" "0123456789" ++ pairing "۰۱۲۳۴۵۶۷۸۹" "0123456789".
(* src/core/importer/normalizers/text_utils.py :: _TYPOGRAPHIC_TRANSLATION *)
Definition _TYPOGRAPHIC_TRANSLATION : list (Z * text) :=
  each_to (u "“”„«»") [34] ++ each_to (u "‘’‚") [39] ++ each_to [160; 8239; 8199] [32]
  ++ each_to [8203; 8204; 8205; 8288; 65279] [] ++ each_to (u "–—−") [45].
(* src/core/importer/normalizers/text_utils.py :: _ACCENT_TRANSLATION *)
Definition _ACCENT_TRANSLATION : list (Z * text) :=
  pairing "éèêëàâäîïôöùûüç" "eeeeaaaiioouuuc" ++ pairing "ÉÈÊËÀÂÄÎÏÔÖÙÛÜÇ" "EEEEAAAIIOOUUUC".
(* src/core/importer/normalizers/text_utils.py :: _CONTROL_TRANSLATION *)
Definition is_control (c : Z) : bool := in_range 0 8 c || (c =? 11) || (c =? 12) || in_range 14 31 c || (c =? 127).

(* src/core/importer/normalizers/text_utils.py :: convert_arabic_digits *)
Definition convert_arabic_digits (t : text) : text := translate ARABIC_DIGITS t.
(* src/core/importer/normalizers/text_utils.py :: strip_accents *)
Definition strip_accents (t : text) : text := translate _ACCENT_TRANSLATION t.

(* src/core/importer/normalizers/text_utils.py :: normalize_whitespace *)
Definition normalize_whitespace `{Unicode} (t : text) : text := tstrip (re_sub (Plus space) [32] t).

Section Canonical.
Context `{Unicode}.
Local Open Scope regex_scope.

(* src/core/importer/normalizers/text_utils.py :: canonicalize_text *)
Definition canonicalize_text (t : text) : text :=
  let resolved := translate _TYPOGRAPHIC_TRANSLATION (treplace (u "&nbsp;") (u " ") t) in
  let resolved := convert_arabic_digits resolved in
  let resolved := tlower (strip_accents resolved) in
  let resolved := List.filter (λ c, negb (is_control c)) resolved in
  normalize_whitespace resolved.

(** [^\s*(?P<label>\[a-z0-9 _-\]+?)\s*\[:=\-\]\s*] *)
Definition label_char (c : Z) : bool := in_range 97 122 c || in_range 48 57 c || is_one_of [32; 95; 45] c.
(* src/core/importer/normalizers/text_utils.py :: _LABEL_SEPARATOR_RE *)
Definition _LABEL_SEPARATOR_RE : regex :=
  Bol ⋅ spaces ⋅ Grp 1 (Cls label_char ⋅ Star false (Cls label_char)) ⋅ spaces ⋅ Cls (is_one_of [58; 61; 45]) ⋅ spaces.
(* src/core/importer/normalizers/text_utils.py :: strip_labels *)
Definition strip_labels (t : text) (labels : list text) : text :=
  let normalized := canonicalize_text t in
  match normalized with
  | [] => []
  | _ =>
      match re_match _LABEL_SEPARATOR_RE normalized with
      | None => normalized
      | Some q =>
          if bool_decide (default [] (group 1 q) ∈ map canonicalize_text labels) then tstrip (ahead q) else normalized
      end
  end.

(** ** Locations *)

Fixpoint strip_prefix (prefixes : list text) (t : text) : text :=
  match prefixes with
  | [] => t
  | p :: ps => match after_prefix p t with Some rest => rest | None => strip_prefix ps t end
  end.
(* src/core/importer/normalizers/location_text.py :: normalize_text *)
Definition normalize_text (t : text) : text :=
  let t := normalize_whitespace (tlower t) in
  let t := strip_prefix [u "el "; u "el-"; u "al "; u "al-"; u "les "] t in
  let t := strip_accents t in
  normalize_whitespace (replace1 95 [32] (replace1 45 [32] (replace1 39 [] t))).

Definition not_paren (c : Z) (d : Z) : bool := negb (d =? c).
Definition paren_re : regex :=
  Bol ⋅ Grp 1 (Plus (Cls (not_paren 40))) ⋅ spaces ⋅ chr 40 ⋅ Grp 2 (Plus (Cls (not_paren 41))) ⋅ chr 41.
Definition not_newline (c : Z) : bool := negb (c =? 10).
Definition postal_re : regex := Bol ⋅ Times 5 digit ⋅ Plus space ⋅ Grp 1 (Plus (Cls not_newline)) ⋅ Eol.
Definition arabic_run : regex := Plus (Cls (in_range 1536 1791)).
Definition latin_letter (c : Z) : bool :=
  in_range 97 122 c || in_range 65 90 c || is_one_of (u "àâäéèêëîïôùûüçÀÂÄÉÈÊËÎÏÔÙÛÜÇ") c.
Definition latin_run : regex := Plus (Cls latin_letter).
(** The candidates not seen before, by their lower case. *)
Fixpoint unique_candidates (seen : list text) (candidates : list text) : list text :=
  match candidates with
  | [] => []
  | t :: ts =>
      let key := tstrip (tlower t) in
      match key with
      | [] => unique_candidates seen ts
      | _ => if bool_decide (key ∈ seen) then unique_candidates seen ts
             else tstrip t :: unique_candidates (key :: seen) ts
      end
  end.
Definition groups_of (ns : list nat) (q : option pos) : list text :=
  match q with None => [] | Some q => map (λ n, tstrip (default [] (group n q))) ns end.
(* src/core/importer/normalizers/location_text.py :: extract_location_candidates *)
Definition extract_location_candidates (t : text) : list text :=
  match t with
  | [] => []
  | _ =>
      unique_candidates []
        ([tstrip t]
         ++ (if has 44 t then map tstrip (split_at 44 t) else [])
         ++ groups_of [1; 2]%nat (re_match paren_re t)
         ++ groups_of [1]%nat (re_match postal_re t)
         ++ re_findall arabic_run t
         ++ re_findall latin_run t)
  end.
End Canonical.

Example canonical_price : canonicalize_text (u "  Prix :  ١٥٠ 000 DA  ‘net’") = u "prix : 150 000 da 'net'".
Proof. vm_compute. reflexivity. Qed.
