(* ===== verification/ImportTextProps.v ===== *)
(** * Canonical texts

    What [canonicalize_text] returns, and that it returns such a text as it is. *)

From S2P Require Import Prelude PyText PyRegex ImportText.
From Stdlib Require Import Ascii String.
Local Open Scope Z_scope.

(** ** White space at the ends *)

Lemma drop_space_suffix t : ∃ a, t = a ++ drop_space t.
Proof.
  induction t as [|c t [a IH]]; [by exists []|]. cbn. destruct (is_space c); [|by exists []]. exists (c :: a). by rewrite IH at 1.
Qed.
Definition no_head_space (t : text) : Prop := match t with c :: _ => is_space c = false | [] => True end.
Lemma drop_space_head t : no_head_space (drop_space t).
Proof. induction t as [|c t IH]; [done|]. cbn. by destruct (is_space c) eqn:E. Qed.
Lemma drop_space_fixed t : no_head_space t → drop_space t = t.
Proof. destruct t as [|c t]; [done|]. cbn. by intros ->. Qed.
Lemma no_head_space_prefix a b : no_head_space (a ++ b) → no_head_space a.
Proof. by destruct a. Qed.
Lemma tstrip_infix t : ∃ a b, t = a ++ tstrip t ++ b.
Proof.
  unfold tstrip. destruct (drop_space_suffix t) as [a Ha]. destruct (drop_space_suffix (rev (drop_space t))) as [b Hb].
  exists a, (rev b). rewrite <- rev_app_distr, <- Hb, rev_involutive. done.
Qed.
Lemma tstrip_elem t c : c ∈ tstrip t → c ∈ t.
Proof. intros Hc. destruct (tstrip_infix t) as (a & b & ->). rewrite !elem_of_app. tauto. Qed.
Lemma tstrip_fixed t : no_head_space t → no_head_space (rev t) → tstrip t = t.
Proof. intros H1 H2. unfold tstrip. by rewrite (drop_space_fixed t), drop_space_fixed, rev_involutive. Qed.
Lemma tstrip_ends t : no_head_space (tstrip t) ∧ no_head_space (rev (tstrip t)).
Proof.
  unfold tstrip. rewrite rev_involutive. split; [|apply drop_space_head].
  destruct (drop_space_suffix (rev (drop_space t))) as [b Hb]. apply (no_head_space_prefix _ (rev b)).
  rewrite <- rev_app_distr, <- Hb, rev_involutive. apply drop_space_head.
Qed.
Lemma tstrip_idem t : tstrip (tstrip t) = tstrip t.
Proof. destruct (tstrip_ends t). by apply tstrip_fixed. Qed.

(** ** Single spaces *)

(** Every white space is a space, and no two are next to each other. *)
Definition single_spaced (t : text) : Prop :=
  (∀ c, c ∈ t → is_space c = true → c = 32) ∧ ∀ a b, t ≠ a ++ 32 :: 32 :: b.
Lemma single_spaced_infix a t b : single_spaced (a ++ t ++ b) → single_spaced t.
Proof.
  intros [H1 H2]. split.
  - intros c Hc. apply H1. rewrite !elem_of_app. tauto.
  - intros x y ->. apply (H2 (a ++ x) (y ++ b)). by rewrite <- !app_assoc.
Qed.
Lemma single_spaced_tail c t : single_spaced (c :: t) → single_spaced t.
Proof. intros Ht. apply (single_spaced_infix [c] t []). by rewrite app_nil_r. Qed.
Lemma squeeze_spaced b t :
  single_spaced (squeeze is_space [32] b t) ∧ (b = true → no_head_space (squeeze is_space [32] b t)).
Proof.
  revert b. induction t as [|c t IH]; intros b.
  { split; [|done]. split; [by intros c Hc%elem_of_nil|]. intros a y Hy. by destruct a. }
  destruct (IH true) as [[T1 T2] T3], (IH false) as [[F1 F2] _]. cbn [squeeze]. destruct (is_space c) eqn:E.
  - destruct b; cbn [app].
    + by split; [split|].
    + split; [|done]. split.
      * intros d [->|Hd]%elem_of_cons; [done|by apply T1].
      * intros [|x a] y Hy; [injection Hy as Hy|injection Hy as _ Hy].
        -- specialize (T3 eq_refl). rewrite Hy in T3. discriminate T3.
        -- by apply T2 in Hy.
  - split; [|by cbn]. split.
    + intros d [->|Hd]%elem_of_cons; [congruence|by apply F1].
    + intros [|x a] y Hy; injection Hy as Hx Hy; [by subst|by apply F2 in Hy].
Qed.
Lemma squeeze_fixed t : single_spaced t → squeeze is_space [32] false t = t.
Proof.
  induction t as [|c t IH]; [done|]. intros Ht. pose proof (IH (single_spaced_tail _ _ Ht)) as IH'. cbn [squeeze].
  destruct (is_space c) eqn:E; [|by rewrite IH']. destruct Ht as [H1 H2].
  assert (c = 32) as -> by (by apply H1; [apply list_elem_of_here|]). cbn [app]. f_equal. destruct t as [|d t]; [done|].
  assert (is_space d = false) as Hd.
  { destruct (is_space d) eqn:Ed; [|done]. apply H1 in Ed as ->; [|by apply list_elem_of_further, list_elem_of_here]. by destruct (H2 [] t). }
  revert IH'. cbn [squeeze]. by rewrite Hd.
Qed.
Lemma squeeze_elem f new b (t : text) c : c ∈ squeeze f new b t → c ∈ t ∧ f c = false ∨ c ∈ new.
Proof.
  revert b. induction t as [|d t IH]; intros b; cbn; [by intros ?%elem_of_nil|]. destruct (f d) eqn:E.
  - intros [Hc|Hc]%elem_of_app; [destruct b; [by apply elem_of_nil in Hc|by right]|]. apply IH in Hc as [[Hc Hf]|Hc]; [left|by right].
    split; [by apply list_elem_of_further|done].
  - intros [->|Hc]%elem_of_cons; [left; by split; [apply list_elem_of_here|]|]. apply IH in Hc as [[Hc Hf]|Hc]; [left|by right].
    split; [by apply list_elem_of_further|done].
Qed.

Section Whitespace.
Context `{Unicode}.
Lemma normalize_whitespace_squeeze t : normalize_whitespace t = tstrip (squeeze is_space [32] false t).
Proof. unfold normalize_whitespace, space. by rewrite re_sub_squeeze. Qed.
Lemma normalize_whitespace_spaced t : single_spaced (normalize_whitespace t) ∧ tstrip (normalize_whitespace t) = normalize_whitespace t.
Proof.
  rewrite normalize_whitespace_squeeze. split; [|apply tstrip_idem]. destruct (tstrip_infix (squeeze is_space [32] false t)) as (a & b & E).
  apply (single_spaced_infix a _ b). rewrite <- E. apply squeeze_spaced.
Qed.
Lemma normalize_whitespace_fixed t : single_spaced t → tstrip t = t → normalize_whitespace t = t.
Proof. intros H1 H2. by rewrite normalize_whitespace_squeeze, squeeze_fixed. Qed.
Lemma normalize_whitespace_elem t c : c ∈ normalize_whitespace t → c = 32 ∨ c ∈ t ∧ is_space c = false.
Proof.
  rewrite normalize_whitespace_squeeze. intros [[Hc Hs]|Hc]%tstrip_elem%squeeze_elem; [by right|left]. by apply list_elem_of_singleton in Hc.
Qed.
End Whitespace.

(** ** Translations *)

Definition keys (table : list (Z * text)) : text := map fst table.
Definition kept (table : list (Z * text)) (c : Z) : Prop := c ∉ keys table.
Lemma image_kept table c : kept table c → image table c = [c].
Proof.
  unfold kept. induction table as [|[d t] table IH]; [done|]. cbn. rewrite not_elem_of_cons. intros [Hd Hc].
  rewrite (proj2 (Z.eqb_neq _ _)) by done. by apply IH.
Qed.
Lemma image_elem table c d : d ∈ image table c → kept table c ∧ d = c ∨ d ∈ List.concat (map snd table).
Proof.
  unfold kept. induction table as [|[k t] table IH]; cbn.
  - intros ->%list_elem_of_singleton. left. split; [apply not_elem_of_nil|done].
  - destruct (Z.eqb_spec c k); [intros; right; by apply elem_of_app; left|]. intros [[Hc ->]|Hd]%IH; [left|right; by apply elem_of_app; right].
    split; [by apply not_elem_of_cons|done].
Qed.
Lemma translate_elem table t d : d ∈ translate table t → d ∈ t ∧ kept table d ∨ d ∈ List.concat (map snd table).
Proof.
  unfold translate. rewrite list_elem_of_In, in_flat_map. setoid_rewrite <- list_elem_of_In. intros (c & Hc & [[Hk ->]|Hd]%image_elem); auto.
Qed.
Lemma translate_fixed table t : (∀ c, c ∈ t → kept table c) → translate table t = t.
Proof.
  induction t as [|c t IH]; [done|]. intros Ht. cbn. rewrite image_kept by (apply Ht, list_elem_of_here). cbn. f_equal.
  apply IH. intros d Hd. apply Ht. by apply list_elem_of_further.
Qed.

(** What the three translations of [canonicalize_text] leave. *)
Definition plain (c : Z) : Prop := kept _TYPOGRAPHIC_TRANSLATION c ∧ kept ARABIC_DIGITS c ∧ kept _ACCENT_TRANSLATION c.
#[global] Instance plain_dec c : Decision (plain c).
Proof. unfold plain, kept. apply _. Defined.

Lemma targets_plain d :
  d ∈ List.concat (map snd _TYPOGRAPHIC_TRANSLATION) ++ List.concat (map snd ARABIC_DIGITS) ++ List.concat (map snd _ACCENT_TRANSLATION) → plain d.
Proof. revert d. apply Forall_forall. apply (bool_decide_unpack _). vm_compute. exact I. Qed.
Lemma translations_plain t d :
  d ∈ strip_accents (convert_arabic_digits (translate _TYPOGRAPHIC_TRANSLATION t)) → plain d.
Proof.
  intros [[[[[[_ H1]|H1]%translate_elem H2]|H2]%translate_elem H3]|H3]%translate_elem; [by split| | |];
    apply targets_plain; rewrite !elem_of_app; auto.
Qed.

(** ** Lower case *)

Section Canonical.
Context `{Unicode}.

Lemma plain_latin c : in_range 0 255 c = true → (in_range 97 122 c || in_range 224 254 c) = true → plain (c - 32) → plain c.
Proof.
  intros Hl Hr Hp. destruct (decide (plain c)) as [|Hn]; [done|]. exfalso.
  assert (c ∈ filter (λ c, (in_range 97 122 c || in_range 224 254 c) = true ∧ ¬ plain c ∧ plain (c - 32)) (seqZ 0 256)) as Hin.
  { apply list_elem_of_filter. split; [done|]. apply elem_of_seqZ. apply in_range_true in Hl. lia. }
  revert Hin. vm_compute. by intros ?%elem_of_nil.
Qed.
Lemma lower_plain t : (∀ c, c ∈ t → plain c) → ∀ c, c ∈ tlower t → plain c.
Proof.
  intros Ht c [->|(d & Hd & Hc)]%lower_from; [apply (bool_decide_unpack _); vm_compute; exact I|]. apply Ht in Hd.
  destruct (in_range 0 255 c) eqn:El.
  - destruct (lower_to_latin _ _ Hc El) as [->|[[-> Hr]|[[-> ->]|[[-> ->]|[-> ->]]]]]; [done|by apply plain_latin|..];
      apply (bool_decide_unpack _); vm_compute; exact I.
  - destruct (decide (plain c)) as [|Hn]; [done|]. exfalso. apply Hn.
    assert (d = c) as <-; [|done]. apply (lower_caseless d c Hc).
    assert (c ∈ filter (λ c, in_range 0 255 c = false) (keys _TYPOGRAPHIC_TRANSLATION ++ keys ARABIC_DIGITS ++ keys _ACCENT_TRANSLATION)) as Hin.
    { apply list_elem_of_filter. split; [done|]. rewrite !elem_of_app. unfold plain, kept in Hn.
      destruct (decide (c ∈ keys _TYPOGRAPHIC_TRANSLATION)), (decide (c ∈ keys ARABIC_DIGITS)), (decide (c ∈ keys _ACCENT_TRANSLATION)); tauto. }
    revert c Hin Hn El Hc Hd. clear. intros c Hin _ _ _ _. revert c Hin. apply Forall_forall. apply (bool_decide_unpack _). vm_compute. exact I.
Qed.

(** A canonical text: no capitals, accents, typographic characters, Arabic digits or control characters; single
    spaces, and none at the ends. *)
Record canonical (t : text) : Prop := {
  cn_plain c : c ∈ t → plain c;
  cn_lower c : c ∈ t → tlower [c] = [c];
  cn_control c : c ∈ t → is_control c = false;
  cn_spaces : single_spaced t;
  cn_ends : tstrip t = t
}.
Lemma canonicalize_canonical t : canonical (canonicalize_text t).
Proof.
  unfold canonicalize_text. cbv zeta. set (r := tlower _).
  assert (∀ c, c ∈ r → plain c) as Hr by (apply lower_plain, translations_plain).
  assert (∀ c, c ∈ normalize_whitespace (List.filter (λ c, negb (is_control c)) r) → c = 32 ∨ c ∈ r ∧ is_control c = false) as He.
  { intros c [->|[Hc _]]%normalize_whitespace_elem; [by left|right]. apply elem_of_filter_b in Hc as [Hn Hc]. by apply negb_true_iff in Hn. }
  split; [intros c [->|[Hc Hn]]%He..| |].
  - apply (bool_decide_unpack _). vm_compute. exact I.
  - by apply Hr.
  - by rewrite lower_ascii.
  - by eapply lower_lowered.
  - done.
  - done.
  - apply normalize_whitespace_spaced.
  - apply normalize_whitespace_spaced.
Qed.
Lemma treplace_absent old new t : contains old t = false → treplace old new t = t.
Proof.
  unfold treplace. generalize (List.length t) as n. intros n. revert t. induction n as [|n IH]; intros t Ht; [done|].
  destruct t as [|c t]; [done|]. cbn in Ht |- *. unfold startswith in Ht. destruct (after_prefix old (c :: t)) eqn:E.
  - by rewrite bool_decide_true in Ht by (by eexists).
  - f_equal. apply IH. by apply orb_false_iff in Ht as [_ ?].
Qed.
Lemma filter_keeps {A} (f : A → bool) l : (∀ x, x ∈ l → f x = true) → List.filter f l = l.
Proof.
  induction l as [|x l IH]; [done|]. intros Hl. cbn. rewrite Hl by apply list_elem_of_here. f_equal. apply IH.
  intros y Hy. apply Hl. by apply list_elem_of_further.
Qed.
Lemma canonicalize_fixed t : canonical t → contains (u "&nbsp;") t = false → canonicalize_text t = t.
Proof.
  intros [Hp Hl Hc Hs He] Hn. unfold canonicalize_text. cbv zeta. rewrite treplace_absent by done.
  rewrite (translate_fixed _TYPOGRAPHIC_TRANSLATION) by (intros c Hin; apply (Hp c Hin)).
  unfold convert_arabic_digits. rewrite (translate_fixed ARABIC_DIGITS) by (intros c Hin; apply (Hp c Hin)).
  unfold strip_accents. rewrite (translate_fixed _ACCENT_TRANSLATION) by (intros c Hin; apply (Hp c Hin)).
  rewrite lower_stable by done. rewrite filter_keeps by (intros c Hin; by rewrite (Hc c Hin)). by apply normalize_whitespace_fixed.
Qed.
End Canonical.

(** The canonical form of a cell has no capitals, no accents, no typographic or control characters and
    no Arabic digits, and single spaces between its words only.  A cell already in that form is left as it is;
    so the form is reached in one pass, unless the pass spells the entity of a space. *)
Theorem canonical_text_is_stable `{Unicode} t :
  canonical (canonicalize_text t)
  ∧ (canonical t → contains (u "&nbsp;") t = false → canonicalize_text t = t)
  ∧ (contains (u "&nbsp;") (canonicalize_text t) = false → canonicalize_text (canonicalize_text t) = canonicalize_text t).
Proof.
  split_and!; [apply canonicalize_canonical|apply canonicalize_fixed|]. intros Hn. apply canonicalize_fixed; [apply canonicalize_canonical|done].
Qed.
Lemma canonical_text_is_stable_witness :
  canonicalize_text (canonicalize_text (u "  Très   GRAND  «F3»")) = canonicalize_text (u "  Très   GRAND  «F3»")
  ∧ canonicalize_text (u "12&NBSP;500") ≠ canonicalize_text (canonicalize_text (u "12&NBSP;500")).
Proof. split; [apply canonical_text_is_stable; vm_compute; reflexivity|vm_compute; discriminate]. Defined.
