(* ===== verification/ImportNumbers.v ===== *)
(** * Numbers and booleans of imported cells

    src/core/importer/type_parser.py, without its unused date and decimal parsers: texts to [int], [float] and
    [bool].  A raised exception is an [Err]; [None] is the value [None]. *)

From S2P Require Import Prelude PyValue PyFloat PyText PyRegex ImportText.
From Stdlib Require Import Ascii String SpecFloat.
Local Open Scope Z_scope.
Local Open Scope regex_scope.

Abbreviation float := spec_float.
(** A literal like 0.95: [float_lit 95 2]. *)
Definition float_lit (c k : Z) : float := of_decimal false c (- k).
Definition is_negative (x : float) : bool := flt x (S754_zero false).
(** [int(x)]; an infinity raises OverflowError, a NaN ValueError. *)
Definition int_of_float (x : float) : res Z :=
  match x with
  | S754_zero _ => Ok 0
  | S754_finite s m e => Ok (float_trunc s m e)
  | S754_infinity _ => Err (OverflowError "cannot convert float infinity to integer")
  | S754_nan => Err (ValueError "cannot convert float NaN to integer")
  end.
(** [x.is_integer()] *)
Definition is_integer (x : float) : bool :=
  match x with
  | S754_zero _ => true
  | S754_finite s m e => if 0 <=? e then true else Z.pos m mod 2 ^ (- e) =? 0
  | _ => false
  end.

Section Numbers.
Context `{Unicode}.

(* src/core/importer/type_parser.py :: _BOOL_TRUE_RE *)
Definition _BOOL_TRUE_RE : regex := Bol ⋅ Grp 1 (lits_i "yes true 1 on oui y t") ⋅ Eol.
(* src/core/importer/type_parser.py :: _BOOL_FALSE_RE *)
Definition _BOOL_FALSE_RE : regex := Bol ⋅ Grp 1 (lits_i "no false 0 off non n f") ⋅ Eol.
(** [\[^\d-\]] and [\[^\d\.-\]] *)
(* src/core/importer/type_parser.py :: _INT_CLEAN_RE *)
Definition _INT_CLEAN_RE : regex := Cls (λ c, negb (is_decimal c || (c =? 45))).
(* src/core/importer/type_parser.py :: _FLOAT_CLEAN_RE *)
Definition _FLOAT_CLEAN_RE : regex := Cls (λ c, negb (is_decimal c || (c =? 46) || (c =? 45))).

Definition ends_with (c : Z) (t : text) : option text :=
  match rev t with d :: back => if d =? c then Some (rev back) else None | [] => None end.
(* src/core/importer/type_parser.py :: TypeParser._get_multiplier *)
Definition _get_multiplier (value : text) : text * float :=
  let normalized_value := convert_arabic_digits (tstrip value) in
  let s_val := tlower normalized_value in
  match ends_with 107 s_val, ends_with 109 s_val, ends_with 98 s_val with
  | Some s, _, _ => (s, of_Z 1000)
  | None, Some s, _ => (s, of_Z 1000000)
  | None, None, Some s => (s, of_Z 1000000000)
  | None, None, None => (normalized_value, of_Z 1)
  end.

Definition not_comma_number (c : Z) : bool := negb (is_decimal c || (c =? 44) || (c =? 45)).
Definition thousands_re : regex :=
  Opt (chr 45) ⋅ Between 1 3 digit ⋅ Plus (chr 44 ⋅ Times 3 digit).
Definition delimiters (s_val : text) : text :=
  if has 44 s_val && has 46 s_val then
    if rfind 46 s_val <? rfind 44 s_val then replace1 44 [46] (replace1 46 [] s_val) else replace1 44 [] s_val
  else if has 44 s_val then
    let comma_candidate := re_sub (Cls not_comma_number) [] s_val in
    if bool_decide (is_Some (re_fullmatch thousands_re comma_candidate)) then replace1 44 [] s_val
    else replace1 44 [46] s_val
  else s_val.
(* src/core/importer/type_parser.py :: TypeParser.calculate_float_value *)
Definition calculate_float_value (value : text) : option float :=
  let s_val := delimiters (convert_arabic_digits (tstrip value)) in
  match re_sub _FLOAT_CLEAN_RE [] s_val with
  | [] => None
  | clean => float_of_text clean
  end.

Definition all_digits (t : text) : bool := match t with [] => false | _ => forallb digit_char t end.
(* src/core/importer/type_parser.py :: TypeParser.parse_int *)
Definition parse_int (value : text) (default_ : option Z) : res (option Z) :=
  match value with
  | [] => Ok default_
  | _ =>
      let '(s_val, multiplier) := _get_multiplier (tstrip value) in
      if SFeqb multiplier (of_Z 1) && all_digits s_val then
        match int_of_text s_val with
        | Some z => Ok (Some z)
        | None => Err (ValueError "invalid literal for int() with base 10")
        end
      else
        match re_sub _INT_CLEAN_RE [] s_val with
        | [] => Ok default_
        | _ =>
            match calculate_float_value s_val with
            | None => Ok default_
            | Some f_val =>
                match int_of_float (fmul f_val multiplier) with
                | Ok z => Ok (Some z)
                | Err (ValueError _) | Err (TypeError _) => Ok default_
                | Err e => Err e
                end
            end
        end
  end.
(* src/core/importer/type_parser.py :: TypeParser.parse_float *)
Definition parse_float (value : text) (default_ : option float) : option float :=
  match value with
  | [] => default_
  | _ =>
      let '(s_val, multiplier) := _get_multiplier (tstrip value) in
      match calculate_float_value s_val with
      | None => default_
      | Some f_val => Some (fmul f_val multiplier)
      end
  end.
(* src/core/importer/type_parser.py :: TypeParser.parse_bool *)
Definition parse_bool (value : text) (default_ : option bool) : option bool :=
  match value with
  | [] => default_
  | _ =>
      let s_val := tlower (tstrip value) in
      if matches_some _BOOL_TRUE_RE s_val then Some true
      else if matches_some _BOOL_FALSE_RE s_val then Some false
      else default_
  end.
End Numbers.

Example european_and_american :
  map (λ s, float_repr <$> calculate_float_value (u s)) ["1.200,50"; "1,200.50"; "1,200"; "12,5"; "1200 m²"; "-"; "1-2"; "١٢٫٥"]
  = [Some "1200.5"; Some "1200.5"; Some "1200.0"; Some "12.5"; Some "1200.0"; None; None; Some "125.0"].
Proof. vm_compute. reflexivity. Qed.
Example integers :
  map (λ s, parse_int (u s) (Some 7)) ["12 500"; "1.5M"; "abc"; "²"; "-9007199254740993"]
  = [Ok (Some 12500); Ok (Some 1500000); Ok (Some 7); Err (ValueError "invalid literal for int() with base 10"); Ok (Some (-9007199254740992))].
Proof. vm_compute. reflexivity. Qed.
