(* ===== verification/ImportNormalizers.v ===== *)
(** * Normalizers of phones, booleans, actions, property types and locations

    src/core/importer/normalizers: one function per field type, from a cell to a value with a confidence, a review
    flag, further extracted values and a remark. *)

From S2P Require Import Prelude PyValue PyFloat PyText PyRegex ImportText ImportNumbers.
From Stdlib Require Import Ascii String SpecFloat.
Local Open Scope Z_scope.
Local Open Scope regex_scope.

(** ** Values and results (base.py) *)

#[local] Set Warnings "-register-all".
Inductive obj : Type :=
  | ONone
  | OBool (b : bool)
  | OInt (z : Z)
  | OFloat (x : float)
  | OText (t : text)
  | OList (l : list obj)
  | ODict (d : list (string * obj)).
Definition otext (s : string) : obj := OText (u s).
Definition field_of (k : string) (d : list (string * obj)) : option obj := snd <$> List.find (λ e : string * obj, bool_decide (e.1 = k)) d.
(** [d\[k\] = v] *)
Fixpoint put (k : string) (v : obj) (d : list (string * obj)) : list (string * obj) :=
  match d with
  | [] => [(k, v)]
  | e :: d' => if bool_decide (e.1 = k) then (k, v) :: d' else e :: put k v d'
  end.

(** A number of the program: an [int] or a [float]. *)
Inductive num := NInt (z : Z) | NFloat (x : float).
Definition obj_of_num (n : option num) : obj :=
  match n with None => ONone | Some (NInt z) => OInt z | Some (NFloat x) => OFloat x end.
(** [isinstance(v, (int, float))], of which [bool] is a part. *)
Definition as_num (v : obj) : option num :=
  match v with
  | OBool b => Some (NInt (if b then 1 else 0))
  | OInt z => Some (NInt z)
  | OFloat x => Some (NFloat x)
  | _ => None
  end.
(** An integer and a float are equal when they are the same number. *)
Definition int_eq_float (z : Z) (x : float) : bool :=
  match int_of_float x with Ok y => is_integer x && (y =? z) | Err _ => false end.
Definition num_eqb (a b : num) : bool :=
  match a, b with
  | NInt x, NInt y => x =? y
  | NFloat x, NFloat y => SFeqb x y
  | NInt z, NFloat x | NFloat x, NInt z => int_eq_float z x
  end.
(** [a == b] *)
Fixpoint obj_eqb (a b : obj) {struct a} : bool :=
  match a, b with
  | ONone, ONone => true
  | OText s, OText t => bool_decide (s = t)
  | OList l, OList m =>
      (fix eq_lists l m := match l, m with
                           | [], [] => true
                           | x :: l', y :: m' => obj_eqb x y && eq_lists l' m'
                           | _, _ => false
                           end) l m
  | ODict d, ODict e =>
      Nat.eqb (List.length d) (List.length e)
      && forallb (λ kv : string * obj, match field_of kv.1 e with Some w => obj_eqb kv.2 w | None => false end) d
  | _, _ => match as_num a, as_num b with Some x, Some y => num_eqb x y | _, _ => false end
  end.
(* src/core/importer/normalizers/base.py :: NormalizeResult *)
Record normalize_result := mkResult {
  value : obj;
  confidence : float;
  original : text;
  needs_review : bool;
  extracted_extras : list (string * obj);
  to_remarks : option text
}.
(* src/core/importer/normalizers/base.py :: RowContext *)
Record row_context := mkContext {
  wilaya_hint : option text;
  action_hint : option text;
  type_hint : option text;
  row_data : list (string * text);
  metadata : list (string * obj)
}.
(** [float(n)] of a number *)
Definition float_of_num (n : num) : res float := match n with NInt z => float_of_int z | NFloat x => Ok x end.
Definition certain : float := of_Z 1.
Definition doubtful : float := of_Z 0.

Section Normalizers.
Context `{Unicode}.
(** [not value or not value.strip()] *)
Definition blank (t : text) : bool := match tstrip t with [] => true | _ => false end.
(** [value\[i:j\]] *)
Definition slice (i j : nat) (t : text) : text := take (j - i) (drop i t).

(** ** Phones *)

(* src/core/importer/normalizers/phone.py :: MOBILE_PREFIXES *)
Definition MOBILE_PREFIXES : list text := words_of "05 06 07".
(* src/core/importer/normalizers/phone.py :: LANDLINE_PREFIXES *)
Definition LANDLINE_PREFIXES : list text := words_of "02 03 04".
(* src/core/importer/normalizers/phone.py :: SERVICE_PREFIXES *)
Definition SERVICE_PREFIXES : list text := words_of "08".
(* src/core/importer/normalizers/phone.py :: SPECIAL_PREFIXES *)
Definition SPECIAL_PREFIXES : list text := words_of "09".
Definition is_in_texts (t : text) (ts : list text) : bool := bool_decide (t ∈ ts).

Definition phone_labels : list text := words_of "mobile phone portable tel telephone".
Definition phone_separator (c : Z) : bool := is_space c || is_one_of [45; 46; 40; 41] c.
Definition country_prefix (phone : text) : text :=
  match after_prefix (u "+213") phone, after_prefix (u "00213") phone, after_prefix (u "213") phone with
  | Some rest, _, _ => 48 :: rest
  | None, Some rest, _ => 48 :: rest
  | None, None, Some rest => if 12 <=? Z.of_nat (List.length phone) then 48 :: rest else phone
  | None, None, None => phone
  end.
(** The digits of a phone cell. *)
Definition phone_digits (t : text) : text :=
  let phone := strip_labels (canonicalize_text t) phone_labels in
  let phone := replace1 10133 [43] (replace1 65291 [43] phone) in
  let phone := re_sub (Plus (Cls phone_separator)) [] phone in
  let phone := country_prefix phone in
  let phone := re_sub (Cls (λ c, negb (is_decimal c))) [] phone in
  match phone with
  | c :: _ => if (Z.of_nat (List.length phone) =? 9) && is_one_of (u "567") c then 48 :: phone else phone
  | [] => phone
  end.
(* src/core/importer/normalizers/phone.py :: PhoneNormalizer.normalize *)
Definition normalize_phone (t : text) : normalize_result :=
  if blank t then mkResult ONone certain t false [] None
  else
    let phone := phone_digits t in
    if negb (Z.of_nat (List.length phone) =? 10) then
      mkResult ONone (float_lit 3 1) t true [] (Some (u "Invalid phone: " ++ t))
    else
      let prefix := slice 0 2 phone in
      let is_mobile := is_in_texts prefix MOBILE_PREFIXES in
      let is_landline := is_in_texts prefix LANDLINE_PREFIXES in
      let is_service := is_in_texts prefix SERVICE_PREFIXES in
      let is_special := is_in_texts prefix SPECIAL_PREFIXES in
      if negb is_mobile && negb is_landline && negb is_service && negb is_special then
        mkResult (OText phone) (float_lit 5 1) t true [] (Some (u "Unknown prefix: " ++ prefix))
      else
        let '(phone_kind, conf) :=
          if is_landline then ("landline", certain) else if is_service then ("service", float_lit 95 2)
          else if is_special then ("special", float_lit 95 2) else ("mobile", certain) in
        mkResult (OText phone) conf t false [("phone_kind", otext phone_kind)] None.
(* src/core/importer/normalizers/phone.py :: PhoneNormalizer.format_display *)
Definition phone_display (phone : text) : text :=
  if Z.of_nat (List.length phone) =? 10 then
    join_texts [32] [slice 0 2 phone; slice 2 4 phone; slice 4 6 phone; slice 6 8 phone; slice 8 10 phone]
  else phone.
(* src/core/importer/normalizers/phone.py :: PhoneNormalizer.format_international *)
Definition phone_international (phone : text) : text :=
  if Z.of_nat (List.length phone) =? 10 then
    u "+213 " ++ join_texts [32] [slice 1 4 phone; slice 4 7 phone; slice 7 10 phone]
  else phone.

(** ** Booleans *)

(* src/core/importer/normalizers/boolean.py :: TRUE_VALUES *)
Definition TRUE_VALUES : list text := words_of "oui o yes y vrai true 1 نعم اه ايه ✓ ✔ ☑".
(* src/core/importer/normalizers/boolean.py :: FALSE_VALUES *)
Definition FALSE_VALUES : list text := words_of "non n no faux false 0 لا لأ aucun sans".
(* src/core/importer/normalizers/boolean.py :: NULL_VALUES *)
Definition NULL_VALUES : list text :=
  map u ["-"; "—"; "na"; "n/a"; "non applicable"; "non renseigne"; "non renseigné"; "vide"; "empty"; "null"; "none"; "any";
         "indifferent"; "peu importe"].
(* src/core/importer/normalizers/boolean.py :: _SEMI_VALUES *)
Definition _SEMI_VALUES : list text := map u ["semi"; "semi meuble"; "semi meublé"; "semi-furnished"].
Definition obj_of_bool (b : option bool) : obj := match b with None => ONone | Some b => OBool b end.
(* src/core/importer/normalizers/boolean.py :: BooleanNormalizer.normalize *)
Definition normalize_boolean (default_value : option bool) (t : text) : normalize_result :=
  if blank t then
    match default_value with
    | None => mkResult ONone (float_lit 5 1) t true [] None
    | Some b => mkResult (OBool b) certain t false [] None
    end
  else
    let text := canonicalize_text t in
    if is_in_texts text NULL_VALUES then mkResult ONone certain t false [] None
    else if is_in_texts text _SEMI_VALUES then
      mkResult ONone (float_lit 4 1) t true [] (Some (u "Semi-furnished value needs review: " ++ t))
    else if bool_decide (text = u "x") then
      mkResult ONone (float_lit 7 1) t true [] (Some (u "Ambiguous 'x' - could mean checked or unknown"))
    else if is_in_texts text TRUE_VALUES then mkResult (OBool true) certain t false [] None
    else if is_in_texts text FALSE_VALUES then mkResult (OBool false) certain t false [] None
    else
      match float_of_text text with
      | Some num => mkResult (OBool (flt (S754_zero false) num)) (float_lit 8 1) t false [] None
      | None => mkResult (obj_of_bool default_value) doubtful t true [] (Some (u "Unknown boolean value: " ++ t))
      end.

(** ** Actions *)

Definition mappings (l : list (string * string)) : list (text * string) := map (λ e : string * string, (u e.1, e.2)) l.
Definition each_maps_to (target : string) (keys : list string) : list (string * string) := map (λ k, (k, target)) keys.
(** [sorted(keys, key=len, reverse=True)], which keeps the order of keys of one length. *)
Fixpoint put_by_length (e : text * string) (l : list (text * string)) : list (text * string) :=
  match l with
  | [] => [e]
  | d :: l' => if Nat.leb (List.length d.1) (List.length e.1) then e :: d :: l' else d :: put_by_length e l'
  end.
Definition by_length (l : list (text * string)) : list (text * string) := foldr put_by_length [] l.
Definition mapped (t : text) (l : list (text * string)) : option string :=
  snd <$> List.find (λ e : text * string, bool_decide (e.1 = t)) l.
(** The first key, the longest first, that the text contains. *)
Definition longest_contained (t : text) (l : list (text * string)) : option string :=
  snd <$> List.find (λ e : text * string, contains e.1 t) (by_length l).

(* src/core/importer/normalizers/action.py :: ACTION_MAPPINGS *)
Definition ACTION_MAPPINGS : list (text * string) := mappings
  (each_maps_to "buy" ["buy"; "achat"; "acheter"; "achete"; "achter"; "achetee"; "acquisition"; "aquisition"; "شراء"; "للشراء"]
   ++ each_maps_to "sell" ["sell"; "vente"; "vendre"; "a vendre"; "avendre"; "pour vente"; "en vente"; "للبيع"; "بيع"]
   ++ each_maps_to "rent" ["rent"; "location"; "loction"; "loocation"; "locaton"; "louer"; "a louer"; "alouer"; "pour location";
                           "en location"; "للكراء"; "كراء"; "ايجار"; "للإيجار"; "الايجار"]).
(* src/core/importer/normalizers/action.py :: VALID_ACTIONS *)
Definition VALID_ACTIONS (entity_type : string) : list string :=
  if bool_decide (entity_type = "client") then ["buy"; "rent"]
  else if bool_decide (entity_type = "listing") then ["sell"; "rent"] else [].
(** How a set is written, whose order depends on the hash seed of the process. *)
Context (show_set : list string → text).
(* src/core/importer/normalizers/action.py :: ActionNormalizer._validate_action *)
Definition _validate_action (entity_type : option string) (action : string) (t : text) (conf : float) : normalize_result :=
  match entity_type with
  | Some entity =>
      if negb (str_empty entity) && negb (bool_decide (action ∈ VALID_ACTIONS entity)) then
        mkResult (otext action) (float_lit 5 1) t true
          [("entity_mismatch", OBool true);
           ("expected_entity", otext (if bool_decide (action = "sell") then "listing" else "client"))]
          (Some (u "Action '" ++ u action ++ u "' is not valid for " ++ u entity ++ u ". Expected: " ++ show_set (VALID_ACTIONS entity)))
      else mkResult (otext action) conf t false [] None
  | None => mkResult (otext action) conf t false [] None
  end.
(* src/core/importer/normalizers/action.py :: ActionNormalizer.normalize *)
Definition normalize_action (entity_type : option string) (t : text) : normalize_result :=
  if blank t then mkResult ONone certain t true [] (Some (u "Action not specified"))
  else
    let text := canonicalize_text t in
    match mapped text ACTION_MAPPINGS with
    | Some action => _validate_action entity_type action t certain
    | None =>
        match longest_contained text ACTION_MAPPINGS with
        | Some action => _validate_action entity_type action t (float_lit 9 1)
        | None => mkResult ONone doubtful t true [] (Some (u "Unknown action: " ++ t))
        end
    end.

(** ** Property types *)

(* src/core/importer/normalizers/property_type.py :: TYPE_MAPPINGS *)
Definition TYPE_MAPPINGS : list (text * string) := mappings
  (each_maps_to "apartment" ["f1"; "f2"; "f3"; "f4"; "f5"; "f6"; "f7"; "appartement"; "apartement"; "appartment"; "appatement";
                             "appartemnt"; "appart"; "apartment"; "apt"; "app"; "شقة"; "شقه"]
   ++ each_maps_to "studio" ["studio"; "stuido"; "studoi"] ++ [("duplex", "duplex"); ("triplex", "triplex")]
   ++ each_maps_to "villa" ["villa"; "فيلا"; "فيللا"]
   ++ each_maps_to "house" ["maison"; "maisson"; "mazon"; "house"; "منزل"]
   ++ each_maps_to "villa_level" ["niveau de villa"; "niveau"; "etage de villa"]
   ++ each_maps_to "commercial" ["local"; "local commercial"; "locale"; "locaux"]
   ++ each_maps_to "office" ["bureau"; "burreau"; "bureaux"; "office"; "مكتب"]
   ++ each_maps_to "shop" ["magasin"; "magasain"; "boutique"; "shop"; "محل"]
   ++ each_maps_to "warehouse" ["depot"; "dépôt"; "entrepot"; "entrepôt"; "hangar"; "hanger"]
   ++ each_maps_to "land" ["terrain"; "terran"; "terrian"; "land"; "lot"; "parcelle"; "أرض"]
   ++ each_maps_to "parking" ["parking"; "parkin"; "parkng"] ++ each_maps_to "garage" ["garage"; "garag"]
   ++ each_maps_to "basement" ["cave"; "sous-sol"; "soussol"; "sous sol"]).
Definition f_or_F (c : Z) : bool := (c =? 70) || (c =? 102).
(** [(?:chambres?|ch|pieces?|pcs?)] and the like: the words of a text, those ending in [?] with an optional s. *)
Definition with_plural (t : string) : regex := lit_i (u t) ⋅ Opt (Cls (same_letter 115)).
(* src/core/importer/normalizers/property_type.py :: BEDROOM_PATTERNS *)
Definition BEDROOM_PATTERNS : list regex :=
  [Cls f_or_F ⋅ Grp 1 digits;
   Grp 1 digits ⋅ spaces ⋅ (with_plural "chambre" ∥ lit_i (u "ch") ∥ with_plural "piece" ∥ with_plural "pc");
   Grp 1 digits ⋅ spaces ⋅ (with_plural "bedroom" ∥ with_plural "bed" ∥ lit_i (u "br"))].
Fixpoint first_int (patterns : list regex) (t : text) : option Z :=
  match patterns with
  | [] => None
  | r :: rs =>
      match re_search r t with
      | Some q => match int_of_text (default [] (group 1 q)) with Some z => Some z | None => first_int rs t end
      | None => first_int rs t
      end
  end.
(* src/core/importer/normalizers/property_type.py :: PropertyTypeNormalizer._extract_beds *)
Definition _extract_beds (t : text) : option Z := first_int BEDROOM_PATTERNS t.
(* src/core/importer/normalizers/property_type.py :: PropertyTypeNormalizer._match_type *)
Definition _match_type (t : text) : option string := longest_contained t TYPE_MAPPINGS.
(* src/core/importer/normalizers/property_type.py :: PropertyTypeNormalizer.normalize *)
Definition normalize_property_type (t : text) : normalize_result :=
  if blank t then mkResult ONone certain t false [] None
  else
    let text := canonicalize_text t in
    let beds := _extract_beds text in
    let property_type :=
      match _match_type text with
      | Some p => Some p
      | None => if found (Cls f_or_F ⋅ digits) text then Some "apartment" else None
      end in
    match property_type with
    | Some p =>
        let beds := match beds with None => if bool_decide (p = "studio") then Some 1 else None | Some b => Some b end in
        mkResult (otext p) certain t false (match beds with Some b => [("beds", OInt b)] | None => [] end) None
    | None => mkResult ONone doubtful t true [] (Some (u "Unknown property type: " ++ t))
    end.

(** ** Locations *)

(** The master data of the importer (wilayas.json, communes.json, aliases.json) as the code reads them. *)
Record wilaya := mkWilaya { w_code : text; w_fr : text; w_ar : text; w_aliases : list text }.
Record commune := mkCommune { co_code : text; co_fr : text; co_aliases : list text }.
Record master_data := mkMaster {
  md_wilayas : list wilaya;
  md_communes : list (text * list commune);
  md_aliases : list (text * text)
}.
(** [d\[k\] = v] on a table of texts. *)
Fixpoint assign {A} (k : text) (v : A) (d : list (text * A)) : list (text * A) :=
  match d with
  | [] => [(k, v)]
  | e :: d' => if bool_decide (e.1 = k) then (k, v) :: d' else e :: assign k v d'
  end.
Definition entry {A} (k : text) (d : list (text * A)) : option A := snd <$> List.find (λ e : text * A, bool_decide (e.1 = k)) d.
Definition assign_all {A} (d : list (text * A)) (kvs : list (text * A)) : list (text * A) := foldl (λ d kv, assign kv.1 kv.2 d) d kvs.
Definition if_named {A} (k : text) (v : A) : list (text * A) := match k with [] => [] | _ => [(k, v)] end.
(* src/core/importer/normalizers/location_normalizer.py :: LocationNormalizer._build_lookup_tables [30-44] *)
Definition wilaya_by_name (md : master_data) : list (text * text) :=
  assign_all [] (flat_map (λ w,
    if_named (normalize_text (w_fr w)) (w_code w) ++ if_named (w_ar w) (w_code w)
    ++ map (λ a, (normalize_text a, w_code w)) (w_aliases w)) (md_wilayas md)).
(* src/core/importer/normalizers/location_normalizer.py :: LocationNormalizer._build_lookup_tables [46-59] *)
Definition commune_by_name (md : master_data) : list (text * (text * text)) :=
  assign_all [] (flat_map (λ p : text * list commune, flat_map (λ c,
    match co_code c with [] => [] | _ => if_named (normalize_text (co_fr c)) (co_code c, p.1) end
    ++ flat_map (λ a, if_named (normalize_text a) (co_code c, p.1)) (co_aliases c)) p.2) (md_communes md)).

(** rapidfuzz: the name closest to a text, of those with a score of at least 70, with its score in percent. *)
Context (extractOne : text → list text → option (text * float)) (md : master_data).
Definition min_confidence : float := float_lit 7 1.
(* src/core/importer/normalizers/location_normalizer.py :: LocationNormalizer._fuzzy_match *)
Definition _fuzzy_match (normalized : text) : option normalize_result :=
  let fuzzy_wilaya :=
    match map fst (wilaya_by_name md) with
    | [] => None
    | names =>
        (λ m : text * float,
          let conf := SFdiv 53 1024 m.2 (of_Z 100) in
          mkResult (OText (default [] (entry m.1 (wilaya_by_name md)))) conf normalized (flt conf min_confidence)
            [("match_type", otext "fuzzy_wilaya"); ("matched_name", OText m.1); ("is_wilaya", OBool true)] None)
        <$> extractOne normalized names
    end in
  match map fst (commune_by_name md) with
  | [] => fuzzy_wilaya
  | names =>
      match extractOne normalized names with
      | Some (match_name, score) =>
          let found_ := default ([], []) (entry match_name (commune_by_name md)) in
          let conf := SFdiv 53 1024 score (of_Z 100) in
          Some (mkResult (OText found_.1) conf normalized (flt conf min_confidence)
            [("match_type", otext "fuzzy_commune"); ("matched_name", OText match_name); ("wilaya_code", OText found_.2)] None)
      | None => fuzzy_wilaya
      end
  end.
(** What one candidate of a location is, if it is the name of anything. *)
Definition exact_location (t : text) (hint : option text) (candidate : text) : option normalize_result :=
  match normalize_text candidate with
  | [] => None
  | normalized =>
      match entry normalized (md_aliases md), entry normalized (commune_by_name md), entry normalized (wilaya_by_name md) with
      | Some commune_code, _, _ =>
          Some (mkResult (OText commune_code) certain t false [("match_type", otext "alias")] None)
      | None, Some (commune_code, wilaya_code), _ =>
          let mismatch := match hint with Some (_ :: _ as h) => negb (bool_decide (h = wilaya_code)) | _ => false end in
          if mismatch then
            Some (mkResult (OText commune_code) (float_lit 7 1) t true
              [("match_type", otext "commune_wilaya_mismatch"); ("expected_wilaya", OText (default [] hint));
               ("found_wilaya", OText wilaya_code)] None)
          else
            Some (mkResult (OText commune_code) certain t false
              [("match_type", otext "exact_commune"); ("wilaya_code", OText wilaya_code)] None)
      | None, None, Some wilaya_code =>
          Some (mkResult (OText wilaya_code) (float_lit 9 1) t false
            [("match_type", otext "wilaya"); ("is_wilaya", OBool true)] None)
      | None, None, None => None
      end
  end.
Fixpoint first_of {A B} (f : A → option B) (l : list A) : option B :=
  match l with [] => None | x :: l' => match f x with Some y => Some y | None => first_of f l' end end.
(* src/core/importer/normalizers/location_normalizer.py :: LocationNormalizer.normalize *)
Definition normalize_location (context : option row_context) (t : text) : normalize_result :=
  if blank t then mkResult ONone certain t false [] None
  else
    let candidates := extract_location_candidates (canonicalize_text t) in
    let unknown := mkResult ONone doubtful t true [] (Some (u "Unknown location: " ++ t)) in
    match first_of (exact_location t (context ≫= wilaya_hint)) candidates with
    | Some r => r
    | None =>
        match candidates with
        | [] => unknown
        | c :: _ => default unknown (_fuzzy_match (normalize_text c))
        end
    end.
End Normalizers.
