(* ===== verification/ImportPrice.v ===== *)
(** * Prices

    src/core/importer/normalizers/price.py: a price cell is read in one or several dialects (dinars, thousands,
    millions or milliards of centimes); when several fit, an alias, the header or the dialect of the column decides,
    or nothing does and the cell is reviewed. *)

From S2P Require Import Prelude PyValue PyFloat PyText PyRegex ImportText ImportNumbers ImportNormalizers.
From Stdlib Require Import Ascii String SpecFloat.
Local Open Scope Z_scope.
Local Open Scope regex_scope.

Section Price.
Context `{Unicode}.

(** ** Patterns *)

Definition amount : regex := Grp 1 decimal_number.
(* src/core/importer/normalizers/price.py :: _EXPLICIT_DZD_PATTERN *)
Definition _EXPLICIT_DZD_PATTERN : regex :=
  (Wordb ⋅ lits_i "dzd da dinar dinars" ⋅ Wordb) ∥ lit (u "دينار") ∥ lit (u "دج").
(* src/core/importer/normalizers/price.py :: _EXPLICIT_CENTIME_PATTERN *)
Definition _EXPLICIT_CENTIME_PATTERN : regex :=
  Wordb ⋅ (lit_i (u "centime") ∥ lit_i (u "centimes") ∥ (lit_i (u "cts") ⋅ Opt (chr 46)) ∥ lit_i (u "cts")) ⋅ Wordb.
(* src/core/importer/normalizers/price.py :: _MONTHLY_PATTERN *)
Definition _MONTHLY_PATTERN : regex :=
  chr 47 ⋅ spaces ⋅ (lit_i (u "mois") ∥ lit_i (u "month") ∥ (lit_i (u "mensuel") ⋅ Opt (lit_i (u "le")))) ⋅ Wordb.
(* src/core/importer/normalizers/price.py :: _K_SUFFIX_PATTERN *)
Definition _K_SUFFIX_PATTERN : regex := Bol ⋅ amount ⋅ spaces ⋅ Cls (is_one_of [107; 75]) ⋅ Eol.
Definition milliard_words : regex := lits_i "mrd mrds milliard milliards".
(* src/core/importer/normalizers/price.py :: _MILLIARD_PATTERN *)
Definition _MILLIARD_PATTERN : regex := Bol ⋅ amount ⋅ spaces ⋅ milliard_words ⋅ Eol.
(* src/core/importer/normalizers/price.py :: _MILLIARD_COMPOUND_PATTERN *)
Definition _MILLIARD_COMPOUND_PATTERN : regex :=
  Bol ⋅ amount ⋅ spaces ⋅ milliard_words ⋅ Plus space ⋅ Grp 2 decimal_number ⋅ Eol.
(* src/core/importer/normalizers/price.py :: _MILLION_WORD_PATTERN *)
Definition _MILLION_WORD_PATTERN : regex := Bol ⋅ amount ⋅ spaces ⋅ lits_i "million millions" ⋅ Eol.
(* src/core/importer/normalizers/price.py :: _M_SYMBOL_PATTERN *)
Definition _M_SYMBOL_PATTERN : regex := Bol ⋅ amount ⋅ spaces ⋅ Grp 2 (Cls (is_one_of [109; 77])) ⋅ Eol.
Definition grouped (sep : regex) : regex := Bol ⋅ Between 1 3 digit ⋅ Plus (sep ⋅ Times 3 digit) ⋅ Eol.
(* src/core/importer/normalizers/price.py :: _GROUPED_SPACE_PATTERN *)
Definition _GROUPED_SPACE_PATTERN : regex := grouped space.
(* src/core/importer/normalizers/price.py :: _GROUPED_DOT_PATTERN *)
Definition _GROUPED_DOT_PATTERN : regex := grouped (chr 46).
(* src/core/importer/normalizers/price.py :: _GROUPED_COMMA_PATTERN *)
Definition _GROUPED_COMMA_PATTERN : regex := grouped (chr 44).
(* src/core/importer/normalizers/price.py :: _INTEGER_PATTERN *)
Definition _INTEGER_PATTERN : regex := Bol ⋅ digits ⋅ Eol.
(* src/core/importer/normalizers/price.py :: _DECIMAL_PATTERN *)
Definition _DECIMAL_PATTERN : regex := Bol ⋅ digits ⋅ Cls dot_or_comma ⋅ digits ⋅ Eol.
(* src/core/importer/normalizers/price.py :: _SIGNED_CORE_PATTERN *)
Definition _SIGNED_CORE_PATTERN : regex :=
  Bol ⋅ Grp 1 (Cls (is_one_of [43; 45])) ⋅ spaces ⋅ Grp 2 (Plus (Cls not_newline)) ⋅ Eol.

(** ** Candidates *)

(* src/core/importer/normalizers/price.py :: _PriceCandidate *)
Record price_candidate := mkCandidate {
  normalized_dzd : option num;
  dialect : string;
  expression_kind : string;
  pc_confidence : float;
  reason_codes : list string;
  pc_extras : list (string * obj)
}.
(* src/core/importer/normalizers/price.py :: _PriceCandidate.as_dict *)
Definition as_dict (selected_by_context : bool) (c : price_candidate) : obj :=
  ODict [("normalized_dzd", obj_of_num (normalized_dzd c)); ("dialect", otext (dialect c));
         ("expression_kind", otext (expression_kind c)); ("confidence", OFloat (pc_confidence c));
         ("reason_codes", OList (map otext (reason_codes c))); ("selected_by_context", OBool selected_by_context);
         ("extracted_extras", ODict (pc_extras c))].

(* src/core/importer/normalizers/price.py :: _clean_text *)
Definition _clean_text (t : text) : text := canonicalize_text (convert_arabic_digits t).
(* src/core/importer/normalizers/price.py :: _normalize_price_alias_source *)
Definition _normalize_price_alias_source (t : text) : text :=
  replace1 44 [46] (replace1 32 [] (strip_accents (tlower (_clean_text t)))).
(** The texts given here are numbers; a ValueError cannot arise ([as_float_number]). *)
(* src/core/importer/normalizers/price.py :: _as_float *)
Definition _as_float (t : text) : res float :=
  match float_of_text (replace1 44 [46] t) with
  | Some x => Ok x
  | None => Err (ValueError "could not convert string to float")
  end.
(* src/core/importer/normalizers/price.py :: _finalize_number *)
Definition _finalize_number (n : option num) : option num :=
  match n with
  | Some (NFloat x) => match int_of_float x with Ok z => if is_integer x then Some (NInt z) else n | Err _ => n end
  | _ => n
  end.
(* src/core/importer/normalizers/price.py :: _candidate *)
Definition _candidate (n : option num) (dialect kind : string) (conf : float) (reasons : list string)
    (extras : list (string * obj)) : price_candidate :=
  mkCandidate (_finalize_number n) dialect kind conf reasons extras.
Definition float_candidate (x : float) := _candidate (Some (NFloat x)).

(** [int(t)], whose ValueError for more than 4300 digits nothing catches. *)
Definition int_or_error (t : text) : res Z :=
  match int_of_text t with Some z => Ok z | None => Err (ValueError "Exceeds the limit for integer string conversion") end.
Definition some_int (r : res Z) : res (option Z) := let? z := r in Ok (Some z).
(* src/core/importer/normalizers/price.py :: _grouped_integer *)
Definition _grouped_integer (t : text) : res (option Z) :=
  if matches_some _GROUPED_SPACE_PATTERN t then some_int (int_or_error (replace1 32 [] t))
  else if matches_some _GROUPED_DOT_PATTERN t then some_int (int_or_error (replace1 46 [] t))
  else if matches_some _GROUPED_COMMA_PATTERN t then some_int (int_or_error (replace1 44 [] t))
  else if matches_some _INTEGER_PATTERN t then some_int (int_or_error t)
  else Ok None.
(** [n / 100] of an integer; raises beyond the range of floats. *)
Definition int_div (n d : Z) : res float :=
  match of_ratio (n <? 0) (Z.to_pos (Z.abs n)) (Z.to_pos d) with
  | S754_infinity _ => Err (OverflowError "integer division result too large for a float")
  | x => Ok (if n =? 0 then S754_zero false else x)
  end.

Definition of_explicit (b : bool) (x y : list string) : list string := if b then x else y.
(** The readings of a core like ["12 milliards 500"], by its shape. *)
(* src/core/importer/normalizers/price.py :: _parse_core_candidates [130-142] *)
Definition k_candidates (extras : list (string * obj)) (q : pos) : res (list price_candidate) :=
  let? n := _as_float (default [] (group 1 q)) in
  Ok [float_candidate (fmul n (of_Z 1000)) "dzd_thousands" "dzd_thousands" (float_lit 98 2) ["k_suffix"] extras].
(* src/core/importer/normalizers/price.py :: _parse_core_candidates [144-170] *)
Definition compound_candidates (explicit_dzd : bool) (extras : list (string * obj)) (q : pos) : res (list price_candidate) :=
  let? major := _as_float (default [] (group 1 q)) in
  let? trailing := _as_float (default [] (group 2 q)) in
  if explicit_dzd then
    Ok [float_candidate (fadd (fmul major (of_Z 1000000000)) (fmul trailing (of_Z 1000000))) "dzd_millions" "dzd_millions"
          (float_lit 99 2) ["explicit_dzd_token"; "milliard_compound_dzd"] extras]
  else
    Ok [float_candidate (fadd (fmul major (of_Z 10000000)) (fmul trailing (of_Z 10000))) "centime_milliards" "centime_milliards"
          (float_lit 97 2) ["colloquial_milliard_compound"] extras].
(* src/core/importer/normalizers/price.py :: _parse_core_candidates [172-195] *)
Definition milliard_candidates (explicit_dzd : bool) (extras : list (string * obj)) (q : pos) : res (list price_candidate) :=
  let? n := _as_float (default [] (group 1 q)) in
  if explicit_dzd then
    Ok [float_candidate (fmul n (of_Z 1000000000)) "dzd_millions" "dzd_millions" (float_lit 99 2)
          ["explicit_dzd_token"; "milliard_dzd"] extras]
  else
    Ok [float_candidate (fmul n (of_Z 10000000)) "centime_milliards" "centime_milliards" (float_lit 96 2)
          ["colloquial_milliard_default"] extras].
(* src/core/importer/normalizers/price.py :: _parse_core_candidates [197-251] *)
Definition million_candidates (explicit_dzd explicit_centimes monthly : bool) (extras : list (string * obj)) (q : pos)
  : res (list price_candidate) :=
  let? n := _as_float (default [] (group 1 q)) in
  let kind (k : string) := if monthly then "monthly_variant" else k in
  let dzd := float_candidate (fmul n (of_Z 1000000)) "dzd_millions" (kind "dzd_millions") in
  let centimes := float_candidate (fmul n (of_Z 10000)) "centime_millions" (kind "centime_millions") in
  Ok (if explicit_dzd then [dzd (float_lit 99 2) ["explicit_dzd_token"; "million_token"] extras]
      else if explicit_centimes then [centimes (float_lit 99 2) ["explicit_centime_token"; "million_token"] extras]
      else if monthly then [centimes (float_lit 92 2) ["monthly_centime_default"; "million_token"] extras]
      else [dzd (float_lit 74 2) ["ambiguous_million_token"] extras; centimes (float_lit 74 2) ["ambiguous_million_token"] extras]).
(* src/core/importer/normalizers/price.py :: _parse_core_candidates [253-276] *)
Definition scalar_candidates (explicit_centimes : bool) (extras : list (string * obj)) (n : Z) : res (list price_candidate) :=
  if explicit_centimes then
    let? x := int_div n 100 in
    Ok [float_candidate x "centime_scalar" "centime_scalar" (float_lit 98 2) ["explicit_centime_token"; "raw_scalar"] extras]
  else
    let? x := float_of_int n in
    Ok [float_candidate x "raw_dzd" "raw_dzd" certain ["raw_scalar"] extras].
(* src/core/importer/normalizers/price.py :: _parse_core_candidates [278-314] *)
Definition decimal_candidates (explicit_dzd explicit_centimes : bool) (extras : list (string * obj)) (core : text)
  : res (list price_candidate) :=
  let? n := _as_float core in
  if explicit_centimes then
    Ok [float_candidate (SFdiv 53 1024 n (of_Z 100)) "centime_scalar" "centime_scalar" (float_lit 98 2)
          ["explicit_centime_token"; "raw_decimal_scalar"] extras]
  else if explicit_dzd || fle (of_Z 1000) n then
    Ok [float_candidate n "raw_dzd" "raw_dzd" (if explicit_dzd then float_lit 92 2 else float_lit 88 2)
          (of_explicit explicit_dzd ["explicit_dzd_token"; "raw_decimal_scalar"] ["raw_decimal_scalar"]) extras]
  else Ok [_candidate None "ambiguous" "ambiguous_decimal" doubtful ["ambiguous_decimal_no_scale"] extras].
(* src/core/importer/normalizers/price.py :: _parse_core_candidates *)
Definition _parse_core_candidates (core : text) (explicit_dzd explicit_centimes monthly : bool) : res (list price_candidate) :=
  match core with
  | [] => Ok []
  | _ =>
      let extras := if monthly then [("cadence", otext "monthly")] else [] in
      match re_match _K_SUFFIX_PATTERN core, re_match _MILLIARD_COMPOUND_PATTERN core, re_match _MILLIARD_PATTERN core,
            or_else (re_match _MILLION_WORD_PATTERN core) (re_match _M_SYMBOL_PATTERN core) with
      | Some q, _, _, _ => k_candidates extras q
      | None, Some q, _, _ => compound_candidates explicit_dzd extras q
      | None, None, Some q, _ => milliard_candidates explicit_dzd extras q
      | None, None, None, Some q => million_candidates explicit_dzd explicit_centimes monthly extras q
      | None, None, None, None =>
          let? grouped_integer := _grouped_integer core in
          match grouped_integer with
          | Some n => scalar_candidates explicit_centimes extras n
          | None => if matches_some _DECIMAL_PATTERN core then decimal_candidates explicit_dzd explicit_centimes extras core
                    else Ok []
          end
      end
  end.
(* src/core/importer/normalizers/price.py :: _extract_signed_core *)
Definition _extract_signed_core (core : text) : text * bool :=
  match re_match _SIGNED_CORE_PATTERN core with
  | None => (core, false)
  | Some q => (tstrip (default [] (group 2 q)), bool_decide (group 1 q = Some [45]))
  end.
(** The readings of a cell, marked when it has a minus sign. *)
(* src/core/importer/normalizers/price.py :: PriceNormalizer.candidate_records *)
Definition candidate_records (t : text) : res (list price_candidate) :=
  if blank t then Ok []
  else
    let normalized_lower := strip_accents (tlower (canonicalize_text (_clean_text t))) in
    let monthly := found _MONTHLY_PATTERN normalized_lower in
    let explicit_dzd := found _EXPLICIT_DZD_PATTERN normalized_lower in
    let explicit_centimes := found _EXPLICIT_CENTIME_PATTERN normalized_lower in
    let core := tstrip (re_sub _MONTHLY_PATTERN [] normalized_lower) in
    let core := tstrip (re_sub _EXPLICIT_DZD_PATTERN [] core) in
    let core := tstrip (re_sub _EXPLICIT_CENTIME_PATTERN [] core) in
    let core := join_texts [32] (words core) in
    let '(core, negative) := _extract_signed_core core in
    let? candidates := _parse_core_candidates core explicit_dzd explicit_centimes monthly in
    Ok (if negative then
          map (λ c, mkCandidate (normalized_dzd c) (dialect c) (expression_kind c) (pc_confidence c) (reason_codes c)
                      (put "negative_price_detected" (OBool true) (pc_extras c))) candidates
        else candidates).
End Price.

(** ** Selection *)

Section Selection.
Context `{Unicode}.
(** [str] of a list or a dict, which no reader of the metadata expects. *)
Context (show_container : obj → text).
(** [str(v or "")] *)
Definition str_or_empty (v : option obj) : text :=
  match v with
  | None | Some ONone => []
  | Some (OText t) => t
  | Some (OBool b) => if b then u "True" else []
  | Some (OInt z) => if z =? 0 then [] else text_of_Z z
  | Some (OFloat x) => if SFeqb x (S754_zero false) then [] else u (float_repr x)
  | Some v => match v with OList [] | ODict [] => [] | _ => show_container v end
  end.
(* src/core/importer/normalizers/price.py :: _object_dict *)
Definition _object_dict (v : option obj) : list (string * obj) := match v with Some (ODict d) => d | _ => [] end.
Definition text_field (k : text) (d : list (string * obj)) : option obj :=
  snd <$> List.find (λ e : string * obj, bool_decide (u e.1 = k)) d.
Definition has_value (c : price_candidate) : bool := bool_decide (is_Some (normalized_dzd c)).

Definition boost (c : price_candidate) (at_least : float) (reason : string) : price_candidate :=
  mkCandidate (_finalize_number (normalized_dzd c)) (dialect c) (expression_kind c) (py_fmax (pc_confidence c) at_least)
    (reason_codes c ++ [reason]) (pc_extras c).
Definition with_dialect (p : text → bool) (anchored : list price_candidate) : option price_candidate :=
  List.find (λ c, p (u (dialect c))) anchored.
(** The three sources a choice between several readings may come from. *)
Definition alias_choice (raw_value : text) (md : list (string * obj)) (anchored : list price_candidate) : option (price_candidate * string) :=
  match text_field (_normalize_price_alias_source raw_value) (_object_dict (field_of "price_aliases" md)) with
  | Some (ODict alias_entry) =>
      let alias_dialect := tstrip (str_or_empty (field_of "dialect" alias_entry)) in
      (λ c, (boost c (float_lit 95 2) "agency_price_alias", "agency_price_alias"))
      <$> with_dialect (λ d, bool_decide (d = alias_dialect)) anchored
  | _ => None
  end.
Definition header_choice (md : list (string * obj)) (anchored : list price_candidate) : option (price_candidate * string) :=
  let hint := tlower (tstrip (str_or_empty (field_of "price_unit_hint" md))) in
  let choose (preferred : string) (reason : string) :=
    (λ c, (boost c (float_lit 96 2) reason, reason)) <$> with_dialect (λ d, is_in_texts d (words_of preferred)) anchored in
  if bool_decide (hint = u "dzd") then choose "raw_dzd dzd_thousands dzd_millions" "header_explicit_dzd"
  else if bool_decide (hint = u "centime") then choose "centime_scalar centime_millions centime_milliards" "header_explicit_centime"
  else None.
Definition column_choice (md : list (string * obj)) (anchored : list price_candidate) : res (option (price_candidate * string)) :=
  let hint_dialect := tstrip (str_or_empty (field_of "price_dialect_hint" md)) in
  let? hint_confidence := match as_num (default (OFloat doubtful) (field_of "price_dialect_confidence" md)) with
                          | Some n => float_of_num n
                          | None => Ok doubtful
                          end in
  match hint_dialect with
  | [] => Ok None
  | _ =>
      Ok (if fle (float_lit 8 1) hint_confidence then
            (λ c, (boost c (py_fmin (float_lit 94 2) (fadd hint_confidence (float_lit 4 2))) "column_price_dialect_hint",
                   "column_price_dialect_hint"))
            <$> with_dialect (λ d, bool_decide (d = hint_dialect)) anchored
          else None)
  end.
(* src/core/importer/normalizers/price.py :: PriceNormalizer._select_candidate *)
Definition _select_candidate (raw_value : text) (candidates : list price_candidate) (context : option row_context)
  : res (option (price_candidate * string)) :=
  let anchored := List.filter has_value candidates in
  match anchored with
  | [c] => Ok (Some (c, "single_candidate"))
  | _ =>
      let md := match context with Some c => metadata c | None => [] end in
      match alias_choice raw_value md anchored, header_choice md anchored with
      | Some choice, _ => Ok (Some choice)
      | None, Some choice => Ok (Some choice)
      | None, None => column_choice md anchored
      end
  end.

Definition num_opt_eqb (a b : option num) : bool :=
  match a, b with None, None => true | Some x, Some y => num_eqb x y | _, _ => false end.
(** [a == b] of two candidates. *)
Definition candidate_eqb (a b : price_candidate) : bool :=
  num_opt_eqb (normalized_dzd a) (normalized_dzd b) && bool_decide (dialect a = dialect b)
  && bool_decide (expression_kind a = expression_kind b) && SFeqb (pc_confidence a) (pc_confidence b)
  && bool_decide (reason_codes a = reason_codes b) && obj_eqb (ODict (pc_extras a)) (ODict (pc_extras b)).
Definition is_negative_candidate (c : price_candidate) : bool :=
  match field_of "negative_price_detected" (pc_extras c) with Some (OBool b) => b | _ => false end.
(** [sorted] of a set of ASCII texts *)
Definition sorted_codes (l : list string) : list string := ssort String.leb (remove_dups l).
Definition ambiguity_reasons (candidates : list price_candidate) : list string :=
  let all_codes := match sorted_codes (flat_map reason_codes candidates) with [] => ["ambiguous_price_scale"] | l => l end in
  match candidates with
  | [c] => if has_value c then all_codes else reason_codes c
  | _ => all_codes
  end.
(* src/core/importer/normalizers/price.py :: PriceNormalizer.normalize *)
Definition normalize_price (output_in_centimes : bool) (context : option row_context) (t : text) : res normalize_result :=
  if blank t then Ok (mkResult ONone certain t false [] None)
  else
    let? candidates := candidate_records t in
    match candidates with
    | [] => Ok (mkResult ONone doubtful t true [] (Some (u "Could not parse price: " ++ t)))
    | _ =>
        let negative_price_detected := existsb is_negative_candidate candidates in
        let negative_extra := if negative_price_detected then [("negative_price_detected", OBool true)] else [] in
        let? selected := _select_candidate t candidates context in
        match selected with
        | None =>
            Ok (mkResult ONone doubtful t true
              ([("interpretation_candidates", OList (map (as_dict false) candidates));
                ("price_ambiguity_reason_codes", OList (map otext (ambiguity_reasons candidates)))] ++ negative_extra)
              (Some (u "We found more than one possible price scale for this value.")))
        | Some (selected_candidate, selection_reason) =>
            let extras :=
              put "price_selection_reason" (otext selection_reason)
              (put "selected_expression_kind" (otext (expression_kind selected_candidate))
              (put "selected_price_dialect" (otext (dialect selected_candidate))
              (put "interpretation_candidates" (OList (map (λ c, as_dict (candidate_eqb c selected_candidate) c) candidates))
                (pc_extras selected_candidate)))) in
            if negative_price_detected then
              Ok (mkResult ONone doubtful t true (put "negative_price_detected" (OBool true) extras)
                    (Some (u "Negative price requires review.")))
            else
              let? final_value :=
                match normalized_dzd selected_candidate with
                | Some n => if output_in_centimes then let? x := float_of_num n in Ok (_finalize_number (Some (NFloat (fmul x (of_Z 100)))))
                            else Ok (Some n)
                | None => Ok None
                end in
              Ok (mkResult (obj_of_num final_value) (pc_confidence selected_candidate) t false extras None)
        end
    end.
End Selection.

Section Examples.
Definition price_of (s : string) : res (obj * bool) :=
  let? r := normalize_price (λ _, []) false None (u s) in Ok (value r, needs_review r).
Example prices :
  map price_of ["1 500 000 DA"; "150 millions"; "12 milliards 500"; "3.5 M/mois"; "850k"; "-5000"; "2500.50"; "12,5"; "450 000 cts"]
  = [Ok (OInt 1500000, false); Ok (ONone, true); Ok (OInt 125000000, false); Ok (OInt 35000, false); Ok (OInt 850000, false);
     Ok (ONone, true); Ok (OFloat (of_decimal false 25005 (-1)), false); Ok (ONone, true); Ok (OInt 4500, false)].
Proof. vm_compute. reflexivity. Qed.
End Examples.
