(* ===== verification/ImportValidate.v ===== *)
(** * Validation of imported rows

    src/core/importer/validation and server/services/import_rows.py: the checks a normalised row passes before it is
    loaded. *)

From S2P Require Import Prelude PyValue PyFloat PyText PyRegex ImportText ImportNumbers ImportNormalizers ImportPrice.
From Stdlib Require Import Ascii String SpecFloat.
Local Open Scope Z_scope.
Local Open Scope regex_scope.

(** A value, an [ImportValidationError] with its field and message, or another exception. *)
(* src/core/importer/validation/errors.py :: ImportValidationError *)
Inductive checked (A : Type) : Type :=
  | Valid (a : A)
  | Refused (field : string) (message : string)
  | Raised (e : exn).
Arguments Valid {A} a.
Arguments Refused {A} field message.
Arguments Raised {A} e.

Section Validate.
Context `{Unicode} (show_container : obj → text).

(** [str(v)] *)
Definition str_of (v : obj) : text :=
  match v with
  | ONone => u "None"
  | OBool b => u (if b then "True" else "False")
  | OInt z => text_of_Z z
  | OFloat x => u (float_repr x)
  | OText t => t
  | _ => show_container v
  end.

(** ** Texts *)

Definition sql_word (words : string) : regex := Wordb ⋅ lits_i words ⋅ Wordb.
(* src/core/importer/validation/validator_rules.py :: DANGEROUS_PATTERNS *)
Definition DANGEROUS_PATTERNS : list regex :=
  [lit (u "--"); lit (u "/*"); lit (u "*/");
   sql_word "SELECT INSERT UPDATE DELETE DROP TRUNCATE ALTER";
   sql_word "UNION EXEC EXECUTE XP_ SP_";
   Wordb ⋅ lits_i "OR AND" ⋅ Plus space ⋅ digits ⋅ spaces ⋅ chr 61 ⋅ spaces ⋅ digits].
Definition dangerous (t : text) : bool := existsb (λ r, found r t) DANGEROUS_PATTERNS.
(* src/core/importer/validation/validator_core.py :: sanitize_string *)
Definition sanitize_string (v : obj) (field_name : string) (max_length : Z) (allow_empty : bool) : checked text :=
  let t := tstrip (match v with ONone => [] | _ => str_of v end) in
  match t with
  | [] => if allow_empty then Valid [] else Refused field_name "Value cannot be empty"
  | _ =>
      if max_length <? Z.of_nat (List.length t) then
        Refused field_name ("Value exceeds maximum length of " +:+ pretty max_length)
      else if dangerous t then Refused field_name "Invalid characters or patterns detected"
      else Valid (re_sub (Cls is_control) [] t)
  end.

(* src/core/importer/validation/validator_core.py :: validate_phone *)
Definition validate_phone (v : obj) (field_name : string) : checked obj :=
  match v with
  | ONone | OText [] => Valid (OText [])
  | OText t =>
      if matches_some (Bol ⋅ Times 10 digit ⋅ Eol) t then Valid v else Refused field_name "Phone must be exactly 10 digits"
  | _ => Raised (TypeError "expected string or bytes-like object")
  end.
Definition forbidden_in_name (c : Z) : bool := is_decimal c || is_one_of (u "@#$%^&*()+=[]{}|\<>?/~`") c.
(* src/core/importer/validation/validator_core.py :: validate_name *)
Definition validate_name (v : obj) (field_name : string) : checked text :=
  match sanitize_string v field_name 100 true with
  | Valid t => if found (Cls forbidden_in_name) t then Refused field_name "Name contains invalid characters" else Valid t
  | r => r
  end.
Definition not_at_or_space (c : Z) : bool := negb ((c =? 64) || is_space c).
Definition email_re : regex :=
  Bol ⋅ Plus (Cls not_at_or_space) ⋅ chr 64 ⋅ Plus (Cls not_at_or_space) ⋅ chr 46 ⋅ Plus (Cls not_at_or_space) ⋅ Eol.
(* src/core/importer/validation/validator_core.py :: validate_email *)
Definition validate_email (v : obj) (field_name : string) : checked text :=
  match v with
  | ONone | OText [] => Valid []
  | _ =>
      match sanitize_string v field_name 254 true with
      | Valid t => if matches_some email_re t then Valid (tlower t) else Refused field_name "Invalid email format"
      | r => r
      end
  end.

(** ** Numbers *)

Definition max_price : float := of_Z 100000000000.
(* src/core/importer/validation/validator_core.py :: validate_price *)
Definition validate_price (v : obj) (field_name : string) : checked (option float) :=
  let judge (x : option float) : checked (option float) :=
    match x with
    | None => Refused field_name "Price must be a valid number"
    | Some x =>
        if is_negative x then Refused field_name "Price cannot be negative"
        else if flt max_price x then Refused field_name "Price exceeds reasonable maximum"
        else Valid (Some x)
    end in
  let of_res (r : res float) := match r with Ok x => judge (Some x) | Err e => Raised e end in
  match v with
  | ONone => Valid None
  | OInt z => of_res (float_of_int z)
  | OFloat x => of_res (Ok x)
  | _ =>
      match normalize_price show_container false None (tstrip (str_of v)) with
      | Err e => Raised e
      | Ok r =>
          match as_num (value r) with
          | Some n => of_res (float_of_num n)
          | None =>
              if match field_of "negative_price_detected" (extracted_extras r) with Some (OBool b) => b | _ => false end
              then judge (Some (of_Z (-1))) else judge None
          end
      end
  end.
(* src/core/importer/validation/validator_core.py :: validate_positive_integer *)
Definition validate_positive_integer (v : obj) (field_name : string) (max_value : option Z) : checked (option Z) :=
  match v with
  | ONone | OText [] => Valid None
  | _ =>
      match (match parse_int (str_of v) None with Ok z => z | Err _ => None end) with
      | None => Refused field_name "Must be a valid integer"
      | Some z =>
          if z <? 0 then Refused field_name "Value cannot be negative"
          else match max_value with
               | Some m => if m <? z then Refused field_name ("Value exceeds maximum of " +:+ pretty m) else Valid (Some z)
               | None => Valid (Some z)
               end
      end
  end.

(** ** Rows (import_rows.py) *)

(* src/server/services/import_rows.py :: _parse_boolish *)
Definition _parse_boolish (v : obj) : option Z :=
  match v with
  | ONone | OText [] => None
  | OBool b => Some (if b then 1 else 0)
  | _ => (λ b : bool, if b then 1 else 0) <$> parse_bool (str_of v) None
  end.

(** The validated fields and the errors; or the exception that stops the call. *)
Definition row_state : Type := list (string * obj) * list text.
Definition error_text (field message : string) : text := u (field +:+ ": " +:+ message).
(** [if field in row: try: validated\[field\] = check(row\[field\]) except ImportValidationError: errors.append] *)
Definition check_field {A} (row : list (string * obj)) (check : obj → string → checked A) (to_obj : A → obj)
    (field : string) (s : row_state) : res row_state :=
  match field_of field row with
  | None => Ok s
  | Some v =>
      match check v field with
      | Valid a => Ok (put field (to_obj a) s.1, s.2)
      | Refused f m => Ok (s.1, s.2 ++ [error_text f m])
      | Raised e => Err e
      end
  end.
Fixpoint check_fields {A} (row : list (string * obj)) (check : obj → string → checked A) (to_obj : A → obj)
    (fields : list string) (s : row_state) : res row_state :=
  match fields with
  | [] => Ok s
  | f :: fs => let? s := check_field row check to_obj f s in check_fields row check to_obj fs s
  end.
Definition obj_of_float (x : option float) : obj := match x with None => ONone | Some x => OFloat x end.
Definition obj_of_int (z : option Z) : obj := match z with None => ONone | Some z => OInt z end.
Definition name_fields : list string := ["name"; "family_name"; "first_name"].
Definition price_fields : list string :=
  ["price"; "budget"; "budget_min"; "budget_max"; "surface"; "surface_min"; "surface_max"; "latitude"; "longitude"; "price_flex_pct"].
Definition int_fields : list string :=
  ["client_id"; "listing_id"; "type_id"; "action_id"; "wilaya_id"; "beds"; "beds_min"; "floor"; "floor_min"; "floor_max"].
Definition bool_fields : list string :=
  ["elevator"; "parking"; "accessibility_required"; "accessibility_supported"; "price_negotiable"].
Definition check_bool (row : list (string * obj)) (s : row_state) (field : string) : row_state :=
  match field_of field row with
  | None => s
  | Some v =>
      let parsed := _parse_boolish v in
      let missing := match v with ONone | OText [] => true | _ => false end in
      (put field (obj_of_int parsed) s.1,
       if bool_decide (parsed = None) && negb missing then s.2 ++ [error_text field "invalid boolean value"] else s.2)
  end.
(** The fields not validated yet: texts are sanitised, other values kept. *)
Fixpoint keep_rest (entries : list (string * obj)) (s : row_state) : res row_state :=
  match entries with
  | [] => Ok s
  | (k, v) :: entries' =>
      if bool_decide (is_Some (field_of k s.1)) then keep_rest entries' s
      else match v with
           | OText _ =>
               match sanitize_string v k 500 true with
               | Valid t => keep_rest entries' (put k (OText t) s.1, s.2)
               | Refused f m => keep_rest entries' (s.1, s.2 ++ [error_text f m])
               | Raised e => Err e
               end
           | _ => keep_rest entries' (put k v s.1, s.2)
           end
  end.
(** [not v] *)
Definition falsy (v : option obj) : bool :=
  match v with
  | None | Some ONone | Some (OText []) | Some (OList []) | Some (ODict []) => true
  | Some v => match as_num v with
              | Some n => num_eqb n (NInt 0)
              | None => false
              end
  end.
Definition num_ltb (a b : num) : bool :=
  match a, b with
  | NInt x, NInt y => x <? y
  | NFloat x, NFloat y => flt x y
  | NInt z, NFloat x => flt (of_Z z) x
  | NFloat x, NInt z => flt x (of_Z z)
  end.
Definition bound_error (d : list (string * obj)) (low high : string) : list text :=
  match field_of low d ≫= as_num, field_of high d ≫= as_num with
  | Some a, Some b => if num_ltb b a then [u (low +:+ " cannot be greater than " +:+ high)] else []
  | _, _ => []
  end.
Definition default_field (k : string) (v : obj) (d : list (string * obj)) : list (string * obj) :=
  match field_of k d with None | Some ONone => put k v d | Some _ => d end.
Definition missing_value (v : option obj) : bool := match v with None | Some ONone | Some (OText []) => true | _ => false end.
Definition offer_required : list string := ["action"; "type"; "wilaya"; "location"; "budget"; "surface"; "beds"; "floor"].
Definition guardrails (entity_type : string) (s : row_state) : row_state :=
  let '(d, errors) := s in
  if bool_decide (entity_type = "demande") then
    (default_field "floor_max" (OInt 100) (default_field "floor_min" (OInt 0) d),
     errors ++ flat_map (λ f, if falsy (field_of f d) then [u (f +:+ " is required for demandes")] else []) ["action"; "type"; "wilaya"]
     ++ bound_error d "budget_min" "budget_max" ++ bound_error d "surface_min" "surface_max")
  else if bool_decide (entity_type = "offer") then
    (d, errors ++ flat_map (λ f, if missing_value (field_of f d) then [u (f +:+ " is required for offers")] else []) offer_required)
  else s.
(* src/server/services/import_rows.py :: validate_row *)
Definition validate_row (row : list (string * obj)) (entity_type : string) : res row_state :=
  let? s := check_fields row validate_name OText name_fields ([], []) in
  let? s := check_field row validate_phone id "phone" s in
  let? s := check_fields row validate_price obj_of_float price_fields s in
  let? s := check_fields row (λ v f, validate_positive_integer v f None) obj_of_int int_fields s in
  let? s := check_field row validate_email OText "email" s in
  let s := foldl (check_bool row) s bool_fields in
  let? s := keep_rest row s in
  Ok (guardrails entity_type s).
End Validate.

(** The patterns are looked for before the control characters are removed. *)
Example hidden_pattern :
  sanitize_string (λ _, []) (OText (u "DR" ++ [1] ++ u "OP TABLE")) "notes" 500 true = Valid (u "DROP TABLE").
Proof. vm_compute. reflexivity. Qed.
(** A basement, and a longitude west of Greenwich. *)
Example negative_fields :
  validate_row (λ _, []) [("floor", OInt (-1)); ("longitude", OFloat (of_decimal true 63 (-2)))] "listing"
  = Ok ([("floor", OInt (-1)); ("longitude", OFloat (of_decimal true 63 (-2)))],
        [u "longitude: Price cannot be negative"; u "floor: Value cannot be negative"]).
Proof. vm_compute. reflexivity. Qed.
