(* ===== verification/ImportPipeline.v ===== *)
(** * The normalisation of imported rows

    src/core/importer/normalize_pipeline.py: each cell of a mapped row goes to the normalizer of its column type; the
    row collects values, the least confidence, the fields to review, and the values extracted besides. *)

From S2P Require Import Prelude PyValue PyFloat PyText PyRegex ImportText ImportNumbers ImportNormalizers ImportPrice ImportValidate.
From Stdlib Require Import Ascii String SpecFloat.
Local Open Scope Z_scope.
Local Open Scope regex_scope.

(** ** Rows *)

(* src/core/importer/normalize_pipeline.py :: ReviewField *)
Record review_field := mkReview {
  rf_field_name : string;
  rf_original_value : text;
  rf_normalized_value : obj;
  rf_confidence : float;
  rf_remark : text;
  rf_metadata : list (string * obj)
}.
(* src/core/importer/normalize_pipeline.py :: ExtraConflict *)
Record extra_conflict := mkConflict {
  ec_key : string;
  ec_first_field : string;
  ec_first_value : obj;
  ec_second_field : string;
  ec_second_value : obj
}.
(* src/core/importer/normalize_pipeline.py :: NormalizedRow *)
Record normalized_row := mkRow {
  nr_data : list (string * obj);
  nr_confidence : float;
  nr_needs_review : bool;
  nr_review_fields : list review_field;
  nr_remarks : list text;
  nr_extras : list (string * obj);
  nr_extra_conflicts : list extra_conflict;
  nr_field_results : list (string * normalize_result)
}.
Definition extra_conflict_code : string := "extracted_extra_conflict".

(** A ValueError inside [_normalize_numeric] is caught; other exceptions are not. *)
Definition value_error {A} : res A := Err (ValueError EmptyString).
Definition is_in_names (k : string) (names : list string) : bool := bool_decide (k ∈ names).

(* src/core/importer/normalize_pipeline.py :: _BOOLEAN_TYPES *)
Definition _BOOLEAN_TYPES : list string :=
  ["furnished"; "elevator"; "parking"; "accessibility_required"; "accessibility_supported"; "price_negotiable"].
(* src/core/importer/normalize_pipeline.py :: _NUMERIC_TYPES *)
Definition _NUMERIC_TYPES : list string :=
  ["surface"; "surface_min"; "surface_max"; "rooms"; "beds"; "beds_min"; "floor"; "floor_min"; "floor_max";
   "budget_min"; "budget_max"; "budget"].
(* src/core/importer/normalize_pipeline.py :: _SURFACE_FIELDS *)
Definition _SURFACE_FIELDS : list string := ["surface"; "surface_min"; "surface_max"].
(* src/core/importer/normalize_pipeline.py :: _INTEGER_QUANTITY_FIELDS *)
Definition _INTEGER_QUANTITY_FIELDS : list string := ["rooms"; "floor"; "floor_min"; "floor_max"; "beds"; "beds_min"].
(* src/core/importer/normalize_pipeline.py :: _MERGEABLE_EXTRACTED_EXTRA_KEYS *)
Definition _MERGEABLE_EXTRACTED_EXTRA_KEYS : list string := ["beds"; "surface_min"; "surface_max"; "floor_min"; "floor_max"].
(* src/core/importer/normalize_pipeline.py :: REVIEW_THRESHOLD *)
Definition REVIEW_THRESHOLD : float := float_lit 85 2.
Definition may_be_negative (field_name : string) : bool := is_in_names field_name ["floor"; "floor_min"; "floor_max"].

Section Numeric.
Context `{Unicode}.

(** ** Patterns *)

Definition signed (n : nat) (r : regex) : regex := Grp n (Opt (chr 45) ⋅ r).
Definition accented_word (before : string) (c : text) (after : string) : regex :=
  lit_i (u before) ⋅ Cls (λ d, existsb (λ e, same_letter e d) c) ⋅ lit_i (u after).
Definition surface_unit : regex := lits_i "m² m2 sqm m metr metre metres meter meters".
Definition e_or_grave : text := u "eè".
Definition quantity_unit : regex :=
  any_of ([lit_i (u "room"); lit_i (u "rooms"); lit_i (u "piece"); lit_i (u "pieces");
           accented_word "pi" e_or_grave "ce"; accented_word "pi" e_or_grave "ces"]
          ++ map lit_i (words_of "bed beds chambre chambres floor etage étage")).
Definition range_word : regex := lits_i "- / a à to".
(* src/core/importer/normalize_pipeline.py :: _SURFACE_PATTERN *)
Definition _SURFACE_PATTERN : regex := Bol ⋅ spaces ⋅ signed 1 decimal_number ⋅ spaces ⋅ Opt surface_unit ⋅ spaces ⋅ Eol.
(* src/core/importer/normalize_pipeline.py :: _SURFACE_RANGE_PATTERN *)
Definition _SURFACE_RANGE_PATTERN : regex :=
  Bol ⋅ spaces ⋅ signed 1 decimal_number ⋅ spaces ⋅ range_word ⋅ spaces ⋅ signed 2 decimal_number ⋅ spaces
  ⋅ Opt surface_unit ⋅ spaces ⋅ Eol.
(* src/core/importer/normalize_pipeline.py :: _APPROXIMATE_PREFIX_PATTERN *)
Definition _APPROXIMATE_PREFIX_PATTERN : regex := Bol ⋅ spaces ⋅ lits_i "environ ~ circa" ⋅ Plus space.
(* src/core/importer/normalize_pipeline.py :: _INTEGER_QUANTITY_PATTERN *)
Definition _INTEGER_QUANTITY_PATTERN : regex := Bol ⋅ spaces ⋅ signed 1 digits ⋅ spaces ⋅ Opt quantity_unit ⋅ spaces ⋅ Eol.
(* src/core/importer/normalize_pipeline.py :: _INTEGER_RANGE_PATTERN *)
Definition _INTEGER_RANGE_PATTERN : regex :=
  Bol ⋅ spaces ⋅ signed 1 digits ⋅ spaces ⋅ range_word ⋅ spaces ⋅ signed 2 digits ⋅ spaces ⋅ Opt quantity_unit ⋅ spaces ⋅ Eol.
(* src/core/importer/normalize_pipeline.py :: _FLOOR_TEXT_RANGE_PATTERN *)
Definition _FLOOR_TEXT_RANGE_PATTERN : regex :=
  Bol ⋅ spaces ⋅ Opt (lit_i (u "entre") ⋅ Plus space) ⋅ signed 1 digits ⋅ spaces ⋅ lits_i "et a à to - /" ⋅ spaces
  ⋅ signed 2 digits ⋅ spaces ⋅ Eol.
(* src/core/importer/normalize_pipeline.py :: _GENERIC_NUMERIC_PATTERN *)
Definition _GENERIC_NUMERIC_PATTERN : regex := Bol ⋅ spaces ⋅ signed 1 decimal_number ⋅ spaces ⋅ Eol.
(* src/core/importer/normalize_pipeline.py :: _GROUND_FLOOR_PATTERN *)
Definition _GROUND_FLOOR_PATTERN : regex :=
  Bol ⋅ spaces ⋅ lit_i (u "rdc")
  ⋅ Opt (Plus space ⋅ lit_i (u "sur") ⋅ Opt (Cls (is_one_of [45; 32])) ⋅ accented_word "elev" (u "eé") EmptyString) ⋅ spaces ⋅ Eol.
(* src/core/importer/normalize_pipeline.py :: _FLOOR_ORDINAL_PATTERN *)
Definition _FLOOR_ORDINAL_PATTERN : regex :=
  Bol ⋅ spaces ⋅ signed 1 digits ⋅ Opt (lits_i "er eme e st nd rd th") ⋅ spaces ⋅ Opt (lits_i "floor etage étage") ⋅ spaces ⋅ Eol.
Definition room_code : regex := Bol ⋅ spaces ⋅ Cls (is_one_of (u "FfTt")) ⋅ spaces ⋅ digits ⋅ spaces ⋅ Eol.
(* src/core/importer/normalize_pipeline.py :: _WORD_NUMBERS *)
Definition _WORD_NUMBERS : list (text * Z) :=
  map (λ e : string * Z, (u e.1, e.2))
    [("zero", 0); ("zéro", 0); ("un", 1); ("une", 1); ("deux", 2); ("trois", 3); ("quatre", 4); ("cinq", 5); ("six", 6);
     ("sept", 7); ("huit", 8); ("neuf", 9); ("dix", 10); ("اول", 1); ("الأول", 1); ("الاول", 1)].

(** ** Numbers *)

Definition group_text (n : nat) (q : pos) : text := default [] (group n q).
Definition int_or_value_error (t : text) : res Z := match int_of_text t with Some z => Ok z | None => value_error end.
(* src/core/importer/normalize_pipeline.py :: NormalizationPipeline._coerce_numeric_token *)
Definition _coerce_numeric_token (token : text) : res float :=
  match calculate_float_value token with Some x => Ok x | None => value_error end.
(* src/core/importer/normalize_pipeline.py :: NormalizationPipeline._parse_surface_value *)
Definition _parse_surface_value (raw_value : text) : res float :=
  match re_match _SURFACE_PATTERN raw_value with None => value_error | Some q => _coerce_numeric_token (group_text 1 q) end.
(* src/core/importer/normalize_pipeline.py :: NormalizationPipeline._parse_word_number *)
Definition _parse_word_number (raw_value : text) : option Z := entry (tlower (tstrip raw_value)) _WORD_NUMBERS.
(* src/core/importer/normalize_pipeline.py :: NormalizationPipeline._parse_integer_quantity_value *)
Definition _parse_integer_quantity_value (raw_value : text) : res Z :=
  match _parse_word_number raw_value with
  | Some z => Ok z
  | None =>
      match re_match _INTEGER_QUANTITY_PATTERN raw_value with
      | None => value_error
      | Some q => int_or_value_error (group_text 1 q)
      end
  end.
(* src/core/importer/normalize_pipeline.py :: NormalizationPipeline._parse_generic_numeric_value *)
Definition _parse_generic_numeric_value (raw_value : text) : res float :=
  match re_match _GENERIC_NUMERIC_PATTERN (replace1 32 [] raw_value) with
  | None => value_error
  | Some q => _coerce_numeric_token (group_text 1 q)
  end.
(* src/core/importer/normalize_pipeline.py :: NormalizationPipeline._parse_numeric_value *)
Definition _parse_numeric_value (raw_value : text) (field_name : string) : res float :=
  if is_in_names field_name _SURFACE_FIELDS then _parse_surface_value raw_value
  else if is_in_names field_name _INTEGER_QUANTITY_FIELDS then
    let? z := _parse_integer_quantity_value raw_value in float_of_int z
  else _parse_generic_numeric_value raw_value.

Definition plain_result (v : obj) (conf : float) (t : text) : normalize_result := mkResult v conf t false [] None.
(* src/core/importer/normalize_pipeline.py :: NormalizationPipeline._normalize_surface_scalar_value *)
Definition _normalize_surface_scalar_value (raw_value : text) : res (option normalize_result) :=
  let approximate := matches_some _APPROXIMATE_PREFIX_PATTERN raw_value in
  let normalized := tstrip (re_sub _APPROXIMATE_PREFIX_PATTERN [] raw_value) in
  match re_match _SURFACE_PATTERN normalized with
  | None => Ok None
  | Some q =>
      let? x := _coerce_numeric_token (group_text 1 q) in
      if is_negative x then value_error
      else Ok (Some (mkResult (OFloat x) (if approximate then float_lit 8 1 else certain) raw_value approximate []
                       (if approximate then Some (u "Approximate surface: " ++ raw_value) else None)))
  end.
(** The two bounds of a range, swapped when they are in the wrong order. *)
Definition in_order {A} (ltb : A → A → bool) (a b : A) : A * A := if ltb b a then (b, a) else (a, b).
(** One bound of a field as the value, the other as extracted. *)
Definition bounds_result (low_field high_field field_name : string) (low high : obj) (conf : float) (t : text) (review : bool)
    (remarks : option text) : normalize_result :=
  if bool_decide (field_name = low_field) then mkResult low conf t review [(high_field, high)] remarks
  else mkResult high conf t review [(low_field, low)] remarks.
(* src/core/importer/normalize_pipeline.py :: NormalizationPipeline._normalize_surface_range_value *)
Definition _normalize_surface_range_value (raw_value : text) (field_name : string) : res normalize_result :=
  let normalized := tstrip (re_sub _APPROXIMATE_PREFIX_PATTERN [] raw_value) in
  let bounds := bounds_result "surface_min" "surface_max" field_name in
  match re_match _SURFACE_RANGE_PATTERN normalized with
  | Some q =>
      let? low := _coerce_numeric_token (group_text 1 q) in
      let? high := _coerce_numeric_token (group_text 2 q) in
      if is_negative low || is_negative high then value_error
      else let '(low, high) := in_order flt low high in
           Ok (bounds (OFloat low) (OFloat high) certain raw_value false None)
  | None =>
      let? exact := _normalize_surface_scalar_value raw_value in
      match exact with
      | None => value_error
      | Some r =>
          match as_num (value r) with
          | None => value_error
          | Some n =>
              let? x := float_of_num n in
              Ok (bounds (OFloat x) (OFloat x) (confidence r) raw_value (needs_review r) (to_remarks r))
          end
      end
  end.
(* src/core/importer/normalize_pipeline.py :: NormalizationPipeline._normalize_beds_min_value *)
Definition _normalize_beds_min_value (raw_value : text) : res normalize_result :=
  let normalized := tstrip raw_value in
  if matches_some room_code normalized then
    Ok (mkResult ONone doubtful raw_value true [("candidate_pattern", OText normalized)]
          (Some (u "Beds value needs review: " ++ raw_value)))
  else
    match re_match _INTEGER_RANGE_PATTERN normalized with
    | Some q =>
        let? low := int_or_value_error (group_text 1 q) in
        let? high := int_or_value_error (group_text 2 q) in
        let '(low, high) := in_order Z.ltb low high in
        Ok (mkResult (OInt low) (float_lit 75 2) raw_value true [("candidate_max", OInt high)]
              (Some (u "Bedroom range needs review: " ++ raw_value)))
    | None =>
        match _parse_word_number normalized with
        | Some z => Ok (plain_result (OInt z) (float_lit 92 2) raw_value)
        | None =>
            let? z := _parse_integer_quantity_value normalized in
            if z <? 0 then value_error else Ok (plain_result (OInt z) certain raw_value)
        end
    end.
(* src/core/importer/normalize_pipeline.py :: NormalizationPipeline._normalize_floor_scalar_value *)
Definition _normalize_floor_scalar_value (raw_value : text) : res (option normalize_result) :=
  let normalized := tstrip raw_value in
  if matches_some _GROUND_FLOOR_PATTERN normalized then
    let review := contains (u "sur") (tlower normalized) in
    Ok (Some (mkResult (OInt 0) (if review then float_lit 75 2 else certain) raw_value review []
                (if review then Some (u "Raised ground floor needs review: " ++ raw_value) else None)))
  else
    match re_match _FLOOR_ORDINAL_PATTERN normalized with
    | Some q => let? z := int_or_value_error (group_text 1 q) in Ok (Some (plain_result (OInt z) certain raw_value))
    | None =>
        match _parse_word_number normalized with
        | Some z => Ok (Some (plain_result (OInt z) (float_lit 9 1) raw_value))
        | None => Ok None
        end
    end.
Definition int_of_num (n : num) : res Z := match n with NInt z => Ok z | NFloat x => int_of_float x end.
(* src/core/importer/normalize_pipeline.py :: NormalizationPipeline._normalize_floor_range_value *)
Definition _normalize_floor_range_value (raw_value : text) (field_name : string) : res normalize_result :=
  let t := tstrip raw_value in
  let bounds := bounds_result "floor_min" "floor_max" field_name in
  match or_else (re_match _FLOOR_TEXT_RANGE_PATTERN t) (re_match _INTEGER_RANGE_PATTERN t) with
  | Some q =>
      let? low := int_or_value_error (group_text 1 q) in
      let? high := int_or_value_error (group_text 2 q) in
      let '(low, high) := in_order Z.ltb low high in
      Ok (bounds (OInt low) (OInt high) certain raw_value false None)
  | None =>
      let? exact := _normalize_floor_scalar_value t in
      match exact with
      | None => value_error
      | Some r =>
          match as_num (value r) with
          | None => value_error
          | Some n =>
              let? z := int_of_num n in
              Ok (bounds (OInt z) (OInt z) (confidence r) raw_value (needs_review r) (to_remarks r))
          end
      end
  end.
Definition some_result (r : res normalize_result) : res (option normalize_result) := let? x := r in Ok (Some x).
(* src/core/importer/normalize_pipeline.py :: NormalizationPipeline._normalize_numeric_value *)
Definition _normalize_numeric_value (raw_value : text) (field_name : string) : res (option normalize_result) :=
  match tstrip raw_value with
  | [] => Ok None
  | t =>
      if is_in_names field_name ["surface_min"; "surface_max"] then some_result (_normalize_surface_range_value t field_name)
      else if is_in_names field_name ["floor_min"; "floor_max"] then some_result (_normalize_floor_range_value t field_name)
      else if bool_decide (field_name = "beds_min") then some_result (_normalize_beds_min_value t)
      else if bool_decide (field_name = "surface") then _normalize_surface_scalar_value t
      else if bool_decide (field_name = "floor") then _normalize_floor_scalar_value t
      else Ok None
  end.
(** The body of the [try] of [_normalize_numeric]. *)
Definition numeric_body (raw_value : text) (field_name : string) : res normalize_result :=
  let? normalized := _normalize_numeric_value raw_value field_name in
  match normalized with
  | Some r => Ok r
  | None =>
      let? n := _parse_numeric_value raw_value field_name in
      if is_negative n && negb (may_be_negative field_name) then
        Ok (mkResult ONone (float_lit 3 1) raw_value true [] (Some (u "Negative " ++ u field_name ++ u ": " ++ raw_value)))
      else if is_in_names field_name _INTEGER_QUANTITY_FIELDS then
        let? z := int_of_float n in Ok (plain_result (OInt z) certain raw_value)
      else Ok (plain_result (OFloat n) certain raw_value)
  end.
(* src/core/importer/normalize_pipeline.py :: NormalizationPipeline._normalize_numeric *)
Definition _normalize_numeric (raw_value : text) (field_name : string) : res normalize_result :=
  match numeric_body raw_value field_name with
  | Err (ValueError _) =>
      Ok (mkResult ONone doubtful raw_value true [] (Some (u "Cannot parse " ++ u field_name ++ u ": " ++ raw_value)))
  | r => r
  end.
End Numeric.

Example numeric_cells :
  map (λ e : string * string, (λ r, (value r, needs_review r, extracted_extras r)) <$>
         match _normalize_numeric (u e.1) e.2 with Ok r => Some r | Err _ => None end)
    [("120 m²", "surface"); ("environ 90m2", "surface"); ("80 à 60", "surface_min"); ("entre 2 et 4", "floor_max"); ("RDC", "floor");
     ("-1", "floor"); ("-5", "surface"); ("-3", "beds"); ("F3", "beds_min"); ("trois", "beds_min"); ("3 pièces", "rooms"); ("12 500", "budget")]
  = [Some (OFloat (of_Z 120), false, []); Some (OFloat (of_Z 90), true, []);
     Some (OFloat (of_Z 60), false, [("surface_max", OFloat (of_Z 80))]); Some (OInt 4, false, [("floor_min", OInt 2)]);
     Some (OInt 0, false, []); Some (OInt (-1), false, []); Some (ONone, true, []); Some (ONone, true, []);
     Some (ONone, true, [("candidate_pattern", OText (u "F3"))]); Some (OInt 3, false, []); Some (OInt 3, false, []);
     Some (OFloat (of_Z 12500), false, [])].
Proof. vm_compute. reflexivity. Qed.

(** ** The pipeline *)

(** What the pipeline uses besides: the spelling of sets, containers and texts in messages, rapidfuzz, and the master data. *)
Class PipelineEnv := {
  show_set : list string → text;
  show_container : obj → text;
  show_repr : obj → text;
  extractOne : text → list text → option (text * float);
  master : master_data
}.
(* src/core/importer/normalize_pipeline.py :: NormalizationPipeline.__init__ *)
Record pipeline := mkPipeline {
  pl_entity_type : string;
  pl_column_types : list (string * string);
  pl_field_metadata : list (string * list (string * obj))
}.
Definition new_pipeline (entity_type : string) (column_types : list (string * string)) (field_metadata : list (string * list (string * obj)))
  : pipeline := mkPipeline entity_type column_types (List.filter (λ e : string * list (string * obj), negb (blank (u e.1))) field_metadata).

Section Rows.
Context `{Unicode} `{PipelineEnv} (pl : pipeline).

Definition value_of {A} (k : string) (d : list (string * A)) : option A := snd <$> List.find (λ e : string * A, bool_decide (e.1 = k)) d.
Definition column_type (field_name : string) : string := default "unknown" (value_of field_name (pl_column_types pl)).
Definition field_meta (field_name : string) : list (string * obj) := default [] (value_of field_name (pl_field_metadata pl)).
Definition source_header (field_name : string) : obj :=
  OText (str_or_empty show_container (field_of "source_header" (field_meta field_name))).
(* src/core/importer/normalize_pipeline.py :: NormalizationPipeline.action *)
Definition action_entity : string :=
  if bool_decide (pl_entity_type pl = "demande") then "client"
  else if bool_decide (pl_entity_type pl = "offer") then "listing" else pl_entity_type pl.

Definition zfill2 (z : Z) : text := if z <? 10 then 48 :: text_of_Z z else text_of_Z z.
Definition wilaya_code_of (t : text) : option Z :=
  match int_of_text t with Some code => if in_range 1 58 code then Some code else None | None => None end.
Definition context_step (c : row_context) (e : string * obj) : row_context :=
  let '(field_name, v) := e in
  if falsy (Some v) then c
  else
    let raw := tstrip (str_of show_container v) in
    let ty := column_type field_name in
    if bool_decide (ty = "wilaya") then
      match wilaya_code_of raw with
      | Some code => mkContext (Some (zfill2 code)) (action_hint c) (type_hint c) (row_data c) (metadata c)
      | None => c
      end
    else if bool_decide (ty = "action") then mkContext (wilaya_hint c) (Some (tlower raw)) (type_hint c) (row_data c) (metadata c)
    else if bool_decide (ty = "type") then mkContext (wilaya_hint c) (action_hint c) (Some (tlower raw)) (row_data c) (metadata c)
    else c.
(* src/core/importer/normalize_pipeline.py :: NormalizationPipeline._build_context *)
Definition _build_context (row : list (string * obj)) : row_context :=
  foldl context_step
    (mkContext None None None
       (omap (λ e : string * obj, match e.2 with ONone => None | v => Some (e.1, str_of show_container v) end) row) [])
    row.
Definition update_with (d d' : list (string * obj)) : list (string * obj) := foldl (λ d e, put e.1 e.2 d) d d'.
(* src/core/importer/normalize_pipeline.py :: NormalizationPipeline._context_for_field *)
Definition _context_for_field (c : row_context) (field_name col_type : string) : row_context :=
  mkContext (wilaya_hint c) (action_hint c) (type_hint c) (row_data c)
    (put "column_type" (otext col_type) (put "field_name" (otext field_name) (update_with (metadata c) (field_meta field_name)))).

(* src/core/importer/normalize_pipeline.py :: NormalizationPipeline._normalize_wilaya *)
Definition _normalize_wilaya (raw_value : text) (c : row_context) : normalize_result :=
  match wilaya_code_of (tstrip raw_value) with
  | Some code => plain_result (OInt code) certain raw_value
  | None =>
      let r := normalize_location extractOne master (Some c) raw_value in
      if falsy (field_of "is_wilaya" (extracted_extras r)) then r
      else
        match int_of_text (str_of show_container (value r)) with
        | Some code => mkResult (OInt code) (confidence r) raw_value (needs_review r) (extracted_extras r) (to_remarks r)
        | None => r
        end
  end.
(* src/core/importer/normalize_pipeline.py :: NormalizationPipeline._normalize_passthrough *)
Definition _normalize_passthrough (raw_value : text) (field_name : string) : res normalize_result :=
  match sanitize_string show_container (OText raw_value) field_name 500 true with
  | Valid t => Ok (plain_result (OText t) certain raw_value)
  | Refused _ message =>
      Ok (mkResult ONone doubtful raw_value true [] (Some (u "Sanitization failed for " ++ u field_name ++ u ": " ++ u message)))
  | Raised e => Err e
  end.
(* src/core/importer/normalize_pipeline.py :: NormalizationPipeline._normalize_field *)
Definition _normalize_field (field_name : string) (raw_value : text) (col_type : string) (c : row_context) : res normalize_result :=
  if bool_decide (col_type = "phone") then Ok (normalize_phone raw_value)
  else if bool_decide (col_type = "price") then normalize_price show_container false (Some c) raw_value
  else if bool_decide (col_type = "location") then Ok (normalize_location extractOne master (Some c) raw_value)
  else if bool_decide (col_type = "wilaya") then Ok (_normalize_wilaya raw_value c)
  else if bool_decide (col_type = "type") then Ok (normalize_property_type raw_value)
  else if bool_decide (col_type = "action") then Ok (normalize_action show_set (Some action_entity) raw_value)
  else if is_in_names col_type _BOOLEAN_TYPES then Ok (normalize_boolean None raw_value)
  else if is_in_names col_type _NUMERIC_TYPES then _normalize_numeric raw_value field_name
  else _normalize_passthrough raw_value field_name.

(** ** One row *)

(* src/core/importer/normalize_pipeline.py :: NormalizationPipeline._review_field_metadata *)
Definition _review_field_metadata (field_name col_type : string) (r : normalize_result) : list (string * obj) :=
  let extras := extracted_extras r in
  let list_of (k : string) := match field_of k extras with Some (OList l) => l | _ => [] end in
  let candidates := list_of "interpretation_candidates" in
  let codes := list_of "price_ambiguity_reason_codes" in
  let phone_kind := str_or_empty show_container (field_of "phone_kind" extras) in
  [("column_type", otext col_type); ("extracted_extras", ODict extras); ("source_header", source_header field_name)]
  ++ match candidates with
     | [] => []
     | _ => [("interpretation_candidates", OList (List.filter (λ c, match c with ODict _ => true | _ => false end) candidates))]
     end
  ++ match codes with
     | [] => []
     | _ => [("price_ambiguity_reason_codes",
               OList (flat_map (λ c, match str_of show_container c with [] => [] | t => [OText t] end) codes))]
     end
  ++ match phone_kind with [] => [] | t => [("phone_kind", OText t)] end.

(** [f"{x:.0%}"] *)
Definition percent (x : float) : text :=
  match fmul x (of_Z 100) with
  | S754_finite s m e =>
      let n := half_even (if 0 <=? e then Z.pos m * 2 ^ e else Z.pos m) (if 0 <=? e then 1 else 2 ^ (- e)) in
      (if s then [45] else []) ++ text_of_Z n ++ [37]
  | _ => u "0%"
  end.
(** [repr(v)] *)
Definition repr_of (v : obj) : text :=
  match v with OText _ | OList _ | ODict _ => show_repr v | _ => str_of show_container v end.

Record row_acc := mkAcc {
  ac_data : list (string * obj);
  ac_confidence : float;
  ac_needs_review : bool;
  ac_review_fields : list review_field;
  ac_remarks : list text;
  ac_extras : list (string * obj);
  ac_conflicts : list extra_conflict;
  ac_results : list (string * normalize_result);
  ac_sources : list (string * (string * obj));
  ac_conflicted : list string
}.
Definition drop_key {A} (k : string) (d : list (string * A)) : list (string * A) := List.filter (λ e, negb (bool_decide (e.1 = k))) d.
(** One extracted value of a field: kept, repeated, or in conflict with that of another field. *)
Definition merge_extra (field_name col_type : string) (raw_str : text) (r : normalize_result) (acc : row_acc) (e : string * obj) : row_acc :=
  let '(key, v) := e in
  if negb (is_in_names key _MERGEABLE_EXTRACTED_EXTRA_KEYS) then acc
  else if is_in_names key (ac_conflicted acc) then acc
  else
    match field_of key (ac_extras acc) with
    | None =>
        mkAcc (ac_data acc) (ac_confidence acc) (ac_needs_review acc) (ac_review_fields acc) (ac_remarks acc) (put key v (ac_extras acc))
          (ac_conflicts acc) (ac_results acc) ((key, (field_name, v)) :: ac_sources acc) (ac_conflicted acc)
    | Some w =>
        if obj_eqb w v then acc
        else
          let '(first_field, first_value) := default (EmptyString, w) (value_of key (ac_sources acc)) in
          let remark := u "Conflicting extracted value for " ++ u key ++ u ": " ++ u (str_or first_field "unknown") ++ u "=" ++ repr_of first_value
                        ++ u " vs " ++ u field_name ++ u "=" ++ repr_of v in
          let details := ODict [("key", otext key); ("first_field", otext first_field); ("first_value", first_value);
                                ("second_field", otext field_name); ("second_value", v); ("reason_code", otext extra_conflict_code)] in
          mkAcc (ac_data acc) (ac_confidence acc) true
            (ac_review_fields acc ++ [mkReview field_name raw_str (value r) (py_fmin (confidence r) (float_lit 5 1)) remark
               [("column_type", otext col_type); ("extra_conflict", details); ("source_header", source_header field_name)]])
            (ac_remarks acc ++ [remark]) (drop_key key (ac_extras acc))
            (ac_conflicts acc ++ [mkConflict key first_field first_value field_name v])
            (ac_results acc) (drop_key key (ac_sources acc)) (key :: ac_conflicted acc)
    end.
Definition low_confidence (r : normalize_result) : bool := needs_review r || flt (confidence r) REVIEW_THRESHOLD.
Definition remark_or_low (r : normalize_result) : text :=
  match to_remarks r with Some ((_ :: _) as t) => t | _ => u "Low confidence: " ++ percent (confidence r) end.
Definition raw_text (v : obj) : text := match v with ONone => [] | _ => tstrip (str_of show_container v) end.
(** What a result adds to the row: its value, its extracted values, its remark, and itself when it is to be reviewed. *)
Definition take_result (field_name : string) (raw_str : text) (r : normalize_result) (acc : row_acc) : row_acc :=
  let col_type := column_type field_name in
  let acc := mkAcc (put field_name (value r) (ac_data acc)) (py_fmin (ac_confidence acc) (confidence r)) (ac_needs_review acc)
               (ac_review_fields acc) (ac_remarks acc) (ac_extras acc) (ac_conflicts acc)
               (ac_results acc ++ [(field_name, r)]) (ac_sources acc) (ac_conflicted acc) in
  let acc := foldl (merge_extra field_name col_type raw_str r) acc (extracted_extras r) in
  let acc := match to_remarks r with
             | Some ((_ :: _) as t) =>
                 mkAcc (ac_data acc) (ac_confidence acc) (ac_needs_review acc) (ac_review_fields acc) (ac_remarks acc ++ [t]) (ac_extras acc)
                   (ac_conflicts acc) (ac_results acc) (ac_sources acc) (ac_conflicted acc)
             | _ => acc
             end in
  if low_confidence r then
    mkAcc (ac_data acc) (ac_confidence acc) true
      (ac_review_fields acc ++ [mkReview field_name raw_str (value r) (confidence r) (remark_or_low r)
                                  (_review_field_metadata field_name col_type r)])
      (ac_remarks acc) (ac_extras acc) (ac_conflicts acc) (ac_results acc) (ac_sources acc) (ac_conflicted acc)
  else acc.
Fixpoint normalize_cells (c : row_context) (cells : list (string * obj)) (acc : row_acc) : res row_acc :=
  match cells with
  | [] => Ok acc
  | (field_name, v) :: cells' =>
      match raw_text v with
      | [] => normalize_cells c cells'
                (mkAcc (put field_name ONone (ac_data acc)) (ac_confidence acc) (ac_needs_review acc) (ac_review_fields acc) (ac_remarks acc)
                   (ac_extras acc) (ac_conflicts acc) (ac_results acc) (ac_sources acc) (ac_conflicted acc))
      | raw_str =>
          let? r := _normalize_field field_name raw_str (column_type field_name) (_context_for_field c field_name (column_type field_name)) in
          normalize_cells c cells' (take_result field_name raw_str r acc)
      end
  end.
(** Extracted values fill the keys the row does not have. *)
Definition merge_into_data (s : list (string * obj) * list text) (e : string * obj) : list (string * obj) * list text :=
  let '(key, v) := e in
  match field_of key s.1 with
  | None => (put key v s.1, s.2)
  | Some w =>
      if obj_eqb w v then s
      else (s.1, s.2 ++ [u "Extracted " ++ u key ++ u "=" ++ str_of show_container v
                         ++ u " from normalizer but explicit column has " ++ u key ++ u "=" ++ str_of show_container w])
  end.
Definition empty_acc : row_acc := mkAcc [] certain false [] [] [] [] [] [] [].
(* src/core/importer/normalize_pipeline.py :: NormalizationPipeline.normalize_row *)
Definition normalize_row (row : list (string * obj)) (given : option row_context) : res normalized_row :=
  let c := default (_build_context row) given in
  let? acc := normalize_cells c row empty_acc in
  let '(data, remarks) := foldl merge_into_data (ac_data acc, ac_remarks acc) (ac_extras acc) in
  Ok (mkRow data (ac_confidence acc) (ac_needs_review acc) (ac_review_fields acc) remarks (ac_extras acc) (ac_conflicts acc) (ac_results acc)).
End Rows.
