(* ===== verification/ImportPhoneProps.v ===== *)
(** * Phones, however they are written

    The same digits with other separators, Arabic digits or the country prefix are the same phone, and the two ways
    the program writes a phone are read back as that phone. *)

From S2P Require Import Prelude PyText PyRegex ImportText ImportTextProps ImportNumbers ImportNormalizers.
From Stdlib Require Import Ascii String SpecFloat.
Local Open Scope Z_scope.

Section Phones.
Context `{Unicode}.

Lemma all_chars (f : Z → bool) t : forallb f t = true → ∀ c, c ∈ t → f c = true.
Proof. intros Ht c Hc%list_elem_of_In. by eapply forallb_forall in Ht. Qed.

(** ** What filters see of white space *)

Lemma filter_squeeze g b t :
  (∀ c, is_space c = true → g c = false) → List.filter g (squeeze is_space [32] b t) = List.filter g t.
Proof.
  intros Hg. revert b. induction t as [|c t IH]; intros b; [done|]. cbn [squeeze]. destruct (is_space c) eqn:E.
  - rewrite List.filter_app, IH. cbn [List.filter]. rewrite (Hg c E). destruct b; [done|]. cbn. by rewrite (Hg 32 eq_refl).
  - cbn. by rewrite IH.
Qed.
Lemma filter_drop_space g (t : text) : (∀ c, is_space c = true → g c = false) → List.filter g (drop_space t) = List.filter g t.
Proof. intros Hg. induction t as [|c t IH]; [done|]. cbn. destruct (is_space c) eqn:E; [by rewrite (Hg c E)|done]. Qed.
Lemma filter_rev_text (g : Z → bool) t : List.filter g (rev t) = rev (List.filter g t).
Proof.
  induction t as [|c t IH]; [done|]. cbn. rewrite List.filter_app, IH. cbn. destruct (g c); [done|]. by rewrite app_nil_r.
Qed.
Lemma filter_tstrip g t : (∀ c, is_space c = true → g c = false) → List.filter g (tstrip t) = List.filter g t.
Proof. intros Hg. unfold tstrip. by rewrite filter_rev_text, filter_drop_space, filter_rev_text, rev_involutive, filter_drop_space. Qed.
Lemma filter_whitespace g t : (∀ c, is_space c = true → g c = false) → List.filter g (normalize_whitespace t) = List.filter g t.
Proof. intros Hg. by rewrite normalize_whitespace_squeeze, filter_tstrip, filter_squeeze. Qed.

(** ** Texts of digits, separators and signs *)

Definition latin_digit (c : Z) : bool := in_range 48 57 c.
Definition arabic_digit (c : Z) : bool := in_range 1632 1641 c || in_range 1776 1785 c.
Definition phone_mark (c : Z) : bool := is_one_of [32; 45; 46; 40; 41; 43] c.
Definition phone_char (c : Z) : bool := latin_digit c || arabic_digit c || phone_mark c.

Lemma phone_char_elem c : phone_char c = true →
  c ∈ seqZ 48 10 ++ seqZ 1632 10 ++ seqZ 1776 10 ++ [32; 45; 46; 40; 41; 43].
Proof.
  unfold phone_char, latin_digit, arabic_digit, phone_mark, is_one_of. rewrite !orb_true_iff, !in_range_true. rewrite !elem_of_app, !elem_of_seqZ.
  intros [[?|[?|?]]|Hc]; [left; lia|right; left; lia|do 2 right; left; lia|do 3 right].
  apply existsb_exists in Hc as (d & Hd & ->%Z.eqb_eq). by apply list_elem_of_In.
Qed.
Lemma phone_char_plain c : phone_char c = true →
  kept _TYPOGRAPHIC_TRANSLATION c ∧ kept _ACCENT_TRANSLATION c ∧ (∀ d, d ∈ image ARABIC_DIGITS c → latin_digit d || phone_mark d = true)
  ∧ c ≠ 38.
Proof.
  intros Hc%phone_char_elem. revert c Hc. apply Forall_forall.
  apply (Forall_impl (λ c, bool_decide (c ∉ keys _TYPOGRAPHIC_TRANSLATION) && bool_decide (c ∉ keys _ACCENT_TRANSLATION)
                           && forallb (λ d, latin_digit d || phone_mark d) (image ARABIC_DIGITS c) && negb (c =? 38) = true)).
  - apply (bool_decide_unpack _). vm_compute. exact I.
  - intros c. rewrite !andb_true_iff, !bool_decide_eq_true, forallb_forall, negb_true_iff, Z.eqb_neq. intros [[[? ?] Hd] ?].
    split_and!; try done. intros d Hin%list_elem_of_In. by apply Hd.
Qed.
Lemma no_ampersand t : (∀ c, c ∈ t → c ≠ 38) → contains (u "&nbsp;") t = false.
Proof.
  induction t as [|c t IH]; [done|]. intros Ht. cbn [contains]. apply orb_false_iff. split.
  - unfold startswith. apply bool_decide_eq_false. change (u "&nbsp;") with (38 :: u "nbsp;"). cbn [after_prefix].
    rewrite (proj2 (Z.eqb_neq 38 c)); [by intros [? ?]|]. symmetry. apply Ht, list_elem_of_here.
  - apply IH. intros d Hd. apply Ht. by apply list_elem_of_further.
Qed.
(** The canonical form of such a text: Latin digits, and white space as one space. *)
Lemma canonicalize_phone t :
  (∀ c, c ∈ t → phone_char c = true) → canonicalize_text t = normalize_whitespace (convert_arabic_digits t).
Proof.
  intros Ht. unfold canonicalize_text. cbv zeta. rewrite treplace_absent by (apply no_ampersand; intros c Hc; by apply phone_char_plain, Ht).
  rewrite (translate_fixed _TYPOGRAPHIC_TRANSLATION) by (intros c Hc; by apply phone_char_plain, Ht).
  assert (∀ d, d ∈ convert_arabic_digits t → latin_digit d || phone_mark d = true) as Hd.
  { intros d. unfold convert_arabic_digits, translate. rewrite list_elem_of_In, in_flat_map. setoid_rewrite <- list_elem_of_In.
    intros (c & Hc & Hin). by apply (phone_char_plain c (Ht c Hc)). }
  assert (∀ d, latin_digit d || phone_mark d = true → is_ascii d = true ∧ is_control d = false ∧ ascii_lower d = d ∧ kept _ACCENT_TRANSLATION d) as Hp.
  { intros d Hm. assert (phone_char d = true) as Hpc. { unfold phone_char. destruct (latin_digit d); [done|]. cbn [orb] in Hm. by rewrite Hm, orb_true_r. }
    split_and!; [..|by apply phone_char_plain];
      unfold latin_digit, phone_mark, is_one_of, existsb, is_ascii, is_control, ascii_lower, in_range in *; try lia.
    destruct ((65 <=? d) && (d <=? 90)) eqn:E; lia. }
  generalize dependent (convert_arabic_digits t). intros s Hs. unfold strip_accents. rewrite (translate_fixed _ACCENT_TRANSLATION) by (intros c Hc; by apply Hp, Hs).
  rewrite lower_ascii by (apply forallb_forall; intros c Hc%list_elem_of_In; by apply Hp, Hs).
  assert (map ascii_lower s = s) as -> by (rewrite <- (map_id s) at 2; apply map_ext_in; intros c Hc%list_elem_of_In; by apply Hp, Hs).
  rewrite filter_keeps; [done|]. intros c Hc. destruct (Hp c (Hs c Hc)) as (_ & -> & _). done.
Qed.

(** ** Labels need letters *)

Lemma strip_labels_no_letter t labels :
  (∀ c, c ∈ canonicalize_text t → in_range 97 122 c = false) →
  (∀ l, l ∈ map canonicalize_text labels → ∃ c, c ∈ l ∧ in_range 97 122 c = true) →
  strip_labels t labels = canonicalize_text t.
Proof.
  intros Ht Hl. unfold strip_labels. cbv zeta. destruct (canonicalize_text t) as [|c0 t0] eqn:E; [done|]. rewrite <- E in *. clear E c0 t0.
  destruct (re_match _LABEL_SEPARATOR_RE (canonicalize_text t)) as [q|] eqn:E; [|done]. apply re_match_sound in E.
  rewrite bool_decide_false; [done|]. intros Hin. apply Hl in Hin as (c & Hc & Hr).
  enough (c ∈ canonicalize_text t) as Hx by (rewrite (Ht c Hx) in Hr; done). revert Hc. unfold _LABEL_SEPARATOR_RE in E.
  apply mat_seq_inv in E as (p1 & Hp1 & (p2 & Hp2 & (p3 & (q1 & Hlab & Hb & Ha & Hg)%mat_grp_inv & Hrest)%mat_seq_inv)%mat_seq_inv).
  unfold group. rewrite (mat_group_free _ _ _ Hrest), Hg by done. cbn [List.find fst snd fmap option_fmap option_map default].
  intros Hc%(mat_elem _ _ _ _ Hlab). eapply mat_ahead_elem in Hc; [|exact Hp2]. by eapply mat_ahead_elem in Hc; [|exact Hp1].
Qed.

(** ** Reading a phone *)

(** The digits a text writes. *)
Definition digits_written (t : text) : text := List.filter latin_digit (convert_arabic_digits t).
Definition unsigned (t : text) : Prop := ∀ c, c ∈ t → phone_char c = true.

Lemma converted_chars t c : unsigned t → c ∈ convert_arabic_digits t → latin_digit c || phone_mark c = true.
Proof.
  intros Ht. unfold convert_arabic_digits, translate. rewrite list_elem_of_In, in_flat_map. setoid_rewrite <- list_elem_of_In.
  intros (d & Hd & Hin). by apply (phone_char_plain d (Ht d Hd)).
Qed.
(** Lower-case words are canonical. *)
Lemma canonicalize_word w : forallb (in_range 97 122) w = true → canonicalize_text w = w.
Proof.
  intros Hw. assert (∀ c, c ∈ w → in_range 97 122 c = true) as Hr by (intros c Hc%list_elem_of_In; by eapply forallb_forall in Hw).
  assert (∀ c, c ∈ w → is_space c = false ∧ is_control c = false ∧ ascii_lower c = c ∧ is_ascii c = true) as Hc.
  { intros c Hc%Hr. unfold is_space, is_control, ascii_lower, is_ascii, is_one_of, existsb, in_range in *.
    split_and!; try lia. destruct ((65 <=? c) && (c <=? 90)) eqn:E; lia. }
  apply canonicalize_fixed; [split|].
  - intros c Hin. assert (c ∈ seqZ 97 26) as H97 by (apply elem_of_seqZ; apply Hr, in_range_true in Hin; lia).
    revert c H97 Hin. clear. intros c H97 _. revert c H97. apply Forall_forall. apply (bool_decide_unpack _). vm_compute. exact I.
  - intros c (_ & _ & Hl & Ha)%Hc. rewrite lower_ascii by (cbn; by rewrite Ha). cbn. by rewrite Hl.
  - intros c Hin. by apply Hc.
  - split; [intros c Hin; destruct (Hc c Hin) as [-> _]; done|]. intros a b ->.
    destruct (Hc 32) as [Hs _]; [|done]. apply elem_of_app. right. apply list_elem_of_here.
  - apply tstrip_fixed.
    + destruct w as [|c w]; [done|]. apply Hc, list_elem_of_here.
    + destruct (rev w) as [|c w'] eqn:E; [done|]. apply Hc. apply list_elem_of_In, in_rev. rewrite E. by left.
  - apply no_ampersand. intros c Hin%Hr ->. done.
Qed.
Lemma labels_have_letters l : l ∈ map canonicalize_text phone_labels → ∃ c, c ∈ l ∧ in_range 97 122 c = true.
Proof.
  rewrite list_elem_of_In, in_map_iff. intros (w & <- & Hin%list_elem_of_In).
  assert (forallb (in_range 97 122) w = true ∧ w ≠ []) as [Hw Hn].
  { revert w Hin. apply Forall_forall. apply (bool_decide_unpack _). vm_compute. exact I. }
  rewrite canonicalize_word by done. destruct w as [|c w]; [done|]. exists c. split; [apply list_elem_of_here|].
  cbn in Hw. by apply andb_true_iff in Hw as [? _].
Qed.

(** The cells read: no sign, or the country prefix. *)
Lemma phone_digits_written t :
  unsigned t →
  phone_digits t =
    (let phone := List.filter is_decimal (country_prefix (List.filter (λ c, negb (phone_separator c)) (convert_arabic_digits t))) in
     match phone with
     | c :: _ => if (Z.of_nat (List.length phone) =? 9) && is_one_of (u "567") c then 48 :: phone else phone
     | [] => phone
     end).
Proof.
  intros Ht. unfold phone_digits. cbv zeta.
  assert (∀ c, c ∈ canonicalize_text t → latin_digit c || phone_mark c = true) as Hchars.
  { rewrite (canonicalize_phone t Ht). intros c [->|[Hc _]]%normalize_whitespace_elem; [done|]. by eapply converted_chars. }
  assert (canonicalize_text (canonicalize_text t) = canonicalize_text t) as Htwice.
  { apply canonicalize_fixed; [apply canonicalize_canonical|]. apply no_ampersand. intros c Hc%Hchars ->. done. }
  rewrite strip_labels_no_letter, Htwice; [|rewrite Htwice|exact labels_have_letters].
  2: { intros c Hc%Hchars. unfold latin_digit, phone_mark, is_one_of, existsb, in_range in *. lia. }
  clear Htwice. rewrite (canonicalize_phone t Ht) in Hchars |- *.
  assert (∀ x y s, (∀ c, c ∈ s → c ≠ x) → replace1 x y s = s) as Hrep.
  { intros x y s. induction s as [|c s IH]; intros Hs; [done|]. cbn. rewrite (proj2 (Z.eqb_neq _ _)) by (apply Hs, list_elem_of_here).
    cbn. f_equal. apply IH. intros d Hd. apply Hs. by apply list_elem_of_further. }
  assert (∀ c, c ∈ normalize_whitespace (convert_arabic_digits t) → c < 128) as Hsmall.
  { intros c Hc%Hchars. unfold latin_digit, phone_mark, is_one_of, existsb, in_range in *. lia. }
  rewrite (Hrep 65291) by (intros c Hc ->; by apply Hsmall in Hc). rewrite (Hrep 10133) by (intros c Hc ->; by apply Hsmall in Hc).
  rewrite re_sub_removes, filter_whitespace by (intros c Hc; unfold phone_separator; by rewrite Hc).
  rewrite re_sub_filter. by rewrite (List.filter_ext _ is_decimal) by (intros c; apply negb_involutive).
Qed.

(** A national number: ten Latin digits, a zero and not another. *)
Definition is_phone (p : text) : Prop :=
  List.length p = 10%nat ∧ (∀ c, c ∈ p → latin_digit c = true) ∧ ∃ d rest, p = 48 :: d :: rest ∧ d ≠ 48 ∧ d ≠ 49.
Definition reads_as (t p : text) : Prop := value (normalize_phone t) = OText p ∧ needs_review (normalize_phone t) = false.

Lemma latin_decimal c : latin_digit c = true → is_decimal c = true.
Proof.
  intros Hc. apply bool_decide_eq_true. exists (c - 48). unfold latin_digit in Hc. rewrite decimal_ascii, Hc; [done|].
  unfold is_ascii, in_range in *. lia.
Qed.
Lemma after_prefix_app p t : after_prefix p (p ++ t) = Some t.
Proof. induction p as [|c p IH]; [done|]. cbn. by rewrite Z.eqb_refl. Qed.
Lemma phone_read t p : is_phone p → blank t = false → phone_digits t = p → reads_as t p.
Proof.
  intros (Hl & Hd & d & rest & E & H0 & H1) Hb Ht. unfold reads_as, normalize_phone. rewrite Hb. cbv zeta. rewrite Ht, Hl.
  cbn [negb Z.of_nat Z.eqb Pos.of_succ_nat Pos.succ Pos.eqb].
  assert (slice 0 2 p = [48; d]) as -> by by rewrite E.
  assert (d ∈ [50; 51; 52; 53; 54; 55; 56; 57]) as Hin.
  { assert (latin_digit d = true) as Hr by (apply Hd; rewrite E; apply list_elem_of_further, list_elem_of_here).
    apply in_range_true in Hr. rewrite !elem_of_cons. lia. }
  clear - Hin. revert d Hin. apply Forall_forall. repeat constructor; by vm_compute.
Qed.
Lemma country_prefix_none p : is_phone p → country_prefix p = p.
Proof.
  intros (_ & _ & d & rest & -> & H0 & _). unfold country_prefix.
  change (after_prefix (u "+213") (48 :: d :: rest)) with (@None text). change (after_prefix (u "213") (48 :: d :: rest)) with (@None text).
  change (after_prefix (u "00213") (48 :: d :: rest)) with (if 48 =? d then after_prefix [50; 49; 51] rest else None).
  by rewrite (proj2 (Z.eqb_neq 48 d)) by congruence.
Qed.
Lemma filter_decimals p : (∀ c, c ∈ p → latin_digit c = true) → List.filter is_decimal p = p.
Proof. intros Hp. apply filter_keeps. intros c Hc. by apply latin_decimal, Hp. Qed.
Lemma converted_app s t : convert_arabic_digits (s ++ t) = convert_arabic_digits s ++ convert_arabic_digits t.
Proof. apply flat_map_app. Qed.
(** Without a sign, what remains beside the separators are the digits. *)
Lemma filter_separators t :
  unsigned t → 43 ∉ t → List.filter (λ c, negb (phone_separator c)) (convert_arabic_digits t) = digits_written t.
Proof.
  intros Ht Hp. unfold digits_written. apply List.filter_ext_in. intros c Hc%list_elem_of_In. pose proof (converted_chars t c Ht Hc) as Hr.
  assert (c ≠ 43) as Hn.
  { intros ->. apply translate_elem in Hc as [[Hc _]|Hc]; [done|]. revert Hc. refine (proj1 (bool_decide_eq_false _) _). vm_compute. reflexivity. }
  unfold latin_digit, phone_mark, phone_separator, is_space, is_one_of, existsb, in_range in *. lia.
Qed.
Lemma written_digit c t : c ∈ digits_written t → latin_digit c = true.
Proof. by intros [? _]%elem_of_filter_b. Qed.
Lemma blank_written t : digits_written t ≠ [] → unsigned t → blank t = false.
Proof.
  intros Hd Ht. unfold blank. destruct (tstrip t) eqn:E; [|done]. destruct Hd.
  assert (∀ c, c ∈ t → c = 32) as Hs.
  { intros c Hc. destruct (decide (c = 32)) as [|Hn]; [done|]. exfalso.
    assert (List.filter (λ c, negb (is_space c)) (tstrip t) = List.filter (λ c, negb (is_space c)) t) as Hf by (apply filter_tstrip; intros d ->; done).
    rewrite E in Hf. assert (c ∈ List.filter (λ c, negb (is_space c)) t) as Hin.
    { apply elem_of_filter_b. split; [|done]. specialize (Ht c Hc).
      unfold phone_char, latin_digit, arabic_digit, phone_mark, is_space, is_one_of, existsb, in_range in *. lia. }
    rewrite <- Hf in Hin. by apply elem_of_nil in Hin. }
  unfold digits_written. clear -Hs. induction t as [|c t IH]; [done|]. rewrite (Hs c) by apply list_elem_of_here.
  change (32 :: t) with ([32] ++ t). rewrite converted_app. change (convert_arabic_digits [32]) with [32].
  change (List.filter latin_digit (convert_arabic_digits t) = []). apply IH.
  intros d Hd. apply Hs. by apply list_elem_of_further.
Qed.

(** The prefixes of a phone: the zero, the country with a plus or two zeros. *)
Lemma national_read t p : is_phone p → unsigned t → 43 ∉ t → digits_written t = p → reads_as t p.
Proof.
  intros Hp Ht Hs Hw. apply phone_read; [done|apply blank_written; [rewrite Hw; by destruct Hp as (_ & _ & ? & ? & -> & _)|done]|].
  rewrite (phone_digits_written t Ht), filter_separators, Hw, country_prefix_none by done. cbv zeta. destruct Hp as (Hl & Hd & d & rest & -> & _).
  rewrite filter_decimals by done. rewrite Hl. done.
Qed.
Lemma international_read prefix t p :
  prefix ∈ [u "+213"; u "00213"] → is_phone (48 :: p) → unsigned t → 43 ∉ t → digits_written t = p → reads_as (prefix ++ t) (48 :: p).
Proof.
  intros Hpre Hp Ht Hs Hw.
  assert (unsigned prefix ∧ convert_arabic_digits prefix = prefix ∧ List.filter (λ c, negb (phone_separator c)) prefix = prefix
    ∧ (∀ q, List.length q = 9%nat → (∀ c, c ∈ q → latin_digit c = true) → country_prefix (prefix ++ q) = 48 :: q) ∧ digits_written prefix ≠ []) as (Hu & Hc & Hf & Hcp & Hne).
  { revert Hpre. clear. rewrite !elem_of_cons, elem_of_nil. intros [->|[->|[]]].
    - split_and!; [refine (all_chars phone_char _ _); vm_compute; reflexivity|done|done| |done].
      intros q _ _. unfold country_prefix. by rewrite after_prefix_app.
    - split_and!; [refine (all_chars phone_char _ _); vm_compute; reflexivity|done|done| |done].
      intros q _ _. unfold country_prefix. change (u "00213" ++ q) with (48 :: 48 :: 50 :: 49 :: 51 :: q). done. }
  assert (unsigned (prefix ++ t)) as Hut by (intros c [?|?]%elem_of_app; auto).
  assert (List.length p = 9%nat ∧ ∀ c, c ∈ p → latin_digit c = true) as [Hlen Hdig].
  { destruct Hp as (Hl & Hd & _). split; [by injection Hl|]. intros c Hin. apply Hd. by apply list_elem_of_further. }
  apply phone_read; [done| |].
  { apply blank_written; [|done]. unfold digits_written in *. rewrite converted_app, List.filter_app. intros [? _]%app_eq_nil. done. }
  rewrite (phone_digits_written _ Hut), converted_app, List.filter_app, Hc, Hf, filter_separators, Hw, Hcp by done.
  cbv zeta. destruct Hp as (Hl & Hd & _). rewrite filter_decimals by done. by rewrite Hl.
Qed.

(** ** The two ways the program writes a phone *)

Lemma written_latin t : (∀ c, c ∈ t → latin_digit c || (c =? 32) = true) → unsigned t ∧ (43 ∉ t) ∧ digits_written t = List.filter latin_digit t.
Proof.
  intros Ht. split_and!.
  - intros c Hc%Ht. unfold phone_char, phone_mark, is_one_of, existsb. destruct (latin_digit c); [done|]. cbn in Hc. rewrite Hc. by destruct (arabic_digit c).
  - intros Hc%Ht. done.
  - unfold digits_written, convert_arabic_digits. rewrite translate_fixed; [done|]. intros c Hc%Ht.
    assert (c ∈ 32 :: seqZ 48 10) as Hin by (unfold latin_digit, in_range in Hc; rewrite elem_of_cons, elem_of_seqZ; lia).
    revert c Hin Hc. clear. intros c Hin _. revert c Hin. apply Forall_forall. apply (bool_decide_unpack _). vm_compute. exact I.
Qed.
Ltac ten_digits p Hl :=
  do 10 (destruct p as [|? p]; [discriminate Hl|]); destruct p; [clear Hl|discriminate Hl].
Lemma written_forms p :
  List.length p = 10%nat → (∀ c, c ∈ p → latin_digit c = true) →
  (∀ c, c ∈ phone_display p → latin_digit c || (c =? 32) = true) ∧ List.filter latin_digit (phone_display p) = p
  ∧ ∃ t, phone_international p = u "+213" ++ t ∧ (∀ c, c ∈ t → latin_digit c || (c =? 32) = true) ∧ List.filter latin_digit t = List.tl p.
Proof.
  intros Hl Hd. ten_digits p Hl.
  repeat match type of Hd with ∀ c, c ∈ ?x :: ?l → _ =>
    let E := fresh "E" in assert (latin_digit x = true) as E by (apply Hd, list_elem_of_here);
    let Hd' := fresh "Hd" in assert (∀ c, c ∈ l → latin_digit c = true) as Hd' by (intros ? ?; apply Hd; by apply list_elem_of_further);
    clear Hd; rename Hd' into Hd end.
  assert (latin_digit 32 = false) as E32 by done.
  unfold phone_display, phone_international, slice. cbn [List.length Z.of_nat Z.eqb Pos.eqb Pos.of_succ_nat Pos.succ Nat.sub drop take join_texts app].
  change (Z.of_nat 10 =? 10) with true. cbv iota. change (u "+213 ") with (u "+213" ++ [32]). rewrite <- app_assoc. cbn [app].
  split_and!; [|cbn [List.filter]; rewrite ?E32; by repeat match goal with E : latin_digit _ = true |- _ => rewrite ?E; clear E end|].
  - intros c Hc. repeat (apply elem_of_cons in Hc as [->|Hc]; [by rewrite ?orb_true_r; repeat match goal with E : latin_digit _ = true |- _ => rewrite ?E; clear E end|]).
    by apply elem_of_nil in Hc.
  - eexists. split; [reflexivity|]. split.
    + intros c Hc. repeat (apply elem_of_cons in Hc as [->|Hc]; [by rewrite ?orb_true_r; repeat match goal with E : latin_digit _ = true |- _ => rewrite ?E; clear E end|]).
      by apply elem_of_nil in Hc.
    + cbn [List.filter List.tl]. rewrite ?E32. by repeat match goal with E : latin_digit _ = true |- _ => rewrite ?E; clear E end.
Qed.
End Phones.


