(* ===== verification/ImportPriceProps.v ===== *)
(** * Prices are not guessed

    Where the value of a price comes from, and its sign. *)

From S2P Require Import Prelude PyValue PyFloat PyText PyRegex ImportText ImportNumbers ImportNormalizers ImportPrice.
From Stdlib Require Import Ascii String SpecFloat.
Local Open Scope Z_scope.

(** ** Signs *)

(** A float without a minus sign, NaN included. *)
Definition unsigned_float (x : float) : bool :=
  match x with S754_zero s | S754_infinity s | S754_finite s _ _ => negb s | S754_nan => true end.
Lemma unsigned_not_negative x : unsigned_float x = true → is_negative x = false.
Proof. by destruct x as [[]|[]| |[] m e]. Qed.
Lemma round_aux_unsigned m e l : unsigned_float (binary_round_aux 53 1024 false m e l) = true.
Proof.
  unfold binary_round_aux. destruct (shr_fexp _ _ _ _ _) as [mrs e']. destruct (shr_fexp _ _ _ _ _) as [mrs' e''].
  destruct (shr_m mrs') as [|p|p]; [done| |done]. by destruct (_ <=? _)%Z.
Qed.
Lemma binary_round_unsigned p e : unsigned_float (binary_round 53 1024 false p e) = true.
Proof. unfold binary_round. destruct (shl_align _ _ _). apply round_aux_unsigned. Qed.
Lemma normalize_unsigned z e : 0 <= z → unsigned_float (binary_normalize 53 1024 z e false) = true.
Proof. destruct z; [done| |lia]. intros _. apply binary_round_unsigned. Qed.
Lemma of_Z_unsigned z : 0 <= z → unsigned_float (of_Z z) = true.
Proof. apply normalize_unsigned. Qed.
Lemma of_ratio_unsigned n d : unsigned_float (of_ratio false n d) = true.
Proof. unfold of_ratio. destruct (SFdiv_core_binary _ _ _ _ _ _) as [[q e] l]. apply round_aux_unsigned. Qed.
Lemma mul_unsigned x y : unsigned_float x = true → unsigned_float y = true → unsigned_float (fmul x y) = true.
Proof. destruct x as [[]|[]| |[] m e], y as [[]|[]| |[] m' e']; cbn; try done; intros _ _; apply round_aux_unsigned. Qed.
Lemma add_unsigned x y : unsigned_float x = true → unsigned_float y = true → unsigned_float (fadd x y) = true.
Proof.
  destruct x as [[]|[]| |[] m e], y as [[]|[]| |[] m' e']; cbn -[binary_normalize]; try done. intros _ _. apply normalize_unsigned.
  cbn. lia.
Qed.
Lemma div_unsigned x y : unsigned_float x = true → unsigned_float y = true → unsigned_float (SFdiv 53 1024 x y) = true.
Proof.
  destruct x as [[]|[]| |[] m e], y as [[]|[]| |[] m' e']; cbn; try done. intros _ _. unfold SFdiv.
  destruct (SFdiv_core_binary _ _ _ _ _ _) as [[q' e''] l]. apply round_aux_unsigned.
Qed.
Lemma of_decimal_unsigned c k : unsigned_float (of_decimal false c k) = true.
Proof. unfold of_decimal. destruct c; [done| |done]. destruct (0 <=? k); apply of_ratio_unsigned. Qed.
Create HintDb floats.
#[export] Hint Resolve of_Z_unsigned mul_unsigned add_unsigned div_unsigned : floats.

(** A text that starts with a digit is read as a float without a sign. *)
Lemma parse_unsigned_unsigned s x : parse_unsigned false s = Some x → unsigned_float x = true.
Proof.
  unfold parse_unsigned. repeat case_bool_decide; try by intros [= <-].
  destruct (digit_run 0 0 s) as [[a n] rest]. cbn [orb]. set (p := match rest with EmptyString => _ | String _ _ => _ end).
  destruct p as [[[c f] d] tail]. destruct (0 <? d); [|done]. destruct (exponent tail) as [e|]; [|done]. intros [= <-]. apply of_decimal_unsigned.
Qed.

Fixpoint in_str (c : ascii) (s : string) : Prop := match s with EmptyString => False | String d s' => c = d ∨ in_str c s' end.
Lemma in_lstrip c s : in_str c (lstrip s) → in_str c s.
Proof. induction s as [|d s IH]; [done|]. cbn. destruct (Prelude.is_space d); [auto|done]. Qed.
Lemma in_rstrip c s : in_str c (rstrip s) → in_str c s.
Proof.
  induction s as [|d s IH]; [done|]. cbn. destruct (rstrip s) as [|e t]; [|intros [?|?]; auto].
  destruct (Prelude.is_space d); [done|]. cbn. tauto.
Qed.
Lemma strip_head s c t : strip s = String c t → in_str c s.
Proof. intros E. apply in_lstrip, in_rstrip. unfold strip in E. rewrite E. by left. Qed.

Section Prices.
Context `{Unicode}.

Lemma to_ascii_minus c : to_ascii c = "-"%char → c = 45.
Proof.
  unfold to_ascii. destruct (decimal c) as [d|] eqn:Ed.
  - apply decimal_value in Ed. intros E. exfalso. assert (d ∈ seqZ 0 10) as Hd by (apply elem_of_seqZ; lia).
    clear Ed. revert E. revert d Hd. refine (proj1 (Forall_forall (λ d, ascii_of_N (Z.to_N (48 + d)) = "-"%char → False) _) _). by repeat constructor.
  - destruct (is_ascii c) eqn:Ea; [|by destruct (is_space c)]. intros E. apply in_range_true in Ea.
    assert (N_of_ascii (ascii_of_N (Z.to_N c)) = N_of_ascii "-") as En by by rewrite E.
    rewrite N_ascii_embedding in En by lia. change (N_of_ascii "-") with 45%N in En. lia.
Qed.
Lemma in_ascii_text c t : in_str c (ascii_text t) → ∃ d, d ∈ t ∧ to_ascii d = c.
Proof.
  induction t as [|d t IH]; [done|]. cbn. intros [->|Hc]; [exists d; by split; [apply list_elem_of_here|]|].
  destruct (IH Hc) as (e & He & Ee). exists e. by split; [apply list_elem_of_further|].
Qed.
Lemma float_of_text_unsigned t x : 45 ∉ t → float_of_text t = Some x → unsigned_float x = true.
Proof.
  intros Ht. unfold float_of_text, py_float. destruct (strip (ascii_text t)) as [|c s] eqn:E; [done|].
  destruct (Prelude.code c =? 45)%N eqn:Ec.
  - exfalso. apply strip_head, in_ascii_text in E as (d & Hd & Ed). apply Ht. enough (d = 45) as <- by done. apply to_ascii_minus. rewrite Ed.
    apply N.eqb_eq in Ec. unfold Prelude.code in Ec. rewrite <- (ascii_N_embedding c), Ec. done.
  - destruct (Prelude.code c =? 43)%N; apply parse_unsigned_unsigned.
Qed.

(** ** What the groups of a pattern read *)

Fixpoint group_reads (P : Z → Prop) (r : regex) : Prop :=
  match r with
  | Grp _ a => reads P a ∧ group_reads P a
  | Seq a b | Alt a b => group_reads P a ∧ group_reads P b
  | Star _ a => group_reads P a
  | _ => True
  end.
Definition groups_in (P : Z → Prop) (p : pos) : Prop := ∀ n w, (n, w) ∈ groups p → ∀ c, c ∈ w → P c.
Lemma mat_groups_in P r p q : mat r p q → group_reads P r → groups_in P p → groups_in P q.
Proof.
  induction 1 as [f l c t g Hf|p|a b p q r _ IH1 _ IH2|a b p q _ IH|a b p q _ IH|gr a p|gr a p q r _ IH1 _ _ IH2|n a p q Hm IH|t g|p|p];
    cbn; try done.
  - intros [Ha Hb] Hp. auto.
  - intros [Ha _]. by apply IH.
  - intros [_ Hb]. by apply IH.
  - auto.
  - intros [Ha Hg] Hp m w [Hin|Hin]%elem_of_cons; [|by eapply IH]. injection Hin as -> ->. by eapply between_reads.
Qed.
Lemma match_group P r t q n c :
  re_match r t = Some q → group_reads P r → c ∈ default [] (group n q) → P c.
Proof.
  intros Hm%re_match_sound Hr. unfold group. destruct (List.find _ (groups q)) as [[m w]|] eqn:E; cbn; [|by intros ?%elem_of_nil].
  apply find_some in E as [Hin _]. intros Hc.
  refine (mat_groups_in P _ _ _ Hm Hr _ m w _ c Hc); [by intros ? ? ?%elem_of_nil|by apply list_elem_of_In].
Qed.
Definition not_minus (c : Z) : Prop := c ≠ 45.
Lemma digit_not_minus c : is_decimal c = true → not_minus c.
Proof. intros Hc ->. unfold is_decimal in Hc. by rewrite decimal_ascii in Hc. Qed.
Lemma sep_not_minus c : dot_or_comma c = true → not_minus c.
Proof. unfold dot_or_comma, not_minus. lia. Qed.
Lemma symbol_not_minus c : is_one_of [109; 77] c = true → not_minus c.
Proof. unfold is_one_of, existsb, not_minus. lia. Qed.
Hint Resolve digit_not_minus sep_not_minus symbol_not_minus : core.
Lemma as_float_unsigned t x : 45 ∉ t → _as_float t = Ok x → unsigned_float x = true.
Proof.
  intros Ht. unfold _as_float. destruct (float_of_text _) as [y|] eqn:E; [|done]. intros [= <-]. eapply float_of_text_unsigned; [|done].
  unfold replace1. rewrite list_elem_of_In, in_flat_map. intros (d & Hd%list_elem_of_In & Hc). destruct (d =? 44); destruct Hc as [Hc|[]]; [done|by subst].
Qed.
Lemma amount_unsigned r t q n x :
  re_match r t = Some q → group_reads not_minus r → _as_float (default [] (group n q)) = Ok x → unsigned_float x = true.
Proof. intros Hm Hr. apply as_float_unsigned. intros Hc. by apply (match_group not_minus r t q n 45 Hm Hr Hc). Qed.

(** ** Candidates *)

Definition num_unsigned (n : num) : bool := match n with NInt z => 0 <=? z | NFloat x => unsigned_float x end.
(** The value of a reading: without a sign, and an integer when it is integral. *)
Definition good_candidate (c : price_candidate) : Prop :=
  _finalize_number (normalized_dzd c) = normalized_dzd c
  ∧ (∀ n, normalized_dzd c = Some n → num_unsigned n = true) ∧ is_negative_candidate c = false.
Lemma finalize_idem n : _finalize_number (_finalize_number n) = _finalize_number n.
Proof.
  destruct n as [[z|x]|]; [done| |done]. cbn. destruct (int_of_float x) as [z|] eqn:E; [|cbn; by rewrite E].
  destruct (is_integer x) eqn:Ei; [done|]. cbn. by rewrite E, Ei.
Qed.
Lemma finalize_unsigned x n : unsigned_float x = true → _finalize_number (Some (NFloat x)) = Some n → num_unsigned n = true.
Proof.
  intros Hx. cbn. destruct (int_of_float x) as [z|] eqn:E; [|by intros [= <-]]. destruct (is_integer x); intros [= <-]; [|done]. cbn.
  destruct x as [| | |[] m e]; cbn in E, Hx; try done; injection E as <-; [done|]. unfold float_trunc. apply Z.leb_le.
  destruct (Z.leb_spec 0 e); [apply Z.mul_nonneg_nonneg; [lia|apply Z.pow_nonneg; lia]|apply Z.div_pos; [lia|apply Z.pow_pos_nonneg; lia]].
Qed.

Lemma float_candidate_good x d k conf reasons extras :
  unsigned_float x = true → field_of "negative_price_detected" extras = None → good_candidate (float_candidate x d k conf reasons extras).
Proof.
  intros Hx He. split_and!; [apply finalize_idem|by intros n; apply finalize_unsigned|]. unfold is_negative_candidate. change (pc_extras _) with extras. by rewrite He.
Qed.
Fixpoint ends_eol (r : regex) : bool := match r with Eol => true | Seq _ b => ends_eol b | _ => false end.
Lemma mat_at_end r p q : mat r p q → ends_eol r = true → at_end q = true.
Proof. induction 1; cbn; try done; auto. Qed.
(** A pattern up to the end of the text reads all of it, save a last line feed. *)
Lemma matched_reads P r t : matches_some r t = true → reads P r → ends_eol r = true → P 10 → ∀ c, c ∈ t → P c.
Proof.
  intros (q & Hq)%matches_some_spec Hr He H10 c Hc. pose proof (mat_at_end _ _ _ Hq He) as Hend.
  destruct (mat_reads P _ _ _ Hq Hr) as (w & Ea & _ & Hw). cbn in Ea. rewrite Ea in Hc. apply elem_of_app in Hc as [Hc|Hc]; [by apply Hw|].
  unfold at_end in Hend. destruct (ahead q) as [|d [|]]; [by apply elem_of_nil in Hc| |done]. apply Z.eqb_eq in Hend as ->.
  by apply list_elem_of_singleton in Hc as ->.
Qed.
Lemma space_not_minus c : is_space c = true → not_minus c.
Proof. by intros Hc ->. Qed.
Lemma eqb_not_minus d c : d ≠ 45 → (d =? c) = true → not_minus c.
Proof. unfold not_minus. lia. Qed.
Hint Resolve space_not_minus eqb_not_minus : core.
Lemma replace_not_minus x y t : 45 ∉ y → (∀ c, c ∈ t → not_minus c) → 45 ∉ replace1 x y t.
Proof.
  intros Hy Ht. unfold replace1. rewrite list_elem_of_In, in_flat_map. intros (d & Hd%list_elem_of_In & Hc). destruct (d =? x).
  - apply Hy. by apply list_elem_of_In.
  - destruct Hc as [->|[]]. by apply (Ht 45).
Qed.
Ltac good_amounts :=
  repeat match goal with
  | |- context [res_bind (_as_float ?t) _] => let E := fresh "E" in destruct (_as_float t) eqn:E; cbn [res_bind]; [|done]
  end; intros [= <-]; repeat apply Forall_cons_2; try apply Forall_nil_2; apply float_candidate_good; auto with floats.
Lemma grouped_nonneg core n : _grouped_integer core = Ok (Some n) → 0 <= n.
Proof.
  unfold _grouped_integer.
  assert (∀ t, 45 ∉ t → some_int (int_or_error t) = Ok (Some n) → 0 <= n) as Ht.
  { intros t Ht. unfold some_int, int_or_error, int_of_text. destruct (max_str_digits <? _); [done|]. cbn.
    destruct (PyValue.parse_int (ascii_text t)) as [z|] eqn:E; [|done]. cbn. intros [= <-]. unfold PyValue.parse_int in E.
    assert (∀ s acc b z, 0 <= acc → digits_val acc b s = Some z → 0 <= z) as Hd.
    { clear. induction s as [|c s IH]; intros acc b z Ha; cbn; [destruct b; [by intros [= <-]|done]|]. destruct (is_digit c) eqn:Ed.
      - apply IH. lia.
      - destruct ((Prelude.code c =? 95)%N && b); [|done]. destruct s; [done|]. by apply IH. }
    destruct (strip (ascii_text t)) as [|c s] eqn:Es; [done|]. destruct (Prelude.code c =? 45)%N eqn:Ec.
    - exfalso. apply strip_head, in_ascii_text in Es as (d & Hd' & Ed). apply Ht. enough (d = 45) as <- by done. apply to_ascii_minus. rewrite Ed.
      apply N.eqb_eq in Ec. unfold Prelude.code in Ec. rewrite <- (ascii_N_embedding c), Ec. done.
    - destruct (Prelude.code c =? 43)%N; eapply Hd; try exact E; done. }
  assert (∀ sep, reads not_minus sep → matches_some (grouped sep) core = true → ∀ c, c ∈ core → not_minus c) as Hg.
  { intros sep Hsep Hm. apply (matched_reads _ _ _ Hm); [|done|done]. cbn. by repeat split; auto. }
  assert (45 ∉ @nil Z) as Hnil by apply not_elem_of_nil.
  repeat match goal with |- context [if matches_some ?r core then _ else _] => destruct (matches_some r core) eqn:?E end; try done;
    apply Ht; [apply replace_not_minus, (Hg space); [done|exact space_not_minus|done]
              |apply replace_not_minus, (Hg (chr 46)); [done|intros c; by apply eqb_not_minus|done]
              |apply replace_not_minus, (Hg (chr 44)); [done|intros c; by apply eqb_not_minus|done]|].
  intros Hc. match goal with Hm : matches_some _INTEGER_PATTERN core = true |- _ => refine (matched_reads not_minus _ _ Hm _ _ _ 45 Hc eq_refl) end; try done.
  cbn. by repeat split; auto.
Qed.

Definition harmless (extras : list (string * obj)) : Prop := field_of "negative_price_detected" extras = None.
Lemma amount_reads : reads not_minus decimal_number.
Proof. cbn. by repeat split; auto. Qed.
Lemma free_reads P r : group_free r = true → group_reads P r.
Proof. induction r; cbn; try done; rewrite ?andb_true_iff; naive_solver. Qed.
Lemma amount_group_reads : group_reads not_minus amount.
Proof. split; [exact amount_reads|]. by apply free_reads. Qed.
(** Patterns that start with an amount, and have no group in their rest. *)
Lemma amount_first r : group_free r = true → group_reads not_minus (Bol ⋅ amount ⋅ r)%regex.
Proof. intros Hr. split; [exact I|]. split; [exact amount_group_reads|]. by apply free_reads. Qed.
Lemma compound_reads : group_reads not_minus _MILLIARD_COMPOUND_PATTERN.
Proof.
  do 5 (split; [first [exact I|exact amount_group_reads|by apply free_reads]|]). split; [|exact I]. split; [exact amount_reads|by apply free_reads].
Qed.
Lemma symbol_reads : group_reads not_minus _M_SYMBOL_PATTERN.
Proof. do 3 (split; [first [exact I|exact amount_group_reads|by apply free_reads]|]). split; [|exact I]. split; [exact symbol_not_minus|exact I]. Qed.
Lemma parsed_good core dzd centimes monthly cs : _parse_core_candidates core dzd centimes monthly = Ok cs → Forall good_candidate cs.
Proof.
  unfold _parse_core_candidates. destruct core as [|c0 core0] eqn:Ecore; [by intros [= <-]|]. rewrite <- Ecore. clear c0 core0 Ecore. cbv zeta.
  set (extras := if monthly then _ else _). assert (harmless extras) as He by by destruct monthly. clearbody extras. unfold harmless in He.
  destruct (re_match _K_SUFFIX_PATTERN core) as [q|] eqn:Ek.
  { unfold k_candidates. good_amounts. apply mul_unsigned; [|done]. eapply amount_unsigned; [exact Ek|by apply amount_first|done]. }
  destruct (re_match _MILLIARD_COMPOUND_PATTERN core) as [q|] eqn:Ec.
  { unfold compound_candidates. pose proof compound_reads as Hr.
    destruct dzd; good_amounts; apply add_unsigned; apply mul_unsigned; try done; by eapply amount_unsigned. }
  destruct (re_match _MILLIARD_PATTERN core) as [q|] eqn:Em.
  { unfold milliard_candidates. assert (group_reads not_minus _MILLIARD_PATTERN) as Hr by (by apply amount_first).
    destruct dzd; good_amounts; apply mul_unsigned; try done; by eapply amount_unsigned. }
  destruct (or_else (re_match _MILLION_WORD_PATTERN core) (re_match _M_SYMBOL_PATTERN core)) as [q|] eqn:Eo.
  { assert (∀ x, _as_float (default [] (group 1 q)) = Ok x → unsigned_float x = true) as Hx.
    { intros x Hx. apply or_else_Some in Eo as [Eo|Eo]; (eapply amount_unsigned; [exact Eo| |exact Hx]); [by apply amount_first|exact symbol_reads]. }
    unfold million_candidates. destruct dzd, centimes, monthly; good_amounts; apply mul_unsigned; try done; by apply Hx. }
  destruct (_grouped_integer core) as [[n|]|] eqn:Eg; cbn [res_bind]; [| |done].
  - apply grouped_nonneg in Eg. unfold scalar_candidates. destruct centimes.
    + unfold int_div. destruct (Z.ltb_spec n 0); [lia|]. pose proof (of_ratio_unsigned (Z.to_pos (Z.abs n)) (Z.to_pos 100)) as Hu.
      destruct (of_ratio _ _ _) as [b| | |b m e]; cbn [res_bind]; [..|]; try done;
        intros [= <-]; (apply Forall_cons_2; [|apply Forall_nil_2]); apply float_candidate_good; try done; by destruct (n =? 0).
    + pose proof (of_Z_unsigned n Eg) as Hu. unfold float_of_int. destruct (of_Z n); cbn [res_bind]; try done;
        intros [= <-]; (apply Forall_cons_2; [|apply Forall_nil_2]); by apply float_candidate_good.
  - destruct (matches_some _DECIMAL_PATTERN core) eqn:Ed; [|by intros [= <-]]. unfold decimal_candidates.
    destruct (_as_float core) as [x|] eqn:Ex; cbn [res_bind]; [|done].
    assert (unsigned_float x = true) as Hx.
    { eapply as_float_unsigned; [|exact Ex]. intros Hc. refine (matched_reads not_minus _ _ Ed _ _ _ 45 Hc eq_refl); try done. cbn. by repeat split; auto. }
    destruct centimes, (dzd || fle (of_Z 1000) x); intros [= <-]; (apply Forall_cons_2; [|apply Forall_nil_2]);
      try (apply float_candidate_good; [|done]; first [exact Hx|by apply div_unsigned]).
    split_and!; [done|done|]. unfold is_negative_candidate. change (pc_extras _) with extras. by rewrite He.
Qed.
Lemma field_put k v d : field_of k (put k v d) = Some v.
Proof.
  induction d as [|[k' v'] d IH]; unfold field_of in *; cbn; [by rewrite bool_decide_true|]. destruct (bool_decide (k' = k)) eqn:E; cbn.
  - by rewrite bool_decide_true.
  - by rewrite E.
Qed.
Lemma marked_negative n d k x l e : is_negative_candidate (mkCandidate n d k x l (put "negative_price_detected" (OBool true) e)) = true.
Proof. unfold is_negative_candidate, pc_extras. by rewrite field_put. Qed.
(** The readings of a cell: all marked negative, or all good. *)
Lemma records_good t cs :
  candidate_records t = Ok cs →
  Forall (λ c, _finalize_number (normalized_dzd c) = normalized_dzd c ∧ ∀ n, normalized_dzd c = Some n → num_unsigned n = true) cs
  ∧ (Forall (λ c, is_negative_candidate c = true) cs ∨ Forall (λ c, is_negative_candidate c = false) cs).
Proof.
  unfold candidate_records. destruct (blank t); [intros [= <-]; split; [|left]; apply Forall_nil_2|]. cbv zeta. destruct (_extract_signed_core _) as [core negative].
  destruct (_parse_core_candidates _ _ _ _) as [ds|] eqn:E; cbn [res_bind]; [|done]. apply parsed_good in E. intros [= <-]. destruct negative.
  - split; [|left]; apply Forall_map; (eapply Forall_impl; [exact E|]).
    + intros c (H1 & H2 & _). exact (conj H1 H2).
    + intros c _. apply marked_negative.
  - split; [|right]; (eapply Forall_impl; [exact E|]); intros c (H1 & H2 & H3); [exact (conj H1 H2)|exact H3].
Qed.
End Prices.

(** ** The choice *)

Section Choice.
Context `{Unicode} (show_container : obj → text).
(** What may choose between several readings: an alias of the agency for this text, the unit of the header, or the
    dialect of the column. *)
Definition dialect_named (t : text) (md : list (string * obj)) (d : text) : Prop :=
  (∃ e, text_field (_normalize_price_alias_source t) (_object_dict (field_of "price_aliases" md)) = Some (ODict e)
        ∧ tstrip (str_or_empty show_container (field_of "dialect" e)) = d)
  ∨ (tlower (tstrip (str_or_empty show_container (field_of "price_unit_hint" md))) = u "dzd"
     ∧ d ∈ words_of "raw_dzd dzd_thousands dzd_millions")
  ∨ (tlower (tstrip (str_or_empty show_container (field_of "price_unit_hint" md))) = u "centime"
     ∧ d ∈ words_of "centime_scalar centime_millions centime_milliards")
  ∨ tstrip (str_or_empty show_container (field_of "price_dialect_hint" md)) = d.
Lemma chosen_dialect p l c : with_dialect p l = Some c → c ∈ l ∧ p (u (dialect c)) = true.
Proof. intros [Hc Hp]%find_some. by split; [apply list_elem_of_In|]. Qed.
Lemma named_choice_of {B} (p : text → bool) l (f : price_candidate → B) b :
  f <$> with_dialect p l = Some b → ∃ c, c ∈ l ∧ p (u (dialect c)) = true ∧ b = f c.
Proof. destruct (with_dialect p l) as [c|] eqn:E; [|done]. intros [= <-]. apply chosen_dialect in E as [? ?]. by exists c. Qed.
(** A choice between readings by a named dialect. *)
Definition by_name (t : text) (md : list (string * obj)) (l : list price_candidate) (choice : price_candidate * string) : Prop :=
  ∃ d x, d ∈ l ∧ choice = (boost d x choice.2, choice.2) ∧ dialect_named t md (u (dialect d)).
Lemma alias_named t md l choice : alias_choice show_container t md l = Some choice → by_name t md l choice.
Proof.
  unfold alias_choice. destruct (text_field _ _) as [[|?|?|?|?|?|entry]|] eqn:E; try done.
  intros (d & Hd & Hp & ->)%named_choice_of. apply bool_decide_eq_true in Hp. exists d, (float_lit 95 2). split_and!; [done|done|]. left. by exists entry.
Qed.
Lemma is_in_texts_true t ts : is_in_texts t ts = true ↔ t ∈ ts.
Proof. apply bool_decide_eq_true. Qed.
Lemma header_named t md l choice : header_choice show_container md l = Some choice → by_name t md l choice.
Proof.
  unfold header_choice, by_name, dialect_named. generalize (words_of "raw_dzd dzd_thousands dzd_millions") as ds, (words_of "centime_scalar centime_millions centime_milliards") as cs.
  generalize (tlower (tstrip (str_or_empty show_container (field_of "price_unit_hint" md)))) as hint.
  generalize (u "dzd") as dzd, (u "centime") as centime. generalize (float_lit 96 2) as x. intros x dzd centime hint ds cs.
  case_bool_decide as E1; [|case_bool_decide as E2; [|done]]; intros (d & Hd & Hp & ->)%named_choice_of; apply is_in_texts_true in Hp;
    exists d, x; (split_and!; [done|done|]); right; [by left|right; by left].
Qed.
Lemma column_named t md l choice : column_choice show_container md l = Ok (Some choice) → by_name t md l choice.
Proof.
  unfold column_choice. destruct (match as_num _ with Some _ => _ | None => _ end) as [y|]; [|done]. cbn [res_bind].
  destruct (tstrip _) as [|z w] eqn:E; [done|]. destruct (fle _ y); [|done]. intros [= Hs].
  apply named_choice_of in Hs as (d & Hd & Hp & ->). apply bool_decide_eq_true in Hp. eexists d, _. split_and!; [done|reflexivity|]. do 3 right. by rewrite E.
Qed.
(** A reading is chosen because it is the only one with a value, or because its dialect is named; a boost keeps its value. *)
Lemma selected t cs ctx c reason :
  _select_candidate show_container t cs ctx = Ok (Some (c, reason)) →
  ∃ d, d ∈ List.filter has_value cs ∧ (c = d ∨ normalized_dzd c = _finalize_number (normalized_dzd d))
    ∧ (List.filter has_value cs = [d] ∨ dialect_named t (match ctx with Some x => metadata x | None => [] end) (u (dialect d))).
Proof.
  unfold _select_candidate. generalize (match ctx with Some x => metadata x | None => [] end) as md. generalize (List.filter has_value cs) as l. intros l md.
  assert (∀ choice, by_name t md l choice → choice = (c, reason) →
    ∃ d, d ∈ l ∧ (c = d ∨ normalized_dzd c = _finalize_number (normalized_dzd d)) ∧ (l = [d] ∨ dialect_named t md (u (dialect d)))) as Hb.
  { intros choice (e & x & Hd & E & Hn) ->. exists e. injection E as E. split_and!; [done| |by right]. right. by rewrite E. }
  assert ((∃ d, l = [d] ∧ d = c ∧ "single_candidate" = reason) ∨ (∃ choice, by_name t md l choice ∧ choice = (c, reason)) →
    ∃ d, d ∈ l ∧ (c = d ∨ normalized_dzd c = _finalize_number (normalized_dzd d)) ∧ (l = [d] ∨ dialect_named t md (u (dialect d)))) as Hend.
  { intros [(d & -> & -> & _)|(choice & H1 & H2)]; [|by eapply Hb]. exists c. split_and!; [apply list_elem_of_here|by left|by left]. }
  intros E. apply Hend. clear Hb Hend. destruct l as [|d [|d' l']]; [|injection E as -> <-; left; by exists c|]; right.
  all: destruct (alias_choice _ _ _ _) as [choice|] eqn:E1; [injection E as ->; exists (c, reason); split; [by apply alias_named|done]|].
  all: destruct (header_choice _ _ _) as [choice|] eqn:E2; [injection E as ->; exists (c, reason); split; [by apply header_named|done]|].
  all: exists (c, reason); split; [by apply column_named|done].
Qed.
End Choice.

Definition centime_header : option row_context := Some (mkContext None None None [] [("price_unit_hint", otext "centime")]).
Lemma read_in_centimes :
  (let? r := normalize_price (λ _, []) false centime_header (u "150 millions") in Ok (value r)) = Ok (OInt 1500000).
Proof. vm_compute. reflexivity. Qed.
