(* ===== verification/ImportValidateProps.v ===== *)
(** * What validation lets through

    Sanitised texts, and the fields of a row that is accepted without an error. *)

From S2P Require Import Prelude PyValue PyFloat PyText PyRegex ImportText ImportTextProps ImportNumbers ImportNormalizers ImportPrice ImportValidate.
From Stdlib Require Import Ascii String SpecFloat.
Local Open Scope Z_scope.

Section Texts.
Context `{Unicode} (show_container : obj → text).
Lemma sanitized v f n b w :
  0 <= n → sanitize_string show_container v f n b = Valid w →
  Z.of_nat (List.length w) <= n ∧ (∀ c, c ∈ w → is_control c = false).
Proof.
  intros Hn. unfold sanitize_string. destruct (tstrip _) as [|c t] eqn:E; [destruct b; [|done]; intros [= <-]; split; [done|by intros c ?%elem_of_nil]|].
  destruct (Z.ltb_spec n (Z.of_nat (List.length (c :: t)))) as [|Hl]; [done|]. destruct (dangerous _); [done|]. intros [= <-]. rewrite re_sub_filter. split.
  - pose proof (List.filter_length_le (λ c, negb (is_control c)) (c :: t)). lia.
  - intros d [Hd _]%elem_of_filter_b. by apply negb_true_iff in Hd.
Qed.
Lemma sanitized_plain t f n b w :
  (∀ c, c ∈ tstrip t → is_control c = false) → sanitize_string show_container (OText t) f n b = Valid w →
  w = tstrip t ∧ dangerous w = false.
Proof.
  intros Hc. unfold sanitize_string, str_of. destruct (tstrip t) as [|c s] eqn:E.
  - destruct b; [|done]. intros [= <-]. split; [done|]. vm_compute. done.
  - destruct (_ <? _); [done|]. destruct (dangerous (c :: s)) eqn:Ed; [done|]. intros [= <-]. rewrite re_sub_filter, filter_keeps; [done|].
    intros d Hd. by rewrite Hc.
Qed.
End Texts.

(** A sanitised text is no longer than the limit and has no control characters; and if the cell had none between its
    ends, it is the cell without the white space around it, and no dangerous pattern occurs in it. *)
Theorem sanitized_text_is_safe `{Unicode} show_container t f n b w :
  0 <= n → sanitize_string show_container (OText t) f n b = Valid w →
  Z.of_nat (List.length w) <= n ∧ (∀ c, c ∈ w → is_control c = false)
  ∧ ((∀ c, c ∈ tstrip t → is_control c = false) → w = tstrip t ∧ dangerous w = false).
Proof.
  intros Hn Hw. destruct (sanitized _ _ _ _ _ _ Hn Hw) as [H1 H2]. split_and!; [done..|]. intros Hc. by eapply sanitized_plain.
Qed.
Lemma sanitized_text_is_safe_witness :
  dangerous (u "Villa avec jardin") = false ∧ sanitize_string (λ _, []) (OText (u "x' OR 1=1")) "notes" 500 true = Refused "notes" "Invalid characters or patterns detected".
Proof.
  split; [|vm_compute; reflexivity].
  destruct (sanitized_text_is_safe (λ _, []) (u " Villa avec jardin ") "notes" 500 true (u "Villa avec jardin") ltac:(done)) as (_ & _ & Hs).
  - vm_compute. reflexivity.
  - apply Hs. assert (∀ c, In c (tstrip (u " Villa avec jardin ")) → negb (is_control c) = true) as Hf by (apply forallb_forall; vm_compute; reflexivity).
    intros c Hc%list_elem_of_In%Hf. by apply negb_true_iff.
Defined.

(** ** Rows *)

Lemma field_of_put k k' v d : field_of k (put k' v d) = if bool_decide (k' = k) then Some v else field_of k d.
Proof.
  unfold field_of. induction d as [|[a w] d IH]; cbn; [by case_bool_decide|]. destruct (bool_decide (a = k')) eqn:E; cbn.
  - apply bool_decide_eq_true in E as ->. by case_bool_decide.
  - rewrite bool_decide_eq_false in E. case_bool_decide as E1; cbn; [|by destruct (bool_decide (a = k))]. subst. by rewrite bool_decide_false.
Qed.

Section Rows.
Context `{Unicode} (show_container : obj → text).
Definition price_ok (v : obj) : Prop := v = ONone ∨ ∃ x, v = OFloat x ∧ is_negative x = false ∧ flt max_price x = false.
Definition int_ok (v : obj) : Prop := v = ONone ∨ ∃ z, v = OInt z ∧ 0 <= z.
Definition phone_ok (v : obj) : Prop := v = OText [] ∨ ∃ t, v = OText t ∧ matches_some (Bol ⋅ Times 10 digit ⋅ Eol)%regex t = true.
Definition name_ok (v : obj) : Prop := ∃ t, v = OText t ∧ Z.of_nat (List.length t) <= 100 ∧ found (Cls forbidden_in_name) t = false.
(** What an accepted field of a row holds, by its name. *)
Definition field_ok (k : string) (v : obj) : Prop :=
  (k ∈ price_fields → price_ok v) ∧ (k ∈ int_fields → int_ok v) ∧ (k = "phone" → phone_ok v) ∧ (k ∈ name_fields → name_ok v).
Definition checked_fields : list string := name_fields ++ ["phone"] ++ price_fields ++ int_fields.

Lemma validate_price_ok v f x : validate_price show_container v f = Valid x → price_ok (obj_of_float x).
Proof.
  assert (∀ y : option float, match y with
    | None => Refused f "Price must be a valid number"
    | Some x => if is_negative x then Refused f "Price cannot be negative"
                else if flt max_price x then Refused f "Price exceeds reasonable maximum" else Valid (Some x) end = Valid x → price_ok (obj_of_float x)) as Hj.
  { intros [y|]; [|done]. destruct (is_negative y) eqn:E1; [done|]. destruct (flt max_price y) eqn:E2; [done|]. intros [= <-]. right. by exists y. }
  unfold validate_price. cbv zeta. destruct v; try (intros [= <-]; by left).
  all: try match goal with |- context [normalize_price ?a ?b ?c ?d] => destruct (normalize_price a b c d) as [r|]; [|done]; destruct (as_num (value r)) as [n|] end.
  all: try match goal with |- context [float_of_num ?n] => destruct (float_of_num n); [|done] end.
  all: try match goal with |- context [float_of_int ?n] => destruct (float_of_int n); [|done] end.
  all: try match goal with |- (if ?c then _ else _) = _ → _ => lazymatch c with is_negative _ => fail | _ => destruct c end end.
  all: first [exact (Hj (Some (of_Z (-1))))|refine (Hj (Some _))|refine (Hj None)].
Qed.
Lemma validate_int_ok v f z : validate_positive_integer show_container v f None = Valid z → int_ok (obj_of_int z).
Proof.
  assert (∀ y : option Z, match y with
    | None => Refused f "Must be a valid integer"
    | Some z => if z <? 0 then Refused f "Value cannot be negative" else Valid (Some z) end = Valid z → int_ok (obj_of_int z)) as Hj.
  { intros [y|]; [|done]. destruct (Z.ltb_spec y 0); [done|]. intros [= <-]. right. by exists y. }
  unfold validate_positive_integer. destruct v as [|b|y|y|[|c t]|l|d]; try (intros [= <-]; by left); apply Hj.
Qed.
Lemma validate_phone_ok v f w : validate_phone v f = Valid w → phone_ok w.
Proof.
  unfold validate_phone. destruct v as [|b|y|y|[|c t]|l|d]; try done; try (intros [= <-]; by left).
  destruct (matches_some _ _) eqn:E; [|done]. intros [= <-]. right. by exists (c :: t).
Qed.
Lemma validate_name_ok v f t : validate_name show_container v f = Valid t → name_ok (OText t).
Proof.
  unfold validate_name. destruct (sanitize_string _ _ _ _ _) as [w| |] eqn:E; [|done..]. destruct (found _ _) eqn:Ef; [done|]. intros [= <-].
  exists w. split_and!; [done| |done]. by apply sanitized in E as [? _].
Qed.

(** An accepted state: no error, good fields, and the checked fields of the row are there. *)
Definition fields_ok (d : list (string * obj)) : Prop := ∀ k v, field_of k d = Some v → field_ok k v.
Definition grown (s s' : row_state) : Prop := s'.2 = [] → s.2 = [] ∧ (fields_ok s.1 → fields_ok s'.1) ∧ ∀ k, is_Some (field_of k s.1) → is_Some (field_of k s'.1).
Lemma grown_refl s : grown s s.
Proof. intros Hs. by split_and!. Qed.
Lemma grown_trans s1 s2 s3 : grown s1 s2 → grown s2 s3 → grown s1 s3.
Proof. intros H1 H2 H3. destruct (H2 H3) as (E2 & F2 & P2), (H1 E2) as (E1 & F1 & P1). split_and!; auto. Qed.
Lemma grown_put k v d e : (e = [] → fields_ok d → field_ok k v) → grown (d, e) (put k v d, e).
Proof.
  intros Hv He. split_and!; [done| |].
  - intros Hd k' w. cbn [fst snd]. rewrite field_of_put. case_bool_decide as E; [|apply Hd]. intros [= <-]. subst. cbn in He. auto.
  - intros k'. cbn [fst snd]. rewrite field_of_put. by case_bool_decide.
Qed.
Lemma grown_error d e x : grown (d, e) (d, e ++ [x]).
Proof. intros He. by apply app_eq_nil in He as [_ ?]. Qed.
Lemma check_field_grown {A} row (check : obj → string → checked A) to_obj k s s' :
  (∀ v a, check v k = Valid a → field_ok k (to_obj a)) →
  check_field row check to_obj k s = Ok s' →
  grown s s' ∧ (s'.2 = [] → is_Some (field_of k row) → is_Some (field_of k s'.1)).
Proof.
  intros Hc. unfold check_field. destruct s as [d e]. destruct (field_of k row) as [v|]; [|intros [= <-]; split; [apply grown_refl|by intros _ [? ?]]].
  destruct (check v k) as [a|f m|x] eqn:E; [| |done]; intros [= <-].
  - split; [apply grown_put; intros _ _; by eapply Hc|]. intros _ _. cbn [fst snd]. rewrite field_of_put, bool_decide_true by done. by eexists.
  - split; [apply grown_error|]. intros He. by apply app_eq_nil in He as [_ ?].
Qed.
Lemma check_fields_grown {A} row (check : obj → string → checked A) to_obj ks s s' :
  (∀ k v a, k ∈ ks → check v k = Valid a → field_ok k (to_obj a)) →
  check_fields row check to_obj ks s = Ok s' →
  grown s s' ∧ (s'.2 = [] → ∀ k, k ∈ ks → is_Some (field_of k row) → is_Some (field_of k s'.1)).
Proof.
  revert s. induction ks as [|k ks IH]; intros s Hc; cbn [check_fields].
  { intros [= <-]. split; [apply grown_refl|]. by intros _ k ?%elem_of_nil. }
  destruct (check_field _ _ _ _ _) as [s1|] eqn:E1; cbn [res_bind]; [|done]. intros E2.
  destruct (check_field_grown _ _ _ _ _ _ (λ v a, Hc k v a (list_elem_of_here _ _)) E1) as [G1 P1].
  destruct (IH s1 (λ k' v a Hk, Hc k' v a (list_elem_of_further _ _ _ Hk)) E2) as [G2 P2]. split; [by eapply grown_trans|].
  intros He k' [->|Hk]%elem_of_cons Hrow; [|by apply P2]. destruct (G2 He) as (He1 & _ & Hp). by apply Hp, P1.
Qed.
Lemma other_field k v : k ∉ checked_fields → field_ok k v.
Proof.
  unfold checked_fields. rewrite !not_elem_of_app. intros (Hn & Hp & Hr & Hi). split_and!; try done. intros ->. by destruct Hp; apply list_elem_of_here.
Qed.
(** The fields a check is for are of no other kind. *)
Lemma of_price k v : k ∈ price_fields → price_ok v → field_ok k v.
Proof.
  intros Hk Hv. assert ((k ∉ int_fields) ∧ k ≠ "phone" ∧ (k ∉ name_fields)) as (H1 & H2 & H3); [|by split_and!].
  revert k Hk. apply Forall_forall. apply (bool_decide_unpack _). vm_compute. exact I.
Qed.
Lemma of_int k v : k ∈ int_fields → int_ok v → field_ok k v.
Proof.
  intros Hk Hv. assert ((k ∉ price_fields) ∧ k ≠ "phone" ∧ (k ∉ name_fields)) as (H1 & H2 & H3); [|by split_and!].
  revert k Hk. apply Forall_forall. apply (bool_decide_unpack _). vm_compute. exact I.
Qed.
Lemma of_name k v : k ∈ name_fields → name_ok v → field_ok k v.
Proof.
  intros Hk Hv. assert ((k ∉ price_fields) ∧ (k ∉ int_fields) ∧ k ≠ "phone") as (H1 & H2 & H3); [|by split_and!].
  revert k Hk. apply Forall_forall. apply (bool_decide_unpack _). vm_compute. exact I.
Qed.
Lemma of_phone v : phone_ok v → field_ok "phone" v.
Proof.
  intros Hv. assert (("phone" ∉ price_fields) ∧ ("phone" ∉ int_fields) ∧ ("phone" ∉ name_fields)) as (H1 & H2 & H3).
  { apply (bool_decide_unpack _). vm_compute. exact I. }
  unfold field_ok. repeat split; intros Hk; by destruct (H1 Hk) || by destruct (H2 Hk) || by destruct (H3 Hk) || exact Hv.
Qed.
Lemma bools_grown row fs s : (∀ f, f ∈ fs → f ∉ checked_fields) → grown s (foldl (check_bool show_container row) s fs).
Proof.
  revert s. induction fs as [|f fs IH]; intros s Hf; [apply grown_refl|]. cbn [foldl]. eapply grown_trans.
  2: { apply IH. intros g Hg. apply Hf. by apply list_elem_of_further. }
  unfold check_bool. destruct s as [d e]. destruct (field_of f row) as [v|]; [|apply grown_refl]. cbv zeta. cbn [fst snd].
  assert (∀ w, grown (d, e) (put f w d, e)) as Hw by (intros w; apply grown_put; intros _ _; apply other_field, Hf, list_elem_of_here).
  destruct (_ && _); [|apply Hw]. eapply grown_trans; [apply Hw|apply grown_error].
Qed.
Lemma rest_grown row entries s s' :
  (∀ e, e ∈ entries → is_Some (field_of e.1 row)) →
  (s.2 = [] → ∀ k, k ∈ checked_fields → is_Some (field_of k row) → is_Some (field_of k s.1)) →
  keep_rest show_container entries s = Ok s' → grown s s'.
Proof.
  revert s. induction entries as [|[k v] entries IH]; intros [d e] He Hs; cbn [keep_rest]; [intros [= <-]; apply grown_refl|].
  assert (∀ x, x ∈ entries → is_Some (field_of x.1 row)) as He' by (intros x Hx; apply He; by apply list_elem_of_further).
  case_bool_decide as Hin; [by apply IH|]. cbn [fst snd] in *.
  assert (∀ w, grown (d, e) (put k w d, e)) as Hput.
  { intros w. apply grown_put. intros E0 _. apply other_field. intros Hk. apply Hin, Hs; try done. apply (He (k, v)), list_elem_of_here. }
  assert (∀ w, e = [] → ∀ k', k' ∈ checked_fields → is_Some (field_of k' row) → is_Some (field_of k' (put k w d))) as Hs'.
  { intros w E0 k' Hk' Hr. rewrite field_of_put. case_bool_decide; [by eexists|by apply Hs]. }
  assert (∀ w, keep_rest show_container entries (put k w d, e) = Ok s' → grown (d, e) s') as Hk.
  { intros w E. eapply grown_trans; [apply (Hput w)|]. eapply IH; [done|cbn; apply Hs'|done]. }
  destruct v as [|b|z|x|t|l|dd]; try apply Hk. destruct (sanitize_string _ _ _ _ _) as [w|f m|x]; [apply Hk| |done].
  intros E. eapply grown_trans; [apply grown_error|]. eapply IH; [done| |exact E]. intros Hnil. cbn in Hnil. by apply app_eq_nil in Hnil as [_ ?].
Qed.
Lemma default_grown k v d e : field_ok k v → grown (d, e) (default_field k v d, e).
Proof.
  intros Hv. unfold default_field. assert (grown (d, e) (put k v d, e)) by (apply grown_put; by intros). destruct (field_of k d) as [[]|]; try done; apply grown_refl.
Qed.
Lemma field_of_entry (e : string * obj) row : e ∈ row → is_Some (field_of e.1 row).
Proof.
  unfold field_of. induction row as [|[k v] row IH]; [by intros ?%elem_of_nil|]. cbn. case_bool_decide as Hk; [by eexists|].
  intros [->|He]%elem_of_cons; [done|by apply IH].
Qed.
Lemma row_fields row s' :
  (let? s := check_fields row (validate_name show_container) OText name_fields ([], []) in
   let? s := check_field row validate_phone id "phone" s in
   let? s := check_fields row (validate_price show_container) obj_of_float price_fields s in
   let? s := check_fields row (λ v f, validate_positive_integer show_container v f None) obj_of_int int_fields s in
   let? s := check_field row (validate_email show_container) OText "email" s in
   keep_rest show_container row (foldl (check_bool show_container row) s bool_fields)) = Ok s' →
  s'.2 = [] → fields_ok s'.1.
Proof.
  intros E Hnil. destruct (check_fields row (validate_name _) _ _ _) as [s1|] eqn:E1; cbn [res_bind] in E; [|done].
  apply check_fields_grown in E1 as [G1 P1]; [|intros k v a Hk Ha; by eapply of_name, validate_name_ok].
  destruct (check_field row validate_phone id "phone" s1) as [s2|] eqn:E2; cbn [res_bind] in E; [|done].
  apply check_field_grown in E2 as [G2 P2]; [|intros v a Ha; by eapply of_phone, validate_phone_ok].
  destruct (check_fields row (validate_price _) _ _ _) as [s3|] eqn:E3; cbn [res_bind] in E; [|done].
  apply check_fields_grown in E3 as [G3 P3]; [|intros k v a Hk Ha; by eapply of_price, validate_price_ok].
  destruct (check_fields row _ obj_of_int _ _) as [s4|] eqn:E4; cbn [res_bind] in E; [|done].
  apply check_fields_grown in E4 as [G4 P4]; [|intros k v a Hk Ha; by eapply of_int, validate_int_ok].
  destruct (check_field row (validate_email _) _ _ _) as [s5|] eqn:E5; cbn [res_bind] in E; [|done].
  apply check_field_grown in E5 as [G5 _]; [|intros v a _; apply other_field, (bool_decide_unpack _); vm_compute; exact I].
  pose proof (bools_grown row bool_fields s5 ltac:(apply Forall_forall, (bool_decide_unpack _); vm_compute; exact I)) as G6.
  set (s6 := foldl _ s5 bool_fields) in *.
  assert (grown s6 s') as G7.
  { eapply rest_grown; [|intros He6|exact E].
    - intros e He. by apply field_of_entry.
    - destruct (G6 He6) as (He5 & _ & Q6), (G5 He5) as (He4 & _ & Q5), (G4 He4) as (He3 & _ & Q4), (G3 He3) as (He2 & _ & Q3), (G2 He2) as (He1 & _ & Q2).
      intros k Hk Hr. unfold checked_fields in Hk. apply Q6, Q5. rewrite !elem_of_app in Hk. destruct Hk as [Hk|[Hk|[Hk|Hk]]].
      + apply Q4, Q3, Q2. by apply P1.
      + apply list_elem_of_singleton in Hk as ->. apply Q4, Q3. by apply P2.
      + apply Q4. by apply P3.
      + by apply P4. }
  assert (grown ([], []) s') as G by exact (grown_trans _ _ _ G1 (grown_trans _ _ _ G2 (grown_trans _ _ _ G3 (grown_trans _ _ _ G4 (grown_trans _ _ _ G5 (grown_trans _ _ _ G6 G7)))))).
  apply (G Hnil). by intros k v.
Qed.
Lemma default_field_put k v d : field_ok k v → fields_ok d → fields_ok (default_field k v d).
Proof. intros Hv Hd. by destruct (default_grown k v d [] Hv) as (_ & Hp & _); [|by apply Hp]. Qed.
(** A flat_map of checks without errors: no check fails. *)
Lemma no_errors (test : string → bool) (msg : string → text) fs :
  flat_map (λ f, if test f then [msg f] else []) fs = [] → ∀ f, f ∈ fs → test f = false.
Proof.
  induction fs as [|g fs IH]; cbn [flat_map]; intros E f; [by intros ?%elem_of_nil|].
  apply app_eq_nil in E as [E1 E2]. intros [->|Hf]%elem_of_cons; [by destruct (test g)|by apply IH].
Qed.
Lemma bound_ordered d low high a b :
  bound_error d low high = [] → field_of low d ≫= as_num = Some a → field_of high d ≫= as_num = Some b → num_ltb b a = false.
Proof. unfold bound_error. intros E Ha Hb. rewrite Ha, Hb in E. by destruct (num_ltb b a). Qed.
Lemma default_other k k' v d : k ≠ k' → field_of k (default_field k' v d) = field_of k d.
Proof.
  intros Hk. unfold default_field. assert (field_of k (put k' v d) = field_of k d) as E by (rewrite field_of_put; by case_bool_decide).
  by destruct (field_of k' d) as [[]|].
Qed.
End Rows.

(** The required fields of a row, and the order of its bounds. *)
Definition complete_row (entity_type : string) (d : list (string * obj)) : Prop :=
  if bool_decide (entity_type = "demande") then
    (∀ k, k ∈ ["action"; "type"; "wilaya"] → falsy (field_of k d) = false)
    ∧ (∀ low high a b, (low, high) ∈ [("budget_min", "budget_max"); ("surface_min", "surface_max")] →
         field_of low d ≫= as_num = Some a → field_of high d ≫= as_num = Some b → num_ltb b a = false)
  else if bool_decide (entity_type = "offer") then ∀ k, k ∈ offer_required → missing_value (field_of k d) = false
  else True.
Lemma guardrails_complete `{Unicode} ty s d : guardrails ty s = (d, []) → fields_ok s.1 → s.2 = [] ∧ fields_ok d ∧ complete_row ty d.
Proof.
  destruct s as [d0 e]. unfold guardrails, complete_row. cbn [fst snd]. case_bool_decide; [|case_bool_decide]; intros [<- E]%pair_equal_spec Hd.
  - apply app_eq_nil in E as [-> E]. apply app_eq_nil in E as [E1 E]. apply app_eq_nil in E as [E2 E3]. pose proof (no_errors _ _ _ E1) as Hr.
    split; [done|]. split.
    { do 2 (apply default_field_put; [apply of_int; [apply (bool_decide_unpack _); vm_compute; exact I|right; by eexists]|]). exact Hd. }
    assert (∀ k, k ≠ "floor_min" → k ≠ "floor_max" →
      field_of k (default_field "floor_max" (OInt 100) (default_field "floor_min" (OInt 0) d0)) = field_of k d0) as Hf by (intros; by rewrite !default_other).
    split.
    + intros k Hk. rewrite Hf; [by apply Hr| |]; intros ->; revert Hk; apply (bool_decide_unpack _); vm_compute; exact I.
    + intros low high a b Hlh. rewrite !elem_of_cons, elem_of_nil in Hlh. destruct Hlh as [[-> ->]%pair_equal_spec|[[-> ->]%pair_equal_spec|[]]].
      * rewrite !Hf by done. exact (bound_ordered _ _ _ _ _ E2).
      * rewrite !Hf by done. exact (bound_ordered _ _ _ _ _ E3).
  - apply app_eq_nil in E as [-> E]. split_and!; [done..|]. exact (no_errors _ _ _ E).
  - done.
Qed.

(** A row is accepted out of a state with good fields. *)
Lemma accepted_state `{Unicode} show_container row ty d :
  validate_row show_container row ty = Ok (d, []) → ∃ s, guardrails ty s = (d, []) ∧ fields_ok s.1.
Proof.
  unfold validate_row. intros E.
  assert (∃ s, guardrails ty s = (d, []) ∧ (s.2 = [] → fields_ok s.1)) as (s & Eg & Hs).
  { revert E. set (f := check_fields row (validate_name _) _ _ _). pose proof (row_fields show_container row) as Hrow. fold f in Hrow. revert Hrow.
    destruct f as [s1|]; cbn [res_bind]; [|done]. destruct (check_field _ _ _ _ s1) as [s2|]; cbn [res_bind]; [|done].
    destruct (check_fields _ _ _ _ s2) as [s3|]; cbn [res_bind]; [|done]. destruct (check_fields _ _ _ _ s3) as [s4|]; cbn [res_bind]; [|done].
    destruct (check_field _ _ _ _ s4) as [s5|]; cbn [res_bind]; [|done]. cbv zeta. destruct (keep_rest _ _ _) as [s6|]; cbn [res_bind]; [|done].
    intros Hrow [= Eg]. exists s6. split; [done|]. by apply Hrow. }
  exists s. split; [done|]. apply Hs. destruct s as [d0 e]. cbn [fst snd] in *. revert Eg. unfold guardrails.
  case_bool_decide; [|case_bool_decide]; intros [= _ E0]; try done; by apply app_eq_nil in E0 as [? _].
Qed.

Definition sample_row : list (string * obj) :=
  [("name", OText (u "Amina")); ("phone", OText (u "0550123456")); ("budget_min", OInt 100); ("budget_max", OInt 300);
   ("action", OText (u "location")); ("type", OText (u "villa")); ("wilaya", OText (u "oran"))].
