(* ===== verification/ImportPipelineProps.v ===== *)
(** * What the pipeline makes of a row

    The type of the value each column gets, the order of ranges, and the review of a row. *)

From S2P Require Import Prelude PyValue PyFloat PyText PyRegex ImportText ImportTextProps ImportNumbers ImportNormalizers ImportPrice ImportValidate ImportPipeline ImportPhoneProps ImportPriceProps ImportValidateProps.
From Stdlib Require Import Ascii String SpecFloat.
Local Open Scope Z_scope.

(** ** Floats and ranges *)

Lemma flt_asym x y : flt x y = true → flt y x = false.
Proof.
  assert (∀ m m' : positive, PosDef.Pos.compare_cont Datatypes.Eq m' m = CompOpp (PosDef.Pos.compare_cont Datatypes.Eq m m')) as Hm
    by (intros m m'; apply (Pos.compare_antisym m m')).
  unfold flt, SFltb. destruct x as [s|s| |s m e], y as [s'|s'| |s' m' e']; try destruct s; try destruct s'; cbn; try done.
  all: rewrite (Z.compare_antisym e e'), (Hm m m'); destruct (e ?= e'); cbn; try done; by destruct (PosDef.Pos.compare_cont _ m m').
Qed.
Lemma flt_irrefl x : flt x x = false.
Proof. destruct (flt x x) eqn:E; [|done]. by pose proof (flt_asym x x E) as E'; rewrite E in E'. Qed.
Lemma float_order x y a b : in_order flt x y = (a, b) → flt b a = false.
Proof. unfold in_order. destruct (flt y x) eqn:E; intros [= <- <-]; [by apply flt_asym|done]. Qed.
Lemma int_order x y a b : in_order Z.ltb x y = (a, b) → a <= b.
Proof. unfold in_order. destruct (Z.ltb_spec y x); intros [= <- <-]; lia. Qed.
Lemma trunc_nonneg x z : is_negative x = false → int_of_float x = Ok z → 0 <= z.
Proof.
  destruct x as [s|s| |s m e]; cbn; try done; [intros _ [= <-]; done|]. destruct s; [done|]. intros _ [= <-].
  destruct (0 <=? e) eqn:E; [|apply Z.div_pos; [lia|apply Z.pow_pos_nonneg; lia]].
  apply Z.mul_nonneg_nonneg; [lia|apply Z.pow_nonneg; lia].
Qed.

Lemma Ok_inj {A} (x y : A) : Ok x = Ok y → x = y.
Proof. congruence. Qed.
(** One step of a computation that gave a result. *)
Ltac res_step :=
  match goal with
  | E : Err _ = Ok _ |- _ => discriminate E
  | E : value_error = Ok _ |- _ => discriminate E
  | E : res_bind ?m _ = Ok _ |- _ => let Em := fresh "Em" in destruct m eqn:Em; cbn [res_bind] in E; [|discriminate E]
  | E : Ok _ = Ok _ |- _ => apply Ok_inj in E; subst
  | E : Some _ = Some _ |- _ => apply Some_inj in E; subst
  | E : (let '(_, _) := ?p in _) = Ok _ |- _ => let Ep := fresh "Ep" in destruct p eqn:Ep
  | E : match ?x with _ => _ end = Ok _ |- _ => let Ex := fresh "Ex" in destruct x eqn:Ex
  end.
Ltac res_steps := repeat res_step.

Section Numeric.
Context `{Unicode}.
(** What a numeric column holds, when it holds a value. *)
Definition good_surface (v : obj) : Prop := ∃ x, v = OFloat x ∧ is_negative x = false.
Definition numeric_ok (field_name : string) (r : normalize_result) : Prop :=
  value r = ONone
  ∨ if is_in_names field_name _INTEGER_QUANTITY_FIELDS
    then ∃ z, value r = OInt z ∧ (0 <= z ∨ may_be_negative field_name = true ∨ (field_name = "beds_min" ∧ needs_review r = true))
    else good_surface (value r).
Lemma scalar_surface t r : _normalize_surface_scalar_value t = Ok (Some r) → good_surface (value r) ∧ extracted_extras r = [].
Proof. unfold _normalize_surface_scalar_value. intros E. res_steps; try done. split; [by eexists|done]. Qed.
Lemma bounds_value low_field high_field f low high conf t review remarks :
  let r := bounds_result low_field high_field f low high conf t review remarks in (value r = low ∨ value r = high) ∧ needs_review r = review.
Proof. unfold bounds_result. case_bool_decide; split; auto. Qed.
Lemma range_surface t f r : _normalize_surface_range_value t f = Ok r → good_surface (value r).
Proof.
  unfold _normalize_surface_range_value. intros E. res_steps; try done.
  - match goal with E : (_ || _) = false |- _ => apply orb_false_iff in E as [N1 N2] end.
    match goal with E : in_order _ ?x ?y = (?a, ?b) |- _ => assert (is_negative a = false ∧ is_negative b = false) as [Na Nb]
      by (unfold in_order in E; destruct (flt _ _); apply pair_equal_spec in E as [<- <-]; done) end.
    match goal with |- good_surface (value (bounds_result ?a ?b ?f ?l ?h ?c ?t ?w ?k)) => destruct (bounds_value a b f l h c t w k) as [[-> | ->] _] end; by eexists.
  - match goal with E : _normalize_surface_scalar_value _ = _ |- _ => apply scalar_surface in E as [(x & Ev & Nx) _] end.
    match goal with E : as_num _ = _ |- _ => rewrite Ev in E; cbn in E; apply Some_inj in E; subst end.
    match goal with E : float_of_num _ = _ |- _ => cbn in E; apply Ok_inj in E; subst end.
    match goal with |- good_surface (value (bounds_result ?a ?b ?f ?l ?h ?c ?t ?w ?k)) => destruct (bounds_value a b f l h c t w k) as [[-> | ->] _] end; by eexists.
Qed.
Lemma scalar_floor t r : _normalize_floor_scalar_value t = Ok (Some r) → ∃ z, value r = OInt z.
Proof. unfold _normalize_floor_scalar_value. intros E. cbv zeta in E. res_steps; try done; by eexists. Qed.
Lemma range_floor t f r : _normalize_floor_range_value t f = Ok r → ∃ z, value r = OInt z.
Proof.
  unfold _normalize_floor_range_value. intros E. cbv zeta in E. res_steps; try done.
  all: match goal with |- context [bounds_result ?a ?b ?f ?l ?h ?c ?t ?w ?k] => destruct (bounds_value a b f l h c t w k) as [[-> | ->] _] end; by eexists.
Qed.
Lemma word_number_nonneg t z : _parse_word_number t = Some z → 0 <= z.
Proof.
  unfold _parse_word_number, entry. destruct (List.find _ _) as [e|] eqn:E; [|done]. intros [= <-]. apply find_some in E as [Hin _].
  assert (Forall (λ e, 0 <= e.2) _WORD_NUMBERS) as Hall by (apply (bool_decide_unpack _); vm_compute; exact I).
  rewrite Forall_forall in Hall. by apply Hall, list_elem_of_In.
Qed.
Lemma beds_value t r : _normalize_beds_min_value t = Ok r →
  value r = ONone ∨ ∃ z, value r = OInt z ∧ (0 <= z ∨ needs_review r = true).
Proof.
  unfold _normalize_beds_min_value. intros E. cbv zeta in E. res_steps; try done; [by left|right..]; eexists; (split; [reflexivity|]).
  - by right.
  - left. by eapply word_number_nonneg.
  - left. lia.
Qed.
Lemma some_result_inv x r : some_result x = Ok (Some r) → x = Ok r.
Proof. unfold some_result. intros E. by res_steps. Qed.
Lemma special_value t f r : _normalize_numeric_value t f = Ok (Some r) → numeric_ok f r.
Proof.
  unfold _normalize_numeric_value. destruct (tstrip t) as [|c w]; [done|].
  destruct (is_in_names f ["surface_min"; "surface_max"]) eqn:E1.
  { intros Er%some_result_inv%range_surface. right. unfold is_in_names in E1. apply bool_decide_eq_true in E1.
    rewrite !elem_of_cons, elem_of_nil in E1. by destruct E1 as [->|[->|[]]]. }
  destruct (is_in_names f ["floor_min"; "floor_max"]) eqn:E2.
  { intros Er%some_result_inv%range_floor. right. unfold is_in_names in E2. apply bool_decide_eq_true in E2.
    rewrite !elem_of_cons, elem_of_nil in E2. destruct Er as [z Ez]. destruct E2 as [->|[->|[]]]; exists z; (split; [done|]); right; by left. }
  case_bool_decide as E3; [|case_bool_decide as E4; [|case_bool_decide as E5; [|done]]]; subst.
  - intros Er%some_result_inv%beds_value. destruct Er as [Er|(z & Ez & Hz)]; [by left|]. right. exists z. split; [done|]. destruct Hz; auto.
  - intros Er%scalar_surface. right. exact (proj1 Er).
  - intros Er%scalar_floor. destruct Er as [z Ez]. right. exists z. split; [done|]. right. by left.
Qed.
Lemma numeric_typed t f r : _normalize_numeric t f = Ok r → numeric_ok f r.
Proof.
  unfold _normalize_numeric. destruct (numeric_body t f) as [r0|[]] eqn:E; try (intros [= <-]; by left); try done.
  intros [= <-]. unfold numeric_body in E. res_steps; try (by left); [by apply special_value with t| |].
  - right. match goal with E : is_in_names f _ = true |- _ => rewrite E end. eexists. split; [reflexivity|].
    match goal with E : _ && _ = false |- _ => apply andb_false_iff in E as [Nx|Nf] end; [left; by eapply trunc_nonneg|right; left; by apply negb_false_iff].
  - right. match goal with E : is_in_names f _ = false |- _ => pose proof E as Ef; rewrite E end. eexists. split; [reflexivity|].
    match goal with E : _ && _ = false |- _ => apply andb_false_iff in E as [Nx|Nf] end; [done|]. exfalso. apply negb_false_iff in Nf.
    unfold may_be_negative, is_in_names in *. apply bool_decide_eq_true in Nf. apply bool_decide_eq_false in Ef. apply Ef.
    clear -Nf. revert f Nf. apply Forall_forall. apply (bool_decide_unpack _). vm_compute. exact I.
Qed.
End Numeric.

Section Columns.
Context `{Unicode} `{PipelineEnv} (pl : pipeline).
(** What a column of each type holds, when it holds a value. *)
Definition column_ok (col_type field_name : string) (r : normalize_result) : Prop :=
  value r = ONone
  ∨ if bool_decide (col_type = "phone") then ∃ t, value r = OText t ∧ List.length t = 10%nat ∧ (∀ c, c ∈ t → is_decimal c = true)
    else if bool_decide (col_type = "price") then ∃ n, value r = obj_of_num (Some n)
    else if bool_decide (col_type = "location") then ∃ t, value r = OText t
    else if bool_decide (col_type = "wilaya") then (∃ t, value r = OText t) ∨ ∃ z, value r = OInt z
    else if bool_decide (col_type = "type") then ∃ s, value r = otext s ∧ s ∈ map snd TYPE_MAPPINGS
    else if bool_decide (col_type = "action") then ∃ s, value r = otext s ∧ s ∈ map snd ACTION_MAPPINGS
    else if is_in_names col_type _BOOLEAN_TYPES then ∃ b, value r = OBool b
    else if is_in_names col_type _NUMERIC_TYPES then numeric_ok field_name r
    else ∃ t, value r = OText t ∧ Z.of_nat (List.length t) <= 500 ∧ (∀ c, c ∈ t → is_control c = false).

Lemma phone_typed t : let v := value (normalize_phone t) in
  v = ONone ∨ ∃ p, v = OText p ∧ List.length p = 10%nat ∧ (∀ c, c ∈ p → is_decimal c = true).
Proof.
  cbv zeta. unfold normalize_phone. destruct (blank t); [by left|]. cbv zeta. destruct (Z.eqb_spec (Z.of_nat (List.length (phone_digits t))) 10) as [El|]; [|by left].
  right. exists (phone_digits t). split_and!.
  - cbn [negb]. destruct (_ && _); [done|]. by repeat match goal with |- context [if ?c then _ else _] => destruct c end.
  - lia.
  - unfold phone_digits. cbv zeta. rewrite re_sub_filter. intros c.
    assert (∀ x, c ∈ List.filter (λ c : Z, negb (negb (is_decimal c))) x → is_decimal c = true) as Hf
      by (intros x [Hc _]%elem_of_filter_b; by rewrite negb_involutive in Hc).
    destruct (List.filter _ _) as [|d w] eqn:E; [by intros ?%elem_of_nil|]. destruct (_ && _); [|rewrite <- E; apply Hf].
    intros [->|Hc]%elem_of_cons; [by apply latin_decimal|]. rewrite <- E in Hc. by apply Hf in Hc.
Qed.
Lemma find_mapped {A} (f : text * A → bool) l s : snd <$> List.find f l = Some s → s ∈ map snd l.
Proof.
  destruct (List.find f l) as [e|] eqn:E; [|done]. intros [= <-]. apply find_some in E as [Hin _]. apply list_elem_of_In, in_map, Hin.
Qed.
Lemma by_length_elem e l : e ∈ by_length l → e ∈ l.
Proof.
  induction l as [|d l IH]; [done|]. cbn. assert (∀ m, e ∈ put_by_length d m → e = d ∨ e ∈ m) as Hp.
  { induction m as [|x m IHm]; cbn; [intros ?%list_elem_of_singleton; by left|]. destruct (Nat.leb _ _); rewrite !elem_of_cons; naive_solver. }
  intros [->|He]%Hp; [apply list_elem_of_here|by apply list_elem_of_further, IH].
Qed.
Lemma contained_mapped t l s : longest_contained t l = Some s → s ∈ map snd l.
Proof.
  unfold longest_contained. intros Hs%find_mapped. apply list_elem_of_fmap in Hs as (e & -> & He). apply list_elem_of_fmap. exists e. split; [done|by apply by_length_elem].
Qed.
Lemma type_typed t : let v := value (normalize_property_type t) in v = ONone ∨ ∃ s, v = otext s ∧ s ∈ map snd TYPE_MAPPINGS.
Proof.
  cbv zeta. unfold normalize_property_type. destruct (blank t); [by left|]. cbv zeta.
  destruct (_match_type _) as [p|] eqn:E; [right; exists p; split; [done|by eapply contained_mapped]|].
  destruct (found _ _); [|by left]. right. exists "apartment". split; [done|]. clear. apply (bool_decide_unpack _). vm_compute. exact I.
Qed.
Lemma validated_action show entity s t x : value (_validate_action show entity s t x) = otext s.
Proof. unfold _validate_action. destruct entity as [e|]; [|done]. by destruct (_ && _). Qed.
Lemma action_typed show entity t : let v := value (normalize_action show entity t) in v = ONone ∨ ∃ s, v = otext s ∧ s ∈ map snd ACTION_MAPPINGS.
Proof.
  cbv zeta. unfold normalize_action. destruct (blank t); [by left|]. cbv zeta. destruct (mapped _ _) as [s|] eqn:E1.
  { right. exists s. rewrite validated_action. split; [done|by eapply find_mapped]. }
  destruct (longest_contained _ _) as [s|] eqn:E2; [|by left]. right. exists s. rewrite validated_action. split; [done|by eapply contained_mapped].
Qed.
Lemma boolean_typed t : let v := value (normalize_boolean None t) in v = ONone ∨ ∃ b, v = OBool b.
Proof.
  cbv zeta. unfold normalize_boolean. destruct (blank t); [by left|]. cbv zeta.
  repeat match goal with |- context [if ?c then _ else _] => destruct c end; try (by left); try (right; by eexists).
  all: destruct (float_of_text _); [right; by eexists|by left].
Qed.
Lemma first_of_some {A B} (f : A → option B) l y : first_of f l = Some y → ∃ x, f x = Some y.
Proof. induction l as [|x l IH]; cbn; [done|]. destruct (f x) eqn:E; [intros [= <-]; by exists x|done]. Qed.
Lemma location_typed ext md c t : let v := value (normalize_location ext md c t) in v = ONone ∨ ∃ s, v = OText s.
Proof.
  cbv zeta. unfold normalize_location. destruct (blank t); [by left|]. cbv zeta. destruct (first_of _ _) as [r|] eqn:E.
  - apply first_of_some in E as [x E]. right. unfold exact_location in E.
    destruct (normalize_text x); [done|]. destruct (entry _ (md_aliases md)); [apply Some_inj in E; subst; by eexists|].
    destruct (entry _ (commune_by_name md)) as [[cc wc]|]; [|destruct (entry _ _); [|done]; apply Some_inj in E; subst; by eexists].
    cbv zeta in E. match type of E with (if ?b then _ else _) = _ => destruct b end; apply Some_inj in E; subst; by eexists.
  - destruct (extract_location_candidates _) as [|x xs]; [by left|]. destruct (_fuzzy_match _ _ _) as [r|] eqn:Ef; [|by left]. right. cbn [default].
    unfold _fuzzy_match in Ef. cbv zeta in Ef.
    assert (∀ names : list text, match names with [] => None | n :: ns => (λ m : text * float,
          mkResult (OText (default [] (entry m.1 (wilaya_by_name md)))) (SFdiv 53 1024 m.2 (of_Z 100)) (normalize_text x) (flt (SFdiv 53 1024 m.2 (of_Z 100)) min_confidence)
            [("match_type", otext "fuzzy_wilaya"); ("matched_name", OText m.1); ("is_wilaya", OBool true)] None) <$> ext (normalize_text x) (n :: ns) end = Some r → ∃ s, value r = OText s) as Hw.
    { intros [|n names]; [done|]. destruct (ext _ _); [|done]. intros Er. apply Some_inj in Er. rewrite <- Er. exact (ex_intro _ _ eq_refl). }
    destruct (map fst (commune_by_name md)) as [|n ns]; [by apply Hw in Ef|]. destruct (ext _ _) as [[m s]|]; [|by apply Hw in Ef].
    apply Some_inj in Ef. subst. by eexists.
Qed.
Lemma wilaya_typed t c : let v := value (_normalize_wilaya t c) in v = ONone ∨ (∃ s, v = OText s) ∨ ∃ z, v = OInt z.
Proof.
  cbv zeta. unfold _normalize_wilaya. destruct (wilaya_code_of _) as [z|]; [right; right; by eexists|]. cbv zeta.
  assert (let v := value (normalize_location extractOne master (Some c) t) in v = ONone ∨ (∃ s, v = OText s) ∨ ∃ z, v = OInt z) as Hl
    by (cbv zeta; destruct (location_typed extractOne master (Some c) t) as [E|E]; auto).
  destruct (falsy _); [done|]. destruct (int_of_text _) as [z|]; [|done]. right; right. by eexists.
Qed.
Lemma price_typed show c t r : normalize_price show false c t = Ok r → value r = ONone ∨ ∃ n, value r = obj_of_num (Some n).
Proof.
  unfold normalize_price. intros E. cbv zeta in E. res_steps; try (by left). cbn [value].
  match goal with |- context [obj_of_num ?m] => destruct m as [m'|]; [right; by exists m'|by left] end.
Qed.
Lemma passthrough_typed t f r : _normalize_passthrough t f = Ok r →
  value r = ONone ∨ ∃ w, value r = OText w ∧ Z.of_nat (List.length w) <= 500 ∧ (∀ c, c ∈ w → is_control c = false).
Proof.
  unfold _normalize_passthrough. intros E. destruct (sanitize_string _ _ _ _ _) as [w| |x] eqn:Es; [|apply Ok_inj in E; subst; by left|done].
  apply Ok_inj in E. subst. right. exists w. split; [done|]. by apply sanitized in Es.
Qed.
Lemma field_typed f t ty c r : _normalize_field pl f t ty c = Ok r → column_ok ty f r.
Proof.
  unfold _normalize_field, column_ok.
  case_bool_decide; [intros <-%Ok_inj; apply phone_typed|]. case_bool_decide; [apply price_typed|].
  case_bool_decide; [intros <-%Ok_inj; apply location_typed|]. case_bool_decide; [intros <-%Ok_inj; apply wilaya_typed|].
  case_bool_decide; [intros <-%Ok_inj; apply type_typed|]. case_bool_decide; [intros <-%Ok_inj; apply action_typed|].
  destruct (is_in_names ty _BOOLEAN_TYPES); [intros <-%Ok_inj; apply boolean_typed|].
  destruct (is_in_names ty _NUMERIC_TYPES); [intros Hr%numeric_typed; by right|apply passthrough_typed].
Qed.
End Columns.

(** ** Rows *)

Ltac acc_fields :=
  cbn [ac_data ac_confidence ac_needs_review ac_review_fields ac_remarks ac_extras ac_conflicts ac_results ac_sources ac_conflicted].

Section Row.
Context `{Unicode} `{PipelineEnv} (pl : pipeline).
(** The cells of a row, each read on its own; a blank cell has no result. *)
Fixpoint read_cells (c : row_context) (cells : list (string * obj)) : res (list (string * option normalize_result)) :=
  match cells with
  | [] => Ok []
  | (k, v) :: cells' =>
      let? r := match raw_text v with
                | [] => Ok None
                | t => let? r := _normalize_field pl k t (column_type pl k) (_context_for_field pl c k (column_type pl k)) in Ok (Some r)
                end in
      let? rs := read_cells c cells' in Ok ((k, r) :: rs)
  end.
Definition cell_value (r : option normalize_result) : obj := match r with None => ONone | Some r => value r end.
Definition results_of (cells : list (string * option normalize_result)) : list (string * normalize_result) :=
  omap (λ e : string * option normalize_result, pair e.1 <$> e.2) cells.
Definition is_nil {A} (l : list A) : bool := match l with [] => true | _ => false end.
(** What the loop over the cells has collected: the data, the least confidence, the results, and a review because of a result
    or of a conflict; the extracted values are those of a result, and none is in conflict. *)
Record collected (b : bool) (d : list (string * obj)) (x : float) (rs : list (string * normalize_result)) (acc : row_acc) : Prop := {
  col_data : ac_data acc = d;
  col_confidence : ac_confidence acc = x;
  col_results : ac_results acc = rs;
  col_review : ac_needs_review acc = b || negb (is_nil (ac_conflicts acc));
  col_reviewed : ac_needs_review acc = negb (is_nil (ac_review_fields acc));
  col_extras : ∀ k v, field_of k (ac_extras acc) = Some v →
    k ∈ _MERGEABLE_EXTRACTED_EXTRA_KEYS ∧ ∃ f r, (f, r) ∈ rs ∧ (k, v) ∈ extracted_extras r;
  col_conflicts : ∀ c, c ∈ ac_conflicts acc → ec_key c ∈ ac_conflicted acc;
  col_conflicted : ∀ k, k ∈ ac_conflicted acc → field_of k (ac_extras acc) = None
}.
Lemma field_of_drop k k' d : field_of k (drop_key k' d) = if bool_decide (k' = k) then None else field_of k d.
Proof.
  unfold drop_key, field_of. induction d as [|[a w] d IH]; cbn; [by case_bool_decide|].
  destruct (bool_decide_reflect (a = k')) as [->|E1]; cbn.
  - rewrite IH. by destruct (bool_decide (k' = k)).
  - destruct (bool_decide_reflect (a = k)) as [->|E2]; [|done]. by rewrite bool_decide_false.
Qed.
Lemma nil_snoc {A} (l : list A) x : is_nil (l ++ [x]) = false.
Proof. by destruct l. Qed.
Lemma merge_collected b d x rs f ty raw r acc e :
  (f, r) ∈ rs → e ∈ extracted_extras r → collected b d x rs acc → collected b d x rs (merge_extra pl f ty raw r acc e).
Proof.
  intros Hr He Ha. destruct e as [k v]. unfold merge_extra. destruct (negb _) eqn:Em; [done|]. apply negb_false_iff in Em.
  unfold is_in_names in *. apply bool_decide_eq_true in Em. destruct (bool_decide_reflect (k ∈ ac_conflicted acc)) as [|Hc]; [done|].
  destruct Ha as [H1 H2 H3 H4 H5 H6 H7 H8]. destruct (field_of k (ac_extras acc)) as [w|] eqn:Ek.
  - destruct (obj_eqb w v); [done|]. destruct (default _ _) as [f1 v1]. constructor; acc_fields; try assumption.
    + by rewrite nil_snoc, orb_true_r.
    + by rewrite nil_snoc.
    + intros k' v'. rewrite field_of_drop. case_bool_decide; [done|]. apply H6.
    + intros c [Hc'|Hc'%list_elem_of_singleton]%elem_of_app; [by apply list_elem_of_further, H7|rewrite Hc'; apply list_elem_of_here].
    + intros k' Hk. rewrite field_of_drop. case_bool_decide as E; [done|]. apply elem_of_cons in Hk as [->|Hk]; [done|by apply H8].
  - constructor; acc_fields; try assumption.
    + intros k' v'. rewrite field_of_put. case_bool_decide as E; [|apply H6]. intros [= <-]. subst. split; [done|]. by exists f, r.
    + intros k' Hk. rewrite field_of_put. case_bool_decide as E; [by subst|by apply H8].
Qed.
Lemma merge_all_collected b d x rs f ty raw r es acc :
  (f, r) ∈ rs → (∀ e, e ∈ es → e ∈ extracted_extras r) → collected b d x rs acc → collected b d x rs (foldl (merge_extra pl f ty raw r) acc es).
Proof.
  intros Hr. revert acc. induction es as [|e es IH]; intros acc He Ha; [done|]. cbn [foldl]. apply IH.
  - intros e' He'. by apply He, list_elem_of_further.
  - apply merge_collected; [done|apply He, list_elem_of_here|done].
Qed.
Lemma take_collected b d x rs f raw r acc :
  collected b d x rs acc →
  collected (b || low_confidence r) (put f (value r) d) (py_fmin x (confidence r)) (rs ++ [(f, r)]) (take_result pl f raw r acc).
Proof.
  intros Ha. unfold take_result. cbv zeta.
  set (acc1 := mkAcc (put f (value r) (ac_data acc)) _ _ _ _ _ _ _ _ _).
  assert (collected b (put f (value r) d) (py_fmin x (confidence r)) (rs ++ [(f, r)]) acc1) as H1.
  { destruct Ha as [H1 H2 H3 H4 H5 H6 H7 H8]. unfold acc1; constructor; acc_fields; try assumption; [by rewrite H1|by rewrite H2|by rewrite H3|].
    intros k v Hk. destruct (H6 k v Hk) as (Hm & f' & r' & Hr & He). split; [done|]. exists f', r'. split; [apply elem_of_app; by left|done]. }
  apply (merge_all_collected _ _ _ _ f (column_type pl f) raw r (extracted_extras r)) in H1;
    [|apply elem_of_app; right; apply list_elem_of_here|done].
  set (acc2 := foldl _ acc1 _) in *. clearbody acc2. clear acc1.
  set (acc3 := match to_remarks r with Some (_ :: _) => _ | _ => acc2 end).
  assert (collected b (put f (value r) d) (py_fmin x (confidence r)) (rs ++ [(f, r)]) acc3) as H3
    by (unfold acc3; destruct (to_remarks r) as [[|]|]; [done|destruct H1; by constructor|done]).
  clearbody acc3. clear H1. destruct (low_confidence r); [|by rewrite orb_false_r]. destruct H3. rewrite orb_true_r. constructor; acc_fields; try assumption; [done|by rewrite nil_snoc].
Qed.
Lemma blank_collected b d x rs f acc :
  collected b d x rs acc →
  collected b (put f ONone d) x rs
    (mkAcc (put f ONone (ac_data acc)) (ac_confidence acc) (ac_needs_review acc) (ac_review_fields acc) (ac_remarks acc)
       (ac_extras acc) (ac_conflicts acc) (ac_results acc) (ac_sources acc) (ac_conflicted acc)).
Proof. intros [H1 H2 H3 H4 H5 H6 H7 H8]. constructor; acc_fields; try assumption. by rewrite H1. Qed.
Definition put_cells (cells : list (string * option normalize_result)) (d : list (string * obj)) : list (string * obj) :=
  foldl (λ d e, put e.1 (cell_value e.2) d) d cells.
Lemma cells_collected c row b d x rs acc :
  collected b d x rs acc →
  match read_cells c row with
  | Err e => normalize_cells pl c row acc = Err e
  | Ok cells => ∃ acc', normalize_cells pl c row acc = Ok acc' ∧
      collected (b || existsb (λ e, low_confidence e.2) (results_of cells)) (put_cells cells d)
        (foldl py_fmin x (map (λ e, confidence e.2) (results_of cells))) (rs ++ results_of cells) acc'
  end.
Proof.
  revert b d x rs acc. induction row as [|[k v] row IH]; intros b d x rs acc Ha.
  { exists acc. split; [done|]. cbn. by rewrite orb_false_r, app_nil_r. }
  cbn [read_cells normalize_cells]. destruct (raw_text v) as [|z w].
  - cbn [res_bind]. specialize (IH _ _ _ _ _ (blank_collected _ _ _ _ k _ Ha)). by destruct (read_cells c row) as [cells|]; cbn [res_bind].
  - destruct (_normalize_field _ _ _ _ _) as [r|]; cbn [res_bind]; [|done].
    specialize (IH _ _ _ _ _ (take_collected _ _ _ _ k (z :: w) r _ Ha)). destruct (read_cells c row) as [cells|]; cbn [res_bind]; [|done].
    destruct IH as (acc' & E & Hc). exists acc'. split; [done|]. cbn [results_of omap list_omap fst snd fmap option_fmap option_map existsb map foldl put_cells].
    by rewrite <- app_assoc, <- orb_assoc in Hc.
Qed.
Lemma value_of_put k cells d :
  NoDup (map fst cells) →
  field_of k (put_cells cells d) = match value_of k cells with Some r => Some (cell_value r) | None => field_of k d end.
Proof.
  revert d. induction cells as [|[a r] cells IH]; intros d Hnd; [done|]. apply NoDup_cons in Hnd as [Hin Hnd].
  change (put_cells ((a, r) :: cells) d) with (put_cells cells (put a (cell_value r) d)). rewrite IH by done. unfold value_of. cbn [List.find fst snd].
  rewrite field_of_put. destruct (bool_decide_reflect (a = k)) as [->|]; [|done].
  destruct (List.find _ cells) as [[a' r']|] eqn:E; [|done]. apply find_some in E as [He Hk]. apply bool_decide_eq_true in Hk. cbn in Hk. subst.
  destruct Hin. apply list_elem_of_fmap. exists (k, r'). split; [done|by apply list_elem_of_In].
Qed.
Lemma field_of_cons k a v es : field_of k ((a, v) :: es) = if bool_decide (a = k) then Some v else field_of k es.
Proof. unfold field_of. cbn. by destruct (bool_decide (a = k)). Qed.
Lemma merged_data k es s :
  field_of k (foldl merge_into_data s es).1 = match field_of k s.1 with Some v => Some v | None => field_of k es end.
Proof.
  revert s. induction es as [|[a v] es IH]; intros [d t]; [by cbn [foldl fst]; destruct (field_of k d)|].
  cbn [foldl]. rewrite IH. unfold merge_into_data. cbn [fst snd]. rewrite (field_of_cons k a v es).
  destruct (field_of a d) as [w|] eqn:Ea.
  - assert (field_of k (if obj_eqb w v then (d, t) else (d, t ++ [u "Extracted " ++ u a ++ u "=" ++ str_of show_container v
                         ++ u " from normalizer but explicit column has " ++ u a ++ u "=" ++ str_of show_container w])).1 = field_of k d) as ->
      by (by destruct (obj_eqb w v)).
    destruct (bool_decide_reflect (a = k)) as [->|]; [by rewrite Ea|done].
  - cbn [fst]. rewrite field_of_put. destruct (bool_decide_reflect (a = k)) as [->|]; [by rewrite Ea|done].
Qed.
Lemma read_cells_keys c row cells : read_cells c row = Ok cells → map fst cells = map fst row.
Proof.
  revert cells. induction row as [|[k v] row IH]; intros cells; cbn [read_cells]; [by intros <-%Ok_inj|]. intros E.
  destruct (match raw_text v with [] => _ | _ => _ end) as [r|]; cbn [res_bind] in E; [|done].
  destruct (read_cells c row) as [rs|]; cbn [res_bind] in E; [|done]. apply Ok_inj in E. subst. cbn. by rewrite (IH rs).
Qed.
Lemma read_cells_typed c row cells k r : read_cells c row = Ok cells → (k, Some r) ∈ cells → column_ok (column_type pl k) k r.
Proof.
  revert cells. induction row as [|[a v] row IH]; intros cells; cbn [read_cells]; [intros <-%Ok_inj ?%elem_of_nil; done|]. intros E.
  destruct (match raw_text v with [] => _ | _ => _ end) as [r0|] eqn:E0; cbn [res_bind] in E; [|done].
  destruct (read_cells c row) as [rs|]; cbn [res_bind] in E; [|done]. apply Ok_inj in E. subst.
  intros [Er|Hr]%elem_of_cons; [|by eapply IH]. apply pair_equal_spec in Er as [-> <-]. destruct (raw_text v) as [|z w]; [done|].
  destruct (_normalize_field _ _ _ _ _) as [r'|] eqn:E1; cbn [res_bind] in E0; [|done]. apply Ok_inj, Some_inj in E0. subst. by eapply field_typed.
Qed.
Lemma start_collected : collected false [] certain [] empty_acc.
Proof. constructor; try done. all: by intros ? ?%elem_of_nil. Qed.
(** A row is read cell by cell, then the extracted values fill the missing keys. *)
Lemma row_read row given :
  match read_cells (default (_build_context pl row) given) row with
  | Err e => normalize_row pl row given = Err e
  | Ok cells => ∃ acc nr, normalize_row pl row given = Ok nr ∧
      collected (existsb (λ e, low_confidence e.2) (results_of cells)) (put_cells cells [])
        (foldl py_fmin certain (map (λ e, confidence e.2) (results_of cells))) (results_of cells) acc
      ∧ nr_data nr = (foldl merge_into_data (put_cells cells [], ac_remarks acc) (ac_extras acc)).1
      ∧ nr_confidence nr = ac_confidence acc ∧ nr_needs_review nr = ac_needs_review acc ∧ nr_review_fields nr = ac_review_fields acc
      ∧ nr_extras nr = ac_extras acc ∧ nr_extra_conflicts nr = ac_conflicts acc ∧ nr_field_results nr = ac_results acc
  end.
Proof.
  unfold normalize_row. cbv zeta. pose proof (cells_collected (default (_build_context pl row) given) row _ _ _ _ _ start_collected) as Hc.
  destruct (read_cells _ row) as [cells|e]; [|by rewrite Hc].
  destruct Hc as (acc & E & Hc). rewrite E. cbn [res_bind]. cbn [orb app] in Hc.
  destruct (foldl merge_into_data (ac_data acc, ac_remarks acc) (ac_extras acc)) as [data remarks] eqn:Em.
  exists acc. eexists. split; [reflexivity|]. split; [exact Hc|]. split; [|done]. rewrite <- (col_data _ _ _ _ _ Hc), Em. done.
Qed.
Lemma row_data row given cells acc nr k :
  NoDup (map fst row) → read_cells (default (_build_context pl row) given) row = Ok cells →
  nr_data nr = (foldl merge_into_data (put_cells cells [], ac_remarks acc) (ac_extras acc)).1 →
  field_of k (nr_data nr) = match value_of k cells with Some r => Some (cell_value r) | None => field_of k (ac_extras acc) end.
Proof.
  intros Hnd Ec ->. rewrite merged_data. cbn [fst]. rewrite value_of_put; [by destruct (value_of k cells)|]. by rewrite (read_cells_keys _ _ _ Ec).
Qed.
End Row.

(** An environment: no master data, no close names, plain spellings. *)
Definition plain_env : PipelineEnv := {|
  show_set := λ l, join_texts [44] (map u l);
  show_container := λ _, u "...";
  show_repr := λ v, match v with OText t => [39] ++ t ++ [39] | _ => u "..." end;
  extractOne := λ _ _, None;
  master := mkMaster [] [] []
|}.
Definition sample_columns : pipeline :=
  new_pipeline "listing" [("phone", "phone"); ("surface_min", "surface_min"); ("beds", "beds"); ("type", "type"); ("notes", "notes")] [].
Definition sample_cells : list (string * obj) :=
  [("phone", OText (u "+213 555 12 34 56")); ("surface_min", OText (u "120 à 90 m²")); ("type", OText (u "Appartement F3"));
   ("notes", OText (u "x' OR 1=1")); ("beds", ONone)].

Definition sample_context : row_context := default (_build_context (H0 := plain_env) sample_columns sample_cells) None.
(** The cells of the sample as they are read: two values, and whether any is doubtful. *)
Lemma sample_read :
  match read_cells (H0 := plain_env) sample_columns sample_context sample_cells with
  | Ok cells => (cell_value <$> value_of "phone" cells, cell_value <$> value_of "beds" cells, existsb (λ e, low_confidence e.2) (results_of cells))
                = (Some (OText (u "0555123456")), Some ONone, true)
  | Err _ => False
  end.
Proof. vm_compute. reflexivity. Qed.

(** C25. A column holds the type it was mapped to.  Whatever the cell, its column has no value or one of its type: a phone of ten
    digits, an amount, a code, one of the known property types or actions, a boolean, a surface that is not negative, a
    count that is to be reviewed if it is negative, a floor, or a text within the limit and
    without control characters. *)
Theorem columns_hold_their_type `{Unicode} `{PipelineEnv} pl row given nr :
  NoDup (map fst row) → normalize_row pl row given = Ok nr →
  ∀ k, k ∈ map fst row →
  ∃ v, field_of k (nr_data nr) = Some v
    ∧ (v = ONone ∨ ∃ r, (k, r) ∈ nr_field_results nr ∧ v = value r ∧ column_ok (column_type pl k) k r).
Proof.
  intros Hnd E k Hk. pose proof (row_read pl row given) as Hr. destruct (read_cells _ _ row) as [cells|e] eqn:Ec; [|congruence].
  destruct Hr as (acc & nr' & E' & Hc & Ed & _ & _ & _ & _ & _ & E7). rewrite E in E'. apply Ok_inj in E'. subst nr'.
  rewrite (row_data pl row given cells acc nr k Hnd Ec Ed). rewrite <- (read_cells_keys _ _ _ _ Ec) in Hk.
  apply list_elem_of_fmap in Hk as ([k' r0] & -> & Hin). cbn [fst].
  destruct (value_of k' cells) as [r|] eqn:Ev.
  2: { exfalso. unfold value_of in Ev. destruct (List.find _ cells) eqn:Ef; [done|]. apply list_elem_of_In in Hin.
       pose proof (find_none _ _ Ef _ Hin) as Hx. cbn in Hx. by rewrite bool_decide_true in Hx. }
  exists (cell_value r). split; [done|]. destruct r as [r|]; [right|by left]. exists r.
  unfold value_of in Ev. destruct (List.find _ cells) as [[k2 r2]|] eqn:Ef; [|done]. apply find_some in Ef as [Hf Hk2].
  apply bool_decide_eq_true in Hk2. cbn in Hk2, Ev. injection Ev as ->. subst k2. apply list_elem_of_In in Hf.
  split_and!; [|done|by eapply read_cells_typed].
  rewrite E7, (col_results _ _ _ _ _ Hc). unfold results_of. apply list_elem_of_omap. exists (k', Some r). by split.
Qed.
Lemma columns_hold_their_type_witness :
  ∃ nr v, normalize_row (H0 := plain_env) sample_columns sample_cells None = Ok nr ∧ field_of "type" (nr_data nr) = Some v
    ∧ (v = ONone ∨ ∃ r, (("type", r) ∈ nr_field_results nr) ∧ v = value r ∧ column_ok "type" "type" r).
Proof.
  destruct (normalize_row (H0 := plain_env) sample_columns sample_cells None) as [nr|e] eqn:E; [|exfalso; revert E; vm_compute; discriminate].
  destruct (columns_hold_their_type (H0 := plain_env) sample_columns sample_cells None nr) with (k := "type") as (v & Hv & Hok).
  - apply (bool_decide_unpack _). vm_compute. exact I.
  - exact E.
  - apply (bool_decide_unpack _). vm_compute. exact I.
  - exists nr, v. split; [reflexivity|]. exact (conj Hv Hok).
Defined.

(** The other column goes through the same steps. *)
Ltac same_reading :=
  cbn [res_bind]; repeat match goal with E : ?x = _ |- context [?x] => progress (rewrite E; cbn [res_bind]) end; reflexivity.
(** A cell with two bounds is one range: the column of the least bound and the column of the greatest read the same
    bounds from it, in order and with the same confidence and review, each with the other bound as its extracted value. *)
Theorem range_columns_agree `{Unicode} t r :
  (_normalize_surface_range_value t "surface_min" = Ok r →
   ∃ low high r', _normalize_surface_range_value t "surface_max" = Ok r' ∧ flt high low = false
     ∧ value r = OFloat low ∧ extracted_extras r = [("surface_max", OFloat high)]
     ∧ value r' = OFloat high ∧ extracted_extras r' = [("surface_min", OFloat low)]
     ∧ confidence r' = confidence r ∧ needs_review r' = needs_review r)
  ∧ (_normalize_floor_range_value t "floor_min" = Ok r →
   ∃ low high r', _normalize_floor_range_value t "floor_max" = Ok r' ∧ low <= high
     ∧ value r = OInt low ∧ extracted_extras r = [("floor_max", OInt high)]
     ∧ value r' = OInt high ∧ extracted_extras r' = [("floor_min", OInt low)]
     ∧ confidence r' = confidence r ∧ needs_review r' = needs_review r).
Proof.
  split.
  - unfold _normalize_surface_range_value. cbv zeta. intros E. res_steps; try done.
    + do 3 eexists. split; [same_reading|]. split; [by eapply float_order|done].
    + do 3 eexists. split; [same_reading|]. split; [apply flt_irrefl|done].
  - unfold _normalize_floor_range_value. cbv zeta. intros E. res_steps; try done.
    + do 3 eexists. split; [same_reading|]. split; [by eapply int_order|done].
    + do 3 eexists. split; [same_reading|]. split; [apply Z.le_refl|done].
Qed.
Lemma range_columns_agree_witness :
  ∃ r, _normalize_floor_range_value (u "entre 5 et 2") "floor_min" = Ok r ∧ ∃ low high, low <= high ∧ value r = OInt low
    ∧ extracted_extras r = [("floor_max", OInt high)].
Proof.
  destruct (_normalize_floor_range_value (u "entre 5 et 2") "floor_min") as [r|e] eqn:E; [|exfalso; revert E; vm_compute; discriminate].
  exists r. split; [reflexivity|]. destruct (proj2 (range_columns_agree (u "entre 5 et 2") r) E) as (low & high & r' & _ & Ho & Hl & Hx & _).
  exists low, high. exact (conj Ho (conj Hl Hx)).
Defined.

(** ** Consequences *)

(** A price of more digits than a float has stops the whole row. *)
Example huge_price_stops_the_row :
  normalize_row (H0 := plain_env) (new_pipeline "offer" [("price", "price")] []) [("price", OText (repeat 57 309))] None
  = Err (OverflowError "int too large to convert to float").
Proof. vm_compute. reflexivity. Qed.
(** An empty column counts as explicit: the bedrooms of the type are not taken. *)
Definition f3_row : list (string * obj) := [("type", OText (u "F3")); ("beds", ONone)].
Example empty_column_hides_extracted :
  (let? nr := normalize_row (H0 := plain_env) (new_pipeline "offer" [("type", "type"); ("beds", "beds")] []) f3_row None in
   Ok (field_of "beds" (nr_data nr), field_of "beds" (nr_extras nr), nr_needs_review nr)) = Ok (Some ONone, Some (OInt 3), false).
Proof. vm_compute. reflexivity. Qed.
(** The reading chosen by the header is not marked as chosen in the list of readings. *)
Definition marked_candidates (r : normalize_result) : list (option obj) :=
  match field_of "interpretation_candidates" (extracted_extras r) with
  | Some (OList l) => map (λ c, match c with ODict d => field_of "selected_by_context" d | _ => None end) l
  | _ => []
  end.
Example chosen_reading_is_not_marked :
  (let? r := normalize_price (λ _, []) false centime_header (u "150 millions") in Ok (value r, marked_candidates r))
  = Ok (OInt 1500000, [Some (OBool false); Some (OBool false)]).
Proof. vm_compute. reflexivity. Qed.
