(* ===== verification/ImportRecovery.v ===== *)
(** * Recovery of imported rows

    src/server/services/import_recovery.py, import_recoverability.py and the lookups of import_agency_memory.py: what
    the aliases of an agency and the locations of a row add to it, and whether a person has to look at it.  The
    theorems follow the definitions. *)

From S2P Require Import Prelude PyValue PyFloat PyText PyRegex ImportText ImportNumbers ImportNormalizers ImportPrice ImportValidate ImportPipeline ImportTextProps ImportValidateProps ImportPipelineProps.
From Stdlib Require Import Ascii String SpecFloat.
Local Open Scope Z_scope.

(** ** Data *)

(** The dictionaries of [as_dict], as records. *)
(* src/server/services/import_types.py :: RecoveredField *)
Record recovered_field := mkRecovered {
  rv_field : string;
  rv_value : obj;
  rv_source : string;
  rv_confidence : float;
  rv_reason : text;
  rv_metadata : list (string * obj)
}.
(* src/server/services/import_types.py :: RecoveryCandidate *)
Record recovery_candidate := mkRecoveryCandidate {
  rc_field : string;
  rc_candidate_value : obj;
  rc_candidate_label : text;
  rc_confidence : float;
  rc_source : string;
  rc_reason : text;
  rc_metadata : list (string * obj)
}.
(* src/server/services/import_agency_memory.py :: AgencyAliasEntry *)
Record alias_entry := mkAlias {
  al_canonical_key : text;
  al_canonical_label : text;
  al_confirm_count : Z;
  al_metadata : list (string * obj)
}.
(** The aliases of an agency by domain and normalised text; rejected ones are not loaded. *)
(* src/server/services/import_agency_memory.py :: AgencyAliasMemory *)
Record alias_memory := mkMemory {
  am_trusted : list (string * list (text * alias_entry));
  am_shadow : list (string * list (text * alias_entry))
}.
(** A normalised row with the recovery fields of [NormalizedRow]. *)
(* src/core/importer/normalize_pipeline.py :: NormalizedRow [79-82] *)
Record recovery := mkRecovery {
  rr_row : normalized_row;
  rr_recovered_fields : list recovered_field;
  rr_recovery_candidates : list recovery_candidate;
  rr_blocking_reasons : list text;
  rr_recoverability_class : string
}.
Definition start_recovery (row : normalized_row) : recovery := mkRecovery row [] [] [] "auto_recoverable".
Definition rr_data (r : recovery) : list (string * obj) := nr_data (rr_row r).
Definition with_data (f : list (string * obj) → list (string * obj)) (r : recovery) : recovery :=
  let n := rr_row r in
  mkRecovery (mkRow (f (nr_data n)) (nr_confidence n) (nr_needs_review n) (nr_review_fields n) (nr_remarks n) (nr_extras n)
                (nr_extra_conflicts n) (nr_field_results n))
    (rr_recovered_fields r) (rr_recovery_candidates r) (rr_blocking_reasons r) (rr_recoverability_class r).
Definition add_recovered (x : recovered_field) (r : recovery) : recovery :=
  mkRecovery (rr_row r) (rr_recovered_fields r ++ [x]) (rr_recovery_candidates r) (rr_blocking_reasons r) (rr_recoverability_class r).
Definition add_candidates (xs : list recovery_candidate) (r : recovery) : recovery :=
  mkRecovery (rr_row r) (rr_recovered_fields r) (rr_recovery_candidates r ++ xs) (rr_blocking_reasons r) (rr_recoverability_class r).
Definition add_blocking (t : text) (r : recovery) : recovery :=
  mkRecovery (rr_row r) (rr_recovered_fields r) (rr_recovery_candidates r) (rr_blocking_reasons r ++ [t]) (rr_recoverability_class r).

Section Recovery.
Context `{Unicode} `{PipelineEnv}.

(** ** Aliases *)

Definition alias_accents : list (Z * text) :=
  pairing "éèêëàâäîïôöùûüç" "eeeeaaaiioouuuc" ++ [(39, []); (95, [32]); (45, [32])].
(* src/server/services/import_agency_memory.py :: _strip_accents *)
Definition alias_strip_accents (t : text) : text := normalize_whitespace (translate alias_accents t).
(* src/server/services/import_agency_memory.py :: normalize_alias_value *)
Definition normalize_alias_value (domain : string) (v : obj) : text :=
  match tstrip (str_or_empty show_container (Some v)) with
  | [] => []
  | t =>
      if bool_decide (domain = "location") then normalize_text t
      else if bool_decide (domain = "price") then
        replace1 44 [46] (replace1 32 [] (replace1 160 [] (alias_strip_accents (tlower t))))
      else alias_strip_accents (tlower t)
  end.
(* src/server/services/import_agency_memory.py :: _DOMAIN_BY_COLUMN_TYPE *)
Definition _DOMAIN_BY_COLUMN_TYPE : list (text * string) :=
  mappings [("location", "location"); ("type", "property_type"); ("action", "action"); ("price", "price")].
(* src/server/services/import_agency_memory.py :: _DOMAIN_BY_FIELD *)
Definition _DOMAIN_BY_FIELD : list (text * string) :=
  mappings [("location", "location"); ("locations", "location"); ("wilaya", "location"); ("type", "property_type");
            ("action", "action"); ("budget", "price"); ("budget_min", "price"); ("budget_max", "price"); ("price", "price")].
(* src/server/services/import_agency_memory.py :: alias_domain_for_column_type *)
Definition alias_domain_for_column_type (column_type : string) : option string :=
  mapped (tlower (tstrip (u column_type))) _DOMAIN_BY_COLUMN_TYPE.
(* src/server/services/import_agency_memory.py :: alias_domain_for_field *)
Definition alias_domain_for_field (field_name : string) : option string :=
  mapped (tlower (tstrip (u field_name))) _DOMAIN_BY_FIELD.
Definition alias_in (aliases : list (string * list (text * alias_entry))) (domain : string) (v : obj) : option alias_entry :=
  match normalize_alias_value domain v with
  | [] => None
  | t => value_of domain aliases ≫= entry t
  end.
(* src/server/services/import_agency_memory.py :: trusted_alias_entry *)
Definition trusted_alias_entry (memory : option alias_memory) (domain : string) (v : obj) : option alias_entry :=
  memory ≫= λ m, alias_in (am_trusted m) domain v.
(* src/server/services/import_agency_memory.py :: shadow_alias_entry *)
Definition shadow_alias_entry (memory : option alias_memory) (domain : string) (v : obj) : option alias_entry :=
  memory ≫= λ m, alias_in (am_shadow m) domain v.

(** ** Recovery *)

(* src/server/services/import_recovery.py :: _int_or_none *)
Definition _int_or_none (v : option obj) : res (option Z) :=
  match v with
  | Some (OBool b) => Ok (Some (if b then 1 else 0))
  | Some (OInt z) => Ok (Some z)
  | Some (OFloat x) => let? z := int_of_float x in Ok (Some z)
  | Some (OText t) => Ok (int_of_text t)
  | _ => Ok None
  end.
(** An integer other than zero. *)
Definition truthy_int (z : option Z) : option Z := match z with Some z => if z =? 0 then None else Some z | None => None end.
Definition setdefault (k : string) (v : obj) (d : list (string * obj)) : list (string * obj) :=
  match field_of k d with None => put k v d | Some _ => d end.
(* src/server/services/import_recovery.py :: _set_wilaya *)
Definition _set_wilaya (code : Z) (r : recovery) : recovery :=
  with_data (λ d, setdefault "wilaya_id" (OInt code) (put "wilaya" (OInt code) d)) r.
Definition zfill_code (z : Z) : text := if in_range 0 9 z then 48 :: text_of_Z z else text_of_Z z.
(* src/core/importer/normalizers/location_normalizer.py :: LocationNormalizer.get_wilaya_name *)
Definition get_wilaya_name (code : text) : option text :=
  w_fr <$> List.find (λ w, bool_decide (w_code w = code)) (md_wilayas master).
(* src/core/importer/normalizers/location_normalizer.py :: LocationNormalizer.get_commune_name *)
Definition get_commune_name (code : text) : option text :=
  if 5 <=? Z.of_nat (List.length code) then
    match entry (slice 0 2 code) (md_communes master) with
    | Some communes => co_fr <$> List.find (λ c, bool_decide (co_code c = code)) communes
    | None => None
    end
  else None.
Definition wilaya_label (code : Z) : text :=
  match get_wilaya_name (zfill_code code) with Some ((_ :: _) as t) => t | _ => text_of_Z code end.
Definition or_text (a b : text) : text := match a with [] => b | _ => a end.
(* src/server/services/import_recovery.py :: _recover_from_alias *)
Definition _recover_from_alias (field_name : string) (raw_value : obj) (domain : string) (memory : option alias_memory) (r : recovery)
  : res recovery :=
  let current := default ONone (field_of field_name (rr_data r)) in
  match trusted_alias_entry memory domain raw_value with
  | Some trusted =>
      let final_value := OText (or_text (al_canonical_key trusted) (al_canonical_label trusted)) in
      let r :=
        if obj_eqb current final_value then r
        else add_recovered (mkRecovered field_name final_value "agency_alias_trusted" certain
                              (u "Trusted agency alias recovered " ++ u field_name ++ u ".")
                              [("canonical_label", OText (al_canonical_label trusted))])
               (with_data (put field_name final_value) r) in
      if bool_decide (domain = "location") then
        let? code := _int_or_none (field_of "wilaya_code" (al_metadata trusted)) in
        let? known := _int_or_none (field_of "wilaya" (rr_data r)) in
        match truthy_int code, truthy_int known with
        | Some code, None =>
            Ok (add_recovered (mkRecovered "wilaya" (OInt code) "agency_alias_trusted" certain
                                 (u "Trusted agency alias for " ++ u field_name ++ u " implies wilaya " ++ wilaya_label code ++ u ".") [])
                  (_set_wilaya code r))
        | _, _ => Ok r
        end
      else Ok r
  | None =>
      match shadow_alias_entry memory domain raw_value with
      | Some shadow =>
          let candidate_value := OText (or_text (al_canonical_key shadow) (al_canonical_label shadow)) in
          if obj_eqb current candidate_value then Ok r
          else
            Ok (add_candidates [mkRecoveryCandidate field_name candidate_value (or_text (al_canonical_label shadow) (al_canonical_key shadow))
                                  (py_fmin (float_lit 85 2) (fadd (float_lit 55 2) (fmul (of_Z (al_confirm_count shadow)) (float_lit 1 1))))
                                  "agency_alias_shadow" (u "Shadow agency alias may recover " ++ u field_name ++ u ".")
                                  [("canonical_key", OText (al_canonical_key shadow))]] r)
      | None => Ok r
      end
  end.
(* src/server/services/import_recovery.py :: _location_candidates *)
Definition _location_candidates (raw_value : obj) : list text :=
  match tstrip (str_or_empty show_container (Some raw_value)) with [] => [] | t => extract_location_candidates t end.
(** What one candidate of a location tells of the wilaya. *)
Definition candidate_wilaya (memory : option alias_memory) (candidate : text) : res (list Z * list recovery_candidate) :=
  let codes (z : option Z) := match truthy_int z with Some z => [z] | None => [] end in
  match trusted_alias_entry memory "location" (OText candidate) with
  | Some trusted => let? code := _int_or_none (field_of "wilaya_code" (al_metadata trusted)) in Ok (codes code, [])
  | None =>
      let result := normalize_location extractOne master None candidate in
      let extras := extracted_extras result in
      let label_of_value := str_or_empty show_container (Some (value result)) in
      if negb (falsy (field_of "is_wilaya" extras)) then
        let? code := _int_or_none (Some (value result)) in Ok (codes code, [])
      else
        let? code := _int_or_none (field_of "wilaya_code" extras) in
        let code :=
          match code with
          | Some z => Some z
          | None =>
              let raw_code := tstrip label_of_value in
              if all_digits raw_code && (5 <=? Z.of_nat (List.length raw_code)) then int_of_text (slice 0 2 raw_code) else None
          end in
        let fuzzy := fle (float_lit 7 1) (confidence result) && flt (confidence result) (float_lit 9 1) in
        let shown := str_of show_container (value result) in
        let label := or_text (str_or_empty show_container (field_of "matched_name" extras)) (default [] (get_commune_name shown)) in
        Ok (codes code,
            if fuzzy then
              [mkRecoveryCandidate "location" (value result) (or_text label shown) (confidence result) "fuzzy_master"
                 (u "Fuzzy location match needs review confirmation.") [("wilaya_code", OInt (default 0 code))]]
            else [])
  end.
Fixpoint each_candidate (memory : option alias_memory) (candidates : list text) : res (list Z * list recovery_candidate) :=
  match candidates with
  | [] => Ok ([], [])
  | c :: cs =>
      let? x := candidate_wilaya memory c in
      let? y := each_candidate memory cs in
      Ok (x.1 ++ y.1, x.2 ++ y.2)
  end.
(* src/server/services/import_recovery.py :: _resolved_location_wilaya_codes *)
Definition _resolved_location_wilaya_codes (raw_value : obj) (memory : option alias_memory) : res (list Z * list recovery_candidate) :=
  each_candidate memory (_location_candidates raw_value).
(** [raw_value in {None, EmptyString}], which hashes the value. *)
Definition is_blank_cell (v : option obj) : res bool :=
  match v with
  | None | Some ONone | Some (OText []) => Ok true
  | Some (OList _) | Some (ODict _) => Err (TypeError "unhashable type")
  | _ => Ok false
  end.
(** The wilayas of the location columns, a set, and the candidates to confirm. *)
Fixpoint location_columns (raw_row : list (string * obj)) (memory : option alias_memory) (column_types : list (string * string))
  : res (list Z * list recovery_candidate) :=
  match column_types with
  | [] => Ok ([], [])
  | (field_name, column_type) :: cols =>
      let? here :=
        if bool_decide (column_type = "location") then
          let? is_blank := is_blank_cell (field_of field_name raw_row) in
          if is_blank : bool then Ok ([], [])
          else _resolved_location_wilaya_codes (default ONone (field_of field_name raw_row)) memory
        else Ok ([], []) in
      let? rest := location_columns raw_row memory cols in
      Ok (here.1 ++ rest.1, here.2 ++ rest.2)
  end.
(* src/server/services/import_recovery.py :: _recover_location_context *)
Definition _recover_location_context (raw_row : list (string * obj)) (column_types : list (string * string)) (entity_type : string)
    (memory : option alias_memory) (r : recovery) : res recovery :=
  let? known := _int_or_none (field_of "wilaya" (rr_data r)) in
  match truthy_int known with
  | Some _ => Ok r
  | None =>
      let? found_ := location_columns raw_row memory column_types in
      let r := add_candidates found_.2 r in
      match remove_dups found_.1 with
      | [code] =>
          Ok (add_recovered (mkRecovered "wilaya" (OInt code) "location_context" certain (u "Recovered wilaya from normalized location context.")
                               [("wilaya_label", OText (wilaya_label code))])
                (_set_wilaya code r))
      | _ :: _ => Ok (add_blocking (u "Location candidates span multiple wilayas and need human review.") r)
      | [] =>
          if is_in_names entity_type ["demande"; "offer"] && match rr_recovery_candidates r with [] => true | _ => false end
          then Ok (add_blocking (u "Unable to recover wilaya from location context.") r)
          else Ok r
      end
  end.
(* src/server/services/import_recovery.py :: _recover_parent_context *)
Definition _recover_parent_context (parent_context : option (list (string * obj))) (source : string) (r : recovery) : res recovery :=
  match parent_context with
  | None => Ok r
  | Some parent =>
      let? known := _int_or_none (field_of "wilaya" (rr_data r)) in
      match truthy_int known with
      | Some _ => Ok r
      | None =>
          let? code := _int_or_none (if falsy (field_of "wilaya" parent) then field_of "wilaya_id" parent else field_of "wilaya" parent) in
          match code with
          | None => Ok r
          | Some code =>
              Ok (add_recovered (mkRecovered "wilaya" (OInt code) source (float_lit 9 1)
                                   (u "Recovered wilaya from compatible parent/bundle context.") [])
                    (_set_wilaya code r))
          end
      end
  end.
(* src/server/services/import_recovery.py :: _review_field_names *)
Definition _review_field_names (r : recovery) : list text :=
  flat_map (λ f, match tstrip (u (rf_field_name f)) with [] => [] | t => [t] end) (nr_review_fields (rr_row r)).
(* src/server/services/import_recovery.py :: _has_raw_value *)
Definition _has_raw_value (raw_row : list (string * obj)) (field_name : string) : bool :=
  match field_of field_name raw_row with
  | None | Some ONone => false
  | Some (OText t) => negb (blank t)
  | Some _ => true
  end.
Definition has_no_value (k : string) (r : recovery) : bool :=
  match field_of k (rr_data r) with None | Some ONone => true | Some _ => false end.
Definition mirrored (k : string) (v : obj) (conf : float) (reason : string) (r : recovery) : recovery :=
  add_recovered (mkRecovered k v "bundle_context" conf (u reason) []) (with_data (put k v) r).
(** The rule for a missing bound: [missing] gets [v] when [given] has a value and neither is under review. *)
Definition fill_bound (given missing : string) (v : obj) (conf : float) (reason : string) (r : recovery) : option recovery :=
  let reviewed (k : string) := is_in_texts (u k) (_review_field_names r) in
  if negb (has_no_value given r) && has_no_value missing r && negb (reviewed given) && negb (reviewed missing)
  then Some (mirrored missing v conf reason r) else None.
Definition value_at (k : string) (r : recovery) : obj := default ONone (field_of k (rr_data r)).
(* src/server/services/import_recovery.py :: _materialize_demande_preference_defaults *)
Definition _materialize_demande_preference_defaults (raw_row : list (string * obj)) (r0 : recovery) : recovery :=
  let reviewed (k : string) := is_in_texts (u k) (_review_field_names r0) in
  let r :=
    match fill_bound "budget_max" "budget_min" (OFloat (of_Z 0)) (float_lit 95 2) "Single budget value was interpreted as a maximum preference." r0 with
    | Some r => r
    | None => default r0 (fill_bound "budget_min" "budget_max" (value_at "budget_min" r0) (float_lit 9 1)
                            "Single budget bound was mirrored so the demande range stays usable." r0)
    end in
  let exact := "Single surface value was treated as an exact preference." in
  let r :=
    match fill_bound "surface_min" "surface_max" (value_at "surface_min" r) (float_lit 95 2) exact r with
    | Some r => r
    | None => default r (fill_bound "surface_max" "surface_min" (value_at "surface_max" r) (float_lit 95 2) exact r)
    end in
  if has_no_value "beds_min" r && negb (reviewed "beds_min") && negb (_has_raw_value raw_row "beds_min")
  then mirrored "beds_min" (OInt 0) (float_lit 8 1) "Missing bedroom preference defaulted to no minimum." r
  else r.

(** ** Recoverability *)

(* src/server/services/import_recoverability.py :: _REQUIRED_FIELDS *)
Definition _REQUIRED_FIELDS (entity_type : string) : list string :=
  default [] (value_of entity_type
    [("client", ["family_name"; "phone"]); ("listing", ["phone"]); ("demande", ["action"; "type"; "wilaya"]); ("offer", offer_required)]).
(* src/server/services/import_recoverability.py :: _RELATED_RECOVERY_FIELDS *)
Definition _RELATED_RECOVERY_FIELDS : list (string * list string) :=
  [("wilaya", ["wilaya"; "location"; "locations"]); ("location", ["location"; "locations"])].
(* src/server/services/import_recoverability.py :: _has_value *)
Definition _has_value (v : option obj) : bool :=
  match v with None | Some ONone => false | Some (OText t) => negb (blank t) | Some _ => true end.
(* src/server/services/import_recoverability.py :: _has_recovery_path *)
Definition _has_recovery_path (r : recovery) (field_name : string) : bool :=
  let related := default [field_name] (value_of field_name _RELATED_RECOVERY_FIELDS) in
  existsb (λ x, is_in_names (rv_field x) related) (rr_recovered_fields r)
  || existsb (λ x, is_in_names (rc_field x) related) (rr_recovery_candidates r)
  || existsb (λ x, is_in_names (rf_field_name x) related) (nr_review_fields (rr_row r)).
(** The reasons in order, stripped, without the blank ones and without repetitions. *)
Fixpoint unique_reasons (seen : list text) (reasons : list text) : list text :=
  match reasons with
  | [] => []
  | t :: ts =>
      match tstrip t with
      | [] => unique_reasons seen ts
      | t' => if is_in_texts t' seen then unique_reasons seen ts else t' :: unique_reasons (t' :: seen) ts
      end
  end.
Definition any_value (r : recovery) (fields : list string) : bool := existsb (λ k, _has_value (field_of k (rr_data r))) fields.
(** One of two bounds has a value or a way to one. *)
Definition bound_missing (r : recovery) (low high : string) : bool :=
  negb (any_value r [low; high]) && negb (_has_recovery_path r low || _has_recovery_path r high).
(* src/server/services/import_recoverability.py :: blocking_reasons_for_row *)
Definition blocking_reasons_for_row (entity_type : string) (deferred : list string) (r : recovery) : list text :=
  let demande := bool_decide (entity_type = "demande") in
  unique_reasons []
    (rr_blocking_reasons r
     ++ flat_map (λ k, if is_in_names k deferred then []
                       else if _has_value (field_of k (rr_data r)) then []
                       else if _has_recovery_path r k then []
                       else [u "Missing required field: " ++ u k]) (_REQUIRED_FIELDS entity_type)
     ++ (if demande && bound_missing r "budget_min" "budget_max" then [u "Missing required field: budget"] else [])
     ++ (if demande && bound_missing r "surface_min" "surface_max" then [u "Missing required field: surface"] else [])
     ++ (if bool_decide (entity_type = "client") && negb (any_value r ["family_name"; "phone"])
         then [u "No usable client root identity could be recovered."] else [])
     ++ (if bool_decide (entity_type = "listing") && negb (any_value r ["phone"; "family_name"])
         then [u "No usable listing root identity could be recovered."] else [])).
(* src/server/services/import_recoverability.py :: classify_row_recoverability *)
Definition classify_row_recoverability (entity_type : string) (deferred : list string) (r : recovery) : string :=
  match blocking_reasons_for_row entity_type deferred r with
  | _ :: _ => "blocking"
  | [] =>
      match rr_recovery_candidates r with
      | _ :: _ => "review_recoverable"
      | [] => if nr_needs_review (rr_row r) then "review_recoverable" else "auto_recoverable"
      end
  end.

(** ** The whole *)

Fixpoint recover_aliases (memory : option alias_memory) (column_types : list (string * string)) (raw_row : list (string * obj)) (r : recovery)
  : res recovery :=
  match raw_row with
  | [] => Ok r
  | (field_name, raw_value) :: cells =>
      let? r :=
        match or_else (alias_domain_for_column_type (default EmptyString (value_of field_name column_types))) (alias_domain_for_field field_name) with
        | None => Ok r
        | Some domain => _recover_from_alias field_name raw_value domain memory r
        end in
      recover_aliases memory column_types cells r
  end.
(** The review flag and the remarks at the end; a remark is not repeated. *)
Definition conclude (entity_type : string) (deferred : list string) (r : recovery) : recovery :=
  let reasons := blocking_reasons_for_row entity_type deferred r in
  let r := mkRecovery (rr_row r) (rr_recovered_fields r) (rr_recovery_candidates r) reasons (rr_recoverability_class r) in
  let class := classify_row_recoverability entity_type deferred r in
  let n := rr_row r in
  mkRecovery (mkRow (nr_data n) (nr_confidence n) (nr_needs_review n || negb (bool_decide (class = "auto_recoverable"))) (nr_review_fields n)
                (foldl (λ remarks t, if is_in_texts t remarks then remarks else remarks ++ [t]) (nr_remarks n) reasons)
                (nr_extras n) (nr_extra_conflicts n) (nr_field_results n))
    (rr_recovered_fields r) (rr_recovery_candidates r) reasons class.
(* src/server/services/import_recovery.py :: apply_row_recovery *)
Definition apply_row_recovery (normalized : normalized_row) (raw_row : list (string * obj)) (entity_type : string)
    (column_types : list (string * string)) (memory : option alias_memory) (parent_context bundle_context : option (list (string * obj)))
    (deferred : list string) : res recovery :=
  let? r := recover_aliases memory column_types raw_row (start_recovery normalized) in
  let? r := _recover_location_context raw_row column_types entity_type memory r in
  let? r := _recover_parent_context parent_context "parent_context" r in
  let? r := _recover_parent_context bundle_context "bundle_context" r in
  let r := if bool_decide (entity_type = "demande") then _materialize_demande_preference_defaults raw_row r else r in
  Ok (conclude entity_type deferred r).
End Recovery.

Lemma drop_space_keeps t c : is_space c = false → c ∈ t → c ∈ drop_space t.
Proof.
  intros Hc. induction t as [|d t IH]; [done|]. cbn. destruct (is_space d) eqn:E; [|done]. intros [->|Ht]%elem_of_cons; [congruence|by apply IH].
Qed.
Lemma tstrip_keeps t c : is_space c = false → c ∈ t → c ∈ tstrip t.
Proof.
  intros Hc Ht. unfold tstrip. rewrite list_elem_of_In, <- in_rev, <- list_elem_of_In. apply drop_space_keeps; [done|].
  rewrite list_elem_of_In, <- in_rev, <- list_elem_of_In. by apply drop_space_keeps.
Qed.
(** A text that begins with a letter is not blank. *)
Lemma missing_not_blank k : tstrip (u "Missing required field: " ++ u k) ≠ [].
Proof.
  set (t := u k). intros E. assert (77 ∈ tstrip (u "Missing required field: " ++ t)) as Hin; [|rewrite E in Hin; by apply elem_of_nil in Hin].
  clear E. apply tstrip_keeps; [vm_compute; reflexivity|apply elem_of_app; left; apply (bool_decide_unpack _); vm_compute; exact I].
Qed.
Section Recorded.
Context `{Unicode} `{PipelineEnv} (n : normalized_row).
(** A field is that of the row, or its value was recovered and recorded; nothing else of the row changes. *)
Record recorded (r : recovery) : Prop := {
  rd_data : ∀ k, k ≠ "wilaya_id" → field_of k (rr_data r) = field_of k (nr_data n)
                ∨ ∃ x, x ∈ rr_recovered_fields r ∧ rv_field x = k ∧ field_of k (rr_data r) = Some (rv_value x);
  rd_fields : ∀ k, is_Some (field_of k (nr_data n)) → is_Some (field_of k (rr_data r));
  rd_review : nr_needs_review (rr_row r) = nr_needs_review n;
  rd_remarks : nr_remarks (rr_row r) = nr_remarks n;
  rd_review_fields : nr_review_fields (rr_row r) = nr_review_fields n
}.
Lemma recorded_start : recorded (start_recovery n).
Proof. constructor; try done. intros k _. by left. Qed.
Lemma data_with f r : rr_data (with_data f r) = f (rr_data r).
Proof. done. Qed.
Lemma data_added f x r : rr_data (add_recovered x (with_data f r)) = f (rr_data r).
Proof. done. Qed.
Lemma recorded_put x r : recorded r → recorded (add_recovered x (with_data (put (rv_field x) (rv_value x)) r)).
Proof.
  intros [D1 D2 D3 D4 D5]. constructor; try done.
  - intros k Hk. rewrite data_added, field_of_put. case_bool_decide as E.
    + right. exists x. split_and!; [apply elem_of_app; right; apply list_elem_of_here|done|done].
    + destruct (D1 k Hk) as [Hd|(y & Hy & Hf & Hv)]; [by left|]. right. exists y. split_and!; [apply elem_of_app; by left|done|done].
  - intros k Hk. rewrite data_added, field_of_put. case_bool_decide; [done|by apply D2].
Qed.
Lemma recorded_wilaya_id v r : recorded r → recorded (with_data (setdefault "wilaya_id" v) r).
Proof.
  intros [D1 D2 D3 D4 D5].
  assert (∀ k d, k ≠ "wilaya_id" → field_of k (setdefault "wilaya_id" v d) = field_of k d) as Hs.
  { intros k d Hk. unfold setdefault. destruct (field_of "wilaya_id" d); [done|]. rewrite field_of_put. by rewrite bool_decide_false by congruence. }
  constructor; try done.
  - intros k Hk. rewrite data_with, Hs by done. by apply D1.
  - intros k Hk. rewrite data_with. destruct (decide (k = "wilaya_id")) as [->|Hk']; [|rewrite Hs by done; by apply D2].
    unfold setdefault. destruct (field_of "wilaya_id" (rr_data r)) eqn:E; [by rewrite E|]. rewrite field_of_put. by rewrite bool_decide_true by done.
Qed.
Lemma with_data_add f x r : with_data f (add_recovered x r) = add_recovered x (with_data f r).
Proof. done. Qed.
Lemma recorded_wilaya x code r :
  rv_field x = "wilaya" → rv_value x = OInt code → recorded r → recorded (add_recovered x (_set_wilaya code r)).
Proof.
  intros Hf Hv Hr. apply (recorded_put x), (recorded_wilaya_id (OInt code)) in Hr. rewrite with_data_add, Hf, Hv in Hr. exact Hr.
Qed.
Lemma recorded_candidates xs r : recorded r → recorded (add_candidates xs r).
Proof. intros []. by constructor. Qed.
Lemma recorded_blocking t r : recorded r → recorded (add_blocking t r).
Proof. intros []. by constructor. Qed.
Lemma recorded_alias f v domain memory r r' : recorded r → _recover_from_alias f v domain memory r = Ok r' → recorded r'.
Proof.
  intros Hr. unfold _recover_from_alias. destruct (trusted_alias_entry memory domain v) as [a|].
  - cbv zeta. set (final := OText _). set (r1 := if obj_eqb _ final then r else _).
    assert (recorded r1) as H1'.
    { unfold r1. destruct (obj_eqb _ final); [done|].
      exact (recorded_put (mkRecovered f final "agency_alias_trusted" certain _ [("canonical_label", OText (al_canonical_label a))]) r Hr). }
    clearbody r1. case_bool_decide; [|by intros <-%Ok_inj].
    destruct (_int_or_none (field_of "wilaya_code" _)) as [code|]; cbn [res_bind]; [|done].
    destruct (_int_or_none (field_of "wilaya" _)) as [known|]; cbn [res_bind]; [|done].
    destruct (truthy_int code) as [z|]; [|by intros <-%Ok_inj]. destruct (truthy_int known); intros <-%Ok_inj; [done|]. by apply recorded_wilaya.
  - destruct (shadow_alias_entry memory domain v); [|by intros <-%Ok_inj]. cbv zeta. destruct (obj_eqb _ _); intros <-%Ok_inj; [done|]. by apply recorded_candidates.
Qed.
Lemma recorded_aliases memory types cells r r' : recorded r → recover_aliases memory types cells r = Ok r' → recorded r'.
Proof.
  revert r. induction cells as [|[f v] cells IH]; intros r Hr; cbn [recover_aliases]; [by intros <-%Ok_inj|].
  destruct (or_else _ _) as [domain|]; [|cbn [res_bind]; by apply IH].
  destruct (_recover_from_alias _ _ _ _ _) as [r1|] eqn:E; cbn [res_bind]; [|done]. apply IH. by eapply recorded_alias.
Qed.
Lemma recorded_location raw types ty memory r r' : recorded r → _recover_location_context raw types ty memory r = Ok r' → recorded r'.
Proof.
  intros Hr. unfold _recover_location_context. destruct (_int_or_none _) as [known|]; cbn [res_bind]; [|done].
  destruct (truthy_int known); [by intros <-%Ok_inj|]. destruct (location_columns _ _ _) as [[codes cands]|]; cbn [res_bind fst snd]; [|done].
  apply (recorded_candidates cands) in Hr. destruct (remove_dups codes) as [|c [|c2 cs]].
  - destruct (_ && _); intros <-%Ok_inj; [by apply recorded_blocking|done].
  - intros <-%Ok_inj. by apply recorded_wilaya.
  - intros <-%Ok_inj. by apply recorded_blocking.
Qed.
Lemma recorded_parent parent source r r' : recorded r → _recover_parent_context parent source r = Ok r' → recorded r'.
Proof.
  intros Hr. unfold _recover_parent_context. destruct parent as [d|]; [|by intros <-%Ok_inj].
  destruct (_int_or_none _) as [known|]; cbn [res_bind]; [|done]. destruct (truthy_int known); [by intros <-%Ok_inj|].
  destruct (_int_or_none _) as [[z|]|]; cbn [res_bind]; [| |done]; intros <-%Ok_inj; [by apply recorded_wilaya|done].
Qed.
Lemma recorded_mirror k v x t r : recorded r → recorded (mirrored k v x t r).
Proof. intros Hr. exact (recorded_put (mkRecovered k v "bundle_context" x (u t) []) r Hr). Qed.
Lemma recorded_bound given missing v x t r : recorded r → recorded (default r (fill_bound given missing v x t r)).
Proof. intros Hr. unfold fill_bound. cbv zeta. destruct (_ && _); [by apply recorded_mirror|done]. Qed.
Lemma recorded_two_bounds g1 m1 v1 x1 t1 g2 m2 v2 x2 t2 r :
  recorded r → recorded (match fill_bound g1 m1 v1 x1 t1 r with Some r => r | None => default r (fill_bound g2 m2 v2 x2 t2 r) end).
Proof.
  intros Hr. pose proof (recorded_bound g1 m1 v1 x1 t1 r Hr) as Hb. destruct (fill_bound g1 m1 v1 x1 t1 r); [exact Hb|by apply recorded_bound].
Qed.
Lemma recorded_defaults raw r : recorded r → recorded (_materialize_demande_preference_defaults raw r).
Proof.
  intros Hr. unfold _materialize_demande_preference_defaults. cbv zeta.
  match goal with |- recorded (if _ then mirrored _ _ _ _ ?a else _) => assert (recorded a) as Ha by (apply recorded_two_bounds, recorded_two_bounds, Hr) end.
  destruct (_ && _); [by apply recorded_mirror|done].
Qed.
(** No reason, no candidate and a value or a way to one for each required field. *)
Lemma unique_reasons_nil reasons : unique_reasons [] reasons = [] → ∀ t, t ∈ reasons → tstrip t = [].
Proof.
  induction reasons as [|x xs IH]; cbn [unique_reasons]; [by intros _ t ?%elem_of_nil|].
  destruct (tstrip x) as [|c w] eqn:E; [|by cbn]. intros Hx t [->|Ht]%elem_of_cons; [done|by apply IH].
Qed.
Lemma automatic_fields ty deferred r :
  classify_row_recoverability ty deferred r = "auto_recoverable" →
  rr_recovery_candidates r = [] ∧ nr_needs_review (rr_row r) = false ∧ blocking_reasons_for_row ty deferred r = []
  ∧ ∀ k, k ∈ _REQUIRED_FIELDS ty → k ∉ deferred → _has_value (field_of k (rr_data r)) = true ∨ _has_recovery_path r k = true.
Proof.
  unfold classify_row_recoverability. destruct (blocking_reasons_for_row ty deferred r) as [|t ts] eqn:Eb; [|done].
  destruct (rr_recovery_candidates r); [|done]. destruct (nr_needs_review (rr_row r)) eqn:En; [done|]. intros _. split_and!; [done|done|done|]. intros k Hk Hd.
  destruct (_has_value (field_of k (rr_data r))) eqn:Ev; [by left|]. destruct (_has_recovery_path r k) eqn:Ep; [by right|]. exfalso.
  unfold blocking_reasons_for_row in Eb. cbv zeta in Eb.
  assert (tstrip (u "Missing required field: " ++ u k) = []) as Ht.
  { refine (unique_reasons_nil _ Eb _ _). apply elem_of_app. right. apply elem_of_app. left. apply list_elem_of_In, in_flat_map. exists k.
    split; [by apply list_elem_of_In|]. unfold is_in_names. rewrite (bool_decide_false (k ∈ deferred)) by done. rewrite Ev, Ep. by left. }
  by apply missing_not_blank in Ht.
Qed.
Lemma unique_reasons_elem seen reasons t : t ∈ unique_reasons seen reasons → t ≠ [] ∧ ∃ x, t = tstrip x.
Proof.
  revert seen. induction reasons as [|x xs IH]; intros seen; cbn [unique_reasons]; [by intros ?%elem_of_nil|].
  destruct (tstrip x) as [|c w] eqn:E; [apply IH|]. destruct (is_in_texts _ seen); [apply IH|].
  intros [->|Ht]%elem_of_cons; [|by apply IH in Ht]. split; [done|]. by exists x.
Qed.
Lemma reasons_not_blank ty deferred r t : t ∈ blocking_reasons_for_row ty deferred r → tstrip t ≠ [].
Proof. intros [Hn [x ->]]%unique_reasons_elem. by rewrite tstrip_idem. Qed.
Lemma keeps_remarks reasons remarks (t : text) :
  t ∈ remarks → t ∈ foldl (λ remarks t, if is_in_texts t remarks then remarks else remarks ++ [t]) remarks reasons.
Proof.
  revert remarks. induction reasons as [|x xs IH]; intros remarks Ht; [done|]. cbn [foldl]. apply IH. destruct (is_in_texts x remarks); [done|]. apply elem_of_app. by left.
Qed.
End Recorded.

(** C28. Recovery is recorded and never hides a doubt.  A field of the recovered row, the id of the wilaya aside, is
    the one of the normalised row, or its value is that of a recovered field on the list for the auditors; no field
    disappears, a review that was required stays required and a remark stays.  A row that needs no review after the recovery needed none before,
    has no reason to block it and no candidate to confirm, and each field its entity requires has a value or a recovered
    one or one under review behind it. *)
Theorem recovery_is_recorded `{Unicode} `{PipelineEnv} n raw ty types memory parent bundle deferred r :
  apply_row_recovery n raw ty types memory parent bundle deferred = Ok r →
  (∀ k, k ≠ "wilaya_id" → field_of k (rr_data r) = field_of k (nr_data n)
     ∨ ∃ x, x ∈ rr_recovered_fields r ∧ rv_field x = k ∧ field_of k (rr_data r) = Some (rv_value x))
  ∧ (∀ k, is_Some (field_of k (nr_data n)) → is_Some (field_of k (rr_data r)))
  ∧ (nr_needs_review n = true → nr_needs_review (rr_row r) = true)
  ∧ (∀ t, t ∈ nr_remarks n → t ∈ nr_remarks (rr_row r))
  ∧ (nr_needs_review (rr_row r) = false →
       rr_blocking_reasons r = [] ∧ rr_recovery_candidates r = []
       ∧ ∀ k, k ∈ _REQUIRED_FIELDS ty → k ∉ deferred → _has_value (field_of k (rr_data r)) = true ∨ _has_recovery_path r k = true).
Proof.
  unfold apply_row_recovery. intros E.
  destruct (recover_aliases _ _ _ _) as [r1|] eqn:E1; cbn [res_bind] in E; [|done]. apply (recorded_aliases n) in E1; [|apply recorded_start].
  destruct (_recover_location_context _ _ _ _ _) as [r2|] eqn:E2; cbn [res_bind] in E; [|done]. apply (recorded_location n) in E2; [|done].
  destruct (_recover_parent_context parent _ _) as [r3|] eqn:E3; cbn [res_bind] in E; [|done]. apply (recorded_parent n) in E3; [|done].
  destruct (_recover_parent_context bundle _ _) as [r4|] eqn:E4; cbn [res_bind] in E; [|done]. apply (recorded_parent n) in E4; [|done].
  cbv zeta in E. apply Ok_inj in E. set (r5 := if bool_decide (ty = "demande") then _ else r4) in E.
  assert (recorded n r5) as [D1 D2 D3 D4 D5] by (unfold r5; case_bool_decide; [by apply recorded_defaults|done]). clearbody r5. subst r.
  split; [exact D1|]. split; [exact D2|]. unfold conclude. cbv zeta. cbn [rr_row nr_needs_review nr_remarks rr_blocking_reasons rr_recovery_candidates].
  split_and!.
  - rewrite D3. by intros ->.
  - intros t Ht. rewrite <- D4 in Ht. apply keeps_remarks, Ht.
  - intros [_ Hc]%orb_false_iff. apply negb_false_iff, bool_decide_eq_true in Hc.
    apply automatic_fields in Hc as (Hcand & _ & Hb & Hf). cbn [rr_recovery_candidates] in Hcand.
    assert (blocking_reasons_for_row ty deferred r5 = []) as Hb5.
    { destruct (blocking_reasons_for_row ty deferred r5) as [|t ts] eqn:E5; [done|]. exfalso.
      assert (tstrip t = []) as Ht.
      { refine (unique_reasons_nil _ Hb t _). apply elem_of_app. left. apply list_elem_of_here. }
      by apply (reasons_not_blank ty deferred r5 t) in Ht; [|rewrite E5; apply list_elem_of_here]. }
    split_and!; [exact Hb5|exact Hcand|]. intros k Hk Hd. exact (Hf k Hk Hd).
Qed.

(** An agency that knows where Bab Ezzouar is. *)
Definition agency_memory : alias_memory :=
  mkMemory [("location", [(u "bab ezzouar", mkAlias (u "1632") (u "Bab Ezzouar") 3 [("wilaya_code", OInt 16)])])] [].
Definition bab_ezzouar : list (string * obj) := [("location", OText (u "Bab-Ezzouar"))].
Definition bare_row : normalized_row := mkRow [("location", ONone)] certain false [] [] [] [] [].
Definition bab_recovered : res recovery := apply_row_recovery (H0 := plain_env) bare_row bab_ezzouar "offer" [("location", "location")] (Some agency_memory) None None [].
Lemma recovery_is_recorded_witness :
  ∃ r, bab_recovered = Ok r ∧ field_of "wilaya" (rr_data r) = Some (OInt 16)
    ∧ ∃ x, x ∈ rr_recovered_fields r ∧ rv_field x = "wilaya" ∧ field_of "wilaya" (rr_data r) = Some (rv_value x).
Proof.
  assert (match bab_recovered with Ok r => field_of "wilaya" (rr_data r) = Some (OInt 16) | Err _ => False end) as Hw by (vm_compute; reflexivity).
  destruct bab_recovered as [r|e] eqn:E; [|destruct Hw]. exists r. split; [reflexivity|]. split; [exact Hw|].
  destruct (recovery_is_recorded (H0 := plain_env) _ _ _ _ _ _ _ _ r E) as [Hd _]. destruct (Hd "wilaya") as [Hn|Hx]; [discriminate| |exact Hx].
  exfalso. rewrite Hw in Hn. revert Hn. vm_compute. discriminate.
Defined.
