(* ===== verification/ImportPrepare.v ===== *)
(** * Preparation of an import of one entity

    src/server/services/import_prepare_single_flow.py, import_prepare_common.py and the parts they call: every row of the
    file is corrected, mapped, normalised, recovered, compared with the contacts before it and validated, and goes to
    the prepared entries, to the review, to the errors or to the dead letters.  The parser gives the rows as an argument;
    progress reports and temporary files are left out. *)

From S2P Require Import Prelude PyValue PyFloat PyText PyRegex ImportText ImportNumbers ImportNormalizers ImportPrice ImportValidate ImportPipeline ImportRecovery.
From Stdlib Require Import Ascii String SpecFloat.
Local Open Scope Z_scope.

(** ** Data *)

Abbreviation dict := (list (string * obj)).
(** The payload of a field to review. *)
(* src/server/services/import_types.py :: ReviewFieldPayload *)
Record review_payload := mkPayload {
  rp_field : string;
  rp_original : text;
  rp_normalized : obj;
  rp_confidence : float;
  rp_remark : text;
  rp_metadata : dict
}.
(** A row to review; the constants of [manual_review_row] (no candidate, no difference, the policy of the entity) are
    left out. *)
(* src/server/services/import_review_row_runtime.py :: manual_review_row *)
Record review_row := mkReviewRow {
  rw_row : Z;
  rw_data : dict;
  rw_original : dict;
  rw_entity_type : string;
  rw_topology_side : string;
  rw_review_fields : list review_payload;
  rw_remarks : list text;
  rw_suggested_action : string;
  rw_suggested_reasons : list text;
  rw_recovery : recovery
}.
(* src/server/services/import_dead_letter.py :: build_dead_letter_row *)
Record dead_letter := mkDeadLetter {
  dl_row_ordinal : Z;
  dl_disposition : string;
  dl_phase : string;
  dl_entity_type : string;
  dl_topology_side : string;
  dl_reason_codes : list string;
  dl_reason_messages : list text;
  dl_raw_data : dict;
  dl_normalized_data : dict;
  dl_recovery : recovery
}.
(** The counters of [ImportResult] that the preparation changes. *)
(* src/server/services/import_types.py :: ImportResult *)
Record import_result := mkResult_ {
  ir_skipped_count : Z;
  ir_error_count : Z;
  ir_errors : list (Z * list text);
  ir_dead_letter_summary : list (string * Z)
}.
(** A line of the prepared entries. *)
Record prepared_entry := mkPrepared { pe_row : Z; pe_data : dict; pe_original : dict }.
Record prepare_state := mkPrepare {
  ps_result : import_result;
  ps_reviews : list review_row;
  ps_overflow : Z;
  ps_dead_letters : list dead_letter;
  ps_prepared : list prepared_entry;
  ps_seen : list (text * Z);
  ps_contexts : list (text * dict)
}.
Definition empty_result : import_result := mkResult_ 0 0 [] [].
Definition start_prepare : prepare_state := mkPrepare empty_result [] 0 [] [] [] [].
Definition set_result (f : import_result → import_result) (s : prepare_state) : prepare_state :=
  mkPrepare (f (ps_result s)) (ps_reviews s) (ps_overflow s) (ps_dead_letters s) (ps_prepared s) (ps_seen s) (ps_contexts s).
Definition one_skipped : prepare_state → prepare_state :=
  set_result (λ r, mkResult_ (ir_skipped_count r + 1) (ir_error_count r) (ir_errors r) (ir_dead_letter_summary r)).
Definition one_error (row_num : Z) (messages : list text) : prepare_state → prepare_state :=
  set_result (λ r, mkResult_ (ir_skipped_count r) (ir_error_count r + 1) (ir_errors r ++ [(row_num, messages)]) (ir_dead_letter_summary r)).
Definition add_dead_letter (d : dead_letter) (s : prepare_state) : prepare_state :=
  mkPrepare (ps_result s) (ps_reviews s) (ps_overflow s) (ps_dead_letters s ++ [d]) (ps_prepared s) (ps_seen s) (ps_contexts s).
Definition add_prepared (e : prepared_entry) (s : prepare_state) : prepare_state :=
  mkPrepare (ps_result s) (ps_reviews s) (ps_overflow s) (ps_dead_letters s) (ps_prepared s ++ [e]) (ps_seen s) (ps_contexts s).

(** ** Columns and corrections (import_mapping.py) *)

(* src/server/services/import_mapping.py :: _FIELD_TO_TYPE *)
Definition _FIELD_TO_TYPE : list (string * string) :=
  [("family_name", "name"); ("email", "email"); ("status", "unknown"); ("remarks", "notes"); ("tags", "notes"); ("phone", "phone");
   ("budget", "price"); ("budget_min", "price"); ("budget_max", "price"); ("price", "price"); ("surface", "surface");
   ("surface_min", "surface"); ("surface_max", "surface"); ("wilaya", "wilaya"); ("wilaya_id", "unknown"); ("location", "location");
   ("locations", "location"); ("action", "action"); ("action_id", "unknown"); ("type", "type"); ("type_id", "unknown"); ("beds", "beds");
   ("beds_min", "beds_min"); ("floor", "floor"); ("floor_min", "floor_min"); ("floor_max", "floor_max"); ("furnished", "furnished");
   ("elevator", "elevator"); ("parking", "parking"); ("accessibility_required", "accessibility_required");
   ("accessibility_supported", "accessibility_supported"); ("price_negotiable", "price_negotiable"); ("price_flex_pct", "unknown");
   ("client_id", "unknown"); ("listing_id", "unknown")].
(** Of two columns with one header the last counts. *)
(* src/server/services/import_mapping.py :: build_column_types *)
Definition build_column_types (detected_columns column_mapping : list (string * string)) : list (string * string) :=
  let header_to_type := rev (List.filter (λ c : string * string, negb (str_empty c.1)) detected_columns) in
  map (λ m : string * string,
    (m.1, match value_of m.1 _FIELD_TO_TYPE with
          | Some canonical_type => canonical_type
          | None => default "unknown" (value_of m.2 header_to_type)
          end)) column_mapping.
(* src/server/services/import_mapping.py :: merge_row_corrections *)
Definition merge_row_corrections (raw_row : dict) (row_index : Z) (corrections : list (string * dict)) : dict :=
  match value_of (pretty row_index) corrections, value_of (pretty (row_index - 1)) corrections with
  | Some c, _ => update_with raw_row c
  | None, Some c => update_with raw_row c
  | None, None => raw_row
  end.

(** ** Contacts *)

(** [casefold] of Python, a table of Unicode. *)
Class Casefold := casefold : text → text.

Section Prepare.
Context `{Unicode} `{PipelineEnv} `{Casefold}.

(* src/server/services/duplicate_checker.py :: _normalize_phone_for_dedup *)
Definition dedup_phone (phone : text) : text :=
  let digits := List.filter digit_char phone in
  let digits :=
    match after_prefix (u "00213") digits, after_prefix (u "213") digits with
    | Some rest, _ => 48 :: rest
    | None, Some rest => if 9 <? Z.of_nat (List.length digits) then 48 :: rest else digits
    | None, None => digits
    end in
  match digits with
  | c :: _ => if (Z.of_nat (List.length digits) =? 9) && is_one_of (u "567") c then 48 :: digits else digits
  | [] => []
  end.
(* src/server/services/import_root_key_index.py :: root_phone_key *)
Definition root_phone_key (row_data : dict) : text :=
  let phone := dedup_phone (str_or_empty show_container (field_of "phone" row_data)) in
  if Z.of_nat (List.length phone) <? 9 then [] else u "phone:" ++ phone.
(** The key of a row, and the row that had it first. *)
(* src/server/services/import_root_key_index.py :: remember_root_key *)
Definition remember_root_key (row_data : dict) (row_num : Z) (s : prepare_state) : text * option Z * prepare_state :=
  match root_phone_key row_data with
  | [] => ([], None, s)
  | key =>
      let winner_row := default 0 (entry key (ps_seen s)) in
      if 0 <? winner_row then (key, Some winner_row, s)
      else (key, None, mkPrepare (ps_result s) (ps_reviews s) (ps_overflow s) (ps_dead_letters s) (ps_prepared s)
                         (assign key row_num (ps_seen s)) (ps_contexts s))
  end.
(* src/server/services/import_prepare_common.py :: _normalize_root_compare_value *)
Definition _normalize_root_compare_value (v : option obj) : text :=
  match v with
  | None | Some ONone => []
  | Some (OBool b) => if b then [49] else [48]
  | Some v => casefold (tstrip (str_of show_container v))
  end.
(* src/server/services/import_prepare_common.py :: duplicate_root_conflict_fields *)
Definition duplicate_root_conflict_fields (existing_row incoming_row : dict) : list string :=
  List.filter (λ k,
    let existing := _normalize_root_compare_value (field_of k existing_row) in
    match _normalize_root_compare_value (field_of k incoming_row) with
    | [] => false
    | incoming => negb (bool_decide (existing = incoming))
    end) ["family_name"; "name"; "email"].

(** ** The review *)

(* src/server/services/import_review_row_runtime.py :: normalized_review_fields *)
Definition normalized_review_fields (r : recovery) : list review_payload :=
  map (λ f, mkPayload (rf_field_name f) (rf_original_value f) (rf_normalized_value f) (rf_confidence f) (rf_remark f) (rf_metadata f))
    (nr_review_fields (rr_row r)).
Definition validation_payload (remark : text) : review_payload := mkPayload "validation" [] (OText []) doubtful remark [].
(* src/server/services/import_prepare_common.py :: normalized_review_fields_or_validation *)
Definition normalized_review_fields_or_validation (r : recovery) : list review_payload :=
  match normalized_review_fields r, rr_blocking_reasons r with
  | [], [] => []
  | [], reasons => [validation_payload (join_texts (u "; ") (List.filter (λ t, negb (blank t)) reasons))]
  | fields, _ => fields
  end.
(** The buffer of the review is bounded: it counts what does not fit, while a list refuses it. *)
Context (max_review_items : nat) (buffered : bool).
(* src/server/services/import_review_runtime.py :: append_review_row_limited *)
Definition append_review_row_limited (w : review_row) (s : prepare_state) : res prepare_state :=
  if Nat.leb max_review_items (List.length (ps_reviews s)) then
    if buffered then
      Ok (mkPrepare (ps_result s) (ps_reviews s) (ps_overflow s + 1) (ps_dead_letters s) (ps_prepared s) (ps_seen s) (ps_contexts s))
    else Err (ValueError "Import generated too many review rows. Clean or split the file and retry.")
  else Ok (mkPrepare (ps_result s) (ps_reviews s ++ [w]) (ps_overflow s) (ps_dead_letters s) (ps_prepared s) (ps_seen s) (ps_contexts s)).

(** ** One row *)

(** The arguments of the call. *)
Record prepare_job := mkJob {
  pj_user_id : Z;
  pj_entity_type : string;
  pj_skip_review_rows : bool;
  pj_duplicate_strategy : string;
  pj_corrections : list (string * dict);
  pj_column_mapping : list (string * string);
  pj_detected_columns : list (string * string);
  pj_memory : option alias_memory;
  pj_price_metadata : list (string * dict)
}.
Context (job : prepare_job).
(* src/server/services/import_prepare_single_flow.py :: _single_entity_topology_side *)
Definition _single_entity_topology_side : string :=
  if bool_decide (pj_entity_type job = "client") then "client_side" else "listing_side".
(* src/server/services/import_prepare_single_flow.py :: _append_single_entity_review_row *)
Definition _append_single_entity_review_row (row_num : Z) (raw_row : dict) (r : recovery) (review_fields : list review_payload)
    (remarks : option (list text)) (suggested_action : string) (suggested_reasons : list text) (s : prepare_state) : res prepare_state :=
  append_review_row_limited
    (mkReviewRow row_num (rr_data r) raw_row (pj_entity_type job) _single_entity_topology_side
       (match review_fields with [] => normalized_review_fields_or_validation r | _ => review_fields end)
       (default (nr_remarks (rr_row r)) remarks) suggested_action suggested_reasons r) s.
(* src/server/services/import_prepare_common.py :: append_prepare_dead_letter *)
Definition append_prepare_dead_letter (row_num : Z) (raw_row : dict) (r : recovery) (disposition : string) (codes : list string)
    (messages : list text) : prepare_state → prepare_state :=
  add_dead_letter (mkDeadLetter row_num disposition "plan" (pj_entity_type job) _single_entity_topology_side codes
    (List.filter (λ t, negb (blank t)) messages) raw_row (rr_data r) r).
(** A row that is not imported: an error and a dead letter. *)
Definition discard (row_num : Z) (raw_row : dict) (r : recovery) (code : string) (messages : list text) (s : prepare_state) : prepare_state :=
  append_prepare_dead_letter row_num raw_row r "blocking_discarded" [code] messages (one_error row_num messages s).
Definition review_required (r : recovery) : list text :=
  match nr_remarks (rr_row r) with [] => [u "Review required during prepare."] | l => l end.
(* src/server/services/import_prepare_single_flow.py :: _handle_initial_review_requirement *)
Definition _handle_initial_review_requirement (row_num : Z) (raw_row : dict) (r : recovery) (s : prepare_state) : res (option prepare_state) :=
  if negb (nr_needs_review (rr_row r)) || pj_skip_review_rows job then Ok None
  else let? s := _append_single_entity_review_row row_num raw_row r [] None EmptyString [] s in Ok (Some (one_skipped s)).
(* src/server/services/import_prepare_single_flow.py :: _handle_post_dedup_review_requirement *)
Definition _handle_post_dedup_review_requirement (row_num : Z) (raw_row : dict) (r : recovery) (s : prepare_state)
  : res (option prepare_state) :=
  if negb (nr_needs_review (rr_row r)) then Ok None
  else if negb (pj_skip_review_rows job) then
    let? s := _append_single_entity_review_row row_num raw_row r [] None EmptyString [] s in Ok (Some (one_skipped s))
  else Ok (Some (discard row_num raw_row r "prepare_review_blocked" (review_required r) s)).
Definition dedup_enabled : bool :=
  is_in_names (pj_entity_type job) ["client"; "listing"] && negb (bool_decide (pj_duplicate_strategy job = "allow_all")).
(** A repeated contact: grouped under the first row, or in conflict with it. *)
(* src/server/services/import_prepare_single_flow.py :: prepare_single_entity_import [256-337] *)
Definition repeated_contact (row_num winner_row : Z) (key : text) (raw_row : dict) (r : recovery) (s : prepare_state) : res prepare_state :=
  match duplicate_root_conflict_fields (default [] (entry key (ps_contexts s))) (rr_data r) with
  | [] =>
      let remark := u "Repeated contact grouped under first matching row " ++ text_of_Z winner_row ++ u "." in
      Ok (one_skipped (append_prepare_dead_letter row_num raw_row r "auto_skipped" ["prepare_duplicate_root_key"] [remark] s))
  | conflict_fields =>
      let remark := u "Duplicate phone in this file; first matching row is " ++ text_of_Z winner_row ++ u ". Conflicting root fields: "
                    ++ join_texts (u ", ") (map u conflict_fields) ++ u "." in
      if bool_decide (pj_duplicate_strategy job = "review") && negb (pj_skip_review_rows job) then
        let? s := _append_single_entity_review_row row_num raw_row r
                    [mkPayload "phone" (str_or_empty show_container (field_of "phone" (rr_data r))) (OText key) certain remark []]
                    (Some [remark]) "review_ambiguous" [remark] s in
        Ok (one_skipped s)
      else Ok (discard row_num raw_row r "prepare_duplicate_root_conflict" [remark] s)
  end.
(** The row is a repeated contact, or its contact is remembered. *)
(* src/server/services/import_prepare_single_flow.py :: prepare_single_entity_import [250-339] *)
Definition contact_step (row_num : Z) (raw_row : dict) (r : recovery) (s : prepare_state) : res (bool * prepare_state) :=
  if dedup_enabled then
    match remember_root_key (rr_data r) row_num s with
    | (key, Some winner_row, s) => let? s := repeated_contact row_num winner_row key raw_row r s in Ok (true, s)
    | ([], None, s) => Ok (false, s)
    | (key, None, s) =>
        Ok (false, mkPrepare (ps_result s) (ps_reviews s) (ps_overflow s) (ps_dead_letters s) (ps_prepared s) (ps_seen s)
                     (assign key (rr_data r) (ps_contexts s)))
    end
  else Ok (false, s).
(* src/server/services/import_prepare_single_flow.py :: prepare_single_entity_import [354-416] *)
Definition validated_step (row_num : Z) (raw_row : dict) (r : recovery) (s : prepare_state) : res prepare_state :=
  let? v := validate_row show_container (rr_data r) (pj_entity_type job) in
  match v.2 with
  | [] => Ok (add_prepared (mkPrepared row_num (put "created_by_id" (OInt (pj_user_id job)) v.1) raw_row) s)
  | row_errors =>
      if negb (pj_skip_review_rows job) then
        let? s := append_review_row_limited
                    (mkReviewRow row_num (rr_data r) raw_row (pj_entity_type job) _single_entity_topology_side
                       [validation_payload (join_texts (u "; ") row_errors)] row_errors "review_ambiguous" [] r) s in
        Ok (one_skipped s)
      else Ok (discard row_num raw_row r "prepare_validation_failed" row_errors s)
  end.
Definition column_types : list (string * string) := build_column_types (pj_detected_columns job) (pj_column_mapping job).
Definition job_pipeline : pipeline := new_pipeline (pj_entity_type job) column_types (pj_price_metadata job).
Definition corrected_row (row_num : Z) (raw_row : dict) : dict := merge_row_corrections raw_row row_num (pj_corrections job).
(* src/server/services/import_prepare_single_flow.py :: prepare_single_entity_import [226-229] *)
Definition mapped_row (raw_row : dict) : dict :=
  foldl (λ (d : dict) (m : string * string), match field_of m.2 raw_row with Some v => put m.1 v d | None => d end) [] (pj_column_mapping job).
(** What a row of the file says, alone. *)
Definition read_row (row_num : Z) (raw_row : dict) : res recovery :=
  let mapped := mapped_row (corrected_row row_num raw_row) in
  let? n := normalize_row job_pipeline mapped None in
  apply_row_recovery n mapped (pj_entity_type job) column_types (pj_memory job) None None [].
(* src/server/services/import_prepare_single_flow.py :: prepare_single_entity_import [218-352] *)
Definition prepare_row (row_num : Z) (raw_row : dict) (s : prepare_state) : res prepare_state :=
  let? r := read_row row_num raw_row in
  let raw_row := corrected_row row_num raw_row in
  let? reviewed := _handle_initial_review_requirement row_num raw_row r s in
  match reviewed with
  | Some s => Ok s
  | None =>
      let? contact := contact_step row_num raw_row r s in
      if contact.1 : bool then Ok contact.2
      else
        let? handled := _handle_post_dedup_review_requirement row_num raw_row r contact.2 in
        match handled with
        | Some s => Ok s
        | None => validated_step row_num raw_row r contact.2
        end
  end.
Fixpoint prepare_rows (row_num : Z) (rows : list dict) (s : prepare_state) : res prepare_state :=
  match rows with
  | [] => Ok s
  | row :: rows' => let? s := prepare_row row_num row s in prepare_rows (row_num + 1) rows' s
  end.
(* src/server/services/import_dead_letter.py :: record_dead_letter_rows *)
Definition record_dead_letter_rows (rows : list dead_letter) : list (string * Z) :=
  map (λ d, (d, Z.of_nat (List.length (List.filter (λ x, bool_decide (dl_disposition x = d)) rows))))
    ["auto_skipped"; "human_skipped"; "blocking_discarded"].
(* src/server/services/import_prepare_common.py :: merge_dead_letter_summary *)
Definition merge_dead_letter_summary (summary : list (string * Z)) (r : import_result) : import_result :=
  mkResult_ (ir_skipped_count r) (ir_error_count r) (ir_errors r)
    (foldl (λ (merged : list (string * Z)) (e : string * Z),
       if bool_decide (is_Some (value_of e.1 merged))
       then map (λ m : string * Z, if bool_decide (m.1 = e.1) then (m.1, m.2 + e.2) else m) merged
       else merged ++ [e]) (ir_dead_letter_summary r) summary).
(* src/server/services/import_prepare_single_flow.py :: prepare_single_entity_import *)
Definition prepare_single_entity_import (rows : list dict) : res prepare_state :=
  let? s := prepare_rows 1 rows start_prepare in
  Ok (set_result (merge_dead_letter_summary (record_dead_letter_rows (ps_dead_letters s))) s).
End Prepare.
