(* ===== verification/ImportPrepareProps.v ===== *)
(** * Where every row of an import goes

    The preparation of a file as a decision for each row, which depends on the row and on the contacts before it. *)

From S2P Require Import Prelude PyValue PyFloat PyText PyRegex ImportText ImportNumbers ImportNormalizers ImportPrice ImportValidate ImportPipeline ImportRecovery ImportPrepare ImportValidateProps ImportPipelineProps.
From Stdlib Require Import Ascii String SpecFloat.
Local Open Scope Z_scope.

(** ** Lists *)

Lemma entry_assign {A} k k' (v : A) d : entry k (assign k' v d) = if bool_decide (k' = k) then Some v else entry k d.
Proof.
  unfold entry. induction d as [|[a w] d IH]; cbn; [by case_bool_decide|]. destruct (bool_decide (a = k')) eqn:E; cbn.
  - apply bool_decide_eq_true in E as ->. by case_bool_decide.
  - rewrite bool_decide_eq_false in E. case_bool_decide as E1; cbn; [|by destruct (bool_decide (a = k))]. subst. by rewrite bool_decide_false.
Qed.
Lemma find_snoc {A} (f : A → bool) l x : List.find f (l ++ [x]) = match List.find f l with Some y => Some y | None => if f x then Some x else None end.
Proof. induction l as [|y l IH]; cbn; [done|]. by destruct (f y). Qed.
Lemma take_snoc {A} n (l : list A) x : take n (l ++ [x]) = if Nat.leb n (List.length l) then take n l else take n l ++ [x].
Proof.
  destruct (Nat.leb_spec n (List.length l)) as [Hn|Hn]; [by rewrite take_app_le|]. rewrite take_ge by (rewrite length_app; cbn; lia). by rewrite take_ge by lia.
Qed.

(** ** The outcome of a row *)

Inductive outcome : Type :=
  | Reviewed
  | Discarded
  | Grouped (winner : Z)
  | Ready (d : dict).

Section Outcomes.
Context `{Unicode} `{PipelineEnv} `{Casefold} (max_review_items : nat) (job : prepare_job).
(** A row that goes to the review before its contact is looked at. *)
Definition stopped (r : recovery) : bool := nr_needs_review (rr_row r) && negb (pj_skip_review_rows job).
Definition contact_key (r : recovery) : text := if dedup_enabled job then root_phone_key (rr_data r) else [].
Definition has_contact (k : text) (e : Z * recovery) : bool := negb (stopped e.2) && bool_decide (contact_key e.2 = k).
(** The first row before this one with its contact. *)
Definition winner (earlier : list (Z * recovery)) (r : recovery) : option (Z * recovery) :=
  match contact_key r with [] => None | k => List.find (has_contact k) earlier end.
Definition outcome_of (earlier : list (Z * recovery)) (r : recovery) : res outcome :=
  if stopped r then Ok Reviewed
  else
    match winner earlier r with
    | Some (i, first) =>
        if is_nil (duplicate_root_conflict_fields (rr_data first) (rr_data r)) then Ok (Grouped i)
        else if bool_decide (pj_duplicate_strategy job = "review") && negb (pj_skip_review_rows job) then Ok Reviewed
        else Ok Discarded
    | None =>
        if nr_needs_review (rr_row r) then Ok Discarded
        else
          let? v := validate_row show_container (rr_data r) (pj_entity_type job) in
          Ok (if is_nil v.2 then Ready (put "created_by_id" (OInt (pj_user_id job)) v.1)
              else if pj_skip_review_rows job then Discarded else Reviewed)
    end.
Fixpoint outcomes (earlier : list (Z * recovery)) (row_num : Z) (rows : list dict) : res (list (Z * outcome)) :=
  match rows with
  | [] => Ok []
  | row :: rows' =>
      let? r := read_row job row_num row in
      let? o := outcome_of earlier r in
      let? os := outcomes (earlier ++ [(row_num, r)]) (row_num + 1) rows' in
      Ok ((row_num, o) :: os)
  end.
Definition reviewed_of (e : Z * outcome) : list Z := match e.2 with Reviewed => [e.1] | _ => [] end.
Definition discarded_of (e : Z * outcome) : list Z := match e.2 with Discarded => [e.1] | _ => [] end.
Definition ready_of (e : Z * outcome) : list (Z * dict) := match e.2 with Ready d => [(e.1, d)] | _ => [] end.
Definition dead_of (e : Z * outcome) : list (Z * string) :=
  match e.2 with Discarded => [(e.1, "blocking_discarded")] | Grouped _ => [(e.1, "auto_skipped")] | _ => [] end.
Definition skipped_of (e : Z * outcome) : list Z := match e.2 with Reviewed | Grouped _ => [e.1] | _ => [] end.

(** The lists and counters of a state are those of the outcomes so far. *)
Record tallied (os : list (Z * outcome)) (s : prepare_state) : Prop := {
  ta_prepared : map (λ e, (pe_row e, pe_data e)) (ps_prepared s) = flat_map ready_of os;
  ta_reviews : map rw_row (ps_reviews s) = take max_review_items (flat_map reviewed_of os);
  ta_overflow : ps_overflow s = Z.of_nat (List.length (flat_map reviewed_of os) - max_review_items);
  ta_errors : map fst (ir_errors (ps_result s)) = flat_map discarded_of os;
  ta_error_count : ir_error_count (ps_result s) = Z.of_nat (List.length (flat_map discarded_of os));
  ta_skipped : ir_skipped_count (ps_result s) = Z.of_nat (List.length (flat_map skipped_of os));
  ta_dead : map (λ d, (dl_row_ordinal d, dl_disposition d)) (ps_dead_letters s) = flat_map dead_of os;
  ta_summary : ir_dead_letter_summary (ps_result s) = []
}.
(** The tables of contacts hold the first row of each. *)
Record remembers (earlier : list (Z * recovery)) (s : prepare_state) : Prop := {
  re_seen : ∀ k, k ≠ [] → entry k (ps_seen s) = fst <$> List.find (has_contact k) earlier;
  re_contexts : ∀ k, k ≠ [] → entry k (ps_contexts s) = (λ e : Z * recovery, rr_data e.2) <$> List.find (has_contact k) earlier;
  re_positive : ∀ e, e ∈ earlier → 0 < e.1
}.
Definition same_tables (s s' : prepare_state) : Prop := ps_seen s' = ps_seen s ∧ ps_contexts s' = ps_contexts s.
Lemma flat_snoc {A} (f : Z * outcome → list A) os e : flat_map f (os ++ [e]) = flat_map f os ++ f e.
Proof. by rewrite flat_map_app; cbn; rewrite app_nil_r. Qed.
Lemma count_snoc {A} (l : list A) x : Z.of_nat (List.length (l ++ [x])) = Z.of_nat (List.length l) + 1.
Proof. rewrite length_app. cbn. lia. Qed.

Lemma review_tallied os i w s :
  tallied os s → rw_row w = i →
  ∃ s', append_review_row_limited max_review_items true w s = Ok s' ∧ tallied (os ++ [(i, Reviewed)]) (one_skipped s') ∧ same_tables s (one_skipped s').
Proof.
  intros [H1' H2 H3 H4 H5 H6 H7 H8] Hw. unfold append_review_row_limited. assert (List.length (ps_reviews s) = Nat.min max_review_items (List.length (flat_map reviewed_of os))) as Hl
    by (rewrite <- length_take, <- H2; by rewrite length_map).
  destruct (Nat.leb_spec max_review_items (List.length (ps_reviews s))) as [Hm|Hm]; eexists; (split; [reflexivity|]); (split; [|done]); constructor; cbn; rewrite ?flat_snoc; cbn;
    rewrite ?app_nil_r, ?count_snoc; try done; try congruence.
  - rewrite H2, take_snoc. by rewrite (proj2 (Nat.leb_le _ _)) by lia.
  - rewrite length_app. cbn. lia.
  - rewrite map_app, H2, take_snoc. rewrite (proj2 (Nat.leb_gt _ _)) by lia. cbn. by rewrite Hw.
  - rewrite length_app. cbn. lia.
Qed.
Lemma discard_tallied os i raw r code messages s :
  tallied os s → tallied (os ++ [(i, Discarded)]) (discard job i raw r code messages s) ∧ same_tables s (discard job i raw r code messages s).
Proof.
  intros [H1' H2 H3 H4 H5 H6 H7 H8]. split; [|done].
  constructor; cbn; rewrite ?flat_snoc; cbn; rewrite ?app_nil_r, ?count_snoc, ?map_app; cbn; try done; try congruence.
Qed.
Lemma grouped_tallied os i j raw r codes messages s :
  tallied os s → let s' := one_skipped (append_prepare_dead_letter job i raw r "auto_skipped" codes messages s) in
  tallied (os ++ [(i, Grouped j)]) s' ∧ same_tables s s'.
Proof.
  intros [H1' H2 H3 H4 H5 H6 H7 H8]. split; [|done].
  constructor; cbn; rewrite ?flat_snoc; cbn; rewrite ?app_nil_r, ?count_snoc, ?map_app; cbn; try done; try congruence.
Qed.
Lemma ready_tallied os i d raw s :
  tallied os s → tallied (os ++ [(i, Ready d)]) (add_prepared (mkPrepared i d raw) s) ∧ same_tables s (add_prepared (mkPrepared i d raw) s).
Proof.
  intros [H1' H2 H3 H4 H5 H6 H7 H8]. split; [|done].
  constructor; cbn; rewrite ?flat_snoc; cbn; rewrite ?app_nil_r, ?count_snoc, ?map_app; cbn; try done; try congruence.
Qed.
Lemma tallied_tables os s seen contexts :
  tallied os s → tallied os (mkPrepare (ps_result s) (ps_reviews s) (ps_overflow s) (ps_dead_letters s) (ps_prepared s) seen contexts).
Proof. intros []. by constructor. Qed.
Lemma remembers_same earlier i r s s' :
  stopped r = true ∨ contact_key r = [] ∨ is_Some (winner earlier r) →
  remembers earlier s → same_tables s s' → 0 < i → remembers (earlier ++ [(i, r)]) s'.
Proof.
  intros Hr [R1 R2 R3] [Es Ec] Hi.
  assert (∀ k, k ≠ [] → List.find (has_contact k) (earlier ++ [(i, r)]) = List.find (has_contact k) earlier) as Hf.
  { intros k Hk. rewrite find_snoc. destruct (List.find _ earlier) eqn:E; [done|]. unfold has_contact. cbn [snd].
    destruct Hr as [->|[Hr|[e Hr]]]; [done| |].
    - rewrite Hr, (bool_decide_false ([] = k)), andb_false_r; [done|congruence].
    - destruct (bool_decide_reflect (contact_key r = k)) as [Ek|]; [|by rewrite andb_false_r]. exfalso.
      unfold winner in Hr. rewrite Ek in Hr. destruct k as [|c t]; [done|]. by rewrite E in Hr. }
  constructor.
  - intros k Hk. by rewrite Es, Hf, R1.
  - intros k Hk. by rewrite Ec, Hf, R2.
  - intros e [He|He%list_elem_of_singleton]%elem_of_app; [by apply R3|by subst].
Qed.
Lemma remembers_new earlier i r s :
  stopped r = false → contact_key r ≠ [] → winner earlier r = None → remembers earlier s → 0 < i →
  remembers (earlier ++ [(i, r)])
    (mkPrepare (ps_result s) (ps_reviews s) (ps_overflow s) (ps_dead_letters s) (ps_prepared s)
       (assign (contact_key r) i (ps_seen s)) (assign (contact_key r) (rr_data r) (ps_contexts s))).
Proof.
  intros Hs Hk Hw [R1 R2 R3] Hi.
  assert (∀ k, k ≠ [] → List.find (has_contact k) (earlier ++ [(i, r)])
    = if bool_decide (contact_key r = k) then Some (i, r) else List.find (has_contact k) earlier) as Hf.
  { intros k Hk'. rewrite find_snoc. unfold has_contact at 2. cbn [snd]. rewrite Hs. cbn [negb andb].
    destruct (bool_decide_reflect (contact_key r = k)) as [Ek|]; [|by destruct (List.find _ earlier)].
    unfold winner in Hw. rewrite Ek in Hw. destruct k; [done|]. by rewrite Hw. }
  constructor; cbn [ps_seen ps_contexts].
  - intros k Hk'. rewrite entry_assign, Hf, R1 by done. by case_bool_decide.
  - intros k Hk'. rewrite entry_assign, Hf, R2 by done. by case_bool_decide.
  - intros e [He|He%list_elem_of_singleton]%elem_of_app; [by apply R3|by subst].
Qed.
(** One step of the loop. *)
Definition step_is (earlier : list (Z * recovery)) (os : list (Z * outcome)) (i : Z) (r : recovery) (o : outcome) (m : res prepare_state) : Prop :=
  ∃ s', m = Ok s' ∧ tallied (os ++ [(i, o)]) s' ∧ remembers (earlier ++ [(i, r)]) s'.
Lemma repeated_contact_is earlier os i raw r j first s :
  stopped r = false → winner earlier r = Some (j, first) → tallied os s → remembers earlier s → 0 < i →
  entry (contact_key r) (ps_contexts s) = Some (rr_data first) →
  step_is earlier os i r
    (if is_nil (duplicate_root_conflict_fields (rr_data first) (rr_data r)) then Grouped j
     else if bool_decide (pj_duplicate_strategy job = "review") && negb (pj_skip_review_rows job) then Reviewed else Discarded)
    (repeated_contact max_review_items true job i j (contact_key r) raw r s).
Proof.
  intros Hs Hw Ht Hr Hi Hc. assert (∀ s', same_tables s s' → remembers (earlier ++ [(i, r)]) s') as Hrem
    by (intros s' Hs'; eapply remembers_same; [|exact Hr|done|done]; right; right; by eexists).
  unfold repeated_contact. rewrite Hc. cbn [default]. destruct (duplicate_root_conflict_fields _ _) as [|f fs].
  - cbv zeta. eexists. split; [reflexivity|]. cbn [is_nil]. edestruct grouped_tallied as [H1' H2']; [exact Ht|]. split; [exact H1'|]. by apply Hrem.
  - cbv zeta. cbn [is_nil]. destruct (bool_decide (pj_duplicate_strategy job = "review") && negb (pj_skip_review_rows job)).
    + unfold _append_single_entity_review_row. edestruct (review_tallied os i) as (s' & E & H1' & H2'); [exact Ht| |].
      2: { rewrite E. cbn [res_bind]. eexists. split; [reflexivity|]. split; [done|]. by apply Hrem. }
      done.
    + eexists. split; [reflexivity|]. edestruct (discard_tallied os i) as [H1' H2']; [exact Ht|]. split; [exact H1'|]. by apply Hrem.
Qed.
(** A row whose contact is new, or that has none. *)
Lemma new_contact_is earlier os i raw r s :
  stopped r = false → winner earlier r = None → tallied os s → remembers (earlier ++ [(i, r)]) s →
  match (if nr_needs_review (rr_row r) then Ok Discarded
         else let? v := validate_row show_container (rr_data r) (pj_entity_type job) in
              Ok (if is_nil v.2 then Ready (put "created_by_id" (OInt (pj_user_id job)) v.1)
                  else if pj_skip_review_rows job then Discarded else Reviewed)) with
  | Err e => (let? handled := _handle_post_dedup_review_requirement max_review_items true job i raw r s in
              match handled with Some s => Ok s | None => validated_step max_review_items true job i raw r s end) = Err e
  | Ok o => step_is earlier os i r o
              (let? handled := _handle_post_dedup_review_requirement max_review_items true job i raw r s in
               match handled with Some s => Ok s | None => validated_step max_review_items true job i raw r s end)
  end.
Proof.
  intros Hs Hw Ht Hr. unfold _handle_post_dedup_review_requirement, stopped in *.
  assert (∀ s', same_tables s s' → remembers (earlier ++ [(i, r)]) s') as Hrem
    by (intros s' [E1 E2]; destruct Hr as [R1 R2 R3]; constructor; [by rewrite E1|by rewrite E2|done]).
  destruct (nr_needs_review (rr_row r)); cbn [negb andb] in *.
  { rewrite Hs. cbn [res_bind]. eexists. split; [reflexivity|].
    edestruct (discard_tallied os i) as [H1' H2']; [exact Ht|]. split; [exact H1'|]. by apply Hrem. }
  cbn [res_bind]. unfold validated_step. destruct (validate_row _ _ _) as [[d errors]|]; cbn [res_bind fst snd]; [|done].
  destruct errors as [|t ts]; cbn [is_nil].
  - eexists. split; [reflexivity|]. edestruct (ready_tallied os i) as [H1' H2']; [exact Ht|]. split; [exact H1'|]. by apply Hrem.
  - destruct (pj_skip_review_rows job); cbn [negb].
    + eexists. split; [reflexivity|]. edestruct (discard_tallied os i) as [H1' H2']; [exact Ht|]. split; [exact H1'|]. by apply Hrem.
    + edestruct (review_tallied os i) as (s' & E & H1' & H2'); [exact Ht| |].
      2: { rewrite E. cbn [res_bind]. eexists. split; [reflexivity|]. split; [done|]. by apply Hrem. }
      done.
Qed.
(** The contact of a row is remembered, or it is a repeated one. *)
Lemma contact_none earlier i raw r s :
  stopped r = false → winner earlier r = None → remembers earlier s → 0 < i →
  ∃ s', contact_step max_review_items true job i raw r s = Ok (false, s') ∧ remembers (earlier ++ [(i, r)]) s'
    ∧ ∀ os, tallied os s → tallied os s'.
Proof.
  intros Hs Hw Hr Hi. pose proof (remembers_new earlier i r s Hs) as Hnew. unfold winner in Hw. unfold contact_step.
  assert (contact_key r = [] → ∃ s', Ok (false, s) = Ok (false, s') ∧ remembers (earlier ++ [(i, r)]) s' ∧ ∀ os, tallied os s → tallied os s') as Hnone.
  { intros E. exists s. split; [done|]. split; [|done]. eapply remembers_same; [|exact Hr|done|done]. right; by left. }
  destruct (dedup_enabled job) eqn:Ed; [|apply Hnone; unfold contact_key; by rewrite Ed].
  assert (contact_key r = root_phone_key (rr_data r)) as Ek by (unfold contact_key; by rewrite Ed).
  unfold remember_root_key. rewrite <- Ek. destruct (contact_key r) as [|c t] eqn:Ec; [by apply Hnone|].
  rewrite (re_seen _ _ Hr (c :: t)) by done. rewrite Hw. cbn [fmap option_fmap option_map default].
  change (0 <? 0) with false. cbv iota. eexists. split; [reflexivity|]. split.
  - apply Hnew; [done| |done|done]. unfold winner. by rewrite Ec.
  - intros os Ht. by repeat apply tallied_tables.
Qed.
Lemma contact_some earlier i raw r s j first :
  stopped r = false → winner earlier r = Some (j, first) → remembers earlier s →
  contact_step max_review_items true job i raw r s
    = (let? s' := repeated_contact max_review_items true job i j (contact_key r) raw r s in Ok (true, s'))
  ∧ entry (contact_key r) (ps_contexts s) = Some (rr_data first).
Proof.
  intros Hs Hw Hr. unfold winner in Hw. destruct (contact_key r) as [|c t] eqn:Ec; [done|].
  split; [|by rewrite (re_contexts _ _ Hr) by done; rewrite Hw].
  unfold contact_step. destruct (dedup_enabled job) eqn:Ed; [|unfold contact_key in Ec; by rewrite Ed in Ec].
  assert (root_phone_key (rr_data r) = c :: t) as Ek by (unfold contact_key in Ec; by rewrite Ed in Ec).
  unfold remember_root_key. rewrite Ek, (re_seen _ _ Hr (c :: t)) by done. rewrite Hw. cbn [fmap option_fmap option_map default fst].
  assert (0 < j) as Hj by (apply find_some in Hw as [Hin%list_elem_of_In _]; exact (re_positive _ _ Hr _ Hin)).
  cbv zeta. cbn [from_option id]. by rewrite (proj2 (Z.ltb_lt 0 j) Hj).
Qed.
Lemma row_step earlier os i raw s :
  tallied os s → remembers earlier s → 0 < i →
  match read_row job i raw with
  | Err e => prepare_row max_review_items true job i raw s = Err e
  | Ok r => match outcome_of earlier r with
            | Err e => prepare_row max_review_items true job i raw s = Err e
            | Ok o => step_is earlier os i r o (prepare_row max_review_items true job i raw s)
            end
  end.
Proof.
  intros Ht Hr Hi. unfold prepare_row. destruct (read_row job i raw) as [r|]; cbn [res_bind]; [|done]. cbv zeta.
  generalize (corrected_row job i raw) as raw'. intros raw'. unfold outcome_of. destruct (stopped r) eqn:Es.
  { unfold _handle_initial_review_requirement, _append_single_entity_review_row. unfold stopped in Es.
    apply andb_true_iff in Es as [En Ek]. rewrite En. apply negb_true_iff in Ek. rewrite Ek. cbn [negb orb].
    edestruct (review_tallied os i) as (s' & E & H1' & H2'); [exact Ht| |].
    2: { rewrite E. cbn [res_bind]. eexists. split; [reflexivity|]. split; [done|]. eapply remembers_same; [|exact Hr|done|done].
         left. unfold stopped. by rewrite En, Ek. }
    done. }
  assert (_handle_initial_review_requirement max_review_items true job i raw' r s = Ok None) as ->.
  { unfold _handle_initial_review_requirement. unfold stopped in Es. apply andb_false_iff in Es as [->| ->%negb_false_iff]; [done|by rewrite orb_true_r]. }
  cbn [res_bind]. destruct (winner earlier r) as [[j first]|] eqn:Ew.
  - destruct (contact_some earlier i raw' r s j first Es Ew Hr) as [-> Hc].
    destruct (repeated_contact_is earlier os i raw' r j first s Es Ew Ht Hr Hi Hc) as (s' & E & Hs').
    rewrite E. cbn [res_bind fst snd]. destruct (is_nil _); [by exists s'|]. destruct (_ && _); by exists s'.
  - destruct (contact_none earlier i raw' r s Es Ew Hr Hi) as (s' & -> & Hr' & Ht'). cbn [res_bind fst snd].
    exact (new_contact_is earlier os i raw' r s' Es Ew (Ht' os Ht) Hr').
Qed.
Lemma rows_step rows earlier os i s :
  tallied os s → remembers earlier s → 0 < i →
  match outcomes earlier i rows with
  | Err e => prepare_rows max_review_items true job i rows s = Err e
  | Ok os' => ∃ s', prepare_rows max_review_items true job i rows s = Ok s' ∧ tallied (os ++ os') s'
  end.
Proof.
  revert earlier os i s. induction rows as [|row rows IH]; intros earlier os i s Ht Hr Hi; cbn [outcomes prepare_rows].
  { exists s. by rewrite app_nil_r. }
  pose proof (row_step earlier os i row s Ht Hr Hi) as Hstep. destruct (read_row job i row) as [r|]; cbn [res_bind]; [|by rewrite Hstep].
  destruct (outcome_of earlier r) as [o|]; cbn [res_bind]; [|by rewrite Hstep]. destruct Hstep as (s1 & E & Ht1 & Hr1). rewrite E. cbn [res_bind].
  specialize (IH (earlier ++ [(i, r)]) (os ++ [(i, o)]) (i + 1) s1 Ht1 Hr1 ltac:(lia)).
  destruct (outcomes _ _ rows) as [os'|]; cbn [res_bind]; [|done]. destruct IH as (s' & E' & Ht'). exists s'. by rewrite <- app_assoc in Ht'.
Qed.
Lemma start_tallied : tallied [] start_prepare.
Proof. constructor; try done. cbn. by rewrite take_nil. Qed.
Lemma start_remembers : remembers [] start_prepare.
Proof. constructor; [done..|]. by intros e ?%elem_of_nil. Qed.
End Outcomes.

(** ** Rows of the outcomes *)

Section Rows.
Context `{Unicode} `{PipelineEnv} `{Casefold} (job : prepare_job).
(** The rows as they are read, as long as they can be. *)
Fixpoint reads (i : Z) (rows : list dict) : list (Z * recovery) :=
  match rows with
  | [] => []
  | row :: rows' => match read_row job i row with Ok r => (i, r) :: reads (i + 1) rows' | Err _ => [] end
  end.
Lemma outcome_at earlier i rows os n j o :
  outcomes job earlier i rows = Ok os → os !! n = Some (j, o) →
  j = i + Z.of_nat n ∧ ∃ row r, rows !! n = Some row ∧ read_row job j row = Ok r ∧ outcome_of job (earlier ++ reads i (take n rows)) r = Ok o
    ∧ reads i (take (S n) rows) = reads i (take n rows) ++ [(j, r)].
Proof.
  revert earlier i os n. induction rows as [|row rows IH]; intros earlier i os n; cbn [outcomes]; [by intros <-%Ok_inj|].
  destruct (read_row job i row) as [r|] eqn:Er; cbn [res_bind]; [|done]. destruct (outcome_of job earlier r) as [o1|] eqn:Eo; cbn [res_bind]; [|done].
  destruct (outcomes _ _ _ rows) as [os1|] eqn:Eos; cbn [res_bind]; [|done]. intros <-%Ok_inj. destruct n as [|n]; cbn [lookup list_lookup].
  - intros [= <- <-]. split; [lia|]. exists row, r. split_and!; [done|done|by cbn; rewrite app_nil_r|]. cbn. by rewrite Er.
  - intros Hn. destruct (IH _ _ _ _ Eos Hn) as (-> & row' & r' & Hrow & Hread & Ho & Hl). split; [lia|]. exists row', r'. split_and!; [done|done| |].
    + cbn [take reads]. rewrite Er. by rewrite <- app_assoc in Ho.
    + cbn [take reads] in *. rewrite Er. by rewrite Hl.
Qed.
Lemma reads_prefix i rows n k : ∃ l, reads i (take (n + k) rows) = reads i (take n rows) ++ l.
Proof.
  revert i rows. induction n as [|n IH]; intros i rows; [by eexists|]. destruct rows as [|row rows]; [by exists []|]. cbn [Nat.add take reads].
  destruct (read_row job i row) as [r|]; [|by exists []]. destruct (IH (i + 1) rows) as [l ->]. by exists l.
Qed.
Lemma outcomes_length earlier i rows os : outcomes job earlier i rows = Ok os → List.length os = List.length rows.
Proof.
  revert earlier i os. induction rows as [|row rows IH]; intros earlier i os; cbn [outcomes]; [by intros <-%Ok_inj|].
  destruct (read_row job i row) as [r|]; cbn [res_bind]; [|done]. destruct (outcome_of job earlier r) as [o1|]; cbn [res_bind]; [|done].
  destruct (outcomes _ _ _ rows) as [os1|] eqn:Eos; cbn [res_bind]; [|done]. intros <-%Ok_inj. cbn. by rewrite (IH _ _ _ Eos).
Qed.
Lemma ready_outcome earlier r d : outcome_of job earlier r = Ok (Ready d) →
  nr_needs_review (rr_row r) = false ∧ winner job earlier r = None
  ∧ ∃ d', validate_row show_container (rr_data r) (pj_entity_type job) = Ok (d', []) ∧ d = put "created_by_id" (OInt (pj_user_id job)) d'.
Proof.
  unfold outcome_of. destruct (stopped job r); [done|]. destruct (winner job earlier r) as [[j first]|].
  { destruct (is_nil _); [done|]. by destruct (_ && _). }
  destruct (nr_needs_review (rr_row r)); [done|]. destruct (validate_row _ _ _) as [[d' [|e es]]|]; cbn [res_bind fst snd is_nil]; [| |done].
  - intros E. apply Ok_inj in E. injection E as <-. split_and!; [done|done|]. by exists d'.
  - by destruct (pj_skip_review_rows job).
Qed.
Lemma ready_at os i d : (i, d) ∈ flat_map ready_of os → ∃ n, os !! n = Some (i, Ready d).
Proof.
  intros Hin. apply list_elem_of_In, in_flat_map in Hin as ([j o] & Ho & Hi). unfold ready_of in Hi. cbn in Hi. destruct o; try done.
  destruct Hi as [[= -> ->]|[]]. by apply list_elem_of_In, list_elem_of_lookup in Ho.
Qed.
(** Every row has one outcome. *)
Lemma outcomes_partition (os : list (Z * outcome)) :
  (List.length (flat_map ready_of os) + List.length (flat_map skipped_of os) + List.length (flat_map discarded_of os) = List.length os)%nat.
Proof. induction os as [|[i o] os IH]; [done|]. cbn [flat_map List.length]. rewrite !length_app. destruct o; cbn; lia. Qed.
(** A row that passed has its contact for itself. *)
Lemma ready_contacts earlier i rows os n n' j j' d d' row row' r r' :
  outcomes job earlier i rows = Ok os → os !! n = Some (j, Ready d) → os !! n' = Some (j', Ready d') →
  rows !! n = Some row → rows !! n' = Some row' → read_row job j row = Ok r → read_row job j' row' = Ok r' →
  contact_key job r ≠ [] → contact_key job r' = contact_key job r → (n < n')%nat → False.
Proof.
  intros Eos Hn Hn' Hrow Hrow' Hr Hr' Hk Ek Hlt.
  destruct (outcome_at _ _ _ _ _ _ _ Eos Hn) as (_ & row1 & r1 & E1 & E2 & Ho & Hl). rewrite Hrow in E1. injection E1 as <-. rewrite Hr in E2. apply Ok_inj in E2 as <-.
  destruct (outcome_at _ _ _ _ _ _ _ Eos Hn') as (_ & row2 & r2 & E3 & E4 & Ho' & _). rewrite Hrow' in E3. injection E3 as <-. rewrite Hr' in E4. apply Ok_inj in E4 as <-.
  apply ready_outcome in Ho as (Hrev & _ & _), Ho' as (_ & Hw & _). unfold winner in Hw. rewrite Ek in Hw.
  assert ((j, r) ∈ earlier ++ reads i (take n' rows)) as Hin.
  { apply elem_of_app. right. assert (∃ k, n' = (S n + k)%nat) as [k ->] by (exists (n' - S n)%nat; lia).
    destruct (reads_prefix i rows (S n) k) as [l ->]. apply elem_of_app. left. rewrite Hl. apply elem_of_app. right. apply list_elem_of_here. }
  destruct (contact_key job r) as [|c t] eqn:Ec; [done|].
  pose proof (find_none _ _ Hw _ (proj1 (list_elem_of_In _ _) Hin)) as Hx. unfold has_contact, stopped in Hx. cbn [snd] in Hx.
  rewrite Hrev, Ec, bool_decide_true in Hx; done.
Qed.
End Rows.


(** C22. What is prepared is sound.  A prepared entry is a row of the file whose reading asked for no review, as
    validation accepted it: no field is out of its bounds and the required ones are there.  And in a file of clients
    or listings whose duplicates are not allowed, no two prepared entries have one phone. *)
Theorem prepared_rows_are_sound `{Unicode} `{PipelineEnv} `{Casefold} max_review_items job rows s :
  prepare_single_entity_import max_review_items true job rows = Ok s →
  (∀ e, e ∈ ps_prepared s → ∃ row r d,
     rows !! Z.to_nat (pe_row e - 1) = Some row ∧ 1 <= pe_row e ∧ read_row job (pe_row e) row = Ok r ∧ nr_needs_review (rr_row r) = false
     ∧ validate_row show_container (rr_data r) (pj_entity_type job) = Ok (d, [])
     ∧ pe_data e = put "created_by_id" (OInt (pj_user_id job)) d
     ∧ (∀ k v, field_of k d = Some v → field_ok k v) ∧ complete_row (pj_entity_type job) d)
  ∧ (dedup_enabled job = true → ∀ e e' row row' r r',
     e ∈ ps_prepared s → e' ∈ ps_prepared s → rows !! Z.to_nat (pe_row e - 1) = Some row → rows !! Z.to_nat (pe_row e' - 1) = Some row' →
     read_row job (pe_row e) row = Ok r → read_row job (pe_row e') row' = Ok r' →
     root_phone_key (rr_data r) ≠ [] → root_phone_key (rr_data r') = root_phone_key (rr_data r) → pe_row e = pe_row e').
Proof.
  unfold prepare_single_entity_import. intros Es.
  pose proof (rows_step max_review_items job rows [] [] 1 start_prepare (start_tallied _) (start_remembers _) ltac:(done)) as Hs.
  destruct (outcomes job [] 1 rows) as [os|e] eqn:Eos; [|by rewrite Hs in Es]. destruct Hs as (s1 & E & Ht). rewrite E in Es. cbn [res_bind app] in *. apply Ok_inj in Es. subst s.
  cbn [set_result ps_prepared].
  assert (∀ e, e ∈ ps_prepared s1 → ∃ n, os !! n = Some (pe_row e, Ready (pe_data e)) ∧ pe_row e = 1 + Z.of_nat n) as Hin.
  { intros e He. destruct (ready_at os (pe_row e) (pe_data e)) as [n Hn].
    - rewrite <- (ta_prepared _ _ _ Ht). apply list_elem_of_fmap. by exists e.
    - exists n. split; [done|]. by destruct (outcome_at _ _ _ _ _ _ _ _ Eos Hn) as (? & _). }
  split.
  - intros e He. destruct (Hin e He) as (n & Hn & Ei). destruct (outcome_at _ _ _ _ _ _ _ _ Eos Hn) as (_ & row & r & Hrow & Hr & Ho & _).
    apply ready_outcome in Ho as (Hrev & _ & d & Hv & Hd). exists row, r, d.
    assert (Z.to_nat (pe_row e - 1) = n) as -> by lia. pose proof Hv as Hv'. apply accepted_state in Hv' as (s0 & Eg & Hok).
    destruct (guardrails_complete _ _ _ Eg Hok) as (_ & Hf & Hc). split_and!; try done. lia.
  - intros Hd e e' row row' r r' He He' Hrow Hrow' Hr Hr' Hk Ek. destruct (Hin e He) as (n & Hn & Ei), (Hin e' He') as (n' & Hn' & Ei').
    assert (Z.to_nat (pe_row e - 1) = n) as En by lia. assert (Z.to_nat (pe_row e' - 1) = n') as En' by lia. rewrite En in Hrow. rewrite En' in Hrow'.
    assert (∀ x, contact_key job x = root_phone_key (rr_data x)) as Hkey by (intros x; unfold contact_key; by rewrite Hd).
    destruct (Nat.lt_trichotomy n n') as [Hlt|[Heq|Hlt]]; [exfalso| lia|exfalso].
    + eapply (ready_contacts job [] 1 rows os n n'); try done; by rewrite !Hkey.
    + eapply (ready_contacts job [] 1 rows os n' n); try done; rewrite !Hkey; congruence.
Qed.

(** ** A file of clients *)

#[local] Existing Instance plain_env.
#[local] Instance plain_casefold : Casefold := tlower.
Definition client_job (skip : bool) (strategy : string) (corrections : list (string * dict)) : prepare_job :=
  mkJob 7 "client" skip strategy corrections [("family_name", "Nom"); ("phone", "Tel"); ("email", "Mail")] [] None [].
Definition client_row (name phone email : string) : dict := [("Nom", OText (u name)); ("Tel", OText (u phone)); ("Mail", OText (u email))].
Definition amine_twice : list dict := [client_row "Amine" "0550123456" EmptyString; client_row "Amine" "+213 550 12 34 56" EmptyString].
Definition prepared_names (r : res prepare_state) : option (list (Z * option obj)) :=
  match r with Ok s => Some (map (λ e, (pe_row e, field_of "family_name" (pe_data e))) (ps_prepared s)) | Err _ => None end.
Lemma prepared_rows_are_sound_witness :
  ∃ s e row r, prepare_single_entity_import 10 true (client_job false "skip" []) amine_twice = Ok s ∧ ps_prepared s = [e]
    ∧ read_row (client_job false "skip" []) (pe_row e) row = Ok r ∧ nr_needs_review (rr_row r) = false.
Proof.
  assert (match prepare_single_entity_import 10 true (client_job false "skip" []) amine_twice with Ok s => List.length (ps_prepared s) = 1%nat | Err _ => False end) as Hl
    by (vm_compute; reflexivity).
  destruct (prepare_single_entity_import 10 true (client_job false "skip" []) amine_twice) as [s|] eqn:E; [|destruct Hl].
  destruct (ps_prepared s) as [|e [|e2 l]] eqn:Ep; [discriminate Hl| |discriminate Hl].
  destruct (prepared_rows_are_sound 10 (client_job false "skip" []) amine_twice s E) as [Hs _].
  destruct (Hs e) as (row & r & d & _ & _ & Hr & Hn & _); [rewrite Ep; apply list_elem_of_here|].
  exists s, e, row, r. exact (conj eq_refl (conj Ep (conj Hr Hn))).
Defined.
(** A contact is claimed by its first row even if that row is refused: the second, which is valid, is grouped under it and
    nothing is imported. *)
Example contact_is_lost :
  (let? s := prepare_single_entity_import 10 true (client_job true "skip" []) [client_row "Amine" "0550123456" "foo"; client_row "Amine" "0550123456" EmptyString] in
   Ok (map pe_row (ps_prepared s), map (λ d, (dl_row_ordinal d, dl_disposition d)) (ps_dead_letters s)))
  = Ok ([], [(1, "blocking_discarded"); (2, "auto_skipped")]).
Proof. vm_compute. reflexivity. Qed.
(** The correction of a row is also applied to the next one. *)
Example correction_spills_over :
  prepared_names (prepare_single_entity_import 10 true (client_job false "skip" [("1", [("Nom", OText (u "Nadia"))])])
                    [client_row "Amine" "0550123456" EmptyString; client_row "Samir" "0660123456" EmptyString])
  = Some [(1, Some (OText (u "Nadia"))); (2, Some (OText (u "Nadia")))].
Proof. vm_compute. reflexivity. Qed.
