(* ===== verification/AuthLockout.v ===== *)
(** * The lockout of credential endpoints

    src/server/services/auth_lockout.py and the sign-in view of src/server/api/auth_views.py that calls it: failed
    attempts of an identity, an identifier with a source address, are counted in the cache, and too many lock it.  The cache keeps an entry until
    its timeout; times are in microseconds.  The theorems on the lock follow the definitions. *)

From S2P Require Import Prelude PyValue PyText Environ.
From Stdlib Require Import Ascii String.
Local Open Scope Z_scope.

(** ** Settings *)

Record lockout_settings := mkSettings { ls_window : Z; ls_threshold : Z; ls_lock : Z }.
(* src/server/services/auth_lockout.py :: _FAILURE_WINDOW_SECONDS *)
Definition _FAILURE_WINDOW_SECONDS (env : environment) : Z := _int_env env "IMMOAPP_AUTH_FAILURE_WINDOW_SECONDS" 900 60 (24 * 3600).
(* src/server/services/auth_lockout.py :: _FAILURE_THRESHOLD *)
Definition _FAILURE_THRESHOLD (env : environment) : Z := _int_env env "IMMOAPP_AUTH_FAILURE_THRESHOLD" 6 3 100.
(* src/server/services/auth_lockout.py :: _LOCK_SECONDS *)
Definition _LOCK_SECONDS (env : environment) : Z := _int_env env "IMMOAPP_AUTH_LOCK_SECONDS" 900 60 (24 * 3600).
Definition lockout_settings_of (env : environment) : lockout_settings :=
  mkSettings (_FAILURE_WINDOW_SECONDS env) (_FAILURE_THRESHOLD env) (_LOCK_SECONDS env).
Definition seconds (n : Z) : Z := n * 1000000.

(** ** The cache *)

Record cached := mkCached { ca_value : Z; ca_expires : Z }.
(** The entries under the keys of the counters and of the locks. *)
Record lockout_cache := mkCache { lc_counts : gmap text cached; lc_locks : gmap text cached }.
Definition no_failures : lockout_cache := mkCache ∅ ∅.
Definition cache_get (now : Z) (k : text) (m : gmap text cached) : option Z :=
  match m !! k with Some e => if now <? ca_expires e then Some (ca_value e) else None | None => None end.
Definition cache_set (now : Z) (k : text) (v timeout : Z) (m : gmap text cached) : gmap text cached := <[k := mkCached v (now + timeout)]> m.

Section Lockout.
Context `{Unicode} (st : lockout_settings).
(* src/server/services/auth_lockout.py :: _normalize *)
Definition lockout_normalize (v : option text) : text := tlower (tstrip (default [] v)).
(* src/server/services/auth_lockout.py :: _identity *)
Definition _identity (identifier source_ip : option text) : text := lockout_normalize identifier ++ [58] ++ lockout_normalize source_ip.
(* src/server/services/auth_lockout.py :: locked_until *)
Definition locked_until (now : Z) (identity : text) (c : lockout_cache) : option Z := cache_get now identity (lc_locks c).
(* src/server/services/auth_lockout.py :: clear_failures *)
Definition clear_failures (identity : text) (c : lockout_cache) : lockout_cache :=
  mkCache (delete identity (lc_counts c)) (delete identity (lc_locks c)).
(** The count of a failure, as read. *)
(* src/server/services/auth_lockout.py :: record_failure [90-94] *)
Definition next_count (now : Z) (identity : text) (c : lockout_cache) : Z :=
  match cache_get now identity (lc_counts c) with Some current => current + 1 | None => 1 end.
(** The count is written, and the lock when the threshold is reached; the alert is left out. *)
(* src/server/services/auth_lockout.py :: record_failure [95-100] *)
Definition store_count (now : Z) (identity : text) (count : Z) (c : lockout_cache) : option Z * lockout_cache :=
  let counts := cache_set now identity count (seconds (ls_window st)) (lc_counts c) in
  if count <? ls_threshold st then (None, mkCache counts (lc_locks c))
  else
    let until := now + seconds (ls_lock st) in
    (Some until, mkCache counts (cache_set now identity until (seconds (ls_lock st)) (lc_locks c))).
(* src/server/services/auth_lockout.py :: record_failure *)
Definition record_failure (now : Z) (identity : text) (c : lockout_cache) : option Z * lockout_cache :=
  store_count now identity (next_count now identity c) c.

(** ** Sign-in *)

Inductive sign_in_outcome := Blocked | TokenIssued | Refused_.
(* src/server/api/auth_views.py :: SecureTokenObtainPairView.post *)
Definition sign_in (now : Z) (identity : text) (password_ok : bool) (c : lockout_cache) : sign_in_outcome * lockout_cache :=
  match locked_until now identity c with
  | Some _ => (Blocked, c)
  | None => if password_ok then (TokenIssued, clear_failures identity c) else (Refused_, (record_failure now identity c).2)
  end.
(** One after the other: the time, the identity and whether the password is right. *)
Definition attempt : Type := Z * text * bool.
Fixpoint sign_ins (h : list attempt) (c : lockout_cache) : list sign_in_outcome * lockout_cache :=
  match h with
  | [] => ([], c)
  | (now, identity, ok) :: h' =>
      let '(o, c1) := sign_in now identity ok c in
      let '(os, c2) := sign_ins h' c1 in (o :: os, c2)
  end.
End Lockout.

Section Guesses.
Context (st : lockout_settings) (id : text).
Definition counters_nonneg (c : lockout_cache) : Prop := ∀ k e, lc_counts c !! k = Some e → 0 <= ca_value e.
(** The attempts of the identity whose password was examined and refused. *)
Fixpoint refused (h : list attempt) (os : list sign_in_outcome) : nat :=
  match h, os with
  | (_, k, _) :: h', o :: os' =>
      (if bool_decide (k = id) then match o with Refused_ => 1 | _ => 0 end else 0) + refused h' os'
  | _, _ => 0
  end%nat.

Lemma next_positive now k c : counters_nonneg c → 0 < next_count now k c.
Proof.
  intros Hc. unfold next_count, cache_get. destruct (lc_counts c !! k) as [e|] eqn:E; [|done]. apply Hc in E. destruct (now <? ca_expires e); lia.
Qed.
Lemma store_nonneg now k n c : 0 <= n → counters_nonneg c → counters_nonneg (store_count st now k n c).2.
Proof.
  intros Hn Hc. assert (counters_nonneg (mkCache (cache_set now k n (seconds (ls_window st)) (lc_counts c)) (lc_locks c))) as Hs.
  { intros k' e. cbn. unfold cache_set. destruct (decide (k = k')) as [->|]; [rewrite lookup_insert_eq by done; by intros [= <-]|rewrite lookup_insert_ne by done; apply Hc]. }
  unfold store_count. cbv zeta. destruct (_ <? _); exact Hs.
Qed.
Lemma sign_in_nonneg now k ok c : counters_nonneg c → counters_nonneg (sign_in st now k ok c).2.
Proof.
  intros Hc. unfold sign_in. destruct (locked_until now k c); [done|]. destruct ok; cbn [snd].
  - intros k' e. cbn. rewrite lookup_delete_Some. intros [_ He]. by eapply Hc.
  - apply store_nonneg; [|done]. pose proof (next_positive now k c Hc). lia.
Qed.
Lemma sign_ins_app h1 h2 c :
  sign_ins st (h1 ++ h2) c = let '(os1, c1) := sign_ins st h1 c in let '(os2, c2) := sign_ins st h2 c1 in (os1 ++ os2, c2).
Proof.
  revert c. induction h1 as [|[[now k] ok] h1 IH]; intros c; cbn [app sign_ins]; [by destruct (sign_ins st h2 c)|].
  destruct (sign_in st now k ok c) as [o c1]. rewrite IH. destruct (sign_ins st h1 c1) as [os1 c2]. by destruct (sign_ins st h2 c2).
Qed.
Lemma sign_ins_nonneg h c : counters_nonneg c → counters_nonneg (sign_ins st h c).2.
Proof.
  revert c. induction h as [|[[now k] ok] h IH]; intros c Hc; [done|]. cbn [sign_ins]. apply (sign_in_nonneg now k ok) in Hc.
  destruct (sign_in st now k ok c) as [o c1]. cbn [snd] in Hc. apply IH in Hc. by destruct (sign_ins st h c1).
Qed.
(** Another identity has its own entries. *)
Lemma sign_in_other now k ok c :
  k ≠ id → let c' := (sign_in st now k ok c).2 in lc_counts c' !! id = lc_counts c !! id ∧ lc_locks c' !! id = lc_locks c !! id.
Proof.
  intros Hk. cbv zeta. unfold sign_in. destruct (locked_until now k c); [done|]. destruct ok; cbn [snd].
  - cbn. by rewrite !lookup_delete_ne.
  - unfold record_failure, store_count, cache_set. cbv zeta. destruct (_ <? _); cbn; by rewrite ?lookup_insert_ne.
Qed.

(** ** One interval *)

Context (t0 : Z) (Ht : 0 < ls_threshold st) (Hw : ls_lock st <= ls_window st).
(** After some refusals in the interval: locked to its end, or counted to its end below the threshold. *)
Definition counted_so_far (n : nat) (c : lockout_cache) : Prop :=
  (∃ e, lc_locks c !! id = Some e ∧ t0 + seconds (ls_lock st) <= ca_expires e ∧ Z.of_nat n <= ls_threshold st)
  ∨ n = 0%nat
  ∨ ∃ e, lc_counts c !! id = Some e ∧ t0 + seconds (ls_lock st) <= ca_expires e ∧ Z.of_nat n <= ca_value e ∧ ca_value e < ls_threshold st.
Lemma refusal_counted now n c :
  t0 <= now → now < t0 + seconds (ls_lock st) → counters_nonneg c → counted_so_far n c →
  match sign_in st now id false c with
  | (Refused_, c') => counted_so_far (S n) c'
  | (_, c') => c' = c
  end.
Proof.
  intros H1 H2 Hc Hn. unfold sign_in. destruct (locked_until now id c) eqn:El; [done|].
  assert (Z.of_nat (S n) <= next_count now id c ∧ Z.of_nat n < ls_threshold st) as [Hnext Hlt].
  { destruct Hn as [(e & E & He & _)|[->|(e & E & He & Hv & Hb)]].
    - unfold locked_until, cache_get in El. rewrite E in El. by rewrite (proj2 (Z.ltb_lt now (ca_expires e))) in El by lia.
    - pose proof (next_positive now id c Hc). lia.
    - unfold next_count, cache_get. rewrite E, (proj2 (Z.ltb_lt now (ca_expires e))) by lia. lia. }
  unfold record_failure, store_count. cbv zeta. unfold counted_so_far, cache_set, seconds in *. destruct (Z.ltb_spec (next_count now id c) (ls_threshold st)); cbn [snd lc_counts lc_locks].
  - right; right. eexists. rewrite lookup_insert_eq. split; [reflexivity|]. cbn. lia.
  - left. eexists. rewrite lookup_insert_eq. split; [reflexivity|]. cbn. lia.
Qed.
Lemma counted_bound n c : counted_so_far n c → Z.of_nat n <= ls_threshold st.
Proof. intros [(e & _ & _ & ?)|[->|(e & _ & _ & ? & ?)]]; lia. Qed.
Lemma interval_counted h n c :
  (∀ t k ok, (t, k, ok) ∈ h → t0 <= t ∧ t < t0 + seconds (ls_lock st) ∧ (k = id → ok = false)) → counters_nonneg c → counted_so_far n c →
  Z.of_nat (n + refused h (sign_ins st h c).1) <= ls_threshold st.
Proof.
  revert n c. induction h as [|[[now k] ok] h IH]; intros n c Hh Hc Hn; [cbn; rewrite Nat.add_0_r; by eapply counted_bound|].
  destruct (Hh now k ok (list_elem_of_here _ _)) as (H1 & H2 & H3).
  assert (∀ t k ok, (t, k, ok) ∈ h → t0 <= t ∧ t < t0 + seconds (ls_lock st) ∧ (k = id → ok = false)) as Hh'
    by (intros; eapply Hh; by apply list_elem_of_further).
  cbn [sign_ins]. pose proof (sign_in_nonneg now k ok c Hc) as Hc1. destruct (decide (k = id)) as [->|Hk].
  - rewrite H3 in * by done. pose proof (refusal_counted now n c H1 H2 Hc Hn) as Hr. destruct (sign_in st now id false c) as [o c1]. cbn [snd] in Hc1.
    destruct o.
    + subst c1. specialize (IH n c Hh' Hc Hn). destruct (sign_ins st h c) as [os c2]. cbn [fst] in *. cbn [refused]. by rewrite bool_decide_true by done.
    + subst c1. specialize (IH n c Hh' Hc Hn). destruct (sign_ins st h c) as [os c2]. cbn [fst] in *. cbn [refused]. by rewrite bool_decide_true by done.
    + specialize (IH (S n) c1 Hh' Hc1 Hr). destruct (sign_ins st h c1) as [os c2]. cbn [fst] in *. cbn [refused]. rewrite bool_decide_true by done. lia.
  - destruct (sign_in_other now k ok c Hk) as [E1 E2]. destruct (sign_in st now k ok c) as [o c1]. cbn [snd] in *.
    assert (counted_so_far n c1) as Hn1 by (unfold counted_so_far; rewrite E1, E2; exact Hn).
    specialize (IH n c1 Hh' Hc1 Hn1). destruct (sign_ins st h c1) as [os c2]. cbn [fst] in *. cbn [refused]. by rewrite bool_decide_false by done.
Qed.
End Guesses.

(** ** Locks *)

(** Each lock comes from a refused attempt. *)
Definition locks_justified (st : lockout_settings) (h : list attempt) (c : lockout_cache) : Prop :=
  ∀ k e, lc_locks c !! k = Some e → ∃ t, (t, k, false) ∈ h ∧ ca_expires e = t + seconds (ls_lock st).
Lemma sign_in_justified st h now k ok c :
  locks_justified st h c → locks_justified st (h ++ [(now, k, ok)]) (sign_in st now k ok c).2.
Proof.
  intros Hj. assert (locks_justified st (h ++ [(now, k, ok)]) c) as Hj'.
  { intros k' e He. destruct (Hj k' e He) as (t & Hin & Ht). exists t. split; [apply elem_of_app; by left|done]. }
  unfold sign_in. destruct (locked_until now k c); [done|]. destruct ok; cbn [snd].
  - intros k' e. cbn. rewrite lookup_delete_Some. intros [_ He]. by apply Hj'.
  - unfold record_failure, store_count. cbv zeta. destruct (_ <? _); cbn [snd]; [exact Hj'|]. intros k' e. cbn. unfold cache_set.
    destruct (decide (k = k')) as [<-|Hk]; [rewrite lookup_insert_eq by done|rewrite lookup_insert_ne by done; apply Hj'].
    intros [= <-]. exists now. split; [apply elem_of_app; right; apply list_elem_of_here|done].
Qed.
Lemma sign_ins_justified st h0 h c : locks_justified st h0 c → locks_justified st (h0 ++ h) (sign_ins st h c).2.
Proof.
  revert h0 c. induction h as [|[[now k] ok] h IH]; intros h0 c Hj; [by rewrite app_nil_r|]. cbn [sign_ins].
  apply (sign_in_justified st h0 now k ok) in Hj. destruct (sign_in st now k ok c) as [o c1]. cbn [snd] in Hj. apply IH in Hj. rewrite <- app_assoc in Hj. by destruct (sign_ins st h c1).
Qed.

Definition default_lockout : lockout_settings := lockout_settings_of [].
Definition guesses (n : nat) : list attempt := repeat (seconds 5, u "amine:10.0.0.1", false) n.
(** The count is read and written in two steps: failures that overlap are counted once, and nothing locks. *)
Example parallel_failures_count_once :
  let count := next_count (seconds 5) (u "a:b") no_failures in
  let store (c : lockout_cache) := store_count default_lockout (seconds 5) (u "a:b") count c in
  let '(locked, c) := Nat.iter 50 (λ x, store x.2) (None, no_failures) in
  (locked, ca_value <$> lc_counts c !! u "a:b") = (None, Some 1).
Proof. vm_compute. reflexivity. Qed.
