(* ===== verification/OfflineOverlay.v ===== *)
(** * What the screens show

    src/app/services/offline_projection.py, the merging of the pages of the server with the projections of an account: entities
    created offline come first, changed ones replace the server's, deleted ones are hidden. *)

From S2P Require Import Prelude PyValue OfflineTypes OfflineStore OfflineProjection.
Local Open Scope Z_scope.

(** ** Models *)

(** A model class of src/app/models: its id ([0] for none), its row and back, and the fields that show its synchronisation. *)
Class EntityModel (T : Type) := {
  model_id : T → Z;
  to_dict : T → pydict;
  from_row : pydict → T;
  sync_metadata : option string → string → bool → T → T;
  (** What the overlay relies on: the id of a model is the one of its row, which the metadata leave alone. *)
  from_row_id d z : dget "id" d = Some (PInt z) → model_id (from_row d) = z;
  to_dict_id x : dget "id" (to_dict x) = Some (PInt (model_id x));
  sync_metadata_id s e l x : model_id (sync_metadata s e l x) = model_id x
}.

Section Overlay.
Context `{EntityModel T}.
Implicit Types (r : OfflineProjectionRecord) (items : list T).

Definition id_or_local r : Z := match pr_server_id r with Some z => if z =? 0 then pr_local_id r else z | None => pr_local_id r end.
(* src/app/services/offline_projection.py :: _apply_sync_metadata *)
Definition _apply_sync_metadata (x : T) r : T :=
  sync_metadata (if str_empty (pr_sync_status r) then None else Some (pr_sync_status r)) (pr_sync_error r) (pr_is_local_only r) x.
(* src/app/services/offline_projection.py :: _model_from_record *)
Definition _model_from_record r : T := _apply_sync_metadata (from_row (dsetdefault "id" (PInt (id_or_local r)) (pr_data r))) r.
(* src/app/services/offline_projection.py :: _merge_model_with_record *)
Definition _merge_model_with_record (item : T) r : T :=
  _apply_sync_metadata (from_row (dsetdefault "id" (PInt (id_or_local r)) (dupdate (to_dict item) (pr_data r)))) r.
Definition pending_delete r : bool := bool_decide (pr_sync_status r = "pending_delete").
Definition is_positive r : bool := 0 <? pr_local_id r.
(** The last record of an id, as a dictionary by id keeps it. *)
Definition record_for (item_id : Z) (records : list OfflineProjectionRecord) : option OfflineProjectionRecord :=
  List.find (λ r, pr_local_id r =? item_id) (rev (List.filter (λ r, is_positive r && negb (pending_delete r)) records)).
Definition hidden_ids (records : list OfflineProjectionRecord) : list Z :=
  map pr_local_id (List.filter (λ r, is_positive r && pending_delete r) records).
Definition local_only (records : list OfflineProjectionRecord) : list OfflineProjectionRecord :=
  List.filter (λ r, (pr_local_id r <? 0) && negb (pending_delete r)) records.
Definition synced_elsewhere (seen : list Z) (records : list OfflineProjectionRecord) : list OfflineProjectionRecord :=
  List.filter (λ r, is_positive r && negb (bool_decide (pr_local_id r ∈ seen)) && bool_decide (pr_sync_status r = "synced")) records.
Definition shown_item (records : list OfflineProjectionRecord) (item : T) : list T :=
  if bool_decide (model_id item ∈ hidden_ids records) then []
  else [match record_for (model_id item) records with Some r => _merge_model_with_record item r | None => item end].
Definition overlay (records : list OfflineProjectionRecord) items : list T :=
  map _model_from_record (local_only records)
  ++ map _model_from_record (synced_elsewhere (map model_id items) records)
  ++ flat_map (shown_item records) items.
(** Without an active account the page is shown as it is. *)
(* src/app/services/offline_projection.py :: overlay_model_list *)
Definition overlay_model_list (scoped : bool) (entity_type : string) items : AM (list T) :=
  if scoped then let! records := list_projection_records entity_type in ret (overlay records items) else ret items.
(* src/app/services/offline_projection.py :: overlay_model_detail *)
Definition overlay_model_detail (scoped : bool) (entity_type : string) (local_id : Z) (item : option T) : AM (option T) :=
  if scoped then
    let! record := get_projection_record entity_type local_id in
    ret match record with
        | None => item
        | Some r =>
            if pending_delete r then None
            else match item with
                 | Some x => if local_id <? 0 then Some (_model_from_record r) else Some (_merge_model_with_record x r)
                 | None => Some (_model_from_record r)
                 end
        end
  else ret item.

(** ** What is shown *)

(** A record names the entity it is for: its row has no id or its own, and an entity of the server its id. *)
Definition names_itself r : Prop :=
  NoDup (dkeys (pr_data r)) ∧ (dget "id" (pr_data r) = Some (PInt (pr_local_id r)) ∨ dget "id" (pr_data r) = None ∧ id_or_local r = pr_local_id r).
Lemma dget_dsetdefault k (v : pyval) (d : pydict) : dget k (dsetdefault k v d) = Some (default v (dget k d)).
Proof. unfold dsetdefault, dhas. destruct (dget k d) eqn:E; [done|]. apply dget_dset_eq. Qed.
Lemma from_record_id r : names_itself r → model_id (_model_from_record r) = pr_local_id r.
Proof.
  intros [_ Hr]. unfold _model_from_record, _apply_sync_metadata. rewrite sync_metadata_id. apply from_row_id. rewrite dget_dsetdefault.
  destruct Hr as [->|[-> <-]]; done.
Qed.
Lemma merged_id item r : names_itself r → pr_local_id r = model_id item → model_id (_merge_model_with_record item r) = model_id item.
Proof.
  intros [Hd Hr] Hi. unfold _merge_model_with_record, _apply_sync_metadata. rewrite sync_metadata_id. apply from_row_id.
  rewrite dget_dsetdefault, dget_dupdate by done. destruct Hr as [->|[-> _]]; [by rewrite <- Hi|]. by rewrite to_dict_id.
Qed.
Lemma record_for_id i records r : record_for i records = Some r → r ∈ records ∧ pr_local_id r = i.
Proof.
  intros [Hin Hi]%find_some. split; [|by apply Z.eqb_eq in Hi]. apply in_rev, filter_In in Hin as [Hin _]. by apply list_elem_of_In.
Qed.
Lemma shown_ids records items :
  Forall names_itself records →
  map model_id (flat_map (shown_item records) items) = List.filter (λ i, negb (bool_decide (i ∈ hidden_ids records))) (map model_id items).
Proof.
  rewrite Forall_forall. intros Hr. induction items as [|x items IH]; [done|]. cbn [flat_map map List.filter]. rewrite map_app, IH. unfold shown_item.
  destruct (bool_decide (model_id x ∈ hidden_ids records)); cbn [negb]; [done|]. cbn [map app]. f_equal.
  destruct (record_for (model_id x) records) as [r|] eqn:E; [|done]. apply record_for_id in E as [Hin Hi]. by apply merged_id; [apply Hr|].
Qed.
Lemma overlay_ids records items :
  Forall names_itself records →
  map model_id (overlay records items)
  = map pr_local_id (local_only records) ++ map pr_local_id (synced_elsewhere (map model_id items) records)
    ++ List.filter (λ i, negb (bool_decide (i ∈ hidden_ids records))) (map model_id items).
Proof.
  intros Hr. unfold overlay. rewrite !map_app, !map_map, shown_ids by done. rewrite Forall_forall in Hr. f_equal; [|f_equal]; apply map_ext_in; intros r Hin;
    apply from_record_id, Hr, list_elem_of_In; by apply filter_In in Hin as [? _].
Qed.
Lemma filter_nodup {A B} (f : A → B) (p : A → bool) l : NoDup (map f l) → NoDup (map f (List.filter p l)).
Proof.
  induction l as [|x l IH]; [done|]. cbn. intros [Hx Hl]%NoDup_cons. destruct (p x); [|by apply IH]. apply NoDup_cons. split; [|by apply IH].
  intros Hin. apply Hx. apply list_elem_of_In, in_map_iff in Hin as (y & Ey & Hy). apply filter_In in Hy as [Hy _]. rewrite <- Ey.
  by apply list_elem_of_In, in_map.
Qed.
Lemma in_filter_ids p records i : i ∈ map pr_local_id (List.filter p records) → ∃ r, r ∈ records ∧ p r = true ∧ pr_local_id r = i.
Proof.
  intros Hi. apply list_elem_of_In, in_map_iff in Hi as (r & E & Hr). apply filter_In in Hr as [Hr Hp]. exists r. split; [by apply list_elem_of_In|done].
Qed.
End Overlay.

(** C35. Each entity is shown once.  The list of a screen shows, in this order, the entities created offline, the synchronised ones that
    the page lacks, and the entities of the page less those deleted offline, and none of them twice; an entity without a
    projection is shown as the server sent it. *)
Theorem each_entity_is_shown_once `{EntityModel T} records (items : list T) :
  Forall names_itself records → NoDup (map pr_local_id records) → NoDup (map model_id items) → (∀ x, x ∈ items → 0 < model_id x) →
  map model_id (overlay records items)
    = map pr_local_id (local_only records) ++ map pr_local_id (synced_elsewhere (map model_id items) records)
      ++ List.filter (λ i, negb (bool_decide (i ∈ hidden_ids records))) (map model_id items)
  ∧ NoDup (map model_id (overlay records items))
  ∧ ∀ x, x ∈ items → model_id x ∉ map pr_local_id records → x ∈ overlay records items.
Proof.
  intros Hr Hn Hi Hpos. rewrite overlay_ids by done. split; [done|]. split.
  - rewrite !NoDup_app. split_and!; [by apply filter_nodup| |by apply filter_nodup| |].
    + intros i (r & _ & Hp & <-)%in_filter_ids [Hin|Hin]%elem_of_app; apply andb_true_iff in Hp as [Hp _]; apply Z.ltb_lt in Hp.
      * apply in_filter_ids in Hin as (r' & _ & Hp' & E). apply andb_true_iff in Hp' as [Hp' _]. apply andb_true_iff in Hp' as [Hp' _]. apply Z.ltb_lt in Hp'. lia.
      * apply list_elem_of_In, filter_In in Hin as [Hin _]. apply in_map_iff in Hin as (x & E & Hx). specialize (Hpos x (proj2 (list_elem_of_In _ _) Hx)). lia.
    + intros i (r & _ & Hp & <-)%in_filter_ids Hin. apply andb_true_iff in Hp as [Hp _]. apply andb_true_iff in Hp as [_ Hp]. apply negb_true_iff, bool_decide_eq_false in Hp.
      apply list_elem_of_In, filter_In in Hin as [Hin _]. by apply Hp, list_elem_of_In.
    + rewrite <- (map_id (List.filter _ _)). apply filter_nodup. by rewrite map_id.
  - intros x Hx Hnone. unfold overlay. apply elem_of_app. right. apply elem_of_app. right. apply list_elem_of_In, in_flat_map. exists x.
    split; [by apply list_elem_of_In|]. unfold shown_item. rewrite bool_decide_false.
    + destruct (record_for (model_id x) records) as [r|] eqn:E; [|by left]. exfalso. apply record_for_id in E as [Hin E]. apply Hnone. rewrite <- E.
      apply list_elem_of_fmap. by exists r.
    + intros (r & Hin & _ & E)%in_filter_ids. apply Hnone. rewrite <- E. apply list_elem_of_fmap. by exists r.
Qed.

(** ** Rows as models *)

Record demo_row := mkRow { dr_id : Z; dr_row : pydict; dr_status : option string }.
#[refine] Instance demo_model : EntityModel demo_row := {|
  model_id := dr_id;
  to_dict x := dset "id" (PInt (dr_id x)) (dr_row x);
  from_row d := mkRow (match dget "id" d with Some (PInt z) => z | _ => 0 end) d None;
  sync_metadata s _ _ x := mkRow (dr_id x) (dr_row x) s
|}.
Proof.
  - by intros d z ->.
  - intros x. apply dget_dset_eq.
  - done.
Defined.
Definition created_offline : OfflineProjectionRecord := mkProj "client" (-1) None [("name", PStr "Nadia")] "pending" EmptyString true.
Definition synced_before : OfflineProjectionRecord := mkProj "client" 7 (Some 7) [("id", PInt 7); ("name", PStr "Amine")] "synced" EmptyString false.
Definition server_page : list demo_row := [mkRow 7 [("id", PInt 7); ("name", PStr "Amine Ziani")] None; mkRow 9 [("name", PStr "Samir")] None].
Lemma each_entity_is_shown_once_witness :
  map model_id (overlay [created_offline; synced_before] server_page) = [-1; 7; 9] ∧ NoDup (map model_id (overlay [created_offline; synced_before] server_page)).
Proof.
  destruct (each_entity_is_shown_once [created_offline; synced_before] server_page) as (H1 & H2 & _).
  - repeat constructor; apply (bool_decide_unpack _); vm_compute; exact I.
  - apply (bool_decide_unpack _). vm_compute. exact I.
  - apply (bool_decide_unpack _). vm_compute. exact I.
  - apply Forall_forall. repeat constructor.
  - split; [|exact H2]. rewrite H1. vm_compute. reflexivity.
Defined.
(** The projection of an entity that was created offline stays after its synchronisation and hides what the server changes
    since. *)
Example synced_hides_the_server :
  map (λ x, dget "name" (dr_row x)) (overlay [synced_before] server_page) = [Some (PStr "Amine"); Some (PStr "Samir")].
Proof. vm_compute. reflexivity. Qed.
(** And it is shown after the server no longer has the entity, on every page and for every search. *)
Example synced_outlives_the_server : map model_id (overlay [synced_before] [mkRow 9 [("name", PStr "Samir")] None]) = [7; 9].
Proof. vm_compute. reflexivity. Qed.
